(* ===== verification/_CoqProject ===== *)
-Q . S2P
Prelude.v
GoStrings.v
GoNumbers.v
GoCrypto.v
Totp.v
TotpFacts.v
SignInModel.v
Mfa.v
Login.v
MfaFacts.v
LoginFacts.v
LockFacts.v
SignInExamples.v
SqlLex.v
SqlGrammar.v
SqlStatement.v
SqlSafety.v
SqlSafetyFacts.v
WriteExec.v
WriteExecFacts.v
DdlExec.v
DdlExecFacts.v
PgWal.v
PgWalFacts.v
BackupModel.v
BinlogChain.v
BackupChain.v
BackupChainFacts.v
BackupLock.v
SyntheticFull.v
SyntheticFullFacts.v
BackupPurge.v
BackupPurgeFacts.v
LogStream.v
RestorePlan.v
RestorePlanFacts.v
LogStreamFacts.v
ProtectionModel.v
ReplicaProtection.v
ReplicaProtectionFacts.v
Protection.v
ProtectionRisk.v
ProtectionFacts.v
ProtectionListFacts.v
BackupAlert.v
BackupAlertFacts.v
AlertScanFacts.v
ProtectionExamples.v
ParentTree.v
AccessModel.v
HostGrants.v
AccessControl.v
InstanceAccess.v
Routes.v
AccessFacts.v
GrantFacts.v
RoleFacts.v
RouteFacts.v
ListFacts.v
InstanceFacts.v
AccessExamples.v
GoJson.v
MqAudit.v
MqAuditFacts.v
MqModel.v
MqAdapters.v
MqAdapterFacts.v
MqOperation.v
MqOperationFacts.v
MqExamples.v
