(* ===== verification/Prelude.v ===== *)
(** * Opscenter: a verification library for the Go backend

    Opscenter is an operations console: a Go server ([src/internal], with
    [biz] for the use cases, [data] for the repositories, [service] and
    [server] for HTTP) that runs SQL on managed databases, backs them up and
    restores them, and signs its users in; it also manages message queues. This
    library models the parts that decide what may happen, as executable definitions that follow the code
    line by line, and proves what makes them correct. File names below are
    under [src/internal]; [database/] stands for [biz/database/].

    ** Conventions

    A Go function is a Rocq function of the same name where the name is free.
    [(T, error)] is [result T]; code that writes a store is a [handler]: the
    store is returned with an error too, since Go keeps what was written
    before a [return err]. Code that returns its errors as values is an [st].
    A repository is a [gmap] or a list in the record of the store, and each
    statement is a definition ([Where], [Order] and the columns of [Select] or
    [Updates] as written). Texts are lists of code points ([GoStrings]): they
    come from JSON or the driver, so they are valid UTF-8. Machine integers
    are numbers of [Z], wrapped where the code can overflow ([GoNumbers]). A
    time is a number of nanoseconds, and a request reads the clock once.
    Loops are structural or take fuel; where there is fuel a theorem says it
    is enough.

    Code outside of the sources is a class of operations ([UnicodeTables],
    [GoLib], [AgentLib], [SignInLib], [RandomSource], ...) with its documented
    laws in a second class ([UpperLaws], [RandomLaws], [SignInLaws]) where a
    theorem needs them; an instance that evaluates accompanies each of them, and
    the witnesses run on it.

    ** Parts

    - [GoStrings], [GoNumbers], [GoCrypto]: what the code uses of [strings],
      [unicode], [fmt], [strconv], [crypto], [encoding/hex] and
      [encoding/base32], with read-back lemmas and published vectors.
    - SQL safety ([database/sql_safety.go], [query_write.go]): [SqlLex] has the
      scanners (comment, quote and statement separators, keywords, depth),
      [SqlGrammar] an abstract lexer that they refine, [SqlStatement] and
      [SqlSafety] the classification of a statement and the checks of reads,
      writes, DDL and EXPLAIN. [SqlSafetyFacts]: what an accepted statement is
      not (several statements, a write, a locking read, an unfiltered change),
      the row limit that is enforced, and that a missing policy denies.
    - Controlled writes ([database/query_change.go], [query_enhancement.go],
      [usecase.go]): [WriteExec] is the protocol on a transaction, [WriteExecFacts]
      shows that a change beyond its limit is rolled back, that every write
      passed every guard, and that each attempt leaves one audit row. [DdlExec]
      ([database/query_ddl.go]) is the same for CREATE statements, over the same
      environment and audit table ([DdlExecFacts]).
    - Backup chains ([database/backup_policy_chain.go], [model.go]): [BackupModel]
      has the rows, [BackupChain] the validation; [BackupChainFacts] characterises
      a complete chain, the continuity of its LSNs, and termination.
      [BinlogChain] has the file chain of archived binlogs.
    - [BackupLock] ([database/backup_execution.go], [backup_policy.go],
      [barman.go]): the run locks as interleaved steps; of the runs that take a
      lock at most one per task, policy, instance; the manual backup of a Barman
      server takes none ([manual_barman_unlocked]).
    - [SyntheticFull] ([database/backup_policy_auto_synthetic.go]) and
      [BackupPurge] ([backup_policy_purge.go]): merging a prefix of a chain into
      a new full backup, and expiring what it replaced; only proven sources
      are expired, and what a purge reports is what it did.
    - [LogStream] ([database/log_archive_stream_control.go], [runner_agent.go],
      [backup_pitr.go]): operators and agents over a log stream; leases exclude
      other agents, a halted stream is left alone, reports keep the state
      consistent.
    - [PgWal] ([database/pgwal/pgwal.go]): positions, timelines, segments; ranges
      are those of the reference, and names and positions are read back.
    - [RestorePlan] ([database/backup_pitr.go]): planning a restore to a time or
      a position; a plan is refused or its base, increments and logs cover the
      target, and a refused plan writes nothing.
    - Sign-in ([service/rbac], [biz/mfa], [biz/system], [data/system]): [Totp] has
      the one-time passwords, [SignInModel] the store, [Mfa] the second factor,
      [Login] the password step, the account lock, the captcha, the directory
      and the tokens. [TotpFacts], [MfaFacts], [LoginFacts] and [LockFacts]: codes
      tolerate a drift of thirty seconds; the second factor accepts one-time
      passwords only; no session without good credentials and, where it is on,
      the second factor; wrong passwords are bounded, and a lock ends.
    - Access ([biz/asset], [data/asset], [data/rbac], [data/database], [service] and
      [server]): [ParentTree] has trees of rows with parents, [AccessModel] the
      tables, [HostGrants] and [AccessControl] the grants on hosts, the roles and
      the middlewares, [InstanceAccess] the grants on database instances and the
      writes behind them, [Routes] every route with its guards. [AccessFacts],
      [GrantFacts], [RoleFacts], [RouteFacts], [ListFacts] and [InstanceFacts]: a
      check answers yes exactly for administrators and live grants (the check of
      an instance also, in the compatibility mode without rules, for every
      signed-in user), grants stay
      well formed and a failed change never widens them, lists show what the
      check lets through, and which routes are guarded by what. [AccessExamples]
      evaluates them.
    - Protection ([database/protection_profile.go], [protection_risk.go],
      [replication_protection.go]): [ProtectionModel] has the rows and queries as
      one [view], [ReplicaProtection] the delayed replicas, [Protection] the profile
      of an instance with what it inherits from its primary, [ProtectionRisk] the
      listings. [ReplicaProtectionFacts], [ProtectionFacts], [ProtectionListFacts]:
      the recursion over the primaries ends, a low risk and a verified level stand
      for what they say, and the pages of a listing give every row.
    - Backup alerts ([database/backup_alert_rule.go]): [BackupAlert] has the rules,
      the candidates and the scan. [BackupAlertFacts] and [AlertScanFacts]:
      fingerprints name one issue, in every table that can be reached the alerts
      that fire after a scan are the candidates of the enabled rules, an instance
      at risk is alerted, notices keep their interval, and an instance that
      cannot be read looks recovered. [ProtectionExamples] evaluates both parts.
    - Message queues ([biz/messagequeue], [data/messagequeue],
      [service/messagequeue]): [GoJson] is what the code uses of [encoding/json],
      [MqAudit] the audit tables with their hash chains and the verification
      ([audit_repository.go], [usecase_advanced_governance.go]), [MqModel] the rows
      and parameters, [MqAdapters] what the Kafka, RabbitMQ and Pulsar adapters
      accept and send, [MqOperation] the plan and the execution of an operation
      with its handlers ([usecase.go], [http.go]). [MqAuditFacts]: trails of requests
      that do not overlap verify, a rewritten row shows in the newest hash, and
      operations that overlap break a trail. [MqAdapterFacts]: a second validation
      answers as the first, except for Pulsar subscriptions, which lose their
      topic, and for Pulsar namespaces with an extra slash. [MqOperationFacts]:
      what every call to a broker has passed, a key whose row is stored is not
      carried out again by later requests, locks are released, and the trail
      stays quiet.
      [MqExamples] evaluates them.

    The parts meet: [SqlSafety] guards [WriteExec] and [DdlExec], and
    [InstanceAccess] puts the menu code and the grant on the instance in front
    of both; [BackupChain] and [BinlogChain] serve [SyntheticFull], [BackupPurge]
    and [RestorePlan]; [Login] calls [Mfa], which calls [Totp], and its
    [AuthRequired] stands in front of [Routes]; [BackupAlert] reads the risks of
    [ProtectionRisk], which reads [Protection], which reads [ReplicaProtection] and
    the WAL checks of [RestorePlan]. [MqOperation] writes the rows of [MqAudit] and
    calls [MqAdapters]; the trail it leaves is the [quiet] one that the
    verification accepts. Where one part promises another something
    it is stated as lemmas of the first ([...Facts]) that the second applies.

    ** Bounds and fuel

    The SQL scanners are structural on the text. The chain validation walks at
    most as many parents as there are records, which [chain_validation_total]
    proves enough. [SegmentRange] takes a round per segment number, which
    [segment_range_exact] proves enough. A tree of
    groups takes a round per row ([descendants_exact]), and a profile a turn
    per instance ([profile_total]). The loops over pages stop where the code
    stops them: 200 pages of 100, which holds the 10000 instances that a
    listing reads ([risks_listed]), and 5 pages of failed records. The decimal and hexadecimal printers have fuel for 64 bits; base32 takes the
    length of the text.

    ** Assumptions

    Requests of a handler are run one after the other, except where a
    theorem says otherwise ([BackupLock], [concurrent_pause_lost]). Time zones
    have a fixed offset. Repositories are configured and rows are never nil.
    In [SignInModel] a table answers all statements of a request or none; in
    the access part every statement may be refused by itself, and so may every
    query of a [view]. A listing of the protection part, or one of the three
    listings of an alert rule, reads one view and one clock. Path matching of
    the router is not modelled. A comparison of texts in SQL is equality.
    In the message queues every answer from outside may depend on the calls so
    far, the clock too, so that nothing changes between two calls; the numbers
    of a JSON parameter are integral and at most 2^53; a map is the list of its entries in the
    order of a [range], and theorems hold for every order; the bytes of a rune
    that [trimText] cuts apart are written U+FFFD; reading a JSON text is a parameter.
    The login log and the clean-up of expired devices run in goroutines: the
    first is listed in the order of its starts, the second is an operation of
    its own.

    ** Not modelled

    What only moves data: HTTP binding, listing, display texts, value
    objects, command lines of backup tools, adapters of clusters, web servers
    and hypervisors, what brokers report (metadata, metrics, samples, dead
    letters), generated documents, the web client. The identity provider is not
    mounted by the server. The texts of errors from libraries are parameters.
    Also open are the due times of the schedulers, which are rules over
    tickers, and the life cycle of replication incidents, whose states are
    read from the engines. *)

From Stdlib Require Import ZArith Lia.
From stdpp Require Import base tactics option list numbers strings gmap.

Open Scope Z_scope.

(** ** Results: Go's [(T, error)] *)

(** A Go function with the signature [(T, error)] either returns a value with
    a nil error or an error whose text is kept; code points as in GoStrings. *)
Inductive result (A : Type) : Type :=
| Ok (a : A)
| Err (msg : list Z).
Arguments Ok {A} a.
Arguments Err {A} msg.

#[export] Instance result_ret : MRet result := fun A a => Ok a.
#[export] Instance result_bind : MBind result := fun A B f m =>
  match m with Ok a => f a | Err e => Err e end.

Definition is_ok {A} (r : result A) : bool :=
  match r with Ok _ => true | Err _ => false end.

(** Where [injection] would evaluate its sides. *)
Lemma Ok_eq {A} (a a' : A) : Ok a = Ok a' -> a = a'.
Proof. by intros [= ->]. Qed.

Lemma bind_Ok {A B} (f : A -> result B) (m : result A) (b : B) :
  m ≫= f = Ok b <-> exists a, m = Ok a /\ f a = Ok b.
Proof. destruct m; simpl; naive_solver. Qed.

(** ** State with errors: effects made before a failure stay *)

(** A handler that threads a store [S]; the store is returned on the error
    path too, as Go keeps every write made before the [return ..., err]. *)
Definition handler (S A : Type) : Type := S -> result A * S.

#[export] Instance handler_ret {S} : MRet (handler S) := fun A a s => (Ok a, s).
#[export] Instance handler_bind {S} : MBind (handler S) := fun A B f m s =>
  match m s with
  | (Ok a, s') => f a s'
  | (Err e, s') => (Err e, s')
  end.

Definition h_fail {S A} (e : list Z) : handler S A := fun s => (Err e, s).
Definition h_get {S} : handler S S := fun s => (Ok s, s).
Definition h_put {S} (s : S) : handler S unit := fun _ => (Ok tt, s).
Definition h_lift {S A} (r : result A) : handler S A := fun s => (r, s).
Definition h_guard {S} (b : bool) (e : list Z) : handler S unit :=
  fun s => if b then (Ok tt, s) else (Err e, s).

(** [if err := m; err != nil { return f(err) }]. *)
Definition h_map_err {S A} (f : list Z -> list Z) (m : handler S A) : handler S A := fun s =>
  match m s with
  | (Ok a, s') => (Ok a, s')
  | (Err e, s') => (Err (f e), s')
  end.

(** Inversion of a run of a bind that ends in [Ok]. *)
Lemma h_bind_Ok {S A B} (f : A -> handler S B) (m : handler S A) s b s' :
  (m ≫= f) s = (Ok b, s') <->
  exists a s1, m s = (Ok a, s1) /\ f a s1 = (Ok b, s').
Proof.
  unfold mbind, handler_bind. destruct (m s) as [[a|e] s1]; naive_solver.
Qed.

(** The ways a run of a bind ends. *)
Lemma h_bind_inv {S A B} (f : A -> handler S B) (m : handler S A) s res s' :
  (m ≫= f) s = (res, s') ->
  (exists a s1, m s = (Ok a, s1) /\ f a s1 = (res, s')) \/
  (exists e, m s = (Err e, s') /\ res = Err e).
Proof.
  unfold mbind, handler_bind. destruct (m s) as [[a|e] s1]; [eauto|].
  intros [= <- <-]. eauto.
Qed.

Lemma h_guard_Ok {S} b e (s : S) u s' :
  h_guard b e s = (Ok u, s') <-> b = true /\ u = tt /\ s' = s.
Proof. unfold h_guard. destruct b, u; naive_solver. Qed.

(** One step of a run that only reads. *)
Lemma h_lift_bind {S A B} (f : A -> handler S B) (r : result A) s :
  (h_lift r ≫= f) s = match r with Ok a => f a s | Err e => (Err e, s) end.
Proof. by destruct r. Qed.
Lemma h_guard_bind {S B} (f : unit -> handler S B) b e s :
  (h_guard b e ≫= f) s = if b then f tt s else (Err e, s).
Proof. by destruct b. Qed.
Lemma h_get_bind {S B} (f : S -> handler S B) s : (h_get ≫= f) s = f s s.
Proof. done. Qed.
Lemma h_ret_bind {S A B} (f : A -> handler S B) (a : A) s : (mret a ≫= f) s = f a s.
Proof. done. Qed.

(** ** Invariants of a handler

    [ensures I m Q]: from a state with [I], [m] ends in a state with [I],
    whether it fails or not, and its value has [Q]. *)
Section ensures.
Context {S : Type} (I : S -> Prop).

Definition ensures {A} (m : handler S A) (Q : A -> Prop) : Prop :=
  forall s, I s -> I (m s).2 /\ forall a, (m s).1 = Ok a -> Q a.

Lemma ensures_ret {A} (a : A) (Q : A -> Prop) : Q a -> ensures (mret a) Q.
Proof. intros HQ s Hs. split; [done|]. simpl. by intros ? [= <-]. Qed.
Lemma ensures_fail {A} e (Q : A -> Prop) : ensures (h_fail e) Q.
Proof. intros s Hs. by split. Qed.
Lemma ensures_lift {A} (r : result A) : ensures (h_lift r) (fun a => r = Ok a).
Proof. intros s Hs. by split. Qed.
Lemma ensures_bind {A B} (m : handler S A) (f : A -> handler S B) Q Q' :
  ensures m Q -> (forall a, Q a -> ensures (f a) Q') -> ensures (m ≫= f) Q'.
Proof.
  intros Hm Hf s Hs. specialize (Hm s Hs) as [Hi Hq]. unfold mbind, handler_bind.
  destruct (m s) as [[a|e] s']; simpl in *.
  - apply Hf; [by apply Hq | done].
  - by split.
Qed.
Lemma ensures_map_err {A} g (m : handler S A) Q : ensures m Q -> ensures (h_map_err g m) Q.
Proof.
  intros Hm s Hs. specialize (Hm s Hs). unfold h_map_err.
  destruct (m s) as [[a|e] s']; simpl in *; [done|]. by destruct Hm.
Qed.
Lemma ensures_weaken {A} (m : handler S A) (Q Q' : A -> Prop) :
  ensures m Q -> (forall a, Q a -> Q' a) -> ensures m Q'.
Proof. intros Hm HQ s Hs. specialize (Hm s Hs) as [Hi Hq]. split; [done|]. eauto. Qed.
Lemma ensures_true {A} (m : handler S A) Q : ensures m Q -> ensures m (fun _ => True).
Proof. intros Hm. by eapply ensures_weaken. Qed.
End ensures.

(** ** State without errors: Go code that returns its errors as values *)
Definition st (S A : Type) : Type := S -> A * S.

#[export] Instance st_ret {S} : MRet (st S) := fun A a s => (a, s).
#[export] Instance st_bind {S} : MBind (st S) := fun A B f m s =>
  let (a, s') := m s in f a s'.

Lemma st_bind_eq {S A B} (f : A -> st S B) (m : st S A) s :
  (m ≫= f) s = f (m s).1 (m s).2.
Proof. unfold mbind, st_bind. by destruct (m s). Qed.

Lemma pair_eq {A B} (a a' : A) (b b' : B) : (a, b) = (a', b') <-> a = a' /\ b = b'.
Proof. split; [by intros [= -> ->] | by intros [-> ->]]. Qed.

Lemma some_triple {A B C} (a a' : A) (b b' : B) (c c' : C) :
  Some (a, b, c) = Some (a', b', c') -> a = a' /\ b = b' /\ c = c'.
Proof. by intros [= -> -> ->]. Qed.

(** ** Booleans and decisions *)

Lemma negb_bool_decide_true (P : Prop) `{Decision P} :
  negb (bool_decide P) = true <-> ~ P.
Proof. rewrite negb_true_iff. apply bool_decide_eq_false. Qed.

(** Turn every boolean test of the context into the proposition it decides. *)
Ltac bsimpl :=
  repeat match goal with
  | H : _ && _ = true |- _ => apply andb_true_iff in H as [? ?]
  | H : _ || _ = false |- _ => apply orb_false_iff in H as [? ?]
  | H : negb _ = true |- _ => apply negb_true_iff in H
  | H : negb _ = false |- _ => apply negb_false_iff in H
  | H : bool_decide _ = true |- _ => apply bool_decide_eq_true in H
  | H : bool_decide _ = false |- _ => apply bool_decide_eq_false in H
  | H : (_ <? _) = true |- _ => apply Z.ltb_lt in H
  | H : (_ <? _) = false |- _ => apply Z.ltb_ge in H
  | H : (_ <=? _) = true |- _ => apply Z.leb_le in H
  | H : (_ <=? _) = false |- _ => apply Z.leb_gt in H
  | H : (_ =? _) = true |- _ => apply Z.eqb_eq in H
  | H : (_ =? _) = false |- _ => apply Z.eqb_neq in H
  | H : true = _ |- _ => symmetry in H
  | H : false = _ |- _ => symmetry in H
  end.

(** Case analysis on the outermost test of a hypothesis that equates a
    cascade of early returns with a value. *)
Ltac case_if_in H :=
  match type of H with
  | context [if ?b then _ else _] =>
      lazymatch b with
      | context [if _ then _ else _] => fail
      | _ => let E := fresh "Hc" in destruct b eqn:E
      end
  end.

(** ** Lists *)

(** Drop the head when there is one; the argument itself otherwise, so that a
    structural recursion may go through it. *)
Definition drop1 {A} (l : list A) : list A :=
  match l with [] => l | _ :: m => m end.

Lemma drop1_length {A} (l : list A) : (length (drop1 l) <= length l)%nat.
Proof. destruct l; simpl; lia. Qed.

Lemma drop1_suffix {A} (l : list A) : drop1 l `suffix_of` l.
Proof. destruct l as [|x l]; [done|]. by exists [x]. Qed.

Lemma find_app {A} (p : A -> bool) l k :
  List.find p (l ++ k) = match List.find p l with Some x => Some x | None => List.find p k end.
Proof. induction l as [|x l IH]; [done|]. simpl. by destruct (p x). Qed.

Lemma last_take_lookup {A} (x d : A) n l :
  (1 <= n <= length l)%nat -> l !! (n - 1)%nat = Some (List.last (x :: take n l) d).
Proof.
  revert x n. induction l as [|y l IH]; intros x n Hn; simpl in Hn; [lia|].
  destruct n as [|n]; [lia|]. simpl take. change (List.last (x :: y :: take n l) d) with
    (List.last (y :: take n l) d). replace (S n - 1)%nat with n by lia.
  destruct n as [|n]; [done|]. rewrite <- IH by lia. simpl. by rewrite Nat.sub_0_r.
Qed.

(** A prefix of a list without duplicates ends where the list ends only when
    it is the list. *)
Lemma take_last_all {A B} (f : A -> B) (x d : A) n l :
  NoDup (f <$> x :: l) -> f (List.last (x :: take n l) d) = f (List.last (x :: l) d) ->
  take n l = l.
Proof.
  revert x n. induction l as [|y l IH]; intros x n Hnd He; [by destruct n|].
  destruct n as [|n].
  - exfalso. rewrite fmap_cons in Hnd. apply NoDup_cons in Hnd as [H1 _]. apply H1.
    simpl take in He. change (List.last [x] d) with x in He. rewrite He.
    apply list_elem_of_fmap_2. change (List.last (x :: y :: l) d) with (List.last (y :: l) d).
    apply list_elem_of_In. destruct (@exists_last _ (y :: l)) as (l' & z & Hz); [done|].
    rewrite Hz, List.last_last. apply in_or_app. right. by left.
  - simpl. f_equal. apply (IH y); [by inversion Hnd|]. exact He.
Qed.

(** Induction on the length of a list. *)
Lemma length_ind {A} (P : list A -> Prop) :
  (forall l, (forall m, (length m < length l)%nat -> P m) -> P l) -> forall l, P l.
Proof.
  intros H l. remember (length l) as n eqn:Hn. revert l Hn.
  induction n as [n IH] using lt_wf_ind. intros l ->. apply H. intros m Hm.
  by apply (IH (length m)).
Qed.

Create HintDb opscenter.
Create Rewrite HintDb opscenter.
#[export] Hint Resolve drop1_length drop1_suffix : opscenter.
