(* ===== verification/GoStrings.v ===== *)
(** * Go strings and the part of [strings], [unicode] and [fmt] the code uses *)

From Stdlib Require Import Ascii String.
From Stdlib Require Import ZArith Lia.
From stdpp Require Import base tactics option list numbers strings pretty.
From S2P Require Import Prelude.
Export StringSyntax.

Open Scope Z_scope.

(** ** Text as code points

    The texts the modelled code handles come out of [encoding/json] or of
    the database driver, so they are valid UTF-8; a Go [string] is its list
    of code points and [[]rune(s)] / [string(runes)] are the identity. *)
Abbreviation rune := Z (only parsing).
Abbreviation gostring := (list Z) (only parsing).

(** ** Literals: the bytes of a Rocq string, UTF-8 decoded *)
Definition byte_Z (a : ascii) : Z := Z.of_N (N_of_ascii a).

Fixpoint utf8_decode (l : list Z) : gostring :=
  match l with
  | [] => []
  | b0 :: l0 =>
    if b0 <? 128 then b0 :: utf8_decode l0
    else match l0 with
    | [] => [65533]
    | b1 :: l1 =>
      if b0 <? 224 then ((b0 - 192) * 64 + (b1 - 128)) :: utf8_decode l1
      else match l1 with
      | [] => [65533]
      | b2 :: l2 =>
        if b0 <? 240
        then ((b0 - 224) * 4096 + (b1 - 128) * 64 + (b2 - 128)) :: utf8_decode l2
        else match l2 with
        | [] => [65533]
        | b3 :: l3 =>
          ((b0 - 240) * 262144 + (b1 - 128) * 4096 + (b2 - 128) * 64 + (b3 - 128))
          :: utf8_decode l3
        end
      end
    end
  end.

Definition lit (s : string) : gostring :=
  utf8_decode (List.map byte_Z (list_ascii_of_string s)).
#[global] Arguments lit s%_string : simpl never.

Declare Scope go_scope.
Notation "$ s" := (lit s) (at level 1, s at level 0, format "$ s") : go_scope.
Open Scope go_scope.

Example lit_ascii : $"SQL" = [83; 81; 76].
Proof. reflexivity. Qed.
Example lit_cjk : $"查询" = [26597; 35810].
Proof. reflexivity. Qed.

(** ** Unicode

    The tables of the [unicode] package beyond ASCII are data of the Go
    distribution; the model takes them as a class and consults it only
    for code points from 128 on. ASCII and the white space property are
    written out. *)
Class UnicodeTables := {
  table_letter : Z -> bool;
  table_digit : Z -> bool;
  table_lower : Z -> Z;
  table_upper : Z -> Z;
  table_fold : Z -> Z;
}.

(** [unicode.IsSpace]: the whole White_Space property. *)
Definition IsSpace (r : rune) : bool :=
  (9 <=? r) && (r <=? 13) || (r =? 32) || (r =? 133) || (r =? 160) ||
  (r =? 5760) || (8192 <=? r) && (r <=? 8202) || (r =? 8232) || (r =? 8233) ||
  (r =? 8239) || (r =? 8287) || (r =? 12288).

Section unicode.
Context `{U : UnicodeTables}.

Definition ascii_upper_letter (r : rune) : bool := (65 <=? r) && (r <=? 90).
Definition ascii_lower_letter (r : rune) : bool := (97 <=? r) && (r <=? 122).
Definition ascii_digit (r : rune) : bool := (48 <=? r) && (r <=? 57).

Definition IsLetter (r : rune) : bool :=
  if r <? 128 then ascii_upper_letter r || ascii_lower_letter r else table_letter r.
Definition IsDigit (r : rune) : bool :=
  if r <? 128 then ascii_digit r else table_digit r.
Definition lower_rune (r : rune) : rune :=
  if r <? 128 then (if ascii_upper_letter r then r + 32 else r) else table_lower r.
Definition upper_rune (r : rune) : rune :=
  if r <? 128 then (if ascii_lower_letter r then r - 32 else r) else table_upper r.
Definition fold_rune (r : rune) : rune :=
  if r <? 128 then (if ascii_upper_letter r then r + 32 else r) else table_fold r.

Definition ToLower (s : gostring) : gostring := lower_rune <$> s.
Definition ToUpper (s : gostring) : gostring := upper_rune <$> s.
Definition EqualFold (s t : gostring) : bool :=
  bool_decide (fold_rune <$> s = fold_rune <$> t).
End unicode.

(** A concrete table: Latin-1 letters and the CJK ideographs, the scripts of
    the examples. *)
Definition sample_tables : UnicodeTables := {|
  table_letter r :=
    (192 <=? r) && (r <=? 214) || (216 <=? r) && (r <=? 246) ||
    (248 <=? r) && (r <=? 255) || (19968 <=? r) && (r <=? 40959);
  table_digit r := (65296 <=? r) && (r <=? 65305);
  table_lower r := if (192 <=? r) && (r <=? 222) && negb (r =? 215) then r + 32 else r;
  table_upper r := if (224 <=? r) && (r <=? 254) && negb (r =? 247) then r - 32 else r;
  table_fold r :=
    if r =? 8490 then 107 else if r =? 383 then 115
    else if (192 <=? r) && (r <=? 222) && negb (r =? 215) then r + 32 else r;
|}.

(** ** Package [strings] *)

Definition one_of (s : gostring) (l : list gostring) : bool := bool_decide (s ∈ l).

Fixpoint drop_while (p : rune -> bool) (s : gostring) : gostring :=
  match s with
  | [] => []
  | r :: s' => if p r then drop_while p s' else s
  end.

Definition trim_left_func (p : rune -> bool) (s : gostring) : gostring := drop_while p s.
Definition trim_right_func (p : rune -> bool) (s : gostring) : gostring :=
  rev (drop_while p (rev s)).

(** [strings.TrimSpace]. *)
Definition TrimSpace (s : gostring) : gostring :=
  trim_right_func IsSpace (trim_left_func IsSpace s).
(** [strings.TrimRight(s, cutset)]. *)
Definition TrimRight (s cutset : gostring) : gostring :=
  trim_right_func (fun r => bool_decide (r ∈ cutset)) s.

Fixpoint HasPrefix (s pre : gostring) {struct pre} : bool :=
  match pre, s with
  | [], _ => true
  | p :: pre', r :: s' => (p =? r) && HasPrefix s' pre'
  | _ :: _, [] => false
  end.
Definition HasSuffix (s suf : gostring) : bool := HasPrefix (rev s) (rev suf).
Definition TrimPrefix (s pre : gostring) : gostring :=
  if HasPrefix s pre then drop (length pre) s else s.
Definition TrimSuffix (s suf : gostring) : gostring :=
  if HasSuffix s suf then take (length s - length suf) s else s.

Fixpoint Contains (s sub : gostring) : bool :=
  HasPrefix s sub || match s with [] => false | _ :: s' => Contains s' sub end.
Definition ContainsRune (s : gostring) (r : rune) : bool := bool_decide (r ∈ s).

(** [strings.Cut] at a one-character separator. *)
Fixpoint cut_at (sep : rune) (s : gostring) : gostring * gostring * bool :=
  match s with
  | [] => ([], [], false)
  | r :: s' =>
    if r =? sep then ([], s', true)
    else let '(a, b, ok) := cut_at sep s' in (r :: a, b, ok)
  end.

(** [strings.Split] at a one-character separator. *)
Fixpoint split_at (sep : rune) (s : gostring) : list gostring :=
  match s with
  | [] => [[]]
  | r :: s' =>
    if r =? sep then [] :: split_at sep s'
    else match split_at sep s' with
         | [] => [[r]]
         | w :: ws => (r :: w) :: ws
         end
  end.

Fixpoint Join (l : list gostring) (sep : gostring) : gostring :=
  match l with
  | [] => []
  | [s] => s
  | s :: l' => s ++ sep ++ Join l' sep
  end.

(** ** Package [fmt]: [%d] *)
Definition fmt_d (z : Z) : gostring := lit (pretty z).

(** [strings.Fields]: the maximal runs without white space. *)
Fixpoint fields_from (current : gostring) (s : gostring) : list gostring :=
  match s with
  | [] => match current with [] => [] | _ => [current] end
  | r :: s' =>
    if IsSpace r
    then match current with [] => fields_from [] s' | _ => current :: fields_from [] s' end
    else fields_from (current ++ [r]) s'
  end.
Definition Fields (s : gostring) : list gostring := fields_from [] s.

(** [strings.ReplaceAll] of one rune. *)
Definition replace_rune (r : rune) (by_ : gostring) (s : gostring) : gostring :=
  flat_map (fun c => if c =? r then by_ else [c]) s.

(** ** Lemmas *)

Lemma one_of_true s l : one_of s l = true <-> s ∈ l.
Proof. apply bool_decide_eq_true. Qed.
Lemma one_of_false s l : one_of s l = false <-> s ∉ l.
Proof. apply bool_decide_eq_false. Qed.

Lemma drop_while_suffix p s : drop_while p s `suffix_of` s.
Proof.
  induction s as [|r s IH]; simpl; [done|].
  destruct (p r); [by apply suffix_cons_r | done].
Qed.

Lemma drop_while_split p s : exists g, s = g ++ drop_while p s /\ Forall (fun r => p r = true) g.
Proof.
  induction s as [|r s (g & Hs & Hg)]; simpl; [by exists []|].
  destruct (p r) eqn:E.
  - exists (r :: g). split; [simpl; by f_equal | by constructor].
  - by exists [].
Qed.

Lemma drop_while_head p s r s' : drop_while p s = r :: s' -> p r = false.
Proof. induction s as [|x s IH]; simpl; [done|]. case_match; naive_solver. Qed.

Lemma drop_while_nil p s : drop_while p s = [] <-> Forall (fun r => p r = true) s.
Proof.
  induction s as [|x s IH]; simpl; [done|].
  rewrite Forall_cons. case_match; naive_solver.
Qed.

Lemma trim_right_split p s :
  exists g, s = trim_right_func p s ++ g /\ Forall (fun r => p r = true) g.
Proof.
  destruct (drop_while_split p (rev s)) as (g & Hs & Hg).
  exists (rev g). split; [|by apply Forall_rev].
  unfold trim_right_func. by rewrite <- rev_app_distr, <- Hs, rev_involutive.
Qed.

Lemma trim_right_prefix p s : trim_right_func p s `prefix_of` s.
Proof. destruct (trim_right_split p s) as (g & Hs & _). by exists g. Qed.

Lemma trim_right_last p s r s' : trim_right_func p s = s' ++ [r] -> p r = false.
Proof.
  unfold trim_right_func. intros H.
  apply (f_equal (@rev _)) in H. rewrite rev_involutive, rev_app_distr in H.
  simpl in H. exact (drop_while_head _ _ _ _ H).
Qed.

Lemma trim_right_nil p s : trim_right_func p s = [] <-> Forall (fun r => p r = true) s.
Proof.
  unfold trim_right_func. split.
  - intros H. apply (f_equal (@rev _)) in H. rewrite rev_involutive in H. simpl in H.
    apply drop_while_nil, Forall_rev in H. by rewrite rev_involutive in H.
  - intros H. apply Forall_rev, drop_while_nil in H. by rewrite H.
Qed.

Lemma TrimSpace_nil s : TrimSpace s = [] <-> Forall (fun r => IsSpace r = true) s.
Proof.
  unfold TrimSpace, trim_left_func. rewrite trim_right_nil.
  destruct (drop_while_split IsSpace s) as (g & Hs & Hg). split.
  - intros H. rewrite Hs. by apply Forall_app.
  - intros H. rewrite Hs in H. by apply Forall_app in H as [_ ?].
Qed.

Lemma HasPrefix_spec s pre : HasPrefix s pre = true <-> pre `prefix_of` s.
Proof.
  revert s. induction pre as [|p pre IH]; intros s; simpl.
  - split; [intros _; apply prefix_nil | done].
  - destruct s as [|r s]; [split; [done | intros [? Hk]; discriminate Hk]|].
    rewrite andb_true_iff, Z.eqb_eq, IH. split.
    + intros [-> H]. by apply prefix_cons.
    + intros H. split; [by eapply prefix_cons_inv_1 | by eapply prefix_cons_inv_2].
Qed.

Lemma HasSuffix_spec s suf : HasSuffix s suf = true <-> suf `suffix_of` s.
Proof.
  unfold HasSuffix. rewrite HasPrefix_spec. split.
  - intros [k Hk]. exists (rev k). apply (f_equal (@rev _)) in Hk.
    by rewrite rev_app_distr, !rev_involutive in Hk.
  - intros [k ->]. exists (rev k). by rewrite rev_app_distr.
Qed.

#[export] Hint Resolve drop_while_suffix trim_right_prefix : opscenter.
(** [len(s)]: the bytes of the UTF-8 encoding. *)
Definition rune_bytes (r : rune) : Z :=
  if r <? 128 then 1 else if r <? 2048 then 2 else if r <? 65536 then 3 else 4.
Definition byte_len (s : gostring) : Z := foldr (fun r n => rune_bytes r + n) 0 s.

(** [a < b] on strings: UTF-8 keeps the order of the code points. *)
Fixpoint string_less (a b : gostring) : bool :=
  match a, b with
  | _, [] => false
  | [], _ :: _ => true
  | x :: a', y :: b' => (x <? y) || ((x =? y) && string_less a' b')
  end.

(** The decimal digits of a number that is not negative. *)
Definition is_ascii_digit (r : rune) : Prop := 48 <= r <= 57.
#[export] Instance is_ascii_digit_dec r : Decision (is_ascii_digit r).
Proof. unfold is_ascii_digit. apply _. Defined.

Lemma lit_digit n s : lit (String (pretty_N_char n) s) = Z.of_N (Ascii.N_of_ascii (pretty_N_char n)) :: lit s.
Proof. unfold pretty_N_char. by repeat case_match. Qed.

Lemma pretty_N_char_digit n : is_ascii_digit (Z.of_N (Ascii.N_of_ascii (pretty_N_char n))).
Proof. unfold pretty_N_char, is_ascii_digit. repeat case_match; simpl; lia. Qed.

Lemma pretty_N_go_digits n s :
  Forall is_ascii_digit (lit s) -> Forall is_ascii_digit (lit (pretty_N_go n s)).
Proof.
  revert s. induction (N.lt_wf_0 n) as [n _ IH]. intros s Hs.
  assert (n = 0 \/ 0 < n)%N as [->|?] by lia; [by rewrite pretty_N_go_0|].
  rewrite pretty_N_go_step by done. apply IH; [by apply N.div_lt|].
  rewrite lit_digit. constructor; [apply pretty_N_char_digit | done].
Qed.

Lemma fmt_d_digits z : 0 <= z -> Forall is_ascii_digit (fmt_d z).
Proof.
  intros Hz. unfold fmt_d, pretty, pretty_Z. destruct z as [|p|p]; [|..].
  - repeat constructor; done.
  - change (Forall is_ascii_digit (lit (pretty_N_go (N.pos p) ""))).
    by apply pretty_N_go_digits.
  - lia.
Qed.

#[export] Hint Rewrite one_of_true one_of_false HasPrefix_spec HasSuffix_spec : opscenter.

(** Digits are not white space. *)
Lemma digit_not_space c : is_ascii_digit c -> IsSpace c = false.
Proof.
  unfold is_ascii_digit, IsSpace. intros H.
  rewrite !orb_false_iff, !andb_false_iff, !Z.leb_gt, !Z.eqb_neq. lia.
Qed.

Lemma drop_while_none p s : Forall (fun c => p c = false) s -> drop_while p s = s.
Proof. destruct 1 as [|c s Hc]; simpl; [done|]. by rewrite Hc. Qed.

Lemma TrimSpace_no_space s : Forall (fun c => IsSpace c = false) s -> TrimSpace s = s.
Proof.
  intros H. unfold TrimSpace, trim_left_func, trim_right_func. rewrite (drop_while_none _ s) by done.
  rewrite drop_while_none by (by apply Forall_rev). apply rev_involutive.
Qed.

Lemma digits_no_space s : Forall is_ascii_digit s -> Forall (fun c => IsSpace c = false) s.
Proof. intros Hs. eapply Forall_impl; [exact Hs | apply digit_not_space]. Qed.

Lemma TrimSpace_digits s : Forall is_ascii_digit s -> TrimSpace s = s.
Proof. intros Hs. by apply TrimSpace_no_space, digits_no_space. Qed.

(** Reading back what [%d] prints. *)
Lemma pretty_N_char_value n : (n < 10)%N -> Z.of_N (Ascii.N_of_ascii (pretty_N_char n)) - 48 = Z.of_N n.
Proof.
  intros Hn.
  assert (Hall : Forall (fun k => Z.of_N (Ascii.N_of_ascii (pretty_N_char (N.of_nat k))) - 48 = Z.of_nat k)
                   (seq 0 10)) by (by repeat constructor).
  rewrite Forall_seq in Hall. specialize (Hall (N.to_nat n) ltac:(lia)).
  rewrite N2Nat.id in Hall. rewrite Hall. lia.
Qed.

Lemma pretty_N_go_value n s :
  foldl (fun acc r => acc * 10 + (r - 48)) 0 (lit (pretty_N_go n s))
  = foldl (fun acc r => acc * 10 + (r - 48)) (Z.of_N n) (lit s).
Proof.
  revert s. induction (N.lt_wf_0 n) as [n _ IH]. intros s.
  assert (n = 0 \/ 0 < n)%N as [->|?] by lia; [by rewrite pretty_N_go_0|].
  rewrite pretty_N_go_step by done. rewrite IH by (by apply N.div_lt).
  rewrite lit_digit. cbn [foldl]. rewrite pretty_N_char_value by (by apply N.mod_lt). f_equal.
  pose proof (N.div_mod n 10 ltac:(done)). lia.
Qed.

Lemma fmt_d_value z : 0 <= z -> foldl (fun acc r => acc * 10 + (r - 48)) 0 (fmt_d z) = z.
Proof.
  intros Hz. unfold fmt_d, pretty, pretty_Z. destruct z as [|p|p]; [reflexivity| |lia].
  change (foldl (fun acc r => acc * 10 + (r - 48)) 0 (lit (pretty_N_go (N.pos p) "")) = Z.pos p).
  by rewrite pretty_N_go_value.
Qed.

Lemma fmt_d_not_nil z : 0 < z -> fmt_d z <> [].
Proof. intros Hz H. pose proof (fmt_d_value z ltac:(lia)) as Hv. rewrite H in Hv. simpl in Hv. lia. Qed.

Lemma fmt_d_neg p : fmt_d (Zneg p) = 45 :: fmt_d (Zpos p).
Proof. done. Qed.

Lemma fmt_d_inj z z' : fmt_d z = fmt_d z' -> z = z'.
Proof.
  assert (forall y y', 0 <= y -> 0 <= y' -> fmt_d y = fmt_d y' -> y = y') as Hpos.
  { intros y y' Hy Hy' H. rewrite <- (fmt_d_value y), <- (fmt_d_value y') by done. by rewrite H. }
  assert (forall y p, 0 <= y -> fmt_d y <> fmt_d (Zneg p)) as Hneg.
  { intros y p Hy H. pose proof (fmt_d_digits y Hy) as Hd. rewrite H, fmt_d_neg in Hd.
    apply Forall_cons in Hd as [Hd _]. unfold is_ascii_digit in Hd. lia. }
  intros H. destruct (Z.le_gt_cases 0 z), (Z.le_gt_cases 0 z').
  - by apply Hpos.
  - destruct z' as [|p|p]; try lia. by apply Hneg in H.
  - destruct z as [|p|p]; try lia. symmetry in H. by apply Hneg in H.
  - destruct z as [|p|p], z' as [|p'|p']; try lia. rewrite !fmt_d_neg in H. injection H as H.
    apply Hpos in H; lia.
Qed.

Lemma TrimPrefix_app pre s : TrimPrefix (pre ++ s) pre = s.
Proof.
  unfold TrimPrefix. rewrite (proj2 (HasPrefix_spec _ _)) by (by exists s).
  by rewrite drop_app_length.
Qed.

Lemma TrimPrefix_other c pre s :
  (forall r, head s = Some r -> r <> c) -> TrimPrefix s (c :: pre) = s.
Proof.
  intros H. unfold TrimPrefix. destruct s as [|r s]; [done|]. cbn [HasPrefix].
  by rewrite (proj2 (Z.eqb_neq c r)) by (intros ->; by eapply H).
Qed.

(** A trimmed text neither starts nor ends with white space. *)
Lemma TrimSpace_last s a r : TrimSpace s = a ++ [r] -> IsSpace r = false.
Proof. apply trim_right_last. Qed.

Lemma trim_right_id p s :
  (forall a r, s = a ++ [r] -> p r = false) -> trim_right_func p s = s.
Proof.
  intros H. unfold trim_right_func. rewrite <- (rev_involutive s) at 2. f_equal.
  destruct (rev s) as [|r k] eqn:E; [done|]. simpl.
  apply (f_equal (@rev _)) in E. rewrite rev_involutive in E. simpl in E.
  by rewrite (H _ _ E).
Qed.

Lemma TrimSpace_idem s : TrimSpace (TrimSpace s) = TrimSpace s.
Proof.
  unfold TrimSpace at 1. unfold trim_left_func.
  enough (drop_while IsSpace (TrimSpace s) = TrimSpace s) as ->.
  { apply trim_right_id. apply TrimSpace_last. }
  destruct (TrimSpace s) as [|r k] eqn:E; [done|]. simpl.
  enough (IsSpace r = false) as -> by done.
  unfold TrimSpace in E. destruct (trim_right_prefix IsSpace (trim_left_func IsSpace s)) as [g Hg].
  rewrite E in Hg. exact (drop_while_head _ _ _ _ Hg).
Qed.
