(* ===== verification/GoNumbers.v ===== *)
(** Machine integers and the text of numbers: [uint64] and [int] arithmetic,
    [strconv.ParseUint] and the [%X] verbs of [fmt], with the lemmas that read
    back what is printed. *)
From Stdlib Require Import ZArith Lia.
From stdpp Require Import base list.
From S2P Require Import Prelude GoStrings.
Local Open Scope Z_scope.

(** ** Widths *)
Definition uint64 (z : Z) : Z := z mod 2 ^ 64.
(** [int(x)] of an unsigned number, on a 64-bit platform. *)
Definition int64 (z : Z) : Z := (z + 2 ^ 63) mod 2 ^ 64 - 2 ^ 63.

Lemma uint64_small z : 0 <= z < 2 ^ 64 -> uint64 z = z.
Proof. apply Z.mod_small. Qed.
Lemma uint64_range z : 0 <= uint64 z < 2 ^ 64.
Proof. by apply Z.mod_pos_bound. Qed.
Lemma int64_small z : - 2 ^ 63 <= z < 2 ^ 63 -> int64 z = z.
Proof. intros Hz. unfold int64. rewrite Z.mod_small; lia. Qed.
#[export] Hint Resolve uint64_range : opscenter.

(** ** [strconv.ParseUint(s, base, bitSize)]

    Bases up to 36, no prefix and no underscores. The error is the reason that
    [strconv.NumError] wraps. *)
Definition digit_value (c : rune) : option Z :=
  if (48 <=? c) && (c <=? 57) then Some (c - 48)
  else if (65 <=? c) && (c <=? 90) then Some (c - 55)
  else if (97 <=? c) && (c <=? 122) then Some (c - 87)
  else None.

Fixpoint parse_digits (base maxVal n : Z) (s : gostring) : result Z :=
  match s with
  | [] => Ok n
  | c :: s' =>
    match digit_value c with
    | Some d =>
      if base <=? d then Err $"invalid syntax"
      else if maxVal <? n * base + d then Err $"value out of range"
      else parse_digits base maxVal (n * base + d) s'
    | None => Err $"invalid syntax"
    end
  end.

Definition ParseUint (s : gostring) (base bitSize : Z) : result Z :=
  match s with
  | [] => Err $"invalid syntax"
  | _ => parse_digits base (2 ^ bitSize - 1) 0 s
  end.

(** ** [%X] and [%08X] *)
Definition hex_digit (d : Z) : rune := if d <? 10 then 48 + d else 55 + d.

(** Least digit last; sixteen digits hold every [uint64]. *)
Fixpoint hex_go (fuel : nat) (z : Z) (acc : gostring) : gostring :=
  match fuel with
  | O => acc
  | S fuel =>
    let acc := hex_digit (z mod 16) :: acc in
    if z <? 16 then acc else hex_go fuel (z / 16) acc
  end.
Definition fmt_X (z : Z) : gostring := hex_go 16 z [].

Definition pad_zeros (width : nat) (s : gostring) : gostring :=
  replicate (width - length s) 48 ++ s.
Definition fmt_08X (z : Z) : gostring := pad_zeros 8 (fmt_X z).

(** ** What is printed is read back *)
Definition is_hex_upper (c : rune) : Prop := 48 <= c <= 57 \/ 65 <= c <= 70.

Lemma hex_digit_upper d : 0 <= d < 16 -> is_hex_upper (hex_digit d).
Proof. intros Hd. unfold is_hex_upper, hex_digit. case_match; bsimpl; lia. Qed.

Lemma digit_value_hex d : 0 <= d < 16 -> digit_value (hex_digit d) = Some d.
Proof.
  intros Hd. unfold digit_value, hex_digit.
  repeat case_match; bsimpl; try (f_equal; lia); repeat (rewrite andb_false_iff in *); bsimpl;
    try (destruct_or?; bsimpl; lia); lia.
Qed.

Lemma hex_upper_digit c : is_hex_upper c -> exists d, 0 <= d < 16 /\ c = hex_digit d.
Proof.
  intros [Hc|Hc].
  - exists (c - 48). split; [lia|]. unfold hex_digit. case_match; bsimpl; lia.
  - exists (c - 55). split; [lia|]. unfold hex_digit. case_match; bsimpl; lia.
Qed.

(** The value of upper case hexadecimal text. *)
Definition hex_value (s : gostring) : Z :=
  foldl (fun n c => n * 16 + default 0 (digit_value c)) 0 s.

Lemma hex_fold_app n s t :
  foldl (fun n c => n * 16 + default 0 (digit_value c)) n (s ++ t)
  = foldl (fun n c => n * 16 + default 0 (digit_value c)) (foldl (fun n c => n * 16 + default 0 (digit_value c)) n s) t.
Proof. apply foldl_app. Qed.

Lemma hex_fold_shift n s : Forall is_hex_upper s ->
  foldl (fun n c => n * 16 + default 0 (digit_value c)) n s
  = n * 16 ^ Z.of_nat (length s) + hex_value s
  /\ 0 <= hex_value s < 16 ^ Z.of_nat (length s).
Proof.
  unfold hex_value. induction s as [|c s IH] using rev_ind; intros Hs; simpl; [lia|].
  apply Forall_app in Hs as [Hs Hc]. inversion Hc as [|? ? Hc1 _]; subst.
  destruct (hex_upper_digit c Hc1) as (d & Hd & ->).
  destruct (IH Hs) as [IH1 IH2]. rewrite !foldl_app. simpl.
  rewrite digit_value_hex by done. simpl. rewrite length_app, Nat2Z.inj_add. simpl.
  rewrite Z.pow_add_r by lia. change (16 ^ Z.of_nat 1) with 16. rewrite IH1.
  split; [ring | lia].
Qed.

Lemma hex_value_range s :
  Forall is_hex_upper s -> 0 <= hex_value s < 16 ^ Z.of_nat (length s).
Proof. intros Hs. by apply (hex_fold_shift 0). Qed.

Lemma hex_value_cons c s : is_hex_upper c -> Forall is_hex_upper s ->
  hex_value (c :: s) = default 0 (digit_value c) * 16 ^ Z.of_nat (length s) + hex_value s.
Proof. intros Hc Hs. unfold hex_value at 1. simpl. by apply hex_fold_shift. Qed.

Lemma parse_digits_hex maxVal s n : Forall is_hex_upper s -> 0 <= n ->
  n * 16 ^ Z.of_nat (length s) + hex_value s <= maxVal ->
  parse_digits 16 maxVal n s = Ok (n * 16 ^ Z.of_nat (length s) + hex_value s).
Proof.
  revert n. induction s as [|c s IH]; intros n Hs Hn Hmax; simpl.
  - f_equal. unfold hex_value. simpl. lia.
  - inversion Hs as [|? ? Hc Hs']; subst.
    rewrite hex_value_cons in Hmax |- * by done.
    destruct (hex_upper_digit c Hc) as (d & Hd & ->).
    rewrite digit_value_hex in Hmax |- * by done. change (default 0 (Some d)) with d in *.
    rewrite (proj2 (Z.leb_gt 16 d)) by lia.
    pose proof (hex_value_range s Hs') as Hv.
    assert (Hp : 0 < 16 ^ Z.of_nat (length s)) by (apply Z.pow_pos_nonneg; lia).
    cbn [length] in Hmax |- *. rewrite Nat2Z.inj_succ, Z.pow_succ_r in Hmax |- * by lia.
    set (P := 16 ^ Z.of_nat (length s)) in *.
    assert (Hle : (n * 16 + d) * 1 <= (n * 16 + d) * P) by (apply Z.mul_le_mono_nonneg_l; lia).
    rewrite (proj2 (Z.ltb_ge maxVal (n * 16 + d))) by lia.
    rewrite IH; [f_equal; lia | done | lia | lia].
Qed.

Lemma ParseUint_hex s bits : s <> [] -> Forall is_hex_upper s ->
  hex_value s < 2 ^ bits -> ParseUint s 16 bits = Ok (hex_value s).
Proof.
  intros Hne Hs Hv. unfold ParseUint. destruct s as [|c s]; [done|].
  rewrite parse_digits_hex; [f_equal; lia | done | lia | lia].
Qed.

(** A number is within its width when it parses. *)
Lemma parse_digits_range base maxVal n s v :
  0 <= base -> 0 <= n <= maxVal -> parse_digits base maxVal n s = Ok v -> 0 <= v <= maxVal.
Proof.
  intros Hb. revert n. induction s as [|c s IH]; intros n Hn H; simpl in H; [by simplify_eq|].
  destruct (digit_value c) as [d|] eqn:Hd; [|done]. repeat case_match; try done. bsimpl.
  apply (IH (n * base + d)); [|done]. split; [|lia].
  assert (0 <= d); [|nia]. unfold digit_value in Hd. repeat case_match; simplify_eq; bsimpl; lia.
Qed.

Lemma ParseUint_range s base bits v :
  0 <= base -> 0 < bits -> ParseUint s base bits = Ok v -> 0 <= v < 2 ^ bits.
Proof.
  intros Hb Hw H. unfold ParseUint in H. destruct s; [done|].
  assert (1 <= 2 ^ bits) by (apply (Z.pow_le_mono_r 2 0); lia).
  apply parse_digits_range in H; lia.
Qed.

Lemma hex_go_spec fuel z acc : Forall is_hex_upper acc -> 0 <= z < 16 ^ Z.of_nat fuel ->
  Forall is_hex_upper (hex_go fuel z acc) /\
  hex_value (hex_go fuel z acc) = z * 16 ^ Z.of_nat (length acc) + hex_value acc /\
  forall k : nat, z < 16 ^ Z.of_nat k -> (1 <= k)%nat ->
    (length (hex_go fuel z acc) <= length acc + k)%nat.
Proof.
  revert z acc. induction fuel as [|fuel IH]; intros z acc Hacc Hz.
  - simpl in Hz. assert (z = 0) as -> by lia. simpl. split; [done|]. split; [lia|]. intros. lia.
  - cbn [hex_go]. pose proof (Z.mod_pos_bound z 16 ltac:(lia)) as Hm.
    pose proof (Z.div_mod z 16 ltac:(lia)) as Hdm.
    assert (Hacc' : Forall is_hex_upper (hex_digit (z mod 16) :: acc))
      by (constructor; [by apply hex_digit_upper | done]).
    assert (Hval : hex_value (hex_digit (z mod 16) :: acc)
                   = z mod 16 * 16 ^ Z.of_nat (length acc) + hex_value acc)
      by (rewrite hex_value_cons, digit_value_hex by (done || by apply hex_digit_upper); done).
    destruct (z <? 16) eqn:E; bsimpl.
    + split; [done|]. rewrite Hval, Z.mod_small by lia. cbn [length].
      split; intros; lia.
    + rewrite Nat2Z.inj_succ, Z.pow_succ_r in Hz by lia.
      destruct (IH (z / 16) _ Hacc' ltac:(lia)) as (H1 & H2 & H4).
      split; [done|]. rewrite H2, Hval. cbn [length] in *.
      rewrite Nat2Z.inj_succ, Z.pow_succ_r by lia. split; [nia|].
      intros k Hk Hk1. destruct k as [|k]; [lia|].
      rewrite Nat2Z.inj_succ, Z.pow_succ_r in Hk by lia.
      destruct k as [|k]; [simpl in Hk; lia|]. specialize (H4 (S k) ltac:(lia) ltac:(lia)). lia.
Qed.

Lemma fmt_X_spec z : 0 <= z < 2 ^ 64 ->
  Forall is_hex_upper (fmt_X z) /\ hex_value (fmt_X z) = z /\
  forall k : nat, z < 16 ^ Z.of_nat k -> (1 <= k)%nat -> (length (fmt_X z) <= k)%nat.
Proof.
  intros Hz. unfold fmt_X.
  destruct (hex_go_spec 16 z [] ltac:(done) ltac:(done)) as (H1 & H2 & H4).
  split; [done|]. split; [rewrite H2; unfold hex_value; simpl; lia | exact H4].
Qed.

Lemma hex_go_not_nil fuel z c acc : hex_go fuel z (c :: acc) <> [].
Proof.
  revert z c acc. induction fuel as [|fuel IH]; intros z c acc; [done|].
  cbn [hex_go]. case_match; [done | apply IH].
Qed.

Lemma fmt_X_not_nil z : fmt_X z <> [].
Proof.
  unfold fmt_X. change 16%nat with (S 15). generalize 15%nat. intros fuel.
  cbn [hex_go]. case_match; [done | apply hex_go_not_nil].
Qed.

Lemma hex_value_zeros k s :
  Forall is_hex_upper s -> hex_value (replicate k 48 ++ s) = hex_value s.
Proof.
  intros Hs. induction k as [|k IH]; [done|]. cbn [replicate app].
  rewrite hex_value_cons; [rewrite IH; reflexivity | left; lia |].
  apply Forall_app. split; [|done]. apply Forall_replicate. left. lia.
Qed.

Lemma fmt_08X_spec z : 0 <= z < 2 ^ 32 ->
  Forall is_hex_upper (fmt_08X z) /\ hex_value (fmt_08X z) = z /\ length (fmt_08X z) = 8%nat.
Proof.
  intros Hz. destruct (fmt_X_spec z ltac:(lia)) as (H1 & H2 & H3).
  specialize (H3 8%nat ltac:(simpl; lia) ltac:(lia)).
  unfold fmt_08X, pad_zeros. split; [|split].
  - apply Forall_app. split; [|done]. apply Forall_replicate. left. lia.
  - by rewrite hex_value_zeros.
  - rewrite length_app, length_replicate. lia.
Qed.

Lemma hex_value_inj s t : Forall is_hex_upper s -> Forall is_hex_upper t ->
  length s = length t -> hex_value s = hex_value t -> s = t.
Proof.
  revert t. induction s as [|c s IH]; intros [|c' t] Hs Ht Hl Hv; try done.
  inversion Hs as [|? ? Hc Hs']; inversion Ht as [|? ? Hc' Ht']; subst.
  simpl in Hl. rewrite !hex_value_cons in Hv by done.
  destruct (hex_upper_digit c Hc) as (d & Hd & ->), (hex_upper_digit c' Hc') as (d' & Hd' & ->).
  rewrite !digit_value_hex in Hv by done. simpl in Hv.
  pose proof (hex_value_range s Hs'). pose proof (hex_value_range t Ht').
  injection Hl as Hl. rewrite <- Hl in *.
  assert (d = d') as -> by nia. f_equal. apply IH; [done..|]. lia.
Qed.

(** What [%08X] prints of a number is the text itself when it has eight digits. *)
Lemma fmt_08X_value s : Forall is_hex_upper s -> length s = 8%nat -> fmt_08X (hex_value s) = s.
Proof.
  intros Hs Hl. pose proof (hex_value_range s Hs) as Hr. rewrite Hl in Hr.
  destruct (fmt_08X_spec (hex_value s) ltac:(simpl in Hr; lia)) as (H1 & H2 & H3).
  apply hex_value_inj; [done..| lia | done].
Qed.

(** Hexadecimal text holds no white space and is its own upper case. *)
Lemma hex_no_space s : Forall is_hex_upper s -> Forall (fun c => IsSpace c = false) s.
Proof.
  intros Hs. eapply Forall_impl; [exact Hs|]. unfold is_hex_upper, IsSpace. intros c Hc.
  rewrite !orb_false_iff, !andb_false_iff, !Z.leb_gt, !Z.eqb_neq. lia.
Qed.

Lemma upper_rune_hex `{U : UnicodeTables} c : is_hex_upper c -> upper_rune c = c.
Proof.
  unfold is_hex_upper, upper_rune, ascii_lower_letter. intros Hc.
  repeat case_match; bsimpl; lia.
Qed.

Lemma ToUpper_hex `{U : UnicodeTables} s : Forall is_hex_upper s -> ToUpper s = s.
Proof.
  unfold ToUpper. induction 1 as [|c s Hc Hs IH]; [done|].
  by rewrite fmap_cons, upper_rune_hex, IH.
Qed.
