(* ===== verification/GoCrypto.v ===== *)
(** * Bytes and digests: the part of [crypto], [encoding] and [strings] the
    sign-in code uses

    SHA-1 and SHA-256 (FIPS 180-4), HMAC (RFC 2104), base32 and hex with the
    padding rules of [encoding/base32] and [encoding/hex]. All of it evaluates;
    the published test vectors are checked as examples. *)

From Stdlib Require Import ZArith Lia.
From stdpp Require Import base tactics option list numbers.
From S2P Require Import Prelude GoStrings GoNumbers.

Open Scope Z_scope.

(** A [[]byte]: numbers from 0 to 255. *)
Abbreviation bytes := (list Z) (only parsing).

(** [[]byte(s)]: the UTF-8 encoding of the code points. *)
Definition rune_utf8 (r : rune) : bytes :=
  if r <? 128 then [r]
  else if r <? 2048 then [192 + r / 64; 128 + r mod 64]
  else if r <? 65536 then [224 + r / 4096; 128 + (r / 64) mod 64; 128 + r mod 64]
  else [240 + r / 262144; 128 + (r / 4096) mod 64; 128 + (r / 64) mod 64; 128 + r mod 64].
Definition utf8 (s : gostring) : bytes := s ≫= rune_utf8.

(** ** Words *)
Definition w32 (z : Z) : Z := z mod 2 ^ 32.
Definition rotl32 (n x : Z) : Z := w32 (Z.lor (Z.shiftl x n) (Z.shiftr x (32 - n))).
Definition rotr32 (n x : Z) : Z := rotl32 (32 - n) x.
Definition not32 (x : Z) : Z := 2 ^ 32 - 1 - x.

(** [binary.BigEndian.Uint32] of four bytes, and the bytes of a word. *)
Definition be_value (l : bytes) : Z := foldl (fun acc b => acc * 256 + b) 0 l.
Fixpoint be_bytes (n : nat) (z : Z) : bytes :=
  match n with O => [] | S n => be_bytes n (z / 256) ++ [z mod 256] end.

Fixpoint chunks (fuel k : nat) (l : list Z) : list (list Z) :=
  match fuel, l with
  | O, _ | _, [] => []
  | S fuel, _ => take k l :: chunks fuel k (drop k l)
  end.

(** The message with its padding: a block has 64 bytes. *)
Definition sha_padded (m : bytes) : bytes :=
  let n := length m in
  m ++ [128] ++ replicate ((119 - n mod 64) mod 64) 0 ++ be_bytes 8 (8 * Z.of_nat n).
Definition sha_blocks (m : bytes) : list (list Z) :=
  let p := sha_padded m in
  (fun block => be_value <$> chunks 16 4 block) <$> chunks (length p) 64 p.

(** [n] further words of a message schedule kept newest first. *)
Fixpoint extend_schedule (next : list Z -> Z) (n : nat) (w : list Z) : list Z :=
  match n with O => w | S n => extend_schedule next n (next w :: w) end.
Definition at_ (i : nat) (w : list Z) : Z := nth i w 0.

(** ** SHA-1 *)
Definition sha1_next (w : list Z) : Z :=
  rotl32 1 (Z.lxor (Z.lxor (at_ 2 w) (at_ 7 w)) (Z.lxor (at_ 13 w) (at_ 15 w))).
Definition sha1_f (t : nat) (b c d : Z) : Z * Z :=
  if (t <? 20)%nat then (Z.lor (Z.land b c) (Z.land (not32 b) d), 1518500249)
  else if (t <? 40)%nat then (Z.lxor b (Z.lxor c d), 1859775393)
  else if (t <? 60)%nat
  then (Z.lor (Z.land b c) (Z.lor (Z.land b d) (Z.land c d)), 2400959708)
  else (Z.lxor b (Z.lxor c d), 3395469782).
Fixpoint sha1_rounds (t : nat) (w : list Z) (a b c d e : Z) : list Z :=
  match w with
  | [] => [a; b; c; d; e]
  | x :: w =>
    let '(f, k) := sha1_f t b c d in
    sha1_rounds (S t) w (w32 (rotl32 5 a + f + e + k + x)) a (rotl32 30 b) c d
  end.
Definition sha1_block (h : list Z) (block : list Z) : list Z :=
  let w := rev (extend_schedule sha1_next 64 (rev block)) in
  zip_with (fun x y => w32 (x + y)) h
    (sha1_rounds 0 w (at_ 0 h) (at_ 1 h) (at_ 2 h) (at_ 3 h) (at_ 4 h)).
Definition sha1 (m : bytes) : bytes :=
  foldl sha1_block [1732584193; 4023233417; 2562383102; 271733878; 3285377520] (sha_blocks m)
    ≫= be_bytes 4.

(** ** SHA-256 *)
Definition sha256_k : list Z :=
  [1116352408; 1899447441; 3049323471; 3921009573; 961987163; 1508970993; 2453635748;
   2870763221; 3624381080; 310598401; 607225278; 1426881987; 1925078388; 2162078206;
   2614888103; 3248222580; 3835390401; 4022224774; 264347078; 604807628; 770255983;
   1249150122; 1555081692; 1996064986; 2554220882; 2821834349; 2952996808; 3210313671;
   3336571891; 3584528711; 113926993; 338241895; 666307205; 773529912; 1294757372;
   1396182291; 1695183700; 1986661051; 2177026350; 2456956037; 2730485921; 2820302411;
   3259730800; 3345764771; 3516065817; 3600352804; 4094571909; 275423344; 430227734;
   506948616; 659060556; 883997877; 958139571; 1322822218; 1537002063; 1747873779;
   1955562222; 2024104815; 2227730452; 2361852424; 2428436474; 2756734187; 3204031479;
   3329325298].
Definition sha256_next (w : list Z) : Z :=
  let s0 := Z.lxor (rotr32 7 (at_ 14 w)) (Z.lxor (rotr32 18 (at_ 14 w)) (Z.shiftr (at_ 14 w) 3)) in
  let s1 := Z.lxor (rotr32 17 (at_ 1 w)) (Z.lxor (rotr32 19 (at_ 1 w)) (Z.shiftr (at_ 1 w) 10)) in
  w32 (s1 + at_ 6 w + s0 + at_ 15 w).
Fixpoint sha256_rounds (wk : list (Z * Z)) (a b c d e f g h : Z) : list Z :=
  match wk with
  | [] => [a; b; c; d; e; f; g; h]
  | (x, k) :: wk =>
    let S1 := Z.lxor (rotr32 6 e) (Z.lxor (rotr32 11 e) (rotr32 25 e)) in
    let ch := Z.lxor (Z.land e f) (Z.land (not32 e) g) in
    let t1 := h + S1 + ch + k + x in
    let S0 := Z.lxor (rotr32 2 a) (Z.lxor (rotr32 13 a) (rotr32 22 a)) in
    let maj := Z.lxor (Z.land a b) (Z.lxor (Z.land a c) (Z.land b c)) in
    sha256_rounds wk (w32 (t1 + S0 + maj)) a b c (w32 (d + t1)) e f g
  end.
Definition sha256_block (h : list Z) (block : list Z) : list Z :=
  let w := rev (extend_schedule sha256_next 48 (rev block)) in
  zip_with (fun x y => w32 (x + y)) h
    (sha256_rounds (zip w sha256_k) (at_ 0 h) (at_ 1 h) (at_ 2 h) (at_ 3 h) (at_ 4 h)
       (at_ 5 h) (at_ 6 h) (at_ 7 h)).
Definition sha256 (m : bytes) : bytes :=
  foldl sha256_block
    [1779033703; 3144134277; 1013904242; 2773480762; 1359893119; 2600822924; 528734635;
     1541459225] (sha_blocks m) ≫= be_bytes 4.

(** ** HMAC with a hash of 64-byte blocks *)
Definition hmac_key (H : bytes -> bytes) (key : bytes) : bytes :=
  let k := if (64 <? length key)%nat then H key else key in
  k ++ replicate (64 - length k) 0.
Definition hmac (H : bytes -> bytes) (key m : bytes) : bytes :=
  let k := hmac_key H key in
  H ((Z.lxor 92 <$> k) ++ H ((Z.lxor 54 <$> k) ++ m)).

(** ** Text forms *)
Definition hex_lower (d : Z) : rune := if d <? 10 then 48 + d else 87 + d.
(** [hex.EncodeToString], also [fmt.Sprintf("%x")] of bytes. *)
Definition hex_encode (b : bytes) : gostring :=
  b ≫= fun x => [hex_lower (x / 16); hex_lower (x mod 16)].

Definition base32_char (d : Z) : rune := if d <? 26 then 65 + d else 24 + d.
Definition base32_digit (c : rune) : option Z :=
  if (65 <=? c) && (c <=? 90) then Some (c - 65)
  else if (50 <=? c) && (c <=? 55) then Some (c - 24)
  else None.
Definition pad_char : rune := 61.

(** The [n] base-32 digits of a number, and their value. *)
Fixpoint digits32 (n : nat) (z : Z) : list Z :=
  match n with O => [] | S n => digits32 n (z / 32) ++ [z mod 32] end.
Definition value32 (l : list Z) : Z := foldl (fun acc d => acc * 32 + d) 0 l.

(** One group of at most five bytes. *)
Definition base32_group (g : bytes) : gostring :=
  let n := length g in
  let used := ((8 * n + 4) / 5)%nat in
  (base32_char <$> take used (digits32 8 (be_value (g ++ replicate (5 - n) 0))))
    ++ replicate (8 - used) pad_char.
(** [base32.StdEncoding.EncodeToString]. *)
Definition base32_encode (b : bytes) : gostring := chunks (length b) 5 b ≫= base32_group.

(** One quantum of [DecodeString]: the digits, whether padding ended the text,
    and what follows. *)
Fixpoint base32_quantum (src : gostring) (dbuf : list Z) : option (list Z * bool * gostring) :=
  if (length dbuf =? 8)%nat then Some (dbuf, false, src)
  else match src with
  | [] => None
  | c :: src' =>
    let j := length dbuf in
    if (c =? pad_char) && (2 <=? j)%nat && (length src' <? 8)%nat then
      if (length src' + j <? 7)%nat then None
      else if forallb (Z.eqb pad_char) (take (7 - j) src') && negb ((j =? 3) || (j =? 6))%nat
      then Some (dbuf, true, src') else None
    else match base32_digit c with
    | None => None
    | Some d => base32_quantum src' (dbuf ++ [d])
    end
  end.
Definition quantum_bytes (dbuf : list Z) : bytes :=
  take (5 * length dbuf / 8) (be_bytes 5 (value32 (dbuf ++ replicate (8 - length dbuf) 0))).
Fixpoint base32_loop (fuel : nat) (src : gostring) : option bytes :=
  match fuel, src with
  | _, [] => Some []
  | O, _ => None
  | S fuel, _ =>
    '(dbuf, ended, rest) ← base32_quantum src [];
    if ended : bool then Some (quantum_bytes dbuf)
    else out ← base32_loop fuel rest; Some (quantum_bytes dbuf ++ out)
  end.
Definition is_newline (c : rune) : bool := (c =? 10) || (c =? 13).
(** [base32.StdEncoding.DecodeString]. *)
Definition base32_decode (s : gostring) : option bytes :=
  let src := filter (fun c => is_newline c = false) s in
  base32_loop (length src) src.

(** ** Published vectors *)
Example sha1_abc : hex_encode (sha1 (utf8 $"abc")) = $"a9993e364706816aba3e25717850c26c9cd0d89d".
Proof. vm_compute. reflexivity. Qed.
Example sha256_abc : hex_encode (sha256 (utf8 $"abc"))
  = $"ba7816bf8f01cfea414140de5dae2223b00361a396177a9cb410ff61f20015ad".
Proof. vm_compute. reflexivity. Qed.
Example sha1_two_blocks :
  hex_encode (sha1 (utf8 $"abcdbcdecdefdefgefghfghighijhijkijkljklmklmnlmnomnopnopq"))
  = $"84983e441c3bd26ebaae4aa1f95129e5e54670f1".
Proof. vm_compute. reflexivity. Qed.
(** RFC 2202, test case 2. *)
Example hmac_jefe : hex_encode (hmac sha1 (utf8 $"Jefe") (utf8 $"what do ya want for nothing?"))
  = $"effcdf6ae5eb2fa2d27416d5f184df9c259a7c79".
Proof. vm_compute. reflexivity. Qed.
(** RFC 4648, section 10. *)
Example base32_foobar : base32_encode (utf8 $"foobar") = $"MZXW6YTBOI======".
Proof. vm_compute. reflexivity. Qed.
Example base32_foobar_back : base32_decode $"MZXW6YTBOI======" = Some (utf8 $"foobar").
Proof. vm_compute. reflexivity. Qed.

(** ** Reading back *)
Definition is_byte (b : Z) : Prop := 0 <= b < 256.

(** Numbers in a base: the digits of a value and the value of digits. *)
Lemma foldl_base_app B l k n :
  foldl (fun acc d => acc * B + d) n (l ++ k) =
  foldl (fun acc d => acc * B + d) (foldl (fun acc d => acc * B + d) n l) k.
Proof. by rewrite foldl_app. Qed.

Lemma be_value_snoc l b : be_value (l ++ [b]) = be_value l * 256 + b.
Proof. unfold be_value. by rewrite foldl_app. Qed.
Lemma value32_snoc l d : value32 (l ++ [d]) = value32 l * 32 + d.
Proof. unfold value32. by rewrite foldl_app. Qed.

Lemma be_bytes_value l n : Forall is_byte l -> length l = n -> be_bytes n (be_value l) = l.
Proof.
  revert l. induction n as [|n IH]; intros l Hl Hn; [by destruct l|].
  destruct l as [|b l _] using rev_ind; [done|].
  rewrite length_app in Hn. simpl in Hn.
  apply Forall_app in Hl as [Hl Hb]. rewrite Forall_singleton in Hb. red in Hb.
  simpl. rewrite be_value_snoc.
  rewrite Z.div_add_l, (Z.div_small b 256), Z.add_0_r by lia.
  rewrite Z.add_comm, Z.mod_add, Z.mod_small by lia.
  rewrite IH by (done || lia). done.
Qed.

Lemma be_value_range l : Forall is_byte l -> 0 <= be_value l < 256 ^ Z.of_nat (length l).
Proof.
  induction l as [|b l IH] using rev_ind; intros Hl; [unfold be_value; simpl; lia|].
  apply Forall_app in Hl as [Hl Hb]. rewrite Forall_singleton in Hb. red in Hb.
  specialize (IH Hl). rewrite be_value_snoc, length_app. simpl length.
  rewrite Nat2Z.inj_add, Z.pow_add_r by lia. change (256 ^ Z.of_nat 1) with 256. lia.
Qed.

Lemma be_bytes_byte n z : Forall is_byte (be_bytes n z).
Proof.
  revert z. induction n as [|n IH]; intros z; simpl; [constructor|].
  apply Forall_app. split; [apply IH|]. apply Forall_singleton. unfold is_byte.
  pose proof (Z.mod_pos_bound z 256). lia.
Qed.

Lemma length_be_bytes n z : length (be_bytes n z) = n.
Proof. revert z. induction n as [|n IH]; intros z; [done|]. simpl. rewrite length_app, IH. simpl. lia. Qed.

Lemma length_digits32 n z : length (digits32 n z) = n.
Proof. revert z. induction n as [|n IH]; intros z; [done|]. simpl. rewrite length_app, IH. simpl. lia. Qed.

Lemma digits32_range n z : Forall (fun d => 0 <= d < 32) (digits32 n z).
Proof.
  revert z. induction n as [|n IH]; intros z; simpl; [constructor|].
  apply Forall_app. split; [apply IH|]. apply Forall_singleton.
  pose proof (Z.mod_pos_bound z 32). lia.
Qed.

Lemma value32_digits n z : 0 <= z < 32 ^ Z.of_nat n -> value32 (digits32 n z) = z.
Proof.
  revert z. induction n as [|n IH]; intros z Hz; [simpl in *; unfold value32; simpl; lia|].
  simpl digits32. rewrite value32_snoc, IH; [Z.div_mod_to_equations; lia|].
  rewrite Nat2Z.inj_succ, Z.pow_succ_r in Hz by lia. Z.div_mod_to_equations. lia.
Qed.

Lemma base32_digit_char d : 0 <= d < 32 -> base32_digit (base32_char d) = Some d.
Proof.
  intros Hd. unfold base32_char, base32_digit. destruct (Z.ltb_spec d 26).
  - replace ((65 <=? 65 + d) && (65 + d <=? 90)) with true by (symmetry; apply andb_true_iff; lia).
    f_equal. lia.
  - replace ((65 <=? 24 + d) && (24 + d <=? 90)) with false by (symmetry; apply andb_false_iff; lia).
    replace ((50 <=? 24 + d) && (24 + d <=? 55)) with true by (symmetry; apply andb_true_iff; lia).
    f_equal. lia.
Qed.

(** The letters of the alphabet: upper case or a digit, so neither padding nor
    a newline nor changed by [strings.ToUpper]. *)
Definition is_base32 (c : rune) : Prop := 65 <= c <= 90 \/ 50 <= c <= 55.
Lemma base32_char_alphabet d : 0 <= d < 32 -> is_base32 (base32_char d).
Proof. unfold base32_char, is_base32. intros. case_match; lia. Qed.

Lemma base32_quantum_chars ds dbuf rest :
  Forall (fun d => 0 <= d < 32) ds -> (length dbuf + length ds = 8)%nat ->
  base32_quantum ((base32_char <$> ds) ++ rest) dbuf = Some (dbuf ++ ds, false, rest).
Proof.
  intros Hds. revert dbuf. induction Hds as [|d ds Hd Hds IH]; intros dbuf Hlen.
  - assert (Hl : length dbuf = 8%nat) by (simpl in Hlen; lia). rewrite app_nil_r. simpl.
    by destruct rest; simpl; rewrite Hl.
  - assert (Hl : (length dbuf =? 8)%nat = false) by (apply Nat.eqb_neq; simpl in Hlen; lia).
    rewrite fmap_cons, <- app_comm_cons. cbn [base32_quantum]. rewrite Hl.
    replace (base32_char d =? pad_char) with false by
      (pose proof (base32_char_alphabet d Hd) as Ha; unfold is_base32, pad_char in *;
       symmetry; apply Z.eqb_neq; lia).
    simpl andb. cbv iota. rewrite base32_digit_char by done.
    rewrite IH by (rewrite length_app; simpl in *; lia). by rewrite <- app_assoc.
Qed.

(** A whole group is read back by one quantum. *)
Lemma base32_group_quantum g rest :
  Forall is_byte g -> length g = 5%nat ->
  base32_quantum (base32_group g ++ rest) [] =
    Some (digits32 8 (be_value g), false, rest) /\
  quantum_bytes (digits32 8 (be_value g)) = g /\
  Forall is_base32 (base32_group g) /\ length (base32_group g) = 8%nat.
Proof.
  intros Hg Hn. unfold base32_group. rewrite Hn.
  change ((8 * 5 + 4) / 5)%nat with 8%nat. change (8 - 8)%nat with O. change (5 - 5)%nat with O.
  rewrite !app_nil_r. rewrite take_ge by (rewrite length_digits32; lia).
  split; [|split; [|split]].
  - rewrite base32_quantum_chars; [done | apply digits32_range | by rewrite length_digits32].
  - unfold quantum_bytes. rewrite length_digits32. change (5 * 8 / 8)%nat with 5%nat.
    change (8 - 8)%nat with O. rewrite app_nil_r.
    pose proof (be_value_range g Hg) as Hr. rewrite Hn in Hr.
    rewrite value32_digits by (change (256 ^ Z.of_nat 5) with (32 ^ Z.of_nat 8) in Hr; lia).
    rewrite be_bytes_value by done. rewrite take_ge; [done|lia].
  - rewrite Forall_fmap. eapply list.Forall_impl; [apply digits32_range|].
    intros d Hd. by apply base32_char_alphabet.
  - by rewrite length_fmap, length_digits32.
Qed.

(** Enough fuel gives all the chunks. *)
Lemma chunks_fuel k f1 f2 l :
  (0 < k)%nat -> (length l <= f1)%nat -> (length l <= f2)%nat -> chunks f1 k l = chunks f2 k l.
Proof.
  intros Hk. revert f2 l. induction f1 as [|f1 IH]; intros f2 l H1 H2.
  - destruct l; [|simpl in H1; lia]. by destruct f2.
  - destruct l as [|x l]; [by destruct f2|]. destruct f2 as [|f2]; [simpl in H2; lia|].
    cbn [chunks]. f_equal. apply IH; rewrite length_drop; simpl in *; lia.
Qed.

Lemma base32_encode_group g b :
  length g = 5%nat -> base32_encode (g ++ b) = base32_group g ++ base32_encode b.
Proof.
  intros Hn. unfold base32_encode. destruct g as [|x g]; [done|].
  rewrite <- app_comm_cons. cbn [chunks length].
  rewrite app_comm_cons, take_app_length', drop_app_length' by done.
  rewrite (chunks_fuel 5 _ (length b)) by (rewrite ?length_app; lia). done.
Qed.

Lemma filter_base32 s : Forall is_base32 s -> filter (fun c => is_newline c = false) s = s.
Proof.
  induction 1 as [|c s Hc Hs IH]; [done|]. rewrite filter_cons, IH.
  rewrite decide_True; [done|]. unfold is_base32 in Hc. unfold is_newline.
  apply orb_false_iff. split; apply Z.eqb_neq; lia.
Qed.

(** Bytes that fill their groups are read back, and written without padding. *)
Lemma base32_round_trip k b :
  Forall is_byte b -> length b = (5 * k)%nat ->
  base32_decode (base32_encode b) = Some b /\
  Forall is_base32 (base32_encode b) /\ length (base32_encode b) = (8 * k)%nat.
Proof.
  intros Hb Hn.
  assert (H : Forall is_base32 (base32_encode b) /\ length (base32_encode b) = (8 * k)%nat /\
    forall fuel, (8 * k <= fuel)%nat -> base32_loop fuel (base32_encode b) = Some b).
  { revert b Hb Hn. induction k as [|k IH]; intros b Hb Hn.
    - destruct b; [|done]. by split; [constructor|split; [done|intros []]].
    - destruct (IH (drop 5 b)) as (H1 & H2 & H3);
        [by apply Forall_drop | rewrite length_drop; lia|].
      rewrite <- (take_drop 5 b) in Hb. rewrite <- (take_drop 5 b).
      assert (Hl : length (take 5 b) = 5%nat) by (rewrite length_take; lia).
      rewrite base32_encode_group by done. apply Forall_app in Hb as [Hb1 Hb2].
      pose proof (fun rest => base32_group_quantum (take 5 b) rest Hb1 Hl) as Hq.
      destruct (Hq []) as (_ & Hv & Hc & Hcl).
      split; [by apply Forall_app|]. split; [rewrite length_app, Hcl, H2; lia|].
      intros fuel Hf. destruct fuel as [|fuel]; [lia|].
      specialize (Hq (base32_encode (drop 5 b))) as (Hq & _).
      destruct (base32_group (take 5 b) ++ base32_encode (drop 5 b)) as [|c s] eqn:Heq.
      { apply (f_equal length) in Heq. rewrite length_app, Hcl in Heq. simpl in Heq. lia. }
      cbn [base32_loop]. rewrite Hq. cbn [mbind option_bind]. rewrite H3 by lia.
      cbn [mbind option_bind]. by rewrite Hv. }
  destruct H as (H1 & H2 & H3). split; [|done]. unfold base32_decode.
  rewrite filter_base32 by done. apply H3. lia.
Qed.
