(* ===== verification/Totp.v ===== *)
(** * One-time passwords: [internal/biz/mfa/totp.go]

    RFC 6238 codes of six digits over HMAC-SHA1 with windows of thirty
    seconds, the base32 secrets they are computed from, and the backup codes.
    The QR code image is a picture of [GenerateQRCodeURL] made by a library. *)

From Stdlib Require Import ZArith Lia.
From stdpp Require Import base tactics option list numbers.
From S2P Require Import Prelude GoStrings GoNumbers GoCrypto.

Open Scope Z_scope.

(** [crypto/rand]: the [n]-th read of the process and the number of bytes. *)
Class RandomSource := { rand_read : nat -> nat -> result bytes }.

(** What [rand.Read] promises: it fills the slice. *)
Class RandomLaws (R : RandomSource) : Prop := {
  rand_read_fills n len b : rand_read n len = Ok b -> length b = len /\ Forall is_byte b }.

Definition TOTPDigits : Z := 6.
Definition TOTPInterval : Z := 30.
Definition TOTPSkew : Z := 1.
Definition SecretLength : nat := 20.

(** [time.Unix]: a time is a number of nanoseconds. *)
Definition unix (t : Z) : Z := t / 1000000000.

Definition generateTOTP (key : bytes) (counter : Z) : gostring :=
  let buf := be_bytes 8 (uint64 counter) in
  let sum := hmac sha1 key buf in
  let offset := Z.land (List.last sum 0) 15 in
  let code := Z.land (be_value (take 4 (drop (Z.to_nat offset) sum))) 2147483647 in
  pad_zeros 6 (fmt_d (code mod 10 ^ TOTPDigits)).

Section Totp.
Context `{U : UnicodeTables} `{R : RandomSource}.

Definition GenerateSecret (draw : nat) : result gostring :=
  match rand_read draw SecretLength with
  | Err e => Err ($"生成密钥失败: " ++ e)
  | Ok b => Ok (TrimRight (base32_encode b) $"=")
  end.

(** [for i := -TOTPSkew; i <= TOTPSkew; i++]. *)
Definition windows : list Z :=
  (fun i => Z.of_nat i - TOTPSkew) <$> seq 0 (Z.to_nat (2 * TOTPSkew + 1)).

Definition ValidateTOTP (now : Z) (secret code : gostring) : bool :=
  if negb (byte_len code =? TOTPDigits) then false
  else
    let secret := TrimRight (ToUpper secret) $"=" in
    let pad := 8 - byte_len secret mod 8 in
    let secret := if pad =? 8 then secret else secret ++ replicate (Z.to_nat pad) pad_char in
    match base32_decode (utf8 secret) with
    | None => false
    | Some key =>
      let window := Z.quot (unix now) TOTPInterval in
      existsb (fun i => bool_decide (generateTOTP key (int64 (window + i)) = code)) windows
    end.

Definition backup_chars : gostring := $"ABCDEFGHIJKLMNOPQRSTUVWXYZ0123456789".

Definition generateBackupCode (draw : nat) : result gostring :=
  match rand_read draw 8 with
  | Err e => Err e
  | Ok b => Ok ((fun x => nth (Z.to_nat (x mod Z.of_nat (length backup_chars))) backup_chars 0) <$> b)
  end.

(** [count] codes from the reads that follow [draw]. *)
Fixpoint GenerateBackupCodes (count : nat) (draw : nat) : result (list gostring) :=
  match count with
  | O => Ok []
  | S count =>
    match generateBackupCode draw with
    | Err e => Err e
    | Ok code =>
      match GenerateBackupCodes count (S draw) with
      | Err e => Err e
      | Ok codes => Ok (code :: codes)
      end
    end
  end.

(** [url.QueryEscape] is of the standard library; the rest of the address is
    plain text. *)
Definition GenerateQRCodeURL (QueryEscape : gostring -> gostring)
    (secret issuer accountName : gostring) : gostring :=
  $"otpauth://totp/" ++ QueryEscape issuer ++ $":" ++ QueryEscape accountName
  ++ $"?secret=" ++ secret ++ $"&issuer=" ++ QueryEscape issuer
  ++ $"&algorithm=SHA1&digits=" ++ fmt_d TOTPDigits ++ $"&period=" ++ fmt_d TOTPInterval.
End Totp.

(** RFC 6238, appendix B: the last six of the eight digits. *)
Definition rfc6238_key : bytes := utf8 $"12345678901234567890".
Example rfc6238_59 : generateTOTP rfc6238_key (unix 59000000000 / 30) = $"287082".
Proof. vm_compute. reflexivity. Qed.
Example rfc6238_1111111109 : generateTOTP rfc6238_key (1111111109 / 30) = $"081804".
Proof. vm_compute. reflexivity. Qed.
Example rfc6238_20000000000 : generateTOTP rfc6238_key (20000000000 / 30) = $"353130".
Proof. vm_compute. reflexivity. Qed.
