(* ===== verification/TotpFacts.v ===== *)
(** What [Totp] promises: a code is six digits, the secret that is shown is
    the key that is checked, and the codes accepted at a time are those of its
    window and the two next to it. *)

From Stdlib Require Import ZArith Lia String.
From stdpp Require Import base tactics option list numbers pretty.
From S2P Require Import Prelude GoStrings GoNumbers GoCrypto Totp.

Open Scope Z_scope.

(** ** Decimal numbers of bounded length *)
Lemma pretty_N_go_length k n s :
  (n < 10 ^ N.of_nat k)%N ->
  (length (lit (pretty_N_go n s)) <= k + length (lit s))%nat.
Proof.
  revert n s. induction k as [|k IH]; intros n s Hn.
  - replace n with 0%N by (simpl in Hn; lia). rewrite pretty_N_go_0. lia.
  - destruct (decide (n = 0)%N) as [->|Hn0]; [rewrite pretty_N_go_0; lia|].
    rewrite pretty_N_go_step by lia.
    specialize (IH (n `div` 10)%N (String (pretty_N_char (n `mod` 10)) s)).
    rewrite lit_digit in IH. simpl in IH. rewrite Nat2N.inj_succ, N.pow_succ_r' in Hn.
    assert (n `div` 10 < 10 ^ N.of_nat k)%N by (apply N.Div0.div_lt_upper_bound; lia). lia.
Qed.

Lemma fmt_d_length k z : 0 <= z < 10 ^ Z.of_nat (S k) -> (length (fmt_d z) <= S k)%nat.
Proof.
  intros Hz. unfold fmt_d. destruct z as [|p|p]; [simpl; vm_compute; lia | | lia].
  change (pretty (Z.pos p)) with (pretty (N.pos p)). unfold pretty, pretty_N.
  rewrite decide_False by lia.
  pose proof (pretty_N_go_length (S k) (N.pos p) EmptyString) as H.
  assert (Hl : length (lit EmptyString) = O) by reflexivity. rewrite Hl, Nat.add_0_r in H.
  apply H. apply N2Z.inj_lt. rewrite N2Z.inj_pow. rewrite nat_N_Z. simpl Z.of_N. lia.
Qed.

Lemma byte_len_ascii s : Forall (fun c => 0 <= c < 128) s -> byte_len s = Z.of_nat (length s).
Proof.
  induction 1 as [|c s Hc Hs IH]; [done|]. cbn [byte_len foldr length].
  fold (byte_len s). rewrite IH. unfold rune_bytes.
  replace (c <? 128) with true by (symmetry; apply Z.ltb_lt; lia). lia.
Qed.

Lemma utf8_ascii s : Forall (fun c => 0 <= c < 128) s -> utf8 s = s.
Proof.
  unfold utf8. induction 1 as [|c s Hc Hs IH]; [done|]. cbn. rewrite IH. unfold rune_utf8.
  by replace (c <? 128) with true by (symmetry; apply Z.ltb_lt; lia).
Qed.

(** ** Codes *)
Lemma generateTOTP_format key counter :
  Forall is_ascii_digit (generateTOTP key counter) /\
  length (generateTOTP key counter) = 6%nat.
Proof.
  unfold generateTOTP. set (z := (_ mod _)).
  assert (Hz : 0 <= z < 10 ^ 6) by (apply Z.mod_pos_bound; unfold TOTPDigits; lia).
  pose proof (fmt_d_length 5 z Hz) as Hl. unfold pad_zeros. split.
  - apply Forall_app. split; [|apply fmt_d_digits; lia].
    apply Forall_replicate. unfold is_ascii_digit. lia.
  - rewrite length_app, length_replicate. lia.
Qed.

Lemma generateTOTP_byte_len key counter : byte_len (generateTOTP key counter) = TOTPDigits.
Proof.
  destruct (generateTOTP_format key counter) as [Hd Hl].
  rewrite byte_len_ascii; [by rewrite Hl|].
  eapply list.Forall_impl; [exact Hd|]. unfold is_ascii_digit. intros; lia.
Qed.

Section facts.
Context `{U : UnicodeTables} `{R : RandomSource} `{RL : !RandomLaws R}.

Lemma ToUpper_base32 s : Forall is_base32 s -> ToUpper s = s.
Proof.
  unfold ToUpper. induction 1 as [|c s Hc Hs IH]; [done|]. rewrite fmap_cons, IH.
  f_equal. unfold is_base32 in Hc. unfold upper_rune, ascii_lower_letter.
  repeat case_match; bsimpl; lia.
Qed.

Lemma TrimRight_base32 s : Forall is_base32 s -> TrimRight s $"=" = s.
Proof.
  intros Hs. unfold TrimRight, trim_right_func.
  rewrite drop_while_none; [apply rev_involutive|]. apply Forall_rev.
  eapply list.Forall_impl; [exact Hs|]. intros c Hc. apply bool_decide_eq_false.
  change ($"=") with [61]. rewrite list_elem_of_singleton. unfold is_base32 in Hc. lia.
Qed.

(** The secret of [GenerateSecret] is its key in base32, without padding. *)
Lemma GenerateSecret_key draw secret :
  GenerateSecret draw = Ok secret ->
  exists b, rand_read draw SecretLength = Ok b /\ secret = base32_encode b /\
    base32_decode (utf8 secret) = Some b /\ Forall is_base32 secret /\
    length secret = 32%nat.
Proof.
  unfold GenerateSecret. destruct (rand_read draw SecretLength) as [b|e] eqn:Hr; [|done].
  intros [= <-]. destruct (rand_read_fills _ _ _ Hr) as [Hl Hb].
  destruct (base32_round_trip 4 b Hb) as (Hd & Ha & Hn); [done|].
  exists b. rewrite TrimRight_base32 by done. repeat (split; [done|]).
  rewrite utf8_ascii; [done|]. eapply list.Forall_impl; [exact Ha|].
  unfold is_base32. intros; lia.
Qed.

Lemma ValidateTOTP_windows now secret code b :
  Forall is_base32 secret -> length secret = 32%nat ->
  base32_decode (utf8 secret) = Some b ->
  ValidateTOTP now secret code = true <->
  exists i, -1 <= i <= 1 /\ code = generateTOTP b (int64 (Z.quot (unix now) 30 + i)).
Proof.
  intros Ha Hl Hd. unfold ValidateTOTP. rewrite ToUpper_base32, TrimRight_base32 by done.
  rewrite (byte_len_ascii secret) by
    (eapply list.Forall_impl; [exact Ha | unfold is_base32; intros; lia]).
  rewrite Hl. change (8 - Z.of_nat 32 mod 8) with 8. change (8 =? 8) with true. cbv iota.
  rewrite Hd. split.
  - destruct (byte_len code =? TOTPDigits); [|done]. simpl negb. cbv iota.
    rewrite existsb_exists. intros (i & Hi & Hc). apply bool_decide_eq_true in Hc.
    exists i. split; [|done]. change windows with [-1; 0; 1] in Hi. simpl in Hi. lia.
  - intros (i & Hi & ->). rewrite generateTOTP_byte_len, Z.eqb_refl. simpl negb. cbv iota.
    apply existsb_exists. exists i. split; [|by apply bool_decide_eq_true].
    change windows with [-1; 0; 1]. simpl. lia.
Qed.

(** The code an authenticator shows for the secret that setup returned is
    accepted by every check within thirty seconds of it, before or after, and
    the codes that a check accepts are those of three windows. *)
Theorem totp_tolerates_drift draw secret b now shown :
  GenerateSecret draw = Ok secret -> rand_read draw SecretLength = Ok b ->
  0 <= now < 2 ^ 62 -> 0 <= shown < 2 ^ 62 -> Z.abs (now - shown) <= 30 * 1000000000 ->
  ValidateTOTP now secret (generateTOTP b (Z.quot (unix shown) TOTPInterval)) = true /\
  (forall code, ValidateTOTP now secret code = true ->
     exists window, Z.abs (window - unix now / TOTPInterval) <= 1 /\ code = generateTOTP b window).
Proof.
  intros Hs Hr Hnow Hshown Hd.
  destruct (GenerateSecret_key draw secret Hs) as (b' & Hr' & _ & Hdec & Ha & Hl).
  rewrite Hr in Hr'. injection Hr' as <-.
  assert (Hq : forall t, 0 <= t -> Z.quot (unix t) 30 = unix t / 30).
  { intros t Ht. apply Z.quot_div_nonneg; [apply Z.div_pos; lia | done]. }
  assert (Hi : forall i, -1 <= i <= 1 ->
    int64 (Z.quot (unix now) 30 + i) = Z.quot (unix now) 30 + i).
  { intros i Hi. apply int64_small. rewrite Hq by lia. unfold unix.
    Z.div_mod_to_equations. lia. }
  assert (Hw : -1 <= Z.quot (unix shown) 30 - Z.quot (unix now) 30 <= 1).
  { rewrite !Hq by lia. unfold unix. Z.div_mod_to_equations. lia. }
  unfold TOTPInterval. split.
  - rewrite (ValidateTOTP_windows _ _ _ b) by done.
    exists (Z.quot (unix shown) 30 - Z.quot (unix now) 30). split; [done|].
    rewrite Hi by done. f_equal. lia.
  - intros code Hc. apply (ValidateTOTP_windows _ _ _ b) in Hc as (i & Hi' & ->); [|done..].
    exists (Z.quot (unix now) 30 + i). rewrite Hi by done. split; [|done].
    rewrite Hq by lia. lia.
Qed.
End facts.
