(* ===== verification/SignInModel.v ===== *)
(** * Sign-in: rows, store and repositories

    The tables behind the sign-in of a user: accounts ([biz/rbac], [data/rbac]),
    the security settings and the failed attempts ([biz/system],
    [data/system/config.go]), the second factor and the trusted devices
    ([biz/mfa], [data/mfa]), the captchas ([captcha_store.go]) and the two logs.
    A statement against a table fails when the request finds it unavailable. *)

From Stdlib Require Import ZArith Lia.
From stdpp Require Import base tactics option list numbers strings gmap.
From S2P Require Import Prelude GoStrings GoNumbers GoCrypto Totp.

Open Scope Z_scope.

(** ** Rows *)
Record SysUser := {
  u_ID : Z; u_Username : gostring; u_Password : gostring; u_RealName : gostring;
  u_Email : gostring; u_Phone : gostring; u_Avatar : gostring; u_Status : Z;
  u_Source : gostring; u_DepartmentID : Z; u_Roles : list Z; u_Bio : gostring;
  u_LastLoginAt : option Z }.

Record SysConfig := { c_Value : gostring; c_Group : gostring }.

Record SysUserLoginAttempt := {
  at_Username : gostring; at_FailCount : Z; at_LastFailAt : Z; at_LockedUntil : option Z }.

Record UserMFA := {
  m_UserID : Z; m_TOTPEnabled : bool; m_TOTPSecret : gostring; m_TOTPVerified : bool;
  m_BackupCodes : gostring }.
Definition IsEnabled (m : UserMFA) : bool := m_TOTPEnabled m && m_TOTPVerified m.

Record BackupCode := { bc_Code : gostring; bc_Used : bool; bc_UsedAt : option Z }.

Record MFALog := {
  ml_UserID : Z; ml_MFAType : gostring; ml_Action : gostring; ml_IPAddress : gostring;
  ml_UserAgent : gostring; ml_Success : bool; ml_Message : gostring }.

Record TrustedDevice := {
  d_UserID : Z; d_DeviceToken : gostring; d_DeviceName : gostring; d_IPAddress : gostring;
  d_LastVerifiedAt : Z; d_ExpiresAt : Z }.
(** [time.Now().Before(d.ExpiresAt)]. *)
Definition IsValid (now : Z) (d : TrustedDevice) : bool := now <? d_ExpiresAt d.

Record SysLoginLog := {
  ll_UserID : Z; ll_Username : gostring; ll_RealName : gostring; ll_LoginType : gostring;
  ll_LoginStatus : gostring; ll_LoginTime : Z; ll_IP : gostring; ll_UserAgent : gostring;
  ll_FailReason : gostring }.

Record LDAPConfig := {
  l_Enabled : bool; l_Host : gostring; l_Port : Z; l_UseTLS : bool; l_StartTLS : bool;
  l_SkipVerify : bool; l_BindDN : gostring; l_BindPassword : gostring; l_BaseDN : gostring;
  l_UserFilter : gostring; l_AttrUsername : gostring; l_AttrEmail : gostring;
  l_AttrRealName : gostring; l_AttrPhone : gostring; l_DefaultRoleID : Z;
  l_DefaultDeptID : Z; l_AutoCreateUser : bool }.

Record LDAPAuthResult := {
  lr_Username : gostring; lr_Email : gostring; lr_RealName : gostring; lr_Phone : gostring }.

(** The claims of both kinds of token; [TokenType] tells them apart. The dates
    are [jwt.NumericDate]s, whole seconds. *)
Record JwtClaims := {
  cl_UserID : Z; cl_Username : gostring; cl_TokenType : gostring;
  cl_ExpiresAt : Z; cl_IssuedAt : Z; cl_NotBefore : Z }.

(** ** The store *)
Record signin_world := {
  users : list SysUser;                              (* in the order of their ids *)
  configs : gmap gostring SysConfig;                 (* by key *)
  attempts : gmap gostring SysUserLoginAttempt;      (* by the collated user name *)
  mfas : gmap Z UserMFA;                             (* by user *)
  devices : gmap gostring TrustedDevice;             (* by the hash of the token *)
  captchas : gmap gostring (gostring * Z);           (* answer and expiry, by id *)
  mfa_logs : list MFALog; login_logs : list SysLoginLog;
  draws : nat }.                                     (* reads of the random source so far *)

Definition set_users us (w : signin_world) : signin_world := {|
  users := us; configs := configs w; attempts := attempts w; mfas := mfas w;
  devices := devices w; captchas := captchas w; mfa_logs := mfa_logs w;
  login_logs := login_logs w; draws := draws w |}.
Definition set_attempts ats (w : signin_world) : signin_world := {|
  users := users w; configs := configs w; attempts := ats; mfas := mfas w;
  devices := devices w; captchas := captchas w; mfa_logs := mfa_logs w;
  login_logs := login_logs w; draws := draws w |}.
Definition set_mfas ms (w : signin_world) : signin_world := {|
  users := users w; configs := configs w; attempts := attempts w; mfas := ms;
  devices := devices w; captchas := captchas w; mfa_logs := mfa_logs w;
  login_logs := login_logs w; draws := draws w |}.
Definition set_devices ds (w : signin_world) : signin_world := {|
  users := users w; configs := configs w; attempts := attempts w; mfas := mfas w;
  devices := ds; captchas := captchas w; mfa_logs := mfa_logs w;
  login_logs := login_logs w; draws := draws w |}.
Definition set_captchas cs (w : signin_world) : signin_world := {|
  users := users w; configs := configs w; attempts := attempts w; mfas := mfas w;
  devices := devices w; captchas := cs; mfa_logs := mfa_logs w;
  login_logs := login_logs w; draws := draws w |}.
Definition add_mfa_log l (w : signin_world) : signin_world := {|
  users := users w; configs := configs w; attempts := attempts w; mfas := mfas w;
  devices := devices w; captchas := captchas w; mfa_logs := mfa_logs w ++ [l];
  login_logs := login_logs w; draws := draws w |}.
Definition add_login_log l (w : signin_world) : signin_world := {|
  users := users w; configs := configs w; attempts := attempts w; mfas := mfas w;
  devices := devices w; captchas := captchas w; mfa_logs := mfa_logs w;
  login_logs := login_logs w ++ [l]; draws := draws w |}.
Definition set_draws n (w : signin_world) : signin_world := {|
  users := users w; configs := configs w; attempts := attempts w; mfas := mfas w;
  devices := devices w; captchas := captchas w; mfa_logs := mfa_logs w;
  login_logs := login_logs w; draws := n |}.

(** ** A request: one reading of the clock, the client, the tables that do not
    answer *)
Inductive table := TUsers | TConfig | TAttempts | TMfa | TMfaLog | TDevices | TCaptcha.

Record request_env := {
  now : Z; client_ip : gostring; user_agent : gostring; down : table -> bool }.

(** What is outside of the code: the collation of the database (equal texts
    have equal keys), bcrypt, AES-GCM, [encoding/json] on the two shapes of a
    list of backup codes and on the LDAP settings, the JWT library, the QR code
    library, the directory server, [math/rand], the texts of errors. *)
Class SignInLib := {
  text_key : gostring -> gostring;
  bcrypt_hash : nat -> gostring -> result gostring;
  bcrypt_matches : gostring -> gostring -> bool;
  gcm_seal : bytes -> bytes -> bytes -> bytes;
  gcm_open : bytes -> bytes -> bytes -> result bytes;
  json_of_strings : list gostring -> gostring;
  json_of_codes : list BackupCode -> gostring;
  json_codes : gostring -> option (list BackupCode);
  json_ldap : gostring -> option LDAPConfig;
  jwt_sign : gostring -> JwtClaims -> result gostring;
  jwt_parse : gostring -> Z -> gostring -> result JwtClaims;
  qr_png : gostring -> result gostring;
  ldap_directory : LDAPConfig -> gostring -> gostring -> result LDAPAuthResult;
  rand_intn : nat -> Z -> Z;
  query_escape : gostring -> gostring;
  db_error : gostring; binding_error : gostring }.

Section repositories.
Context `{L : SignInLib}.

Implicit Types E : request_env.
Abbreviation action := (handler signin_world).

(** A statement on a table. *)
Definition on_table {A} (E : request_env) (t : table) (m : action A) : action A := fun w =>
  if down E t then (Err db_error, w) else m w.
Definition modify (f : signin_world -> signin_world) : action unit := fun w => (Ok tt, f w).
Definition reads {A} (f : signin_world -> A) : action A := fun w => (Ok (f w), w).
(** [_ = m] and [v, err := m]: the error is a value. *)
Definition attempt_ {A} (m : action A) : action (result A) := fun w =>
  let (r, w') := m w in (Ok r, w').
(** [k] reads of the random source: the number of the first one. *)
Definition draw (k : nat) : action nat := fun w => (Ok (draws w), set_draws (draws w + k) w).

(** ** [data/mfa/repository.go] *)
Definition GetUserMFA E (userID : Z) : action (option UserMFA) :=
  on_table E TMfa (reads (fun w => mfas w !! userID)).
Definition CreateMFA E (m : UserMFA) : action unit :=
  on_table E TMfa (fun w =>
    match mfas w !! m_UserID m with
    | Some _ => (Err db_error, w)
    | None => (Ok tt, set_mfas (<[m_UserID m := m]> (mfas w)) w)
    end).
Definition UpdateMFA E (m : UserMFA) : action unit :=
  on_table E TMfa (modify (fun w => set_mfas (<[m_UserID m := m]> (mfas w)) w)).
Definition CreateLog E (l : MFALog) : action unit :=
  on_table E TMfaLog (modify (add_mfa_log l)).
Definition repo_SaveTrustedDevice E (d : TrustedDevice) : action unit :=
  on_table E TDevices (fun w =>
    match devices w !! d_DeviceToken d with
    | Some _ => (Err db_error, w)
    | None => (Ok tt, set_devices (<[d_DeviceToken d := d]> (devices w)) w)
    end).
Definition GetTrustedDevice E (deviceToken : gostring) : action (option TrustedDevice) :=
  on_table E TDevices (reads (fun w => devices w !! deviceToken)).
Definition DeleteExpiredTrustedDevices E : action unit :=
  on_table E TDevices (modify (fun w =>
    set_devices (filter (fun kd => ~ d_ExpiresAt kd.2 < now E) (devices w)) w)).
Definition repo_DeleteUserTrustedDevices E (userID : Z) : action unit :=
  on_table E TDevices (modify (fun w =>
    set_devices (filter (fun kd => d_UserID kd.2 <> userID) (devices w)) w)).

(** ** [data/rbac/user.go] *)
Definition not_found : gostring := $"record not found".

Definition GetByUsername E (username : gostring) : action SysUser :=
  on_table E TUsers (fun w =>
    match List.find (fun u => bool_decide (text_key (u_Username u) = text_key username)) (users w) with
    | Some u => (Ok u, w)
    | None => (Err not_found, w)
    end).
Definition GetByID E (id : Z) : action SysUser :=
  on_table E TUsers (fun w =>
    match List.find (fun u => u_ID u =? id) (users w) with
    | Some u => (Ok u, w)
    | None => (Err not_found, w)
    end).

(** The columns of [Select]: neither the password nor the source. *)
Definition updated_user (u row : SysUser) : SysUser := {|
  u_ID := u_ID row; u_Username := u_Username u; u_Password := u_Password row;
  u_RealName := u_RealName u; u_Email := u_Email u; u_Phone := u_Phone u;
  u_Avatar := u_Avatar u; u_Status := u_Status u; u_Source := u_Source row;
  u_DepartmentID := u_DepartmentID u; u_Roles := u_Roles row; u_Bio := u_Bio u;
  u_LastLoginAt := u_LastLoginAt u |}.
Definition user_Update E (u : SysUser) : action unit :=
  on_table E TUsers (modify (fun w =>
    set_users ((fun row => if u_ID row =? u_ID u then updated_user u row else row) <$> users w) w)).

Definition with_roles (roles : list Z) (row : SysUser) : SysUser := {|
  u_ID := u_ID row; u_Username := u_Username row; u_Password := u_Password row;
  u_RealName := u_RealName row; u_Email := u_Email row; u_Phone := u_Phone row;
  u_Avatar := u_Avatar row; u_Status := u_Status row; u_Source := u_Source row;
  u_DepartmentID := u_DepartmentID row; u_Roles := roles; u_Bio := u_Bio row;
  u_LastLoginAt := u_LastLoginAt row |}.
Definition AssignRoles E (userID : Z) (roleIDs : list Z) : action unit :=
  on_table E TUsers (modify (fun w =>
    set_users ((fun row => if u_ID row =? userID then with_roles roleIDs row else row) <$> users w) w)).

(** The id of a new row is above all others. *)
Definition next_user_id (w : signin_world) : Z := 1 + foldr Z.max 0 (u_ID <$> users w).
Definition with_id (id : Z) (u : SysUser) : SysUser := {|
  u_ID := id; u_Username := u_Username u; u_Password := u_Password u;
  u_RealName := u_RealName u; u_Email := u_Email u; u_Phone := u_Phone u;
  u_Avatar := u_Avatar u; u_Status := u_Status u; u_Source := u_Source u;
  u_DepartmentID := u_DepartmentID u; u_Roles := []; u_Bio := u_Bio u;
  u_LastLoginAt := u_LastLoginAt u |}.
Definition user_Create E (u : SysUser) : action SysUser :=
  on_table E TUsers (fun w =>
    let u := with_id (next_user_id w) u in (Ok u, set_users (users w ++ [u]) w)).

(** ** [data/system/config.go] *)
Definition GetByKey E (key : gostring) : action SysConfig :=
  on_table E TConfig (fun w =>
    match configs w !! key with
    | Some c => (Ok c, w)
    | None => (Err not_found, w)
    end).
(** The rows of a group as the map the callers build. *)
Definition GetByGroup E (group : gostring) : action (gmap gostring gostring) :=
  on_table E TConfig (reads (fun w =>
    c_Value <$> filter (fun kc => c_Group kc.2 = group) (configs w))).

Definition nanos : Z := 1000000000.

(** [IncrementFailCount]: the row to save. *)
Definition counted (E : request_env) (username : gostring) (maxAttempts lockoutDuration : Z)
    (row : option SysUserLoginAttempt) : SysUserLoginAttempt :=
  let '(name, failCount, lockedUntil) :=
    match row with
    | None => (username, 1, None)
    | Some a =>
      match at_LockedUntil a with
      | Some t => if t <? now E then (at_Username a, 1, None)
                  else (at_Username a, at_FailCount a + 1, Some t)
      | None => (at_Username a, at_FailCount a + 1, None)
      end
    end in
  {| at_Username := name; at_FailCount := failCount; at_LastFailAt := now E;
     at_LockedUntil :=
       if maxAttempts <=? failCount then Some (now E + lockoutDuration * nanos) else lockedUntil |}.
Definition IncrementFailCount E (username : gostring) (maxAttempts lockoutDuration : Z) : action unit :=
  on_table E TAttempts (modify (fun w =>
    let key := text_key username in
    set_attempts (<[key := counted E username maxAttempts lockoutDuration (attempts w !! key)]>
      (attempts w)) w)).
Definition ResetFailCount E (username : gostring) : action unit :=
  on_table E TAttempts (modify (fun w => set_attempts (delete (text_key username) (attempts w)) w)).
Definition IsLocked E (username : gostring) : action (option Z) :=
  on_table E TAttempts (reads (fun w =>
    match attempts w !! text_key username with
    | Some a =>
      match at_LockedUntil a with
      | Some t => if now E <? t then Some t else None
      | None => None
      end
    | None => None
    end)).

(** ** [captcha_store.go] *)
Definition captcha_expiration : Z := 300 * nanos.
Definition captcha_Set E (id value : gostring) : action unit :=
  on_table E TCaptcha (modify (fun w =>
    set_captchas (<[id := (value, now E + captcha_expiration)]> (captchas w)) w)).
(** [Get] answers [''] for an error and for a missing or expired key. *)
Definition captcha_Get E (id : gostring) (clear : bool) : action gostring := fun w =>
  if down E TCaptcha then (Ok [], w)
  else match captchas w !! id with
  | Some (value, expires) =>
    if now E <? expires
    then (Ok value, if clear then set_captchas (delete id (captchas w)) w else w)
    else (Ok [], w)
  | None => (Ok [], w)
  end.
Definition captcha_Verify E (id answer : gostring) (clear : bool) : action bool :=
  val ← captcha_Get E id clear; mret (negb (bool_decide (val = [])) && bool_decide (val = answer)).
Definition VerifyCaptchaDirect E (captchaId captchaCode : gostring) : action bool :=
  if bool_decide (captchaId = []) || bool_decide (captchaCode = []) then mret false
  else captcha_Verify E captchaId captchaCode true.
End repositories.
