(* ===== verification/Mfa.v ===== *)
(** * The second factor: [internal/biz/mfa/usecase.go], [internal/service/mfa]

    Setup, activation, checks, backup codes, deactivation and trusted devices.
    A [*UserMFA] that a check was given and the one read again afterwards are
    different copies of the row, as in the code. *)

From Stdlib Require Import ZArith Lia.
From stdpp Require Import base tactics option list numbers gmap.
From S2P Require Import Prelude GoStrings GoNumbers GoCrypto Totp SignInModel.

Open Scope Z_scope.

Definition MFATypeTOTP := $"totp".

Record MFASetupResponse := {
  ms_Secret : gostring; ms_QRCodeURL : gostring; ms_ManualCode : gostring }.
Record MFAStatusResponse := {
  st_IsEnabled : bool; st_MFAType : gostring; st_HasBackup : bool; st_VerifiedAt : gostring }.

(** [NewUseCase]: the key is cut or padded to 32 bytes. *)
Definition mfa_key (encryptKey : bytes) : bytes :=
  if (32 <? length encryptKey)%nat then take 32 encryptKey
  else encryptKey ++ replicate (32 - length encryptKey) 0.

(** [fmt.Sscanf(s, "%02x", &b)] of two bytes: leading blanks are skipped and
    one digit is enough. *)
Definition hex_nibble (c : Z) : option Z :=
  if (48 <=? c) && (c <=? 57) then Some (c - 48)
  else if (97 <=? c) && (c <=? 102) then Some (c - 87)
  else if (65 <=? c) && (c <=? 70) then Some (c - 55)
  else None.
Definition scan_blank (c : Z) : bool :=
  (c =? 9) || (c =? 11) || (c =? 12) || (c =? 13) || (c =? 32).
Definition scan_error : gostring := $"expected integer".
Definition scan_02x (c1 c2 : Z) : result Z :=
  match hex_nibble c1, hex_nibble c2 with
  | Some a, Some b => Ok (16 * a + b)
  | Some a, None => Ok a
  | None, Some b => if scan_blank c1 then Ok b else Err scan_error
  | None, None => Err scan_error
  end.
Fixpoint scan_pairs (l : bytes) : result bytes :=
  match l with
  | c1 :: c2 :: l =>
    match scan_02x c1 c2 with
    | Err e => Err e
    | Ok b => match scan_pairs l with Err e => Err e | Ok bs => Ok (b :: bs) end
    end
  | _ => Ok []
  end.

Section mfa.
Context `{U : UnicodeTables} `{R : RandomSource} `{L : SignInLib}.
Context (issuer : gostring) (encryptKey : bytes).
Implicit Types E : request_env.
Abbreviation action := (handler signin_world).

Definition nonceSize : nat := 12.

Definition encrypt (plaintext : gostring) : action gostring :=
  n ← draw 1;
  nonce ← h_lift (rand_read n nonceSize);
  mret (hex_encode (nonce ++ gcm_seal encryptKey nonce (utf8 plaintext))).

Definition decrypt (ciphertext : gostring) : result gostring :=
  let data := utf8 ciphertext in
  if (length data <? nonceSize * 2)%nat then Err $"密文太短"
  else
    nonce ← scan_pairs (take (nonceSize * 2) data);
    ciphertextBytes ← scan_pairs (drop (nonceSize * 2) data);
    plaintext ← gcm_open encryptKey nonce ciphertextBytes;
    Ok (utf8_decode plaintext).

Definition GenerateQRCodeImage (secret iss accountName : gostring) : result gostring :=
  qr_png (GenerateQRCodeURL query_escape secret iss accountName).

(** The fields that [SetupMFA] assigns; a new row and an old one differ in
    nothing else. *)
Definition setup_row (userID : Z) (secret codes : gostring) : UserMFA := {|
  m_UserID := userID; m_TOTPEnabled := false; m_TOTPSecret := secret;
  m_TOTPVerified := false; m_BackupCodes := codes |}.

Definition SetupMFA E (userID : Z) (username : gostring) : action MFASetupResponse :=
  n ← draw 1;
  secret ← h_map_err (app $"生成密钥失败: ") (h_lift (GenerateSecret n));
  n ← draw 10;
  backupCodes ← h_map_err (app $"生成备用码失败: ") (h_lift (GenerateBackupCodes 10 n));
  encryptedSecret ← h_map_err (app $"加密密钥失败: ") (encrypt secret);
  encryptedBackupCodes ← h_map_err (app $"加密备用码失败: ")
    (encrypt (json_of_strings backupCodes));
  existing ← attempt_ (GetUserMFA E userID);
  (match existing with
   | Ok (Some old) =>
     UpdateMFA E (setup_row (m_UserID old) encryptedSecret encryptedBackupCodes)
   | _ => CreateMFA E (setup_row userID encryptedSecret encryptedBackupCodes)
   end);;
  qrCodeURL ← h_map_err (app $"生成二维码图片失败: ")
    (h_lift (GenerateQRCodeImage secret issuer username));
  mret {| ms_Secret := secret; ms_QRCodeURL := qrCodeURL; ms_ManualCode := secret |}.

Definition mfa_log E (userID : Z) (act : gostring) (valid : bool) (good bad : gostring) : MFALog := {|
  ml_UserID := userID; ml_MFAType := MFATypeTOTP; ml_Action := act; ml_IPAddress := client_ip E;
  ml_UserAgent := user_agent E; ml_Success := valid; ml_Message := if valid then good else bad |}.

Definition enabled_row (enabled : bool) (m : UserMFA) : UserMFA := {|
  m_UserID := m_UserID m; m_TOTPEnabled := enabled; m_TOTPSecret := m_TOTPSecret m;
  m_TOTPVerified := enabled; m_BackupCodes := m_BackupCodes m |}.
Definition with_backup_codes (codes : gostring) (m : UserMFA) : UserMFA := {|
  m_UserID := m_UserID m; m_TOTPEnabled := m_TOTPEnabled m; m_TOTPSecret := m_TOTPSecret m;
  m_TOTPVerified := m_TOTPVerified m; m_BackupCodes := codes |}.

Definition VerifyAndEnableMFA E (userID : Z) (code : gostring) : action bool :=
  mfa ← h_map_err (app $"获取MFA配置失败: ") (GetUserMFA E userID);
  match mfa with
  | None => h_fail $"未找到MFA配置，请先设置"
  | Some mfa =>
    secret ← h_map_err (app $"解密密钥失败: ") (h_lift (decrypt (m_TOTPSecret mfa)));
    let valid := ValidateTOTP (now E) secret code in
    attempt_ (CreateLog E (mfa_log E userID $"enable" valid $"MFA验证成功并启用" $"MFA验证失败"));;
    if negb valid then mret false
    else UpdateMFA E (enabled_row true mfa);; mret true
  end.

(** The first unused code that matches, marked as used. *)
Fixpoint use_code (t : Z) (code : gostring) (l : list BackupCode) : option (list BackupCode) :=
  match l with
  | [] => None
  | bc :: l =>
    if bool_decide (bc_Code bc = code) && negb (bc_Used bc)
    then Some ({| bc_Code := bc_Code bc; bc_Used := true; bc_UsedAt := Some t |} :: l)
    else (bc ::.) <$> use_code t code l
  end.

Definition validateBackupCode E (mfa : UserMFA) (code : gostring) : action bool :=
  match decrypt (m_BackupCodes mfa) with
  | Err _ => mret false
  | Ok backupCodesJSON =>
    match json_codes backupCodesJSON with
    | None => mret false
    | Some backupCodes =>
      match use_code (now E) code backupCodes with
      | None => mret false
      | Some updated =>
        encrypted ← attempt_ (encrypt (json_of_codes updated));
        match encrypted with
        | Ok text => attempt_ (UpdateMFA E (with_backup_codes text mfa));; mret true
        | Err _ => mret true
        end
      end
    end
  end.

Definition ValidateMFACode E (userID : Z) (code : gostring) : action bool :=
  mfa ← h_map_err (app $"获取MFA配置失败: ") (GetUserMFA E userID);
  match mfa with
  | Some mfa =>
    if negb (IsEnabled mfa) then h_fail $"MFA未启用"
    else
      secret ← h_map_err (app $"解密密钥失败: ") (h_lift (decrypt (m_TOTPSecret mfa)));
      valid ← (if ValidateTOTP (now E) secret code then mret true
               else validateBackupCode E mfa code);
      attempt_ (CreateLog E (mfa_log E userID $"verify" valid $"MFA验证成功" $"MFA验证失败"));;
      mret valid
  | None => h_fail $"MFA未启用"
  end.

Definition GetMFAStatus E (userID : Z) : action (option UserMFA) := GetUserMFA E userID.

Definition DisableMFA E (userID : Z) (code : gostring) : action bool :=
  valid ← ValidateMFACode E userID code;
  if negb valid then mret false
  else
    mfa ← attempt_ (GetUserMFA E userID);
    (match mfa with
     | Ok (Some mfa) => attempt_ (UpdateMFA E (enabled_row false mfa));; mret tt
     | _ => mret tt
     end);;
    attempt_ (repo_DeleteUserTrustedDevices E userID);;
    attempt_ (CreateLog E (mfa_log E userID $"disable" true $"MFA已禁用" $"MFA已禁用"));;
    mret true.

Definition RegenerateBackupCodes E (userID : Z) (code : gostring) : action (list gostring) :=
  valid ← ValidateMFACode E userID code;
  if negb valid then h_fail $"验证码错误"
  else
    n ← draw 10;
    backupCodes ← h_lift (GenerateBackupCodes 10 n);
    mfa ← attempt_ (GetUserMFA E userID);
    match mfa with
    | Ok (Some mfa) =>
      encrypted ← encrypt (json_of_strings backupCodes);
      attempt_ (UpdateMFA E (with_backup_codes encrypted mfa));;
      mret backupCodes
    | _ => mret backupCodes
    end.

Definition IsMFAEnabled E (userID : Z) : action bool :=
  mfa ← attempt_ (GetUserMFA E userID);
  mret (match mfa with Ok (Some mfa) => IsEnabled mfa | _ => false end).

(** ** Trusted devices *)
Definition GenerateDeviceToken : action gostring :=
  n ← draw 1;
  b ← h_lift (rand_read n 32);
  mret (hex_encode b).

Definition hashDeviceToken (token : gostring) : gostring := hex_encode (sha256 (utf8 token)).

(** The goroutine that ends [SaveTrustedDevice] runs
    [DeleteExpiredTrustedDevices] at a time of its own. *)
Definition SaveTrustedDevice E (userID : Z) (deviceName ipAddress : gostring)
    (durationSeconds : Z) : action gostring :=
  token ← h_map_err (app $"生成设备令牌失败: ") GenerateDeviceToken;
  h_map_err (app $"保存信任设备失败: ") (repo_SaveTrustedDevice E {|
    d_UserID := userID; d_DeviceToken := hashDeviceToken token; d_DeviceName := deviceName;
    d_IPAddress := ipAddress; d_LastVerifiedAt := now E;
    d_ExpiresAt := now E + durationSeconds * nanos |});;
  mret token.

Definition IsTrustedDevice E (userID : Z) (deviceToken : gostring) : action bool :=
  if bool_decide (deviceToken = []) then mret false
  else
    device ← attempt_ (GetTrustedDevice E (hashDeviceToken deviceToken));
    mret (match device with
          | Ok (Some d) => (d_UserID d =? userID) && IsValid (now E) d
          | _ => false
          end).

(** ** [service/mfa/service.go] and [server/mfa/http.go]: the answers *)
Inductive mfa_reply :=
| MfaOk (message : gostring)
| MfaStatus (s : MFAStatusResponse)
| MfaSetup (s : MFASetupResponse)
| MfaCodes (codes : list gostring)
| MfaError (status : Z) (message : gostring).

(** [binding:"required,len=6"]. *)
Definition six_characters (code : gostring) : bool := (length code =? 6)%nat.

Definition service_GetStatus E (userID : Z) : action MFAStatusResponse :=
  mfa ← GetMFAStatus E userID;
  mret (match mfa with
        | None => {| st_IsEnabled := false; st_MFAType := []; st_HasBackup := false; st_VerifiedAt := [] |}
        | Some mfa => {|
            st_IsEnabled := IsEnabled mfa; st_MFAType := $"totp";
            st_HasBackup := negb (bool_decide (m_BackupCodes mfa = [])); st_VerifiedAt := [] |}
        end).
Definition service_EnableMFA E (userID : Z) (code : gostring) : action unit :=
  VerifyAndEnableMFA E userID code;; mret tt.
Definition service_DisableMFA E (userID : Z) (code : gostring) : action unit :=
  DisableMFA E userID code;; mret tt.

(** A handler behind [AuthRequired]: [userID] is that of the session. *)
Definition answer {A} (status : Z) (hide : gostring -> gostring) (ok : A -> mfa_reply)
    (m : action A) : action mfa_reply := fun w =>
  match m w with
  | (Ok a, w') => (Ok (ok a), w')
  | (Err e, w') => (Ok (MfaError status (hide e)), w')
  end.
Definition http_GetStatus E (userID : Z) : action mfa_reply :=
  if userID =? 0 then mret (MfaError 401 $"未授权")
  else answer 500 (fun _ => $"获取MFA状态失败") MfaStatus (service_GetStatus E userID).
Definition http_SetupMFA E (userID : Z) (username : gostring) : action mfa_reply :=
  if userID =? 0 then mret (MfaError 401 $"未授权")
  else answer 500 (fun _ => $"设置MFA失败") MfaSetup (SetupMFA E userID username).
Definition http_EnableMFA E (userID : Z) (code : gostring) : action mfa_reply :=
  if userID =? 0 then mret (MfaError 401 $"未授权")
  else if negb (six_characters code) then mret (MfaError 400 ($"参数错误: " ++ binding_error))
  else answer 400 id (fun _ => MfaOk $"MFA已启用") (service_EnableMFA E userID code).
Definition http_DisableMFA E (userID : Z) (code : gostring) : action mfa_reply :=
  if userID =? 0 then mret (MfaError 401 $"未授权")
  else if negb (six_characters code) then mret (MfaError 400 ($"参数错误: " ++ binding_error))
  else answer 400 id (fun _ => MfaOk $"MFA已禁用") (service_DisableMFA E userID code).
Definition http_RegenerateBackup E (userID : Z) (code : gostring) : action mfa_reply :=
  if userID =? 0 then mret (MfaError 401 $"未授权")
  else if negb (six_characters code) then mret (MfaError 400 ($"参数错误: " ++ binding_error))
  else answer 400 id MfaCodes (RegenerateBackupCodes E userID code).
End mfa.
