(* ===== verification/Login.v ===== *)
(** * Signing in: [internal/service/rbac] with [biz/system] and [biz/rbac]

    [Login] and [MFALogin] of [user.go] with everything they call: the account
    lock, the captcha, the local password, the directory ([ldap.go]), the
    security settings ([biz/system/usecase.go]), the tokens ([auth.go]), and
    the check of a session in [middleware.go]. The optional services are all
    present, as the server wires them. The rows of the login log are written
    by goroutines; they are listed in the order these are started. *)

From Stdlib Require Import ZArith Lia.
From stdpp Require Import base tactics option list numbers gmap.
From S2P Require Import Prelude GoStrings GoNumbers GoCrypto Totp SignInModel Mfa.

Open Scope Z_scope.

(** ** Settings *)
Definition ConfigKeyPasswordMinLength := $"password_min_length".
Definition ConfigKeySessionTimeout := $"session_timeout".
Definition ConfigKeyEnableCaptcha := $"enable_captcha".
Definition ConfigKeyMaxLoginAttempts := $"max_login_attempts".
Definition ConfigKeyLockoutDuration := $"lockout_duration".
Definition ConfigKeyMFAEnabled := $"mfa_enabled".
Definition ConfigKeyMFAEnforced := $"mfa_enforced".
Definition ConfigKeyMFAType := $"mfa_type".
Definition ConfigKeyMFASkipDuration := $"mfa_skip_duration".
Definition ConfigKeyLDAPConfig := $"ldap_config".
Definition ConfigGroupSecurity := $"security".
Definition UserSourceLDAP := $"ldap".

(** A text written with single quotes for double ones. *)
Definition quoted (s : gostring) : gostring := (fun c => if c =? 39 then 34 else c) <$> s.

(** The values of [DefaultConfigs] the modelled code asks for. *)
Definition DefaultConfigs (key : gostring) : option gostring :=
  if bool_decide (key = ConfigKeyEnableCaptcha) then Some $"true"
  else if bool_decide (key = ConfigKeyLDAPConfig) then Some (quoted $"{'enabled':false,'host':'','port':389,'useTls':false,'startTls':false,'skipVerify':false,'bindDn':'','bindPassword':'','baseDn':'','userFilter':'(uid=%s)','attrUsername':'uid','attrEmail':'mail','attrRealName':'cn','attrPhone':'telephoneNumber','defaultRoleId':0,'defaultDeptId':0,'autoCreateUser':true}")
  else None.

Record SecurityConfig := {
  PasswordMinLength : Z; SessionTimeout : Z; EnableCaptcha : bool; MaxLoginAttempts : Z;
  LockoutDuration : Z; MFAEnabled : bool; MFAEnforced : bool; MFAType : gostring;
  MFASkipDuration : Z }.

(** [strconv.Atoi]: a sign and decimal digits within 64 bits. *)
Definition Atoi (s : gostring) : option Z :=
  let '(neg, ds) := match s with
    | c :: s' => if c =? 45 then (true, s') else if c =? 43 then (false, s') else (false, s)
    | [] => (false, []) end in
  if bool_decide (ds = []) || negb (forallb (fun c => (48 <=? c) && (c <=? 57)) ds) then None
  else
    let v := foldl (fun acc c => acc * 10 + (c - 48)) 0 ds in
    let v := if neg then - v else v in
    if (- 2 ^ 63 <=? v) && (v <? 2 ^ 63) then Some v else None.

Definition getStringValue (m : gmap gostring gostring) (key defaultValue : gostring) : gostring :=
  match m !! key with
  | Some v => if bool_decide (v = []) then defaultValue else v
  | None => defaultValue
  end.
Definition getIntValue (m : gmap gostring gostring) (key : gostring) (defaultValue : Z) : Z :=
  match m !! key with
  | Some v => match Atoi v with Some i => i | None => defaultValue end
  | None => defaultValue
  end.
Definition getBoolValue (m : gmap gostring gostring) (key : gostring) (defaultValue : bool) : bool :=
  match m !! key with
  | Some v => bool_decide (v = $"true") || bool_decide (v = $"1")
  | None => defaultValue
  end.

Definition security_config (m : gmap gostring gostring) : SecurityConfig := {|
  PasswordMinLength := getIntValue m ConfigKeyPasswordMinLength 8;
  SessionTimeout := getIntValue m ConfigKeySessionTimeout 3600;
  EnableCaptcha := getBoolValue m ConfigKeyEnableCaptcha true;
  MaxLoginAttempts := getIntValue m ConfigKeyMaxLoginAttempts 5;
  LockoutDuration := getIntValue m ConfigKeyLockoutDuration 300;
  MFAEnabled := getBoolValue m ConfigKeyMFAEnabled false;
  MFAEnforced := getBoolValue m ConfigKeyMFAEnforced false;
  MFAType := getStringValue m ConfigKeyMFAType $"totp";
  MFASkipDuration := getIntValue m ConfigKeyMFASkipDuration 2592000 |}.

(** The directory settings used when none can be read. *)
Definition GetDefaultLDAPConfig : LDAPConfig := {|
  l_Enabled := false; l_Host := []; l_Port := 389; l_UseTLS := false; l_StartTLS := false;
  l_SkipVerify := false; l_BindDN := []; l_BindPassword := []; l_BaseDN := [];
  l_UserFilter := $"(uid=%s)"; l_AttrUsername := $"uid"; l_AttrEmail := $"mail";
  l_AttrRealName := $"cn"; l_AttrPhone := $"telephoneNumber"; l_DefaultRoleID := 0;
  l_DefaultDeptID := 0; l_AutoCreateUser := true |}.

Definition or_default (d s : gostring) : gostring := if bool_decide (s = []) then d else s.
Definition ldap_defaults (c : LDAPConfig) : LDAPConfig := {|
  l_Enabled := l_Enabled c; l_Host := l_Host c;
  l_Port := if l_Port c =? 0 then 389 else l_Port c; l_UseTLS := l_UseTLS c;
  l_StartTLS := l_StartTLS c; l_SkipVerify := l_SkipVerify c; l_BindDN := l_BindDN c;
  l_BindPassword := l_BindPassword c; l_BaseDN := l_BaseDN c;
  l_UserFilter := or_default $"(uid=%s)" (l_UserFilter c);
  l_AttrUsername := or_default $"uid" (l_AttrUsername c);
  l_AttrEmail := or_default $"mail" (l_AttrEmail c);
  l_AttrRealName := or_default $"cn" (l_AttrRealName c);
  l_AttrPhone := or_default $"telephoneNumber" (l_AttrPhone c);
  l_DefaultRoleID := l_DefaultRoleID c; l_DefaultDeptID := l_DefaultDeptID c;
  l_AutoCreateUser := l_AutoCreateUser c |}.

(** ** Requests and answers *)
Record LoginRequest := {
  rq_Username : gostring; rq_Password : gostring; rq_CaptchaId : gostring;
  rq_CaptchaId2 : gostring; rq_CaptchaCode : gostring;
  rq_DeviceCookie : gostring }.          (* the cookie [mfa_trusted_device] *)
Record MFALoginRequest := {
  rq_MFAToken : gostring; rq_Code : gostring; rq_RememberDevice : bool }.

(** A session comes with the cookie [opshub_session] of the same token;
    [device] is the value and age of the cookie [mfa_trusted_device]. *)
Inductive login_reply :=
| LoginRefused (status : Z) (message : gostring)
| LoginNeedsMFA (mfaToken : gostring)
| LoginSession (token : gostring) (user : SysUser) (requireSetup : bool)
    (device : option (gostring * Z)).

Definition hide_password (u : SysUser) : SysUser := {|
  u_ID := u_ID u; u_Username := u_Username u; u_Password := []; u_RealName := u_RealName u;
  u_Email := u_Email u; u_Phone := u_Phone u; u_Avatar := u_Avatar u; u_Status := u_Status u;
  u_Source := u_Source u; u_DepartmentID := u_DepartmentID u; u_Roles := u_Roles u;
  u_Bio := u_Bio u; u_LastLoginAt := u_LastLoginAt u |}.

Section login.
Context `{U : UnicodeTables} `{R : RandomSource} `{L : SignInLib}.
Context (encryptKey : bytes) (secretKey : gostring).
Implicit Types E : request_env.
Abbreviation action := (handler signin_world).

(** ** [biz/system/usecase.go] *)
Definition GetConfigByKey E (key : gostring) : action gostring :=
  config ← attempt_ (GetByKey E key);
  match config with
  | Ok c => mret (c_Value c)
  | Err e => match DefaultConfigs key with Some v => mret v | None => h_fail e end
  end.
Definition GetSecurityConfig E : action SecurityConfig :=
  m ← GetByGroup E ConfigGroupSecurity; mret (security_config m).
Definition IsCaptchaEnabled E : action bool :=
  value ← attempt_ (GetConfigByKey E ConfigKeyEnableCaptcha);
  mret (match value with Ok v => bool_decide (v = $"true") | Err _ => true end).
Definition CheckLoginAttempt E (username : gostring) : action (option Z) :=
  locked ← IsLocked E username;
  mret ((fun t => Z.quot (t - now E) nanos) <$> locked).
Definition RecordLoginFailure E (username : gostring) : action unit :=
  config ← attempt_ (GetSecurityConfig E);
  let '(maxAttempts, duration) :=
    match config with
    | Ok c => (MaxLoginAttempts c, LockoutDuration c)
    | Err _ => (5, 300)
    end in
  IncrementFailCount E username maxAttempts duration.
Definition ResetLoginAttempt E (username : gostring) : action unit := ResetFailCount E username.
Definition GetLDAPConfig E : action LDAPConfig :=
  value ← attempt_ (GetConfigByKey E ConfigKeyLDAPConfig);
  mret (match value with
        | Ok v =>
          if bool_decide (v = []) then GetDefaultLDAPConfig
          else match json_ldap v with
               | Some c => ldap_defaults c
               | None => GetDefaultLDAPConfig
               end
        | Err _ => GetDefaultLDAPConfig
        end).
Definition IsLDAPEnabled E : action bool := c ← GetLDAPConfig E; mret (l_Enabled c).

(** ** [biz/rbac/usecase.go] *)
Definition ValidatePassword E (username password : gostring) : action SysUser :=
  user ← attempt_ (GetByUsername E username);
  match user with
  | Err _ => h_fail $"用户名或密码错误"
  | Ok user =>
    if bcrypt_matches (u_Password user) password then mret user
    else h_fail $"用户名或密码错误"
  end.
Definition create_user E (u : SysUser) : action SysUser :=
  n ← draw 1;
  hashed ← h_lift (bcrypt_hash n (u_Password u));
  user_Create E {|
    u_ID := u_ID u; u_Username := u_Username u; u_Password := hashed; u_RealName := u_RealName u;
    u_Email := u_Email u; u_Phone := u_Phone u; u_Avatar := u_Avatar u; u_Status := u_Status u;
    u_Source := u_Source u; u_DepartmentID := u_DepartmentID u; u_Roles := u_Roles u;
    u_Bio := u_Bio u; u_LastLoginAt := u_LastLoginAt u |}.

(** ** [ldap.go] *)
Definition password_charset : gostring :=
  $"abcdefghijklmnopqrstuvwxyzABCDEFGHIJKLMNOPQRSTUVWXYZ0123456789!@#$%^&*()".
Definition generateRandomPassword (len : nat) : action gostring :=
  n ← draw len;
  mret ((fun i => nth (Z.to_nat (rand_intn (n + i) (Z.of_nat (length password_charset))))
           password_charset 0) <$> seq 0 len).

(** The account with what the directory says of it. *)
Definition keep_or (old new : gostring) : gostring :=
  if bool_decide (new = []) then old else new.
Definition ldap_user (r : LDAPAuthResult) (u : SysUser) : SysUser := {|
  u_ID := u_ID u; u_Username := u_Username u; u_Password := u_Password u;
  u_RealName := keep_or (u_RealName u) (lr_RealName r); u_Email := keep_or (u_Email u) (lr_Email r);
  u_Phone := keep_or (u_Phone u) (lr_Phone r); u_Avatar := u_Avatar u; u_Status := u_Status u;
  u_Source := UserSourceLDAP; u_DepartmentID := u_DepartmentID u; u_Roles := u_Roles u;
  u_Bio := u_Bio u; u_LastLoginAt := u_LastLoginAt u |}.
Definition ldap_changes (r : LDAPAuthResult) (u : SysUser) : bool :=
  negb (bool_decide (u_Email (ldap_user r u) = u_Email u)
        && bool_decide (u_RealName (ldap_user r u) = u_RealName u)
        && bool_decide (u_Phone (ldap_user r u) = u_Phone u)
        && bool_decide (u_Source u = UserSourceLDAP)).

(** What [First] leaves in the row it could not read. *)
Definition zero_user : SysUser := {|
  u_ID := 0; u_Username := []; u_Password := []; u_RealName := []; u_Email := [];
  u_Phone := []; u_Avatar := []; u_Status := 0; u_Source := []; u_DepartmentID := 0;
  u_Roles := []; u_Bio := []; u_LastLoginAt := None |}.

Definition findOrCreateUser E (r : LDAPAuthResult) (config : LDAPConfig) : action SysUser :=
  found ← attempt_ (GetByUsername E (lr_Username r));
  match found with
  | Ok user =>
    let user' := ldap_user r user in
    (if ldap_changes r user then attempt_ (user_Update E user');; mret tt else mret tt);;
    if (0 <? l_DefaultRoleID config) && bool_decide (u_Roles user = []) then
      attempt_ (AssignRoles E (u_ID user) [l_DefaultRoleID config]);;
      again ← attempt_ (GetByUsername E (u_Username user));
      mret (match again with Ok u => u | Err _ => zero_user end)
    else mret user'
  | Err _ =>
    if negb (l_AutoCreateUser config)
    then h_fail $"LDAP认证成功，但系统中不存在该用户且未开启自动创建"
    else
      randomPassword ← generateRandomPassword 32;
      newUser ← h_map_err (app $"创建LDAP用户失败: ") (create_user E {|
        u_ID := 0; u_Username := lr_Username r; u_Password := randomPassword;
        u_RealName := lr_RealName r; u_Email := lr_Email r; u_Phone := lr_Phone r; u_Avatar := [];
        u_Status := 1; u_Source := UserSourceLDAP; u_DepartmentID := l_DefaultDeptID config;
        u_Roles := []; u_Bio := []; u_LastLoginAt := None |});
      (if 0 <? l_DefaultRoleID config
       then attempt_ (AssignRoles E (u_ID newUser) [l_DefaultRoleID config]);; mret tt
       else mret tt);;
      created ← attempt_ (GetByUsername E (u_Username newUser));
      mret (match created with Ok u => u | Err _ => newUser end)
  end.

Definition named (username : gostring) (r : LDAPAuthResult) : LDAPAuthResult := {|
  lr_Username := if bool_decide (lr_Username r = []) then username else lr_Username r;
  lr_Email := lr_Email r; lr_RealName := lr_RealName r; lr_Phone := lr_Phone r |}.
Definition Authenticate E (username password : gostring) : action SysUser :=
  config ← GetLDAPConfig E;
  if negb (l_Enabled config) then h_fail $"LDAP未启用"
  else
    found ← h_lift (ldap_directory config username password);
    findOrCreateUser E (named username found) config.

(** ** [auth.go] *)
Definition claims_of E (userID : Z) (username tokenType : gostring) (seconds : Z) : JwtClaims := {|
  cl_UserID := userID; cl_Username := username; cl_TokenType := tokenType;
  cl_ExpiresAt := unix (now E + seconds * nanos); cl_IssuedAt := unix (now E);
  cl_NotBefore := unix (now E) |}.
Definition GenerateToken E (userID : Z) (username : gostring) : result gostring :=
  jwt_sign secretKey (claims_of E userID username $"auth" 86400).
Definition GenerateMFAToken E (userID : Z) (username : gostring) : result gostring :=
  jwt_sign secretKey (claims_of E userID username $"mfa" 300).
Definition ParseToken E (token : gostring) : result JwtClaims :=
  claims ← jwt_parse secretKey (now E) token;
  if bool_decide (cl_TokenType claims = $"mfa") then Err $"invalid token type" else Ok claims.
Definition ParseMFAToken E (token : gostring) : result JwtClaims :=
  claims ← jwt_parse secretKey (now E) token;
  if bool_decide (cl_TokenType claims = $"mfa") then Ok claims else Err $"invalid mfa token type".

(** ** [middleware.go]: [AuthRequired]. The sources of the token in order:
    the second part of the header [Bearer <token>], the query, the cookie. *)
Definition AuthRequired E (authHeader query cookie : gostring) : result (Z * gostring) :=
  let '(before, after, found) := cut_at 32 authHeader in
  let header := if found && bool_decide (before = $"Bearer") then after else [] in
  let token := if bool_decide (header = []) then query else header in
  let token := if bool_decide (token = []) then cookie else token in
  if bool_decide (token = []) then Err $"未登录"
  else match ParseToken E token with
  | Ok claims => Ok (cl_UserID claims, cl_Username claims)
  | Err _ => Err $"token无效或已过期"
  end.

(** ** [user.go] *)
Definition recordLoginLog E (username loginType loginStatus failReason : gostring)
    (userID : Z) : action unit :=
  realName ← (if userID =? 0 then mret []
              else user ← attempt_ (GetByID E userID);
                   mret (match user with Ok u => u_RealName u | Err _ => [] end));
  modify (add_login_log {|
    ll_UserID := userID; ll_Username := username; ll_RealName := realName;
    ll_LoginType := loginType; ll_LoginStatus := loginStatus; ll_LoginTime := now E;
    ll_IP := client_ip E; ll_UserAgent := user_agent E; ll_FailReason := failReason |}).

Definition refuse E (req : LoginRequest) (message : gostring) (userID : Z)
    (reply : gostring) : action login_reply :=
  recordLoginLog E (rq_Username req) $"web" $"failed" message userID;;
  mret (LoginRefused 200 reply).

(** The directory, after the local password failed with [e]. *)
Definition try_directory E (req : LoginRequest) (e : gostring) : action (result SysUser) :=
  enabled ← IsLDAPEnabled E;
  if (enabled : bool) then
    ldap ← attempt_ (Authenticate E (rq_Username req) (rq_Password req));
    match ldap with
    | Ok user =>
      recordLoginLog E (rq_Username req) $"ldap" $"success" [] (u_ID user);; mret (Ok user)
    | Err _ => mret (Err e)
    end
  else mret (Err e).

(** The password of the account, or else the directory. *)
Definition check_credentials E (req : LoginRequest) : action (result SysUser) :=
  local_ ← attempt_ (ValidatePassword E (rq_Username req) (rq_Password req));
  match local_ with
  | Ok user => mret (Ok user)
  | Err e => try_directory E req e
  end.

(** Whether the second factor is asked for, and whether its setup is. *)
Definition mfa_required E (user : SysUser) (cookie : gostring) : action (bool * bool) :=
  config ← attempt_ (GetSecurityConfig E);
  let '(systemMFAEnabled, mfaEnforced) :=
    match config with Ok c => (MFAEnabled c, MFAEnforced c) | Err _ => (false, false) end in
  userMFAEnabled ← IsMFAEnabled E (u_ID user);
  asked ← (if systemMFAEnabled && userMFAEnabled
           then trusted ← IsTrustedDevice E (u_ID user) cookie; mret (negb trusted)
           else mret false);
  mret (asked, mfaEnforced && negb userMFAEnabled).

(** What [Login] does once the credentials are good. *)
Definition admit_user E (req : LoginRequest) (user : SysUser) : action login_reply :=
  if negb (u_Status user =? 1) then refuse E req $"用户已被禁用" (u_ID user) $"用户已被禁用"
  else
    '(asked, requireSetup) ← mfa_required E user (rq_DeviceCookie req);
    if (asked : bool) then
      match GenerateMFAToken E (u_ID user) (u_Username user) with
      | Ok mfaToken => mret (LoginNeedsMFA mfaToken)
      | Err _ => mret (LoginRefused 500 $"生成MFA token失败")
      end
    else
      match GenerateToken E (u_ID user) (u_Username user) with
      | Err _ =>
        recordLoginLog E (rq_Username req) $"web" $"failed" $"生成token失败" (u_ID user);;
        mret (LoginRefused 500 $"生成token失败")
      | Ok token =>
        attempt_ (ResetLoginAttempt E (rq_Username req));;
        let user := hide_password user in
        attempt_ (user_Update E user);;
        recordLoginLog E (rq_Username req) $"web" $"success" [] (u_ID user);;
        mret (LoginSession token user requireSetup None)
      end.

(** The captcha; [None] lets the request go on. *)
Definition check_captcha E (req : LoginRequest) : action (option (gostring * gostring)) :=
  captchaEnabled ← IsCaptchaEnabled E;
  if negb captchaEnabled then mret None
  else
    let captchaId := if bool_decide (rq_CaptchaId req = []) then rq_CaptchaId2 req
                     else rq_CaptchaId req in
    if bool_decide (captchaId = []) || bool_decide (rq_CaptchaCode req = [])
    then mret (Some ($"验证码为空", $"请输入验证码"))
    else
      ok ← VerifyCaptchaDirect E captchaId (rq_CaptchaCode req);
      mret (if ok : bool then None else Some ($"验证码错误", $"验证码错误，请重新输入")).

Definition Login E (req : LoginRequest) : action login_reply :=
  if bool_decide (rq_Username req = []) || bool_decide (rq_Password req = [])
  then mret (LoginRefused 400 ($"参数错误: " ++ binding_error))
  else
    locked ← attempt_ (CheckLoginAttempt E (rq_Username req));
    match locked with
    | Ok (Some remainingSeconds) =>
      refuse E req $"账户已锁定" 0 ($"账户已锁定，请在 " ++ fmt_d remainingSeconds ++ $" 秒后重试")
    | _ =>
      captcha ← check_captcha E req;
      match captcha with
      | Some (reason, reply) => refuse E req reason 0 reply
      | None =>
        checked ← check_credentials E req;
        match checked with
        | Err e =>
          recordLoginLog E (rq_Username req) $"web" $"failed" e 0;;
          attempt_ (RecordLoginFailure E (rq_Username req));;
          mret (LoginRefused 200 e)
        | Ok user => admit_user E req user
        end
      end
    end.

(** The cookie of a device to remember. *)
Definition remember_device E (req : MFALoginRequest) (userID : Z) : action (option (gostring * Z)) :=
  if negb (rq_RememberDevice req) then mret None
  else
    config ← attempt_ (GetSecurityConfig E);
    match config with
    | Ok c =>
      if 0 <? MFASkipDuration c then
        saved ← attempt_ (SaveTrustedDevice E userID (user_agent E) (client_ip E) (MFASkipDuration c));
        mret (match saved with Ok token => Some (token, MFASkipDuration c) | Err _ => None end)
      else mret None
    | Err _ => mret None
    end.

Definition MFALogin E (req : MFALoginRequest) : action login_reply :=
  if bool_decide (rq_MFAToken req = []) || bool_decide (rq_Code req = [])
  then mret (LoginRefused 400 ($"参数错误: " ++ binding_error))
  else match ParseMFAToken E (rq_MFAToken req) with
  | Err _ => mret (LoginRefused 401 $"MFA token无效或已过期")
  | Ok mfaClaims =>
    valid ← attempt_ (ValidateMFACode encryptKey E (cl_UserID mfaClaims) (rq_Code req));
    match valid with
    | Ok true =>
      match GenerateToken E (cl_UserID mfaClaims) (cl_Username mfaClaims) with
      | Err _ => mret (LoginRefused 500 $"生成token失败")
      | Ok token =>
        user ← attempt_ (GetByID E (cl_UserID mfaClaims));
        match user with
        | Err _ => mret (LoginRefused 404 $"用户不存在")
        | Ok user =>
          attempt_ (ResetLoginAttempt E (cl_Username mfaClaims));;
          let user := hide_password user in
          attempt_ (user_Update E user);;
          recordLoginLog E (cl_Username mfaClaims) $"mfa" $"success" [] (u_ID user);;
          device ← remember_device E req (cl_UserID mfaClaims);
          mret (LoginSession token user false device)
        end
      end
    | _ =>
      recordLoginLog E (cl_Username mfaClaims) $"mfa" $"failed" $"MFA验证码错误" (cl_UserID mfaClaims);;
      mret (LoginRefused 200 $"验证码错误")
    end
  end.

(** [UnlockUser] of an administrator: the status and the message. *)
Definition UnlockUser E (id : Z) : action (Z * gostring) :=
  user ← attempt_ (GetByID E id);
  match user with
  | Err _ => mret (404, $"用户不存在")
  | Ok user =>
    reset ← attempt_ (ResetLoginAttempt E (u_Username user));
    mret (match reset with
          | Err e => (500, $"解锁失败: " ++ e)
          | Ok _ => (0, $"用户已解锁")
          end)
  end.
End login.
