(* ===== verification/MfaFacts.v ===== *)
(** What [Mfa] promises: what is encrypted is read back, the check of a code
    accepts the one-time passwords of the secret of the row and nothing else,
    and which row and device changes an operation can make. *)

From Stdlib Require Import ZArith Lia.
From stdpp Require Import base tactics option list numbers gmap.
From S2P Require Import Prelude GoStrings GoNumbers GoCrypto Totp TotpFacts SignInModel Mfa.

Open Scope Z_scope.

(** ** Text and bytes *)
Definition valid_rune (r : rune) : Prop := 0 <= r < 1114112.

Lemma utf8_decode_rune r l :
  valid_rune r -> utf8_decode (rune_utf8 r ++ l) = r :: utf8_decode l.
Proof.
  unfold valid_rune. intros Hr. unfold rune_utf8.
  destruct (Z.ltb_spec r 128); [|destruct (Z.ltb_spec r 2048); [|destruct (Z.ltb_spec r 65536)]];
    cbn [app utf8_decode].
  - by replace (r <? 128) with true by (symmetry; apply Z.ltb_lt; lia).
  - assert (Hq : 2 <= r / 64 < 32) by (Z.div_mod_to_equations; lia).
    replace (192 + r / 64 <? 128) with false by (symmetry; apply Z.ltb_ge; lia).
    replace (192 + r / 64 <? 224) with true by (symmetry; apply Z.ltb_lt; lia).
    f_equal. Z.div_mod_to_equations. lia.
  - assert (Hq : 0 <= r / 4096 < 16) by (Z.div_mod_to_equations; lia).
    replace (224 + r / 4096 <? 128) with false by (symmetry; apply Z.ltb_ge; lia).
    replace (224 + r / 4096 <? 224) with false by (symmetry; apply Z.ltb_ge; lia).
    replace (224 + r / 4096 <? 240) with true by (symmetry; apply Z.ltb_lt; lia).
    f_equal. Z.div_mod_to_equations. lia.
  - assert (Hq : 0 <= r / 262144 < 5) by (Z.div_mod_to_equations; lia).
    replace (240 + r / 262144 <? 128) with false by (symmetry; apply Z.ltb_ge; lia).
    replace (240 + r / 262144 <? 224) with false by (symmetry; apply Z.ltb_ge; lia).
    replace (240 + r / 262144 <? 240) with false by (symmetry; apply Z.ltb_ge; lia).
    f_equal. Z.div_mod_to_equations. lia.
Qed.

Lemma utf8_decode_utf8 s : Forall valid_rune s -> utf8_decode (utf8 s) = s.
Proof.
  unfold utf8. induction 1 as [|r s Hr Hs IH]; [done|].
  rewrite bind_cons, utf8_decode_rune, IH; done.
Qed.

Lemma rune_utf8_bytes r : valid_rune r -> Forall is_byte (rune_utf8 r).
Proof.
  unfold valid_rune, rune_utf8. intros Hr.
  repeat case_match; bsimpl; repeat constructor; unfold is_byte; Z.div_mod_to_equations; lia.
Qed.
Lemma utf8_bytes s : Forall valid_rune s -> Forall is_byte (utf8 s).
Proof.
  unfold utf8. induction 1 as [|r s Hr Hs IH]; [constructor|].
  rewrite bind_cons. apply Forall_app. split; [by apply rune_utf8_bytes | done].
Qed.

Lemma hex_lower_range d : 0 <= d < 16 -> 48 <= hex_lower d <= 57 \/ 97 <= hex_lower d <= 102.
Proof. unfold hex_lower. intros. case_match; bsimpl; lia. Qed.
Lemma hex_nibble_lower d : 0 <= d < 16 -> hex_nibble (hex_lower d) = Some d.
Proof.
  intros Hd. unfold hex_lower, hex_nibble. destruct (Z.ltb_spec d 10).
  - replace ((48 <=? 48 + d) && (48 + d <=? 57)) with true by (symmetry; apply andb_true_iff; lia).
    f_equal. lia.
  - replace ((48 <=? 87 + d) && (87 + d <=? 57)) with false by (symmetry; apply andb_false_iff; lia).
    replace ((97 <=? 87 + d) && (87 + d <=? 102)) with true by (symmetry; apply andb_true_iff; lia).
    f_equal. lia.
Qed.

Lemma hex_encode_ascii b : Forall is_byte b -> Forall (fun c => 0 <= c < 128) (hex_encode b).
Proof.
  unfold hex_encode. induction 1 as [|x b Hx Hb IH]; [constructor|]. rewrite bind_cons.
  unfold is_byte in Hx.
  pose proof (hex_lower_range (x / 16) ltac:(Z.div_mod_to_equations; lia)).
  pose proof (hex_lower_range (x mod 16) ltac:(Z.div_mod_to_equations; lia)).
  constructor; [lia|]. constructor; [lia | exact IH].
Qed.
Lemma length_hex_encode b : length (hex_encode b) = (2 * length b)%nat.
Proof.
  unfold hex_encode. induction b as [|x b IH]; [done|].
  rewrite bind_cons, length_app, IH. simpl. lia.
Qed.
Lemma hex_encode_app a b : hex_encode (a ++ b) = hex_encode a ++ hex_encode b.
Proof. apply bind_app. Qed.

Lemma scan_pairs_hex b : Forall is_byte b -> scan_pairs (hex_encode b) = Ok b.
Proof.
  unfold hex_encode. induction 1 as [|x b Hx Hb IH]; [done|]. rewrite bind_cons.
  unfold is_byte in Hx. cbn [app scan_pairs]. unfold scan_02x.
  rewrite !hex_nibble_lower by (Z.div_mod_to_equations; lia). rewrite IH.
  do 2 f_equal. Z.div_mod_to_equations. lia.
Qed.

(** What AES-GCM and [encoding/json] promise. Decoding a list of strings into
    a list of structs is a type error; a list of structs is read back. *)
Class SignInLaws (L : SignInLib) : Prop := {
  gcm_open_seal key nonce p : gcm_open key nonce (gcm_seal key nonce p) = Ok p;
  gcm_seal_bytes key nonce p : Forall is_byte p -> Forall is_byte (gcm_seal key nonce p);
  json_strings_not_codes l : l <> [] -> json_codes (json_of_strings l) = None;
  json_strings_valid l : Forall valid_rune (json_of_strings l) }.

Section facts.
Context `{U : UnicodeTables} `{R : RandomSource} `{RL : !RandomLaws R}.
Context `{L : SignInLib} `{LL : !SignInLaws L}.
Context (issuer : gostring) (encryptKey : bytes).
Implicit Types E : request_env.

Lemma encrypt_run plaintext w :
  encrypt encryptKey plaintext w =
  match rand_read (draws w) nonceSize with
  | Ok nonce => (Ok (hex_encode (nonce ++ gcm_seal encryptKey nonce (utf8 plaintext))),
                 set_draws (draws w + 1) w)
  | Err e => (Err e, set_draws (draws w + 1) w)
  end.
Proof.
  unfold encrypt, draw, mbind, handler_bind, h_lift. by destruct (rand_read (draws w) nonceSize).
Qed.

Lemma encrypt_decrypt plaintext w c w' :
  Forall valid_rune plaintext -> encrypt encryptKey plaintext w = (Ok c, w') ->
  decrypt encryptKey c = Ok plaintext /\ Forall (fun r => 0 <= r < 128) c.
Proof.
  intros Hv H. rewrite encrypt_run in H.
  destruct (rand_read (draws w) nonceSize) as [nonce|e] eqn:Hr; [|done].
  injection H as <- _. destruct (rand_read_fills _ _ _ Hr) as [Hl Hn].
  set (sealed := gcm_seal encryptKey nonce (utf8 plaintext)).
  assert (Hs : Forall is_byte sealed) by (by apply gcm_seal_bytes, utf8_bytes).
  assert (Ha : Forall (fun r => 0 <= r < 128) (hex_encode (nonce ++ sealed)))
    by (apply hex_encode_ascii; rewrite Forall_app; done).
  split; [|done].
  unfold decrypt. rewrite utf8_ascii by done. rewrite hex_encode_app.
  assert (Hln : length (hex_encode nonce) = (nonceSize * 2)%nat)
    by (rewrite length_hex_encode, Hl; done).
  rewrite length_app, Hln.
  replace (nonceSize * 2 + length (hex_encode sealed) <? nonceSize * 2)%nat with false
    by (symmetry; apply Nat.ltb_ge; lia).
  rewrite take_app_length', drop_app_length' by done.
  rewrite !scan_pairs_hex by done. cbn [mbind result_bind].
  unfold sealed. rewrite gcm_open_seal. cbn [mbind result_bind].
  by rewrite utf8_decode_utf8.
Qed.

(** C40: [decrypt] gives back every text that [encrypt] wrote, whatever the key
    and the nonce, and refuses every ciphertext that does not hold a nonce. *)
Theorem encrypt_round_trip plaintext w c w' :
  Forall valid_rune plaintext -> encrypt encryptKey plaintext w = (Ok c, w') ->
  decrypt encryptKey c = Ok plaintext /\ Forall (fun r => 0 <= r < 128) c /\
  (forall n, (n < 24)%nat -> is_ok (decrypt encryptKey (take n c)) = false).
Proof.
  intros Hv H. destruct (encrypt_decrypt _ _ _ _ Hv H) as [Hd Ha].
  split; [done|]. split; [done|]. intros n Hn. unfold decrypt.
  rewrite utf8_ascii by (by apply Forall_take). unfold nonceSize.
  rewrite length_take. replace (Init.Nat.min n (length c) <? 12 * 2)%nat with true
    by (symmetry; apply Nat.ltb_lt; lia). done.
Qed.

(** ** What the rows hold *)

(** A row of the table: it is that of its user, its secret is one that setup
    generated, and its backup codes are the JSON of a list of strings. *)
Definition row_ok (userID : Z) (m : UserMFA) : Prop :=
  m_UserID m = userID /\
  (exists n secret, GenerateSecret n = Ok secret /\
     decrypt encryptKey (m_TOTPSecret m) = Ok secret) /\
  (exists codes, codes <> [] /\ decrypt encryptKey (m_BackupCodes m) = Ok (json_of_strings codes)).
Definition rows_ok (w : signin_world) : Prop :=
  forall userID m, mfas w !! userID = Some m -> row_ok userID m.

Abbreviation keeps := (ensures rows_ok).

Lemma keeps_attempt {A} (m : handler signin_world A) Q :
  keeps m Q -> keeps (attempt_ m) (fun r => forall a, r = Ok a -> Q a).
Proof.
  intros Hm w Hw. specialize (Hm w Hw) as [Hi Hq]. unfold attempt_.
  destruct (m w) as [r w']; simpl in *. split; [done|]. intros ? [= <-]. exact Hq.
Qed.
Lemma keeps_table {A} E t (m : handler signin_world A) Q : keeps m Q -> keeps (on_table E t m) Q.
Proof. intros Hm w Hw. unfold on_table. case_match; [by split | by apply Hm]. Qed.
(** Statements that leave the rows alone. *)
Lemma keeps_modify f : (forall w, mfas (f w) = mfas w) -> keeps (modify f) (fun _ => True).
Proof. intros Hf w Hw. split; [|done]. simpl. unfold rows_ok. by rewrite Hf. Qed.
Lemma keeps_draw k : keeps (draw k) (fun _ => True).
Proof. intros w Hw. by split. Qed.

Lemma keeps_get E userID :
  keeps (GetUserMFA E userID) (fun r => forall m, r = Some m -> row_ok userID m).
Proof. apply keeps_table. intros w Hw. split; [done|]. intros ? [= <-]. apply Hw. Qed.
Lemma keeps_create E m : row_ok (m_UserID m) m -> keeps (CreateMFA E m) (fun _ => True).
Proof.
  intros Hm. apply keeps_table. intros w Hw. case_match; simpl; [by split|]. split; [|done].
  intros u m'. cbn [mfas set_mfas]. rewrite lookup_insert_Some. intros [[<- <-]|[_ H']]; [done | by apply Hw].
Qed.
Lemma keeps_update E m : row_ok (m_UserID m) m -> keeps (UpdateMFA E m) (fun _ => True).
Proof.
  intros Hm. apply keeps_table. intros w Hw. simpl. split; [|done].
  intros u m'. cbn [mfas set_mfas]. rewrite lookup_insert_Some. intros [[<- <-]|[_ H']]; [done | by apply Hw].
Qed.
Lemma keeps_log E l : keeps (CreateLog E l) (fun _ => True).
Proof. apply keeps_table. by apply keeps_modify. Qed.
Lemma keeps_encrypt s : Forall valid_rune s ->
  keeps (encrypt encryptKey s) (fun c => decrypt encryptKey c = Ok s).
Proof.
  intros Hs w Hw. split.
  - rewrite encrypt_run. by case_match.
  - intros c Hc. destruct (encrypt encryptKey s w) as [r w'] eqn:Hr. simpl in Hc. subst r.
    by eapply encrypt_decrypt.
Qed.

Lemma secret_valid n secret : GenerateSecret n = Ok secret -> Forall valid_rune secret.
Proof.
  intros (b & _ & _ & _ & Ha & _)%GenerateSecret_key. eapply list.Forall_impl; [exact Ha|].
  unfold is_base32, valid_rune. intros; lia.
Qed.
Lemma backup_codes_some k n codes :
  GenerateBackupCodes (S k) n = Ok codes -> codes <> [].
Proof. simpl. repeat case_match; try done. by intros [= <-]. Qed.

Create HintDb keeps.
Hint Resolve keeps_draw keeps_get keeps_create keeps_update keeps_log
  keeps_attempt ensures_lift ensures_map_err ensures_ret ensures_fail : keeps.

Lemma keeps_setup E userID username :
  keeps (SetupMFA issuer encryptKey E userID username) (fun _ => True).
Proof.
  unfold SetupMFA.
  eapply ensures_bind; [eauto with keeps|]. intros n _.
  eapply ensures_bind; [eauto with keeps|]. intros secret Hsec.
  eapply ensures_bind; [eauto with keeps|]. intros n' _.
  eapply ensures_bind; [eauto with keeps|]. intros codes Hcodes.
  eapply ensures_bind.
  { apply ensures_map_err, keeps_encrypt. exact (secret_valid _ _ Hsec). }
  intros es Hes.
  eapply ensures_bind; [by apply ensures_map_err, keeps_encrypt, json_strings_valid|].
  intros ec Hec.
  eapply ensures_bind; [eauto with keeps|]. intros existing Hex.
  assert (Hrow : row_ok userID (setup_row userID es ec)).
  { split; [done|]. split; [by exists n, secret|]. exists codes.
    split; [exact (backup_codes_some _ _ _ Hcodes) | done]. }
  eapply (ensures_bind _ _ _ (fun _ => True)).
  - destruct existing as [[old|]|]; [|by apply keeps_create..].
    destruct (Hex _ eq_refl _ eq_refl) as [-> _]. by apply keeps_update.
  - intros [] _. eapply ensures_bind; [eauto with keeps|]. intros qr _. by apply ensures_ret.
Qed.
(** The backup codes of such a row are never read: the check is [false]. *)
Lemma backup_codes_unreadable E userID m code w :
  row_ok userID m -> validateBackupCode encryptKey E m code w = (Ok false, w).
Proof.
  intros (_ & _ & codes & Hne & Hd). unfold validateBackupCode. rewrite Hd.
  by rewrite json_strings_not_codes.
Qed.

(** A check, run: the answer of [ValidateTOTP] on the secret of the row. *)
Lemma ValidateMFACode_run E userID code m w :
  down E TMfa = false -> mfas w !! userID = Some m -> row_ok userID m -> IsEnabled m = true ->
  exists n secret, GenerateSecret n = Ok secret /\
    decrypt encryptKey (m_TOTPSecret m) = Ok secret /\
    ValidateMFACode encryptKey E userID code w =
      (Ok (ValidateTOTP (now E) secret code),
       (attempt_ (CreateLog E (mfa_log E userID $"verify" (ValidateTOTP (now E) secret code)
          $"MFA验证成功" $"MFA验证失败")) w).2).
Proof.
  intros Hup Hm Hok He. pose proof Hok as (_ & (n & secret & Hg & Hd) & _).
  exists n, secret. split; [done|]. split; [done|].
  unfold ValidateMFACode, GetUserMFA, on_table, reads, mbind, handler_bind, h_map_err, h_lift.
  rewrite Hup, Hm. cbv beta iota. rewrite He. cbn [negb]. rewrite Hd.
  destruct (ValidateTOTP (now E) secret code); cbv beta iota; cbn [mret handler_ret].
  - unfold attempt_. by destruct (CreateLog _ _ _) as [r w'].
  - rewrite (backup_codes_unreadable _ userID) by done.
    unfold attempt_. by destruct (CreateLog _ _ _) as [r w'].
Qed.

Lemma ValidateMFACode_true E userID code w w' :
  ValidateMFACode encryptKey E userID code w = (Ok true, w') ->
  down E TMfa = false /\ exists m, mfas w !! userID = Some m /\ IsEnabled m = true.
Proof.
  unfold ValidateMFACode, GetUserMFA, on_table, reads, mbind, handler_bind, h_map_err.
  destruct (down E TMfa); [done|]. destruct (mfas w !! userID) as [m|] eqn:Hm; [|done].
  cbv beta iota. destruct (IsEnabled m) eqn:He; [|done]. eauto.
Qed.

Lemma keeps_check E userID code :
  keeps (ValidateMFACode encryptKey E userID code) (fun _ => True).
Proof.
  unfold ValidateMFACode. eapply ensures_bind; [eauto with keeps|].
  intros [m|] Hm; [|apply ensures_fail]. specialize (Hm m eq_refl).
  destruct (negb (IsEnabled m)); [apply ensures_fail|].
  eapply ensures_bind; [eauto with keeps|]. intros secret _.
  eapply (ensures_bind _ _ _ (fun _ => True)).
  - destruct (ValidateTOTP _ _ _); [by apply ensures_ret|].
    intros w Hw. rewrite (backup_codes_unreadable _ userID) by done. by split.
  - intros v _. eapply ensures_bind; [eauto with keeps|]. intros r _. by apply ensures_ret.
Qed.

Lemma row_ok_enabled userID b m : 
  row_ok userID m -> row_ok (m_UserID (enabled_row b m)) (enabled_row b m).
Proof. intros (Hu & Hs & Hc). split; [done|]. split; done. Qed.
Lemma row_ok_codes userID codes text m :
  row_ok userID m -> codes <> [] -> decrypt encryptKey text = Ok (json_of_strings codes) ->
  row_ok (m_UserID (with_backup_codes text m)) (with_backup_codes text m).
Proof. intros (Hu & Hs & Hc) Hne Hd. split; [done|]. split; [done|]. by exists codes. Qed.

Lemma keeps_enable E userID code :
  keeps (VerifyAndEnableMFA encryptKey E userID code) (fun _ => True).
Proof.
  unfold VerifyAndEnableMFA. eapply ensures_bind; [eauto with keeps|].
  intros [m|] Hm; [|apply ensures_fail]. specialize (Hm m eq_refl).
  eapply ensures_bind; [eauto with keeps|]. intros secret _.
  eapply ensures_bind; [eauto with keeps|]. intros r _.
  destruct (ValidateTOTP _ _ _); simpl negb; cbv iota; [|by apply ensures_ret].
  eapply ensures_bind; [apply keeps_update; by eapply row_ok_enabled|].
  intros [] _. by apply ensures_ret.
Qed.

Lemma keeps_delete_devices E userID :
  keeps (repo_DeleteUserTrustedDevices E userID) (fun _ => True).
Proof. apply keeps_table. by apply keeps_modify. Qed.
Hint Resolve keeps_check keeps_delete_devices : keeps.

Lemma keeps_disable E userID code : keeps (DisableMFA encryptKey E userID code) (fun _ => True).
Proof.
  unfold DisableMFA. eapply ensures_bind; [eauto with keeps|]. intros v _.
  destruct (negb v); [by apply ensures_ret|].
  eapply ensures_bind; [eauto with keeps|]. intros r Hr.
  eapply (ensures_bind _ _ _ (fun _ => True)).
  - destruct r as [[m|]|]; [|by apply ensures_ret..].
    eapply ensures_bind; [|intros ? _; by apply ensures_ret].
    eapply keeps_attempt, keeps_update, row_ok_enabled, Hr; done.
  - intros [] _. eapply ensures_bind; [eauto with keeps|]. intros ? _.
    eapply ensures_bind; [eauto with keeps|]. intros ? _. by apply ensures_ret.
Qed.

Lemma keeps_regenerate E userID code :
  keeps (RegenerateBackupCodes encryptKey E userID code) (fun _ => True).
Proof.
  unfold RegenerateBackupCodes. eapply ensures_bind; [eauto with keeps|]. intros v _.
  destruct (negb v); [apply ensures_fail|].
  eapply ensures_bind; [eauto with keeps|]. intros n _.
  eapply ensures_bind; [eauto with keeps|]. intros codes Hcodes.
  eapply ensures_bind; [eauto with keeps|]. intros r Hr.
  destruct r as [[m|]|]; [|by apply ensures_ret..].
  eapply ensures_bind; [apply keeps_encrypt, json_strings_valid|]. intros text Htext.
  eapply ensures_bind; [|intros ? _; by apply ensures_ret].
  eapply keeps_attempt, keeps_update, row_ok_codes; [exact (Hr _ eq_refl _ eq_refl)| |exact Htext].
  exact (backup_codes_some _ _ _ Hcodes).
Qed.

(** ** Histories *)
Inductive mfa_op :=
| OpSetup (username : gostring) | OpEnable (code : gostring) | OpCheck (code : gostring)
| OpDisable (code : gostring) | OpRegenerate (code : gostring).
Definition run_op E (userID : Z) (op : mfa_op) (w : signin_world) : signin_world :=
  match op with
  | OpSetup username => (SetupMFA issuer encryptKey E userID username w).2
  | OpEnable code => (VerifyAndEnableMFA encryptKey E userID code w).2
  | OpCheck code => (ValidateMFACode encryptKey E userID code w).2
  | OpDisable code => (DisableMFA encryptKey E userID code w).2
  | OpRegenerate code => (RegenerateBackupCodes encryptKey E userID code w).2
  end.

(** Any requests, one after the other, of any users, from a table without
    rows; whatever does not write the table may happen in between. *)
Inductive mfa_reachable : signin_world -> Prop :=
| mr_start w : mfas w = ∅ -> mfa_reachable w
| mr_op w E userID op : mfa_reachable w -> mfa_reachable (run_op E userID op w)
| mr_other w w' : mfa_reachable w -> mfas w' = mfas w -> mfa_reachable w'.

Lemma reachable_rows w : mfa_reachable w -> rows_ok w.
Proof.
  induction 1 as [w Hw|w E userID op _ IH|w w' _ IH Heq].
  - intros u m. by rewrite Hw, lookup_empty.
  - destruct op; simpl; [apply keeps_setup | apply keeps_enable | apply keeps_check
      | apply keeps_disable | apply keeps_regenerate]; done.
  - unfold rows_ok. by rewrite Heq.
Qed.

Lemma nth_all {A} (P : A -> Prop) d l i : P d -> Forall P l -> P (nth i l d).
Proof. intros Hd Hl. revert i. induction Hl; intros [|i]; simpl; auto. Qed.
Lemma backup_chars_ascii : Forall (fun c => 0 <= c < 128) backup_chars.
Proof. apply (bool_decide_unpack _). by vm_compute. Qed.

Lemma backup_code_length k n codes code :
  GenerateBackupCodes k n = Ok codes -> code ∈ codes -> byte_len code = 8.
Proof.
  revert n codes. induction k as [|k IH]; intros n codes; simpl.
  { intros [= <-] Hin. by apply not_elem_of_nil in Hin. }
  destruct (generateBackupCode n) as [c|] eqn:Hc; [|done].
  destruct (GenerateBackupCodes k (S n)) as [cs|] eqn:Hcs; [|done].
  intros [= <-] [->|Hin]%elem_of_cons; [|by eapply IH].
  unfold generateBackupCode in Hc. destruct (rand_read n 8) as [b|] eqn:Hr; [|done].
  injection Hc as <-. destruct (rand_read_fills _ _ _ Hr) as [Hl _].
  rewrite byte_len_ascii; [by rewrite length_fmap, Hl|].
  rewrite Forall_fmap. apply list.Forall_forall. intros x _.
  refine (nth_all (fun c => 0 <= c < 128) 0 backup_chars _ _ backup_chars_ascii). lia.
Qed.

(** C38: in every history, the second factor of a user is accepted exactly when
    it is enabled and the code is a one-time password of the secret that setup
    generated for the row; no backup code is ever accepted. *)
Theorem second_factor_is_totp w E userID code :
  mfa_reachable w -> down E TMfa = false ->
  ((exists w', ValidateMFACode encryptKey E userID code w = (Ok true, w')) <->
   (exists m n secret, mfas w !! userID = Some m /\ IsEnabled m = true /\
      GenerateSecret n = Ok secret /\ decrypt encryptKey (m_TOTPSecret m) = Ok secret /\
      ValidateTOTP (now E) secret code = true)) /\
  (forall n codes w', GenerateBackupCodes 10 n = Ok codes -> code ∈ codes ->
     ValidateMFACode encryptKey E userID code w <> (Ok true, w')).
Proof.
  intros Hr Hup. pose proof (reachable_rows w Hr) as Hok.
  assert (Hiff : (exists w', ValidateMFACode encryptKey E userID code w = (Ok true, w')) <->
   (exists m n secret, mfas w !! userID = Some m /\ IsEnabled m = true /\
      GenerateSecret n = Ok secret /\ decrypt encryptKey (m_TOTPSecret m) = Ok secret /\
      ValidateTOTP (now E) secret code = true)).
  { split.
    - intros (w' & Hv). pose proof (ValidateMFACode_true _ _ _ _ _ Hv) as (_ & m & Hm & He).
      destruct (ValidateMFACode_run E userID code m w Hup Hm (Hok _ _ Hm) He)
        as (n & secret & Hg & Hd & Hrun).
      rewrite Hrun in Hv. apply pair_eq in Hv as [Hv _]. injection Hv as Hv.
      by exists m, n, secret.
    - intros (m & n & secret & Hm & He & Hg & Hd & Hv).
      destruct (ValidateMFACode_run E userID code m w Hup Hm (Hok _ _ Hm) He)
        as (n' & secret' & Hg' & Hd' & Hrun).
      rewrite Hd in Hd'. injection Hd' as <-. rewrite Hrun, Hv. by eexists. }
  split; [exact Hiff|]. intros n codes w' Hcodes Hin Hv.
  assert (Hex : exists w', ValidateMFACode encryptKey E userID code w = (Ok true, w')) by eauto.
  apply Hiff in Hex as (m & n' & secret & _ & _ & _ & _ & Ht). unfold ValidateTOTP in Ht.
  by rewrite (backup_code_length _ _ _ _ Hcodes Hin) in Ht.
Qed.
End facts.
