(* ===== verification/LoginFacts.v ===== *)
(** What [Login] promises: a session is only given for good credentials, to an
    account that is neither locked nor disabled, with the second factor when
    it is on; the lock bounds the wrong passwords, and it ends. *)

From Stdlib Require Import ZArith Lia.
From stdpp Require Import base tactics option list numbers gmap.
From S2P Require Import Prelude GoStrings GoNumbers GoCrypto Totp TotpFacts SignInModel Mfa Login MfaFacts.

Open Scope Z_scope.

Section facts.
Context `{U : UnicodeTables} `{R : RandomSource} `{L : SignInLib}.
Context (encryptKey : bytes) (secretKey : gostring).
Implicit Types (E : request_env) (w : signin_world).
Abbreviation action := (handler signin_world).

(** ** What the checks read *)
Definition security_of w : SecurityConfig :=
  security_config (c_Value <$> filter (fun kc => c_Group kc.2 = ConfigGroupSecurity) (configs w)).

(** The lock a request finds. *)
Definition lock_of E w (username : gostring) : option Z :=
  if down E TAttempts then None
  else match attempts w !! text_key username with
  | Some a =>
    match at_LockedUntil a with
    | Some t => if now E <? t then Some t else None
    | None => None
    end
  | None => None
  end.

Definition mfa_on E w (userID : Z) : bool :=
  negb (down E TMfa) && match mfas w !! userID with Some m => IsEnabled m | None => false end.
Definition trusted E w (userID : Z) (cookie : gostring) : bool :=
  negb (bool_decide (cookie = [])) && negb (down E TDevices) &&
  match devices w !! hashDeviceToken cookie with
  | Some d => (d_UserID d =? userID) && IsValid (now E) d
  | None => false
  end.
Definition factor_asked E w (userID : Z) (cookie : gostring) : bool :=
  negb (down E TConfig) && MFAEnabled (security_of w) && mfa_on E w userID
  && negb (trusted E w userID cookie).

Lemma GetSecurityConfig_run E w :
  GetSecurityConfig E w = (if down E TConfig then Err db_error else Ok (security_of w), w).
Proof.
  unfold GetSecurityConfig, GetByGroup, on_table, reads, mbind, handler_bind.
  by destruct (down E TConfig).
Qed.

Lemma CheckLoginAttempt_run E username w :
  CheckLoginAttempt E username w =
    (if down E TAttempts then Err db_error
     else Ok ((fun t => Z.quot (t - now E) nanos) <$> lock_of E w username), w).
Proof.
  unfold CheckLoginAttempt, IsLocked, lock_of, on_table, reads, mbind, handler_bind.
  destruct (down E TAttempts); [done|]. reflexivity.
Qed.

Lemma IsMFAEnabled_run E userID w : IsMFAEnabled E userID w = (Ok (mfa_on E w userID), w).
Proof.
  unfold IsMFAEnabled, GetUserMFA, mfa_on, attempt_, on_table, reads, mbind, handler_bind.
  destruct (down E TMfa); [done|]. by destruct (mfas w !! userID).
Qed.

Lemma IsTrustedDevice_run E userID cookie w :
  IsTrustedDevice E userID cookie w = (Ok (trusted E w userID cookie), w).
Proof.
  unfold IsTrustedDevice, GetTrustedDevice, trusted, attempt_, on_table, reads.
  case_bool_decide; [done|]. unfold mbind, handler_bind. cbn [negb andb].
  destruct (down E TDevices); [done|]. by destruct (devices w !! hashDeviceToken cookie).
Qed.

Lemma mfa_required_run E user cookie w :
  mfa_required E user cookie w =
    (Ok (factor_asked E w (u_ID user) cookie,
         negb (down E TConfig) && MFAEnforced (security_of w) && negb (mfa_on E w (u_ID user))), w).
Proof.
  unfold mfa_required, attempt_, mbind, handler_bind. rewrite GetSecurityConfig_run.
  unfold factor_asked. destruct (down E TConfig); cbv beta iota; rewrite IsMFAEnabled_run.
  - done.
  - cbn [negb andb].
    destruct (MFAEnabled (security_of w) && mfa_on E w (u_ID user)); cbv beta iota; [|done].
    by rewrite IsTrustedDevice_run.
Qed.

(** ** What the checks leave alone *)
Definition same_guards w0 w : Prop :=
  configs w = configs w0 /\ mfas w = mfas w0 /\ devices w = devices w0 /\
  attempts w = attempts w0.
Lemma same_guards_refl w : same_guards w w.
Proof. done. Qed.

Lemma factor_asked_same E w w1 userID cookie :
  same_guards w w1 -> factor_asked E w1 userID cookie = factor_asked E w userID cookie.
Proof.
  intros (Hc & Hm & Hd & _). unfold factor_asked, security_of, mfa_on, trusted.
  by rewrite Hc, Hm, Hd.
Qed.

Section frame.
Context (w0 : signin_world).
Abbreviation frames m := (ensures (same_guards w0) m (fun _ => True)).

Lemma frame_attempt {A} (m : action A) : frames m -> frames (attempt_ m).
Proof.
  intros Hm w Hw. specialize (Hm w Hw) as [Hi _]. unfold attempt_.
  by destruct (m w) as [r w'].
Qed.
Lemma frame_table {A} E t (m : action A) : frames m -> frames (on_table E t m).
Proof. intros Hm w Hw. unfold on_table. case_match; [by split | by apply Hm]. Qed.
Lemma frame_modify f :
  (forall w, same_guards w (f w)) -> frames (modify f).
Proof.
  intros Hf w (H1 & H2 & H3 & H4). specialize (Hf w) as (F1 & F2 & F3 & F4).
  split; [|done]. cbn [modify snd]. unfold same_guards. by rewrite F1, F2, F3, F4.
Qed.
Lemma frame_reads {A} (f : signin_world -> A) : frames (reads f).
Proof. intros w Hw. by split. Qed.
Lemma frame_draw k : frames (draw k).
Proof. intros w Hw. by split. Qed.
Lemma frame_bind {A B} (m : action A) (f : A -> action B) :
  frames m -> (forall a, frames (f a)) -> frames (m ≫= f).
Proof. intros Hm Hf. eapply ensures_bind; [exact Hm|]. intros a _. apply Hf. Qed.
Lemma frame_ret {A} (a : A) : frames (mret a).
Proof. by apply ensures_ret. Qed.
Lemma frame_fail {A} e : frames (h_fail (A := A) e).
Proof. apply ensures_fail. Qed.
Lemma frame_lift {A} (r : result A) : frames (h_lift r).
Proof. eapply ensures_true, ensures_lift. Qed.
Lemma frame_map_err {A} g (m : action A) : frames m -> frames (h_map_err g m).
Proof. apply ensures_map_err. Qed.
End frame.

Lemma frame_GetByUsername w0 E username :
  ensures (same_guards w0) (GetByUsername E username) (fun _ => True).
Proof. apply frame_table. intros w Hw. case_match; by split. Qed.
Lemma frame_GetByID w0 E id : ensures (same_guards w0) (GetByID E id) (fun _ => True).
Proof. apply frame_table. intros w Hw. case_match; by split. Qed.
Lemma frame_GetByKey w0 E key : ensures (same_guards w0) (GetByKey E key) (fun _ => True).
Proof. apply frame_table. intros w Hw. case_match; by split. Qed.
Lemma frame_captcha_Get w0 E id clear :
  ensures (same_guards w0) (captcha_Get E id clear) (fun _ => True).
Proof. intros w Hw. unfold captcha_Get. repeat case_match; by split. Qed.
Lemma frame_user_Update w0 E u : ensures (same_guards w0) (user_Update E u) (fun _ => True).
Proof. apply frame_table. by apply frame_modify. Qed.
Lemma frame_AssignRoles w0 E id roles :
  ensures (same_guards w0) (AssignRoles E id roles) (fun _ => True).
Proof. apply frame_table. by apply frame_modify. Qed.
Lemma frame_user_Create w0 E u : ensures (same_guards w0) (user_Create E u) (fun _ => True).
Proof. apply frame_table. intros w Hw. by split. Qed.
Lemma frame_add_log w0 l : ensures (same_guards w0) (modify (add_login_log l)) (fun _ => True).
Proof. by apply frame_modify. Qed.

(** A handler made of steps that leave the guards alone. *)
Ltac frame :=
  repeat first
  [ apply frame_GetByUsername | apply frame_GetByID | apply frame_GetByKey
  | apply frame_captcha_Get | apply frame_user_Update | apply frame_AssignRoles
  | apply frame_user_Create | apply frame_add_log | apply frame_draw | apply frame_ret
  | apply frame_fail | apply frame_lift
  | apply frame_attempt | apply frame_map_err
  | apply frame_bind; [|intros ?]
  | match goal with
    | |- ensures _ (if ?b then _ else _) _ => destruct b
    | |- ensures _ (match ?r with _ => _ end) _ => destruct r
    end ].

Lemma frame_log w0 E username loginType status reason id :
  ensures (same_guards w0) (recordLoginLog E username loginType status reason id) (fun _ => True).
Proof. unfold recordLoginLog. frame. Qed.
Lemma frame_captcha w0 E req : ensures (same_guards w0) (check_captcha E req) (fun _ => True).
Proof.
  unfold check_captcha, IsCaptchaEnabled, GetConfigByKey, VerifyCaptchaDirect, captcha_Verify.
  frame.
Qed.
Lemma frame_credentials w0 E req :
  ensures (same_guards w0) (check_credentials E req) (fun _ => True).
Proof.
  unfold check_credentials, try_directory, ValidatePassword, IsLDAPEnabled, GetLDAPConfig, GetConfigByKey,
    Authenticate, findOrCreateUser, create_user, generateRandomPassword, recordLoginLog.
  frame.
Qed.
(** ** Runs *)
Lemma recordLoginLog_run E username loginType status reason id w :
  exists l, recordLoginLog E username loginType status reason id w = (Ok tt, add_login_log l w).
Proof.
  unfold recordLoginLog, mbind, handler_bind, modify. destruct (id =? 0); [by eexists|].
  unfold attempt_, GetByID, on_table. destruct (down E TUsers); [by eexists|].
  destruct (List.find _ _); by eexists.
Qed.

Lemma refuse_run E req message id reply w :
  exists l, refuse E req message id reply w = (Ok (LoginRefused 200 reply), add_login_log l w).
Proof.
  unfold refuse, mbind, handler_bind.
  destruct (recordLoginLog_run E (rq_Username req) $"web" $"failed" message id w) as [l ->].
  by exists l.
Qed.

Lemma attempt_run {A} (m : action A) w : attempt_ m w = (Ok (m w).1, (m w).2).
Proof. unfold attempt_. by destruct (m w). Qed.

(** The attempts that a sign-in leaves. *)
Definition cleared E (username : gostring) w : gmap gostring SysUserLoginAttempt :=
  if down E TAttempts then attempts w else delete (text_key username) (attempts w).

Lemma admit_run E req user w :
  exists w', admit_user secretKey E req user w =
    (Ok (if negb (u_Status user =? 1) then LoginRefused 200 $"用户已被禁用"
         else if factor_asked E w (u_ID user) (rq_DeviceCookie req)
         then match GenerateMFAToken secretKey E (u_ID user) (u_Username user) with
              | Ok mfaToken => LoginNeedsMFA mfaToken
              | Err _ => LoginRefused 500 $"生成MFA token失败"
              end
         else match GenerateToken secretKey E (u_ID user) (u_Username user) with
              | Err _ => LoginRefused 500 $"生成token失败"
              | Ok token => LoginSession token (hide_password user)
                  (negb (down E TConfig) && MFAEnforced (security_of w)
                     && negb (mfa_on E w (u_ID user))) None
              end), w') /\
    configs w' = configs w /\ mfas w' = mfas w /\ devices w' = devices w /\
    attempts w' =
      if (u_Status user =? 1) && negb (factor_asked E w (u_ID user) (rq_DeviceCookie req))
         && is_ok (GenerateToken secretKey E (u_ID user) (u_Username user))
      then cleared E (rq_Username req) w else attempts w.
Proof.
  unfold admit_user. destruct (u_Status user =? 1); cbn [negb andb].
  2:{ destruct (refuse_run E req $"用户已被禁用" (u_ID user) $"用户已被禁用" w) as [l ->].
      by eexists. }
  unfold mbind, handler_bind. rewrite mfa_required_run.
  destruct (factor_asked E w (u_ID user) (rq_DeviceCookie req)); cbn [negb andb].
  - destruct (GenerateMFAToken _ _ _ _); by eexists.
  - destruct (GenerateToken _ _ _ _) as [token|e]; cbn [is_ok].
    + rewrite !attempt_run. unfold ResetLoginAttempt, ResetFailCount, user_Update, on_table, modify,
        cleared.
      destruct (down E TAttempts), (down E TUsers); cbn [fst snd];
        match goal with |- context [recordLoginLog ?E ?a ?b ?c ?d ?i ?x] =>
          destruct (recordLoginLog_run E a b c d i x) as [l ->] end; by eexists.
    + destruct (recordLoginLog_run E (rq_Username req) $"web" $"failed" $"生成token失败" (u_ID user) w)
        as [l ->]. by eexists.
Qed.
(** ** The settings *)
Definition config_value E w (key : gostring) : option gostring :=
  if down E TConfig then DefaultConfigs key
  else match configs w !! key with
  | Some c => Some (c_Value c)
  | None => DefaultConfigs key
  end.
Definition captcha_on E w : bool :=
  match config_value E w ConfigKeyEnableCaptcha with
  | Some v => bool_decide (v = $"true")
  | None => true
  end.
Definition ldap_of E w : LDAPConfig :=
  match config_value E w ConfigKeyLDAPConfig with
  | Some v =>
    if bool_decide (v = []) then GetDefaultLDAPConfig
    else match json_ldap v with Some c => ldap_defaults c | None => GetDefaultLDAPConfig end
  | None => GetDefaultLDAPConfig
  end.

Lemma GetConfigByKey_run E (key : gostring) w :
  exists e, GetConfigByKey E key w =
    (match config_value E w key with Some v => Ok v | None => Err e end, w).
Proof.
  unfold GetConfigByKey, GetByKey, config_value, attempt_, on_table, mbind, handler_bind.
  destruct (down E TConfig); [|destruct (configs w !! key)];
    try (destruct (DefaultConfigs key); by eexists).
Qed.
Lemma IsCaptchaEnabled_run E w : IsCaptchaEnabled E w = (Ok (captcha_on E w), w).
Proof.
  unfold IsCaptchaEnabled, captcha_on, mbind, handler_bind, attempt_.
  destruct (GetConfigByKey_run E ConfigKeyEnableCaptcha w) as [e ->].
  by destruct (config_value _ _ _).
Qed.
Lemma GetLDAPConfig_run E w : GetLDAPConfig E w = (Ok (ldap_of E w), w).
Proof.
  unfold GetLDAPConfig, ldap_of, mbind, handler_bind, attempt_.
  destruct (GetConfigByKey_run E ConfigKeyLDAPConfig w) as [e ->].
  by destruct (config_value _ _ _).
Qed.

(** ** The captcha *)
Definition captcha_id (req : LoginRequest) : gostring :=
  if bool_decide (rq_CaptchaId req = []) then rq_CaptchaId2 req else rq_CaptchaId req.

(** What lets a request pass: the captcha is off, or its answer is right and
    is used up. *)
Definition captcha_passed E (req : LoginRequest) w w1 : Prop :=
  (captcha_on E w = false /\ w1 = w) \/
  (captcha_on E w = true /\ down E TCaptcha = false /\
   captcha_id req <> [] /\ rq_CaptchaCode req <> [] /\
   exists t, captchas w !! captcha_id req = Some (rq_CaptchaCode req, t) /\ now E < t /\
     w1 = set_captchas (delete (captcha_id req) (captchas w)) w).

Lemma check_captcha_passed E req w w1 :
  check_captcha E req w = (Ok None, w1) <-> captcha_passed E req w w1.
Proof.
  unfold check_captcha, captcha_passed, mbind, handler_bind. rewrite IsCaptchaEnabled_run.
  destruct (captcha_on E w); cbn [negb].
  2:{ split; [by intros [= <-]; left | by intros [[_ ->]|(? & _)]]. }
  fold (captcha_id req). unfold VerifyCaptchaDirect, captcha_Verify, captcha_Get.
  case_bool_decide as Hid; cbn [orb].
  { split; [done | by intros [[? _]|(_ & _ & ? & _)]]. }
  case_bool_decide as Hcode; cbn [orb].
  { split; [done | by intros [[? _]|(_ & _ & _ & ? & _)]]. }
  unfold mbind, handler_bind. destruct (down E TCaptcha).
  { split; [done | by intros [[? _]|(_ & ? & _)]]. }
  destruct (captchas w !! captcha_id req) as [[answer t]|].
  2:{ split; [done | by intros [[? _]|(_ & _ & _ & _ & ? & ? & _)]]. }
  destruct (Z.ltb_spec (now E) t) as [Ht|Ht]; cbv beta iota.
  2:{ split; [done|]. intros [[? _]|(_ & _ & _ & _ & t' & [= -> ->] & ? & _)]; [done|lia]. }
  case_bool_decide as Ha; cbn [negb andb].
  { split; [done|]. intros [[? _]|(_ & _ & _ & ? & t' & [= -> ->] & _)]; done. }
  case_bool_decide as Hac; cbv beta iota.
  - subst answer. split.
    + intros H. apply pair_eq in H as [_ <-]. right. repeat (split; [done|]). by exists t.
    + intros [[? _]|(_ & _ & _ & _ & t' & [= ->] & _ & ->)]; done.
  - split; [done|]. intros [[? _]|(_ & _ & _ & _ & t' & [= -> ->] & _)]; done.
Qed.

Lemma captcha_users E req w w1 : captcha_passed E req w w1 -> users w1 = users w /\ configs w1 = configs w.
Proof. intros [[_ ->]|(_ & _ & _ & _ & t & _ & _ & ->)]; done. Qed.

(** ** The credentials *)
Definition account_of w (username : gostring) : option SysUser :=
  List.find (fun u => bool_decide (text_key (u_Username u) = text_key username)) (users w).
Definition password_ok E w (req : LoginRequest) (user : SysUser) : Prop :=
  down E TUsers = false /\ account_of w (rq_Username req) = Some user /\
  bcrypt_matches (u_Password user) (rq_Password req) = true.
Definition directory_ok E w (req : LoginRequest) : Prop :=
  l_Enabled (ldap_of E w) = true /\
  exists found, ldap_directory (ldap_of E w) (rq_Username req) (rq_Password req) = Ok found.

Lemma ValidatePassword_run E username password w :
  ValidatePassword E username password w =
    (match (if down E TUsers then None else account_of w username) with
     | Some user => if bcrypt_matches (u_Password user) password then Ok user
                    else Err $"用户名或密码错误"
     | None => Err $"用户名或密码错误"
     end, w).
Proof.
  unfold ValidatePassword, GetByUsername, account_of, attempt_, on_table, mbind, handler_bind.
  destruct (down E TUsers); [done|]. destruct (List.find _ _); [|done]. by case_match.
Qed.

Lemma try_directory_sound E req e w user w1 :
  try_directory E req e w = (Ok (Ok user), w1) -> directory_ok E w req.
Proof.
  unfold try_directory, directory_ok, IsLDAPEnabled, mbind, handler_bind.
  rewrite GetLDAPConfig_run. cbn [mret handler_ret].
  destruct (l_Enabled (ldap_of E w)) eqn:He; [|done].
  rewrite attempt_run. unfold Authenticate, mbind, handler_bind. rewrite GetLDAPConfig_run, He.
  cbn [negb]. unfold h_lift.
  destruct (ldap_directory (ldap_of E w) (rq_Username req) (rq_Password req)) as [found|]; [|done].
  intros _. eauto.
Qed.

Lemma check_credentials_sound E req w user w1 :
  check_credentials E req w = (Ok (Ok user), w1) ->
  (password_ok E w req user /\ w1 = w) \/ directory_ok E w req.
Proof.
  unfold check_credentials, password_ok.
  unfold mbind, handler_bind. rewrite attempt_run, ValidatePassword_run. cbn [fst snd].
  destruct (if down E TUsers then None else account_of w (rq_Username req)) as [u|] eqn:Hu;
    [|intros H; right; by eapply try_directory_sound].
  destruct (bcrypt_matches (u_Password u) (rq_Password req)) eqn:Hb;
    [|intros H; right; by eapply try_directory_sound].
  left. injection H as <- <-. by destruct (down E TUsers).
Qed.

Lemma credentials_same E req w w1 user :
  users w1 = users w -> configs w1 = configs w ->
  (password_ok E w1 req user -> password_ok E w req user) /\
  (directory_ok E w1 req -> directory_ok E w req).
Proof.
  intros Hu Hc. unfold password_ok, account_of, directory_ok, ldap_of, config_value.
  by rewrite Hu, Hc.
Qed.

Definition named_request (req : LoginRequest) : bool :=
  negb (bool_decide (rq_Username req = []) || bool_decide (rq_Password req = [])).

(** ** [Login], run

    The three ways it goes: refused before the password is looked at, refused
    for the password, or admitted. *)
Inductive login_run E (req : LoginRequest) w : login_reply -> signin_world -> Prop :=
| run_early reply w' :
    (named_request req = false \/ lock_of E w (rq_Username req) <> None \/
     forall w1, check_captcha E req w <> (Ok None, w1)) ->
    (exists status message, reply = LoginRefused status message) ->
    same_guards w w' -> login_run E req w reply w'
| run_wrong w1 w2 e l :
    named_request req = true -> lock_of E w (rq_Username req) = None ->
    check_captcha E req w = (Ok None, w1) ->
    check_credentials E req w1 = (Ok (Err e), w2) ->
    login_run E req w (LoginRefused 200 e)
      (attempt_ (RecordLoginFailure E (rq_Username req)) (add_login_log l w2)).2
| run_right w1 w2 user :
    named_request req = true -> lock_of E w (rq_Username req) = None ->
    check_captcha E req w = (Ok None, w1) ->
    check_credentials E req w1 = (Ok (Ok user), w2) ->
    forall reply w', admit_user secretKey E req user w2 = (Ok reply, w') ->
    login_run E req w reply w'.

(** The steps of a sign-in do not fail: errors are answers. *)
Lemma check_captcha_total E req w : is_ok (check_captcha E req w).1 = true.
Proof.
  unfold check_captcha, mbind, handler_bind. rewrite IsCaptchaEnabled_run.
  destruct (captcha_on E w); cbn [negb]; [|done]. case_match; [done|].
  unfold VerifyCaptchaDirect, captcha_Verify, captcha_Get, mbind, handler_bind.
  repeat case_match; simplify_eq; done.
Qed.
Lemma try_directory_total E req e w : is_ok (try_directory E req e w).1 = true.
Proof.
  unfold try_directory, IsLDAPEnabled, mbind, handler_bind. rewrite GetLDAPConfig_run.
  cbn [mret handler_ret]. destruct (l_Enabled (ldap_of E w)); [|done].
  rewrite attempt_run. destruct (Authenticate _ _ _ _) as [[user|e'] w1]; cbn [fst snd]; [|done].
  by destruct (recordLoginLog_run E (rq_Username req) $"ldap" $"success" [] (u_ID user) w1) as [l ->].
Qed.
Lemma check_credentials_total E req w : is_ok (check_credentials E req w).1 = true.
Proof.
  unfold check_credentials, mbind, handler_bind. rewrite attempt_run, ValidatePassword_run.
  cbn [fst snd]. repeat case_match; try done; apply try_directory_total.
Qed.

Lemma frame_run {A} (m : action A) w r w' :
  ensures (same_guards w) m (fun _ => True) -> m w = (r, w') -> same_guards w w'.
Proof. intros Hm H. destruct (Hm w (same_guards_refl w)) as [Hi _]. by rewrite H in Hi. Qed.

Lemma Login_run E req w : exists reply w',
  Login secretKey E req w = (Ok reply, w') /\ login_run E req w reply w'.
Proof.
  unfold Login. destruct (named_request req) eqn:Hn.
  2:{ pose proof Hn as Hn'. unfold named_request in Hn'. apply negb_false_iff in Hn'.
      rewrite Hn'.
      eexists _, _. split; [done|]. eapply run_early; [by left | by eexists _, _ | done]. }
  pose proof Hn as Hn'. unfold named_request in Hn'. apply negb_true_iff in Hn'. rewrite Hn'.
  unfold mbind, handler_bind. rewrite attempt_run, CheckLoginAttempt_run. cbn [fst snd].
  destruct (lock_of E w (rq_Username req)) as [t|] eqn:Hlock.
  { assert (down E TAttempts = false) as ->.
    { unfold lock_of in Hlock. by destruct (down E TAttempts). }
    cbn [fmap option_fmap option_map].
    match goal with |- context [refuse E req ?m ?i ?r w] =>
      destruct (refuse_run E req m i r w) as [l ->] end.
    eexists _, _. split; [done|]. eapply run_early; [|by eexists _, _|done].
    right. left. by rewrite Hlock. }
  assert (Hgo : exists reply w',
    (captcha ← check_captcha E req;
      match captcha with
      | Some (reason, reply) => refuse E req reason 0 reply
      | None =>
        checked ← check_credentials E req;
        match checked with
        | Err e =>
          recordLoginLog E (rq_Username req) $"web" $"failed" e 0;;
          attempt_ (RecordLoginFailure E (rq_Username req));;
          mret (LoginRefused 200 e)
        | Ok user => admit_user secretKey E req user
        end
      end) w = (Ok reply, w') /\ login_run E req w reply w').
  { unfold mbind at 1, handler_bind at 1. pose proof (check_captcha_total E req w) as Hcap.
    destruct (check_captcha E req w) as [[captcha|] w1] eqn:Hc; [|done]. clear Hcap.
    destruct captcha as [[reason reply]|].
    { destruct (refuse_run E req reason 0 reply w1) as [l Hl]. rewrite Hl.
      eexists _, _. split; [done|]. eapply run_early; [|by eexists _, _|].
      - do 2 right. intros w2 H2. rewrite Hc in H2. by apply pair_eq in H2 as [[=] _].
      - exact (frame_run _ _ _ _ (frame_captcha w E req) Hc). }
    unfold mbind at 1, handler_bind at 1. pose proof (check_credentials_total E req w1) as Hcr.
    destruct (check_credentials E req w1) as [[[user|e]|] w2] eqn:Hk; [| |done]; clear Hcr.
    - destruct (admit_run E req user w2) as (w' & Hadmit & _). rewrite Hadmit.
      eexists _, _. split; [done|]. by eapply run_right.
    - unfold mbind, handler_bind.
      destruct (recordLoginLog_run E (rq_Username req) $"web" $"failed" e 0 w2) as [l ->].
      rewrite attempt_run. cbn [fst snd]. eexists _, _. split; [done|].
      replace (RecordLoginFailure E (rq_Username req) (add_login_log l w2)).2 with
        (attempt_ (RecordLoginFailure E (rq_Username req)) (add_login_log l w2)).2
        by (by rewrite attempt_run).
      by eapply run_wrong. }
  destruct (down E TAttempts); exact Hgo.
Qed.

(** ** Sessions *)
Lemma session_eq t u b d t' u' b' d' :
  LoginSession t u b d = LoginSession t' u' b' d' -> t = t' /\ u = u'.
Proof. by intros [= -> ->]. Qed.

Lemma Login_session E req w token u setup dev w' :
  Login secretKey E req w = (Ok (LoginSession token u setup dev), w') ->
  named_request req = true /\ lock_of E w (rq_Username req) = None /\
  exists user w1, captcha_passed E req w w1 /\
    (password_ok E w req user \/ directory_ok E w req) /\
    u = hide_password user /\ u_Status user = 1 /\
    factor_asked E w (u_ID user) (rq_DeviceCookie req) = false /\
    GenerateToken secretKey E (u_ID user) (u_Username user) = Ok token.
Proof.
  intros H. destruct (Login_run E req w) as (reply & w'' & H' & Hrun).
  rewrite H in H'. apply pair_eq in H' as [Hr <-]. apply Ok_eq in Hr as <-.
  inversion Hrun as [? ? _ (status & message & Heq) _|
    |w1 w2 user Hn Hl Hc Hk reply ? Ha]; [done|subst].
  split; [done|]. split; [done|]. exists user, w1.
  pose proof (proj1 (check_captcha_passed _ _ _ _) Hc) as Hp. split; [done|].
  pose proof (frame_run _ _ _ _ (frame_captcha w E req) Hc) as Hf1.
  pose proof (frame_run _ _ _ _ (frame_credentials w1 E req) Hk) as Hf2.
  destruct (captcha_users _ _ _ _ Hp) as [Hu Hcf].
  destruct (credentials_same E req w w1 user Hu Hcf) as [Hp1 Hd1].
  destruct (admit_run E req user w2) as (w3 & Hadmit & _). rewrite Ha in Hadmit.
  apply pair_eq in Hadmit as [Hv _]. apply Ok_eq in Hv.
  rewrite (factor_asked_same E w1 w2), (factor_asked_same E w w1) in Hv by done.
  destruct (Z.eqb_spec (u_Status user) 1); [|done]. cbn [negb] in Hv.
  destruct (factor_asked E w (u_ID user) (rq_DeviceCookie req)); [by case_match|].
  destruct (GenerateToken _ _ _ _) as [t|] eqn:Ht; [|done]. apply session_eq in Hv as [-> ->].
  split; [|done].
  destruct (check_credentials_sound _ _ _ _ _ Hk) as [[Hok _]|Hok]; [left|right]; auto.
Qed.

Lemma MFALogin_session E req w token u setup dev w' :
  MFALogin encryptKey secretKey E req w = (Ok (LoginSession token u setup dev), w') ->
  exists claims w1, ParseMFAToken secretKey E (rq_MFAToken req) = Ok claims /\
    ValidateMFACode encryptKey E (cl_UserID claims) (rq_Code req) w = (Ok true, w1) /\
    u_ID u = cl_UserID claims /\
    GenerateToken secretKey E (cl_UserID claims) (cl_Username claims) = Ok token.
Proof.
  unfold MFALogin. destruct (_ || _); [done|].
  destruct (ParseMFAToken _ _ _) as [claims|]; [|done].
  unfold mbind at 1, handler_bind at 1. rewrite attempt_run.
  destruct (ValidateMFACode _ _ _ _ w) as [[[|]|] w1] eqn:Hv; cbn [fst snd].
  2,3: unfold mbind, handler_bind;
    match goal with |- context [recordLoginLog ?E ?a ?b ?c ?d ?i ?x] =>
      destruct (recordLoginLog_run E a b c d i x) as [l ->] end; done.
  destruct (GenerateToken _ _ _ _) as [t|] eqn:Ht; [|done].
  unfold mbind at 1, handler_bind at 1. rewrite attempt_run.
  destruct (GetByID E (cl_UserID claims) w1) as [[user|] w2] eqn:Hu; cbn [fst snd]; [|done].
  rewrite !(h_bind_Ok _ _ _). intros (r & w3 & _ & H). apply h_bind_Ok in H as (r' & w4 & _ & H).
  apply h_bind_Ok in H as (r'' & w5 & _ & H). apply h_bind_Ok in H as (d & w6 & _ & H).
  apply pair_eq in H as [H _]. apply Ok_eq, session_eq in H as [<- <-]. exists claims, w1. split; [done|]. split; [done|].
  split; [|done]. cbn [hide_password u_ID].
  unfold GetByID, on_table in Hu. destruct (down E TUsers); [done|].
  destruct (List.find _ _) as [row|] eqn:Hf; [|done]. injection Hu as <- _.
  apply find_some in Hf as [_ Hf]. by apply Z.eqb_eq in Hf.
Qed.

(** A password sign-in that ends in a session had good credentials (the
    password of the account, or the directory's word), for an account that was
    not locked when the request came and is not disabled, with the captcha
    passed where it is on; the session is that of the account. *)
Theorem login_session_sound E req w token u setup dev w' :
  Login secretKey E req w = (Ok (LoginSession token u setup dev), w') ->
  lock_of E w (rq_Username req) = None /\
  (exists w1, captcha_passed E req w w1) /\
  exists user, (password_ok E w req user \/ directory_ok E w req) /\
    u = hide_password user /\ u_Status user = 1 /\
    GenerateToken secretKey E (u_ID user) (u_Username user) = Ok token.
Proof.
  intros (_ & Hl & user & w1 & Hc & Hk & Hu & Hs & _ & Ht)%Login_session.
  split; [done|]. split; [by exists w1|]. by exists user.
Qed.

(** Both ways to a session. *)
Inductive sign_in_request :=
| SignIn (req : LoginRequest)
| SignInMFA (req : MFALoginRequest).
Definition sign_in E (r : sign_in_request) : action login_reply :=
  match r with
  | SignIn req => Login secretKey E req
  | SignInMFA req => MFALogin encryptKey secretKey E req
  end.
End facts.

Section sessions.
Context `{U : UnicodeTables} `{R : RandomSource} `{RL : !RandomLaws R}.
Context `{L : SignInLib} `{LL : !SignInLaws L}.
Context (issuer : gostring) (encryptKey : bytes) (secretKey : gostring).

(** C3: where the second factor is on, for the system and for the account, no
    request gets a session of the account without it: either the browser shows
    a trusted device of the account that has not expired, or the request
    carries a token of the first step and a one-time password that is right at
    that time. *)
Theorem second_factor_not_bypassed E w request token u setup dev w' :
  mfa_reachable issuer encryptKey w -> down E TConfig = false ->
  MFAEnabled (security_of w) = true -> mfa_on E w (u_ID u) = true ->
  sign_in encryptKey secretKey E request w = (Ok (LoginSession token u setup dev), w') ->
  (exists req, request = SignIn req /\ trusted E w (u_ID u) (rq_DeviceCookie req) = true) \/
  (exists req claims m secret, request = SignInMFA req /\
     ParseMFAToken secretKey E (rq_MFAToken req) = Ok claims /\ cl_UserID claims = u_ID u /\
     mfas w !! u_ID u = Some m /\ decrypt encryptKey (m_TOTPSecret m) = Ok secret /\
     ValidateTOTP (now E) secret (rq_Code req) = true).
Proof.
  intros Hreach Hup Hsys Hon H. destruct request as [req|req]; simpl in H.
  - left. exists req. split; [done|].
    apply Login_session in H as (_ & _ & user & w1 & _ & _ & -> & _ & Hf & _).
    cbn [hide_password u_ID] in *. unfold factor_asked in Hf.
    rewrite Hup, Hsys, Hon in Hf. simpl in Hf. by apply negb_false_iff in Hf.
  - right. apply MFALogin_session in H as (claims & w1 & Hp & Hv & Hid & _).
    pose proof (ValidateMFACode_true _ _ _ _ _ _ Hv) as (Htable & m & Hm & He).
    destruct (ValidateMFACode_run encryptKey E _ (rq_Code req) m w Htable Hm
      (reachable_rows _ _ _ Hreach _ _ Hm) He) as (n & secret & _ & Hd & Hrun).
    rewrite Hrun in Hv. apply pair_eq in Hv as [Hv _]. apply Ok_eq in Hv.
    exists req, claims, m, secret. rewrite Hid. done.
Qed.
End sessions.
