(* ===== verification/LockFacts.v ===== *)
(** What the account lock promises: how many wrong passwords it lets through,
    and that it ends. *)

From Stdlib Require Import ZArith Lia.
From stdpp Require Import base tactics option list numbers gmap.
From S2P Require Import Prelude GoStrings GoNumbers GoCrypto Totp SignInModel Mfa Login LoginFacts.

Open Scope Z_scope.

Section facts.
Context `{U : UnicodeTables} `{R : RandomSource} `{L : SignInLib}.
Context (secretKey : gostring).
Implicit Types (E : request_env) (w : signin_world).

(** ** What a sign-in does to the attempts *)

(** The password of the request was looked at and was wrong. *)
Definition wrong_guess E (req : LoginRequest) w : bool :=
  named_request req && bool_decide (lock_of E w (rq_Username req) = None) &&
  match check_captcha E req w with
  | (Ok None, w1) =>
    match check_credentials E req w1 with (Ok (Err _), _) => true | _ => false end
  | _ => false
  end.
Definition is_session (reply : login_reply) : bool :=
  match reply with LoginSession _ _ _ _ => true | _ => false end.

Lemma RecordLoginFailure_run E username w :
  down E TConfig = false -> down E TAttempts = false ->
  attempt_ (RecordLoginFailure E username) w =
    (Ok (Ok tt), set_attempts (<[text_key username :=
       counted E username (MaxLoginAttempts (security_of w)) (LockoutDuration (security_of w))
         (attempts w !! text_key username)]> (attempts w)) w).
Proof.
  intros Hc Ha. unfold RecordLoginFailure, attempt_, mbind, handler_bind.
  rewrite GetSecurityConfig_run, Hc. unfold IncrementFailCount, on_table, modify. by rewrite Ha.
Qed.

Lemma Login_attempts E req w reply w' :
  down E TConfig = false -> down E TAttempts = false ->
  Login secretKey E req w = (Ok reply, w') ->
  configs w' = configs w /\
  attempts w' =
    if wrong_guess E req w
    then <[text_key (rq_Username req) := counted E (rq_Username req)
             (MaxLoginAttempts (security_of w)) (LockoutDuration (security_of w))
             (attempts w !! text_key (rq_Username req))]> (attempts w)
    else if is_session reply then delete (text_key (rq_Username req)) (attempts w)
    else attempts w.
Proof.
  intros Hcf Hat H. destruct (Login_run secretKey E req w) as (reply' & w'' & H' & Hrun).
  rewrite H in H'. apply pair_eq in H' as [Hr <-]. apply Ok_eq in Hr as <-.
  inversion Hrun as [? ? Hearly (status & message & ->) Hs
    |w1 w2 e l Hn Hl Hc Hk |w1 w2 user Hn Hl Hc Hk ? ? Ha]; subst.
  - destruct Hs as (Hs1 & _ & _ & Hs4). split; [done|].
    assert (wrong_guess E req w = false) as ->; [|done].
    unfold wrong_guess. destruct Hearly as [->|[Hlock|Hc]]; [done|..].
    + rewrite bool_decide_eq_false_2 by done. by rewrite andb_false_r.
    + destruct (check_captcha E req w) as [[[?|]|] w1] eqn:Heq; rewrite ?andb_false_r; try done.
      by destruct (Hc w1).
  - pose proof (frame_run _ _ _ _ (frame_captcha w E req) Hc) as (F1 & _ & _ & F4).
    pose proof (frame_run _ _ _ _ (frame_credentials w1 E req) Hk) as (G1 & _ & _ & G4).
    assert (wrong_guess E req w = true) as ->.
    { unfold wrong_guess. by rewrite Hn, Hc, Hk, bool_decide_eq_true_2. }
    rewrite RecordLoginFailure_run by done. cbn [snd set_attempts configs attempts add_login_log].
    unfold security_of. cbn [configs add_login_log]. by rewrite G4, F4, G1, F1.
  - pose proof (frame_run _ _ _ _ (frame_captcha w E req) Hc) as (F1 & _ & _ & F4).
    pose proof (frame_run _ _ _ _ (frame_credentials w1 E req) Hk) as (G1 & _ & _ & G4).
    assert (wrong_guess E req w = false) as ->.
    { unfold wrong_guess. rewrite Hc, Hk. by rewrite andb_false_r. }
    destruct (admit_run secretKey E req user w2) as (w3 & Hadmit & A1 & _ & _ & A4).
    rewrite Ha in Hadmit. apply pair_eq in Hadmit as [Hv <-]. apply Ok_eq in Hv as ->.
    split; [by rewrite A1, G1, F1|]. rewrite A4. unfold cleared. rewrite Hat, G4, F4.
    destruct (u_Status user =? 1); cbn [negb andb]; [|done].
    destruct (factor_asked _ _ _ _); cbn [negb andb]; [by destruct (GenerateMFAToken _ _ _ _)|].
    by destruct (GenerateToken _ _ _ _).
Qed.

Lemma Login_total E req w : exists reply w', Login secretKey E req w = (Ok reply, w').
Proof. destruct (Login_run secretKey E req w) as (reply & w' & H & _). eauto. Qed.

(** ** Guessing *)

(** Requests one after the other: the wrong passwords that were looked at, and
    whether one of the requests got a session. *)
Fixpoint attack (l : list (request_env * LoginRequest)) w : Z * bool :=
  match l with
  | [] => (0, false)
  | (E, req) :: l =>
    let guess := if wrong_guess E req w then 1 else 0 in
    match Login secretKey E req w with
    | (Ok reply, w') => let '(n, s) := attack l w' in (guess + n, is_session reply || s)
    | (Err _, w') => let '(n, s) := attack l w' in (guess + n, s)
    end
  end.

(** Requests that name one account, within the lock of the first. *)
Definition burst (k : gostring) (t0 duration : Z) (p : request_env * LoginRequest) : Prop :=
  text_key (rq_Username p.2) = k /\ down p.1 TAttempts = false /\ down p.1 TConfig = false /\
  t0 <= now p.1 < t0 + duration * nanos.

(** The row after [n] wrong passwords. *)
Definition counted_to (k : gostring) (until M n : Z) w : Prop :=
  (attempts w !! k = None /\ n = 0) \/
  (exists a, attempts w !! k = Some a /\ at_FailCount a = n /\
     ((at_LockedUntil a = None /\ 1 <= n < M) \/
      (exists t, at_LockedUntil a = Some t /\ until <= t /\ n <= Z.max 1 M))).

Lemma counted_next k t0 D M n w E name :
  counted_to k (t0 + D * nanos) M n w -> t0 <= now E < t0 + D * nanos ->
  text_key name = k -> lock_of E w name = None -> down E TAttempts = false ->
  forall w', attempts w' = <[k := counted E name M D (attempts w !! k)]> (attempts w) ->
  counted_to k (t0 + D * nanos) M (n + 1) w' /\ n + 1 <= Z.max 1 M.
Proof.
  intros Hc Ht <- Hl Hd w' Hw. unfold lock_of in Hl. rewrite Hd in Hl.
  unfold counted_to. rewrite Hw, lookup_insert_eq. unfold counted.
  destruct Hc as [[Hn ->]|(a & Ha & Hn & Hcase)].
  - rewrite Hn. cbn [at_FailCount at_LockedUntil]. split; [|lia]. right. eexists. split; [done|].
    split; [done|]. cbn [at_LockedUntil]. destruct (Z.leb_spec M 1).
    + right. eexists. split; [done|]. lia.
    + left. split; [done|lia].
  - rewrite Ha in *. destruct Hcase as [[Hu Hn']|(t & Hu & Hut & _)].
    + rewrite Hu. split; [|lia]. right. eexists. split; [done|]. cbn [at_FailCount at_LockedUntil].
      split; [lia|]. destruct (Z.leb_spec M (at_FailCount a + 1)).
      * right. eexists. split; [done|]. lia.
      * left. split; [done|lia].
    + rewrite Hu in Hl. by rewrite (proj2 (Z.ltb_lt _ _)) in Hl by lia.
Qed.

Lemma attack_bounded l w k t0 M D n :
  MaxLoginAttempts (security_of w) = M -> LockoutDuration (security_of w) = D ->
  counted_to k (t0 + D * nanos) M n w -> n <= Z.max 1 M ->
  Forall (burst k t0 D) l -> (attack l w).2 = false -> n + (attack l w).1 <= Z.max 1 M.
Proof.
  intros HM HD Hn Hle Hl. revert w n HM HD Hn Hle.
  induction Hl as [|[E req] l (Hk & Ha & Hc & Ht) Hl IH]; intros w n HM HD Hn Hle Hs;
    [simpl; lia|].
  cbn [attack fst snd] in *. destruct (Login_total E req w) as (reply & w' & Hrun).
  rewrite Hrun in *. destruct (Login_attempts E req w reply w' Hc Ha Hrun) as [Hcf Hat].
  destruct (attack l w') as [m s] eqn:Hatt. cbn [fst snd] in Hs |- *.
  apply orb_false_iff in Hs as [Hs1 ->].
  assert (HM' : MaxLoginAttempts (security_of w') = M) by (unfold security_of; by rewrite Hcf).
  assert (HD' : LockoutDuration (security_of w') = D) by (unfold security_of; by rewrite Hcf).
  specialize (IH w'). rewrite Hatt in IH. cbn [fst snd] in IH. rewrite HM, HD, Hk in Hat.
  destruct (wrong_guess E req w) eqn:Hg.
  - assert (Hlock : lock_of E w (rq_Username req) = None).
    { unfold wrong_guess in Hg. apply andb_true_iff in Hg as [[_ Hg]%andb_true_iff _].
      by apply bool_decide_eq_true in Hg. }
    destruct (counted_next k t0 D M n w E (rq_Username req) Hn Ht Hk Hlock Ha w' Hat) as [Hn' Hle'].
    specialize (IH (n + 1) HM' HD' Hn' Hle' eq_refl). lia.
  - rewrite Hs1 in Hat. assert (Hn' : counted_to k (t0 + D * nanos) M n w').
    { unfold counted_to. by rewrite Hat. }
    specialize (IH n HM' HD' Hn' Hle eq_refl). lia.
Qed.


(** ** The lock ends *)
Lemma check_credentials_right E req w user :
  password_ok E w req user -> check_credentials E req w = (Ok (Ok user), w).
Proof.
  intros (Hd & Hu & Hb). unfold check_credentials, mbind, handler_bind.
  rewrite attempt_run, ValidatePassword_run. cbn [fst snd]. by rewrite Hd, Hu, Hb.
Qed.

Lemma Login_admits E req w w1 user :
  named_request req = true -> lock_of E w (rq_Username req) = None ->
  captcha_passed E req w w1 -> password_ok E w req user ->
  Login secretKey E req w = admit_user secretKey E req user w1.
Proof.
  intros Hn Hl Hc Hp. unfold Login. unfold named_request in Hn. apply negb_true_iff in Hn.
  rewrite Hn. unfold mbind, handler_bind. rewrite attempt_run, CheckLoginAttempt_run.
  assert (Hp1 : password_ok E w1 req user).
  { destruct (captcha_users _ _ _ _ Hc) as [Hu _]. destruct Hp as (Hd & Ha & Hb).
    split; [done|]. split; [|done]. unfold account_of. by rewrite Hu. }
  cbn [fst snd]. rewrite Hl. destruct (down E TAttempts);
    cbn [fmap option_fmap option_map]; rewrite (proj2 (check_captcha_passed _ _ _ _) Hc);
    by rewrite (check_credentials_right E req w1 user).
Qed.

(** A lock ends by itself: for every store and name there is a time from
    which on the right password, of an enabled account that is not asked for a
    second factor, gets a session and clears the failures. *)
Theorem lock_ends w username :
  exists deadline, forall E req w1 user token,
    deadline <= now E -> rq_Username req = username -> named_request req = true ->
    captcha_passed E req w w1 -> password_ok E w req user -> u_Status user = 1 ->
    factor_asked E w (u_ID user) (rq_DeviceCookie req) = false ->
    GenerateToken secretKey E (u_ID user) (u_Username user) = Ok token ->
    exists setup w', Login secretKey E req w =
        (Ok (LoginSession token (hide_password user) setup None), w') /\
      (down E TAttempts = false -> attempts w' !! text_key username = None).
Proof.
  exists (match attempts w !! text_key username with
          | Some a => default 0 (at_LockedUntil a) | None => 0 end).
  intros E req w1 user token Hd <- Hn Hc Hp Hs Hf Ht.
  assert (Hl : lock_of E w (rq_Username req) = None).
  { unfold lock_of. destruct (down E TAttempts); [done|].
    destruct (attempts w !! text_key (rq_Username req)) as [a|]; [|done].
    destruct (at_LockedUntil a) as [t|]; [|done]. simpl in Hd.
    by rewrite (proj2 (Z.ltb_ge _ _) Hd). }
  rewrite (Login_admits E req w w1 user) by done.
  pose proof (frame_run _ _ _ _ (frame_captcha w E req) (proj2 (check_captcha_passed _ _ _ _) Hc))
    as Hsame.
  destruct (admit_run secretKey E req user w1) as (w' & Hrun & _ & _ & _ & Hat).
  rewrite Hrun, (factor_asked_same E w w1), Hf, Hs, Ht by done. cbn [negb Z.eqb Pos.eqb].
  eexists _, w'. split; [done|]. intros Hup. rewrite Hat.
  rewrite (factor_asked_same E w w1), Hf, Hs, Ht by done. cbn [negb Z.eqb Pos.eqb andb is_ok].
  unfold cleared. rewrite Hup. apply lookup_delete_eq.
Qed.
End facts.
