(* ===== verification/SignInExamples.v ===== *)
(** The sign-in on concrete data: a store with two accounts, stand-ins for the
    libraries that meet their laws, runs of every property, and runs that show
    where the code does not do what its answers or comments say. *)

From Stdlib Require Import ZArith Lia.
From stdpp Require Import base tactics option list numbers gmap.
From S2P Require Import Prelude GoStrings GoNumbers GoCrypto Totp TotpFacts SignInModel Mfa Login MfaFacts LoginFacts LockFacts.

Open Scope Z_scope.

(** ** Stand-ins for the libraries *)
#[export] Instance sample_random : RandomSource := {|
  rand_read n len := Ok ((fun i => Z.of_nat (n * 31 + i * 7 + 5) mod 256) <$> seq 0 len) |}.
#[export] Instance sample_random_laws : RandomLaws sample_random.
Proof.
  split. intros n len b [= <-]. split; [by rewrite length_fmap, length_seq|].
  rewrite Forall_fmap. apply list.Forall_forall. intros i _. apply Z.mod_pos_bound. lia.
Qed.

Definition json_text (s : gostring) : gostring :=
  [34] ++ ((fun r => if (0 <=? r) && (r <? 1114112) then r else 65533) <$> s) ++ [34].
(** A token is the list of its claims. *)
Definition sample_sign (c : JwtClaims) : gostring :=
  cl_UserID c :: cl_ExpiresAt c :: cl_IssuedAt c :: cl_NotBefore c ::
  Z.of_nat (length (cl_Username c)) :: cl_Username c ++ cl_TokenType c.
Definition sample_parse (t : Z) (token : gostring) : result JwtClaims :=
  match token with
  | u :: exp :: iat :: nbf :: n :: text =>
    if (nbf * nanos <=? t) && (t <? exp * nanos)
    then Ok {| cl_UserID := u; cl_Username := take (Z.to_nat n) text;
               cl_TokenType := drop (Z.to_nat n) text; cl_ExpiresAt := exp;
               cl_IssuedAt := iat; cl_NotBefore := nbf |}
    else Err $"token is expired"
  | _ => Err $"token is malformed"
  end.
Definition tag : bytes := replicate 16 7.

#[export] Instance sample_signin : SignInLib := {|
  text_key s := ToLower (U := sample_tables) s;
  bcrypt_hash _ p := Ok ($"hash:" ++ p);
  bcrypt_matches h p := bool_decide (h = $"hash:" ++ p);
  gcm_seal _ _ p := p ++ tag;
  gcm_open _ _ c :=
    if bool_decide (drop (length c - 16) c = tag) then Ok (take (length c - 16) c)
    else Err $"cipher: message authentication failed";
  json_of_strings l := [91] ++ Join (json_text <$> l) $"," ++ [93];
  json_of_codes _ := $"[]";
  json_codes text := if bool_decide (take 2 text = [91; 34]) then None else Some [];
  json_ldap _ := None;
  jwt_sign _ c := Ok (sample_sign c);
  jwt_parse _ t token := sample_parse t token;
  qr_png s := Ok s;
  ldap_directory _ _ _ := Err $"no directory";
  rand_intn n k := Z.of_nat n mod k;
  query_escape s := s;
  db_error := $"connection refused"; binding_error := $"required" |}.

Lemma json_text_valid s : Forall valid_rune (json_text s).
Proof.
  assert (Hq : valid_rune 34) by (unfold valid_rune; lia).
  unfold json_text. constructor; [done|]. rewrite Forall_app. split; [|by constructor].
  rewrite Forall_fmap. apply list.Forall_forall. intros r _. simpl. unfold valid_rune.
  destruct ((0 <=? r) && (r <? 1114112)) eqn:Hr; [|lia].
  apply andb_true_iff in Hr. lia.
Qed.
Lemma Join_valid l sep :
  Forall (Forall valid_rune) l -> Forall valid_rune sep -> Forall valid_rune (Join l sep).
Proof.
  intros Hl Hs. induction Hl as [|x l Hx Hl IH]; [constructor|]. simpl.
  destruct l as [|y l]; [done|]. rewrite !Forall_app. done.
Qed.

#[export] Instance sample_signin_laws : SignInLaws sample_signin.
Proof.
  split.
  - intros key nonce p. cbn [gcm_seal gcm_open sample_signin].
    rewrite length_app. change (length tag) with 16%nat.
    replace (length p + 16 - 16)%nat with (length p) by lia.
    by rewrite drop_app_length, take_app_length, bool_decide_eq_true_2.
  - intros key nonce p Hp. cbn [gcm_seal sample_signin]. rewrite Forall_app. split; [done|].
    apply Forall_replicate. unfold is_byte. lia.
  - intros [|s l] Hl; [done|]. cbn [json_codes json_of_strings sample_signin]. simpl.
    by destruct l.
  - intros l. cbn [json_of_strings sample_signin].
    assert (valid_rune 91 /\ valid_rune 93 /\ valid_rune 44) as (H1 & H2 & H3)
      by (unfold valid_rune; lia).
    constructor; [done|]. rewrite Forall_app. split; [|by constructor].
    apply Join_valid; [|by constructor]. rewrite Forall_fmap. apply list.Forall_forall.
    intros s _. apply json_text_valid.
Qed.

(** ** A store *)
Definition sample_user (id : Z) (name password : gostring) : SysUser := {|
  u_ID := id; u_Username := name; u_Password := $"hash:" ++ password; u_RealName := name;
  u_Email := []; u_Phone := []; u_Avatar := []; u_Status := 1; u_Source := $"local";
  u_DepartmentID := 1; u_Roles := [1]; u_Bio := []; u_LastLoginAt := None |}.
Definition security (v : gostring) : SysConfig := {| c_Value := v; c_Group := ConfigGroupSecurity |}.
Definition sample_store : signin_world := {|
  users := [sample_user 1 $"admin" $"s3cret"; sample_user 2 $"ops" $"passw0rd"];
  configs := <[ConfigKeyEnableCaptcha := security $"false"]>
    (<[ConfigKeyMFAEnabled := security $"true"]>
    (<[ConfigKeyMaxLoginAttempts := security $"3"]> ∅));
  attempts := ∅; mfas := ∅; devices := ∅; captchas := ∅; mfa_logs := []; login_logs := [];
  draws := 0 |}.
Definition sample_key : bytes := mfa_key (utf8 $"opshub-mfa-key").
Definition sample_secretKey : gostring := $"jwt secret".
Definition at_second (t : Z) : request_env := {|
  now := t * nanos; client_ip := $"10.0.0.9"; user_agent := $"curl"; down := fun _ => false |}.

Abbreviation SETUP := (SetupMFA $"opshub" sample_key).
Abbreviation LOGIN := (Login sample_secretKey).
Abbreviation MFALOGIN := (MFALogin (U := sample_tables) sample_key sample_secretKey).
Abbreviation run := (run_op (U := sample_tables) $"opshub" sample_key).

(** The secret of the first setup, and the code it shows at a time. *)
Definition sample_bytes : bytes :=
  match rand_read 0 SecretLength with Ok b => b | Err _ => [] end.
Definition code_at (t : Z) : gostring := generateTOTP sample_bytes (t / 30).
Definition code_1010 : gostring := Eval vm_compute in code_at 1010.
Definition code_2010 : gostring := Eval vm_compute in code_at 2010.
Definition after_setup : signin_world :=
  Eval vm_compute in run (at_second 1000) 1 (OpSetup $"admin") sample_store.
Definition after_enable : signin_world :=
  Eval vm_compute in run (at_second 1010) 1 (OpEnable code_1010) after_setup.

Lemma after_enable_reachable :
  mfa_reachable (U := sample_tables) $"opshub" sample_key after_enable.
Proof.
  assert (Hs : run (at_second 1000) 1 (OpSetup $"admin") sample_store = after_setup)
    by (vm_compute; reflexivity).
  assert (He : run (at_second 1010) 1 (OpEnable code_1010) after_setup = after_enable)
    by (vm_compute; reflexivity).
  rewrite <- He. apply mr_op. rewrite <- Hs. apply mr_op, mr_start. reflexivity.
Qed.

Definition credentials (name password cookie : gostring) : LoginRequest := {|
  rq_Username := name; rq_Password := password; rq_CaptchaId := []; rq_CaptchaId2 := [];
  rq_CaptchaCode := []; rq_DeviceCookie := cookie |}.
Definition reply_of (r : result login_reply * signin_world) : login_reply :=
  match r.1 with Ok reply => reply | Err e => LoginRefused 0 e end.
Definition token_of (reply : login_reply) : gostring :=
  match reply with LoginNeedsMFA t => t | LoginSession t _ _ _ => t | LoginRefused _ _ => [] end.

(** The first step of a sign-in of the first account, then the second. *)
Definition first_step : result login_reply * signin_world :=
  Eval vm_compute in LOGIN (at_second 2000) (credentials $"admin" $"s3cret" []) after_enable.
Definition first_token : gostring := Eval vm_compute in token_of (reply_of first_step).
Definition second_request (code : gostring) : MFALoginRequest := {|
  rq_MFAToken := first_token; rq_Code := code; rq_RememberDevice := true |}.

Example password_is_not_enough : exists t, reply_of first_step = LoginNeedsMFA t.
Proof. eexists. vm_compute. reflexivity. Qed.

(** ** The properties at these data *)
Lemma totp_tolerates_drift_witness :
  ValidateTOTP (U := sample_tables) (at_second 1040).(now) (base32_encode sample_bytes)
    code_1010 = true.
Proof.
  assert (Hs : GenerateSecret 0 = Ok (base32_encode sample_bytes)) by (vm_compute; reflexivity).
  assert (Hb : rand_read 0 SecretLength = Ok sample_bytes) by (vm_compute; reflexivity).
  assert (H1 : 0 <= 1040 * nanos < 2 ^ 62) by (unfold nanos; lia).
  assert (H2 : 0 <= 1010 * nanos < 2 ^ 62) by (unfold nanos; lia).
  assert (H3 : Z.abs (1040 * nanos - 1010 * nanos) <= 30 * 1000000000) by (unfold nanos; lia).
  assert (Hc : generateTOTP sample_bytes (Z.quot (unix (1010 * nanos)) TOTPInterval) = code_1010)
    by (vm_compute; reflexivity).
  rewrite <- Hc.
  exact (proj1 (totp_tolerates_drift (U := sample_tables) 0 _ _ _ _ Hs Hb H1 H2 H3)).
Defined.

Lemma encrypt_round_trip_witness :
  exists c w', encrypt sample_key $"otp 密钥" sample_store = (Ok c, w') /\
    decrypt sample_key c = Ok $"otp 密钥".
Proof.
  eexists _, _. split; [vm_compute; reflexivity|].
  refine (proj1 (encrypt_round_trip sample_key $"otp 密钥" sample_store _ _ _ _)).
  - apply (bool_decide_unpack _). vm_compute. exact I.
  - vm_compute. reflexivity.
Defined.

Lemma second_factor_is_totp_witness :
  exists w', ValidateMFACode (U := sample_tables) sample_key (at_second 1020) 1 code_1010
    after_enable = (Ok true, w').
Proof.
  apply (second_factor_is_totp (U := sample_tables) $"opshub" sample_key after_enable
    (at_second 1020) 1 code_1010 after_enable_reachable eq_refl).
  eexists _, 0%nat, _. split; [vm_compute; reflexivity|]. split; [vm_compute; reflexivity|].
  split; [vm_compute; reflexivity|]. split; [vm_compute; reflexivity|]. vm_compute. reflexivity.
Defined.

Lemma login_session_sound_witness :
  lock_of (at_second 2000) sample_store $"ops" = None /\
  exists user, password_ok (at_second 2000) sample_store (credentials $"ops" $"passw0rd" []) user.
Proof.
  assert (Hrun : exists token u setup dev w',
    LOGIN (at_second 2000) (credentials $"ops" $"passw0rd" []) sample_store =
      (Ok (LoginSession token u setup dev), w')).
  { eexists _, _, _, _, _. vm_compute. reflexivity. }
  destruct Hrun as (token & u & setup & dev & w' & Hrun).
  destruct (login_session_sound sample_secretKey _ _ _ _ _ _ _ _ Hrun)
    as (Hl & _ & user & Hk & _).
  split; [exact Hl|]. exists user. destruct Hk as [Hk|[Hk _]]; [exact Hk|]. by vm_compute in Hk.
Defined.

Lemma mfa_request_eq a b : SignInMFA a = SignInMFA b -> a = b.
Proof. by intros [= ->]. Qed.

Definition second_reply : login_reply :=
  Eval vm_compute in reply_of (MFALOGIN (at_second 2010) (second_request code_2010) first_step.2).
Lemma second_reply_run :
  (MFALOGIN (at_second 2010) (second_request code_2010) first_step.2).1 = Ok second_reply.
Proof. vm_compute. reflexivity. Qed.
Lemma second_step_run : exists token u setup dev w',
  sign_in (U := sample_tables) sample_key sample_secretKey (at_second 2010)
    (SignInMFA (second_request code_2010)) first_step.2 = (Ok (LoginSession token u setup dev), w')
  /\ u_ID u = 1.
Proof.
  cbn [sign_in]. pose proof second_reply_run as H.
  destruct (MFALogin _ _ _ _ first_step.2) as [r w']. cbn [fst] in H. subst r.
  unfold second_reply. eexists _, _, _, _, _. split; reflexivity.
Qed.
Lemma first_step_reachable :
  mfa_reachable (U := sample_tables) $"opshub" sample_key first_step.2.
Proof. apply (mr_other _ _ after_enable); [exact after_enable_reachable | vm_compute; reflexivity]. Qed.
Lemma first_step_factor :
  MFAEnabled (security_of first_step.2) = true /\
  forall u, u_ID u = 1 -> mfa_on (at_second 2010) first_step.2 (u_ID u) = true.
Proof. split; [|intros u ->]; vm_compute; reflexivity. Qed.

Lemma second_factor_not_bypassed_witness :
  exists m secret, mfas first_step.2 !! 1 = Some m /\
    decrypt sample_key (m_TOTPSecret m) = Ok secret /\
    ValidateTOTP (U := sample_tables) (now (at_second 2010)) secret
      (rq_Code (second_request code_2010)) = true.
Proof.
  destruct second_step_run as (token & u & setup & dev & w' & Hrun & Hu).
  destruct first_step_factor as [Hsys Hon]. specialize (Hon u Hu).
  destruct (second_factor_not_bypassed (U := sample_tables) $"opshub" sample_key sample_secretKey
    (at_second 2010) first_step.2 _ _ _ _ _ _ first_step_reachable eq_refl Hsys Hon Hrun)
    as [(req & Hreq & _)|(req & claims & m & secret & Hreq & _ & _ & Hm & Hd & Hv)]; [done|].
  apply mfa_request_eq in Hreq as <-. rewrite Hu in Hm. exists m, secret.
  split; [exact Hm|]. split; [exact Hd | exact Hv].
Defined.

Definition guesses : list (request_env * LoginRequest) :=
  (fun i => (at_second (3000 + Z.of_nat i), credentials $"admin" (fmt_d (Z.of_nat i)) []))
    <$> seq 0 7.

(** Seven wrong passwords lock the account; from the deadline on the right one
    is accepted. *)
Definition after_guesses : signin_world :=
  foldl (fun w p => (LOGIN p.1 p.2 w).2) sample_store guesses.
Lemma lock_ends_witness :
  exists E w1 setup w', LOGIN E (credentials $"admin" $"s3cret" []) after_guesses =
    (Ok (LoginSession w1 (hide_password (sample_user 1 $"admin" $"s3cret")) setup None), w').
Proof.
  destruct (lock_ends sample_secretKey after_guesses $"admin") as [deadline Hd].
  set (E := {| now := deadline; client_ip := []; user_agent := []; down := fun _ => false |}).
  destruct (Hd E (credentials $"admin" $"s3cret" []) after_guesses
    (sample_user 1 $"admin" $"s3cret")
    (sample_sign (claims_of E 1 $"admin" $"auth" 86400))) as (setup & w' & Hrun & _).
  - cbn [now E]. lia.
  - reflexivity.
  - reflexivity.
  - left. split; [vm_compute; reflexivity | reflexivity].
  - split; [reflexivity|]. split; vm_compute; reflexivity.
  - reflexivity.
  - vm_compute. reflexivity.
  - reflexivity.
  - by exists E, (sample_sign (claims_of E 1 $"admin" $"auth" 86400)), setup, w'.
Defined.

(** ** Where answers and comments say something else *)

(** A session alone switches the second factor off: setup asks for no code. *)
Example setup_switches_off :
  mfa_on (at_second 4000) after_enable 1 = true /\
  mfa_on (at_second 4000) (run (at_second 4000) 1 (OpSetup $"admin") after_enable) 1 = false.
Proof. split; vm_compute; reflexivity. Qed.

(** A wrong code is answered with success, and nothing is switched on. *)
Example wrong_code_answered_enabled :
  let r := http_EnableMFA (U := sample_tables) sample_key (at_second 1010) 1 $"000000" after_setup in
  r.1 = Ok (MfaOk $"MFA已启用") /\ mfa_on (at_second 1010) r.2 1 = false.
Proof. split; vm_compute; reflexivity. Qed.
Example wrong_code_answered_disabled :
  let r := http_DisableMFA (U := sample_tables) sample_key (at_second 1500) 1 $"000000" after_enable in
  r.1 = Ok (MfaOk $"MFA已禁用") /\ mfa_on (at_second 1500) r.2 1 = true.
Proof. split; vm_compute; reflexivity. Qed.

(** A one-time password is accepted twice. *)
Example code_accepted_twice :
  let r := ValidateMFACode (U := sample_tables) sample_key (at_second 1020) 1 code_1010 after_enable in
  r.1 = Ok true /\
  (ValidateMFACode (U := sample_tables) sample_key (at_second 1039) 1 code_1010 r.2).1 = Ok true.
Proof. split; vm_compute; reflexivity. Qed.

(** Wrong codes are not counted: after any number the next one is looked at. *)
Definition wrong_codes (n : nat) : signin_world :=
  foldl (fun w i => (MFALOGIN (at_second (2001 + Z.of_nat i)) (second_request $"000000") w).2)
    first_step.2 (seq 0 n).
Example codes_are_not_counted :
  attempts (wrong_codes 2) = ∅ /\
  is_session (reply_of (MFALOGIN (at_second 2010) (second_request code_2010) (wrong_codes 2)))
    = true.
Proof. split; vm_compute; reflexivity. Qed.

(** When the table of the second factor does not answer, the password is
    enough. *)
Definition without_mfa_table (t : Z) : request_env := {|
  now := t * nanos; client_ip := []; user_agent := [];
  down := fun t => match t with TMfa => true | _ => false end |}.
Example outage_skips_second_factor :
  is_session (reply_of (LOGIN (without_mfa_table 2000) (credentials $"admin" $"s3cret" [])
    after_enable)) = true.
Proof. vm_compute. reflexivity. Qed.

(** The second step does not look at the status of the account. *)
Definition disable_account (w : signin_world) : signin_world :=
  set_users ((fun u => updated_user {|
    u_ID := u_ID u; u_Username := u_Username u; u_Password := u_Password u;
    u_RealName := u_RealName u; u_Email := u_Email u; u_Phone := u_Phone u;
    u_Avatar := u_Avatar u; u_Status := 0; u_Source := u_Source u;
    u_DepartmentID := u_DepartmentID u; u_Roles := u_Roles u; u_Bio := u_Bio u;
    u_LastLoginAt := u_LastLoginAt u |} u) <$> users w) w.
Example disabled_account_gets_session :
  is_session (reply_of (MFALOGIN (at_second 2010) (second_request code_2010)
    (disable_account first_step.2))) = true.
Proof. vm_compute. reflexivity. Qed.

(** The login time of the account stays as it was. *)
Example last_login_not_updated :
  u_LastLoginAt <$> users (LOGIN (at_second 2000) (credentials $"ops" $"passw0rd" []) sample_store).2
    = [None; None].
Proof. vm_compute. reflexivity. Qed.
