(* ===== verification/SqlLex.v ===== *)
(** * SQL scanners of [internal/biz/database/sql_safety.go]

    The four hand-written scanners the statement checks are built on, as the
    code has them, and the grammar of SQL text they are compared with. *)

From Stdlib Require Import ZArith Lia.
From stdpp Require Import base tactics option list numbers.
From S2P Require Import Prelude GoStrings.

Open Scope Z_scope.

(** Characters the scanners look at. *)
Abbreviation c_nl := 10 (only parsing).
Abbreviation c_cr := 13 (only parsing).
Abbreviation c_space := 32 (only parsing).
Abbreviation c_bang := 33 (only parsing).
Abbreviation c_dquote := 34 (only parsing).
Abbreviation c_hash := 35 (only parsing).
Abbreviation c_squote := 39 (only parsing).
Abbreviation c_star := 42 (only parsing).
Abbreviation c_dash := 45 (only parsing).
Abbreviation c_slash := 47 (only parsing).
Abbreviation c_semi := 59 (only parsing).
Abbreviation c_under := 95 (only parsing).
Abbreviation c_btick := 96 (only parsing).

Definition is_newline (r : rune) : bool := (r =? c_nl) || (r =? c_cr).

(** [next := rune(0); if i+1 < len(runes) { next = runes[i+1] }] *)
Definition next_rune (rest : gostring) : rune :=
  match rest with [] => 0 | n :: _ => n end.

(** The flags [inSingle], [inDouble], ... of the scanners; at most one of them
    is set at any time, none being [Normal]. *)
Inductive lex_mode := Normal | InSingle | InDouble | InBacktick | InLine | InBlock.

(** ** [hasUnsafeSemicolon]

    [semicolon] is the index of the first statement semicolon; the model keeps
    the text after it, [runes[semicolon+1:]], which is all the code uses. *)
Fixpoint hasUnsafeSemicolon_loop (m : lex_mode) (semicolon : option gostring)
    (l : gostring) : bool :=
  match l with
  | [] =>
    match semicolon with
    | None => false
    | Some tail => negb (bool_decide (TrimSpace tail = []))
    end
  | r :: rest =>
    let next := next_rune rest in
    match m with
    | InLine =>
      hasUnsafeSemicolon_loop (if is_newline r then Normal else InLine) semicolon rest
    | InBlock =>
      if (r =? c_star) && (next =? c_slash)
      then hasUnsafeSemicolon_loop Normal semicolon (drop1 rest)
      else hasUnsafeSemicolon_loop InBlock semicolon rest
    | InSingle =>
      if r =? c_squote then
        if next =? c_squote
        then hasUnsafeSemicolon_loop InSingle semicolon (drop1 rest)
        else hasUnsafeSemicolon_loop Normal semicolon rest
      else hasUnsafeSemicolon_loop InSingle semicolon rest
    | InDouble =>
      hasUnsafeSemicolon_loop (if r =? c_dquote then Normal else InDouble) semicolon rest
    | InBacktick =>
      hasUnsafeSemicolon_loop (if r =? c_btick then Normal else InBacktick) semicolon rest
    | Normal =>
      if (r =? c_dash) && (next =? c_dash)
      then hasUnsafeSemicolon_loop InLine semicolon (drop1 rest)
      else if r =? c_hash then hasUnsafeSemicolon_loop InLine semicolon rest
      else if (r =? c_slash) && (next =? c_star)
      then hasUnsafeSemicolon_loop InBlock semicolon (drop1 rest)
      else if r =? c_squote then hasUnsafeSemicolon_loop InSingle semicolon rest
      else if r =? c_dquote then hasUnsafeSemicolon_loop InDouble semicolon rest
      else if r =? c_btick then hasUnsafeSemicolon_loop InBacktick semicolon rest
      else if r =? c_semi then
        match semicolon with
        | Some _ => true
        | None => hasUnsafeSemicolon_loop Normal (Some rest) rest
        end
      else hasUnsafeSemicolon_loop Normal semicolon rest
    end
  end.

Definition hasUnsafeSemicolon (sqlText : gostring) : bool :=
  hasUnsafeSemicolon_loop Normal None sqlText.

(** ** [hasExecutableSQLComment] *)
Fixpoint hasExecutableSQLComment_loop (m : lex_mode) (l : gostring) : bool :=
  match l with
  | [] => false
  | r :: rest =>
    let next := next_rune rest in
    match m with
    | InLine => hasExecutableSQLComment_loop (if is_newline r then Normal else InLine) rest
    | InBlock =>
      if (r =? c_star) && (next =? c_slash)
      then hasExecutableSQLComment_loop Normal (drop1 rest)
      else hasExecutableSQLComment_loop InBlock rest
    | InSingle =>
      if r =? c_squote then
        if next =? c_squote then hasExecutableSQLComment_loop InSingle (drop1 rest)
        else hasExecutableSQLComment_loop Normal rest
      else hasExecutableSQLComment_loop InSingle rest
    | InDouble => hasExecutableSQLComment_loop (if r =? c_dquote then Normal else InDouble) rest
    | InBacktick => hasExecutableSQLComment_loop (if r =? c_btick then Normal else InBacktick) rest
    | Normal =>
      if (r =? c_dash) && (next =? c_dash) then hasExecutableSQLComment_loop InLine (drop1 rest)
      else if r =? c_hash then hasExecutableSQLComment_loop InLine rest
      else if (r =? c_slash) && (next =? c_star) then
        if next_rune (drop1 rest) =? c_bang then true
        else hasExecutableSQLComment_loop InBlock (drop1 rest)
      else if r =? c_squote then hasExecutableSQLComment_loop InSingle rest
      else if r =? c_dquote then hasExecutableSQLComment_loop InDouble rest
      else if r =? c_btick then hasExecutableSQLComment_loop InBacktick rest
      else hasExecutableSQLComment_loop Normal rest
    end
  end.

Definition hasExecutableSQLComment (sqlText : gostring) : bool :=
  hasExecutableSQLComment_loop Normal sqlText.

(** ** The inner loops over comments

    [for i < len(runes) && runes[i] != '\n' && runes[i] != '\r' { i++ }]: the
    text from the position the loop stops at. *)
Fixpoint skip_line (l : gostring) : gostring :=
  match l with
  | [] => l
  | r :: rest => if is_newline r then l else skip_line rest
  end.

(** [for i < len(runes)-1 { if runes[i] == '*' && runes[i+1] == '/' { i++;
    break }; i++ }]: stops on the closing slash, or on the last rune when the
    comment is not closed. *)
Fixpoint skip_block (l : gostring) : gostring :=
  match l with
  | [] => l
  | r :: rest =>
    match rest with
    | [] => l
    | n :: _ => if (r =? c_star) && (n =? c_slash) then rest else skip_block rest
    end
  end.

(** ** [stripSQLComments]: comments become a blank, literals are not seen *)
Fixpoint stripSQLComments (l : gostring) : gostring :=
  match l with
  | [] => []
  | r :: rest =>
    let next := next_rune rest in
    if (r =? c_dash) && (next =? c_dash)
    then c_space :: stripSQLComments (drop1 (skip_line (drop1 rest)))
    else if r =? c_hash
    then c_space :: stripSQLComments (drop1 (skip_line rest))
    else if (r =? c_slash) && (next =? c_star)
    then c_space :: stripSQLComments (drop1 (skip_block (drop1 rest)))
    else r :: stripSQLComments rest
  end.

(** ** [maskSQLLiteralsAndComments] *)
Fixpoint maskSQL_loop (m : lex_mode) (l : gostring) : gostring :=
  match l with
  | [] => []
  | r :: rest =>
    let next := next_rune rest in
    match m with
    | InSingle =>
      if r =? c_squote then
        if next =? c_squote then maskSQL_loop InSingle (drop1 rest)
        else c_space :: maskSQL_loop Normal rest
      else c_space :: maskSQL_loop InSingle rest
    | InDouble => c_space :: maskSQL_loop (if r =? c_dquote then Normal else InDouble) rest
    | InBacktick => c_space :: maskSQL_loop (if r =? c_btick then Normal else InBacktick) rest
    | _ =>
      if (r =? c_dash) && (next =? c_dash)
      then c_space :: maskSQL_loop m (drop1 (skip_line (drop1 rest)))
      else if r =? c_hash
      then c_space :: maskSQL_loop m (drop1 (skip_line rest))
      else if (r =? c_slash) && (next =? c_star)
      then c_space :: maskSQL_loop m (drop1 (skip_block (drop1 rest)))
      else if r =? c_squote then c_space :: maskSQL_loop InSingle rest
      else if r =? c_dquote then c_space :: maskSQL_loop InDouble rest
      else if r =? c_btick then c_space :: maskSQL_loop InBacktick rest
      else r :: maskSQL_loop m rest
    end
  end.

Definition maskSQLLiteralsAndComments (sqlText : gostring) : gostring :=
  maskSQL_loop Normal sqlText.

(** ** [sqlKeywords]: the lower-cased words *)
Section keywords.
Context `{U : UnicodeTables}.

Definition is_word_rune (r : rune) : bool := IsLetter r || IsDigit r || (r =? c_under).

(** [flush]: nothing when [current] is empty. *)
Definition flush_token (current : gostring) : list gostring :=
  match current with [] => [] | _ => [ToLower current] end.

Fixpoint sqlKeywords_loop (current : gostring) (l : gostring) : list gostring :=
  match l with
  | [] => flush_token current
  | r :: rest =>
    if is_word_rune r then sqlKeywords_loop (current ++ [r]) rest
    else flush_token current ++ sqlKeywords_loop [] rest
  end.

Definition sqlKeywords (sqlText : gostring) : list gostring := sqlKeywords_loop [] sqlText.

Definition firstSQLKeyword (sqlText : gostring) : gostring :=
  match sqlKeywords sqlText with [] => [] | token :: _ => token end.

Definition containsSQLToken (sqlText token : gostring) : bool :=
  let token := ToLower (TrimSpace token) in
  if bool_decide (token = []) then false
  else bool_decide (token ∈ sqlKeywords sqlText).

(** A token that starts with a digit and has a letter or underscore later. *)
Definition unsafe_numeric_token (token : gostring) : bool :=
  match token with
  | [] => false
  | r :: rest =>
    if negb (IsDigit r) then false
    else existsb (fun c => IsLetter c || (c =? c_under)) rest
  end.

Definition hasUnsafeNumericKeywordToken (sqlText : gostring) : bool :=
  existsb unsafe_numeric_token (sqlKeywords sqlText).
End keywords.

(** ** [trimTrailingStatementSemicolon] *)
Definition trimTrailingStatementSemicolon (sqlText : gostring) : gostring :=
  let trimmed := TrimSpace sqlText in
  if HasSuffix trimmed $";" && negb (hasUnsafeSemicolon trimmed)
  then TrimSpace (take (length trimmed - 1) trimmed)
  else trimmed.
