(* ===== verification/SqlGrammar.v ===== *)
(** * The grammar of SQL text and the scanners' agreement with it

    [segment] is the lexical structure of a statement; [render] prints it and
    [wf_segments] says when a list of segments is the structure of what it
    prints. Every text has such a structure ([segments_total]) and each
    scanner of SqlLex computes on the text what is meant on the structure. *)

From Stdlib Require Import ZArith Lia.
From stdpp Require Import base tactics option list numbers sets.
From S2P Require Import Prelude GoStrings SqlLex.

Open Scope Z_scope.

Inductive segment :=
| SCode (r : rune)
| SQuoted (q : rune) (content : gostring) (closed : bool)
| SLine (opener content : gostring) (terminator : option rune)
| SBlock (content : gostring) (closed : bool).

(** A single quote inside a single-quoted literal is written twice. *)
Definition escape_squote (c : gostring) : gostring :=
  flat_map (fun r => if r =? c_squote then [c_squote; c_squote] else [r]) c.

Definition render_seg (s : segment) : gostring :=
  match s with
  | SCode r => [r]
  | SQuoted q c closed =>
    q :: (if q =? c_squote then escape_squote c else c) ++ (if closed then [q] else [])
  | SLine opener c t => opener ++ c ++ match t with Some n => [n] | None => [] end
  | SBlock c closed => c_slash :: c_star :: c ++ (if closed then [c_star; c_slash] else [])
  end.

Fixpoint render (l : list segment) : gostring :=
  match l with [] => [] | s :: l' => render_seg s ++ render l' end.

(** No comment terminator inside. *)
Fixpoint no_close (l : gostring) : bool :=
  match l with
  | [] => true
  | r :: rest => negb ((r =? c_star) && (next_rune rest =? c_slash)) && no_close rest
  end.

Definition is_quote (r : rune) : Prop := r = c_squote \/ r = c_dquote \/ r = c_btick.
Definition line_openers : list gostring := [[c_dash; c_dash]; [c_hash]].

(** [after] is the text that follows the segment. *)
Definition wf_seg (s : segment) (after : gostring) : Prop :=
  match s with
  | SCode r =>
    ~ is_quote r /\ r <> c_hash /\
    ~ (r = c_dash /\ next_rune after = c_dash) /\
    ~ (r = c_slash /\ next_rune after = c_star)
  | SQuoted q c closed =>
    is_quote q /\ (q <> c_squote -> q ∉ c) /\
    (if closed then q = c_squote -> next_rune after <> c_squote else after = [])
  | SLine opener c t =>
    opener ∈ line_openers /\ Forall (fun r => is_newline r = false) c /\
    match t with Some n => is_newline n = true | None => after = [] end
  | SBlock c closed => no_close c = true /\ (closed = false -> after = [])
  end.

Fixpoint wf_segments (l : list segment) : Prop :=
  match l with [] => True | s :: l' => wf_seg s (render l') /\ wf_segments l' end.

(** ** What the scanners mean on the structure *)

Definition is_code_semi (s : segment) : bool :=
  match s with SCode r => r =? c_semi | _ => false end.

Fixpoint after_first_semi (l : list segment) : option gostring :=
  match l with
  | [] => None
  | s :: l' => if is_code_semi s then Some (render l') else after_first_semi l'
  end.

(** More than one statement: something follows the first semicolon. *)
Definition multi_statement (l : list segment) : bool :=
  match after_first_semi l with
  | None => false
  | Some tail => negb (bool_decide (TrimSpace tail = []))
  end.

Definition is_exec_comment (s : segment) : bool :=
  match s with SBlock c _ => next_rune c =? c_bang | _ => false end.

Definition mask_seg (s : segment) : gostring :=
  match s with
  | SCode r => [r]
  | SQuoted q c closed =>
    c_space :: flat_map (fun r => if (q =? c_squote) && (r =? c_squote) then [] else [c_space]) c
    ++ (if closed then [c_space] else [])
  | _ => [c_space]
  end.

Definition is_comment_or_code (s : segment) : Prop :=
  match s with SQuoted _ _ _ => False | _ => True end.

(** The maximal runs of code between literals and comments. *)
Fixpoint code_runs_from (current : gostring) (l : list segment) : list gostring :=
  match l with
  | [] => [current]
  | SCode r :: l' => code_runs_from (current ++ [r]) l'
  | _ :: l' => current :: code_runs_from [] l'
  end.
Definition code_runs (l : list segment) : list gostring := code_runs_from [] l.

(** ** Scanner steps over one segment *)

Lemma next_rune_app (a b : gostring) : a <> [] -> next_rune (a ++ b) = next_rune a.
Proof. by destruct a. Qed.

Lemma drop1_cons {A} (x : A) l : drop1 (x :: l) = l.
Proof. done. Qed.

Ltac tests :=
  repeat match goal with
  | |- context [?a =? ?b] =>
    first [ change (a =? b) with true | change (a =? b) with false
          | rewrite (proj2 (Z.eqb_eq a b)) by (first [done | congruence | lia])
          | rewrite (proj2 (Z.eqb_neq a b)) by (first [done | congruence | lia]) ]
  end; simpl.

(** A scanner is run on a code rune, a comment or a literal by these laws;
    [run] is the scanner, [seen] what it does in place of the segment. *)
Class Scanner (A : Type) := {
  run : lex_mode -> A -> gostring -> bool;
  run_line st r rest :
    run InLine st (r :: rest) = run (if is_newline r then Normal else InLine) st rest;
  run_block st r rest :
    run InBlock st (r :: rest) =
    if (r =? c_star) && (next_rune rest =? c_slash)
    then run Normal st (drop1 rest) else run InBlock st rest;
  run_single st r rest :
    run InSingle st (r :: rest) =
    if r =? c_squote then
      if next_rune rest =? c_squote then run InSingle st (drop1 rest) else run Normal st rest
    else run InSingle st rest;
  run_double st r rest :
    run InDouble st (r :: rest) = run (if r =? c_dquote then Normal else InDouble) st rest;
  run_btick st r rest :
    run InBacktick st (r :: rest) = run (if r =? c_btick then Normal else InBacktick) st rest;
  run_end st m : run m st [] = run Normal st [];
  run_open_dash st rest : run Normal st (c_dash :: c_dash :: rest) = run InLine st rest;
  run_open_hash st rest : run Normal st (c_hash :: rest) = run InLine st rest;
  run_open_squote st rest : run Normal st (c_squote :: rest) = run InSingle st rest;
  run_open_dquote st rest : run Normal st (c_dquote :: rest) = run InDouble st rest;
  run_open_btick st rest : run Normal st (c_btick :: rest) = run InBacktick st rest;
}.

#[export, refine] Instance semicolon_scanner : Scanner (option gostring) :=
  {| run m st l := hasUnsafeSemicolon_loop m st l |}.
Proof. all: try reflexivity. Defined.

#[export, refine] Instance exec_comment_scanner : Scanner unit :=
  {| run m _ l := hasExecutableSQLComment_loop m l |}.
Proof. all: try reflexivity. Defined.

Section scanner.
Context `{Scanner A}.

Lemma run_line_content st c rest :
  Forall (fun r => is_newline r = false) c -> run InLine st (c ++ rest) = run InLine st rest.
Proof.
  induction 1 as [|r c Hr _ IH]; [done|].
  simpl. by rewrite run_line, Hr.
Qed.

Lemma run_block_closed st c rest :
  no_close c = true ->
  run InBlock st (c ++ [c_star; c_slash] ++ rest) = run Normal st rest.
Proof.
  induction c as [|r c IH]; intros Hc.
  - simpl. rewrite run_block. done.
  - simpl in Hc. bsimpl. simpl. rewrite run_block.
    replace ((r =? c_star) && (next_rune (c ++ c_star :: c_slash :: rest) =? c_slash)) with false;
      [by apply IH|].
    symmetry. destruct c; [simpl; apply andb_false_r | done].
Qed.

Lemma run_block_open st c :
  no_close c = true -> run InBlock st c = run Normal st [].
Proof.
  induction c as [|r c IH]; intros Hc; [apply run_end|].
  simpl in Hc. bsimpl. rewrite run_block.
  destruct ((r =? c_star) && (next_rune c =? c_slash)); [done | by apply IH].
Qed.

Lemma run_single_content st c rest :
  run InSingle st (escape_squote c ++ rest) = run InSingle st rest.
Proof.
  induction c as [|r c IH]; [done|].
  simpl. destruct (r =? c_squote) eqn:E; simpl; rewrite run_single.
  - tests. exact IH.
  - rewrite E. exact IH.
Qed.

Lemma run_double_content st c rest :
  c_dquote ∉ c -> run InDouble st (c ++ rest) = run InDouble st rest.
Proof.
  induction c as [|r c IH]; intros Hc; [done|].
  apply not_elem_of_cons in Hc as [Hr Hc]. simpl. rewrite run_double. tests. by apply IH.
Qed.

Lemma run_btick_content st c rest :
  c_btick ∉ c -> run InBacktick st (c ++ rest) = run InBacktick st rest.
Proof.
  induction c as [|r c IH]; intros Hc; [done|].
  apply not_elem_of_cons in Hc as [Hr Hc]. simpl. rewrite run_btick. tests. by apply IH.
Qed.

Lemma run_seg_quoted st q c closed after :
  wf_seg (SQuoted q c closed) after ->
  run Normal st (render_seg (SQuoted q c closed) ++ after) = run Normal st after.
Proof.
  intros (Hq & Hc & Hend). simpl. rewrite <- app_assoc.
  destruct Hq as [-> | [-> | ->]]; tests;
    rewrite ?run_open_squote, ?run_open_dquote, ?run_open_btick,
      ?run_single_content, ?run_double_content, ?run_btick_content by (by apply Hc);
    (destruct closed; [simpl | subst; apply run_end]);
    rewrite ?run_single, ?run_double, ?run_btick; tests; done.
Qed.

Lemma run_seg_line st opener c t after :
  wf_seg (SLine opener c t) after ->
  run Normal st (render_seg (SLine opener c t) ++ after) = run Normal st after.
Proof.
  intros (Ho & Hc & Hend). simpl. rewrite <- !app_assoc.
  assert (run InLine st (c ++ (match t with Some n => [n] | None => [] end) ++ after)
          = run Normal st after) as Hline.
  { rewrite run_line_content by done. destruct t as [n|]; simpl.
    - by rewrite run_line, Hend.
    - subst. apply run_end. }
  unfold line_openers in Ho. rewrite !elem_of_cons in Ho. destruct Ho as [-> | [-> | Ho]]; simpl.
  - by rewrite run_open_dash.
  - by rewrite run_open_hash.
  - by apply elem_of_nil in Ho.
Qed.

Lemma run_seg_block st c closed after :
  wf_seg (SBlock c closed) after ->
  run InBlock st (c ++ (if closed then [c_star; c_slash] else []) ++ after) = run Normal st after.
Proof.
  intros (Hc & Hend). destruct closed.
  - by apply run_block_closed.
  - rewrite (Hend eq_refl). rewrite !app_nil_r. by apply run_block_open.
Qed.
End scanner.

(** ** [hasUnsafeSemicolon] *)

Lemma semi_loop_code st r after :
  wf_seg (SCode r) after ->
  hasUnsafeSemicolon_loop Normal st (r :: after) =
  if r =? c_semi then
    match st with Some _ => true | None => hasUnsafeSemicolon_loop Normal (Some after) after end
  else hasUnsafeSemicolon_loop Normal st after.
Proof.
  intros (Hq & Hh & Hd & Hs). unfold is_quote in Hq. simpl.
  replace ((r =? 45) && (next_rune after =? 45)) with false by lia.
  replace ((r =? 47) && (next_rune after =? 42)) with false by lia.
  tests. done.
Qed.

Lemma semi_loop_block st c closed after :
  hasUnsafeSemicolon_loop Normal st (render_seg (SBlock c closed) ++ after) =
  hasUnsafeSemicolon_loop InBlock st (c ++ (if closed then [c_star; c_slash] else []) ++ after).
Proof. simpl. by rewrite <- app_assoc. Qed.

(** Nothing but code semicolons matters to the scanner. *)
Lemma semi_loop_render_cons st s l :
  wf_segments (s :: l) -> is_code_semi s = false ->
  hasUnsafeSemicolon_loop Normal st (render (s :: l)) =
  hasUnsafeSemicolon_loop Normal st (render l).
Proof.
  intros [Hs _] Hsemi. destruct s as [r|q c closed|o c t|c closed]; cbn [render].
  - simpl in Hsemi. cbn [render_seg app]. by rewrite semi_loop_code, Hsemi.
  - exact (run_seg_quoted st q c closed _ Hs).
  - exact (run_seg_line st o c t _ Hs).
  - rewrite semi_loop_block. exact (run_seg_block st c closed _ Hs).
Qed.

Lemma semi_loop_found tail l :
  wf_segments l ->
  hasUnsafeSemicolon_loop Normal (Some tail) (render l) =
  existsb is_code_semi l || negb (bool_decide (TrimSpace tail = [])).
Proof.
  induction l as [|s l IH]; intros Hwf; [done|].
  destruct (is_code_semi s) eqn:E.
  - destruct s as [r| | |]; try done. destruct Hwf as [Hs _].
    cbn [render render_seg app existsb]. rewrite semi_loop_code by done.
    by rewrite E; simpl in E; rewrite E.
  - rewrite semi_loop_render_cons by done. simpl. rewrite E. apply IH. apply Hwf.
Qed.

Lemma code_semi_in_render l : existsb is_code_semi l = true -> c_semi ∈ render l.
Proof.
  induction l as [|s l IH]; simpl; [done|].
  intros [H|H]%orb_true_iff; apply elem_of_app; [left|by right; apply IH].
  destruct s; try done. simpl in *. bsimpl. subst. by apply list_elem_of_singleton.
Qed.

Lemma TrimSpace_nonblank r s : r ∈ s -> IsSpace r = false -> TrimSpace s <> [].
Proof.
  intros Hin Hsp H. apply TrimSpace_nil in H. rewrite list.Forall_forall in H.
  by rewrite (H r Hin) in Hsp.
Qed.

Lemma hasUnsafeSemicolon_render l :
  wf_segments l -> hasUnsafeSemicolon (render l) = multi_statement l.
Proof.
  unfold hasUnsafeSemicolon, multi_statement.
  induction l as [|s l IH]; intros Hwf; [done|].
  destruct (is_code_semi s) eqn:E.
  - destruct s as [r| | |]; try done. cbn [after_first_semi]. rewrite E.
    destruct Hwf as [Hs Hl]. cbn [render render_seg app].
    rewrite semi_loop_code by done. simpl in E. rewrite E, semi_loop_found by done.
    destruct (existsb is_code_semi l) eqn:Ex; [|done].
    symmetry. apply negb_bool_decide_true.
    eapply TrimSpace_nonblank; [by apply code_semi_in_render | done].
  - rewrite semi_loop_render_cons by done. cbn [after_first_semi]. rewrite E.
    apply IH. apply Hwf.
Qed.

(** ** [hasExecutableSQLComment] *)

Lemma exec_loop_code r after :
  wf_seg (SCode r) after ->
  hasExecutableSQLComment_loop Normal (r :: after) = hasExecutableSQLComment_loop Normal after.
Proof.
  intros (Hq & Hh & Hd & Hs). unfold is_quote in Hq. simpl.
  replace ((r =? 45) && (next_rune after =? 45)) with false by lia.
  replace ((r =? 47) && (next_rune after =? 42)) with false by lia.
  tests. done.
Qed.

Lemma exec_loop_block c closed after :
  wf_seg (SBlock c closed) after ->
  hasExecutableSQLComment_loop Normal (render_seg (SBlock c closed) ++ after) =
  is_exec_comment (SBlock c closed) || hasExecutableSQLComment_loop Normal after.
Proof.
  intros Hwf. cbn [render_seg is_exec_comment app].
  pose proof (run_seg_block (A := unit) tt c closed after Hwf) as Hrun. cbn [run exec_comment_scanner] in Hrun.
  rewrite <- app_assoc. cbn [hasExecutableSQLComment_loop next_rune drop1].
  tests. rewrite Hrun. destruct c as [|r c].
  - destruct Hwf as [_ Hend]. destruct closed; [done|]. by rewrite (Hend eq_refl).
  - simpl. by destruct (r =? 33).
Qed.

Lemma hasExecutableSQLComment_render l :
  wf_segments l -> hasExecutableSQLComment (render l) = existsb is_exec_comment l.
Proof.
  unfold hasExecutableSQLComment. induction l as [|s l IH]; [done|].
  intros [Hs Hl]. cbn [existsb]. rewrite <- IH by done. clear IH.
  destruct s as [r|q c closed|o c t|c closed]; cbn [render].
  - cbn [render_seg app is_exec_comment orb]. by apply exec_loop_code.
  - exact (run_seg_quoted (A := unit) tt q c closed _ Hs).
  - exact (run_seg_line (A := unit) tt o c t _ Hs).
  - by apply exec_loop_block.
Qed.

(** ** [maskSQLLiteralsAndComments] *)

Lemma skip_line_content c rest :
  Forall (fun r => is_newline r = false) c -> skip_line (c ++ rest) = skip_line rest.
Proof. induction 1 as [|r c Hr _ IH]; [done|]. simpl. by rewrite Hr. Qed.

Lemma skip_block_cons2 r n k :
  skip_block (r :: n :: k) =
  if (r =? c_star) && (n =? c_slash) then n :: k else skip_block (n :: k).
Proof. done. Qed.

Lemma skip_block_closed c rest :
  no_close c = true -> skip_block (c ++ [c_star; c_slash] ++ rest) = c_slash :: rest.
Proof.
  induction c as [|r c IH]; intros Hc; [done|].
  simpl in Hc. bsimpl. specialize (IH ltac:(done)).
  destruct c as [|n c].
  - simpl in *. by rewrite andb_false_r.
  - cbn [app] in IH |- *. cbn [next_rune] in *. rewrite skip_block_cons2, IH.
    match goal with H : _ && _ = false |- _ => by rewrite H end.
Qed.

Lemma skip_block_open c : no_close c = true -> drop1 (skip_block c) = [].
Proof.
  induction c as [|r c IH]; intros Hc; [done|].
  simpl in Hc. bsimpl. destruct c as [|n c]; [done|].
  rewrite skip_block_cons2. cbn [next_rune] in *.
  match goal with H : _ && _ = false |- _ => rewrite H end. by apply IH.
Qed.

Lemma mask_single_content c rest :
  maskSQL_loop InSingle (escape_squote c ++ rest) =
  flat_map (fun r => if r =? c_squote then [] else [c_space]) c ++ maskSQL_loop InSingle rest.
Proof.
  induction c as [|r c IH]; [done|].
  simpl. destruct (r =? c_squote) eqn:E; simpl; rewrite ?E; [exact IH | by rewrite IH].
Qed.

Lemma mask_double_content c rest :
  c_dquote ∉ c ->
  maskSQL_loop InDouble (c ++ rest) =
  flat_map (fun _ => [c_space]) c ++ maskSQL_loop InDouble rest.
Proof.
  induction c as [|r c IH]; intros Hc; [done|].
  apply not_elem_of_cons in Hc as [Hr Hc]. simpl. tests. by rewrite IH.
Qed.

Lemma mask_btick_content c rest :
  c_btick ∉ c ->
  maskSQL_loop InBacktick (c ++ rest) =
  flat_map (fun _ => [c_space]) c ++ maskSQL_loop InBacktick rest.
Proof.
  induction c as [|r c IH]; intros Hc; [done|].
  apply not_elem_of_cons in Hc as [Hr Hc]. simpl. tests. by rewrite IH.
Qed.

Lemma mask_end m : maskSQL_loop m [] = [].
Proof. by destruct m. Qed.

(** The comment rules, shared by [mask] and [strip]. *)
Lemma skip_line_seg c (t : option rune) after :
  Forall (fun r => is_newline r = false) c ->
  match t with Some n => is_newline n = true | None => after = [] end ->
  drop1 (skip_line (c ++ (match t with Some n => [n] | None => [] end) ++ after)) = after.
Proof.
  intros Hc Ht. rewrite skip_line_content by done. destruct t as [n|]; simpl.
  - by rewrite Ht.
  - by subst.
Qed.

Lemma skip_block_seg c (closed : bool) after :
  no_close c = true -> (closed = false -> after = []) ->
  drop1 (skip_block (c ++ (if closed then [c_star; c_slash] else []) ++ after)) = after.
Proof.
  intros Hc Hend. destruct closed.
  - by rewrite skip_block_closed.
  - rewrite (Hend eq_refl), !app_nil_r. by apply skip_block_open.
Qed.

Lemma mask_seg_step s after :
  wf_seg s after ->
  maskSQL_loop Normal (render_seg s ++ after) = mask_seg s ++ maskSQL_loop Normal after.
Proof.
  intros Hs. destruct s as [r|q c closed|o c t|c closed]; cbn [render_seg].
  - destruct Hs as (Hq & Hh & Hd & Hs). unfold is_quote in Hq. simpl.
    replace ((r =? 45) && (next_rune after =? 45)) with false by lia.
    replace ((r =? 47) && (next_rune after =? 42)) with false by lia.
    tests. done.
  - destruct Hs as (Hq & Hc & Hend). cbn [app]. rewrite <- app_assoc.
    destruct Hq as [-> | [-> | ->]]; cbn [maskSQL_loop mask_seg]; tests;
      rewrite ?mask_single_content, ?mask_double_content, ?mask_btick_content by (by apply Hc);
      rewrite <- app_assoc; f_equal; f_equal;
      (destruct closed; [simpl; tests; done | subst; apply mask_end]).
  - destruct Hs as (Ho & Hc & Ht). rewrite <- !app_assoc.
    unfold line_openers in Ho. rewrite !elem_of_cons in Ho.
    destruct Ho as [-> | [-> | Ho]]; [| |by apply elem_of_nil in Ho];
      cbn [app maskSQL_loop next_rune drop1]; tests; by rewrite skip_line_seg.
  - destruct Hs as (Hc & Hend). cbn [app]. rewrite <- app_assoc.
    cbn [maskSQL_loop next_rune drop1]. tests. by rewrite skip_block_seg.
Qed.

Lemma mask_render l :
  wf_segments l -> maskSQLLiteralsAndComments (render l) = flat_map mask_seg l.
Proof.
  unfold maskSQLLiteralsAndComments. induction l as [|s l IH]; [done|].
  intros [Hs Hl]. cbn [render flat_map]. by rewrite mask_seg_step, IH.
Qed.

(** ** [stripSQLComments]: the masked text when there is no literal *)
Lemma strip_render l :
  wf_segments l -> Forall is_comment_or_code l ->
  stripSQLComments (render l) = maskSQLLiteralsAndComments (render l).
Proof.
  intros Hwf Hl. rewrite mask_render by done.
  induction Hl as [|s l Hs Hl IH]; [done|]. destruct Hwf as [Hw Hwf]. specialize (IH Hwf).
  cbn [flat_map]. rewrite <- IH. clear IH. destruct s as [r|q c closed|o c t|c closed]; [|done| |]; cbn [render].
  - destruct Hw as (Hq & Hh & Hd & Hb). unfold is_quote in Hq. simpl.
    replace ((r =? 45) && (next_rune (render l) =? 45)) with false by lia.
    replace ((r =? 47) && (next_rune (render l) =? 42)) with false by lia.
    tests. done.
  - destruct Hw as (Ho & Hc & Ht). cbn [render_seg]. rewrite <- !app_assoc.
    unfold line_openers in Ho. rewrite !elem_of_cons in Ho.
    destruct Ho as [-> | [-> | Ho]]; [| |by apply elem_of_nil in Ho];
      cbn [app stripSQLComments next_rune drop1]; tests; by rewrite skip_line_seg.
  - destruct Hw as (Hc & Hend). cbn [render_seg app]. rewrite <- app_assoc.
    cbn [stripSQLComments next_rune drop1]. tests. by rewrite skip_block_seg.
Qed.

(** ** [sqlKeywords] of the masked text: the words of the code runs *)
Section keywords.
Context `{U : UnicodeTables}.

Lemma sqlKeywords_loop_sep cur a r b :
  is_word_rune r = false ->
  sqlKeywords_loop cur (a ++ r :: b) = sqlKeywords_loop cur a ++ sqlKeywords b.
Proof.
  intros Hr. revert cur. induction a as [|x a IH]; intros cur; simpl.
  - by rewrite Hr.
  - destruct (is_word_rune x); [apply IH|]. by rewrite IH, app_assoc.
Qed.

Lemma sqlKeywords_sep r b : is_word_rune r = false -> sqlKeywords (r :: b) = sqlKeywords b.
Proof. intros Hr. exact (sqlKeywords_loop_sep [] [] r b Hr). Qed.

Lemma sqlKeywords_blank g b :
  Forall (fun r => r = c_space) g -> sqlKeywords (g ++ b) = sqlKeywords b.
Proof.
  induction 1 as [|r g -> _ IH]; [done|]. simpl. by rewrite sqlKeywords_sep.
Qed.

Lemma mask_seg_blank s :
  (forall r, s <> SCode r) -> exists g, mask_seg s = c_space :: g /\ Forall (fun r => r = c_space) g.
Proof.
  destruct s as [r|q c closed| |]; intros Hs; [by specialize (Hs r) | | by exists [] | by exists []].
  clear Hs. simpl. eexists; split; [done|]. apply Forall_app; split; [|by destruct closed; repeat constructor].
  induction c as [|r c IH]; [done|]. simpl. apply Forall_app; split; [|done].
  by destruct ((q =? c_squote) && (r =? c_squote)); repeat constructor.
Qed.

Lemma keywords_code_runs_from cur l :
  sqlKeywords (cur ++ flat_map mask_seg l) = flat_map sqlKeywords (code_runs_from cur l).
Proof.
  revert cur. induction l as [|s l IH]; intros cur; simpl.
  - by rewrite !app_nil_r.
  - destruct s as [r|q c closed|o c t|c closed].
    + rewrite <- IH. simpl. by rewrite <- app_assoc.
    + destruct (mask_seg_blank (SQuoted q c closed)) as (g & -> & Hg); [done|].
      simpl. unfold sqlKeywords at 1. rewrite sqlKeywords_loop_sep by done.
      f_equal. rewrite sqlKeywords_blank by done. exact (IH []).
    + simpl. unfold sqlKeywords at 1. rewrite sqlKeywords_loop_sep by done. f_equal. exact (IH []).
    + simpl. unfold sqlKeywords at 1. rewrite sqlKeywords_loop_sep by done. f_equal. exact (IH []).
Qed.

Lemma keywords_of_masked l :
  wf_segments l ->
  sqlKeywords (maskSQLLiteralsAndComments (render l)) = flat_map sqlKeywords (code_runs l).
Proof.
  intros Hwf. rewrite mask_render by done. exact (keywords_code_runs_from [] l).
Qed.
End keywords.

(** ** Every text has a structure *)

(** The longest prefix without newline. *)
Lemma split_line s : exists c t after,
  s = c ++ (match t with Some n => [n] | None => [] end) ++ after /\
  Forall (fun r => is_newline r = false) c /\
  match t with Some n => is_newline n = true | None => after = [] end.
Proof.
  induction s as [|r s (c & t & after & -> & Hc & Ht)].
  - by exists [], None, [].
  - destruct (is_newline r) eqn:E.
    + by exists [], (Some r), (c ++ match t with Some n => [n] | None => [] end ++ after).
    + exists (r :: c), t, after. split; [done|]. split; [by constructor | done].
Qed.

Lemma split_block s : exists c (closed : bool) after,
  s = c ++ (if closed then [c_star; c_slash] else []) ++ after /\
  no_close c = true /\ (closed = false -> after = []).
Proof.
  induction s as [|r s (c & closed & after & Hs & Hc & Hend)].
  - by exists [], false, [].
  - destruct ((r =? c_star) && (next_rune s =? c_slash)) eqn:E.
    + bsimpl. subst r. destruct s as [|n s]; [done|]. simpl in *. subst n.
      by exists [], true, s.
    + exists (r :: c), closed, after. split; [by rewrite Hs|]. split; [|done].
      simpl. rewrite Hc, andb_true_r. apply negb_true_iff.
      destruct c as [|n c]; [|by subst s].
      simpl. apply andb_false_r.
Qed.

Lemma split_quoted (q : rune) (s : gostring) : exists (c : gostring) (closed : bool) after,
  s = c ++ (if closed then [q] else []) ++ after /\
  (q ∉ c) /\ (closed = false -> after = []).
Proof.
  induction s as [|r s (c & closed & after & Hs & Hc & Hend)].
  - exists [], false, []. split; [done|]. split; [apply not_elem_of_nil | done].
  - destruct (decide (r = q)) as [->|Hne].
    + exists [], true, s. split; [done|]. split; [apply not_elem_of_nil | done].
    + exists (r :: c), closed, after. split; [by rewrite Hs|]. split; [|done].
      by apply not_elem_of_cons.
Qed.

Lemma split_squoted s : exists c (closed : bool) after,
  s = escape_squote c ++ (if closed then [c_squote] else []) ++ after /\
  (if closed then next_rune after <> c_squote else after = []).
Proof.
  induction s as [s IH] using length_ind. destruct s as [|r s].
  - by exists [], false, [].
  - destruct (decide (r = c_squote)) as [->|Hne].
    + destruct s as [|n s]; [by exists [], true, []|].
      destruct (decide (n = c_squote)) as [->|Hn].
      * destruct (IH s) as (c & closed & after & -> & Hend); [simpl; lia|].
        by exists (c_squote :: c), closed, after.
      * by exists [], true, (n :: s).
    + destruct (IH s) as (c & closed & after & -> & Hend); [simpl; lia|].
      exists (r :: c), closed, after. split; [|done]. simpl.
      by rewrite (proj2 (Z.eqb_neq r 39)).
Qed.

(** The first segment of a nonempty text. *)
Lemma split_segment r s : exists seg after,
  r :: s = render_seg seg ++ after /\ wf_seg seg after.
Proof.
  destruct (decide (r = c_hash)) as [->|Hhash].
  { destruct (split_line s) as (c & t & after & -> & Hc & Ht).
    exists (SLine [c_hash] c t), after. simpl. rewrite <- app_assoc.
    split; [done|]. split; [unfold line_openers; rewrite !elem_of_cons; auto | done]. }
  destruct (decide (r = c_squote)) as [->|Hsq].
  { destruct (split_squoted s) as (c & closed & after & -> & Hend).
    exists (SQuoted c_squote c closed), after. simpl. rewrite <- app_assoc.
    split; [done|]. split; [by left|]. by destruct closed. }
  destruct (decide (r = c_dquote \/ r = c_btick)) as [Hq|Hq].
  { destruct (split_quoted r s) as (c & closed & after & -> & Hc & Hend).
    exists (SQuoted r c closed), after. simpl.
    rewrite (proj2 (Z.eqb_neq r 39)), <- app_assoc by done.
    split; [done|]. split; [by right|]. split; [done|].
    destruct closed; [done | by apply Hend]. }
  destruct (decide (r = c_dash /\ next_rune s = c_dash)) as [[-> Hd]|Hdash].
  { destruct s as [|n s]; [done|]. simpl in Hd. subst n.
    destruct (split_line s) as (c & t & after & -> & Hc & Ht).
    exists (SLine [c_dash; c_dash] c t), after. simpl. rewrite <- app_assoc.
    split; [done|]. split; [unfold line_openers; rewrite !elem_of_cons; auto | done]. }
  destruct (decide (r = c_slash /\ next_rune s = c_star)) as [[-> Hd]|Hblock].
  { destruct s as [|n s]; [done|]. simpl in Hd. subst n.
    destruct (split_block s) as (c & closed & after & -> & Hc & Hend).
    exists (SBlock c closed), after. simpl. rewrite <- app_assoc. done. }
  exists (SCode r), s. split; [done|]. unfold wf_seg, is_quote. naive_solver.
Qed.

Lemma segments_total s : exists l, wf_segments l /\ render l = s.
Proof.
  induction s as [s IH] using length_ind. destruct s as [|r s]; [by exists []|].
  destruct (split_segment r s) as (seg & after & Hs & Hwf).
  destruct (IH after) as (l & Hl & <-).
  - rewrite Hs, length_app. enough (1 <= length (render_seg seg))%nat by lia.
    destruct seg as [|q c closed|o c t|]; simpl; try lia.
    destruct Hwf as [Ho _]. unfold line_openers in Ho. rewrite !elem_of_cons in Ho.
    destruct Ho as [-> | [-> | Ho]]; simpl; [lia | lia | by apply elem_of_nil in Ho].
  - exists (seg :: l). by rewrite Hs.
Qed.

(** C4: Every text can be read as code, literals and comments so that the
    scanners compute what is meant on that reading: whether there is a second
    statement, whether a comment is executable, the text with literals and
    comments blanked, the words of the code, and (when there is no literal) the
    text without comments. *)
Theorem scanners_refine `{U : UnicodeTables} s :
  exists l, wf_segments l /\ render l = s /\
    hasUnsafeSemicolon s = multi_statement l /\
    hasExecutableSQLComment s = existsb is_exec_comment l /\
    maskSQLLiteralsAndComments s = flat_map mask_seg l /\
    sqlKeywords (maskSQLLiteralsAndComments s) = flat_map sqlKeywords (code_runs l) /\
    (Forall is_comment_or_code l -> stripSQLComments s = maskSQLLiteralsAndComments s).
Proof.
  destruct (segments_total s) as (l & Hl & <-). exists l.
  do 2 (split; [done|]).
  split; [by apply hasUnsafeSemicolon_render|].
  split; [by apply hasExecutableSQLComment_render|].
  split; [by apply mask_render|]. split; [by apply keywords_of_masked|].
  by apply strip_render.
Qed.
