(* ===== verification/SqlStatement.v ===== *)
(** * One statement: what trimming the final semicolon leaves

    Shared by the four analysers: a text that passes [hasUnsafeSemicolon] and
    loses its final semicolon has no statement separator left. *)

From Stdlib Require Import ZArith Lia.
From stdpp Require Import base tactics option list numbers sets.
From S2P Require Import Prelude GoStrings SqlLex SqlGrammar.

Open Scope Z_scope.

(** No code semicolon, whatever the structure the text is read with. *)
Definition single_statement (s : gostring) : Prop :=
  forall l, wf_segments l -> render l = s -> existsb is_code_semi l = false.

(** A scan that already saw a semicolon followed by nothing answers whether
    there is another one. *)
Definition another_semi (m : lex_mode) (l : gostring) : bool :=
  hasUnsafeSemicolon_loop m (Some []) l.

Lemma semi_loop_tail m tail l :
  TrimSpace tail <> [] -> hasUnsafeSemicolon_loop m (Some tail) l = true.
Proof.
  intros Ht. revert m. induction l as [l IH] using length_ind. intros m.
  destruct l as [|r l]; [by apply negb_bool_decide_true|].
  assert (forall m, hasUnsafeSemicolon_loop m (Some tail) l = true) as H1.
  { intros. apply IH. simpl. lia. }
  assert (forall m, hasUnsafeSemicolon_loop m (Some tail) (drop1 l) = true) as H2.
  { intros. apply IH. simpl. pose proof (drop1_length l). lia. }
  destruct m; simpl; repeat case_match; auto.
Qed.

(** The scan of a text, extended by more text. *)
Lemma semi_loop_app m l t :
  another_semi m l = true -> TrimSpace t <> [] ->
  hasUnsafeSemicolon_loop m None (l ++ t) = true.
Proof.
  unfold another_semi. intros Hl Ht. revert m Hl.
  induction l as [l IH] using length_ind. intros m Hl.
  destruct l as [|r k]; [done|]. destruct (decide (k = [])) as [->|Hk].
  - (* the last rune of the scanned text must be the semicolon *)
    destruct m; simpl in Hl; rewrite ?andb_false_r in Hl;
      repeat (case_if_in Hl); try discriminate; bsimpl; subst; simpl; by apply semi_loop_tail.
  - assert (forall m, hasUnsafeSemicolon_loop m (Some []) k = true ->
      hasUnsafeSemicolon_loop m None (k ++ t) = true) as H1.
    { intros. apply IH; [simpl; lia | done]. }
    assert (forall m, hasUnsafeSemicolon_loop m (Some []) (drop1 k) = true ->
      hasUnsafeSemicolon_loop m None (drop1 k ++ t) = true) as H2.
    { intros. apply IH; [simpl; pose proof (drop1_length k); lia | done]. }
    assert (TrimSpace (k ++ t) <> []) as H3.
    { rewrite TrimSpace_nil, Forall_app, <- !TrimSpace_nil. naive_solver. }
    assert (drop1 (k ++ t) = drop1 k ++ t) as Hd by (by destruct k).
    destruct m; simpl in Hl |- *; rewrite ?next_rune_app, ?Hd by done;
      repeat case_match; try congruence; auto using semi_loop_tail.
Qed.

Lemma semi_loop_blank st g s :
  Forall (fun r => IsSpace r = true) g ->
  hasUnsafeSemicolon_loop Normal st (g ++ s) = hasUnsafeSemicolon_loop Normal st s.
Proof.
  induction 1 as [|r g Hr _ IH]; [done|].
  assert (r <> 45 /\ r <> 35 /\ r <> 47 /\ r <> 39 /\ r <> 34 /\ r <> 96 /\ r <> 59) as Hne.
  { unfold IsSpace in Hr. lia. }
  destruct Hne as (? & ? & ? & ? & ? & ? & ?).
  cbn [app hasUnsafeSemicolon_loop]. tests. exact IH.
Qed.

Lemma after_first_semi_split l tail :
  after_first_semi l = Some tail -> exists a, render l = a ++ c_semi :: tail.
Proof.
  induction l as [|s l IH]; [done|]. cbn [after_first_semi render].
  destruct (is_code_semi s) eqn:E.
  - intros [= <-]. destruct s as [r| | |]; try done. simpl in E. bsimpl. subst. by exists [].
  - intros H. destruct (IH H) as [a ->]. exists (render_seg s ++ a). by rewrite app_assoc.
Qed.

Lemma after_first_semi_some l :
  existsb is_code_semi l = true -> exists tail, after_first_semi l = Some tail.
Proof. induction l as [|s l IH]; [done|]. simpl. destruct (is_code_semi s); eauto. Qed.

Lemma single_statement_trim s :
  hasUnsafeSemicolon (TrimSpace s) = false ->
  single_statement (trimTrailingStatementSemicolon (TrimSpace s)).
Proof.
  intros Hsafe l Hwf Hl. apply not_true_iff_false. intros Hsemi.
  assert (another_semi Normal (render l) = true) as Hanother.
  { unfold another_semi. rewrite semi_loop_found by done. by rewrite Hsemi. }
  unfold trimTrailingStatementSemicolon in Hl. rewrite TrimSpace_idem, Hsafe in Hl.
  destruct (HasSuffix (TrimSpace s) $";") eqn:Hsuf; simpl in Hl.
  - (* the last semicolon is cut, so another one has it behind *)
    apply HasSuffix_spec in Hsuf as [s0 Hs0]. rewrite Hs0 in Hl, Hsafe.
    change $";" with [c_semi] in *.
    rewrite length_app, take_app_le, take_ge in Hl by (simpl; lia).
    destruct (drop_while_split IsSpace s0) as (g & Hg & Hblank).
    destruct (trim_right_split IsSpace (drop_while IsSpace s0)) as (g' & Hg' & _).
    change (trim_right_func IsSpace (drop_while IsSpace s0)) with (TrimSpace s0) in Hg'.
    rewrite Hg, Hg', <- Hl in Hsafe. unfold hasUnsafeSemicolon in Hsafe.
    rewrite <- !app_assoc, semi_loop_blank, semi_loop_app in Hsafe; [done | done | | done].
    apply (TrimSpace_nonblank c_semi); [|done].
    apply elem_of_app; right. by apply list_elem_of_singleton.
  - (* a semicolon with a blank tail would be the last rune *)
    destruct (after_first_semi_some l Hsemi) as [tail Htail].
    assert (TrimSpace tail = []) as Hblank.
    { rewrite <- Hl, hasUnsafeSemicolon_render in Hsafe by done.
      unfold multi_statement in Hsafe. rewrite Htail in Hsafe. by bsimpl. }
    destruct (after_first_semi_split l tail Htail) as [a Ha].
    destruct tail as [|x tail' _] using rev_ind.
    + apply not_true_iff_false in Hsuf. apply Hsuf, HasSuffix_spec.
      exists a. by rewrite <- Hl, Ha.
    + apply TrimSpace_nil, Forall_app in Hblank as [_ Hx].
      rewrite Hl in Ha. change (c_semi :: tail' ++ [x]) with ((c_semi :: tail') ++ [x]) in Ha.
      rewrite app_assoc in Ha. apply TrimSpace_last in Ha. inversion Hx; congruence.
Qed.

(** ** Appending to a text whose last literal or comment is closed *)

Definition is_closed (s : segment) : bool :=
  match s with
  | SCode _ => true
  | SQuoted _ _ closed => closed
  | SLine _ _ (Some _) => true
  | SLine _ _ None => false
  | SBlock _ closed => closed
  end.

Lemma wf_segments_app l k :
  wf_segments l -> forallb is_closed l = true -> wf_segments k ->
  next_rune (render k) <> c_dash -> next_rune (render k) <> c_star ->
  next_rune (render k) <> c_squote -> wf_segments (l ++ k).
Proof.
  intros Hl Hc Hk H1 H2 H3. induction l as [|s l IH]; [done|].
  simpl in Hc. bsimpl. destruct Hl as [Hs Hl]. specialize (IH Hl ltac:(done)).
  split; [|done]. clear IH Hl.
  assert (render (l ++ k) = render l ++ render k) as Happ.
  { clear. induction l as [|s l IH]; [done|]. simpl. by rewrite IH, app_assoc. }
  assert (forall c, next_rune (render k) <> c -> next_rune (render l) <> c ->
    next_rune (render (l ++ k)) <> c) as Hn.
  { intros c Hkc Hlc. rewrite Happ. by destruct (render l). }
  destruct s as [r|q c closed|o c t|c closed]; simpl in *; try subst closed.
  - destruct Hs as (? & ? & Hd & Hs). repeat split; [done | done | |].
    + intros [-> Hx]. revert Hx. apply Hn; naive_solver.
    + intros [-> Hx]. revert Hx. apply Hn; naive_solver.
  - destruct Hs as (? & ? & Hend). repeat split; [done | done |]. intros Hq. apply Hn; auto.
  - destruct t; [done|]. done.
  - destruct Hs. split; [done|]. intros ?; discriminate.
Qed.

Lemma render_app l k : render (l ++ k) = render l ++ render k.
Proof. induction l as [|s l IH]; [done|]. simpl. by rewrite IH, app_assoc. Qed.

(** Plain code: none of the runes that start a literal or a comment. *)
Definition plain_rune (r : rune) : bool :=
  negb ((r =? c_squote) || (r =? c_dquote) || (r =? c_btick) || (r =? c_hash) ||
        (r =? c_dash) || (r =? c_slash)).

Lemma wf_plain s : forallb plain_rune s = true -> wf_segments (SCode <$> s).
Proof.
  induction s as [|r s IH]; [done|]. simpl. intros H. bsimpl. split; [|by apply IH].
  unfold plain_rune, is_quote in *. lia.
Qed.

Lemma render_plain s : render (SCode <$> s) = s.
Proof. induction s as [|r s IH]; [done|]. simpl. by f_equal. Qed.

Lemma mask_plain s : flat_map mask_seg (SCode <$> s) = s.
Proof. induction s as [|r s IH]; [done|]. simpl. by f_equal. Qed.
