(* ===== verification/SqlSafety.v ===== *)
(** * Statement checks of [internal/biz/database/sql_safety.go]

    The read-only, EXPLAIN, write and DDL analysers, with the write policy of
    [query_write.go] and the database types of [model.go] / [usecase.go]. *)

From Stdlib Require Import ZArith Lia.
From stdpp Require Import base tactics option list numbers sets.
From S2P Require Import Prelude GoStrings SqlLex.

Open Scope Z_scope.

(** ** Constants of [model.go] *)
Definition DBTypeMySQL := $"mysql".
Definition DBTypeMariaDB := $"mariadb".
Definition DBTypePostgreSQL := $"postgresql".
Definition DBTypeSQLServer := $"sqlserver".
Definition DBTypeClickHouse := $"clickhouse".
Definition DBTypeOracle := $"oracle".
Definition DBTypeRedis := $"redis".
Definition DBTypeMongoDB := $"mongodb".
Definition DBTypeElasticsearch := $"elasticsearch".
Definition DBTypeOpenSearch := $"opensearch".
Definition DBTypeTiDB := $"tidb".
Definition DBTypeOceanBase := $"oceanbase".
Definition DBTypeOpenGauss := $"opengauss".
Definition DBTypeDameng := $"dameng".
Definition DBTypeKingbase := $"kingbase".

Definition DatabaseQueryRiskLow := $"low".
Definition DatabaseQueryRiskMedium := $"medium".
Definition DatabaseQueryRiskHigh := $"high".
Definition DatabaseQueryRiskCritical := $"critical".

(** ** Results *)
Record SQLSafetyResult := {
  Allowed : bool; SQLText : gostring; SQLType : gostring; Message : gostring }.

Record SQLWriteSafetyResult := {
  w_Allowed : bool; w_SQLText : gostring; w_SQLType : gostring; w_RiskLevel : gostring;
  w_ConfirmRequired : bool; w_ReasonRequired : bool; w_RowsAffectedLimit : Z;
  w_Message : gostring }.

Record SQLDDLSafetyResult := {
  d_Allowed : bool; d_SQLText : gostring; d_SQLType : gostring; d_RiskLevel : gostring;
  d_ConfirmRequired : bool; d_ReasonRequired : bool; d_BackupRequired : bool;
  d_Message : gostring }.

Record sqlAnalyzeOptions := { appendLimit : bool; opt_limit : Z }.

(** ** The write policy, [query_write.go] *)
Record DatabaseWritePolicy := {
  WriteEnabled : bool; WriteExplainEnabled : bool; DDLEnabled : bool;
  DDLHighRiskConfirm : bool; DDLReasonRequired : bool; DDLRequireBackupHint : bool;
  HighRiskRequiresConfirm : bool; OperationReasonRequired : bool; MaxAffectedRows : Z }.

Definition defaultMaxAffectedRows : Z := 1000.

Definition defaultDatabaseWritePolicy : DatabaseWritePolicy := {|
  WriteEnabled := false; WriteExplainEnabled := false; DDLEnabled := false;
  DDLHighRiskConfirm := true; DDLReasonRequired := true; DDLRequireBackupHint := true;
  HighRiskRequiresConfirm := true; OperationReasonRequired := true;
  MaxAffectedRows := defaultMaxAffectedRows |}.

Definition normalizeMaxAffectedRows (limit : Z) : Z :=
  if limit <=? 0 then defaultMaxAffectedRows else limit.

(** [uc.writePolicyResolver], when there is one, is a collaborator: [None] no
    resolver, [Some r] what it returns, [r = Ok None] a nil policy. *)
Definition resolveWritePolicy (resolver : option (result (option DatabaseWritePolicy)))
    : result DatabaseWritePolicy :=
  let policy := defaultDatabaseWritePolicy in
  match resolver with
  | None => Ok policy
  | Some (Err e) => Err ($"读取数据库写操作配置失败: " ++ e)
  | Some (Ok None) => Ok policy
  | Some (Ok (Some resolved)) => Ok {|
      WriteEnabled := WriteEnabled resolved;
      WriteExplainEnabled := WriteExplainEnabled resolved;
      DDLEnabled := DDLEnabled resolved;
      DDLHighRiskConfirm := DDLHighRiskConfirm resolved;
      DDLReasonRequired := DDLReasonRequired resolved;
      DDLRequireBackupHint := DDLRequireBackupHint resolved;
      HighRiskRequiresConfirm := HighRiskRequiresConfirm resolved;
      OperationReasonRequired := OperationReasonRequired resolved;
      MaxAffectedRows := normalizeMaxAffectedRows (MaxAffectedRows resolved) |}
  end.

Section analysers.
Context `{U : UnicodeTables}.

(** ** Database types, [usecase.go] *)
Definition normalizeDBType (dbType : gostring) : gostring := ToLower (TrimSpace dbType).

Definition DBTypeText (dbType : gostring) : gostring :=
  let t := normalizeDBType dbType in
  if one_of t [DBTypeMySQL] then $"MySQL"
  else if one_of t [DBTypeMariaDB] then $"MariaDB"
  else if one_of t [DBTypePostgreSQL] then $"PostgreSQL"
  else if one_of t [DBTypeSQLServer] then $"SQL Server"
  else if one_of t [DBTypeClickHouse] then $"ClickHouse"
  else if one_of t [DBTypeOracle] then $"Oracle"
  else if one_of t [DBTypeRedis] then $"Redis"
  else if one_of t [DBTypeMongoDB] then $"MongoDB"
  else if one_of t [DBTypeElasticsearch] then $"Elasticsearch"
  else if one_of t [DBTypeOpenSearch] then $"OpenSearch"
  else if one_of t [DBTypeTiDB] then $"TiDB"
  else if one_of t [DBTypeOceanBase] then $"OceanBase MySQL"
  else if one_of t [DBTypeOpenGauss] then $"openGauss"
  else if one_of t [DBTypeDameng] then $"达梦 Dameng"
  else if one_of t [DBTypeKingbase] then $"人大金仓 Kingbase"
  else dbType.

Definition supportsAutoAppendLimit (dbType : gostring) : bool :=
  one_of (normalizeDBType dbType)
    [[]; DBTypeMySQL; DBTypeMariaDB; DBTypePostgreSQL; DBTypeClickHouse; DBTypeTiDB;
     DBTypeOceanBase; DBTypeOpenGauss; DBTypeKingbase].
Definition supportsWriteValidation (dbType : gostring) : bool :=
  one_of (normalizeDBType dbType)
    [[]; DBTypeMySQL; DBTypeMariaDB; DBTypePostgreSQL; DBTypeSQLServer; DBTypeClickHouse;
     DBTypeOracle].
Definition supportsExplain (dbType : gostring) : bool :=
  one_of (normalizeDBType dbType)
    [[]; DBTypeMySQL; DBTypeMariaDB; DBTypePostgreSQL; DBTypeClickHouse; DBTypeTiDB;
     DBTypeOceanBase; DBTypeOpenGauss; DBTypeKingbase].
Definition supportsWriteExplain (dbType : gostring) : bool :=
  one_of (normalizeDBType dbType)
    [[]; DBTypeMySQL; DBTypeMariaDB; DBTypePostgreSQL; DBTypeTiDB; DBTypeOceanBase;
     DBTypeOpenGauss; DBTypeKingbase].
Definition supportsDDLValidation (dbType : gostring) : bool :=
  one_of (normalizeDBType dbType) [[]; DBTypeMySQL; DBTypeMariaDB; DBTypePostgreSQL].
(** [query_change.go] *)
Definition supportsWriteExecution (dbType : gostring) : bool :=
  one_of (normalizeDBType dbType) [DBTypeMySQL; DBTypeMariaDB; DBTypePostgreSQL].

(** ** Statement types *)
Definition isAllowedReadOnlyKeyword (keyword : gostring) : bool :=
  one_of (ToLower keyword)
    [$"select"; $"show"; $"desc"; $"describe"; $"explain"; $"with"].

Definition classifyWriteSQLKeyword (keyword : gostring) : gostring * gostring * bool :=
  let k := ToLower (TrimSpace keyword) in
  if one_of k [$"insert"] then ($"INSERT", DatabaseQueryRiskMedium, true)
  else if one_of k [$"update"] then ($"UPDATE", DatabaseQueryRiskHigh, true)
  else if one_of k [$"delete"] then ($"DELETE", DatabaseQueryRiskHigh, true)
  else if one_of k [$"replace"] then ($"REPLACE", DatabaseQueryRiskHigh, true)
  else if one_of k [$"create"] then ($"CREATE", DatabaseQueryRiskHigh, true)
  else if one_of k [$"alter"] then ($"ALTER", DatabaseQueryRiskHigh, true)
  else if one_of k [$"drop"] then ($"DROP", DatabaseQueryRiskCritical, true)
  else if one_of k [$"truncate"] then ($"TRUNCATE", DatabaseQueryRiskCritical, true)
  else if one_of k [$"rename"] then ($"RENAME", DatabaseQueryRiskHigh, true)
  else if one_of k [$"grant"] then ($"GRANT", DatabaseQueryRiskHigh, true)
  else if one_of k [$"revoke"] then ($"REVOKE", DatabaseQueryRiskHigh, true)
  else if one_of k [$"merge"] then ($"MERGE", DatabaseQueryRiskHigh, true)
  else (ToUpper (TrimSpace keyword), DatabaseQueryRiskLow, false).

Definition requiresWriteConfirmation (riskLevel : gostring) : bool :=
  one_of (TrimSpace riskLevel) [DatabaseQueryRiskHigh; DatabaseQueryRiskCritical].

Definition isDDLOrPrivilegeSQLType (sqlType : gostring) : bool :=
  one_of (ToUpper (TrimSpace sqlType))
    [$"CREATE"; $"ALTER"; $"DROP"; $"TRUNCATE"; $"RENAME"; $"GRANT"; $"REVOKE"].
Definition isDDLSQLType (sqlType : gostring) : bool :=
  one_of (ToUpper (TrimSpace sqlType))
    [$"CREATE"; $"ALTER"; $"DROP"; $"TRUNCATE"; $"RENAME"].
Definition isPrivilegeSQLType (sqlType : gostring) : bool :=
  one_of (ToUpper (TrimSpace sqlType)) [$"GRANT"; $"REVOKE"].
(** [query_change.go] *)
Definition isSupportedWriteExecuteType (sqlType : gostring) : bool :=
  one_of (ToUpper (TrimSpace sqlType)) [$"INSERT"; $"UPDATE"; $"DELETE"].

Definition isSupportedCreateDDL (tokens : list gostring) : bool :=
  match tokens with
  | t0 :: t1 :: rest =>
    if negb (one_of t0 [$"create"]) then false
    else
      let third (w : gostring) :=
        match rest with t2 :: _ => one_of t2 [w] | [] => false end in
      if one_of t1 [$"table"; $"index"] then true
      else if one_of t1 [$"temporary"] then third $"table"
      else if one_of t1 [$"unique"; $"fulltext"; $"spatial"] then third $"index"
      else false
  | _ => false
  end.

Definition isSupportedWriteExplainSQLType (dbType sqlType : gostring) : bool :=
  let sqlType := ToUpper (TrimSpace sqlType) in
  let t := normalizeDBType dbType in
  if one_of t [[]; DBTypeMySQL; DBTypeMariaDB; DBTypeTiDB; DBTypeOceanBase]
  then one_of sqlType [$"INSERT"; $"UPDATE"; $"DELETE"; $"REPLACE"]
  else if one_of t [DBTypePostgreSQL; DBTypeOpenGauss; DBTypeKingbase]
  then one_of sqlType [$"INSERT"; $"UPDATE"; $"DELETE"; $"MERGE"]
  else false.

(** The [forbidden] maps. *)
Definition forbidden_write_explain : list gostring :=
  [$"call"; $"exec"; $"execute"; $"load"; $"lock"; $"unlock"; $"outfile"; $"dumpfile";
   $"load_file"; $"sleep"; $"benchmark"].
Definition forbidden_read_only : list gostring :=
  [$"insert"; $"update"; $"delete"; $"drop"; $"truncate"; $"alter"; $"create"; $"grant";
   $"revoke"; $"replace"; $"call"; $"exec"; $"execute"; $"merge"; $"load"; $"lock";
   $"unlock"; $"set"; $"use"; $"into"; $"outfile"; $"dumpfile"; $"load_file"; $"sleep";
   $"benchmark"].

(** The loop of [findForbidden...]: the first token of the map, upper-cased. *)
Definition find_forbidden (forbidden tokens : list gostring) : option gostring :=
  ToUpper <$> List.find (fun token => one_of token forbidden) tokens.
Definition findForbiddenWriteExplainKeyword (sqlText : gostring) : option gostring :=
  find_forbidden forbidden_write_explain (sqlKeywords sqlText).
Definition findForbiddenSQLKeyword (sqlText : gostring) : option gostring :=
  find_forbidden forbidden_read_only (sqlKeywords sqlText).

Definition shouldAppendLimit (firstKeyword tokenText : gostring) : bool :=
  if one_of (ToLower firstKeyword) [$"select"; $"with"]
  then negb (existsb (fun token => one_of token [$"limit"]) (sqlKeywords tokenText))
  else false.

(** ** Denials *)
Definition denySQL (message : gostring) : SQLSafetyResult :=
  {| Allowed := false; SQLText := []; SQLType := $"UNKNOWN"; Message := message |}.

Definition denyWriteSQL (r : SQLWriteSafetyResult) (message : gostring) : SQLWriteSafetyResult :=
  {| w_Allowed := false; w_SQLText := w_SQLText r; w_SQLType := w_SQLType r;
     w_RiskLevel := w_RiskLevel r; w_ConfirmRequired := w_ConfirmRequired r;
     w_ReasonRequired := w_ReasonRequired r; w_RowsAffectedLimit := w_RowsAffectedLimit r;
     w_Message := message |}.

Definition denyDDLSQL (r : SQLDDLSafetyResult) (message : gostring) : SQLDDLSafetyResult :=
  {| d_Allowed := false; d_SQLText := d_SQLText r; d_SQLType := d_SQLType r;
     d_RiskLevel := d_RiskLevel r; d_ConfirmRequired := d_ConfirmRequired r;
     d_ReasonRequired := d_ReasonRequired r; d_BackupRequired := d_BackupRequired r;
     d_Message := message |}.

Definition max_sql_runes : Z := 20000.
Definition too_long (trimmed : gostring) : bool := max_sql_runes <? Z.of_nat (length trimmed).

(** ** Read-only statements *)
Definition analyzeReadOnlySQL (sqlText : gostring) (opts : sqlAnalyzeOptions) : SQLSafetyResult :=
  let trimmed := TrimSpace sqlText in
  if bool_decide (trimmed = []) then denySQL $"SQL 不能为空"
  else if too_long trimmed then denySQL $"SQL 长度不能超过 20000 个字符"
  else if hasExecutableSQLComment trimmed then denySQL $"禁止使用数据库可执行注释"
  else if hasUnsafeSemicolon trimmed then denySQL $"仅允许执行单条 SQL，禁止多语句"
  else
    let withoutTrailingSemicolon := trimTrailingStatementSemicolon trimmed in
    let normalized := stripSQLComments withoutTrailingSemicolon in
    let first := firstSQLKeyword normalized in
    if bool_decide (first = []) then denySQL $"无法识别 SQL 类型"
    else if negb (isAllowedReadOnlyKeyword first) then denySQL $"仅允许执行只读查询"
    else
      let tokenText := maskSQLLiteralsAndComments withoutTrailingSemicolon in
      if hasUnsafeNumericKeywordToken tokenText
      then denySQL $"SQL 存在数字和关键字粘连，无法安全识别"
      else match findForbiddenSQLKeyword tokenText with
      | Some keyword => denySQL ($"仅允许执行只读查询，禁止关键字: " ++ keyword)
      | None =>
        {| Allowed := true;
           SQLText :=
             if appendLimit opts && (0 <? opt_limit opts) && shouldAppendLimit first tokenText
             then withoutTrailingSemicolon ++ $" LIMIT " ++ fmt_d (opt_limit opts)
             else withoutTrailingSemicolon;
           SQLType := ToUpper first;
           Message := $"通过只读 SQL 校验" |}
      end.

Definition AnalyzeReadOnlySQLByDB (dbType sqlText : gostring) (limit : Z) : SQLSafetyResult :=
  analyzeReadOnlySQL sqlText
    {| appendLimit := supportsAutoAppendLimit dbType; opt_limit := limit |}.
Definition AnalyzeReadOnlySQL (sqlText : gostring) (limit : Z) : SQLSafetyResult :=
  AnalyzeReadOnlySQLByDB [] sqlText limit.
Definition AnalyzeReadOnlySQLRaw (sqlText : gostring) : SQLSafetyResult :=
  analyzeReadOnlySQL sqlText {| appendLimit := false; opt_limit := 0 |}.

(** ** EXPLAIN of a query *)
Definition explain_ok (sql : gostring) (msg : gostring) : SQLSafetyResult :=
  {| Allowed := true; SQLText := sql; SQLType := $"EXPLAIN"; Message := msg |}.

Definition AnalyzeExplainSQLByDB (dbType sqlText : gostring) : SQLSafetyResult :=
  if negb (supportsExplain dbType) then
    if bool_decide (TrimSpace dbType = []) then denySQL $"当前数据库类型暂不支持执行计划"
    else denySQL (DBTypeText dbType ++ $" 暂不支持执行计划")
  else
    let base := AnalyzeReadOnlySQLRaw sqlText in
    if negb (Allowed base) then base
    else
      match sqlKeywords (maskSQLLiteralsAndComments (SQLText base)) with
      | [] => denySQL $"无法识别 SQL 类型"
      | first :: more =>
        if one_of first [$"explain"] then
          match more with
          | [] => denySQL $"EXPLAIN 后必须跟只读查询"
          | second :: _ =>
            if one_of second [$"analyze"]
            then denySQL $"执行计划仅支持 EXPLAIN，不允许 EXPLAIN ANALYZE"
            else if negb (one_of second [$"select"]) && negb (one_of second [$"with"])
            then denySQL $"执行计划仅支持 SELECT / WITH 查询"
            else explain_ok (SQLText base) $"通过执行计划 SQL 校验"
          end
        else if negb (one_of first [$"select"]) && negb (one_of first [$"with"])
        then denySQL $"执行计划仅支持 SELECT / WITH 查询"
        else explain_ok ($"EXPLAIN " ++ SQLText base) $"通过执行计划 SQL 校验"
      end.

Definition AnalyzeExplainSQL (sqlText : gostring) : SQLSafetyResult :=
  AnalyzeExplainSQLByDB [] sqlText.

Definition policy_or_default (policy : option DatabaseWritePolicy) : DatabaseWritePolicy :=
  default defaultDatabaseWritePolicy policy.

(** ** EXPLAIN of a write statement *)

(** The checks once the EXPLAIN prefix is read and [statementKeyword] known. *)
Definition write_explain_statement (dbType : gostring) (policy : DatabaseWritePolicy)
    (tokenText withoutTrailingSemicolon : gostring) (explicitExplain : bool)
    (statementKeyword : gostring) : SQLSafetyResult :=
  if one_of statementKeyword [$"with"]
  then denySQL $"写 SQL 执行计划暂不支持 WITH 语句"
  else
  let '(sqlType, _, knownWriteType) := classifyWriteSQLKeyword statementKeyword in
  if negb knownWriteType
  then denySQL $"写 SQL 执行计划仅支持 INSERT / UPDATE / DELETE / REPLACE / MERGE"
  else if isDDLOrPrivilegeSQLType sqlType
  then denySQL $"DDL 不支持执行计划，请使用 DDL 检查"
  else if negb (isSupportedWriteExplainSQLType dbType sqlType)
  then denySQL (DBTypeText dbType ++ $" 暂不支持 " ++ sqlType ++ $" 执行计划")
  else match findForbiddenWriteExplainKeyword tokenText with
  | Some keyword => denySQL ($"写 SQL 执行计划禁止关键字: " ++ keyword)
  | None =>
    if negb (WriteExplainEnabled policy)
    then denySQL $"数据库写 SQL 执行计划开关未开启"
    else explain_ok
           (if explicitExplain then withoutTrailingSemicolon
            else $"EXPLAIN " ++ withoutTrailingSemicolon)
           $"通过写 SQL 执行计划校验"
  end.

Definition AnalyzeWriteExplainSQLByDB (dbType sqlText : gostring)
    (policy : option DatabaseWritePolicy) : SQLSafetyResult :=
  let policy := policy_or_default policy in
  if negb (supportsWriteExplain dbType) then
    if bool_decide (TrimSpace dbType = []) then denySQL $"当前数据库类型暂不支持写 SQL 执行计划"
    else denySQL (DBTypeText dbType ++ $" 暂不支持写 SQL 执行计划")
  else
  let trimmed := TrimSpace sqlText in
  if bool_decide (trimmed = []) then denySQL $"SQL 不能为空"
  else if too_long trimmed then denySQL $"SQL 长度不能超过 20000 个字符"
  else if hasExecutableSQLComment trimmed then denySQL $"禁止使用数据库可执行注释"
  else if hasUnsafeSemicolon trimmed then denySQL $"仅允许执行单条 SQL，禁止多语句"
  else
  let withoutTrailingSemicolon := trimTrailingStatementSemicolon trimmed in
  let tokenText := maskSQLLiteralsAndComments withoutTrailingSemicolon in
  if hasUnsafeNumericKeywordToken tokenText
  then denySQL $"SQL 存在数字和关键字粘连，无法安全识别"
  else match sqlKeywords tokenText with
  | [] => denySQL $"无法识别 SQL 类型"
  | first :: more =>
    let explicitExplain := one_of first [$"explain"] in
    let checked := write_explain_statement dbType policy tokenText withoutTrailingSemicolon
                     explicitExplain in
    if explicitExplain then
      match more with
      | [] => denySQL $"EXPLAIN 后必须跟写 SQL"
      | second :: _ =>
        if one_of second [$"analyze"]
        then denySQL $"写 SQL 执行计划仅支持 EXPLAIN，不允许 EXPLAIN ANALYZE"
        else checked second
      end
    else checked first
  end.

(** ** Write statements *)
Definition AnalyzeWriteSQLByDB (dbType sqlText : gostring)
    (policy : option DatabaseWritePolicy) : SQLWriteSafetyResult :=
  let policy := policy_or_default policy in
  (* the fields of [result] that the code overwrites on its way *)
  let res (text sqlType risk : gostring) (confirm : bool) : SQLWriteSafetyResult :=
    {| w_Allowed := false; w_SQLText := text; w_SQLType := sqlType; w_RiskLevel := risk;
       w_ConfirmRequired := confirm; w_ReasonRequired := OperationReasonRequired policy;
       w_RowsAffectedLimit := normalizeMaxAffectedRows (MaxAffectedRows policy);
       w_Message := [] |} in
  let result := res [] $"UNKNOWN" DatabaseQueryRiskLow false in
  if negb (supportsWriteValidation dbType) then
    if bool_decide (TrimSpace dbType = [])
    then denyWriteSQL result $"当前数据库类型暂不支持写操作预检查"
    else denyWriteSQL result (DBTypeText dbType ++ $" 暂不支持写操作预检查")
  else
  let trimmed := TrimSpace sqlText in
  if bool_decide (trimmed = []) then denyWriteSQL result $"SQL 不能为空"
  else if too_long trimmed then denyWriteSQL result $"SQL 长度不能超过 20000 个字符"
  else if hasExecutableSQLComment trimmed then denyWriteSQL result $"禁止使用数据库可执行注释"
  else if hasUnsafeSemicolon trimmed
  then denyWriteSQL result $"仅允许执行单条 SQL，禁止多语句"
  else
  let withoutTrailingSemicolon := trimTrailingStatementSemicolon trimmed in
  let result := res withoutTrailingSemicolon $"UNKNOWN" DatabaseQueryRiskLow false in
  let normalized := stripSQLComments withoutTrailingSemicolon in
  let first := firstSQLKeyword normalized in
  if bool_decide (first = []) then denyWriteSQL result $"无法识别 SQL 类型"
  else if EqualFold first $"with" then
    denyWriteSQL
      (res withoutTrailingSemicolon $"WITH" DatabaseQueryRiskHigh (HighRiskRequiresConfirm policy))
      $"暂不支持 WITH 写操作预检查"
  else
  let '(sqlType, riskLevel, ok) := classifyWriteSQLKeyword first in
  let confirm := HighRiskRequiresConfirm policy && requiresWriteConfirmation riskLevel in
  let result := res withoutTrailingSemicolon sqlType riskLevel confirm in
  if negb ok then denyWriteSQL result $"当前接口仅支持写操作预检查"
  else if negb (isSupportedWriteExecuteType sqlType) then
    if isDDLOrPrivilegeSQLType sqlType
    then denyWriteSQL result
           $"当前受控写入仅支持 INSERT / UPDATE / DELETE，DDL 请使用 DDL 检查 / DDL 执行"
    else denyWriteSQL result $"当前仅支持 INSERT / UPDATE / DELETE 写操作执行"
  else if negb (supportsWriteExecution dbType)
  then denyWriteSQL result (DBTypeText dbType ++ $" 写操作执行将在后续批次接入")
  else
  let tokenText := maskSQLLiteralsAndComments withoutTrailingSemicolon in
  if hasUnsafeNumericKeywordToken tokenText
  then denyWriteSQL result $"SQL 存在数字和关键字粘连，无法安全识别"
  else if one_of sqlType [$"DROP"; $"TRUNCATE"]
  then denyWriteSQL result $"默认禁止 DROP / TRUNCATE"
  else if one_of sqlType [$"UPDATE"; $"DELETE"] && negb (containsSQLToken tokenText $"where")
  then denyWriteSQL
         (res withoutTrailingSemicolon sqlType DatabaseQueryRiskCritical
            (HighRiskRequiresConfirm policy &&
             requiresWriteConfirmation DatabaseQueryRiskCritical))
         $"默认禁止无 WHERE 的 UPDATE / DELETE"
  else if negb (WriteEnabled policy)
  then denyWriteSQL result $"数据库写操作总开关未开启"
  else
    {| w_Allowed := true; w_SQLText := withoutTrailingSemicolon; w_SQLType := sqlType;
       w_RiskLevel := riskLevel; w_ConfirmRequired := confirm;
       w_ReasonRequired := OperationReasonRequired policy;
       w_RowsAffectedLimit := normalizeMaxAffectedRows (MaxAffectedRows policy);
       w_Message := if confirm then $"通过写操作预检查，执行前需二次确认"
                    else $"通过写操作预检查" |}.

(** ** DDL *)
Definition AnalyzeDDLSQLByDB (dbType sqlText : gostring)
    (policy : option DatabaseWritePolicy) : SQLDDLSafetyResult :=
  let policy := policy_or_default policy in
  let res (text sqlType risk : gostring) (confirm : bool) : SQLDDLSafetyResult :=
    {| d_Allowed := false; d_SQLText := text; d_SQLType := sqlType; d_RiskLevel := risk;
       d_ConfirmRequired := confirm; d_ReasonRequired := DDLReasonRequired policy;
       d_BackupRequired := DDLRequireBackupHint policy; d_Message := [] |} in
  let result := res [] $"UNKNOWN" DatabaseQueryRiskHigh (DDLHighRiskConfirm policy) in
  if negb (supportsDDLValidation dbType) then
    if bool_decide (TrimSpace dbType = [])
    then denyDDLSQL result $"当前数据库类型暂不支持 DDL 结构变更检查"
    else denyDDLSQL result (DBTypeText dbType ++ $" 暂不支持 DDL 结构变更检查")
  else
  let trimmed := TrimSpace sqlText in
  if bool_decide (trimmed = []) then denyDDLSQL result $"SQL 不能为空"
  else if too_long trimmed then denyDDLSQL result $"SQL 长度不能超过 20000 个字符"
  else if hasExecutableSQLComment trimmed then denyDDLSQL result $"禁止使用数据库可执行注释"
  else if hasUnsafeSemicolon trimmed
  then denyDDLSQL result $"仅允许执行单条 SQL，禁止多语句"
  else
  let withoutTrailingSemicolon := trimTrailingStatementSemicolon trimmed in
  let result := res withoutTrailingSemicolon $"UNKNOWN" DatabaseQueryRiskHigh
                    (DDLHighRiskConfirm policy) in
  let tokenText := maskSQLLiteralsAndComments withoutTrailingSemicolon in
  if hasUnsafeNumericKeywordToken tokenText
  then denyDDLSQL result $"SQL 存在数字和关键字粘连，无法安全识别"
  else match sqlKeywords tokenText with
  | [] => denyDDLSQL result $"无法识别 SQL 类型"
  | (first :: _) as tokens =>
    let '(sqlType, riskLevel, knownWriteType) := classifyWriteSQLKeyword first in
    let confirm := DDLHighRiskConfirm policy && requiresWriteConfirmation riskLevel in
    let result := res withoutTrailingSemicolon sqlType riskLevel confirm in
    if negb knownWriteType || (negb (isDDLSQLType sqlType) && negb (isPrivilegeSQLType sqlType))
    then denyDDLSQL result $"当前接口仅支持 DDL 结构变更检查"
    else if isPrivilegeSQLType sqlType
    then denyDDLSQL result $"GRANT / REVOKE 属于账号权限变更，请走账号权限管理通道"
    else if one_of sqlType [$"DROP"; $"TRUNCATE"]
    then denyDDLSQL
           (res withoutTrailingSemicolon sqlType DatabaseQueryRiskCritical
              (DDLHighRiskConfirm policy && requiresWriteConfirmation DatabaseQueryRiskCritical))
           $"默认禁止 DROP / TRUNCATE"
    else if one_of sqlType [$"ALTER"; $"RENAME"]
    then denyDDLSQL result $"当前 DDL 执行仅支持 CREATE TABLE / CREATE INDEX"
    else if one_of sqlType [$"CREATE"] && negb (isSupportedCreateDDL tokens)
    then denyDDLSQL result $"当前 DDL 执行仅支持 CREATE TABLE / CREATE INDEX"
    else if negb (DDLEnabled policy)
    then denyDDLSQL result $"数据库 DDL 结构变更开关未开启"
    else
      {| d_Allowed := true; d_SQLText := withoutTrailingSemicolon; d_SQLType := sqlType;
         d_RiskLevel := riskLevel; d_ConfirmRequired := confirm;
         d_ReasonRequired := DDLReasonRequired policy;
         d_BackupRequired := DDLRequireBackupHint policy;
         d_Message := if confirm then $"通过 DDL 结构变更检查，执行前需二次确认"
                      else $"通过 DDL 结构变更检查" |}
  end.
End analysers.
