(* ===== verification/SqlSafetyFacts.v ===== *)
(** * What the statement checks let through

    The texts the analysers of SqlSafety accept, read with the grammar of
    SqlGrammar: one statement, no executable comment, no forbidden word in the
    code, the type and policy required. *)

From Stdlib Require Import ZArith Lia.
From stdpp Require Import base tactics option list numbers sets.
From S2P Require Import Prelude GoStrings SqlLex SqlGrammar SqlStatement SqlSafety.

Open Scope Z_scope.

Section properties.
Context `{U : UnicodeTables}.

(** The words of the code of a text, literals and comments left out. *)
Definition code_words (l : list segment) : list gostring := flat_map sqlKeywords (code_runs l).

(** A word of the code is among [ws], however the text is read. *)
Definition has_code_word (s : gostring) (ws : list gostring) : Prop :=
  forall l, wf_segments l -> render l = s -> exists w, w ∈ code_words l /\ w ∈ ws.
Definition no_code_word (s : gostring) (ws : list gostring) : Prop :=
  forall l, wf_segments l -> render l = s -> forall w, w ∈ code_words l -> w ∉ ws.

Lemma code_words_mask s l :
  wf_segments l -> render l = s -> sqlKeywords (maskSQLLiteralsAndComments s) = code_words l.
Proof. intros Hl <-. by apply keywords_of_masked. Qed.

Lemma find_forbidden_None forbidden tokens :
  find_forbidden forbidden tokens = None -> forall w, w ∈ tokens -> w ∉ forbidden.
Proof.
  unfold find_forbidden. intros H%fmap_None w Hw.
  apply list_elem_of_In in Hw. apply (List.find_none _ _ H) in Hw. by apply one_of_false in Hw.
Qed.

Lemma no_code_word_mask s forbidden :
  find_forbidden forbidden (sqlKeywords (maskSQLLiteralsAndComments s)) = None ->
  no_code_word s forbidden.
Proof.
  intros H l Hl Hs w Hw. rewrite (code_words_mask s l) in H by done.
  by eapply find_forbidden_None.
Qed.

(** ** What every accepted text satisfies *)

(** [base] is the text without its final semicolon. *)
Record statement_ok (sqlText base : gostring) : Prop := {
  ok_base : base = trimTrailingStatementSemicolon (TrimSpace sqlText);
  ok_nonempty : TrimSpace sqlText <> [];
  ok_length : Z.of_nat (length (TrimSpace sqlText)) <= 20000;
  ok_comments : forall l, wf_segments l -> render l = TrimSpace sqlText ->
    existsb is_exec_comment l = false;
  ok_single : single_statement base;
}.

Lemma statement_ok_intro sqlText :
  TrimSpace sqlText <> [] -> too_long (TrimSpace sqlText) = false ->
  hasExecutableSQLComment (TrimSpace sqlText) = false ->
  hasUnsafeSemicolon (TrimSpace sqlText) = false ->
  statement_ok sqlText (trimTrailingStatementSemicolon (TrimSpace sqlText)).
Proof.
  intros Hne Hlen Hexec Hsemi. split; [done | done | | | by apply single_statement_trim].
  - unfold too_long, max_sql_runes in Hlen. lia.
  - intros l Hl Hr. by rewrite <- hasExecutableSQLComment_render, Hr.
Qed.

(** The write types with their risk. *)
Definition sql_type_table : list (gostring * gostring) :=
  [($"INSERT", DatabaseQueryRiskMedium); ($"UPDATE", DatabaseQueryRiskHigh);
   ($"DELETE", DatabaseQueryRiskHigh); ($"REPLACE", DatabaseQueryRiskHigh);
   ($"CREATE", DatabaseQueryRiskHigh); ($"ALTER", DatabaseQueryRiskHigh);
   ($"DROP", DatabaseQueryRiskCritical); ($"TRUNCATE", DatabaseQueryRiskCritical);
   ($"RENAME", DatabaseQueryRiskHigh); ($"GRANT", DatabaseQueryRiskHigh);
   ($"REVOKE", DatabaseQueryRiskHigh); ($"MERGE", DatabaseQueryRiskHigh)].

Lemma classify_cases keyword sqlType risk :
  classifyWriteSQLKeyword keyword = (sqlType, risk, true) ->
  (sqlType, risk) ∈ sql_type_table.
Proof.
  unfold classifyWriteSQLKeyword, sql_type_table. rewrite !elem_of_cons.
  intros H. repeat case_if_in H; injection H as <- <-; try discriminate; tauto.
Qed.

(** The rows of the table that a test lets through, by evaluation. *)
Lemma classify_all (P : gostring * gostring -> bool) keyword sqlType risk :
  classifyWriteSQLKeyword keyword = (sqlType, risk, true) ->
  forallb P sql_type_table = true -> P (sqlType, risk) = true.
Proof.
  intros H%classify_cases HP. rewrite List.forallb_forall in HP.
  by apply HP, list_elem_of_In.
Qed.

Lemma write_execute_types keyword sqlType risk :
  classifyWriteSQLKeyword keyword = (sqlType, risk, true) ->
  isSupportedWriteExecuteType sqlType = true ->
  (sqlType = $"INSERT" /\ risk = DatabaseQueryRiskMedium) \/
  (sqlType ∈ [$"UPDATE"; $"DELETE"] /\ risk = DatabaseQueryRiskHigh).
Proof.
  intros H Ht.
  pose proof (classify_all (fun '(t, r) => implb (isSupportedWriteExecuteType t)
    (bool_decide (t = $"INSERT" /\ r = DatabaseQueryRiskMedium) ||
     bool_decide (t ∈ [$"UPDATE"; $"DELETE"] /\ r = DatabaseQueryRiskHigh))) _ _ _ H) as Hall.
  specialize (Hall ltac:(vm_compute; reflexivity)). cbv beta iota in Hall. rewrite Ht in Hall.
  simpl in Hall. apply orb_true_iff in Hall as [?|?]; bsimpl; tauto.
Qed.

(** ** Read-only statements *)

Lemma read_only_base sqlText opts :
  Allowed (analyzeReadOnlySQL sqlText opts) = true ->
  let base := trimTrailingStatementSemicolon (TrimSpace sqlText) in
  statement_ok sqlText base /\ no_code_word base forbidden_read_only /\
  isAllowedReadOnlyKeyword (firstSQLKeyword (stripSQLComments base)) = true /\
  SQLText (analyzeReadOnlySQL sqlText opts) =
    if appendLimit opts && (0 <? opt_limit opts) &&
       shouldAppendLimit (firstSQLKeyword (stripSQLComments base))
         (maskSQLLiteralsAndComments base)
    then base ++ $" LIMIT " ++ fmt_d (opt_limit opts) else base.
Proof.
  intros H base. unfold analyzeReadOnlySQL in *. fold base in H |- *.
  do 7 (case_match; [discriminate H|]). case_match; [discriminate H|]. bsimpl.
  split; [by apply statement_ok_intro|]. split; [by apply no_code_word_mask|]. done.
Qed.

(** C1: A read-only analysis accepts only a single statement of at most 20000
    runes without executable comment, whose code holds none of the forbidden
    words, however the text is read; what it hands on is that statement,
    possibly with the LIMIT clause appended. *)
Theorem read_only_accepts sqlText opts :
  Allowed (analyzeReadOnlySQL sqlText opts) = true ->
  exists base, statement_ok sqlText base /\ no_code_word base forbidden_read_only /\
    isAllowedReadOnlyKeyword (firstSQLKeyword (stripSQLComments base)) = true /\
    (SQLText (analyzeReadOnlySQL sqlText opts) = base \/
     appendLimit opts = true /\ 0 < opt_limit opts /\
     SQLText (analyzeReadOnlySQL sqlText opts) = base ++ $" LIMIT " ++ fmt_d (opt_limit opts)).
Proof.
  intros H. destruct (read_only_base _ _ H) as (Hok & Hno & Hk & Htext).
  exists (trimTrailingStatementSemicolon (TrimSpace sqlText)). do 3 (split; [done|]).
  rewrite Htext. case_match; [right | by left]. bsimpl. done.
Qed.

(** ** Write statements *)

Lemma normalizeMaxAffectedRows_pos l : 0 < normalizeMaxAffectedRows l.
Proof. unfold normalizeMaxAffectedRows, defaultMaxAffectedRows. case_match; lia. Qed.

Lemma containsSQLToken_where s :
  containsSQLToken s $"where" = bool_decide ($"where" ∈ sqlKeywords s).
Proof. reflexivity. Qed.


(** With no policy configured nothing that writes is let through: no write
    statement, no DDL and no EXPLAIN of a write statement. *)
Theorem no_policy_denies dbType sqlText :
  w_Allowed (AnalyzeWriteSQLByDB dbType sqlText None) = false /\
  d_Allowed (AnalyzeDDLSQLByDB dbType sqlText None) = false /\
  Allowed (AnalyzeWriteExplainSQLByDB dbType sqlText None) = false.
Proof.
  unfold AnalyzeWriteSQLByDB, AnalyzeDDLSQLByDB, AnalyzeWriteExplainSQLByDB,
    write_explain_statement, denySQL.
  repeat split; repeat (case_match; try done).
Qed.

(** ** DDL *)

(** What follows CREATE. *)
Inductive create_target : list gostring -> Prop :=
| ct_table more : create_target ($"table" :: more)
| ct_index more : create_target ($"index" :: more)
| ct_temporary more : create_target ($"temporary" :: $"table" :: more)
| ct_special w more :
    w ∈ [$"unique"; $"fulltext"; $"spatial"] -> create_target (w :: $"index" :: more).

Lemma supported_create tokens :
  isSupportedCreateDDL tokens = true ->
  exists more, tokens = $"create" :: more /\ create_target more.
Proof.
  destruct tokens as [|t0 [|t1 rest]]; [done..|]. unfold isSupportedCreateDDL.
  intros H. repeat (case_if_in H); try done; bsimpl;
    repeat match goal with Hx : one_of _ [_] = true |- _ =>
      apply one_of_true, list_elem_of_singleton in Hx as -> end.
  - match goal with Hx : one_of t1 _ = true |- _ => apply one_of_true in Hx end.
    exists (t1 :: rest). split; [done|]. set_unfold. naive_solver eauto using create_target.
  - destruct rest as [|t2 rest]; [done|]. apply one_of_true, list_elem_of_singleton in H as ->.
    eauto using create_target.
  - destruct rest as [|t2 rest]; [done|]. apply one_of_true, list_elem_of_singleton in H as ->.
    match goal with Hx : one_of t1 [_; _; _] = true |- _ => apply one_of_true in Hx end.
    eauto using create_target.
Qed.

Lemma ddl_create_type keyword sqlType risk :
  classifyWriteSQLKeyword keyword = (sqlType, risk, true) ->
  isDDLSQLType sqlType = true -> one_of sqlType [$"DROP"; $"TRUNCATE"] = false ->
  one_of sqlType [$"ALTER"; $"RENAME"] = false ->
  sqlType = $"CREATE" /\ risk = DatabaseQueryRiskHigh.
Proof.
  intros H Ht Hd Ha.
  pose proof (classify_all (fun '(t, r) => implb (isDDLSQLType t &&
      negb (one_of t [$"DROP"; $"TRUNCATE"]) && negb (one_of t [$"ALTER"; $"RENAME"]))
    (bool_decide (t = $"CREATE" /\ r = DatabaseQueryRiskHigh))) _ _ _ H) as Hall.
  specialize (Hall ltac:(vm_compute; reflexivity)). cbv beta iota in Hall.
  rewrite Ht, Hd, Ha in Hall. simpl in Hall. by bsimpl.
Qed.

(** A DDL statement is accepted only for MySQL, MariaDB and PostgreSQL (or
    an unnamed type), with the DDL switch on, as a single statement whose code
    starts with CREATE TABLE, CREATE TEMPORARY TABLE or CREATE INDEX with its
    variants; DROP, TRUNCATE, ALTER, RENAME, GRANT and REVOKE never are. *)
Theorem ddl_accepts dbType sqlText policy r :
  AnalyzeDDLSQLByDB dbType sqlText policy = r -> d_Allowed r = true ->
  statement_ok sqlText (d_SQLText r) /\
  DDLEnabled (policy_or_default policy) = true /\ supportsDDLValidation dbType = true /\
  d_SQLType r = $"CREATE" /\ d_RiskLevel r = DatabaseQueryRiskHigh /\
  d_ConfirmRequired r = DDLHighRiskConfirm (policy_or_default policy) /\
  (forall l, wf_segments l -> render l = d_SQLText r ->
    exists more, code_words l = $"create" :: more /\ create_target more).
Proof.
  intros <- H. unfold AnalyzeDDLSQLByDB in *.
  case_match; [by case_match|]. do 5 (case_match; [discriminate H|]).
  destruct (sqlKeywords (maskSQLLiteralsAndComments
    (trimTrailingStatementSemicolon (TrimSpace sqlText)))) as [|first more] eqn:Htok; [done|].
  destruct (classifyWriteSQLKeyword first) as [[sqlType risk] known] eqn:Hclass.
  do 6 (case_match; [discriminate H|]).
  cbn [d_SQLText d_SQLType d_RiskLevel d_ConfirmRequired]. bsimpl.
  assert (known = true) as -> by done.
  assert (sqlType = $"CREATE" /\ risk = DatabaseQueryRiskHigh) as [-> ->].
  { apply ddl_create_type with first; try done.
    match goal with Hx : negb (isDDLSQLType _) && _ = false |- _ =>
      apply andb_false_iff in Hx as [Hx%negb_false_iff|Hx%negb_false_iff]; congruence end. }
  split; [by apply statement_ok_intro|]. do 4 (split; [done|]).
  split; [apply andb_true_r|]. intros l Hl Hr. rewrite <- (code_words_mask _ _ Hl Hr), Htok.
  apply supported_create.
  match goal with Hx : one_of _ _ && negb (isSupportedCreateDDL _) = false |- _ =>
    by apply andb_false_iff in Hx as [Hx|Hx%negb_false_iff] end.
Qed.

(** ** EXPLAIN *)

Lemma explain_prefix_keywords s :
  sqlKeywords (maskSQLLiteralsAndComments ($"EXPLAIN " ++ s)) =
  $"explain" :: sqlKeywords (maskSQLLiteralsAndComments s).
Proof. reflexivity. Qed.

(** The words of the code of [s] are EXPLAIN, one of [ws] and more. *)
Definition explains (s : gostring) (P : gostring -> Prop) : Prop :=
  forall l, wf_segments l -> render l = s ->
    exists w more, code_words l = $"explain" :: w :: more /\ P w.

Lemma explains_intro (s : gostring) (P : gostring -> Prop) w more :
  sqlKeywords (maskSQLLiteralsAndComments s) = $"explain" :: w :: more -> P w -> explains s P.
Proof. intros H HP l Hl Hr. rewrite <- (code_words_mask _ _ Hl Hr), H. eauto. Qed.

Lemma select_or_with w :
  negb (one_of w [$"select"]) && negb (one_of w [$"with"]) = false -> w ∈ [$"select"; $"with"].
Proof.
  intros [H|H]%andb_false_iff; apply negb_false_iff, one_of_true in H; set_unfold; tauto.
Qed.

(** What the EXPLAIN check of a query hands on is the checked statement,
    prefixed with EXPLAIN when it does not start with it; its code is EXPLAIN
    followed by SELECT or WITH, never by ANALYZE, and no word of the statement is
    forbidden: the plan is shown, the statement not run. *)
Theorem explain_accepts dbType sqlText :
  Allowed (AnalyzeExplainSQLByDB dbType sqlText) = true ->
  exists base, statement_ok sqlText base /\ no_code_word base forbidden_read_only /\
    SQLText (AnalyzeExplainSQLByDB dbType sqlText) ∈ [base; $"EXPLAIN " ++ base] /\
    explains (SQLText (AnalyzeExplainSQLByDB dbType sqlText))
      (fun w => w ∈ [$"select"; $"with"]).
Proof.
  intros H. unfold AnalyzeExplainSQLByDB in *. case_match; [by case_match|].
  case_match; bsimpl; [congruence|].
  match goal with Hx : Allowed _ = true |- _ =>
    destruct (read_only_base _ _ Hx) as (Hok & Hno & _ & Htext) end.
  simpl in Htext. unfold AnalyzeReadOnlySQLRaw in *. rewrite Htext in *. clear Htext.
  eexists. split; [done|]. split; [done|].
  destruct (sqlKeywords _) as [|first more] eqn:Htok; [done|].
  destruct (one_of first [$"explain"]) eqn:Hex.
  - apply one_of_true, list_elem_of_singleton in Hex as ->.
    destruct more as [|second more]; [done|]. do 2 (case_match; [done|]).
    split; [left|]. eapply explains_intro; [exact Htok|].
    by apply select_or_with.
  - case_match; [done|]. split; [right; left|].
    eapply explains_intro; [etrans; [apply explain_prefix_keywords|]; by rewrite Htok|].
    by apply select_or_with.
Qed.

Definition explained_write_words : list gostring :=
  [$"insert"; $"update"; $"delete"; $"replace"; $"merge"].
Definition explained_write_types : list gostring :=
  [$"INSERT"; $"UPDATE"; $"DELETE"; $"REPLACE"; $"MERGE"].

Lemma write_explain_type dbType sqlType :
  isSupportedWriteExplainSQLType dbType sqlType = true ->
  ToUpper (TrimSpace sqlType) ∈ explained_write_types.
Proof.
  unfold isSupportedWriteExplainSQLType. intros H.
  repeat case_if_in H; [..|done]; apply one_of_true in H; revert H;
    unfold explained_write_types; rewrite !elem_of_cons, !elem_of_nil; tauto.
Qed.

Lemma classify_explained keyword sqlType risk :
  classifyWriteSQLKeyword keyword = (sqlType, risk, true) ->
  ToUpper (TrimSpace sqlType) ∈ explained_write_types ->
  ToLower (TrimSpace keyword) ∈ explained_write_words.
Proof.
  unfold classifyWriteSQLKeyword. intros H Ht.
  repeat case_if_in H; injection H as <- <-; try discriminate;
    match goal with
    | Hx : one_of _ _ = true |- _ =>
      apply one_of_true, list_elem_of_singleton in Hx; rewrite Hx
    end;
    first [ apply one_of_true; vm_compute; reflexivity
          | exfalso; revert Ht; apply one_of_false; vm_compute; reflexivity ].
Qed.

Lemma write_explain_checked dbType policy base explicit keyword :
  let tokenText := maskSQLLiteralsAndComments base in
  let r := write_explain_statement dbType policy tokenText base explicit keyword in
  Allowed r = true ->
  no_code_word base forbidden_write_explain /\ WriteExplainEnabled policy = true /\
  SQLText r = (if explicit then base else $"EXPLAIN " ++ base) /\
  ToLower (TrimSpace keyword) ∈ explained_write_words.
Proof.
  intros tokenText r H. subst tokenText r. unfold write_explain_statement in *.
  case_match; [done|].
  destruct (classifyWriteSQLKeyword keyword) as [[sqlType risk] known] eqn:Hclass.
  do 5 (case_match; [discriminate H|]). bsimpl. subst known.
  split; [by apply no_code_word_mask|]. do 2 (split; [done|]).
  eapply classify_explained; [done|]. by eapply write_explain_type.
Qed.

(** What the EXPLAIN check of a write statement hands on is the checked
    statement, prefixed with EXPLAIN when it does not start with it, and only
    with the switch on; the word after EXPLAIN is a data-modifying one, so never
    ANALYZE, which would run the statement. *)
Theorem write_explain_accepts dbType sqlText policy :
  let r := AnalyzeWriteExplainSQLByDB dbType sqlText policy in
  Allowed r = true ->
  exists base, statement_ok sqlText base /\ no_code_word base forbidden_write_explain /\
    WriteExplainEnabled (policy_or_default policy) = true /\
    SQLText r ∈ [base; $"EXPLAIN " ++ base] /\
    explains (SQLText r) (fun w => ToLower (TrimSpace w) ∈ explained_write_words).
Proof.
  intros r H. subst r. unfold AnalyzeWriteExplainSQLByDB in *. case_match; [by case_match|].
  do 5 (case_match; [discriminate H|]). bsimpl.
  exists (trimTrailingStatementSemicolon (TrimSpace sqlText)).
  split; [by apply statement_ok_intro|].
  destruct (sqlKeywords _) as [|first more] eqn:Htok; [done|].
  destruct (one_of first [$"explain"]) eqn:Hex.
  - apply one_of_true, list_elem_of_singleton in Hex as ->.
    destruct more as [|second more]; [done|]. case_match; [done|].
    destruct (write_explain_checked _ _ _ _ _ H) as (Hno & Hon & Htext & Hw).
    do 2 (split; [done|]). rewrite Htext. split; [left|].
    by eapply explains_intro.
  - destruct (write_explain_checked _ _ _ _ _ H) as (Hno & Hon & Htext & Hw).
    do 2 (split; [done|]). rewrite Htext. split; [right; left|].
    eapply explains_intro; [by rewrite explain_prefix_keywords, Htok | done].
Qed.

(** ** The appended LIMIT *)

Lemma digits_plain z : 0 < z -> forallb plain_rune (fmt_d z) = true.
Proof.
  intros Hz. apply List.forallb_forall. intros r Hr%list_elem_of_In.
  pose proof (fmt_d_digits z ltac:(lia)) as Hd. rewrite list.Forall_forall in Hd.
  specialize (Hd r Hr). unfold is_ascii_digit, plain_rune in *. lia.
Qed.

Lemma sqlKeywords_app_sep a r b :
  is_word_rune r = false -> sqlKeywords (a ++ r :: b) = sqlKeywords a ++ sqlKeywords b.
Proof. apply sqlKeywords_loop_sep. Qed.

(** When the literals and comments of a checked SELECT or WITH are closed,
    the text handed on for a positive limit has the word LIMIT in its code. *)
Theorem limit_enforced dbType sqlText limit l :
  let r := AnalyzeReadOnlySQLByDB dbType sqlText limit in
  let base := trimTrailingStatementSemicolon (TrimSpace sqlText) in
  Allowed r = true -> supportsAutoAppendLimit dbType = true -> 0 < limit ->
  ToLower (firstSQLKeyword (stripSQLComments base)) ∈ [$"select"; $"with"] ->
  wf_segments l -> render l = base -> forallb is_closed l = true ->
  exists l', wf_segments l' /\ render l' = SQLText r /\ $"limit" ∈ code_words l'.
Proof.
  intros r base H Hdb Hlim Hfirst Hl Hr Hclosed.
  destruct (read_only_base _ _ H) as (_ & _ & _ & Htext). fold base in Htext.
  change (SQLText (analyzeReadOnlySQL _ _)) with (SQLText r) in Htext.
  clearbody r. cbn [appendLimit opt_limit] in Htext. rewrite Hdb in Htext.
  rewrite (proj2 (Z.ltb_lt _ _) Hlim) in Htext. cbn [andb] in Htext.
  unfold shouldAppendLimit in Htext. rewrite (proj2 (one_of_true _ _) Hfirst) in Htext.
  destruct (existsb _ _) eqn:Hhas; cbn [negb] in Htext.
  - exists l. split; [done|]. split; [rewrite Hr; by symmetry|].
    apply List.existsb_exists in Hhas as (w & Hw & Hw').
    apply one_of_true, list_elem_of_singleton in Hw' as ->.
    apply list_elem_of_In in Hw. by rewrite (code_words_mask _ _ Hl Hr) in Hw.
  - exists (l ++ (SCode <$> $" LIMIT " ++ fmt_d limit)).
    assert (forallb plain_rune ($" LIMIT " ++ fmt_d limit) = true) as Hplain.
    { rewrite forallb_app, digits_plain by done. done. }
    assert (wf_segments (l ++ (SCode <$> $" LIMIT " ++ fmt_d limit))) as Hwf.
    { apply wf_segments_app; rewrite ?render_plain; first [done | by apply wf_plain]. }
    split; [done|].
    split; [rewrite render_app, render_plain, Hr; by symmetry|].
    rewrite <- (code_words_mask _ _ Hwf eq_refl), mask_render, flat_map_app, mask_plain by done.
    change ($" LIMIT " ++ fmt_d limit) with (c_space :: $"LIMIT" ++ c_space :: fmt_d limit).
    rewrite sqlKeywords_app_sep by done. apply elem_of_app. right. left.
Qed.

End properties.

(** ** Concrete runs *)
Section examples.
#[local] Existing Instance sample_tables.

(** The policy of a deployment that opened everything. *)
Definition open_policy : DatabaseWritePolicy := {|
  WriteEnabled := true; WriteExplainEnabled := true; DDLEnabled := true;
  DDLHighRiskConfirm := true; DDLReasonRequired := true; DDLRequireBackupHint := true;
  HighRiskRequiresConfirm := true; OperationReasonRequired := true; MaxAffectedRows := 10 |}.

Definition read_opts : sqlAnalyzeOptions := {| appendLimit := true; opt_limit := 100 |}.
Definition sample_read := $"select id from t where note = 'a;b' /* c */ ;".

Lemma read_only_accepts_witness :
  exists base, statement_ok sample_read base /\ no_code_word base forbidden_read_only /\
    isAllowedReadOnlyKeyword (firstSQLKeyword (stripSQLComments base)) = true /\
    (SQLText (analyzeReadOnlySQL sample_read read_opts) = base \/
     true = true /\ 0 < 100 /\
     SQLText (analyzeReadOnlySQL sample_read read_opts) = base ++ $" LIMIT " ++ fmt_d 100).
Proof. apply (read_only_accepts sample_read read_opts). vm_compute. reflexivity. Defined.

Definition sample_write := AnalyzeWriteSQLByDB $"MySQL" $"update t set a = 1 where id = 2"
  (Some open_policy).


Definition sample_ddl := AnalyzeDDLSQLByDB $"postgresql" $"CREATE UNIQUE INDEX i ON t (a)"
  (Some open_policy).

Lemma ddl_accepts_witness : d_Allowed sample_ddl = true /\ d_SQLType sample_ddl = $"CREATE".
Proof.
  split; [vm_compute; reflexivity|].
  apply (ddl_accepts $"postgresql" $"CREATE UNIQUE INDEX i ON t (a)" (Some open_policy)
    sample_ddl eq_refl). vm_compute. reflexivity.
Defined.

Lemma explain_accepts_witness :
  exists base, statement_ok $"select 1" base /\ no_code_word base forbidden_read_only /\
    SQLText (AnalyzeExplainSQLByDB $"tidb" $"select 1") ∈ [base; $"EXPLAIN " ++ base] /\
    explains (SQLText (AnalyzeExplainSQLByDB $"tidb" $"select 1"))
      (fun w => w ∈ [$"select"; $"with"]).
Proof. apply explain_accepts. vm_compute. reflexivity. Defined.

Lemma write_explain_accepts_witness :
  exists base, statement_ok $"explain delete from t" base /\
    no_code_word base forbidden_write_explain /\ true = true /\
    SQLText (AnalyzeWriteExplainSQLByDB $"mysql" $"explain delete from t" (Some open_policy))
      ∈ [base; $"EXPLAIN " ++ base] /\
    explains
      (SQLText (AnalyzeWriteExplainSQLByDB $"mysql" $"explain delete from t" (Some open_policy)))
      (fun w => ToLower (TrimSpace w) ∈ explained_write_words).
Proof.
  apply (write_explain_accepts $"mysql" $"explain delete from t" (Some open_policy)).
  vm_compute. reflexivity.
Defined.

Lemma limit_enforced_witness :
  exists l', wf_segments l' /\
    render l' = SQLText (AnalyzeReadOnlySQLByDB $"mysql" $"select 1" 100) /\
    $"limit" ∈ code_words l'.
Proof.
  apply (limit_enforced $"mysql" $"select 1" 100 (SCode <$> $"select 1"));
    try (vm_compute; reflexivity).
  - apply one_of_true. vm_compute. reflexivity.
  - apply wf_plain. reflexivity.
Defined.

(** The two dashes of MySQL open a comment only before white space: here MySQL
    reads [1 - -1] and runs the rest, which the check took for a comment. *)
Example dash_pair_hides_outfile :
  Allowed (AnalyzeReadOnlySQLByDB DBTypeMySQL $"select 1--1 into outfile '/tmp/x'" 0) = true.
Proof. vm_compute. reflexivity. Qed.

(** [#] opens no comment in PostgreSQL. *)
Example hash_hides_second_statement :
  Allowed (AnalyzeReadOnlySQLByDB DBTypePostgreSQL $"select 1 # 2; drop table t" 0) = true.
Proof. vm_compute. reflexivity. Qed.

(** The appended LIMIT ends up in a trailing comment: [is_closed] is needed in
    [limit_enforced]. *)
Example limit_swallowed_by_comment :
  SQLText (AnalyzeReadOnlySQLByDB DBTypeMySQL $"select * from t -- x" 100)
    = $"select * from t -- x LIMIT 100" /\
  $"limit" ∉ sqlKeywords (maskSQLLiteralsAndComments $"select * from t -- x LIMIT 100").
Proof. split; [vm_compute; reflexivity|]. apply one_of_false. vm_compute. reflexivity. Qed.
End examples.
