(* ===== verification/WriteExec.v ===== *)
(** * Running a checked write, [query_change.go] and [query_write.go]

    [ExecuteWriteQuery] with the audit row it keeps and the transaction it
    drives. The audit repository, the credential resolver and [database/sql]
    with its drivers are the environment [Env]: each answer may depend on the
    calls made so far. [World] is what the calls leave behind. *)

From Stdlib Require Import ZArith Lia.
From stdpp Require Import base tactics option list numbers sets gmap.
From S2P Require Import Prelude GoStrings SqlLex SqlSafety.

Open Scope Z_scope.

(** ** Data, [model.go] and [usecase.go] *)
Definition DatabaseInstanceStatusEnabled := $"enabled".
Definition DatabaseQueryStatusPending := $"pending".
Definition DatabaseQueryStatusSuccess := $"success".
Definition DatabaseQueryStatusFailed := $"failed".
Definition DatabaseQueryStatusDenied := $"denied".
Definition DatabaseAuditActionChangeExecute := $"change_execute".
Definition DatabaseAuditActionDDLExecute := $"ddl_execute".

(** The columns of the instance that these operations read. *)
Record DatabaseInstance := {
  i_ID : Z; i_Name : gostring; i_DBType : gostring; i_Host : gostring; i_Port : Z;
  i_DefaultDatabase : gostring; i_CredentialID : Z; i_TLSEnabled : bool;
  i_Status : gostring }.

Record ConnectionCredential := { Username : gostring; Password : gostring }.

Record QueryOperator := { op_ID : Z; op_Username : gostring; op_ClientIP : gostring }.

Record DatabaseWriteExecuteRequest := {
  req_SchemaName : gostring; req_SQLText : gostring; req_Reason : gostring;
  req_Confirmed : bool; req_TimeoutSeconds : Z }.

Record DatabaseQueryAudit := {
  a_ID : Z; a_InstanceID : Z; a_SchemaName : gostring; a_OperatorID : Z;
  a_OperatorName : gostring; a_AuditAction : gostring; a_Reason : gostring;
  a_ConfirmRequired : bool; a_Confirmed : bool; a_SQLText : gostring;
  a_SQLFingerprint : gostring; a_SQLType : gostring; a_RiskLevel : gostring;
  a_Status : gostring; a_RowsAffectedLimit : Z; a_RowsAffected : Z; a_DurationMs : Z;
  a_RollbackSQL : gostring; a_ErrorMessage : gostring; a_ClientIP : gostring }.

Record DatabaseWriteExecuteVO := {
  vo_AuditID : Z; vo_AuditAction : gostring; vo_InstanceID : Z; vo_InstanceName : gostring;
  vo_DBType : gostring; vo_DBTypeText : gostring; vo_SchemaName : gostring;
  vo_SQLType : gostring; vo_RiskLevel : gostring; vo_RiskLevelText : gostring;
  vo_ExecutedSQL : gostring; vo_RowsAffected : Z; vo_RowsAffectedLimit : Z;
  vo_Reason : gostring; vo_ConfirmRequired : bool; vo_Confirmed : bool;
  vo_RollbackSQL : gostring; vo_DurationMs : Z; vo_Message : gostring;
  vo_ExecutedAt : gostring }.

(** What is dialled: the driver configuration of [openMySQLDB], the DSN of
    [openPostgreSQLDB]. *)
Record conn_target := {
  t_driver : gostring; t_user : gostring; t_password : gostring; t_host : gostring;
  t_port : Z; t_database : gostring; t_tls : bool }.

(** The calls that leave the process, with their outcome. *)
Inductive event :=
| EvAuditCreate (id : Z) (status : gostring) (ok : bool)
| EvAuditUpdate (id : Z) (status : gostring) (ok : bool)
| EvOpen (target : conn_target)
| EvDeadline (seconds : Z)
| EvPing (ok : bool)
| EvBegin (ok : bool)
| EvExec (sql : gostring) (ok : bool)
| EvRows (rows : option Z)
| EvRollback (ok : bool)
| EvCommit (ok : bool)
| EvClose.

Record World := {
  events : list event; audits : gmap Z DatabaseQueryAudit; next_audit : Z }.

(** The answers of the environment; an error is its text. *)
Record Env := {
  env_instance : Z -> result DatabaseInstance;
  env_auditRepo : bool;
  env_credentialResolver : option (Z -> result (option ConnectionCredential));
  env_writePolicyResolver : option (result (option DatabaseWritePolicy));
  env_audit_create : list event -> option gostring;
  env_audit_update : list event -> option gostring;
  env_open : list event -> conn_target -> option gostring;
  env_ping : list event -> option gostring;
  env_begin : list event -> option gostring;
  env_exec : list event -> gostring -> option gostring;
  env_rows : list event -> result Z;
  env_rollback : list event -> option gostring;
  env_commit : list event -> option gostring;
  env_now : list event -> Z;
  env_sha256_hex : gostring -> gostring;
  env_time_text : Z -> gostring }.

(** ** Helpers, [usecase.go], [query_enhancement.go], [postgresql.go] *)
Definition trimText (value : gostring) (max : Z) : gostring :=
  if max <=? 0 then []
  else
    let runes := TrimSpace value in
    if Z.of_nat (length runes) <=? max then runes else take (Z.to_nat max) runes.

Definition normalizeQueryTimeout (timeoutSeconds : Z) : Z :=
  if timeoutSeconds <=? 0 then 30 else if 30 <? timeoutSeconds then 30 else timeoutSeconds.

Definition QueryRiskLevelText (riskLevel : gostring) : gostring :=
  let r := TrimSpace riskLevel in
  if one_of r [DatabaseQueryRiskLow] then $"低"
  else if one_of r [DatabaseQueryRiskMedium] then $"中"
  else if one_of r [DatabaseQueryRiskHigh] then $"高"
  else if one_of r [DatabaseQueryRiskCritical] then $"严重"
  else $"未知".

Definition quotePostgreSQLIdentifier (value : gostring) : gostring :=
  [34] ++ replace_rune 34 [34; 34] (TrimSpace value) ++ [34].

Definition normalizeRowsAffected (rowsAffected : Z) : Z :=
  if rowsAffected <? 0 then 0 else rowsAffected.

Definition enforceRowsAffectedLimit (rowsAffected limit : Z) : option gostring :=
  let rowsAffected := normalizeRowsAffected rowsAffected in
  if (0 <? limit) && (limit <? rowsAffected)
  then Some ($"写操作影响 " ++ fmt_d rowsAffected ++ $" 行，超过预设阈值 " ++ fmt_d limit
             ++ $" 行，已自动回滚")
  else None.

Definition buildWriteExecuteMessage (rowsAffected limit : Z) : gostring :=
  let rowsAffected := normalizeRowsAffected rowsAffected in
  if (0 <? limit) && (limit <? rowsAffected)
  then $"写操作执行成功，影响 " ++ fmt_d rowsAffected ++ $" 行，已超过预设阈值 "
       ++ fmt_d limit ++ $" 行，请立即复核"
  else $"写操作执行成功，影响 " ++ fmt_d rowsAffected ++ $" 行".

Section operations.
Context `{U : UnicodeTables} (E : Env).

Definition resolveQuerySchemaName (item : DatabaseInstance) (schemaName : gostring) : gostring :=
  let schemaName := TrimSpace schemaName in
  if negb (bool_decide (schemaName = [])) then schemaName
  else if one_of (normalizeDBType (i_DBType item))
            [DBTypePostgreSQL; DBTypeSQLServer; DBTypeOracle; DBTypeOpenGauss; DBTypeKingbase]
  then []
  else TrimSpace (i_DefaultDatabase item).

Definition sqlFingerprint (sqlText : gostring) : gostring :=
  env_sha256_hex E (ToLower (Join (Fields (TrimSpace sqlText)) $" ")).

Definition buildWriteRollbackSQLHint (dbType sqlType : gostring) : gostring :=
  let t := ToUpper (TrimSpace sqlType) in
  if one_of t [$"INSERT"]
  then $"暂不支持自动生成 INSERT 回滚 SQL，请基于主键或唯一键手工确认删除语句。"
  else if one_of t [$"UPDATE"; $"DELETE"] &&
          one_of (normalizeDBType dbType) [DBTypeMySQL; DBTypeMariaDB; DBTypePostgreSQL]
  then $"暂不支持自动生成 UPDATE / DELETE 回滚 SQL，请优先结合逻辑备份、事务日志或变更前快照恢复。"
  else [].

(** ** Calls into the environment *)
Abbreviation M := (st World).

Definition record_event (e : event) : M unit := fun w =>
  (tt, {| events := events w ++ [e]; audits := audits w; next_audit := next_audit w |}).
Definition ask {A} (f : list event -> A) : M A := fun w => (f (events w), w).

Definition answered (e : option gostring) : bool := bool_decide (e = None).

Definition call (f : list event -> option gostring) (ev : bool -> event) : M (option gostring) :=
  e ← ask f; record_event (ev (answered e));; mret e.

Definition sql_exec (sqlText : gostring) : M (option gostring) :=
  call (fun t => env_exec E t sqlText) (EvExec sqlText).
Definition sql_rollback : M (option gostring) := call (env_rollback E) EvRollback.
Definition sql_rows : M (result Z) :=
  r ← ask (env_rows E);
  record_event (EvRows (match r with Ok n => Some n | Err _ => None end));; mret r.

(** [auditRepo.Create] numbers the row; [Update] saves it by its number. *)
Definition set_ID (a : DatabaseQueryAudit) (id : Z) : DatabaseQueryAudit := {|
  a_ID := id; a_InstanceID := a_InstanceID a; a_SchemaName := a_SchemaName a;
  a_OperatorID := a_OperatorID a; a_OperatorName := a_OperatorName a;
  a_AuditAction := a_AuditAction a; a_Reason := a_Reason a;
  a_ConfirmRequired := a_ConfirmRequired a; a_Confirmed := a_Confirmed a;
  a_SQLText := a_SQLText a; a_SQLFingerprint := a_SQLFingerprint a;
  a_SQLType := a_SQLType a; a_RiskLevel := a_RiskLevel a; a_Status := a_Status a;
  a_RowsAffectedLimit := a_RowsAffectedLimit a; a_RowsAffected := a_RowsAffected a;
  a_DurationMs := a_DurationMs a; a_RollbackSQL := a_RollbackSQL a;
  a_ErrorMessage := a_ErrorMessage a; a_ClientIP := a_ClientIP a |}.

Definition audit_Create (a : DatabaseQueryAudit) : M (result DatabaseQueryAudit) := fun w =>
  match env_audit_create E (events w) with
  | Some e =>
    (Err e, {| events := events w ++ [EvAuditCreate 0 (a_Status a) false];
               audits := audits w; next_audit := next_audit w |})
  | None =>
    let a' := set_ID a (next_audit w) in
    (Ok a', {| events := events w ++ [EvAuditCreate (a_ID a') (a_Status a') true];
               audits := <[a_ID a' := a']> (audits w); next_audit := next_audit w + 1 |})
  end.

Definition audit_Update (a : DatabaseQueryAudit) : M unit := fun w =>
  match env_audit_update E (events w) with
  | Some _ =>
    (tt, {| events := events w ++ [EvAuditUpdate (a_ID a) (a_Status a) false];
            audits := audits w; next_audit := next_audit w |})
  | None =>
    (tt, {| events := events w ++ [EvAuditUpdate (a_ID a) (a_Status a) true];
            audits := <[a_ID a := a]> (audits w); next_audit := next_audit w |})
  end.

(** ** [openMySQLDB], [openPostgreSQLDB] *)
Definition sql_open (target : conn_target) : M (option gostring) :=
  e ← ask (fun t => env_open E t target);
  match e with
  | Some e => mret (Some ($"创建数据库连接失败: " ++ e))
  | None => record_event (EvOpen target);; mret None
  end.

Definition checkCredential (credential : option ConnectionCredential) : result ConnectionCredential :=
  match credential with
  | None => Err $"凭据用户名不能为空"
  | Some c =>
    if bool_decide (TrimSpace (Username c) = []) then Err $"凭据用户名不能为空"
    else if bool_decide (Password c = []) then Err $"凭据密码不能为空"
    else Ok c
  end.

Definition openMySQLDB (item : DatabaseInstance) (credential : option ConnectionCredential)
    : M (option gostring) :=
  match checkCredential credential with
  | Err e => mret (Some e)
  | Ok c => sql_open {|
      t_driver := $"mysql"; t_user := TrimSpace (Username c); t_password := Password c;
      t_host := TrimSpace (i_Host item); t_port := i_Port item;
      t_database := TrimSpace (i_DefaultDatabase item); t_tls := i_TLSEnabled item |}
  end.

Definition openPostgreSQLDB (item : DatabaseInstance) (credential : option ConnectionCredential)
    : M (option gostring) :=
  match checkCredential credential with
  | Err e => mret (Some e)
  | Ok c =>
    let dbName := TrimSpace (i_DefaultDatabase item) in
    sql_open {|
      t_driver := $"pgx"; t_user := TrimSpace (Username c); t_password := Password c;
      t_host := TrimSpace (i_Host item); t_port := i_Port item;
      t_database := if bool_decide (dbName = []) then TrimSpace (Username c) else dbName;
      t_tls := i_TLSEnabled item |}
  end.

(** ** The transaction of a change

    The Go functions return a count and an error; [None] is the nil error. *)

(** From [ExecContext] of the statement to [Commit], the same lines of
    [executeMySQLChange] and [executePostgreSQLChange]. *)
Definition run_change (sqlText : gostring) (rowsAffectedLimit : Z) : M (Z * option gostring) :=
  e ← sql_exec sqlText;
  match e with
  | Some err => sql_rollback;; mret (0, Some ($"执行写操作失败: " ++ err))
  | None =>
    r ← sql_rows;
    match r with
    | Err err => sql_rollback;; mret (0, Some ($"读取写操作影响行数失败: " ++ err))
    | Ok rowsAffected =>
      let normalizedRowsAffected := normalizeRowsAffected rowsAffected in
      match enforceRowsAffectedLimit normalizedRowsAffected rowsAffectedLimit with
      | Some err =>
        rb ← sql_rollback;
        match rb with
        | Some rollbackErr =>
          mret (normalizedRowsAffected, Some (err ++ $"；回滚失败: " ++ rollbackErr))
        | None => mret (normalizedRowsAffected, Some err)
        end
      | None =>
        c ← call (env_commit E) EvCommit;
        match c with
        | Some err => mret (normalizedRowsAffected, Some ($"提交写操作失败: " ++ err))
        | None => mret (normalizedRowsAffected, None)
        end
      end
    end
  end.

(** [PingContext] under the deadline, then [BeginTx]. *)
Definition ping_deadline (timeoutSeconds : Z) : M (option gostring) :=
  record_event (EvDeadline timeoutSeconds);;
  e ← call (env_ping E) EvPing;
  mret ((fun e => $"连接数据库失败: " ++ e) <$> e).

(** [defer db.Close()]. *)
Definition closing {A} (m : M A) : M A := a ← m; record_event EvClose;; mret a.

Definition set_DefaultDatabase (item : DatabaseInstance) (db : gostring) : DatabaseInstance := {|
  i_ID := i_ID item; i_Name := i_Name item; i_DBType := i_DBType item; i_Host := i_Host item;
  i_Port := i_Port item; i_DefaultDatabase := db; i_CredentialID := i_CredentialID item;
  i_TLSEnabled := i_TLSEnabled item; i_Status := i_Status item |}.

Definition with_schema (item : DatabaseInstance) (schemaName : gostring) : DatabaseInstance :=
  if bool_decide (TrimSpace schemaName = []) then item
  else set_DefaultDatabase item (TrimSpace schemaName).

Definition executeMySQLChange (item : DatabaseInstance) (credential : option ConnectionCredential)
    (schemaName sqlText : gostring) (timeoutSeconds rowsAffectedLimit : Z)
    : M (Z * option gostring) :=
  let queryItem := with_schema item schemaName in
  o ← openMySQLDB queryItem credential;
  match o with
  | Some err => mret (0, Some err)
  | None => closing (
    p ← ping_deadline timeoutSeconds;
    match p with
    | Some err => mret (0, Some err)
    | None =>
      b ← call (env_begin E) EvBegin;
      match b with
      | Some err => mret (0, Some ($"开启写操作事务失败: " ++ err))
      | None => run_change sqlText rowsAffectedLimit
      end
    end)
  end.

Definition search_path_sql (schemaName : gostring) : gostring :=
  $"SET search_path TO " ++ quotePostgreSQLIdentifier schemaName ++ $", public".

Definition executePostgreSQLChange (item : DatabaseInstance)
    (credential : option ConnectionCredential) (schemaName sqlText : gostring)
    (timeoutSeconds rowsAffectedLimit : Z) : M (Z * option gostring) :=
  o ← openPostgreSQLDB item credential;
  match o with
  | Some err => mret (0, Some err)
  | None => closing (
    p ← ping_deadline timeoutSeconds;
    match p with
    | Some err => mret (0, Some err)
    | None =>
      b ← call (env_begin E) EvBegin;
      match b with
      | Some err => mret (0, Some ($"开启写操作事务失败: " ++ err))
      | None =>
        if bool_decide (TrimSpace schemaName = []) then run_change sqlText rowsAffectedLimit
        else
          s ← sql_exec (search_path_sql schemaName);
          match s with
          | Some err => sql_rollback;; mret (0, Some ($"设置 Schema 失败: " ++ err))
          | None => run_change sqlText rowsAffectedLimit
          end
      end
    end)
  end.

Definition executeSQLChange (item : DatabaseInstance) (credential : option ConnectionCredential)
    (schemaName sqlText : gostring) (timeoutSeconds rowsAffectedLimit : Z)
    : M (Z * option gostring) :=
  let t := normalizeDBType (i_DBType item) in
  if one_of t [DBTypeMySQL; DBTypeMariaDB]
  then executeMySQLChange item credential schemaName sqlText timeoutSeconds rowsAffectedLimit
  else if one_of t [DBTypePostgreSQL]
  then executePostgreSQLChange item credential schemaName sqlText timeoutSeconds rowsAffectedLimit
  else mret (0, Some (DBTypeText (i_DBType item) ++ $" 写操作执行将在后续批次接入")).

(** ** [ExecuteWriteQuery] *)
Definition getEnabledQueryInstance (instanceID : Z) : result DatabaseInstance :=
  match env_instance E instanceID with
  | Err _ => Err $"数据库实例不存在"
  | Ok item =>
    if negb (bool_decide (TrimSpace (i_Status item) = DatabaseInstanceStatusEnabled))
    then Err $"数据库实例已禁用"
    else if negb (env_auditRepo E) then Err $"查询审计未配置"
    else match env_credentialResolver E with
         | None => Err $"连接凭据解析器未配置"
         | Some _ => Ok item
         end
  end.

Definition resolveCredential (id : Z) : result (option ConnectionCredential) :=
  match env_credentialResolver E with Some f => f id | None => Err [] end.

Definition recordDeniedWriteQuery (item : DatabaseInstance) (schemaName sqlText reason : gostring)
    (confirmed : bool) (safety : SQLWriteSafetyResult) (message : gostring)
    (operator : QueryOperator) : M unit :=
  if negb (env_auditRepo E) then mret tt
  else
    let sqlType := ToUpper (TrimSpace (w_SQLType safety)) in
    let sqlType := if bool_decide (sqlType = []) then $"UNKNOWN" else sqlType in
    let riskLevel := TrimSpace (w_RiskLevel safety) in
    let riskLevel := if bool_decide (riskLevel = []) then DatabaseQueryRiskHigh else riskLevel in
    audit_Create {|
      a_ID := 0; a_InstanceID := i_ID item; a_SchemaName := schemaName;
      a_OperatorID := op_ID operator; a_OperatorName := trimText (op_Username operator) 100;
      a_AuditAction := DatabaseAuditActionChangeExecute; a_Reason := trimText reason 500;
      a_ConfirmRequired := w_ConfirmRequired safety; a_Confirmed := confirmed;
      a_SQLText := trimText sqlText 20000; a_SQLFingerprint := sqlFingerprint sqlText;
      a_SQLType := sqlType; a_RiskLevel := riskLevel; a_Status := DatabaseQueryStatusDenied;
      a_RowsAffectedLimit := w_RowsAffectedLimit safety; a_RowsAffected := 0; a_DurationMs := 0;
      a_RollbackSQL := []; a_ErrorMessage := trimText message 500;
      a_ClientIP := trimText (op_ClientIP operator) 64 |};;
    mret tt.

Definition finishChangeAudit (audit : DatabaseQueryAudit) (status : gostring)
    (rowsAffected durationMs : Z) (rollbackSQL errorMessage : gostring) : M unit :=
  if negb (env_auditRepo E) || (a_ID audit =? 0) then mret tt
  else audit_Update {|
    a_ID := a_ID audit; a_InstanceID := a_InstanceID audit; a_SchemaName := a_SchemaName audit;
    a_OperatorID := a_OperatorID audit; a_OperatorName := a_OperatorName audit;
    a_AuditAction := a_AuditAction audit; a_Reason := a_Reason audit;
    a_ConfirmRequired := a_ConfirmRequired audit; a_Confirmed := a_Confirmed audit;
    a_SQLText := a_SQLText audit; a_SQLFingerprint := a_SQLFingerprint audit;
    a_SQLType := a_SQLType audit; a_RiskLevel := a_RiskLevel audit; a_Status := status;
    a_RowsAffectedLimit := a_RowsAffectedLimit audit;
    a_RowsAffected := normalizeRowsAffected rowsAffected; a_DurationMs := durationMs;
    a_RollbackSQL := trimText rollbackSQL 20000; a_ErrorMessage := trimText errorMessage 500;
    a_ClientIP := a_ClientIP audit |}.

(** [time.Since(start).Milliseconds()]: nanoseconds divided towards zero. *)
Definition milliseconds (ns : Z) : Z := Z.quot ns 1000000.

(** The pending row of the change. *)
Definition pending_change_audit (item : DatabaseInstance) (schemaName sqlText reason : gostring)
    (confirmed : bool) (safety : SQLWriteSafetyResult) (operator : QueryOperator)
    : DatabaseQueryAudit := {|
  a_ID := 0; a_InstanceID := i_ID item; a_SchemaName := schemaName;
  a_OperatorID := op_ID operator; a_OperatorName := trimText (op_Username operator) 100;
  a_AuditAction := DatabaseAuditActionChangeExecute; a_Reason := trimText reason 500;
  a_ConfirmRequired := w_ConfirmRequired safety; a_Confirmed := confirmed;
  a_SQLText := trimText sqlText 20000; a_SQLFingerprint := sqlFingerprint sqlText;
  a_SQLType := w_SQLType safety; a_RiskLevel := w_RiskLevel safety;
  a_Status := DatabaseQueryStatusPending; a_RowsAffectedLimit := w_RowsAffectedLimit safety;
  a_RowsAffected := 0; a_DurationMs := 0; a_RollbackSQL := []; a_ErrorMessage := [];
  a_ClientIP := trimText (op_ClientIP operator) 64 |}.

(** Past the checks, the same lines of [ExecuteWriteQuery] and
    [ExecuteDDLQuery]: the pending row, the credential, the change, the settled
    row. [vo] fills the answer from the number of the row, the count, the
    duration and the time. *)
Definition run_audited (row : DatabaseQueryAudit) (credentialID : Z)
    (run : option ConnectionCredential -> M (Z * option gostring)) (rollbackSQL : gostring)
    (vo : Z -> Z -> Z -> gostring -> DatabaseWriteExecuteVO) : M (result DatabaseWriteExecuteVO) :=
  created ← audit_Create row;
  match created with
  | Err e => mret (Err ($"创建查询审计失败: " ++ e))
  | Ok audit =>
    match resolveCredential credentialID with
    | Err _ =>
      finishChangeAudit audit DatabaseQueryStatusFailed 0 0 [] $"凭据不存在";;
      mret (Err $"凭据不存在")
    | Ok credential =>
      start ← ask (env_now E);
      change ← run credential;
      stop ← ask (env_now E);
      let duration := milliseconds (stop - start) in
      let rowsAffected := change.1 in
      match change.2 with
      | Some err =>
        finishChangeAudit audit DatabaseQueryStatusFailed (normalizeRowsAffected rowsAffected)
          duration [] err;;
        mret (Err err)
      | None =>
        finishChangeAudit audit DatabaseQueryStatusSuccess rowsAffected duration rollbackSQL [];;
        executedAt ← ask (env_now E);
        mret (Ok (vo (a_ID audit) rowsAffected duration (env_time_text E executedAt)))
      end
    end
  end.

Definition run_audited_change (item : DatabaseInstance) (schemaName sqlText reason : gostring)
    (timeout : Z) (confirmed : bool) (safety : SQLWriteSafetyResult) (operator : QueryOperator)
    : M (result DatabaseWriteExecuteVO) :=
  let rollbackSQL := buildWriteRollbackSQLHint (i_DBType item) (w_SQLType safety) in
  run_audited (pending_change_audit item schemaName sqlText reason confirmed safety operator)
    (i_CredentialID item)
    (fun credential =>
       executeSQLChange item credential schemaName sqlText timeout (w_RowsAffectedLimit safety))
    rollbackSQL
    (fun auditID rowsAffected duration executedAt => {|
       vo_AuditID := auditID; vo_AuditAction := DatabaseAuditActionChangeExecute;
       vo_InstanceID := i_ID item; vo_InstanceName := i_Name item;
       vo_DBType := i_DBType item; vo_DBTypeText := DBTypeText (i_DBType item);
       vo_SchemaName := schemaName; vo_SQLType := w_SQLType safety;
       vo_RiskLevel := w_RiskLevel safety;
       vo_RiskLevelText := QueryRiskLevelText (w_RiskLevel safety);
       vo_ExecutedSQL := sqlText; vo_RowsAffected := rowsAffected;
       vo_RowsAffectedLimit := w_RowsAffectedLimit safety;
       vo_Reason := trimText reason 500; vo_ConfirmRequired := w_ConfirmRequired safety;
       vo_Confirmed := confirmed; vo_RollbackSQL := rollbackSQL; vo_DurationMs := duration;
       vo_Message := buildWriteExecuteMessage rowsAffected (w_RowsAffectedLimit safety);
       vo_ExecutedAt := executedAt |}).

Definition ExecuteWriteQuery (instanceID : Z) (req : option DatabaseWriteExecuteRequest)
    (operator : QueryOperator) : M (result DatabaseWriteExecuteVO) :=
  match req with
  | None => mret (Err $"请求不能为空")
  | Some req =>
    match getEnabledQueryInstance instanceID with
    | Err e => mret (Err e)
    | Ok item =>
      match resolveWritePolicy (env_writePolicyResolver E) with
      | Err e => mret (Err e)
      | Ok policy =>
        let timeout := normalizeQueryTimeout (req_TimeoutSeconds req) in
        let schemaName := resolveQuerySchemaName item (req_SchemaName req) in
        let sqlText := TrimSpace (req_SQLText req) in
        let reason := TrimSpace (req_Reason req) in
        let safety := AnalyzeWriteSQLByDB (i_DBType item) sqlText (Some policy) in
        let deny (message : gostring) : M (result DatabaseWriteExecuteVO) :=
          recordDeniedWriteQuery item schemaName sqlText reason (req_Confirmed req) safety
            message operator;;
          mret (Err message) in
        if negb (w_Allowed safety) then deny (w_Message safety)
        else if negb (supportsWriteExecution (i_DBType item))
        then deny (DBTypeText (i_DBType item) ++ $" 写操作执行将在后续批次接入")
        else if negb (isSupportedWriteExecuteType (w_SQLType safety))
        then deny $"当前仅支持 INSERT / UPDATE / DELETE 写操作执行"
        else if w_ReasonRequired safety && bool_decide (reason = [])
        then deny $"写操作原因不能为空"
        else if w_ConfirmRequired safety && negb (req_Confirmed req)
        then deny $"高风险写操作未确认"
        else run_audited_change item schemaName sqlText reason timeout (req_Confirmed req)
               safety operator
      end
    end
  end.
End operations.
