(* ===== verification/WriteExecFacts.v ===== *)
(** * What running a checked write guarantees

    [session_step] is the protocol a database session has to keep; every run
    of [executeSQLChange] keeps it. [ExecuteWriteQuery] reaches the database
    only after its checks and behind an audit row that it settles. *)

From Stdlib Require Import ZArith Lia.
From stdpp Require Import base tactics option list numbers sets gmap.
From S2P Require Import Prelude GoStrings SqlLex SqlSafety WriteExec.

Open Scope Z_scope.

(** ** The session protocol *)

Inductive session :=
| Closed          (* no connection *)
| Opened          (* [sql.Open] done *)
| Limited         (* the deadline is set *)
| Ready           (* the server answered *)
| InTx            (* a transaction is open, the last statement succeeded *)
| MayCommit       (* the count of the last statement is within the limit *)
| MustRollback    (* the statement failed, or the count is unknown or too big *)
| Over            (* nothing but closing is left *)
| Violation.

(** A count within the limit; no limit when it is not positive. *)
Definition within (limit rows : Z) : bool := (limit <=? 0) || (normalizeRowsAffected rows <=? limit).

Definition session_step (limit : Z) (s : session) (e : event) : session :=
  match s, e with
  | Closed, EvOpen _ => Opened
  | Opened, EvDeadline _ => Limited
  | Limited, EvPing ok => if ok then Ready else Over
  | Ready, EvBegin ok => if ok then InTx else Over
  | InTx, EvExec _ ok => if ok then InTx else MustRollback
  | InTx, EvRows (Some n) => if within limit n then MayCommit else MustRollback
  | InTx, EvRows None => MustRollback
  | MayCommit, EvCommit _ => Over
  | MustRollback, EvRollback _ => Over
  | Over, EvClose => Closed
  | _, _ => Violation
  end.

Definition session_run (limit : Z) (l : list event) : session :=
  foldl (session_step limit) Closed l.

Definition statements (l : list event) : list gostring :=
  omap (fun e => match e with EvExec s _ => Some s | _ => None end) l.
Definition counts (l : list event) : list (option Z) :=
  omap (fun e => match e with EvRows r => Some r | _ => None end) l.
Definition is_commit (e : event) : bool := match e with EvCommit ok => ok | _ => false end.
Definition is_rollback (e : event) : bool := match e with EvRollback _ => true | _ => false end.
Definition is_begin (e : event) : bool := match e with EvBegin ok => ok | _ => false end.
Definition is_audit (e : event) : bool :=
  match e with EvAuditCreate _ _ _ | EvAuditUpdate _ _ _ => true | _ => false end.

Definition extends (w w' : World) (new : list event) : Prop :=
  events w' = events w ++ new /\ audits w' = audits w /\ next_audit w' = next_audit w.

Section rules.
Context (E : Env).

(** ** Rules for programs that only talk to the database

    [runs m P]: from any world, [m] leaves the audits alone, appends some
    events to the world and [P] holds of its result and of these events. *)
Definition runs {A} (m : st World A) (P : A -> list event -> Prop) : Prop :=
  forall w, exists new, extends w (m w).2 new /\ P (m w).1 new.

Lemma runs_mono {A} (m : st World A) (P Q : A -> list event -> Prop) :
  (forall a n, P a n -> Q a n) -> runs m P -> runs m Q.
Proof. intros HPQ Hm w. destruct (Hm w) as (new & ? & ?). eauto. Qed.

Lemma runs_ret {A} (a : A) (P : A -> list event -> Prop) : P a [] -> runs (mret a) P.
Proof. intros HP w. exists []. repeat split; [|done]. by rewrite app_nil_r. Qed.

Lemma runs_bind {A B} (m : st World A) (k : A -> st World B) (P : B -> list event -> Prop) :
  runs m (fun a n1 => runs (k a) (fun b n2 => P b (n1 ++ n2))) -> runs (m ≫= k) P.
Proof.
  intros Hm w. rewrite st_bind_eq. destruct (Hm w) as (n1 & (H1 & H2 & H3) & Hk).
  destruct (Hk (m w).2) as (n2 & (H4 & H5 & H6) & HP).
  exists (n1 ++ n2). split; [|done]. repeat split; [|congruence..].
  by rewrite H4, H1, <- app_assoc.
Qed.

Lemma runs_record e (P : unit -> list event -> Prop) : P tt [e] -> runs (record_event e) P.
Proof. intros HP w. by exists [e]. Qed.

Lemma runs_ask {A} (f : list event -> A) (P : A -> list event -> Prop) :
  (forall a, P a []) -> runs (ask f) P.
Proof. intros HP w. exists []. repeat split; [|apply HP]. by rewrite app_nil_r. Qed.

Lemma runs_call f ev (P : option gostring -> list event -> Prop) :
  (forall e, P e [ev (answered e)]) -> runs (call f ev) P.
Proof. intros HP w. exists [ev (answered (f (events w)))]. split; [done|]. apply HP. Qed.

Lemma runs_rows (P : result Z -> list event -> Prop) :
  (forall n, P (Ok n) [EvRows (Some n)]) -> (forall e, P (Err e) [EvRows None]) ->
  runs (sql_rows E) P.
Proof.
  intros HO HE w. unfold sql_rows, ask, record_event, mbind, st_bind, mret, st_ret. simpl.
  destruct (env_rows E (events w)) as [n|e]; eexists; (split; [done|]); [apply HO|apply HE].
Qed.
End rules.

(** Run a program by its rules, splitting on what the environment answers. *)
Ltac run_step :=
  match goal with
  | |- runs (_ ≫= _) _ => apply runs_bind
  | |- runs (mret _) _ => apply runs_ret
  | |- runs (record_event _) _ => apply runs_record
  | |- runs (ask _) _ => apply runs_ask; intros ?
  | |- runs (call _ _) _ => apply runs_call; intros [?|]
  | |- runs (sql_rows _) _ => apply runs_rows; intros ?
  | |- runs (sql_exec _ _) _ => unfold sql_exec
  | |- runs (sql_rollback _) _ => unfold sql_rollback
  | |- runs (if ?b then _ else _) _ => destruct b eqn:?
  | |- runs (match ?x with _ => _ end) _ => destruct x eqn:?
  end; cbv beta iota.

(** The error texts do not matter for the protocol. *)
Ltac forget_texts :=
  repeat match goal with |- context [lit ?s] => generalize (lit s); intros ? end.

Section facts.
Context `{U : UnicodeTables} (E : Env).

(** A run of a change from [w] to [w']: what it appends to the events. *)
Record change_run (path sqlText : gostring) (limit : Z) (res : Z * option gostring)
    (new : list event) : Prop := {
  cr_session : session_run limit new = Closed;
  cr_statements : statements new `prefix_of` [path; sqlText] \/
                  statements new `prefix_of` [sqlText];
  cr_commit : res.2 = None <-> existsb is_commit new = true;
  cr_counts : res.2 = None -> exists n, counts new = [Some n] /\
    res.1 = normalizeRowsAffected n /\ within limit n = true /\
    last (statements new) = Some sqlText;
  cr_rollback : existsb is_begin new = true -> res.2 <> None ->
    existsb is_rollback new = true \/ EvCommit false ∈ new;
  cr_no_audit : forallb (fun e => negb (is_audit e)) new = true;
}.

Lemma enforce_within n limit :
  enforceRowsAffectedLimit (normalizeRowsAffected n) limit = None <-> within limit n = true.
Proof.
  unfold enforceRowsAffectedLimit, within, normalizeRowsAffected.
  repeat case_match; split; intros; try done; bsimpl; lia.
Qed.

Lemma enforce_beyond n limit e :
  enforceRowsAffectedLimit (normalizeRowsAffected n) limit = Some e -> within limit n = false.
Proof. intros H. apply not_true_iff_false. rewrite <- enforce_within. congruence. Qed.

Ltac settle :=
  forget_texts;
  try match goal with
  | H : enforceRowsAffectedLimit _ _ = None |- _ => apply enforce_within in H
  | H : enforceRowsAffectedLimit _ _ = Some _ |- _ => apply enforce_beyond in H
  end;
  split; unfold session_run; simpl;
  repeat match goal with H : within _ _ = _ |- _ => progress (rewrite ?H); simpl end;
  try done; eauto using prefix_nil, prefix_cons;
  intros; right; rewrite !elem_of_cons; tauto.

Lemma mysql_change path item credential schemaName sqlText timeout limit :
  runs (executeMySQLChange E item credential schemaName sqlText timeout limit)
    (change_run path sqlText limit).
Proof.
  unfold executeMySQLChange, openMySQLDB, sql_open, ping_deadline, closing, run_change.
  repeat run_step; settle.
Qed.

Lemma postgresql_change item credential schemaName sqlText timeout limit :
  runs (executePostgreSQLChange E item credential schemaName sqlText timeout limit)
    (change_run (search_path_sql schemaName) sqlText limit).
Proof.
  unfold executePostgreSQLChange, openPostgreSQLDB, sql_open, ping_deadline, closing, run_change.
  repeat run_step; settle.
Qed.

Lemma sql_change item credential schemaName sqlText timeout limit :
  runs (executeSQLChange E item credential schemaName sqlText timeout limit)
    (change_run (search_path_sql schemaName) sqlText limit).
Proof.
  unfold executeSQLChange. case_match; [apply mysql_change|].
  case_match; [apply postgresql_change|]. apply runs_ret. settle.
Qed.

(** C7: Running a change keeps the session protocol whatever the database
    answers: it connects under the deadline, opens one transaction, runs nothing
    but the search path and the checked statement, commits only when the count
    of affected rows is known and within the limit, rolls back otherwise, and
    closes. It returns no error exactly when the commit succeeded, and then the
    count of the statement. *)
Theorem change_keeps_protocol item credential schemaName sqlText timeout limit w :
  let r := executeSQLChange E item credential schemaName sqlText timeout limit w in
  exists new, extends w r.2 new /\ change_run (search_path_sql schemaName) sqlText limit r.1 new.
Proof. apply sql_change. Qed.

(** ** [ExecuteWriteQuery] *)

Lemma finish_audit audit status rows duration rollbackSQL message w :
  env_auditRepo E = true -> a_ID audit <> 0 ->
  let w' := (finishChangeAudit E audit status rows duration rollbackSQL message w).2 in
  next_audit w' = next_audit w /\
  (exists ok, events w' = events w ++ [EvAuditUpdate (a_ID audit) status ok]) /\
  (env_audit_update E (events w) = None -> exists row, audits w' = <[a_ID audit := row]> (audits w) /\
     a_ID row = a_ID audit /\ a_SQLText row = a_SQLText audit /\ a_OperatorID row = a_OperatorID audit /\
     a_Status row = status /\ a_RowsAffected row = normalizeRowsAffected rows /\
     a_ErrorMessage row = trimText message 500).
Proof.
  intros Hrepo Hid. unfold finishChangeAudit. rewrite Hrepo.
  replace (a_ID audit =? 0) with false by lia. simpl. unfold audit_Update.
  destruct (env_audit_update E (events w)) as [e|]; simpl; (split; [done|]);
    (split; [eauto|]); [done|]. intros _. eexists; split; [done|]. done.
Qed.

(** What [run_audited] leaves: [id] is the number of the audit row, [change]
    the calls to the database and [res] the outcome of the change, of which [P]
    holds; [None] when the credential could not be read. *)
Record audited (P : Z * option gostring -> list event -> Prop) (sqlText : gostring)
    (id operator : Z) (w w' : World) (r : result DatabaseWriteExecuteVO) (change : list event)
    (res : option (Z * option gostring)) : Prop := {
  au_events : exists ok status, events w' = events w ++
    EvAuditCreate id DatabaseQueryStatusPending true :: change ++ [EvAuditUpdate id status ok];
  au_next : next_audit w' = id + 1;
  au_change : match res with Some res => P res change | None => change = [] end;
  au_row : (forall t, env_audit_update E t = None) -> exists row,
    audits w' = <[id := row]> (audits w) /\ a_ID row = id /\
    a_SQLText row = sqlText /\ a_OperatorID row = operator /\
    match r with
    | Ok vo => a_Status row = DatabaseQueryStatusSuccess /\
               a_RowsAffected row = normalizeRowsAffected (vo_RowsAffected vo)
    | Err e => a_Status row = DatabaseQueryStatusFailed /\ a_ErrorMessage row = trimText e 500
    end;
  au_result : match r with
              | Ok vo => vo_AuditID vo = id /\ res = Some (vo_RowsAffected vo, None)
              | Err e => res = None \/ exists n, res = Some (n, Some e)
              end;
}.

Lemma ask_eq {A} (f : list event -> A) w : ask f w = (f (events w), w).
Proof. done. Qed.
Lemma ret_eq {A} (a : A) (w : World) : (mret a : st World A) w = (a, w).
Proof. done. Qed.
Ltac exec := repeat first [rewrite st_bind_eq | rewrite ask_eq | rewrite ret_eq | progress cbn [fst snd]].

Lemma audited_run P row credentialID run rollbackSQL vo w :
  env_auditRepo E = true -> 0 < next_audit w -> env_audit_create E (events w) = None ->
  a_Status row = DatabaseQueryStatusPending ->
  (forall credential, runs (run credential) P) ->
  (forall id n d t, vo_AuditID (vo id n d t) = id /\ vo_RowsAffected (vo id n d t) = n) ->
  let r := run_audited E row credentialID run rollbackSQL vo w in
  exists change res, audited P (a_SQLText row) (next_audit w) (a_OperatorID row) w r.2 r.1 change res.
Proof.
  intros Hrepo Hid Hcreate Hst Hrun Hvo. unfold run_audited. rewrite st_bind_eq.
  unfold audit_Create. rewrite Hcreate. cbn [fst snd].
  set (audit := set_ID _ _). set (w1 := Build_World _ _ _).
  assert (a_ID audit <> 0) as Hne by (subst audit; simpl; lia).
  assert (He1 : events w1 = events w ++ [EvAuditCreate (next_audit w) DatabaseQueryStatusPending true])
    by (subst w1; simpl; by rewrite Hst).
  destruct (resolveCredential E credentialID) as [credential|e].
  - exec. destruct (Hrun credential w1) as (new & (He & Ha & Hn) & HP).
    destruct (run credential w1) as [res w2]. cbn [fst snd] in *.
    exec.
    exists new, (Some res). destruct res as [rows [err|]]; cbn [fst snd].
    + exec.
      destruct (finish_audit audit DatabaseQueryStatusFailed (normalizeRowsAffected rows)
        (milliseconds (env_now E (events w2) - env_now E (events w1))) [] err w2 Hrepo Hne)
        as (Hnext & [ok Hev] & Hrow).
      split; [ | by rewrite Hnext, Hn | done | | naive_solver].
      * exists ok, DatabaseQueryStatusFailed. rewrite Hev, He, He1. by rewrite <- !app_assoc.
      * intros Hup. destruct (Hrow (Hup _)) as (r & Hins & ? & ? & ? & ? & ? & ?).
        exists r. rewrite Hins, Ha. simpl. rewrite insert_insert_eq. done.
    + exec.
      destruct (finish_audit audit DatabaseQueryStatusSuccess rows
        (milliseconds (env_now E (events w2) - env_now E (events w1)))
        rollbackSQL [] w2 Hrepo Hne) as (Hnext & [ok Hev] & Hrow).
      match goal with |- context [vo ?a ?b ?c ?d] => destruct (Hvo a b c d) as [Hv1 Hv2] end.
      split; [ | by rewrite Hnext, Hn | done | | by rewrite Hv1, Hv2].
      * exists ok, DatabaseQueryStatusSuccess. rewrite Hev, He, He1. by rewrite <- !app_assoc.
      * intros Hup. destruct (Hrow (Hup _)) as (r & Hins & ? & ? & ? & ? & ? & ?).
        exists r. rewrite Hins, Ha, Hv2. simpl. rewrite insert_insert_eq. done.
  - exists [], None. exec.
    destruct (finish_audit audit DatabaseQueryStatusFailed 0 0 [] $"凭据不存在" w1 Hrepo Hne)
      as (Hnext & [ok Hev] & Hrow).
    split; [ | done | done | | by left].
    + exists ok, DatabaseQueryStatusFailed. rewrite Hev, He1. by rewrite <- !app_assoc.
    + intros Hup. destruct (Hrow (Hup _)) as (r & Hins & ? & ? & ? & ? & ? & ?).
      exists r. rewrite Hins. simpl. rewrite insert_insert_eq. done.
Qed.

Lemma audited_change item schemaName sqlText reason timeout confirmed safety operator w :
  env_auditRepo E = true -> 0 < next_audit w -> env_audit_create E (events w) = None ->
  let r := run_audited_change E item schemaName sqlText reason timeout confirmed safety
             operator w in
  exists change res,
    audited (change_run (search_path_sql schemaName) sqlText (w_RowsAffectedLimit safety))
      (trimText sqlText 20000) (next_audit w) (op_ID operator) w r.2 r.1 change res.
Proof.
  intros Hrepo Hid Hcreate.
  apply (audited_run _ (pending_change_audit E item schemaName sqlText reason confirmed safety operator));
    try done. intros credential. apply sql_change.
Qed.

(** A request that finds the table of the audits closed. *)
Lemma run_audited_closed row credentialID run rollbackSQL vo w e :
  env_audit_create E (events w) = Some e ->
  let r := run_audited E row credentialID run rollbackSQL vo w in
  events r.2 = events w ++ [EvAuditCreate 0 (a_Status row) false].
Proof. intros H. unfold run_audited. rewrite st_bind_eq. unfold audit_Create. by rewrite H. Qed.

(** A refused request: one row, [denied] with the reason given to the caller. *)
Record refused_row (row : DatabaseQueryAudit) (w w' : World) : Prop := {
  rf_events : exists id ok, events w' = events w ++ [EvAuditCreate id DatabaseQueryStatusDenied ok];
  rf_row : env_audit_create E (events w) = None ->
    audits w' = <[next_audit w := set_ID row (next_audit w)]> (audits w);
}.

Lemma refused row w :
  a_Status row = DatabaseQueryStatusDenied -> refused_row row w (audit_Create E row w).2.
Proof.
  intros Hst. unfold audit_Create. destruct (env_audit_create E (events w)) as [e|] eqn:Hc.
  - split; [exists 0, false; simpl; by rewrite Hst | congruence].
  - split; [exists (next_audit w), true; simpl; by rewrite Hst | done].
Qed.

Lemma denied item schemaName sqlText reason confirmed safety message operator w :
  env_auditRepo E = true ->
  let w' := (recordDeniedWriteQuery E item schemaName sqlText reason confirmed safety message
               operator w).2 in
  (exists id ok, events w' = events w ++ [EvAuditCreate id DatabaseQueryStatusDenied ok]) /\
  (env_audit_create E (events w) = None -> exists row,
     audits w' = <[next_audit w := row]> (audits w) /\ a_ID row = next_audit w /\
     a_SQLText row = trimText sqlText 20000 /\ a_OperatorID row = op_ID operator /\
     a_Status row = DatabaseQueryStatusDenied /\ a_ErrorMessage row = trimText message 500).
Proof.
  intros Hrepo. unfold recordDeniedWriteQuery. rewrite Hrepo. cbn [negb]. rewrite st_bind_eq.
  match goal with |- context [audit_Create E ?row w] =>
    destruct (refused row w eq_refl) as [Hev Hrow]; destruct (audit_Create E row w) as [? w'] end.
  split; [exact Hev|]. intros Hc. eexists; split; [exact (Hrow Hc) | done].
Qed.

Lemma enabled_instance_repo id item :
  getEnabledQueryInstance E id = Ok item -> env_auditRepo E = true.
Proof.
  unfold getEnabledQueryInstance. case_match; [|done]. case_match; [done|].
  destruct (env_auditRepo E); done.
Qed.

(** The conditions under which a request reaches the database. *)
Record write_admitted (instanceID : Z) (req : DatabaseWriteExecuteRequest)
    (item : DatabaseInstance) (policy : DatabaseWritePolicy) (safety : SQLWriteSafetyResult)
    : Prop := {
  wa_item : getEnabledQueryInstance E instanceID = Ok item;
  wa_policy : resolveWritePolicy (env_writePolicyResolver E) = Ok policy;
  wa_safety : safety = AnalyzeWriteSQLByDB (i_DBType item) (TrimSpace (req_SQLText req))
                         (Some policy);
  wa_allowed : w_Allowed safety = true;
  wa_reason : w_ReasonRequired safety = true -> TrimSpace (req_Reason req) <> [];
  wa_confirmed : w_ConfirmRequired safety = true -> req_Confirmed req = true;
}.

(** The three ways a request ends: a look-up fails, or past the look-ups the
    request is denied with a record or carried out. *)
Lemma write_query_looked_up instanceID req operator w :
  let r := ExecuteWriteQuery E instanceID (Some req) operator w in
  (exists e, r = (Err e, w) /\
     (getEnabledQueryInstance E instanceID = Err e \/
      exists item, getEnabledQueryInstance E instanceID = Ok item /\
        resolveWritePolicy (env_writePolicyResolver E) = Err e)) \/
  exists item0 policy0, getEnabledQueryInstance E instanceID = Ok item0 /\
  resolveWritePolicy (env_writePolicyResolver E) = Ok policy0 /\
  env_auditRepo E = true /\
  ((exists item schemaName safety message, r =
      (Err message, (recordDeniedWriteQuery E item schemaName (TrimSpace (req_SQLText req))
         (TrimSpace (req_Reason req)) (req_Confirmed req) safety message operator w).2)) \/
   (exists item policy safety, write_admitted instanceID req item policy safety /\
     r = run_audited_change E item (resolveQuerySchemaName item (req_SchemaName req))
           (TrimSpace (req_SQLText req)) (TrimSpace (req_Reason req))
           (normalizeQueryTimeout (req_TimeoutSeconds req)) (req_Confirmed req) safety
           operator w)).
Proof.
  unfold ExecuteWriteQuery. cbv zeta.
  destruct (getEnabledQueryInstance E instanceID) as [item|e] eqn:Hitem;
    [|left; exists e; split; [done | by left]].
  destruct (resolveWritePolicy _) as [policy|e] eqn:Hpolicy;
    [|left; exists e; split; [done | right; by exists item]].
  right. exists item, policy. do 2 (split; [done|]). split; [by eapply enabled_instance_repo|].
  do 5 (case_match; [left; rewrite st_bind_eq; by repeat eexists|]). right. bsimpl.
  eexists _, _, _; split; [|reflexivity].
  split; [done | done | done | done | |]; intros Hreq;
    match goal with H : _ && _ = false |- _ => rewrite Hreq in H; cbn [andb] in H; by bsimpl end.
Qed.

(** C12: A request reaches the database only for an enabled instance, after the
    statement check allowed it, with a reason and a confirmation when they are
    required, and only behind a pending audit row; the calls that follow are one
    run of the change protocol on the trimmed statement. *)
Theorem write_query_guarded instanceID req operator w :
  0 < next_audit w ->
  let r := ExecuteWriteQuery E instanceID (Some req) operator w in
  exists new, events r.2 = events w ++ new /\
    (forallb is_audit new = true \/
     exists item policy safety change settle res,
       write_admitted instanceID req item policy safety /\
       new = EvAuditCreate (next_audit w) DatabaseQueryStatusPending true :: change ++ [settle] /\
       is_audit settle = true /\
       change_run (search_path_sql (resolveQuerySchemaName item (req_SchemaName req)))
         (TrimSpace (req_SQLText req)) (w_RowsAffectedLimit safety) res change).
Proof.
  intros Hid r. subst r.
  destruct (write_query_looked_up instanceID req operator w)
    as [(e & -> & _) | (_ & _ & _ & _ & Hrepo & [(item & schema & safety & message & ->) |
                                                   (item & policy & safety & Hadm & ->)])].
  - exists []. split; [by rewrite app_nil_r | by left].
  - destruct (denied item schema (TrimSpace (req_SQLText req)) (TrimSpace (req_Reason req))
      (req_Confirmed req) safety message operator w Hrepo) as [(id & ok & Hev) _].
    eexists; split; [exact Hev | by left].
  - destruct (env_audit_create E (events w)) as [e|] eqn:Hcreate.
    { eexists; split; [by apply (run_audited_closed _ _ _ _ _ _ e) | by left]. }
    edestruct audited_change as (change & res & Hau); [done | done | exact Hcreate |].
    destruct Hau as [(ok & status & Hev) _ Hchange _ _]. eexists; split; [exact Hev|].
    destruct res as [res|]; [right | left; by rewrite Hchange].
    eexists _, _, _, _, _, _. split; [exact Hadm|].
    split; [reflexivity|]. split; [done | exact Hchange].
Qed.

(** C27: When the audit table can be written: a request whose instance or write
    policy cannot be looked up returns the error of that look-up and changes
    nothing; every other request, refused ones included, leaves exactly one
    audit row, settled: success with the returned number and count of rows, or
    denied or failed with the returned error; no row stays pending. *)
Theorem write_query_audited instanceID req operator w :
  (forall t, env_audit_create E t = None) -> (forall t, env_audit_update E t = None) ->
  0 < next_audit w ->
  let r := ExecuteWriteQuery E instanceID (Some req) operator w in
  match getEnabledQueryInstance E instanceID, resolveWritePolicy (env_writePolicyResolver E) with
  | Err e, _ | Ok _, Err e => r = (Err e, w)
  | Ok _, Ok _ =>
    exists row, audits r.2 = <[next_audit w := row]> (audits w) /\ a_ID row = next_audit w /\
      a_SQLText row = trimText (TrimSpace (req_SQLText req)) 20000 /\
      a_OperatorID row = op_ID operator /\
      match r.1 with
      | Ok vo => vo_AuditID vo = next_audit w /\ a_Status row = DatabaseQueryStatusSuccess /\
                 a_RowsAffected row = vo_RowsAffected vo
      | Err e => a_Status row ∈ [DatabaseQueryStatusDenied; DatabaseQueryStatusFailed] /\
                 a_ErrorMessage row = trimText e 500
      end
  end.
Proof.
  intros Hcreate Hupdate Hid r. subst r.
  destruct (write_query_looked_up instanceID req operator w) as [(e & Hr & He)|(item0 & policy0 & Hi & Hp & H)].
  { destruct He as [->|(item & -> & ->)]; exact Hr. }
  rewrite Hi, Hp. clear Hi Hp.
  destruct H as [Hrepo [(item & schema & safety & message & ->) | (item & policy & safety & Hadm & ->)]].
  - destruct (denied item schema (TrimSpace (req_SQLText req)) (TrimSpace (req_Reason req))
      (req_Confirmed req) safety message operator w Hrepo)
      as [_ (row & ? & ? & ? & ? & Hst & ?)%(fun H => H (Hcreate _))].
    exists row. do 4 (split; [done|]). cbn [fst]. rewrite Hst. split; [left | done].
  - edestruct audited_change as (change & res & Hau); [done | done | apply Hcreate |].
    destruct Hau as [_ _ Hchange Hrow Hres].
    destruct (Hrow Hupdate) as (row & Hins & Hrid & Htext & Hop & Hstatus).
    exists row. do 4 (split; [done|]).
    destruct (run_audited_change _ _ _ _ _ _ _ _ _ _) as [[vo|e] w']; cbn [fst snd] in *.
    + destruct Hstatus as [-> ->], Hres as [-> ->].
      destruct (cr_counts _ _ _ _ _ Hchange eq_refl) as (n & _ & Hn & _). simpl in Hn.
      repeat split; try done. rewrite Hn. unfold normalizeRowsAffected.
      repeat case_match; bsimpl; lia.
    + destruct Hstatus as [-> ->]. split; [right; left | done].
Qed.

End facts.

(** ** Concrete runs *)
Section examples.
#[local] Existing Instance sample_tables.

Definition sample_instance : DatabaseInstance := {|
  i_ID := 7; i_Name := $"orders"; i_DBType := $"MySQL"; i_Host := $"db1"; i_Port := 3306;
  i_DefaultDatabase := $"shop"; i_CredentialID := 3; i_TLSEnabled := false;
  i_Status := $"enabled" |}.

Definition sample_policy : DatabaseWritePolicy := {|
  WriteEnabled := true; WriteExplainEnabled := false; DDLEnabled := true;
  DDLHighRiskConfirm := true; DDLReasonRequired := true; DDLRequireBackupHint := true;
  HighRiskRequiresConfirm := true; OperationReasonRequired := true; MaxAffectedRows := 10 |}.

(** A server on which every statement affects [rows] rows. *)
Definition sample_env (rows : Z) : Env := {|
  env_instance id := if id =? 7 then Ok sample_instance else Err $"record not found";
  env_auditRepo := true;
  env_credentialResolver :=
    Some (fun _ => Ok (Some {| Username := $"app"; Password := $"secret" |}));
  env_writePolicyResolver := Some (Ok (Some sample_policy));
  env_audit_create _ := None; env_audit_update _ := None; env_open _ _ := None;
  env_ping _ := None; env_begin _ := None; env_exec _ _ := None; env_rows _ := Ok rows;
  env_rollback _ := None; env_commit _ := None;
  env_now t := 1000000 * Z.of_nat (length t); env_sha256_hex s := s;
  env_time_text t := fmt_d t |}.

Definition sample_request : DatabaseWriteExecuteRequest := {|
  req_SchemaName := []; req_SQLText := $" update t set a = 1 where id < 5; ";
  req_Reason := $"ticket 12"; req_Confirmed := true; req_TimeoutSeconds := 5 |}.
Definition sample_operator : QueryOperator :=
  {| op_ID := 1; op_Username := $"ops"; op_ClientIP := $"10.0.0.1" |}.
Definition sample_world : World := {| events := []; audits := ∅; next_audit := 1 |}.

Definition sample_run (rows : Z) : result DatabaseWriteExecuteVO * World :=
  ExecuteWriteQuery (sample_env rows) 7 (Some sample_request) sample_operator sample_world.

(** Within the limit the change is committed; beyond it, it is rolled back. *)
Example sample_committed :
  existsb is_commit (events (sample_run 4).2) = true /\
  statements (events (sample_run 4).2) = [$"update t set a = 1 where id < 5;"] /\
  existsb is_commit (events (sample_run 11).2) = false /\
  existsb is_rollback (events (sample_run 11).2) = true.
Proof. by vm_compute. Qed.

Lemma write_query_guarded_witness :
  let req := sample_request in let w := sample_world in
  let r := ExecuteWriteQuery (sample_env 4) 7 (Some req) sample_operator w in
  exists new, events r.2 = events w ++ new /\
    (forallb is_audit new = true \/
     exists item policy safety change settle res,
       write_admitted (sample_env 4) 7 req item policy safety /\
       new = EvAuditCreate (next_audit w) DatabaseQueryStatusPending true :: change ++ [settle] /\
       is_audit settle = true /\
       change_run (search_path_sql (resolveQuerySchemaName item (req_SchemaName req)))
         (TrimSpace (req_SQLText req)) (w_RowsAffectedLimit safety) res change).
Proof.
  exact (write_query_guarded (sample_env 4) 7 sample_request sample_operator sample_world
    eq_refl).
Defined.

Lemma write_query_audited_witness :
  let req := sample_request in let w := sample_world in
  let r := ExecuteWriteQuery (sample_env 4) 7 (Some req) sample_operator w in
  exists row, audits r.2 = <[next_audit w := row]> (audits w) /\ a_ID row = next_audit w /\
    a_SQLText row = trimText (TrimSpace (req_SQLText req)) 20000 /\
    a_OperatorID row = op_ID sample_operator /\
    match r.1 with
    | Ok vo => vo_AuditID vo = next_audit w /\ a_Status row = DatabaseQueryStatusSuccess /\
               a_RowsAffected row = vo_RowsAffected vo
    | Err e => a_Status row ∈ [DatabaseQueryStatusDenied; DatabaseQueryStatusFailed] /\
               a_ErrorMessage row = trimText e 500
    end.
Proof.
  exact (write_query_audited (sample_env 4) 7 sample_request sample_operator sample_world
    (fun _ => eq_refl) (fun _ => eq_refl) eq_refl).
Defined.
End examples.
