(* ===== verification/DdlExec.v ===== *)
(** * Controlled DDL: [database/query_ddl.go]

    [ValidateDDLQuery] and [ExecuteDDLQuery] over the environment and the audit
    table of [WriteExec]. MySQL commits a DDL statement by itself, so it runs
    without a transaction there; PostgreSQL runs it in one. *)

From Stdlib Require Import ZArith Lia.
From stdpp Require Import base tactics option list numbers gmap.
From S2P Require Import Prelude GoStrings SqlSafety WriteExec.

Open Scope Z_scope.

Record DatabaseDDLValidateVO := {
  dv_InstanceID : Z; dv_InstanceName : gostring; dv_DBType : gostring; dv_DBTypeText : gostring;
  dv_SchemaName : gostring; dv_SQLType : gostring; dv_RiskLevel : gostring;
  dv_RiskLevelText : gostring; dv_Allowed : bool; dv_ConfirmRequired : bool;
  dv_ReasonRequired : bool; dv_BackupRequired : bool; dv_Message : gostring }.

Section operations.
Context `{U : UnicodeTables} (E : Env).
Abbreviation M := (st World).

Definition supportsDDLExecution (dbType : gostring) : bool :=
  one_of (normalizeDBType dbType) [DBTypeMySQL; DBTypeMariaDB; DBTypePostgreSQL].
Definition isSupportedDDLExecuteType (sqlType : gostring) : bool :=
  EqualFold (TrimSpace sqlType) $"CREATE".

Definition buildDDLRollbackSQLHint (dbType sqlType : gostring) : gostring :=
  if one_of (ToUpper (TrimSpace sqlType)) [$"CREATE"]
  then $"DDL 未自动生成回滚 SQL。若需回滚，请确认对象未被业务依赖后，基于备份和结构版本手工编写反向 DDL。"
  else $"DDL 未自动生成回滚 SQL，请基于备份、结构版本或变更记录手工恢复。".

(** ** Running the statement *)
Definition ddlRowsAffected : M Z :=
  r ← sql_rows E;
  mret match r with Ok n => normalizeRowsAffected n | Err _ => 0 end.

Definition executeMySQLDDL (item : DatabaseInstance) (credential : option ConnectionCredential)
    (schemaName sqlText : gostring) (timeoutSeconds : Z) : M (Z * option gostring) :=
  let queryItem := with_schema item schemaName in
  o ← openMySQLDB E queryItem credential;
  match o with
  | Some err => mret (0, Some err)
  | None => closing (
    p ← ping_deadline E timeoutSeconds;
    match p with
    | Some err => mret (0, Some err)
    | None =>
      e ← sql_exec E sqlText;
      match e with
      | Some err => mret (0, Some ($"执行 DDL 结构变更失败: " ++ err))
      | None => n ← ddlRowsAffected; mret (n, None)
      end
    end)
  end.

Definition run_ddl (sqlText : gostring) : M (Z * option gostring) :=
  e ← sql_exec E sqlText;
  match e with
  | Some err => sql_rollback E;; mret (0, Some ($"执行 DDL 结构变更失败: " ++ err))
  | None =>
    rowsAffected ← ddlRowsAffected;
    c ← call (env_commit E) EvCommit;
    match c with
    | Some err => mret (rowsAffected, Some ($"提交 DDL 结构变更失败: " ++ err))
    | None => mret (rowsAffected, None)
    end
  end.

Definition executePostgreSQLDDL (item : DatabaseInstance)
    (credential : option ConnectionCredential) (schemaName sqlText : gostring)
    (timeoutSeconds : Z) : M (Z * option gostring) :=
  o ← openPostgreSQLDB E item credential;
  match o with
  | Some err => mret (0, Some err)
  | None => closing (
    p ← ping_deadline E timeoutSeconds;
    match p with
    | Some err => mret (0, Some err)
    | None =>
      b ← call (env_begin E) EvBegin;
      match b with
      | Some err => mret (0, Some ($"开启 DDL 结构变更事务失败: " ++ err))
      | None =>
        if bool_decide (TrimSpace schemaName = []) then run_ddl sqlText
        else
          s ← sql_exec E (search_path_sql schemaName);
          match s with
          | Some err => sql_rollback E;; mret (0, Some ($"设置 Schema 失败: " ++ err))
          | None => run_ddl sqlText
          end
      end
    end)
  end.

Definition executeSQLDDL (item : DatabaseInstance) (credential : option ConnectionCredential)
    (schemaName sqlText : gostring) (timeoutSeconds : Z) : M (Z * option gostring) :=
  let t := normalizeDBType (i_DBType item) in
  if one_of t [DBTypeMySQL; DBTypeMariaDB]
  then executeMySQLDDL item credential schemaName sqlText timeoutSeconds
  else if one_of t [DBTypePostgreSQL]
  then executePostgreSQLDDL item credential schemaName sqlText timeoutSeconds
  else mret (0, Some (DBTypeText (i_DBType item) ++ $" DDL 结构变更执行将在后续批次接入")).

(** ** [ValidateDDLQuery] *)
Definition ValidateDDLQuery (instanceID : Z) (req : option (gostring * gostring))
    : result DatabaseDDLValidateVO :=
  match req with
  | None => Err $"请求不能为空"
  | Some (schema, sqlText) =>
    match env_instance E instanceID with
    | Err _ => Err $"数据库实例不存在"
    | Ok item =>
      if negb (bool_decide (TrimSpace (i_Status item) = DatabaseInstanceStatusEnabled))
      then Err $"数据库实例已禁用"
      else
        policy ← resolveWritePolicy (env_writePolicyResolver E);
        let r := AnalyzeDDLSQLByDB (i_DBType item) sqlText (Some policy) in
        Ok {| dv_InstanceID := i_ID item; dv_InstanceName := i_Name item;
              dv_DBType := i_DBType item; dv_DBTypeText := DBTypeText (i_DBType item);
              dv_SchemaName := resolveQuerySchemaName item schema; dv_SQLType := d_SQLType r;
              dv_RiskLevel := d_RiskLevel r; dv_RiskLevelText := QueryRiskLevelText (d_RiskLevel r);
              dv_Allowed := d_Allowed r; dv_ConfirmRequired := d_ConfirmRequired r;
              dv_ReasonRequired := d_ReasonRequired r; dv_BackupRequired := d_BackupRequired r;
              dv_Message := d_Message r |}
    end
  end.

(** ** [ExecuteDDLQuery] *)
(** A row of the audit, as both kinds of rows are filled. *)
Definition ddl_audit (item : DatabaseInstance) (schemaName sqlText reason : gostring)
    (confirmed : bool) (safety : SQLDDLSafetyResult) (sqlType riskLevel status message : gostring)
    (operator : QueryOperator) : DatabaseQueryAudit := {|
  a_ID := 0; a_InstanceID := i_ID item; a_SchemaName := schemaName;
  a_OperatorID := op_ID operator; a_OperatorName := trimText (op_Username operator) 100;
  a_AuditAction := DatabaseAuditActionDDLExecute; a_Reason := trimText reason 500;
  a_ConfirmRequired := d_ConfirmRequired safety; a_Confirmed := confirmed;
  a_SQLText := trimText sqlText 20000; a_SQLFingerprint := sqlFingerprint E sqlText;
  a_SQLType := sqlType; a_RiskLevel := riskLevel; a_Status := status;
  a_RowsAffectedLimit := 0; a_RowsAffected := 0; a_DurationMs := 0; a_RollbackSQL := [];
  a_ErrorMessage := message; a_ClientIP := trimText (op_ClientIP operator) 64 |}.

Definition recordDeniedDDLQuery (item : DatabaseInstance) (schemaName sqlText reason : gostring)
    (confirmed : bool) (safety : SQLDDLSafetyResult) (message : gostring)
    (operator : QueryOperator) : M unit :=
  if negb (env_auditRepo E) then mret tt
  else
    let sqlType := ToUpper (TrimSpace (d_SQLType safety)) in
    let sqlType := if bool_decide (sqlType = []) then $"UNKNOWN" else sqlType in
    let riskLevel := TrimSpace (d_RiskLevel safety) in
    let riskLevel := if bool_decide (riskLevel = []) then DatabaseQueryRiskHigh else riskLevel in
    audit_Create E (ddl_audit item schemaName sqlText reason confirmed safety sqlType riskLevel
      DatabaseQueryStatusDenied (trimText message 500) operator);;
    mret tt.

(** The request is past its checks: the audit row, the credential, the DDL. *)
Definition run_audited_ddl (item : DatabaseInstance) (schemaName sqlText reason : gostring)
    (timeout : Z) (confirmed : bool) (safety : SQLDDLSafetyResult) (operator : QueryOperator)
    : M (result DatabaseWriteExecuteVO) :=
  let rollbackSQL := buildDDLRollbackSQLHint (i_DBType item) (d_SQLType safety) in
  run_audited E
    (ddl_audit item schemaName sqlText reason confirmed safety (d_SQLType safety)
       (d_RiskLevel safety) DatabaseQueryStatusPending [] operator)
    (i_CredentialID item)
    (fun credential => executeSQLDDL item credential schemaName (d_SQLText safety) timeout)
    rollbackSQL
    (fun auditID rowsAffected duration executedAt => {|
       vo_AuditID := auditID; vo_AuditAction := DatabaseAuditActionDDLExecute;
       vo_InstanceID := i_ID item; vo_InstanceName := i_Name item;
       vo_DBType := i_DBType item; vo_DBTypeText := DBTypeText (i_DBType item);
       vo_SchemaName := schemaName; vo_SQLType := d_SQLType safety;
       vo_RiskLevel := d_RiskLevel safety;
       vo_RiskLevelText := QueryRiskLevelText (d_RiskLevel safety);
       vo_ExecutedSQL := d_SQLText safety; vo_RowsAffected := rowsAffected;
       vo_RowsAffectedLimit := 0;
       vo_Reason := trimText reason 500; vo_ConfirmRequired := d_ConfirmRequired safety;
       vo_Confirmed := confirmed; vo_RollbackSQL := rollbackSQL; vo_DurationMs := duration;
       vo_Message := $"DDL 结构变更执行成功，请同步元数据后查看最新结构";
       vo_ExecutedAt := executedAt |}).

Definition ExecuteDDLQuery (instanceID : Z) (req : option DatabaseWriteExecuteRequest)
    (operator : QueryOperator) : M (result DatabaseWriteExecuteVO) :=
  match req with
  | None => mret (Err $"请求不能为空")
  | Some req =>
    match getEnabledQueryInstance E instanceID with
    | Err e => mret (Err e)
    | Ok item =>
      match resolveWritePolicy (env_writePolicyResolver E) with
      | Err e => mret (Err e)
      | Ok policy =>
        let timeout := normalizeQueryTimeout (req_TimeoutSeconds req) in
        let schemaName := resolveQuerySchemaName item (req_SchemaName req) in
        let sqlText := TrimSpace (req_SQLText req) in
        let reason := TrimSpace (req_Reason req) in
        let safety := AnalyzeDDLSQLByDB (i_DBType item) sqlText (Some policy) in
        let deny (message : gostring) : M (result DatabaseWriteExecuteVO) :=
          recordDeniedDDLQuery item schemaName sqlText reason (req_Confirmed req) safety
            message operator;;
          mret (Err message) in
        if negb (d_Allowed safety) then deny (d_Message safety)
        else if negb (supportsDDLExecution (i_DBType item))
        then deny (DBTypeText (i_DBType item) ++ $" DDL 结构变更执行将在后续批次接入")
        else if negb (isSupportedDDLExecuteType (d_SQLType safety))
        then deny $"当前 DDL 执行仅支持 CREATE TABLE / CREATE INDEX"
        else if d_ReasonRequired safety && bool_decide (reason = [])
        then deny $"DDL 结构变更原因不能为空"
        else if d_ConfirmRequired safety && negb (req_Confirmed req)
        then deny $"高风险 DDL 结构变更未确认"
        else run_audited_ddl item schemaName sqlText reason timeout (req_Confirmed req)
               safety operator
      end
    end
  end.
End operations.
