(* ===== verification/DdlExecFacts.v ===== *)
(** * What running a checked DDL statement guarantees

    The session protocol with and without a transaction, the checks in front
    of it, and the audit row behind which it runs. *)

From Stdlib Require Import ZArith Lia.
From stdpp Require Import base tactics option list numbers sets gmap.
From S2P Require Import Prelude GoStrings SqlLex SqlSafety WriteExec WriteExecFacts DdlExec.

Open Scope Z_scope.

(** ** The session protocol
    [tx]: the statement runs in a transaction. [InTx]: nothing failed yet;
    [MayCommit]: the statement was executed. *)
Definition ddl_step (tx : bool) (s : session) (e : event) : session :=
  match s, e with
  | Closed, EvOpen _ => Opened
  | Opened, EvDeadline _ => Limited
  | Limited, EvPing ok => if ok then (if tx then Ready else InTx) else Over
  | Ready, EvBegin ok => if ok then InTx else Over
  | InTx, EvExec _ ok => if ok then InTx else if tx then MustRollback else Over
  | InTx, EvRows _ => if tx then MayCommit else Over
  | MayCommit, EvCommit _ => Over
  | MustRollback, EvRollback _ => Over
  | Over, EvClose => Closed
  | _, _ => Violation
  end.
Definition is_executed (e : event) : bool := match e with EvExec _ ok => ok | _ => false end.
Definition ddl_session (tx : bool) (l : list event) : session := foldl (ddl_step tx) Closed l.

Section facts.
Context `{U : UnicodeTables} (E : Env).

(** A run of a DDL statement: what it appends to the events. *)
Record ddl_run (tx : bool) (path sqlText : gostring) (res : Z * option gostring)
    (new : list event) : Prop := {
  dr_session : ddl_session tx new = Closed;
  dr_statements : statements new `prefix_of` [sqlText] \/
                  (tx = true /\ statements new `prefix_of` [path; sqlText]);
  dr_ok : res.2 = None -> 0 <= res.1 /\ existsb is_executed new = true /\
    last (statements new) = Some sqlText;
  dr_plain : tx = false -> res.2 <> None -> existsb is_executed new = false;
  dr_tx : tx = true -> (res.2 = None <-> existsb is_commit new = true);
  dr_no_audit : forallb (fun e => negb (is_audit e)) new = true;
}.

Lemma normalizeRowsAffected_nonneg n : 0 <= normalizeRowsAffected n.
Proof. unfold normalizeRowsAffected. case_match; bsimpl; lia. Qed.

Ltac settle_ddl :=
  forget_texts; split; unfold ddl_session; simpl;
  try done; eauto using prefix_nil, prefix_cons, normalizeRowsAffected_nonneg.

Lemma mysql_ddl path item credential schemaName sqlText timeout :
  runs (executeMySQLDDL E item credential schemaName sqlText timeout) (ddl_run false path sqlText).
Proof.
  unfold executeMySQLDDL, openMySQLDB, sql_open, ping_deadline, closing, ddlRowsAffected.
  repeat run_step; settle_ddl.
Qed.

Lemma postgresql_ddl item credential schemaName sqlText timeout :
  runs (executePostgreSQLDDL E item credential schemaName sqlText timeout)
    (ddl_run true (search_path_sql schemaName) sqlText).
Proof.
  unfold executePostgreSQLDDL, openPostgreSQLDB, sql_open, ping_deadline, closing, run_ddl, ddlRowsAffected.
  repeat run_step; settle_ddl.
Qed.

(** The protocol of the engine: with a transaction everywhere but on MySQL. *)
Definition in_transaction (dbType : gostring) : bool :=
  negb (one_of (normalizeDBType dbType) [DBTypeMySQL; DBTypeMariaDB]).

Lemma sql_ddl item credential schemaName sqlText timeout :
  supportsDDLExecution (i_DBType item) = true ->
  runs (executeSQLDDL E item credential schemaName sqlText timeout)
    (ddl_run (in_transaction (i_DBType item)) (search_path_sql schemaName) sqlText).
Proof.
  unfold supportsDDLExecution, executeSQLDDL, in_transaction. intros Hs.
  destruct (one_of (normalizeDBType (i_DBType item)) [DBTypeMySQL; DBTypeMariaDB]) eqn:Hm.
  - apply mysql_ddl.
  - assert (one_of (normalizeDBType (i_DBType item)) [DBTypePostgreSQL] = true) as ->.
    { unfold one_of in *. apply bool_decide_eq_true in Hs. apply bool_decide_eq_false in Hm.
      apply bool_decide_eq_true. set_solver. }
    apply postgresql_ddl.
Qed.

(** ** The checks in front of the statement *)
Record ddl_admitted (instanceID : Z) (req : DatabaseWriteExecuteRequest)
    (item : DatabaseInstance) (policy : DatabaseWritePolicy) (safety : SQLDDLSafetyResult)
    : Prop := {
  da_item : getEnabledQueryInstance E instanceID = Ok item;
  da_policy : resolveWritePolicy (env_writePolicyResolver E) = Ok policy;
  da_safety : safety = AnalyzeDDLSQLByDB (i_DBType item) (TrimSpace (req_SQLText req))
                         (Some policy);
  da_allowed : d_Allowed safety = true;
  da_engine : supportsDDLExecution (i_DBType item) = true;
  da_create : isSupportedDDLExecuteType (d_SQLType safety) = true;
  da_reason : d_ReasonRequired safety = true -> TrimSpace (req_Reason req) <> [];
  da_confirmed : d_ConfirmRequired safety = true -> req_Confirmed req = true;
}.

(** The three ways a request ends. *)
Lemma ddl_query_cases instanceID req operator w :
  let r := ExecuteDDLQuery E instanceID (Some req) operator w in
  (exists e, r = (Err e, w)) \/
  env_auditRepo E = true /\
  ((exists item schemaName safety message, r =
      (Err message, (recordDeniedDDLQuery E item schemaName (TrimSpace (req_SQLText req))
         (TrimSpace (req_Reason req)) (req_Confirmed req) safety message operator w).2)) \/
   (exists item policy safety, ddl_admitted instanceID req item policy safety /\
     r = run_audited_ddl E item (resolveQuerySchemaName item (req_SchemaName req))
           (TrimSpace (req_SQLText req)) (TrimSpace (req_Reason req))
           (normalizeQueryTimeout (req_TimeoutSeconds req)) (req_Confirmed req) safety
           operator w)).
Proof.
  unfold ExecuteDDLQuery. cbv zeta.
  destruct (getEnabledQueryInstance E instanceID) as [item|e] eqn:Hitem; [|left; by exists e].
  destruct (resolveWritePolicy _) as [policy|e] eqn:Hpolicy; [|left; by exists e].
  right. split; [by eapply enabled_instance_repo|].
  do 5 (case_match; [left; rewrite st_bind_eq; by repeat eexists|]). right. bsimpl.
  eexists _, _, _; split; [|reflexivity].
  split; [done | done | done | done | done | done | |]; intros Hreq;
    match goal with H : _ && _ = false |- _ => rewrite Hreq in H; cbn [andb] in H; by bsimpl end.
Qed.


(** ** The whole request *)
(** C23: A DDL request reaches the database only for an enabled instance of MySQL,
    MariaDB or PostgreSQL, after the statement check allowed it as a [CREATE],
    with a reason and a confirmation when they are required, and only behind a
    pending audit row; the calls that follow are one run of the session
    protocol of the engine on the checked statement. *)
Theorem ddl_query_guarded instanceID req operator w :
  0 < next_audit w ->
  let r := ExecuteDDLQuery E instanceID (Some req) operator w in
  exists new, events r.2 = events w ++ new /\
    (forallb is_audit new = true \/
     exists item policy safety change settle res,
       ddl_admitted instanceID req item policy safety /\
       new = EvAuditCreate (next_audit w) DatabaseQueryStatusPending true :: change ++ [settle] /\
       is_audit settle = true /\
       ddl_run (in_transaction (i_DBType item))
         (search_path_sql (resolveQuerySchemaName item (req_SchemaName req)))
         (d_SQLText safety) res change).
Proof.
  intros Hid r. subst r.
  destruct (ddl_query_cases instanceID req operator w)
    as [(e & ->) | [Hrepo [(item & schema & safety & message & ->) |
                           (item & policy & safety & Hadm & ->)]]].
  - exists []. split; [by rewrite app_nil_r | by left].
  - unfold recordDeniedDDLQuery. rewrite Hrepo. cbn [negb]. rewrite st_bind_eq.
    match goal with |- context [audit_Create E ?row w] =>
      destruct (refused E row w eq_refl) as [(id & ok & Hev) _];
      destruct (audit_Create E row w) as [? w'] end.
    eexists; split; [exact Hev | by left].
  - destruct (env_audit_create E (events w)) as [e|] eqn:Hcreate.
    { eexists; split; [by apply (run_audited_closed _ _ _ _ _ _ _ e) | by left]. }
    edestruct (audited_run E) as (change & res & Hau);
      [exact Hrepo | exact Hid | exact Hcreate | | | |]; cycle 3.
    + destruct Hau as [(ok & status & Hev) _ Hchange _ _]. eexists; split; [exact Hev|].
      destruct res as [res|]; [right | left; by rewrite Hchange].
      eexists _, _, _, _, _, _. split; [exact Hadm|].
      split; [reflexivity|]. split; [done | exact Hchange].
    + done.
    + intros credential. apply sql_ddl, Hadm.
    + done.
Qed.

(** When the audit table can be written, a request that gets past the instance
    and the policy leaves one audit row, settled as the caller is told: success
    with the count, or denied or failed with the error. *)
Theorem ddl_query_audited instanceID req operator w :
  (forall t, env_audit_create E t = None) -> (forall t, env_audit_update E t = None) ->
  0 < next_audit w ->
  let r := ExecuteDDLQuery E instanceID (Some req) operator w in
  (exists e, r = (Err e, w)) \/
  exists row, audits r.2 = <[next_audit w := row]> (audits w) /\ a_ID row = next_audit w /\
    a_SQLText row = trimText (TrimSpace (req_SQLText req)) 20000 /\
    a_OperatorID row = op_ID operator /\
    match r.1 with
    | Ok vo => vo_AuditID vo = next_audit w /\ a_Status row = DatabaseQueryStatusSuccess /\
               a_RowsAffected row = normalizeRowsAffected (vo_RowsAffected vo)
    | Err e => a_Status row ∈ [DatabaseQueryStatusDenied; DatabaseQueryStatusFailed] /\
               a_ErrorMessage row = trimText e 500
    end.
Proof.
  intros Hcreate Hupdate Hid r. subst r.
  destruct (ddl_query_cases instanceID req operator w)
    as [(e & ->) | [Hrepo [(item & schema & safety & message & ->) |
                           (item & policy & safety & Hadm & ->)]]]; [by left; eauto|right..].
  - unfold recordDeniedDDLQuery. rewrite Hrepo. cbn [negb]. rewrite st_bind_eq.
    match goal with |- context [audit_Create E ?row w] =>
      destruct (refused E row w eq_refl) as [_ Hrow]; destruct (audit_Create E row w) as [? w'] end.
    eexists; split; [exact (Hrow (Hcreate _))|]. do 3 (split; [done|]). split; [left | done].
  - edestruct (audited_run E) as (change & res & Hau);
      [exact Hrepo | exact Hid | apply Hcreate | | | |]; cycle 3.
    + destruct Hau as [_ _ _ Hrow Hres].
      destruct (Hrow Hupdate) as (row & Hins & Hrid & Htext & Hop & Hstatus).
      exists row. split; [exact Hins|]. split; [exact Hrid|]. split; [exact Htext|].
      split; [exact Hop|]. unfold run_audited_ddl.
      match goal with |- match fst ?m with _ => _ end => destruct m as [[vo|e] w'] end; cbn [fst snd] in *.
      * destruct Hstatus, Hres. done.
      * destruct Hstatus as [-> ->]. split; [right; left | done].
    + done.
    + intros credential. apply (sql_ddl item credential), Hadm.
    + done.
Qed.
End facts.

(** ** Concrete runs *)
Section examples.
#[local] Existing Instance sample_tables.

Definition sample_ddl_request : DatabaseWriteExecuteRequest := {|
  req_SchemaName := []; req_SQLText := $" create table t2 (id int); ";
  req_Reason := $"ticket 13"; req_Confirmed := true; req_TimeoutSeconds := 5 |}.
Definition sample_ddl_run : result DatabaseWriteExecuteVO * World :=
  ExecuteDDLQuery (sample_env 0) 7 (Some sample_ddl_request) sample_operator sample_world.

(** On MySQL the statement runs without a transaction. *)
Example sample_ddl_executed :
  statements (events sample_ddl_run.2) = [$"create table t2 (id int)"] /\
  existsb is_commit (events sample_ddl_run.2) = false /\
  (if sample_ddl_run.1 is Ok _ then true else false) = true.
Proof. by vm_compute. Qed.

Lemma ddl_query_guarded_witness :
  let r := ExecuteDDLQuery (sample_env 0) 7 (Some sample_ddl_request) sample_operator sample_world in
  exists new, events r.2 = events sample_world ++ new /\
    (forallb is_audit new = true \/
     exists item policy safety change settle res,
       ddl_admitted (sample_env 0) 7 sample_ddl_request item policy safety /\
       new = EvAuditCreate (next_audit sample_world) DatabaseQueryStatusPending true
               :: change ++ [settle] /\
       is_audit settle = true /\
       ddl_run (in_transaction (i_DBType item))
         (search_path_sql (resolveQuerySchemaName item (req_SchemaName sample_ddl_request)))
         (d_SQLText safety) res change).
Proof.
  exact (ddl_query_guarded (sample_env 0) 7 sample_ddl_request sample_operator sample_world eq_refl).
Defined.
End examples.
