(* ===== verification/PgWal.v ===== *)
(** PostgreSQL WAL names and positions
    (`internal/biz/database/pgwal/pgwal.go`): log sequence numbers, segment
    names, timelines and the range of segments between two names.

    Numbers are [uint64] with their wrap-around ([GoNumbers.uint64]); a text is
    a list of code points, and the slices of a name are taken after the regular
    expression has shown it to be ASCII. [SegmentRange] answers [None] where
    [make] panics on a negative capacity. *)
From Stdlib Require Import ZArith Lia String.
From stdpp Require Import base list.
From S2P Require Import Prelude GoStrings GoNumbers.
Local Open Scope Z_scope.

Definition DefaultSegmentSize : Z := 16 * 1024 * 1024.

Record Segment := {
  sg_Name : gostring; sg_TimelineID : gostring; sg_Log : Z; sg_Segment : Z; sg_SegmentNo : Z }.

#[export] Instance Segment_eq_dec : EqDecision Segment.
Proof. solve_decision. Defined.

Section pgwal.
Context `{U : UnicodeTables}.

(** ** Names *)
Definition is_hex (c : rune) : bool :=
  (48 <=? c) && (c <=? 57) || (65 <=? c) && (c <=? 70) || (97 <=? c) && (c <=? 102).
Definition all_hex (s : gostring) : bool := forallb is_hex s.
Definition all_decimal (s : gostring) : bool :=
  forallb ascii_digit s && negb (bool_decide (s = [])).

(** [segmentPattern] and [historyPattern]. *)
Definition segmentPattern (s : gostring) : bool := (length s =? 24)%nat && all_hex s.
Definition historyPattern (s : gostring) : bool :=
  all_hex (take 8 s) && (8 <=? length s)%nat && bool_decide (drop 8 s = $".history").

Definition IsSegmentName (value : gostring) : bool := segmentPattern (TrimSpace value).
Definition IsTimelineHistoryFile (value : gostring) : bool := historyPattern (TrimSpace value).

Definition TimelineFromHistoryFile (value : gostring) : gostring :=
  let value := TrimSpace value in
  if negb (IsTimelineHistoryFile value) then []
  else ToUpper (TrimSuffix value $".history").

(** ** Timelines *)
Definition NormalizeTimelineID (value : gostring) : gostring :=
  let value := TrimSpace value in
  if bool_decide (value = []) then []
  else
    let value := TrimPrefix (ToUpper value) $"0X" in
    let base := if all_decimal value && negb (byte_len value =? 8) then 10 else 16 in
    match ParseUint value base 64 with
    | Err _ => ToUpper value
    | Ok parsed => fmt_08X parsed
    end.

Definition TimelineNumber (value : gostring) : result Z :=
  let value := NormalizeTimelineID value in
  if bool_decide (value = []) then Err $"empty timeline" else ParseUint value 16 64.

(** ** Log sequence numbers *)
Definition ParseLSN (value : gostring) : result Z :=
  let value := ToUpper (TrimSpace value) in
  let '(highText, lowText, ok) := cut_at 47 value in
  if negb ok || bool_decide (highText = []) || bool_decide (lowText = [])
  then Err ($"invalid PostgreSQL LSN: " ++ value)
  else
    high ← ParseUint highText 16 32;
    low ← ParseUint lowText 16 32;
    mret (uint64 (uint64 (Z.shiftl high 32) + low)).

Definition FormatLSN (value : Z) : gostring :=
  fmt_X (Z.shiftr value 32) ++ $"/" ++ fmt_X (Z.land value 4294967295).

Definition CompareLSN (left right : gostring) : result Z :=
  leftValue ← ParseLSN left;
  rightValue ← ParseLSN right;
  mret (if leftValue <? rightValue then -1 else if rightValue <? leftValue then 1 else 0).

(** ** Segments *)
Definition segment_size (segmentSize : Z) : Z :=
  if segmentSize <=? 0 then DefaultSegmentSize else segmentSize.
Definition segmentsPerLog (segmentSize : Z) : Z :=
  let n := uint64 (4294967296 / segmentSize) in if n =? 0 then 256 else n.

Definition ParseSegmentName (value : gostring) (segmentSize : Z) : result Segment :=
  let value := ToUpper (TrimSpace value) in
  if negb (IsSegmentName value)
  then Err ($"invalid PostgreSQL WAL segment name: " ++ value)
  else
    let perLog := segmentsPerLog (segment_size segmentSize) in
    logID ← ParseUint (take 8 (drop 8 value)) 16 64;
    segmentID ← ParseUint (take 8 (drop 16 value)) 16 64;
    mret {| sg_Name := value; sg_TimelineID := take 8 value; sg_Log := logID;
            sg_Segment := segmentID;
            sg_SegmentNo := uint64 (uint64 (logID * perLog) + segmentID) |}.

Definition SegmentForLSN (timelineID : gostring) (lsn segmentSize : Z) : Segment :=
  let segmentSize := segment_size segmentSize in
  let timelineID := NormalizeTimelineID timelineID in
  let timelineID := if bool_decide (timelineID = []) then $"00000001" else timelineID in
  let perLog := segmentsPerLog segmentSize in
  let logID := Z.shiftr lsn 32 in
  let low := Z.land lsn 4294967295 in
  let segmentID := low / segmentSize in
  {| sg_Name := timelineID ++ fmt_08X logID ++ fmt_08X segmentID;
     sg_TimelineID := timelineID; sg_Log := logID; sg_Segment := segmentID;
     sg_SegmentNo := uint64 (uint64 (logID * perLog) + segmentID) |}.

Definition SegmentLSNRange (segment : Segment) (segmentSize : Z) : Z * Z :=
  let segmentSize := segment_size segmentSize in
  let start := uint64 (uint64 (Z.shiftl (sg_Log segment) 32) +
                       uint64 (sg_Segment segment * segmentSize)) in
  (start, uint64 (start + segmentSize)).

Definition nextSegment (current : Segment) (segmentSize : Z) : Segment :=
  let perLog := segmentsPerLog (segment_size segmentSize) in
  let seg := uint64 (sg_Segment current + 1) in
  let wraps := perLog <=? seg in
  let seg := if wraps then 0 else seg in
  let log := if wraps then uint64 (sg_Log current + 1) else sg_Log current in
  {| sg_Name := sg_TimelineID current ++ fmt_08X log ++ fmt_08X seg;
     sg_TimelineID := sg_TimelineID current; sg_Log := log; sg_Segment := seg;
     sg_SegmentNo := uint64 (sg_SegmentNo current + 1) |}.

(** The loop of [SegmentRange]; [None] when the fuel is not enough. *)
Fixpoint range_loop (fuel : nat) (segmentSize endNo : Z) (current : Segment)
    : option (list Segment) :=
  match fuel with
  | O => None
  | S fuel =>
    if sg_SegmentNo current =? endNo then Some [current]
    else
      rest ← range_loop fuel segmentSize endNo (nextSegment current segmentSize);
      Some (current :: rest)
  end.

(** One round per segment number from the first to the last one. *)
Definition range_fuel (startNo endNo : Z) : nat := S (Z.to_nat (uint64 (endNo - startNo))).

Definition SegmentRange (start end_ : gostring) (segmentSize maxSegments : Z)
    : option (result (list Segment)) :=
  match ParseSegmentName start segmentSize, ParseSegmentName end_ segmentSize with
  | Err e, _ => Some (Err e)
  | _, Err e => Some (Err e)
  | Ok startSegment, Ok endSegment =>
    if negb (bool_decide (sg_TimelineID startSegment = sg_TimelineID endSegment))
    then Some (Err ($"WAL segment timeline mismatch: " ++ sg_TimelineID startSegment ++ $" -> "
                    ++ sg_TimelineID endSegment))
    else if sg_SegmentNo endSegment <? sg_SegmentNo startSegment
    then Some (Err ($"WAL segment range is reversed: " ++ start ++ $" -> " ++ end_))
    else
      let maxSegments := if maxSegments <=? 0 then 10000 else maxSegments in
      let count :=
        int64 (int64 (uint64 (sg_SegmentNo endSegment - sg_SegmentNo startSegment)) + 1) in
      if maxSegments <? count
      then Some (Err ($"WAL segment range too large: " ++ fmt_d count ++ $" > "
                      ++ fmt_d maxSegments))
      else if count <? 0 then None
      else
        Ok <$> range_loop (range_fuel (sg_SegmentNo startSegment) (sg_SegmentNo endSegment))
                 segmentSize (sg_SegmentNo endSegment) startSegment
  end.

(** ** The reference: segments are numbered, a name is the number in two parts *)
Definition segment_at (timelineID : gostring) (perLog n : Z) : Segment := {|
  sg_Name := timelineID ++ fmt_08X (n / perLog) ++ fmt_08X (n mod perLog);
  sg_TimelineID := timelineID; sg_Log := n / perLog; sg_Segment := n mod perLog;
  sg_SegmentNo := n |}.

(** The sizes that PostgreSQL has: the documentation of initdb says a power of
    two from 1 MB to 1 GB. *)
Definition wal_size (size : Z) : Prop := 2 ^ 20 <= size <= 2 ^ 30 /\ (size | 4294967296).
End pgwal.
