(* ===== verification/PgWalFacts.v ===== *)
(** What the WAL arithmetic of [PgWal] promises: positions are read back as
    they are written, a position lies in the range of its segment, the loop of
    [SegmentRange] produces exactly the numbered segments of the reference, and
    normalising a timeline twice changes nothing more. *)
From Stdlib Require Import ZArith Lia String.
From stdpp Require Import base list list_numbers.
From S2P Require Import Prelude GoStrings GoNumbers PgWal.
Local Open Scope Z_scope.

(** What Unicode promises of upper case: white space stays, nothing becomes
    white space, and no ASCII small letter comes out. *)
Class UpperLaws (U : UnicodeTables) : Prop := {
  upper_space : forall r, IsSpace (upper_rune r) = IsSpace r;
  upper_not_small : forall r, ascii_lower_letter (upper_rune r) = false }.

#[export] Instance sample_upper_laws : UpperLaws sample_tables.
Proof.
  split; intros r; unfold upper_rune, ascii_lower_letter, IsSpace; cbn [table_upper sample_tables];
    repeat case_match; bsimpl;
    repeat rewrite ?andb_false_iff, ?andb_true_iff, ?orb_true_iff, ?negb_true_iff, ?negb_false_iff,
      ?Z.leb_le, ?Z.leb_gt, ?Z.eqb_neq, ?Z.eqb_eq in *; try lia.
  all: apply eq_true_iff_eq;
    rewrite !orb_true_iff, !andb_true_iff, !Z.leb_le, !Z.eqb_eq; lia.
Qed.

Section facts.
Context `{U : UnicodeTables} `{UL : !UpperLaws U}.

(** ** Texts *)
Lemma drop_while_fmap (p : rune -> bool) f s :
  (forall r, p (f r) = p r) -> drop_while p (f <$> s) = f <$> drop_while p s.
Proof.
  intros Hp. induction s as [|r s IH]; [done|]. rewrite fmap_cons. cbn [drop_while].
  rewrite Hp. by destruct (p r).
Qed.

Lemma rev_fmap {A B} (f : A -> B) l : rev (f <$> l) = f <$> rev l.
Proof.
  induction l as [|x l IH]; [done|]. rewrite fmap_cons. cbn [rev]. by rewrite IH, fmap_app.
Qed.

Lemma TrimSpace_ToUpper s : TrimSpace (ToUpper s) = ToUpper (TrimSpace s).
Proof.
  unfold TrimSpace, trim_left_func, trim_right_func, ToUpper.
  rewrite drop_while_fmap by apply upper_space.
  rewrite rev_fmap, drop_while_fmap by apply upper_space. apply rev_fmap.
Qed.

Lemma canonical_trim v : TrimSpace (ToUpper (TrimSpace v)) = ToUpper (TrimSpace v).
Proof. by rewrite TrimSpace_ToUpper, TrimSpace_idem. Qed.

Lemma all_hex_upper v : all_hex (ToUpper v) = true -> Forall is_hex_upper (ToUpper v).
Proof.
  unfold all_hex, ToUpper. rewrite forallb_forall. intros H. apply Forall_forall. intros c Hc.
  specialize (H c (proj1 (list_elem_of_In _ _) Hc)).
  apply list_elem_of_fmap in Hc as (r & -> & _). pose proof (upper_not_small r) as Hs.
  unfold is_hex, is_hex_upper, ascii_lower_letter in *.
  rewrite !orb_true_iff, !andb_true_iff, !Z.leb_le in H.
  rewrite andb_false_iff, !Z.leb_gt in Hs. lia.
Qed.

Lemma hex_all_hex s : Forall is_hex_upper s -> all_hex s = true.
Proof.
  intros Hs. unfold all_hex. apply forallb_forall. intros c Hc%list_elem_of_In.
  rewrite Forall_forall in Hs. specialize (Hs c Hc). unfold is_hex, is_hex_upper in *.
  rewrite !orb_true_iff, !andb_true_iff, !Z.leb_le. lia.
Qed.

(** ** Segment names *)
Definition segment_name (s : gostring) : Prop := Forall is_hex_upper s /\ length s = 24%nat.

Lemma IsSegmentName_canonical v :
  IsSegmentName (ToUpper (TrimSpace v)) = true -> segment_name (ToUpper (TrimSpace v)).
Proof.
  unfold IsSegmentName, segmentPattern. rewrite canonical_trim, andb_true_iff, Nat.eqb_eq.
  intros [Hl Hh]. split; [by apply all_hex_upper | done].
Qed.

Lemma segment_name_canonical s : segment_name s -> ToUpper (TrimSpace s) = s.
Proof.
  intros [Hs _]. rewrite TrimSpace_no_space by (by apply hex_no_space). by apply ToUpper_hex.
Qed.

Lemma IsSegmentName_name s : segment_name s -> IsSegmentName s = true.
Proof.
  intros [Hs Hl]. unfold IsSegmentName, segmentPattern.
  rewrite TrimSpace_no_space, Hl, hex_all_hex by (done || by apply hex_no_space). done.
Qed.

Lemma Forall_take_hex n s : Forall is_hex_upper s -> Forall is_hex_upper (take n s).
Proof. apply Forall_take. Qed.
Lemma Forall_drop_hex n s : Forall is_hex_upper s -> Forall is_hex_upper (drop n s).
Proof. apply Forall_drop. Qed.

(** The parts of a name. *)
Lemma ParseSegmentName_name s size : segment_name s ->
  ParseSegmentName s size = Ok {|
    sg_Name := s; sg_TimelineID := take 8 s; sg_Log := hex_value (take 8 (drop 8 s));
    sg_Segment := hex_value (take 8 (drop 16 s));
    sg_SegmentNo := uint64 (uint64 (hex_value (take 8 (drop 8 s)) *
                                    segmentsPerLog (segment_size size))
                            + hex_value (take 8 (drop 16 s))) |}.
Proof.
  intros Hn. pose proof Hn as [Hs Hl]. unfold ParseSegmentName.
  rewrite segment_name_canonical, IsSegmentName_name by done. cbn [negb].
  assert (Hp : forall k : nat, (k = 8 \/ k = 16)%nat ->
            ParseUint (take 8 (drop k s)) 16 64 = Ok (hex_value (take 8 (drop k s)))).
  { intros k Hk. assert (length (take 8 (drop k s)) = 8%nat) as Hlen
      by (rewrite length_take, length_drop; lia).
    apply ParseUint_hex; [intros E; by rewrite E in Hlen | |].
    - by apply Forall_take_hex, Forall_drop_hex.
    - pose proof (hex_value_range (take 8 (drop k s))) as Hr. rewrite Hlen in Hr.
      specialize (Hr ltac:(by apply Forall_take_hex, Forall_drop_hex)). simpl in Hr. lia. }
  rewrite !Hp by lia. done.
Qed.

Lemma ParseSegmentName_inv v size sg : ParseSegmentName v size = Ok sg ->
  segment_name (ToUpper (TrimSpace v)) /\ sg_Name sg = ToUpper (TrimSpace v) /\
  ParseSegmentName (ToUpper (TrimSpace v)) size = Ok sg.
Proof.
  intros H. pose proof H as H'. unfold ParseSegmentName in H.
  destruct (IsSegmentName (ToUpper (TrimSpace v))) eqn:E; [|done].
  apply IsSegmentName_canonical in E as Hn. split; [done|].
  assert (Hp : ParseSegmentName (ToUpper (TrimSpace v)) size = Ok sg).
  { unfold ParseSegmentName in H' |- *. by rewrite (segment_name_canonical _ Hn). }
  split; [|done]. rewrite ParseSegmentName_name in Hp by done. by simplify_eq.
Qed.

(** ** Positions *)
Lemma cut_at_sep sep a b : sep ∉ a -> cut_at sep (a ++ sep :: b) = (a, b, true).
Proof.
  induction a as [|c a IH]; intros Ha; cbn [app cut_at]; [by rewrite Z.eqb_refl|].
  apply not_elem_of_cons in Ha as [Hc Ha]. rewrite (proj2 (Z.eqb_neq c sep)) by done.
  by rewrite (IH Ha).
Qed.

Lemma hex_no_slash s : Forall is_hex_upper s -> 47 ∉ s.
Proof. intros Hs Hin. rewrite Forall_forall in Hs. specialize (Hs 47 Hin). unfold is_hex_upper in Hs. lia. Qed.

Lemma shift_halves n : 0 <= n < 2 ^ 64 ->
  0 <= Z.shiftr n 32 < 2 ^ 32 /\ 0 <= Z.land n 4294967295 < 2 ^ 32 /\
  n = Z.shiftr n 32 * 2 ^ 32 + Z.land n 4294967295.
Proof.
  intros Hn. rewrite Z.shiftr_div_pow2 by lia. change 4294967295 with (Z.ones 32).
  rewrite Z.land_ones by lia. Z.to_euclidean_division_equations. lia.
Qed.

Lemma hex_part x : 0 <= x < 2 ^ 32 -> ParseUint (fmt_X x) 16 32 = Ok x.
Proof.
  intros Hx. destruct (fmt_X_spec x ltac:(lia)) as (H1 & H2 & _).
  rewrite ParseUint_hex; [by rewrite H2 | apply fmt_X_not_nil | done | lia].
Qed.

(** C40: A log sequence number is read back from the text it is printed as, for
    every 64-bit position: [ParseLSN (FormatLSN n) = n]. *)
Theorem lsn_round_trip n : 0 <= n < 2 ^ 64 -> ParseLSN (FormatLSN n) = Ok n.
Proof.
  intros Hn. destruct (shift_halves n Hn) as (Hh & Hl & He). unfold ParseLSN, FormatLSN.
  set (high := Z.shiftr n 32) in *. set (low := Z.land n 4294967295) in *.
  destruct (fmt_X_spec high ltac:(lia)) as (H1 & _), (fmt_X_spec low ltac:(lia)) as (H2 & _).
  change ($"/") with [47]. rewrite TrimSpace_no_space.
  2: { apply Forall_app. split; [by apply hex_no_space|]. constructor; [done | by apply hex_no_space]. }
  assert (Hu : ToUpper (fmt_X high ++ [47] ++ fmt_X low) = fmt_X high ++ 47 :: fmt_X low).
  { unfold ToUpper. rewrite fmap_app. cbn [app]. rewrite fmap_cons.
    pose proof (ToUpper_hex _ H1) as E1. pose proof (ToUpper_hex _ H2) as E2.
    unfold ToUpper in E1, E2. by rewrite E1, E2. }
  rewrite Hu, cut_at_sep by (by apply hex_no_slash).
  rewrite !bool_decide_eq_false_2 by apply fmt_X_not_nil. cbn [negb orb].
  rewrite !hex_part by done. cbn [mbind result_bind mret result_ret].
  rewrite Z.shiftl_mul_pow2, !uint64_small by (rewrite ?uint64_small; lia). f_equal. lia.
Qed.

Lemma ParseLSN_range v n : ParseLSN v = Ok n -> 0 <= n < 2 ^ 64.
Proof.
  unfold ParseLSN. destruct (cut_at 47 _) as [[h l] ok]. case_match; [done|].
  intros H1. apply bind_Ok in H1 as (high & _ & H1). apply bind_Ok in H1 as (low & _ & H1).
  injection H1 as <-. apply uint64_range.
Qed.

(** ** Segments of a proper size *)
Lemma wal_size_per_log size : wal_size size ->
  segment_size size = size /\ exists P, segmentsPerLog size = P /\
  4 <= P <= 4096 /\ P * size = 2 ^ 32.
Proof.
  intros [Hs [P HP]]. unfold segment_size, segmentsPerLog.
  rewrite (proj2 (Z.leb_gt size 0)) by lia. split; [done|]. exists P.
  rewrite HP, Z.div_mul by lia. assert (4 <= P <= 4096) by nia.
  rewrite uint64_small, (proj2 (Z.eqb_neq P 0)) by lia. lia.
Qed.

Definition timeline_name (s : gostring) : Prop := Forall is_hex_upper s /\ length s = 8%nat.

Lemma name_parts tl a b : timeline_name tl -> 0 <= a < 2 ^ 32 -> 0 <= b < 2 ^ 32 ->
  segment_name (tl ++ fmt_08X a ++ fmt_08X b) /\
  take 8 (tl ++ fmt_08X a ++ fmt_08X b) = tl /\
  take 8 (drop 8 (tl ++ fmt_08X a ++ fmt_08X b)) = fmt_08X a /\
  take 8 (drop 16 (tl ++ fmt_08X a ++ fmt_08X b)) = fmt_08X b.
Proof.
  intros [Ht Hl] Ha Hb.
  destruct (fmt_08X_spec a Ha) as (A1 & _ & A3), (fmt_08X_spec b Hb) as (B1 & _ & B3).
  split; [split; [by rewrite !Forall_app | rewrite !length_app; lia]|].
  split; [by apply take_app_length'|].
  split; [rewrite drop_app_length' by done; by apply take_app_length'|].
  rewrite app_assoc, drop_app_length' by (rewrite length_app; lia).
  by rewrite firstn_all2 by lia.
Qed.

Lemma segment_at_bounds P n : 4 <= P <= 4096 -> 0 <= n < 2 ^ 32 * P ->
  0 <= n / P < 2 ^ 32 /\ 0 <= n mod P < 2 ^ 32 /\ n = n / P * P + n mod P.
Proof.
  intros HP Hn. pose proof (Z.mod_pos_bound n P ltac:(lia)).
  pose proof (Z.div_mod n P ltac:(lia)).
  split; [split; [apply Z.div_pos; lia | apply Z.div_lt_upper_bound; lia] | lia].
Qed.

(** The name of a numbered segment is read as that segment. *)
Lemma ParseSegmentName_at tl size P n : wal_size size -> segmentsPerLog size = P ->
  timeline_name tl -> 0 <= n < 2 ^ 32 * P ->
  ParseSegmentName (sg_Name (segment_at tl P n)) size = Ok (segment_at tl P n).
Proof.
  intros Hw HP Ht Hn. destruct (wal_size_per_log size Hw) as (Hs & P' & HP' & HPr & _).
  assert (P' = P) as -> by congruence.
  destruct (segment_at_bounds P n HPr Hn) as (Ha & Hb & He).
  destruct (name_parts tl _ _ Ht Ha Hb) as (N1 & N2 & N3 & N4).
  rewrite ParseSegmentName_name by done. unfold segment_at. cbn [sg_Name].
  rewrite N2, N3, N4, Hs, HP.
  destruct (fmt_08X_spec _ Ha) as (_ & -> & _), (fmt_08X_spec _ Hb) as (_ & -> & _).
  rewrite (uint64_small (n / P * P)), uint64_small by lia. do 2 f_equal. lia.
Qed.

(** A parsed name whose segment part is below the segments per log is the
    numbered segment. *)
Lemma ParseSegmentName_is_at v size P sg : wal_size size -> segmentsPerLog size = P ->
  ParseSegmentName v size = Ok sg -> sg_Segment sg < P ->
  timeline_name (sg_TimelineID sg) /\ 0 <= sg_SegmentNo sg < 2 ^ 32 * P /\
  sg = segment_at (sg_TimelineID sg) P (sg_SegmentNo sg).
Proof.
  intros Hw HP Hp Hlt. destruct (wal_size_per_log size Hw) as (Hs & P' & HP' & HPr & _).
  assert (P' = P) as -> by congruence.
  destruct (ParseSegmentName_inv v size sg Hp) as (Hn & _ & Hp'). clear Hp.
  set (s := ToUpper (TrimSpace v)) in *. pose proof Hn as [Hx Hl].
  rewrite ParseSegmentName_name in Hp' by done. rewrite Hs, HP in Hp'.
  assert (L : forall k : nat, (k = 0 \/ k = 8 \/ k = 16)%nat ->
    Forall is_hex_upper (take 8 (drop k s)) /\ length (take 8 (drop k s)) = 8%nat).
  { intros k Hk. split; [by apply Forall_take_hex, Forall_drop_hex|].
    rewrite length_take, length_drop. lia. }
  destruct (L 0%nat ltac:(lia)) as [A1 A2], (L 8%nat ltac:(lia)) as [B1 B2],
    (L 16%nat ltac:(lia)) as [C1 C2]. rewrite drop_0 in A1, A2.
  pose proof (hex_value_range _ B1) as Bv. pose proof (hex_value_range _ C1) as Cv.
  rewrite B2 in Bv. rewrite C2 in Cv. simpl in Bv, Cv.
  set (a := hex_value (take 8 (drop 8 s))) in *. set (b := hex_value (take 8 (drop 16 s))) in *.
  injection Hp' as <-. cbn [sg_Segment sg_TimelineID sg_SegmentNo] in *.
  rewrite (uint64_small (a * P)), uint64_small by nia.
  split; [done|]. split; [nia|]. unfold segment_at.
  assert (E1 : (a * P + b) / P = a) by (rewrite Z.div_add_l, Z.div_small by lia; lia).
  assert (E2 : (a * P + b) mod P = b) by (rewrite Z.add_comm, Z_mod_plus_full; apply Z.mod_small; lia).
  rewrite E1, E2. f_equal. unfold a, b. rewrite !fmt_08X_value by done.
  rewrite <- (take_drop 8 s) at 1. f_equal. rewrite <- (take_drop 8 (drop 8 s)) at 1. f_equal.
  rewrite drop_drop. rewrite firstn_all2; [done|]. rewrite length_drop. lia.
Qed.

Lemma nextSegment_at tl size P n : wal_size size -> segmentsPerLog size = P ->
  0 <= n -> n + 1 < 2 ^ 32 * P ->
  nextSegment (segment_at tl P n) size = segment_at tl P (n + 1).
Proof.
  intros Hw HP H0 Hn. destruct (wal_size_per_log size Hw) as (Hs & P' & HP' & HPr & _).
  assert (P' = P) as -> by congruence.
  destruct (segment_at_bounds P n HPr ltac:(lia)) as (Ha & _ & He).
  pose proof (Z.mod_pos_bound n P ltac:(lia)) as Hm.
  unfold nextSegment, segment_at. cbn [sg_Segment sg_Log sg_TimelineID sg_SegmentNo].
  rewrite Hs, HP, (uint64_small (n mod P + 1)), (uint64_small (n + 1)) by lia.
  destruct (P <=? n mod P + 1) eqn:E; bsimpl.
  - assert (E1 : (n + 1) / P = n / P + 1)
      by (symmetry; apply (Z.div_unique_pos _ _ _ 0); lia).
    assert (E2 : (n + 1) mod P = 0) by (symmetry; apply (Z.mod_unique_pos _ _ (n / P + 1)); lia).
    rewrite E1, E2, uint64_small by lia. done.
  - assert (E1 : (n + 1) / P = n / P)
      by (symmetry; apply (Z.div_unique_pos _ _ _ (n mod P + 1)); lia).
    assert (E2 : (n + 1) mod P = n mod P + 1)
      by (symmetry; apply (Z.mod_unique_pos _ _ (n / P)); lia).
    by rewrite E1, E2.
Qed.

Lemma range_loop_S fuel size endNo c :
  range_loop (S fuel) size endNo c =
  if sg_SegmentNo c =? endNo then Some [c]
  else rest ← range_loop fuel size endNo (nextSegment c size); Some (c :: rest).
Proof. done. Qed.

Lemma range_loop_at tl size P k n : wal_size size -> segmentsPerLog size = P ->
  0 <= n -> n + Z.of_nat k < 2 ^ 32 * P ->
  range_loop (S k) size (n + Z.of_nat k) (segment_at tl P n)
  = Some (segment_at tl P <$> seqZ n (Z.of_nat k + 1)).
Proof.
  intros Hw HP. revert n. induction k as [|k IH]; intros n H0 Hn; rewrite range_loop_S.
  - change (sg_SegmentNo (segment_at tl P n)) with n. rewrite Z.add_0_r, Z.eqb_refl. done.
  - change (sg_SegmentNo (segment_at tl P n)) with n. rewrite (proj2 (Z.eqb_neq n _)) by lia.
    rewrite nextSegment_at by (done || lia).
    replace (n + Z.of_nat (S k)) with (n + 1 + Z.of_nat k) by lia.
    rewrite IH by lia. rewrite (seqZ_cons n) by lia.
    replace (Z.of_nat (S k) + 1 - 1) with (Z.of_nat k + 1) by lia.
    replace (Z.pred (Z.of_nat (S k) + 1)) with (Z.of_nat k + 1) by lia.
    by rewrite fmap_cons, Z.add_1_r.
Qed.

(** The two ends as numbered segments: what [SegmentRange] computes. *)
Lemma SegmentRange_run v w size maxSegments P a b :
  wal_size size -> segmentsPerLog size = P -> 0 < maxSegments ->
  ParseSegmentName v size = Ok a -> ParseSegmentName w size = Ok b ->
  sg_Segment a < P -> sg_Segment b < P ->
  let count := sg_SegmentNo b - sg_SegmentNo a + 1 in
  exists e1 e2 e3,
  SegmentRange v w size maxSegments =
    if negb (bool_decide (sg_TimelineID a = sg_TimelineID b)) then Some (Err e1)
    else if count <? 1 then Some (Err e2)
    else if maxSegments <? count then Some (Err e3)
    else Some (Ok (segment_at (sg_TimelineID a) P <$> seqZ (sg_SegmentNo a) count)).
Proof.
  intros Hw HP Hmax Ha Hb Hla Hlb count. unfold SegmentRange. rewrite Ha, Hb.
  destruct (ParseSegmentName_is_at v size P a) as (_ & Hra & Hea); [done..|].
  destruct (ParseSegmentName_is_at w size P b) as (_ & Hrb & _); [done..|].
  assert (HPr : 4 <= P <= 4096)
    by (destruct (wal_size_per_log size Hw) as (_ & P' & ? & ? & _); congruence).
  do 3 eexists. destruct (negb (bool_decide _)); [reflexivity|].
  replace (count <? 1) with (sg_SegmentNo b <? sg_SegmentNo a)
    by (apply eq_true_iff_eq; rewrite !Z.ltb_lt; unfold count; lia).
  destruct (sg_SegmentNo b <? sg_SegmentNo a) eqn:Hrev; [reflexivity|]. bsimpl.
  rewrite (proj2 (Z.leb_gt maxSegments 0)), uint64_small, !int64_small
    by (rewrite ?int64_small; lia).
  change (sg_SegmentNo b - sg_SegmentNo a + 1) with count.
  destruct (maxSegments <? count) eqn:Hc; [reflexivity|].
  rewrite (proj2 (Z.ltb_ge count 0)) by (unfold count; lia).
  unfold range_fuel. rewrite uint64_small by lia.
  pose proof (range_loop_at (sg_TimelineID a) size P
    (Z.to_nat (sg_SegmentNo b - sg_SegmentNo a)) (sg_SegmentNo a) Hw HP) as Hl.
  rewrite <- Hea, Z2Nat.id in Hl by lia.
  replace (sg_SegmentNo a + (sg_SegmentNo b - sg_SegmentNo a)) with (sg_SegmentNo b) in Hl by lia.
  rewrite Hl by lia. done.
Qed.

(** For the segment sizes of PostgreSQL and names whose segment part is
    within a log file, [SegmentRange] is the reference: it refuses different
    timelines, a reversed range and more segments than allowed, and otherwise
    returns exactly the segments numbered from the first to the last one, in
    order, each with the name of its number. The loop ends for every input, and
    [make] is never called with a negative capacity. *)
Theorem segment_range_exact v w size maxSegments P a b :
  wal_size size -> segmentsPerLog size = P -> 0 < maxSegments ->
  ParseSegmentName v size = Ok a -> ParseSegmentName w size = Ok b ->
  sg_Segment a < P -> sg_Segment b < P ->
  let count := sg_SegmentNo b - sg_SegmentNo a + 1 in
  match SegmentRange v w size maxSegments with
  | None => False
  | Some (Err _) =>
      sg_TimelineID a <> sg_TimelineID b \/ count < 1 \/ maxSegments < count
  | Some (Ok segments) =>
      sg_TimelineID a = sg_TimelineID b /\ 1 <= count <= maxSegments /\
      segments = segment_at (sg_TimelineID a) P <$> seqZ (sg_SegmentNo a) count
  end.
Proof.
  intros Hw HP Hmax Ha Hb Hla Hlb count.
  destruct (SegmentRange_run v w size maxSegments P a b) as (e1 & e2 & e3 & ->); [done..|].
  fold count. destruct (bool_decide _) eqn:E1; cbn [negb]; bsimpl; [|by left].
  destruct (count <? 1) eqn:E2; bsimpl; [right; left; lia|].
  destruct (maxSegments <? count) eqn:E3; bsimpl; [by right; right|].
  split; [done|]. split; [lia | done].
Qed.

(** ** The segment of a position *)
Lemma TrimPrefix_no_X tl : Forall is_hex_upper tl -> TrimPrefix tl $"0X" = tl.
Proof.
  intros Hx. unfold TrimPrefix. destruct (HasPrefix tl $"0X") eqn:E; [|done].
  apply HasPrefix_spec in E as [k ->]. apply Forall_app in Hx as [Hx _].
  rewrite Forall_forall in Hx. specialize (Hx 88).
  assert (88 ∈ $"0X") as Hin by (change ($"0X") with [48; 88]; right; left).
  specialize (Hx Hin). unfold is_hex_upper in Hx. lia.
Qed.

Lemma NormalizeTimelineID_name tl : timeline_name tl -> NormalizeTimelineID tl = tl.
Proof.
  intros [Hx Hl]. unfold NormalizeTimelineID.
  rewrite TrimSpace_no_space by (by apply hex_no_space). rewrite ToUpper_hex by done.
  destruct (decide (tl = [])) as [->|Hne]; [done|]. rewrite bool_decide_eq_false_2 by done.
  rewrite TrimPrefix_no_X by done.
  assert (Hb : byte_len tl = 8).
  { transitivity (Z.of_nat (length tl)); [|by rewrite Hl]. clear Hl Hne.
    induction Hx as [|c s Hc Hs IH]; [done|]. cbn [byte_len foldr length].
    change (foldr _ 0 s) with (byte_len s). rewrite IH. unfold rune_bytes, is_hex_upper in *.
    rewrite (proj2 (Z.ltb_lt c 128)) by lia. lia. }
  rewrite Hb. cbn [negb Z.eqb Pos.eqb]. rewrite andb_false_r.
  pose proof (hex_value_range tl Hx) as Hr. rewrite Hl in Hr. simpl in Hr.
  rewrite ParseUint_hex by (done || lia). by apply fmt_08X_value.
Qed.

Lemma SegmentForLSN_at tl lsn size P : wal_size size -> segmentsPerLog size = P ->
  timeline_name tl -> 0 <= lsn < 2 ^ 64 ->
  SegmentForLSN tl lsn size = segment_at tl P (lsn / size).
Proof.
  intros Hw HP Ht Hn. destruct (wal_size_per_log size Hw) as (Hs & P' & HP' & HPr & Hps).
  assert (P' = P) as -> by congruence.
  unfold SegmentForLSN. rewrite NormalizeTimelineID_name by done. rewrite bool_decide_eq_false_2
    by (intros ->; by destruct Ht). rewrite Hs, HP.
  destruct (shift_halves lsn Hn) as (Hh & Hl & He).
  set (high := Z.shiftr lsn 32) in *. set (low := Z.land lsn 4294967295) in *.
  assert (Hq : lsn / size = high * P + low / size).
  { rewrite He, <- Hps. replace (high * (P * size) + low) with (high * P * size + low) by lia.
    apply Z.div_add_l. destruct Hw; lia. }
  assert (Hs0 : 0 < size) by (destruct Hw; lia).
  assert (Hlo : 0 <= low / size < P)
    by (split; [apply Z.div_pos; lia | apply Z.div_lt_upper_bound; lia]).
  unfold segment_at. rewrite Hq.
  assert (E1 : (high * P + low / size) / P = high)
    by (rewrite Z.div_add_l, (Z.div_small (low / size)) by lia; lia).
  assert (E2 : (high * P + low / size) mod P = low / size)
    by (rewrite Z.add_comm, Z_mod_plus_full; by apply Z.mod_small).
  rewrite E1, E2, (uint64_small (high * P)), uint64_small by nia. done.
Qed.
End facts.

(** ** Concrete runs *)
#[local] Existing Instance sample_tables.

Lemma lsn_round_trip_witness :
  0 <= 97500059720 < 2 ^ 64 /\ FormatLSN 97500059720 = $"16/B374D848" /\
  ParseLSN (FormatLSN 97500059720) = Ok 97500059720.
Proof. split; [lia|]. split; [reflexivity|]. apply lsn_round_trip. lia. Defined.

Lemma default_wal_size : wal_size DefaultSegmentSize /\ segmentsPerLog DefaultSegmentSize = 256.
Proof. split; [split; [vm_compute; split; discriminate | by exists 256] | reflexivity]. Qed.

(** From the last segment of a log file to the second one of the next. *)
Lemma segment_range_exact_witness :
  exists a b,
    ParseSegmentName $"0000000100000001000000FE" DefaultSegmentSize = Ok a /\
    ParseSegmentName $"000000010000000200000001" DefaultSegmentSize = Ok b /\
    match SegmentRange $"0000000100000001000000FE" $"000000010000000200000001"
            DefaultSegmentSize 10 with
    | None => False
    | Some (Err _) =>
        sg_TimelineID a <> sg_TimelineID b \/ sg_SegmentNo b - sg_SegmentNo a + 1 < 1 \/
        10 < sg_SegmentNo b - sg_SegmentNo a + 1
    | Some (Ok segments) =>
        sg_TimelineID a = sg_TimelineID b /\
        1 <= sg_SegmentNo b - sg_SegmentNo a + 1 <= 10 /\
        segments = segment_at (sg_TimelineID a) 256 <$>
                   seqZ (sg_SegmentNo a) (sg_SegmentNo b - sg_SegmentNo a + 1)
    end.
Proof.
  eexists _, _. split; [vm_compute; reflexivity|]. split; [vm_compute; reflexivity|].
  apply (segment_range_exact $"0000000100000001000000FE" $"000000010000000200000001"
    DefaultSegmentSize 10 256);
    [apply default_wal_size | reflexivity | lia | vm_compute; reflexivity
    | vm_compute; reflexivity | vm_compute; reflexivity | vm_compute; reflexivity].
Defined.

Example range_crosses_the_log_file :
  match SegmentRange $"0000000100000001000000FE" $"000000010000000200000001"
          DefaultSegmentSize 10 with
  | Some (Ok segments) => sg_Name <$> segments =
      [$"0000000100000001000000FE"; $"0000000100000001000000FF";
       $"000000010000000200000000"; $"000000010000000200000001"]
  | _ => False
  end.
Proof. vm_compute. reflexivity. Qed.
