(* ===== verification/BackupModel.v ===== *)
(** * Backup policies, records and chain states

    The data of [model.go] that the physical backup chain is computed from,
    and the helpers shared by its validation, the synthetic full backup and
    the purge of superseded records. *)

From Stdlib Require Import ZArith Lia Sorted.
From stdpp Require Import base tactics option list numbers sets gmap.
From S2P Require Import Prelude GoStrings SqlSafety WriteExec.

Open Scope Z_scope.

(** What the chain code uses of [time], [net/url] and [encoding/json]. A time
    is a number of nanoseconds; decoding into a struct keeps the fields that
    the text does not set, whether it fails or not. *)
Record syntheticRuleConfig := {
  Mode : gostring; AutoRun : bool; TriggerAfterIncrementals : Z;
  MergeOldestIncrementals : Z; RequireRestoreProof : bool;
  SupersededKeepDaysAfterProof : Z; NeverDeleteWithoutProof : bool;
  MarkSupersededAfterProof : bool }.

Class GoLib := {
  format_time : Z -> gostring;
  url_parse_path : gostring -> result gostring;
  json_synthetic_rule : gostring -> syntheticRuleConfig -> syntheticRuleConfig;
  (** [json.Unmarshal] into a [[]uint]: what it leaves in the slice, also when
      it fails, and whether it succeeded. *)
  json_uint_list : gostring -> list Z * bool;
}.

(** ** Constants *)
Definition DatabaseBackupMethodLogical := $"logical".
Definition DatabaseBackupMethodPhysical := $"physical".
Definition DatabaseBackupMethodExternal := $"external".
Definition DatabaseBackupLevelFull := $"full".
Definition DatabaseBackupLevelIncremental := $"incremental".
Definition DatabaseBackupLevelDifferential := $"differential".
Definition DatabaseBackupStatusPending := $"pending".
Definition DatabaseBackupStatusQueued := $"queued".
Definition DatabaseBackupStatusRunning := $"running".
Definition DatabaseBackupStatusCleaning := $"cleaning".
Definition DatabaseBackupStatusSuccess := $"success".
Definition DatabaseBackupStatusFailed := $"failed".
Definition DatabaseBackupStatusExpired := $"expired".
Definition DatabaseBackupPolicyStatusActive := $"active".
Definition DatabaseBackupPolicyStatusDegraded := $"degraded".
Definition DatabaseBackupPolicyStatusDisabled := $"disabled".
Definition DatabaseBackupChainStatusComplete := $"complete".
Definition DatabaseBackupChainStatusMissingBase := $"missing_base".
Definition DatabaseBackupChainStatusMissingIncremental := $"missing_incremental".
Definition DatabaseBackupChainStatusBrokenChain := $"broken_chain".
Definition DatabaseBackupChainStateHealthy := $"healthy".
Definition DatabaseBackupChainStateBroken := $"broken".
Definition DatabaseBackupOriginSyntheticFull := $"synthetic_full".
Definition DatabaseBackupArtifactStateMissing := $"missing".
Definition DatabaseBackupArtifactStateChecksumFailed := $"checksum_failed".
Definition DatabasePlanValidationPassed := $"passed".
Definition DatabasePlanValidationWarning := $"warning".
Definition DatabasePlanValidationFailed := $"failed".

(** ** Rows: the columns the modelled code reads or writes

    The columns that only the restore planning reads are kept in a record of
    their own. *)
Record DatabaseBackupRecordDetails := {
  rd_TaskID : Z; rd_InstanceID : Z; rd_ExternalBackupID : gostring;
  rd_ExternalServerName : gostring; rd_ToolName : gostring; rd_ToolVersion : gostring;
  rd_ManifestJSON : gostring; rd_ServerID : gostring; rd_PGSystemIdentifier : gostring;
  rd_TimelineID : gostring; rd_TimelineHistoryFile : gostring; rd_WALSegmentSize : Z;
  rd_StartLSN : gostring; rd_EndLSN : gostring; rd_WALStart : gostring; rd_WALEnd : gostring;
  rd_BackupManifestChecksum : gostring }.

Record DatabaseBackupRecord := {
  r_ID : Z; r_CreatedAt : Z; r_PolicyID : Z; r_ChainID : gostring;
  r_BaseRecordID : Z; r_ParentRecordID : Z; r_BackupMethod : gostring;
  r_BackupLevel : gostring; r_BackupEngine : gostring; r_SourceInstanceID : Z;
  r_StorageURI : gostring; r_BackupOrigin : gostring; r_CheckpointFromLSN : gostring;
  r_CheckpointToLSN : gostring; r_CheckpointLastLSN : gostring; r_ArtifactState : gostring;
  r_SyntheticSourceRecordIDs : gostring; r_SupersededByRecordID : Z;
  r_PurgeEligibleAt : option Z; r_ProtectedUntil : option Z; r_Status : gostring;
  r_FilePath : gostring; r_FileName : gostring; r_FileSize : Z; r_ChecksumSHA256 : gostring;
  r_VerifyStatus : gostring; r_VerifyMessage : gostring; r_RestoreTestStatus : gostring;
  r_StartedAt : option Z; r_FinishedAt : option Z; r_RecoverableFrom : option Z;
  r_RecoverableUntil : option Z; r_ErrorMessage : gostring; r_ServerUUID : gostring;
  r_GTIDMode : gostring; r_ExecutedGTIDSet : gostring; r_BackupBinlogFile : gostring;
  r_BackupBinlogPos : Z; r_BackupGTIDSet : gostring;
  r_details : DatabaseBackupRecordDetails }.

Record DatabaseLogArchive := {
  la_ID : Z; la_InstanceID : Z; la_ArchiveType : gostring; la_FileName : gostring;
  la_StorageURI : gostring; la_FileSize : Z; la_ChecksumSHA256 : gostring;
  la_FirstEventTime : option Z; la_LastEventTime : option Z; la_Status : gostring;
  la_ServerUUID : gostring; la_ServerID : gostring; la_StartPos : Z; la_EndPos : Z;
  la_StartGTIDSet : gostring; la_EndGTIDSet : gostring; la_PreviousFileName : gostring;
  la_NextFileName : gostring; la_PGSystemIdentifier : gostring; la_TimelineID : gostring;
  la_WALSegmentSize : Z; la_ExternalServerName : gostring; la_StartLSN : gostring;
  la_EndLSN : gostring; la_SegmentNo : gostring; la_TimelineHistoryURI : gostring }.

Record DatabaseBackupPolicyConfig := {
  p_ID : Z; p_InstanceID : Z; p_SourceInstanceID : Z; p_BackupEngine : gostring;
  p_RunnerHostID : Z; p_BinlogStreamID : Z; p_SyntheticEnabled : bool;
  p_SyntheticRuleJSON : gostring; p_RestoreDrillRequired : bool; p_Enabled : bool;
  p_Status : gostring; p_LastRunAt : option Z; p_LastSyntheticAt : option Z;
  p_LastStatus : gostring; p_LastMessage : gostring; p_LastError : gostring }.

Record DatabaseBackupChainState := {
  s_ID : Z; s_PolicyID : Z; s_InstanceID : Z; s_ChainID : gostring;
  s_CurrentBaseRecordID : Z; s_LatestRecordID : Z; s_LatestFullRecordID : Z;
  s_LatestSyntheticRecordID : Z; s_IncrementalCount : Z; s_ChainStartedAt : option Z;
  s_LastSuccessAt : option Z; s_RecoverableUntil : option Z; s_Status : gostring;
  s_LastValidationStatus : gostring; s_LastError : gostring }.

(** ** Helpers *)
Section helpers.
Context `{U : UnicodeTables, L : GoLib}.

Definition normalizeBackupMethod (value : gostring) : gostring :=
  let v := ToLower (TrimSpace value) in
  if one_of v [DatabaseBackupMethodPhysical] then DatabaseBackupMethodPhysical
  else if one_of v [DatabaseBackupMethodExternal] then DatabaseBackupMethodExternal
  else DatabaseBackupMethodLogical.

Definition normalizeBackupLevel (value : gostring) : gostring :=
  let v := ToLower (TrimSpace value) in
  if one_of v [DatabaseBackupLevelIncremental] then DatabaseBackupLevelIncremental
  else if one_of v [DatabaseBackupLevelDifferential] then DatabaseBackupLevelDifferential
  else DatabaseBackupLevelFull.

Definition normalizeBackupSourceInstanceID (sourceInstanceID fallbackInstanceID : Z) : Z :=
  if 0 <? sourceInstanceID then sourceInstanceID else fallbackInstanceID.

Definition backupRecordSortTime (item : DatabaseBackupRecord) : Z :=
  match r_FinishedAt item, r_StartedAt item with
  | Some t, _ => t
  | None, Some t => t
  | None, None => r_CreatedAt item
  end.

(** The comparison of the [sort.SliceStable] calls. *)
Definition record_less (a b : DatabaseBackupRecord) : bool :=
  let ta := backupRecordSortTime a in
  let tb := backupRecordSortTime b in
  if ta =? tb then r_ID a <? r_ID b else ta <? tb.

Definition find_record (records : list DatabaseBackupRecord) (id : Z)
    : option DatabaseBackupRecord :=
  List.find (fun item => r_ID item =? id) records.
Definition findBackupRecordByID := find_record.

Definition firstNonEmpty (values : list gostring) : gostring :=
  match List.find (fun v => negb (bool_decide (TrimSpace v = []))) values with
  | Some v => TrimSpace v
  | None => []
  end.

Fixpoint uniqueStrings_loop (seen : list gostring) (values : list gostring) : list gostring :=
  match values with
  | [] => []
  | value :: rest =>
    let value := TrimSpace value in
    if bool_decide (value = []) || one_of value seen then uniqueStrings_loop seen rest
    else value :: uniqueStrings_loop (value :: seen) rest
  end.
Definition uniqueStrings (values : list gostring) : list gostring := uniqueStrings_loop [] values.

(** [strconv.ParseUint(s, 10, 64)] with its error dropped: 0 for a malformed
    number, the largest one when it is out of range. *)
Definition max_uint64 : Z := 2 ^ 64 - 1.
Definition is_digit (r : rune) : bool := (48 <=? r) && (r <=? 57).
Definition digits_value (s : gostring) : Z := foldl (fun acc r => acc * 10 + (r - 48)) 0 s.
Definition parse_uint_or_zero (s : gostring) : Z :=
  if bool_decide (s = []) || negb (forallb is_digit s) then 0
  else Z.min (digits_value s) max_uint64.

Definition runner_prefix := $"runner://runner-host-".

(** The loop over the storage URI and the file path: [None] goes on. *)
Definition artifact_candidate (candidate : gostring) (runnerHostID : Z)
    : option (result gostring) :=
  let candidate := TrimSpace candidate in
  if bool_decide (candidate = []) then None
  else if HasPrefix candidate runner_prefix then
    let '(idText, pathPart, ok) := cut_at 47 (TrimPrefix candidate runner_prefix) in
    if negb ok then Some (Err $"runner URI 缺少路径")
    else
      let id64 := parse_uint_or_zero idText in
      if negb (id64 =? runnerHostID)
      then Some (Err ($"runner URI 属于 runner-host-" ++ fmt_d id64 ++ $"，当前 Runner 为 "
                      ++ fmt_d runnerHostID))
      else Some (Ok (47 :: pathPart))
  else if HasPrefix candidate $"local://" then Some (Ok (TrimPrefix candidate $"local://"))
  else if HasPrefix candidate $"file://" then Some (url_parse_path candidate)
  else if HasPrefix candidate $"/" then Some (Ok candidate)
  else if HasPrefix candidate $"metadata://"
  then Some (Err $"metadata URI 仅用于预校验，不能作为实际恢复输入")
  else None.

Definition resolveRunnerReadableArtifactPath (storageURI filePath : gostring)
    (runnerHostID : Z) : result gostring :=
  match artifact_candidate storageURI runnerHostID with
  | Some r => r
  | None =>
    match artifact_candidate filePath runnerHostID with
    | Some r => r
    | None => Err $"缺少 runner/local/file 可访问路径"
    end
  end.

Definition formatTime (t : option Z) : gostring :=
  match t with Some t => format_time t | None => [] end.

Definition BackupChainStatusText (value : gostring) : gostring :=
  let v := TrimSpace value in
  if one_of v [DatabaseBackupChainStatusComplete] then $"备份链完整"
  else if one_of v [DatabaseBackupChainStatusMissingBase] then $"缺少 Base Backup"
  else if one_of v [DatabaseBackupChainStatusMissingIncremental] then $"缺少增量"
  else if one_of v [DatabaseBackupChainStatusBrokenChain] then $"备份链断裂"
  else $"不支持".

Definition ValidationStatusText (value : gostring) : gostring :=
  let v := TrimSpace value in
  if one_of v [DatabasePlanValidationPassed] then $"校验通过"
  else if one_of v [DatabasePlanValidationWarning] then $"有风险"
  else if one_of v [DatabasePlanValidationFailed] then $"校验失败"
  else $"待校验".
End helpers.

(** ** [sort.SliceStable]

    Equal elements keep their order; by insertion, from the right. *)
Section stable_sort.
Context {A : Type} (less : A -> A -> bool).

Fixpoint insert_stable (x : A) (l : list A) : list A :=
  match l with
  | [] => [x]
  | y :: l' => if less y x then y :: insert_stable x l' else x :: l
  end.
Definition sort_stable (l : list A) : list A := foldr insert_stable [] l.

Lemma insert_stable_perm x l : insert_stable x l ≡ₚ x :: l.
Proof.
  induction l as [|y l IH]; [done|]. simpl. case_match; [|done].
  rewrite IH. apply perm_swap.
Qed.

Lemma sort_stable_perm l : sort_stable l ≡ₚ l.
Proof.
  induction l as [|x l IH]; [done|]. simpl. by rewrite insert_stable_perm, IH.
Qed.

(** Sorted: no element is less than an earlier one. *)
Definition not_less (a b : A) : Prop := less b a = false.

Lemma insert_stable_sorted x l :
  (forall a b, less a b = true -> less b a = false) ->
  (forall a b c, less b a = false -> less c b = false -> less c a = false) ->
  StronglySorted not_less l -> StronglySorted not_less (insert_stable x l).
Proof.
  intros Hasym Htrans. induction 1 as [|y l Hl IH Hy]; simpl; [by repeat constructor|].
  destruct (less y x) eqn:E.
  - constructor; [done|]. rewrite insert_stable_perm. constructor; [by apply Hasym | done].
  - constructor; [by constructor|]. constructor; [done|].
    eapply list.Forall_impl; [done|]. intros z Hz. by apply (Htrans x y z).
Qed.

Lemma sort_stable_sorted l :
  (forall a b, less a b = true -> less b a = false) ->
  (forall a b c, less b a = false -> less c b = false -> less c a = false) ->
  StronglySorted not_less (sort_stable l).
Proof.
  intros Hasym Htrans. induction l as [|x l IH]; simpl; [constructor|].
  by apply insert_stable_sorted.
Qed.
End stable_sort.

Lemma record_sorted l : StronglySorted (not_less record_less) (sort_stable record_less l).
Proof.
  apply sort_stable_sorted; intros *; unfold record_less; intros; repeat case_match; bsimpl; lia.
Qed.
#[export] Hint Resolve sort_stable_perm insert_stable_perm : opscenter.

(** ** A concrete instance for the examples *)
Definition sample_lib : GoLib := {|
  format_time t := fmt_d t;
  url_parse_path u := Ok (TrimPrefix u $"file://");
  json_synthetic_rule text rule :=
    if bool_decide (text = $"auto") then {|
      Mode := Mode rule; AutoRun := true; TriggerAfterIncrementals := 2;
      MergeOldestIncrementals := 2; RequireRestoreProof := RequireRestoreProof rule;
      SupersededKeepDaysAfterProof := SupersededKeepDaysAfterProof rule;
      NeverDeleteWithoutProof := NeverDeleteWithoutProof rule;
      MarkSupersededAfterProof := MarkSupersededAfterProof rule |}
    else rule;
  json_uint_list text :=
    if bool_decide (text = $"[1,2,3]") then ([1; 2; 3], true) else ([], false) |}.

Definition no_details : DatabaseBackupRecordDetails := {|
  rd_TaskID := 0; rd_InstanceID := 9; rd_ExternalBackupID := []; rd_ExternalServerName := [];
  rd_ToolName := []; rd_ToolVersion := []; rd_ManifestJSON := []; rd_ServerID := [];
  rd_PGSystemIdentifier := []; rd_TimelineID := []; rd_TimelineHistoryFile := [];
  rd_WALSegmentSize := 0; rd_StartLSN := []; rd_EndLSN := []; rd_WALStart := [];
  rd_WALEnd := []; rd_BackupManifestChecksum := [] |}.

Definition sample_record (id parent : Z) (level from to : gostring) : DatabaseBackupRecord := {|
  r_ID := id; r_CreatedAt := id; r_PolicyID := 1; r_ChainID := $"c1";
  r_BaseRecordID := 1; r_ParentRecordID := parent; r_BackupMethod := $"physical";
  r_BackupLevel := level; r_BackupEngine := $"xtrabackup"; r_SourceInstanceID := 9;
  r_StorageURI := $"runner://runner-host-4/data/b"; r_BackupOrigin := $"native";
  r_CheckpointFromLSN := from; r_CheckpointToLSN := to; r_CheckpointLastLSN := to;
  r_ArtifactState := $"local"; r_SyntheticSourceRecordIDs := []; r_SupersededByRecordID := 0;
  r_PurgeEligibleAt := None; r_ProtectedUntil := None; r_Status := $"success";
  r_FilePath := []; r_FileName := $"b"; r_FileSize := 100; r_ChecksumSHA256 := $"abc";
  r_VerifyStatus := []; r_VerifyMessage := []; r_RestoreTestStatus := [];
  r_StartedAt := Some id; r_FinishedAt := Some (id + 1); r_RecoverableFrom := None;
  r_RecoverableUntil := Some (id + 1); r_ErrorMessage := []; r_ServerUUID := $"u1";
  r_GTIDMode := []; r_ExecutedGTIDSet := []; r_BackupBinlogFile := $"bin.01";
  r_BackupBinlogPos := 4; r_BackupGTIDSet := []; r_details := no_details |}.

Definition sample_policy_config (rule : gostring) : DatabaseBackupPolicyConfig := {|
  p_ID := 1; p_InstanceID := 9; p_SourceInstanceID := 0; p_BackupEngine := $"xtrabackup";
  p_RunnerHostID := 4; p_BinlogStreamID := 2; p_SyntheticEnabled := true;
  p_SyntheticRuleJSON := rule; p_RestoreDrillRequired := true; p_Enabled := true;
  p_Status := $"active"; p_LastRunAt := None; p_LastSyntheticAt := None;
  p_LastStatus := []; p_LastMessage := []; p_LastError := [] |}.

Definition sample_chain : list DatabaseBackupRecord :=
  [sample_record 3 2 $"incremental" $"200" $"300"; sample_record 1 0 $"full" $"0" $"100";
   sample_record 2 1 $"incremental" $"100" $"200"].

Definition sample_log (id : Z) (name : gostring) : DatabaseLogArchive := {|
  la_ID := id; la_InstanceID := 9; la_ArchiveType := $"binlog"; la_FileName := name;
  la_StorageURI := $"runner://runner-host-4/log"; la_FileSize := 10; la_ChecksumSHA256 := [];
  la_FirstEventTime := Some (id * 100); la_LastEventTime := Some (id * 100 + 100);
  la_Status := $"archived"; la_ServerUUID := []; la_ServerID := []; la_StartPos := 0;
  la_EndPos := 0; la_StartGTIDSet := []; la_EndGTIDSet := []; la_PreviousFileName := [];
  la_NextFileName := []; la_PGSystemIdentifier := []; la_TimelineID := [];
  la_WALSegmentSize := 0; la_ExternalServerName := []; la_StartLSN := []; la_EndLSN := [];
  la_SegmentNo := []; la_TimelineHistoryURI := [] |}.
