(* ===== verification/BinlogChain.v ===== *)
(** * The binlog behind a backup, [backup_pitr.go]

    [validateMySQLRestoreLogMetadata]: the archived binlog files of a chain
    must name each other, start at the file the backup names and carry their
    GTID sets. The purge and the planning of a restore both ask for it. *)
From Stdlib Require Import ZArith Lia String.
From stdpp Require Import base option list.
From S2P Require Import Prelude GoStrings BackupModel.

Open Scope Z_scope.

Definition DatabaseLogArchiveStatusMissing := $"missing".
Definition DatabaseLogArchiveStatusChecksumFailed := $"checksum_failed".
Definition DatabaseLogChainStatusComplete := $"complete".
Definition DatabaseLogChainStatusMissingBinlog := $"missing_binlog".
Definition DatabaseLogChainStatusGTIDGap := $"gtid_gap".
Definition DatabaseLogChainStatusTimeRangeGap := $"time_range_gap".

Section binlog_chain.
Context `{U : UnicodeTables}.

(** Two neighbouring logs that name each other differently. *)
Definition link_break (prev item : DatabaseLogArchive) : option gostring :=
  if negb (bool_decide (TrimSpace (la_NextFileName prev) = [])) &&
     negb (bool_decide (la_NextFileName prev = la_FileName item))
  then Some ($"binlog 文件链断裂：" ++ la_FileName prev ++ $" 的下一个文件不是 "
             ++ la_FileName item)
  else if negb (bool_decide (TrimSpace (la_PreviousFileName item) = [])) &&
          negb (bool_decide (la_PreviousFileName item = la_FileName prev))
  then Some ($"binlog 文件链断裂：" ++ la_FileName item ++ $" 的上一个文件不是 "
             ++ la_FileName prev)
  else None.

(** The loop over the archived logs: the first break, or whether the start
    file was seen. [prev] is [logs[index-1]]. *)
Fixpoint binlog_loop (base : DatabaseBackupRecord) (gtidEnabled foundStart : bool)
    (prev : option DatabaseLogArchive) (logs : list DatabaseLogArchive)
    : (gostring * gostring) + bool :=
  match logs with
  | [] => inr foundStart
  | item :: logs' =>
    let foundStart := foundStart || bool_decide (la_FileName item = r_BackupBinlogFile base) ||
                      bool_decide (la_PreviousFileName item = r_BackupBinlogFile base) in
    match prev ≫= (fun prev => link_break prev item) with
    | Some message => inl (DatabaseLogChainStatusMissingBinlog, message)
    | None =>
      if gtidEnabled && bool_decide (TrimSpace (la_StartGTIDSet item) = []) &&
         bool_decide (TrimSpace (la_EndGTIDSet item) = [])
      then inl (DatabaseLogChainStatusGTIDGap,
                $"binlog " ++ la_FileName item ++ $" 缺少 GTID 起止集合")
      else binlog_loop base gtidEnabled foundStart (Some item) logs'
    end
  end.

Definition validateMySQLRestoreLogMetadata (base : DatabaseBackupRecord)
    (logs : list DatabaseLogArchive) : gostring * gostring :=
  if bool_decide (TrimSpace (r_BackupBinlogFile base) = []) &&
     bool_decide (TrimSpace (r_BackupGTIDSet base) = [])
  then (DatabaseLogChainStatusMissingBinlog,
        $"base backup 缺少 backup_binlog_file/binlog_pos 或 GTID 起点")
  else
    let gtidEnabled := EqualFold (TrimSpace (r_GTIDMode base)) $"ON" ||
                       Contains (ToLower (r_GTIDMode base)) $"mariadb" ||
                       negb (bool_decide (TrimSpace (r_BackupGTIDSet base) = [])) in
    if gtidEnabled && bool_decide (TrimSpace (r_BackupGTIDSet base) = []) &&
       bool_decide (TrimSpace (r_ExecutedGTIDSet base) = [])
    then (DatabaseLogChainStatusGTIDGap, $"GTID 模式已开启，但 base backup 缺少 GTID 集合")
    else match logs with
    | [] => (DatabaseLogChainStatusMissingBinlog, $"缺少 binlog 归档")
    | _ =>
      if bool_decide (TrimSpace (r_BackupBinlogFile base) = [])
      then (DatabaseLogChainStatusComplete, [])
      else match binlog_loop base gtidEnabled false None logs with
           | inl break_ => break_
           | inr true => (DatabaseLogChainStatusComplete, [])
           | inr false => (DatabaseLogChainStatusMissingBinlog,
                           $"日志归档中未找到 base backup 对应的 binlog 起点")
           end
    end.
End binlog_chain.
