(* ===== verification/BackupChain.v ===== *)
(** * The physical backup chain, [backup_policy_chain.go]

    [validateBackupPolicyChainRecords] walks from a base record along its
    children and reports what breaks the chain; the state row of the policy is
    rewritten from the outcome. Records are not changed, so the model passes
    them by value. *)

From Stdlib Require Import ZArith Lia.
From stdpp Require Import base tactics option list numbers sets gmap.
From S2P Require Import Prelude GoStrings SqlSafety WriteExec BackupModel.

Open Scope Z_scope.

Record backupPolicyChainValidation := {
  v_Status : gostring; v_BaseRecord : option DatabaseBackupRecord;
  v_LatestRecord : option DatabaseBackupRecord; v_Records : list DatabaseBackupRecord;
  v_BlockingReasons : list gostring; v_Warnings : list gostring;
  v_Messages : list gostring; v_CheckedAt : Z; v_State : option DatabaseBackupChainState }.
Abbreviation validation := backupPolicyChainValidation.

Definition set_status (v : validation) (status : gostring) (reason : gostring) : validation := {|
  v_Status := status; v_BaseRecord := v_BaseRecord v; v_LatestRecord := v_LatestRecord v;
  v_Records := v_Records v; v_BlockingReasons := v_BlockingReasons v ++ [reason];
  v_Warnings := v_Warnings v; v_Messages := v_Messages v; v_CheckedAt := v_CheckedAt v;
  v_State := v_State v |}.
Definition set_base (v : validation) (base : DatabaseBackupRecord) : validation := {|
  v_Status := v_Status v; v_BaseRecord := Some base; v_LatestRecord := v_LatestRecord v;
  v_Records := v_Records v; v_BlockingReasons := v_BlockingReasons v;
  v_Warnings := v_Warnings v; v_Messages := v_Messages v; v_CheckedAt := v_CheckedAt v;
  v_State := v_State v |}.
Definition set_latest (v : validation) (latest : DatabaseBackupRecord) : validation := {|
  v_Status := v_Status v; v_BaseRecord := v_BaseRecord v; v_LatestRecord := Some latest;
  v_Records := v_Records v; v_BlockingReasons := v_BlockingReasons v;
  v_Warnings := v_Warnings v; v_Messages := v_Messages v; v_CheckedAt := v_CheckedAt v;
  v_State := v_State v |}.
Definition append_record (v : validation) (r : DatabaseBackupRecord) : validation := {|
  v_Status := v_Status v; v_BaseRecord := v_BaseRecord v; v_LatestRecord := v_LatestRecord v;
  v_Records := v_Records v ++ [r]; v_BlockingReasons := v_BlockingReasons v;
  v_Warnings := v_Warnings v; v_Messages := v_Messages v; v_CheckedAt := v_CheckedAt v;
  v_State := v_State v |}.

Section chain.
Context `{U : UnicodeTables, L : GoLib}.

(** ** [fail], [warn], [message] *)
Definition fail (v : validation) (status reason : gostring) : validation :=
  if bool_decide (TrimSpace reason = []) then v
  else set_status v
         (if bool_decide (v_Status v = []) ||
             bool_decide (v_Status v = DatabaseBackupChainStatusComplete)
          then status else v_Status v) reason.

Definition warn (v : validation) (message : gostring) : validation :=
  if bool_decide (TrimSpace message = []) then v
  else {| v_Status := v_Status v; v_BaseRecord := v_BaseRecord v;
          v_LatestRecord := v_LatestRecord v; v_Records := v_Records v;
          v_BlockingReasons := v_BlockingReasons v; v_Warnings := v_Warnings v ++ [message];
          v_Messages := v_Messages v; v_CheckedAt := v_CheckedAt v; v_State := v_State v |}.

Definition message (v : validation) (msg : gostring) : validation :=
  if bool_decide (TrimSpace msg = []) then v
  else {| v_Status := v_Status v; v_BaseRecord := v_BaseRecord v;
          v_LatestRecord := v_LatestRecord v; v_Records := v_Records v;
          v_BlockingReasons := v_BlockingReasons v; v_Warnings := v_Warnings v;
          v_Messages := v_Messages v ++ [msg]; v_CheckedAt := v_CheckedAt v;
          v_State := v_State v |}.

(** [if cond { validation.fail(...) }]. *)
Definition fail_when (b : bool) (status reason : gostring) (v : validation) : validation :=
  if b then fail v status reason else v.

(** ** [validatePolicyChainRecord]: [None] is the nil error *)
Definition validatePolicyChainRecord (policy : DatabaseBackupPolicyConfig) (hostID : Z)
    (record : DatabaseBackupRecord) : option gostring :=
  if negb (r_PolicyID record =? p_ID policy) then Some $"记录不属于当前策略"
  else if negb (bool_decide (r_Status record = DatabaseBackupStatusSuccess))
  then Some $"记录不是成功状态"
  else if negb (bool_decide (normalizeBackupMethod (r_BackupMethod record)
                             = DatabaseBackupMethodPhysical))
  then Some $"记录不是物理备份"
  else if negb (bool_decide (TrimSpace (r_BackupEngine record)
                             = TrimSpace (p_BackupEngine policy)))
  then Some $"备份引擎与策略不一致"
  else if negb (r_SourceInstanceID record =?
                normalizeBackupSourceInstanceID (p_SourceInstanceID policy) (p_InstanceID policy))
  then Some $"来源实例与策略不一致"
  else
    let level := normalizeBackupLevel (r_BackupLevel record) in
    if negb (one_of level [DatabaseBackupLevelFull]) &&
       negb (one_of level [DatabaseBackupLevelIncremental])
    then Some $"备份层级不支持"
    else if one_of (r_ArtifactState record)
              [DatabaseBackupArtifactStateMissing; DatabaseBackupArtifactStateChecksumFailed]
    then Some $"artifact 状态不可用"
    else if bool_decide (TrimSpace (r_ChecksumSHA256 record) = []) then Some $"缺少 checksum"
    else if bool_decide (TrimSpace (r_CheckpointToLSN record) = [])
    then Some $"缺少 checkpoint to_lsn"
    else match resolveRunnerReadableArtifactPath (r_StorageURI record) (r_FilePath record)
                 hostID with
         | Err e => Some e
         | Ok _ => None
         end.

Definition is_full (r : DatabaseBackupRecord) : bool :=
  bool_decide (normalizeBackupLevel (r_BackupLevel r) = DatabaseBackupLevelFull).
Definition is_incremental (r : DatabaseBackupRecord) : bool :=
  bool_decide (normalizeBackupLevel (r_BackupLevel r) = DatabaseBackupLevelIncremental).

(** ** The base record *)
Definition by_id (records : list DatabaseBackupRecord) : gmap Z DatabaseBackupRecord :=
  foldl (fun m item => <[r_ID item := item]> m) ∅ records.

Definition latest_full (records : list DatabaseBackupRecord) : option DatabaseBackupRecord :=
  List.find is_full (rev records).

(** The base of the state row, or the last full record. *)
Definition choose_base (state : option DatabaseBackupChainState)
    (records : list DatabaseBackupRecord) (v : validation)
    : validation * option DatabaseBackupRecord :=
  let '(v, base) :=
    match state with
    | Some s =>
      if 0 <? s_CurrentBaseRecordID s then
        match by_id records !! s_CurrentBaseRecordID s with
        | Some base => (v, Some base)
        | None =>
          (fail v DatabaseBackupChainStatusMissingBase
             ($"当前基础备份记录 #" ++ fmt_d (s_CurrentBaseRecordID s)
              ++ $" 不存在或不是成功物理备份"), None)
        end
      else (v, None)
    | None => (v, None)
    end in
  match base with
  | Some base => (v, Some base)
  | None =>
    match latest_full records with
    | Some base =>
      (message v ($"未找到链状态中的基础记录，自动选择最近成功全量 #" ++ fmt_d (r_ID base)
                  ++ $" 做校验基线"), Some base)
    | None => (v, None)
    end
  end.

(** ** The children of each record within the chain of the base *)
Definition in_chain (base item : DatabaseBackupRecord) : bool :=
  negb ((r_ParentRecordID item =? 0) || (r_ID item =? r_ID base)) &&
  (bool_decide (TrimSpace (r_ChainID base) = []) ||
   bool_decide (TrimSpace (r_ChainID item) = TrimSpace (r_ChainID base))).

Definition children_of (base : DatabaseBackupRecord) (records : list DatabaseBackupRecord)
    : gmap Z (list DatabaseBackupRecord) :=
  sort_stable record_less <$>
  foldl (fun m item =>
           if in_chain base item
           then <[r_ParentRecordID item := default [] (m !! r_ParentRecordID item) ++ [item]]> m
           else m) ∅ records.

(** ** One step of the walk *)
Definition lsn_break (current next : DatabaseBackupRecord) : option gostring :=
  let fromLSN := TrimSpace (r_CheckpointFromLSN next) in
  if negb (bool_decide (fromLSN = [])) then
    let toLSN := TrimSpace (r_CheckpointToLSN current) in
    if negb (bool_decide (toLSN = [])) && negb (bool_decide (fromLSN = toLSN))
    then Some ($"增量记录 #" ++ fmt_d (r_ID next) ++ $" from_lsn=" ++ fromLSN ++ $" 与父记录 #"
               ++ fmt_d (r_ID current) ++ $" to_lsn=" ++ toLSN ++ $" 不连续")
    else None
  else Some ($"增量记录 #" ++ fmt_d (r_ID next) ++ $" 缺少 checkpoint from_lsn").

Definition server_break (current next : DatabaseBackupRecord) : bool :=
  negb (bool_decide (TrimSpace (r_ServerUUID current) = [])) &&
  negb (bool_decide (TrimSpace (r_ServerUUID next) = [])) &&
  negb (bool_decide (TrimSpace (r_ServerUUID current) = TrimSpace (r_ServerUUID next))).

Definition check_child (policy : DatabaseBackupPolicyConfig) (hostID : Z)
    (base current next : DatabaseBackupRecord) (v : validation) : validation :=
  let broken := DatabaseBackupChainStatusBrokenChain in
  let v := fail_when (negb (is_incremental next)) broken
             ($"记录 #" ++ fmt_d (r_ID next) ++ $" 是子节点但层级不是增量") v in
  let v := fail_when (negb (r_BaseRecordID next =? r_ID base)) broken
             ($"增量记录 #" ++ fmt_d (r_ID next) ++ $" 的基础记录 #" ++ fmt_d (r_BaseRecordID next)
              ++ $" 与当前基础 #" ++ fmt_d (r_ID base) ++ $" 不一致") v in
  let v := match validatePolicyChainRecord policy hostID next with
           | Some err =>
             fail v broken ($"增量记录 #" ++ fmt_d (r_ID next) ++ $" 不可用: " ++ err)
           | None => v
           end in
  let v := match lsn_break current next with Some reason => fail v broken reason | None => v end in
  fail_when (server_break current next) broken
    ($"记录 #" ++ fmt_d (r_ID next) ++ $" server_uuid 与父记录不一致") v.

(** The [for] loop: [None] when the fuel is spent. *)
Fixpoint chain_walk (fuel : nat) (policy : DatabaseBackupPolicyConfig) (hostID : Z)
    (base : DatabaseBackupRecord) (children : gmap Z (list DatabaseBackupRecord))
    (visited : gset Z) (current : DatabaseBackupRecord) (v : validation)
    : option (validation * DatabaseBackupRecord) :=
  match fuel with
  | O => None
  | S fuel =>
    match default [] (children !! r_ID current) with
    | [] => Some (v, current)
    | next :: others =>
      let v := match others with
               | [] => v
               | _ => warn v ($"父记录 #" ++ fmt_d (r_ID current)
                              ++ $" 存在多个子增量，已按时间选择最早子链")
               end in
      if bool_decide (r_ID next ∈ visited)
      then Some (fail v DatabaseBackupChainStatusBrokenChain
                   ($"备份链出现循环引用: #" ++ fmt_d (r_ID next)), current)
      else
        chain_walk fuel policy hostID base children ({[r_ID next]} ∪ visited) next
          (append_record (check_child policy hostID base current next v) next)
    end
  end.

(** ** [validateBackupPolicyChainRecords] *)

Definition initial_validation (state : option DatabaseBackupChainState) (now : Z) : validation := {|
  v_Status := DatabaseBackupChainStatusComplete; v_BaseRecord := None; v_LatestRecord := None;
  v_Records := []; v_BlockingReasons := []; v_Warnings := []; v_Messages := [];
  v_CheckedAt := now; v_State := state |}.

(** What follows the walk: the latest record of the state row, the binlog
    stream, the closing message. *)
Definition check_latest (state : option DatabaseBackupChainState)
    (records : list DatabaseBackupRecord) (base current : DatabaseBackupRecord)
    (v : validation) : validation :=
  match state with
  | Some s =>
    if (0 <? s_LatestRecordID s) && negb (s_LatestRecordID s =? r_ID current) then
      match by_id records !! s_LatestRecordID s with
      | None =>
        fail v DatabaseBackupChainStatusMissingIncremental
          ($"链状态最新记录 #" ++ fmt_d (s_LatestRecordID s) ++ $" 不存在或不是成功物理备份")
      | Some _ =>
        fail v DatabaseBackupChainStatusMissingIncremental
          ($"链状态最新记录 #" ++ fmt_d (s_LatestRecordID s) ++ $" 无法从基础记录 #"
           ++ fmt_d (r_ID base) ++ $" 连续追溯")
      end
    else v
  | None => v
  end.

Definition finish_validation (policy : DatabaseBackupPolicyConfig)
    (base current : DatabaseBackupRecord) (v : validation) : validation :=
  let v :=
    if p_BinlogStreamID policy =? 0
    then warn v $"策略未绑定 binlog 归档流；备份链可用于增量父链，但 PITR 到任意时间点仍依赖额外 binlog 归档"
    else v in
  match v_BlockingReasons v with
  | [] =>
    message {| v_Status := DatabaseBackupChainStatusComplete; v_BaseRecord := v_BaseRecord v;
               v_LatestRecord := v_LatestRecord v; v_Records := v_Records v;
               v_BlockingReasons := v_BlockingReasons v; v_Warnings := v_Warnings v;
               v_Messages := v_Messages v; v_CheckedAt := v_CheckedAt v;
               v_State := v_State v |}
      ($"备份链校验通过：基础记录 #" ++ fmt_d (r_ID base) ++ $"，最新记录 #" ++ fmt_d (r_ID current)
       ++ $"，增量数 " ++ fmt_d (Z.of_nat (length (v_Records v)) - 1))
  | _ => v
  end.

Definition validate_with_fuel (fuel : nat) (policy : DatabaseBackupPolicyConfig) (hostID : Z)
    (state : option DatabaseBackupChainState) (records : list DatabaseBackupRecord) (now : Z)
    : option validation :=
  let records := sort_stable record_less records in
  let '(v, base) := choose_base state records (initial_validation state now) in
  match base with
  | None => Some (fail v DatabaseBackupChainStatusMissingBase $"没有可用的成功全量物理备份")
  | Some base =>
    let v := set_base v base in
    let v := match validatePolicyChainRecord policy hostID base with
             | Some err =>
               fail v DatabaseBackupChainStatusBrokenChain
                 ($"基础备份 #" ++ fmt_d (r_ID base) ++ $" 不可用: " ++ err)
             | None => v
             end in
    let v := append_record v base in
    match chain_walk fuel policy hostID base (children_of base records) {[r_ID base]} base v with
    | None => None
    | Some (v, current) =>
      let v := set_latest v current in
      Some (finish_validation policy base current (check_latest state records base current v))
    end
  end.

(** Each step visits another record: one more than their number is enough. *)
Definition validateBackupPolicyChainRecords (policy : DatabaseBackupPolicyConfig) (hostID : Z)
    (state : option DatabaseBackupChainState) (records : list DatabaseBackupRecord) (now : Z)
    : option validation :=
  validate_with_fuel (S (length records)) policy hostID state records now.

(** ** [persistBackupPolicyChainValidation]: the row that is saved *)
Definition count_incrementals (records : list DatabaseBackupRecord) : Z :=
  Z.of_nat (length (List.filter is_incremental records)).

(** The last full record of each origin, kept from the old row otherwise. *)
Definition last_id (p : DatabaseBackupRecord -> bool) (old : Z)
    (records : list DatabaseBackupRecord) : Z :=
  foldl (fun id r => if p r then r_ID r else id) old records.

Definition is_synthetic (r : DatabaseBackupRecord) : bool :=
  bool_decide (r_BackupOrigin r = DatabaseBackupOriginSyntheticFull).

Definition new_chain_state (policy : DatabaseBackupPolicyConfig) : DatabaseBackupChainState := {|
  s_ID := 0; s_PolicyID := p_ID policy; s_InstanceID := p_InstanceID policy; s_ChainID := [];
  s_CurrentBaseRecordID := 0; s_LatestRecordID := 0; s_LatestFullRecordID := 0;
  s_LatestSyntheticRecordID := 0; s_IncrementalCount := 0; s_ChainStartedAt := None;
  s_LastSuccessAt := None; s_RecoverableUntil := None; s_Status := [];
  s_LastValidationStatus := []; s_LastError := [] |}.

Definition or_else {A} (a b : option A) : option A := match a with Some _ => a | None => b end.

Definition persisted_state (policy : DatabaseBackupPolicyConfig) (v : validation)
    : DatabaseBackupChainState :=
  let state := default (new_chain_state policy) (v_State v) in
  match v_BlockingReasons v with
  | _ :: _ => {|
      s_ID := s_ID state; s_PolicyID := s_PolicyID state; s_InstanceID := p_InstanceID policy;
      s_ChainID := s_ChainID state; s_CurrentBaseRecordID := s_CurrentBaseRecordID state;
      s_LatestRecordID := s_LatestRecordID state;
      s_LatestFullRecordID := s_LatestFullRecordID state;
      s_LatestSyntheticRecordID := s_LatestSyntheticRecordID state;
      s_IncrementalCount := s_IncrementalCount state;
      s_ChainStartedAt := s_ChainStartedAt state; s_LastSuccessAt := s_LastSuccessAt state;
      s_RecoverableUntil := s_RecoverableUntil state;
      s_Status := DatabaseBackupChainStateBroken; s_LastValidationStatus := v_Status v;
      s_LastError := trimText (Join (v_BlockingReasons v) $"；") 1000 |}
  | [] =>
    let base := v_BaseRecord v in
    let latest := v_LatestRecord v in
    {|
      s_ID := s_ID state; s_PolicyID := s_PolicyID state; s_InstanceID := p_InstanceID policy;
      s_ChainID := match base with Some b => r_ChainID b | None => s_ChainID state end;
      s_CurrentBaseRecordID :=
        match base with Some b => r_ID b | None => s_CurrentBaseRecordID state end;
      s_LatestRecordID := match latest with Some l => r_ID l | None => s_LatestRecordID state end;
      s_LatestFullRecordID :=
        last_id (fun r => is_full r && negb (is_synthetic r)) (s_LatestFullRecordID state)
          (v_Records v);
      s_LatestSyntheticRecordID :=
        last_id (fun r => is_full r && is_synthetic r) (s_LatestSyntheticRecordID state)
          (v_Records v);
      s_IncrementalCount := count_incrementals (v_Records v);
      s_ChainStartedAt :=
        match base with
        | Some b => or_else (r_StartedAt b) (s_ChainStartedAt state)
        | None => s_ChainStartedAt state
        end;
      s_LastSuccessAt :=
        match latest with
        | Some l => or_else (r_FinishedAt l) (s_LastSuccessAt state)
        | None => s_LastSuccessAt state
        end;
      s_RecoverableUntil :=
        match latest with Some l => r_RecoverableUntil l | None => s_RecoverableUntil state end;
      s_Status := DatabaseBackupChainStateHealthy; s_LastValidationStatus := v_Status v;
      s_LastError := [] |}
  end.

(** The rows by number; a row without one is created, another one saved. *)
Definition persistBackupPolicyChainValidation (policy : DatabaseBackupPolicyConfig)
    (v : validation) (table : gmap Z DatabaseBackupChainState) (next_id : Z)
    : gmap Z DatabaseBackupChainState :=
  let state := persisted_state policy v in
  let state :=
    if s_ID state =? 0 then {|
      s_ID := next_id; s_PolicyID := s_PolicyID state; s_InstanceID := s_InstanceID state;
      s_ChainID := s_ChainID state; s_CurrentBaseRecordID := s_CurrentBaseRecordID state;
      s_LatestRecordID := s_LatestRecordID state;
      s_LatestFullRecordID := s_LatestFullRecordID state;
      s_LatestSyntheticRecordID := s_LatestSyntheticRecordID state;
      s_IncrementalCount := s_IncrementalCount state; s_ChainStartedAt := s_ChainStartedAt state;
      s_LastSuccessAt := s_LastSuccessAt state; s_RecoverableUntil := s_RecoverableUntil state;
      s_Status := s_Status state; s_LastValidationStatus := s_LastValidationStatus state;
      s_LastError := s_LastError state |}
    else state in
  <[s_ID state := state]> table.
End chain.
