(* ===== verification/BackupChainFacts.v ===== *)
(** * What a validated backup chain is

    The walk of BackupChain terminates, and the status "complete" stands
    exactly for a linear chain of usable records from the base to the latest
    one. *)

From Stdlib Require Import ZArith Lia String Sorted.
From stdpp Require Import base tactics option list numbers sets gmap fin_maps.
From S2P Require Import Prelude GoStrings SqlSafety WriteExec BackupModel BackupChain.

Open Scope Z_scope.

Section facts.
Context `{U : UnicodeTables, L : GoLib}.

(** ** Blocking reasons *)

(** A text that starts with a visible literal is not blank. *)
Lemma lit_nonblank s t :
  existsb (fun r => negb (IsSpace r)) (lit s) = true -> TrimSpace (lit s ++ t) <> [].
Proof.
  intros (r & Hin & Hr)%List.existsb_exists. rewrite TrimSpace_nil, list.Forall_forall.
  intros H. specialize (H r). apply negb_true_iff in Hr. rewrite H in Hr; [done|].
  apply elem_of_app. left. by apply list_elem_of_In.
Qed.

Definition unblocked (v : validation) : Prop := v_BlockingReasons v = [].

Lemma fail_blocks v status s t :
  existsb (fun r => negb (IsSpace r)) (lit s) = true -> ~ unblocked (fail v status (lit s ++ t)).
Proof.
  intros Hs. unfold fail, unblocked. rewrite bool_decide_eq_false_2 by by apply lit_nonblank.
  simpl. by destruct (v_BlockingReasons v).
Qed.

(** The status is "complete" as long as nothing blocks. *)
Definition status_agrees (v : validation) : Prop :=
  v_Status v <> [] /\ (v_Status v = DatabaseBackupChainStatusComplete <-> unblocked v).

Lemma fail_agrees v status reason :
  status <> [] -> status <> DatabaseBackupChainStatusComplete -> TrimSpace reason <> [] ->
  status_agrees v -> status_agrees (fail v status reason).
Proof.
  intros Hs1 Hs2 Hr [Hne Hv]. unfold status_agrees, unblocked, fail in *.
  rewrite (bool_decide_eq_false_2 _ Hr), (bool_decide_eq_false_2 _ Hne). simpl.
  case_bool_decide; (split; [done|]); split; intros; try done;
    by destruct (v_BlockingReasons v).
Qed.

Lemma warn_eq v m : v_Status (warn v m) = v_Status v /\ v_Records (warn v m) = v_Records v /\
  v_BlockingReasons (warn v m) = v_BlockingReasons v /\ v_BaseRecord (warn v m) = v_BaseRecord v /\
  v_LatestRecord (warn v m) = v_LatestRecord v /\ v_State (warn v m) = v_State v.
Proof. unfold warn. by case_match. Qed.

Lemma message_eq v m : v_Status (message v m) = v_Status v /\
  v_Records (message v m) = v_Records v /\
  v_BlockingReasons (message v m) = v_BlockingReasons v /\
  v_BaseRecord (message v m) = v_BaseRecord v /\
  v_LatestRecord (message v m) = v_LatestRecord v /\ v_State (message v m) = v_State v.
Proof. unfold message. by case_match. Qed.

Lemma fail_eq v s m : v_Records (fail v s m) = v_Records v /\
  v_BaseRecord (fail v s m) = v_BaseRecord v /\
  v_LatestRecord (fail v s m) = v_LatestRecord v /\ v_State (fail v s m) = v_State v.
Proof. unfold fail. by case_match. Qed.

(** [fail_when] on a visible reason. *)
Lemma fail_when_unblocked b status s t v :
  existsb (fun r => negb (IsSpace r)) (lit s) = true ->
  unblocked (fail_when b status (lit s ++ t) v) <-> unblocked v /\ b = false.
Proof.
  intros Hs. unfold fail_when. destruct b; [|naive_solver].
  split; [by intros ?%fail_blocks | naive_solver].
Qed.

Lemma fail_opt_unblocked (e : option gostring) status s (t : gostring -> gostring) v :
  existsb (fun r => negb (IsSpace r)) (lit s) = true ->
  unblocked (match e with Some err => fail v status (lit s ++ t err) | None => v end) <->
  unblocked v /\ e = None.
Proof.
  intros Hs. destruct e; [|naive_solver]. split; [by intros ?%fail_blocks | naive_solver].
Qed.
Lemma fail_visible v status reason :
  TrimSpace reason <> [] -> ~ unblocked (fail v status reason).
Proof.
  intros Hr. unfold fail, unblocked. rewrite bool_decide_eq_false_2 by done.
  simpl. by destruct (v_BlockingReasons v).
Qed.

Lemma lsn_break_visible current next reason :
  lsn_break current next = Some reason -> TrimSpace reason <> [].
Proof.
  unfold lsn_break. intros H. repeat case_match; try discriminate; apply (inj Some) in H as <-;
    by apply lit_nonblank.
Qed.

(** ** Links *)

(** [next] continues a chain of [base] after [current]. *)
Record link (policy : DatabaseBackupPolicyConfig) (hostID : Z)
    (base current next : DatabaseBackupRecord) : Prop := {
  link_incremental : is_incremental next = true;
  link_base : r_BaseRecordID next = r_ID base;
  link_usable : validatePolicyChainRecord policy hostID next = None;
  link_lsn : lsn_break current next = None;
  link_server : server_break current next = false;
}.

Lemma check_child_unblocked policy hostID base current next v :
  unblocked (check_child policy hostID base current next v) <->
  unblocked v /\ link policy hostID base current next.
Proof.
  unfold check_child. rewrite fail_when_unblocked by done.
  assert (forall v, unblocked match lsn_break current next with
    | Some reason => fail v DatabaseBackupChainStatusBrokenChain reason | None => v end <->
    unblocked v /\ lsn_break current next = None) as ->.
  { intros w. destruct (lsn_break current next) eqn:E; [|naive_solver].
    split; [by intros ?%fail_visible; [|eapply lsn_break_visible] | naive_solver]. }
  rewrite (fail_opt_unblocked _ _ "增量记录 #"%string
    (fun err => fmt_d (r_ID next) ++ $" 不可用: " ++ err)) by done.
  rewrite !fail_when_unblocked by done.
  rewrite !negb_false_iff, Z.eqb_eq. split; [|intros [? []]; tauto].
  intros (((((? & ?) & ?) & ?) & ?) & ?). by repeat split.
Qed.

(** The rest of a validation that a check leaves alone. *)
Definition same_shape (v w : validation) : Prop :=
  v_Records w = v_Records v /\ v_BaseRecord w = v_BaseRecord v /\
  v_LatestRecord w = v_LatestRecord v /\ v_State w = v_State v.

#[local] Instance same_shape_preorder : PreOrder same_shape.
Proof. split; [by intros ? | intros ??? (?&?&?&?) (?&?&?&?); unfold same_shape; naive_solver congruence]. Qed.

Lemma fail_shape v s m : same_shape v (fail v s m).
Proof. apply fail_eq. Qed.
Lemma fail_when_shape b s m v : same_shape v (fail_when b s m v).
Proof. destruct b; [apply fail_shape | done]. Qed.
Lemma warn_shape v m : same_shape v (warn v m).
Proof. pose proof (warn_eq v m). unfold same_shape. tauto. Qed.
Lemma message_shape v m : same_shape v (message v m).
Proof. pose proof (message_eq v m). unfold same_shape. tauto. Qed.

Lemma check_child_shape policy hostID base current next v :
  same_shape v (check_child policy hostID base current next v).
Proof.
  unfold check_child. etrans; [|apply fail_when_shape].
  assert (forall v (e : option gostring) f, same_shape v match e with
    | Some r => fail v DatabaseBackupChainStatusBrokenChain (f r) | None => v end) as Hopt.
  { intros ? [?|] ?; [apply fail_shape | done]. }
  etrans; [|apply (Hopt _ _ (fun r => r))]. etrans; [|apply Hopt].
  etrans; apply fail_when_shape.
Qed.

(** The status agrees with the reasons through every check. *)
Lemma agrees_when b s t v :
  existsb (fun r => negb (IsSpace r)) (lit s) = true ->
  status_agrees v -> status_agrees (fail_when b DatabaseBackupChainStatusBrokenChain (lit s ++ t) v).
Proof.
  intros Hs Hv. destruct b; [|done]. apply fail_agrees; [done..| |done]. by apply lit_nonblank.
Qed.

Lemma check_child_agrees policy hostID base current next v :
  status_agrees v -> status_agrees (check_child policy hostID base current next v).
Proof.
  intros Hv. unfold check_child. apply agrees_when; [done|].
  destruct (lsn_break current next) eqn:E;
    [apply fail_agrees; [done | done | by eapply lsn_break_visible |]|].
  all: destruct (validatePolicyChainRecord policy hostID next);
    [apply fail_agrees; [done | done | by apply lit_nonblank |]|].
  all: by repeat (apply agrees_when; [done|]).
Qed.

(** ** Children *)

Definition child_list (children : gmap Z (list DatabaseBackupRecord)) (id : Z)
    : list DatabaseBackupRecord := default [] (children !! id).

(** The records that name [id] as their parent within the chain of [base]. *)
Definition is_child (base : DatabaseBackupRecord) (id : Z) (x : DatabaseBackupRecord) : bool :=
  in_chain base x && (r_ParentRecordID x =? id).

Lemma children_fold base records m id :
  child_list (foldl (fun m item =>
    if in_chain base item
    then <[r_ParentRecordID item := default [] (m !! r_ParentRecordID item) ++ [item]]> m
    else m) m records) id = child_list m id ++ List.filter (is_child base id) records.
Proof.
  revert m. induction records as [|x records IH]; intros m; simpl; [by rewrite app_nil_r|].
  rewrite IH. unfold is_child at 2. destruct (in_chain base x) eqn:E; [|done]. simpl.
  unfold child_list. destruct (Z.eqb_spec (r_ParentRecordID x) id) as [<-|Hne].
  - rewrite lookup_insert_eq. simpl. by rewrite <- app_assoc.
  - by rewrite lookup_insert_ne.
Qed.

Lemma children_of_spec base records id :
  child_list (children_of base records) id =
  sort_stable record_less (List.filter (is_child base id) records).
Proof.
  unfold children_of, child_list. rewrite lookup_fmap.
  pose proof (children_fold base records ∅ id) as H. unfold child_list in H.
  rewrite lookup_empty in H. simpl in H.
  destruct (foldl _ ∅ records !! id); simpl in *; by rewrite <- H.
Qed.

Lemma in_children base records id x :
  x ∈ child_list (children_of base records) id -> x ∈ records /\ is_child base id x = true.
Proof.
  rewrite children_of_spec, sort_stable_perm. intros H%list_elem_of_In%List.filter_In.
  by rewrite list_elem_of_In.
Qed.

(** ** The walk *)

(** The first children, one after the other, from [current] to [latest]. *)
Inductive walked (children : gmap Z (list DatabaseBackupRecord)) :
    DatabaseBackupRecord -> list DatabaseBackupRecord -> DatabaseBackupRecord -> Prop :=
| walked_end current : walked children current [] current
| walked_step current next l latest :
    head (child_list children (r_ID current)) = Some next ->
    walked children next l latest -> walked children current (next :: l) latest.

(** Every record of [l] is linked to the one before it. *)
Fixpoint linked (policy : DatabaseBackupPolicyConfig) (hostID : Z)
    (base current : DatabaseBackupRecord) (l : list DatabaseBackupRecord) : Prop :=
  match l with
  | [] => True
  | next :: l' => link policy hostID base current next /\ linked policy hostID base next l'
  end.

Lemma head_children_visible children current next others :
  child_list children (r_ID current) = next :: others ->
  head (child_list children (r_ID current)) = Some next.
Proof. by intros ->. Qed.

Lemma walk_spec policy hostID base children fuel visited current v v' latest :
  chain_walk fuel policy hostID base children visited current v = Some (v', latest) ->
  exists l, walked children current l latest /\ v_Records v' = v_Records v ++ l /\
    Forall (fun x => r_ID x ∉ visited) l /\ NoDup (r_ID <$> l) /\
    (unblocked v' <-> unblocked v /\ linked policy hostID base current l /\
       child_list children (r_ID latest) = []) /\
    v_BaseRecord v' = v_BaseRecord v /\ v_State v' = v_State v /\
    (status_agrees v -> status_agrees v').
Proof.
  revert visited current v. induction fuel as [|fuel IH]; intros visited current v H; [done|].
  cbn [chain_walk] in H.
  fold (child_list children (r_ID current)) in H.
  destruct (child_list children (r_ID current)) as [|next others] eqn:Hch.
  - injection H as <- <-. exists []. rewrite app_nil_r, fmap_nil.
    do 4 (split; [by constructor|]). simpl. tauto.
  - assert (exists w, same_shape v w /\ v_Status w = v_Status v /\
      v_BlockingReasons w = v_BlockingReasons v /\
      (if bool_decide (r_ID next ∈ visited)
       then Some (fail w DatabaseBackupChainStatusBrokenChain
                    ($"备份链出现循环引用: #" ++ fmt_d (r_ID next)), current)
       else chain_walk fuel policy hostID base children ({[r_ID next]} ∪ visited) next
              (append_record (check_child policy hostID base current next w) next))
      = Some (v', latest)) as (w & Hshape & Hst & Hbl & Hrun).
    { destruct others; eexists; (split; [|split; [|split; [|exact H]]]); try done.
      - apply warn_shape.
      - apply warn_eq.
      - apply warn_eq. }
    clear H. destruct Hshape as (Hrec & Hbase & Hlat & Hstate). case_bool_decide as Hvis.
    + apply (inj Some), pair_eq in Hrun as [<- <-]. exists [].
      pose proof (fail_eq w DatabaseBackupChainStatusBrokenChain
        ($"备份链出现循环引用: #" ++ fmt_d (r_ID next))) as (Hr & Hb & _ & Hs).
      rewrite Hr, Hb, Hs, Hrec, Hbase, Hstate, app_nil_r, fmap_nil, Hch.
      do 4 (split; [by constructor|]). split.
      { split; [by intros ?%fail_blocks | by intros (_ & _ & ?)]. }
      do 2 (split; [done|]). intros Ha. apply fail_agrees; [done | done | by apply lit_nonblank|].
      unfold status_agrees, unblocked in *. by rewrite Hst, Hbl.
    + destruct (IH _ _ _ Hrun) as (l & Hwalk & Hrec' & Hfresh & Hnd & Hun & Hb & Hs & Hag).
      destruct (check_child_shape policy hostID base current next w) as (Hcr & Hcb & _ & Hcs).
      exists (next :: l). split; [by econstructor; [rewrite Hch|]|].
      split; [rewrite Hrec'; simpl; by rewrite Hcr, Hrec, <- app_assoc|].
      rewrite list.Forall_forall in Hfresh.
      split; [constructor; [done|]; apply list.Forall_forall; set_solver|].
      split; [rewrite fmap_cons; constructor; [|done]; intros (x & Hx & Hin)%list_elem_of_fmap;
              specialize (Hfresh x Hin); set_solver|].
      split.
      { rewrite Hun. unfold unblocked at 1. simpl. fold (unblocked (check_child policy hostID base
          current next w)). rewrite check_child_unblocked. unfold unblocked. rewrite Hbl. tauto. }
      split; [rewrite Hb; simpl; congruence|]. split; [rewrite Hs; simpl; congruence|].
      intros Ha. apply Hag. change (status_agrees (check_child policy hostID base current next w)).
      apply check_child_agrees. unfold status_agrees, unblocked in *. by rewrite Hst, Hbl.
Qed.

(** Enough fuel: every step visits another of the records. *)
Lemma walk_total policy hostID base records fuel visited current v :
  (size (list_to_set (C := gset Z) (r_ID <$> records) ∖ visited) < fuel)%nat ->
  exists r, chain_walk fuel policy hostID base (children_of base records) visited current v = Some r.
Proof.
  revert visited current v. induction fuel as [|fuel IH]; intros visited current v Hf; [lia|].
  cbn [chain_walk]. fold (child_list (children_of base records) (r_ID current)).
  destruct (child_list (children_of base records) (r_ID current)) as [|next others] eqn:Hch;
    [by eexists|].
  assert (next ∈ records) as Hin.
  { eapply in_children. rewrite Hch. left. }
  case_bool_decide as Hvis; [by eexists|]. apply IH.
  eapply Nat.lt_le_trans; [apply subset_size|apply Nat.lt_succ_r, Hf].
  apply strict_spec_alt. split; [set_solver|]. intros Heq.
  assert (r_ID next ∈ list_to_set (C := gset Z) (r_ID <$> records) ∖ visited) as Hx.
  { apply elem_of_difference. split; [|done]. apply elem_of_list_to_set. by apply list_elem_of_fmap_2. }
  rewrite <- Heq in Hx. set_solver.
Qed.

(** ** The base *)

Lemma by_id_fold records m id :
  (foldl (fun m item => <[r_ID item := item]> m) m records : gmap Z DatabaseBackupRecord) !! id =
  match List.find (fun r => r_ID r =? id) (rev records) with
  | Some r => Some r
  | None => m !! id
  end.
Proof.
  revert m. induction records as [|x records IH]; intros m; [done|]. simpl. rewrite IH, find_app.
  destruct (List.find _ (rev records)); [done|]. simpl.
  destruct (Z.eqb_spec (r_ID x) id) as [<-|Hne]; [apply lookup_insert_eq | by apply lookup_insert_ne].
Qed.

Lemma by_id_Some records id r : by_id records !! id = Some r -> r ∈ records /\ r_ID r = id.
Proof.
  unfold by_id. rewrite by_id_fold, lookup_empty. intros H. case_match; [|done].
  injection H as <-. match goal with H : List.find _ _ = _ |- _ =>
    apply List.find_some in H as [Hin Hid] end.
  split; [by rewrite list_elem_of_In, in_rev | lia].
Qed.

Lemma by_id_None records id r : by_id records !! id = None -> r ∈ records -> r_ID r <> id.
Proof.
  unfold by_id. rewrite by_id_fold, lookup_empty. intros H Hin. case_match; [done|].
  match goal with H : List.find _ _ = None |- _ => apply List.find_none with (x := r) in H end;
    [lia | by rewrite <- in_rev, <- list_elem_of_In].
Qed.

(** The full record that sorts last. *)
Definition most_recent_full (records : list DatabaseBackupRecord) (base : DatabaseBackupRecord)
    : Prop :=
  base ∈ records /\ is_full base = true /\
  Forall (fun r => is_full r = true -> record_less base r = false) records.

Lemma find_rev_last {A} (p : A -> bool) (R : A -> A -> Prop) l x :
  StronglySorted R l -> (forall y, R y y) -> List.find p (rev l) = Some x ->
  x ∈ l /\ p x = true /\ Forall (fun r => p r = true -> R r x) l.
Proof.
  intros Hs Hrefl. induction Hs as [|y l Hs IH Hy]; simpl; [done|].
  rewrite find_app. destruct (List.find p (rev l)) as [z|] eqn:E.
  - intros [= ->]. destruct (IH eq_refl) as (Hin & Hp & Hall).
    split; [by right|]. split; [done|]. constructor; [|done]. intros _.
    by rewrite list.Forall_forall in Hy; apply Hy.
  - simpl. destruct (p y) eqn:Hpy; [|done]. intros [= <-]. split; [left|]. split; [done|].
    constructor; [done|]. apply list.Forall_forall. intros r Hr Hpr.
    apply List.find_none with (x := r) in E; [congruence|]. by rewrite <- in_rev, <- list_elem_of_In.
Qed.

Lemma latest_full_spec records base :
  latest_full (sort_stable record_less records) = Some base -> most_recent_full records base.
Proof.
  unfold latest_full. intros H.
  apply (find_rev_last _ (not_less record_less)) in H as (Hin & Hp & Hall);
    [|apply record_sorted | intros; unfold not_less, record_less; case_match; bsimpl; lia].
  split; [by rewrite sort_stable_perm in Hin|]. split; [done|].
  by rewrite sort_stable_perm in Hall.
Qed.

(** The state row names the base, or the most recent full record is taken. *)
Definition base_selected (state : option DatabaseBackupChainState)
    (records : list DatabaseBackupRecord) (base : DatabaseBackupRecord) : Prop :=
  match state with
  | Some s =>
    if 0 <? s_CurrentBaseRecordID s
    then base ∈ records /\ r_ID base = s_CurrentBaseRecordID s
    else most_recent_full records base
  | None => most_recent_full records base
  end.

Lemma choose_base_spec state records v v' base :
  choose_base state (sort_stable record_less records) v = (v', base) ->
  same_shape v v' /\ (status_agrees v -> status_agrees v') /\
  forall b, base = Some b -> b ∈ records /\
    (unblocked v' <-> unblocked v /\ base_selected state records b).
Proof.
  set (sorted := sort_stable record_less records).
  assert (Hin : forall r, r ∈ sorted -> r ∈ records).
  { intros r. subst sorted. by rewrite sort_stable_perm. }
  assert (Hfull : forall w (f : DatabaseBackupRecord -> gostring) b,
    match latest_full sorted with
    | Some base => (message w (f base), Some base) | None => (w, None) end = (v', b) ->
    same_shape w v' /\ (status_agrees w -> status_agrees v') /\
    (unblocked v' <-> unblocked w) /\ forall x, b = Some x -> most_recent_full records x).
  { intros w f b. destruct (latest_full sorted) as [x|] eqn:E; intros [<- <-]%pair_eq.
    - destruct (message_eq w (f x)) as (Hs & _ & Hb & _). split; [apply message_shape|].
      unfold status_agrees, unblocked. rewrite Hs, Hb. do 2 (split; [done|]).
      intros y [= <-]. by apply latest_full_spec.
    - do 3 (split; [done|]). by intros ? [=]. }
  unfold choose_base. destruct state as [s|]; [destruct (0 <? s_CurrentBaseRecordID s) eqn:Hpos|].
  - destruct (by_id sorted !! s_CurrentBaseRecordID s) as [b0|] eqn:Hlook.
    + intros [<- <-]%pair_eq. do 2 (split; [done|]). intros b [= <-].
      apply by_id_Some in Hlook as [? ?]. cbn [base_selected]; rewrite Hpos. naive_solver.
    + intros (Hshape & Hag & Hun & Hb)%Hfull. split; [etrans; [apply fail_shape | exact Hshape]|].
      split; [intros ?; apply Hag, fail_agrees; [done | done | by apply lit_nonblank | done]|].
      intros b Hbase. split; [apply (Hb b Hbase)|]. rewrite Hun. cbn [base_selected]; rewrite Hpos.
      split; [by intros ?%fail_blocks|]. intros (_ & Hbin & Hid).
      eapply by_id_None with (r := b) in Hlook; [done|]. subst sorted. by rewrite sort_stable_perm.
  - intros (Hshape & Hag & Hun & Hb)%Hfull. do 2 (split; [done|]). intros b Hbase.
    specialize (Hb b Hbase). split; [apply Hb|]. cbn [base_selected]; rewrite Hpos. naive_solver.
  - intros (Hshape & Hag & Hun & Hb)%Hfull. do 2 (split; [done|]). intros b Hbase.
    specialize (Hb b Hbase). split; [apply Hb|]. simpl. naive_solver.
Qed.

(** ** The validated chain *)

Fixpoint parents (current : DatabaseBackupRecord) (l : list DatabaseBackupRecord) : Prop :=
  match l with
  | [] => True
  | next :: l' => r_ParentRecordID next = r_ID current /\ parents next l'
  end.

(** [v] shows a complete chain [base :: incs] that ends in [latest]. *)
Record complete_chain (policy : DatabaseBackupPolicyConfig) (hostID : Z)
    (state : option DatabaseBackupChainState) (records : list DatabaseBackupRecord)
    (v : validation) (base latest : DatabaseBackupRecord) (incs : list DatabaseBackupRecord)
    : Prop := {
  cc_base : v_BaseRecord v = Some base;
  cc_latest : v_LatestRecord v = Some latest;
  cc_records : v_Records v = base :: incs;
  cc_last : last (base :: incs) = Some latest;
  cc_selected : base_selected state records base;
  cc_base_usable : validatePolicyChainRecord policy hostID base = None;
  cc_from : Forall (fun x => x ∈ records) (base :: incs);
  cc_distinct : NoDup (r_ID <$> base :: incs);
  cc_parents : parents base incs;
  cc_linked : linked policy hostID base base incs;
  cc_end : Forall (fun x => is_child base (r_ID latest) x = false) records;
  cc_state : forall s, state = Some s -> 0 < s_LatestRecordID s ->
    s_LatestRecordID s = r_ID latest;
}.

Lemma walked_last children current l latest :
  walked children current l latest -> last (current :: l) = Some latest.
Proof. induction 1 as [|c n l x ? ? IH]; [done|]. by rewrite last_cons_cons. Qed.

Lemma walked_parents base records current l latest :
  walked (children_of base records) current l latest ->
  parents current l /\ Forall (fun x => x ∈ records) l.
Proof.
  induction 1 as [|c n l x Hh ? [IH1 IH2]]; [done|].
  assert (n ∈ records /\ is_child base (r_ID c) n = true) as [Hin Hch].
  { apply in_children. destruct (child_list _ _); [done|]. injection Hh as ->. left. }
  unfold is_child in Hch. bsimpl. split; [split; [lia | done] | by constructor].
Qed.

Lemma check_latest_spec state records base current v :
  let w := check_latest state records base current v in
  same_shape v w /\ (status_agrees v -> status_agrees w) /\
  (unblocked w <-> unblocked v /\ forall s, state = Some s -> 0 < s_LatestRecordID s ->
     s_LatestRecordID s = r_ID current).
Proof.
  unfold check_latest. destruct state as [s|]; [|split; [done|]; split; [done|]; naive_solver].
  destruct ((0 <? s_LatestRecordID s) && negb (s_LatestRecordID s =? r_ID current)) eqn:E.
  - assert (forall t, existsb (fun r => negb (IsSpace r)) $"链状态最新记录 #" = true ->
      let w := fail v DatabaseBackupChainStatusMissingIncremental ($"链状态最新记录 #" ++ t) in
      same_shape v w /\ (status_agrees v -> status_agrees w) /\
      (unblocked w <-> unblocked v /\ forall s', Some s = Some s' -> 0 < s_LatestRecordID s' ->
        s_LatestRecordID s' = r_ID current)) as Hf.
    { intros t Ht. split; [apply fail_shape|].
      split; [intros; apply fail_agrees; [done | done | by apply lit_nonblank | done]|].
      split; [by intros ?%fail_blocks|]. intros [_ Hs]. bsimpl.
      specialize (Hs s eq_refl ltac:(lia)). lia. }
    destruct (by_id records !! s_LatestRecordID s); apply Hf; done.
  - do 2 (split; [done|]). split; [|tauto]. intros ?. split; [done|].
    intros s' [= <-] Hpos. apply andb_false_iff in E as [E|E]; bsimpl; lia.
Qed.

Lemma finish_spec policy base current v :
  status_agrees v ->
  let w := finish_validation policy base current v in
  same_shape v w /\ status_agrees w /\ (unblocked w <-> unblocked v).
Proof.
  intros Hag. unfold finish_validation.
  set (v1 := if p_BinlogStreamID policy =? 0 then warn v _ else v).
  assert (same_shape v v1 /\ v_Status v1 = v_Status v /\
    v_BlockingReasons v1 = v_BlockingReasons v) as (Hsh & Hst & Hbl).
  { subst v1. case_match; [|done]. split; [apply warn_shape|].
    split; [apply warn_eq | apply warn_eq]. }
  clearbody v1. destruct (v_BlockingReasons v1) as [|x l] eqn:E.
  - match goal with |- context [message ?a ?b] =>
      destruct (message_eq a b) as (Hms & _ & Hmb & _);
      pose proof (message_shape a b) as Hm end.
    split; [etrans; [exact Hsh | exact Hm]|]. unfold status_agrees, unblocked.
    rewrite Hms, Hmb. simpl. unfold status_agrees, unblocked in Hag.
    rewrite <- Hbl. done.
  - split; [done|]. unfold status_agrees, unblocked in *. by rewrite Hst, E, Hbl.
Qed.

Lemma children_none base records id :
  child_list (children_of base (sort_stable record_less records)) id = [] <->
  Forall (fun x => is_child base id x = false) records.
Proof.
  rewrite children_of_spec.
  assert (Forall (fun x => is_child base id x = false) records <->
    Forall (fun x => is_child base id x = false) (sort_stable record_less records)) as ->.
  { by rewrite (sort_stable_perm record_less records). }
  generalize (sort_stable record_less records) as l. intros l.
  split; intros H.
  - apply list.Forall_forall. intros x Hx. apply not_true_iff_false. intros Hc.
    assert (x ∈ sort_stable record_less (List.filter (is_child base id) l)) as Hin.
    { rewrite sort_stable_perm. apply list_elem_of_In, List.filter_In.
      by rewrite <- list_elem_of_In. }
    rewrite H in Hin. by apply elem_of_nil in Hin.
  - enough (List.filter (is_child base id) l = []) as -> by done.
    rewrite list.Forall_forall in H. induction l as [|x l IH]; [done|]. simpl.
    rewrite (H x) by left. apply IH. intros y Hy. apply H. by right.
Qed.

(** The outcome, with the reasons and with the chain. *)
Lemma validate_spec fuel policy hostID state records now v :
  validate_with_fuel fuel policy hostID state records now = Some v ->
  status_agrees v /\
  (unblocked v <-> exists base latest incs,
     complete_chain policy hostID state records v base latest incs).
Proof.
  unfold validate_with_fuel. intros H.
  destruct (choose_base _ _ _) as [v0 base] eqn:Hchoose.
  apply choose_base_spec in Hchoose as (Hsh0 & Hag0 & Hbase).
  assert (status_agrees v0) as Hag by (apply Hag0; done).
  destruct base as [base|].
  - destruct (Hbase base eq_refl) as [Hin Hun0]. clear Hbase.
    set (v1 := match validatePolicyChainRecord policy hostID base with
               | Some err => fail (set_base v0 base) _ _ | None => set_base v0 base end) in H.
    assert (same_shape (set_base v0 base) v1 /\ status_agrees v1 /\
      (unblocked v1 <-> unblocked v0 /\ validatePolicyChainRecord policy hostID base = None))
      as (Hsh1 & Hag1 & Hun1).
    { subst v1. destruct (validatePolicyChainRecord policy hostID base) as [err|].
      - split; [apply fail_shape|].
        split; [apply fail_agrees; [done | done | by apply lit_nonblank | exact Hag]|].
        split; [by intros ?%fail_blocks | by intros [_ ?]].
      - split; [done|]. split; [exact Hag|]. unfold unblocked. simpl. tauto. }
    clearbody v1. destruct Hsh0 as (Hr0 & Hb0 & Hl0 & Hs0), Hsh1 as (Hr1 & Hb1 & Hl1 & Hs1).
    simpl in Hr0, Hr1, Hb1.
    destruct (chain_walk _ _ _ _ _ _ _ _) as [[v2 latest]|] eqn:Hwalk; [|done].
    apply (inj Some) in H. apply walk_spec in Hwalk
      as (incs & Hwalk & Hr2 & Hfresh & Hnd & Hun2 & Hb2 & Hs2 & Hag2).
    simpl in Hr2, Hb2. rewrite Hr1, Hr0 in Hr2. rewrite Hb1 in Hb2.
    destruct (check_latest_spec state (sort_stable record_less records) base latest
      (set_latest v2 latest)) as ((Hr3 & Hb3 & Hl3 & Hs3) & Hag3 & Hun3).
    destruct (finish_spec policy base latest (check_latest state (sort_stable record_less records)
      base latest (set_latest v2 latest)) (Hag3 (Hag2 Hag1))) as ((Hr4 & Hb4 & Hl4 & Hs4) & Hag4 & Hun4).
    rewrite H in *. clear H. split; [done|].
    assert (v_BaseRecord v = Some base) as Hvb by (rewrite Hb4, Hb3; exact Hb2).
    assert (v_LatestRecord v = Some latest) as Hvl by (rewrite Hl4, Hl3; done).
    assert (v_Records v = base :: incs) as Hvr by (rewrite Hr4, Hr3; exact Hr2).
    rewrite Hun4, Hun3.
    change (unblocked (set_latest v2 latest)) with (unblocked v2). rewrite Hun2.
    change (unblocked (append_record v1 base)) with (unblocked v1). rewrite Hun1, Hun0, children_none.
    split.
    + intros ((((? & ?) & ?) & ? & ?) & ?). exists base, latest, incs.
      destruct (walked_parents _ _ _ _ _ Hwalk) as [Hpar Hmem].
      split; try done.
      * exact (walked_last _ _ _ _ Hwalk).
      * constructor; [done|]. eapply list.Forall_impl; [exact Hmem|].
        intros x; cbv beta. by rewrite sort_stable_perm.
      * rewrite fmap_cons. constructor; [|done]. rewrite list.Forall_forall in Hfresh.
        intros (x & Hx & Hxin)%list_elem_of_fmap. specialize (Hfresh x Hxin). set_solver.
    + intros (b & l & cs & [H1 H2 H3 _ H4 H5 _ _ _ H6 H7 H8]).
      rewrite Hvb in H1. injection H1 as <-. rewrite Hvl in H2. injection H2 as <-.
      rewrite Hvr in H3. injection H3 as <-. done.
  - apply (inj Some) in H as <-. split.
    + apply fail_agrees; [done | done | by vm_compute | done].
    + destruct Hsh0 as (_ & Hb0 & _). split.
      * intros Hu. exfalso. revert Hu. apply fail_visible. by vm_compute.
      * intros (b & l & cs & [H1]). exfalso. revert H1.
        destruct (fail_eq v0 DatabaseBackupChainStatusMissingBase $"没有可用的成功全量物理备份")
          as (_ & -> & _). by rewrite Hb0.
Qed.

(** ** Properties *)

Lemma size_ids (l : list DatabaseBackupRecord) (X : gset Z) :
  (size (list_to_set (C := gset Z) (r_ID <$> l) ∖ X) <= length l)%nat.
Proof.
  transitivity (size (list_to_set (C := gset Z) (r_ID <$> l))).
  { apply subseteq_size. set_solver. }
  induction l as [|x l IH]; [done|]. rewrite fmap_cons, list_to_set_cons, size_union_alt.
  rewrite size_singleton. simpl length. pose proof (subseteq_size
    (list_to_set (C := gset Z) (r_ID <$> l) ∖ {[r_ID x]}) (list_to_set (r_ID <$> l))
    ltac:(set_solver)). lia.
Qed.

(** The validation of a policy's records always ends, whatever parent
    pointers the records hold: the walk visits every record at most once. *)
Theorem chain_validation_total policy hostID state records now :
  exists v, validateBackupPolicyChainRecords policy hostID state records now = Some v.
Proof.
  unfold validateBackupPolicyChainRecords, validate_with_fuel.
  destruct (choose_base _ _ _) as [v0 [base|]]; [|by eexists].
  edestruct (walk_total policy hostID base (sort_stable record_less records)
    (S (length records))) as [[v latest] ->]; [|by eexists].
  pose proof (size_ids (sort_stable record_less records) {[r_ID base]}) as H.
  rewrite (Permutation_length (sort_stable_perm record_less records)) in H. lia.
Qed.

(** C31: The status "complete" stands for a complete chain and for nothing else:
    the base the state row names (or the most recent full record), usable,
    followed by distinct incremental records of this policy, each usable, each
    naming the one before it as parent and the base as base, each starting at
    the LSN where its parent ends, on one server, up to a record without
    children, which is the latest of the state row. It also stands exactly for
    an empty list of blocking reasons. *)
Theorem chain_complete_iff policy hostID state records now v :
  validateBackupPolicyChainRecords policy hostID state records now = Some v ->
  (v_Status v = DatabaseBackupChainStatusComplete <-> v_BlockingReasons v = []) /\
  (v_Status v = DatabaseBackupChainStatusComplete <->
   exists base latest incs, complete_chain policy hostID state records v base latest incs).
Proof.
  intros [[_ Hag] Hun]%validate_spec. split; [exact Hag|]. by rewrite Hag, Hun.
Qed.

Lemma usable_to_lsn policy hostID r :
  validatePolicyChainRecord policy hostID r = None -> TrimSpace (r_CheckpointToLSN r) <> [].
Proof. unfold validatePolicyChainRecord. intros H. repeat case_match; try done. by bsimpl. Qed.

Lemma lsn_continuous current next :
  TrimSpace (r_CheckpointToLSN current) <> [] -> lsn_break current next = None ->
  TrimSpace (r_CheckpointFromLSN next) = TrimSpace (r_CheckpointToLSN current).
Proof.
  unfold lsn_break. intros Hto H. repeat case_match; try done.
  match goal with H : _ && _ = false |- _ => apply andb_false_iff in H as [H|H] end; by bsimpl.
Qed.

(** C36: In a chain with status "complete" no log is missing between the records:
    each of them starts at the very LSN at which the record before it ends, and
    names that record as its parent. *)
Theorem chain_lsn_continuous policy hostID state records now v :
  validateBackupPolicyChainRecords policy hostID state records now = Some v ->
  v_Status v = DatabaseBackupChainStatusComplete ->
  forall i current next, v_Records v !! i = Some current -> v_Records v !! S i = Some next ->
    r_ParentRecordID next = r_ID current /\
    TrimSpace (r_CheckpointFromLSN next) = TrimSpace (r_CheckpointToLSN current) /\
    TrimSpace (r_CheckpointFromLSN next) <> [].
Proof.
  intros [[_ Hag] Hun]%validate_spec Hst i current next.
  destruct (proj1 Hun (proj1 Hag Hst)) as (base & latest & incs & H).
  pose proof (cc_base_usable _ _ _ _ _ _ _ _ H) as Hbase%usable_to_lsn.
  pose proof (cc_linked _ _ _ _ _ _ _ _ H) as Hlinked.
  pose proof (cc_parents _ _ _ _ _ _ _ _ H) as Hparents.
  rewrite (cc_records _ _ _ _ _ _ _ _ H). clear - Hbase Hlinked Hparents. revert Hbase Hlinked Hparents.
  assert (forall c l, TrimSpace (r_CheckpointToLSN c) <> [] -> linked policy hostID base c l ->
    parents c l -> (c :: l) !! i = Some current -> l !! i = Some next ->
    r_ParentRecordID next = r_ID current /\
    TrimSpace (r_CheckpointFromLSN next) = TrimSpace (r_CheckpointToLSN current) /\
    TrimSpace (r_CheckpointFromLSN next) <> []) as Hgen; [|by eauto].
  induction i as [|i IH]; intros c [|x l] Hc Hl Hp; try done; simpl in Hl, Hp |- *.
  - intros [= <-] [= <-]. pose proof (lsn_continuous _ _ Hc (link_lsn _ _ _ _ _ (proj1 Hl))) as Hx.
    rewrite Hx. by destruct Hp.
  - destruct Hl as [Hx Hl], Hp as [_ Hp]. apply IH; [|done|done].
    eapply usable_to_lsn, (link_usable _ _ _ _ _ Hx).
Qed.

Lemma linked_incremental policy hostID base c l :
  linked policy hostID base c l -> List.filter is_incremental l = l.
Proof.
  revert c. induction l as [|y l IH]; intros c; [done|].
  simpl. intros [Hy Hl]. rewrite (link_incremental _ _ _ _ _ Hy). f_equal. by eapply IH.
Qed.

Lemma broken_not_healthy :
  DatabaseBackupChainStateBroken = DatabaseBackupChainStateHealthy -> False.
Proof. by vm_compute. Qed.

(** The state row of the policy is saved as healthy exactly for a complete
    chain; it then names the base and the latest record of the walk and counts
    its incremental records. *)
Theorem chain_state_persisted policy hostID state records now v :
  validateBackupPolicyChainRecords policy hostID state records now = Some v ->
  let row := persisted_state policy v in
  (s_Status row = DatabaseBackupChainStateHealthy <->
   v_Status v = DatabaseBackupChainStatusComplete) /\
  (s_Status row = DatabaseBackupChainStateHealthy -> exists base latest incs,
     complete_chain policy hostID state records v base latest incs /\
     s_CurrentBaseRecordID row = r_ID base /\ s_LatestRecordID row = r_ID latest /\
     s_RecoverableUntil row = r_RecoverableUntil latest /\
     s_IncrementalCount row = Z.of_nat (length incs) + (if is_incremental base then 1 else 0)).
Proof.
  intros [[_ Hag] Hun]%validate_spec. cbv zeta. unfold persisted_state.
  destruct (v_BlockingReasons v) as [|x l] eqn:E; cbn [s_Status s_CurrentBaseRecordID
    s_LatestRecordID s_IncrementalCount s_RecoverableUntil].
  - split; [by rewrite Hag|]. intros _. destruct (proj1 Hun E) as (base & latest & incs & H).
    exists base, latest, incs. split; [done|].
    rewrite (cc_base _ _ _ _ _ _ _ _ H), (cc_latest _ _ _ _ _ _ _ _ H),
      (cc_records _ _ _ _ _ _ _ _ H).
    do 3 (split; [done|]). unfold count_incrementals.
    simpl. rewrite (linked_incremental _ _ _ _ _ (cc_linked _ _ _ _ _ _ _ _ H)).
    destruct (is_incremental base); simpl; lia.
  - split; [|by intros ?%broken_not_healthy]. unfold unblocked in Hag. rewrite E in Hag.
    split; [by intros ?%broken_not_healthy | intros Hc; by apply Hag in Hc].
Qed.

End facts.

(** ** Concrete runs *)
Section examples.
#[local] Existing Instance sample_tables.
#[local] Existing Instance sample_lib.

Definition run_sample (state : option DatabaseBackupChainState) (records : list DatabaseBackupRecord)
    : option validation :=
  validateBackupPolicyChainRecords (sample_policy_config []) 4 state records 1000.

Definition sample_validation : validation :=
  default (initial_validation None 0) (run_sample None sample_chain).

Lemma sample_validation_run : run_sample None sample_chain = Some sample_validation.
Proof. vm_compute. reflexivity. Qed.

Example sample_complete :
  v_Status sample_validation = $"complete" /\ r_ID <$> v_Records sample_validation = [1; 2; 3].
Proof. split; vm_compute; reflexivity. Qed.

(** Records that name each other as parents are out of the walk's reach. *)
Example circle_ends :
  v_Status <$> run_sample None
    [sample_record 1 0 $"full" $"0" $"100"; sample_record 2 3 $"incremental" $"100" $"200";
     sample_record 3 2 $"incremental" $"200" $"100"] = Some $"complete".
Proof. vm_compute. reflexivity. Qed.

(** The base a state row names is not checked to be a full record. *)
Example incremental_base_accepted :
  v_Status <$> run_sample
    (Some {| s_ID := 1; s_PolicyID := 1; s_InstanceID := 9; s_ChainID := $"c1";
             s_CurrentBaseRecordID := 2; s_LatestRecordID := 2; s_LatestFullRecordID := 0;
             s_LatestSyntheticRecordID := 0; s_IncrementalCount := 0; s_ChainStartedAt := None;
             s_LastSuccessAt := None; s_RecoverableUntil := None; s_Status := [];
             s_LastValidationStatus := []; s_LastError := [] |})
    [sample_record 2 1 $"incremental" $"100" $"200"] = Some $"complete".
Proof. vm_compute. reflexivity. Qed.

Lemma chain_complete_iff_witness :
  (v_Status sample_validation = DatabaseBackupChainStatusComplete <->
   v_BlockingReasons sample_validation = []) /\
  (v_Status sample_validation = DatabaseBackupChainStatusComplete <->
   exists base latest incs, complete_chain (sample_policy_config []) 4 None sample_chain
     sample_validation base latest incs).
Proof.
  exact (chain_complete_iff (sample_policy_config []) 4 None sample_chain 1000 sample_validation
    sample_validation_run).
Defined.

Lemma chain_lsn_continuous_witness :
  let current := sample_record 1 0 $"full" $"0" $"100" in
  let next := sample_record 2 1 $"incremental" $"100" $"200" in
  r_ParentRecordID next = r_ID current /\
  TrimSpace (r_CheckpointFromLSN next) = TrimSpace (r_CheckpointToLSN current) /\
  TrimSpace (r_CheckpointFromLSN next) <> [].
Proof.
  apply (chain_lsn_continuous (sample_policy_config []) 4 None sample_chain 1000 sample_validation
    sample_validation_run (proj1 sample_complete) 0%nat); vm_compute; reflexivity.
Defined.

Lemma chain_state_persisted_witness :
  s_Status (persisted_state (sample_policy_config []) sample_validation)
    = DatabaseBackupChainStateHealthy <->
  v_Status sample_validation = DatabaseBackupChainStatusComplete.
Proof.
  exact (proj1 (chain_state_persisted (sample_policy_config []) 4 None sample_chain 1000
    sample_validation sample_validation_run)).
Defined.
End examples.
