(* ===== verification/BackupLock.v ===== *)
(** * Running backups: one per task, per policy, per instance

    [acquireBackupTaskRun] / [releaseBackupTaskRun] of [backup_execution.go]
    and [acquireBackupPolicyRun] / [releaseBackupPolicyRun] of
    [backup_policy.go]. The three maps are guarded by one mutex, so each
    operation is one step; [reachable] interleaves the operations of any number
    of runs, those included that take no lock: the backup of a Barman server
    without a task ([enqueueBarmanBackup] of [barman.go]). *)

From Stdlib Require Import ZArith Lia.
From stdpp Require Import base tactics option list numbers sets gmap.
From S2P Require Import Prelude GoStrings.

Open Scope Z_scope.

Record run_locks := {
  backupRunningTasks : gset Z; backupRunningPolicies : gset Z;
  backupRunningInstances : gset Z }.

Definition lock_instance (instanceID : Z) (s : gset Z) : gset Z :=
  if 0 <? instanceID then {[instanceID]} ∪ s else s.
Definition unlock_instance (instanceID : Z) (s : gset Z) : gset Z :=
  if 0 <? instanceID then s ∖ {[instanceID]} else s.

Definition acquireBackupTaskRun (taskID instanceID : Z) : handler run_locks unit := fun s =>
  if taskID =? 0 then (Err $"备份任务不存在", s)
  else if bool_decide (taskID ∈ backupRunningTasks s)
  then (Err $"备份任务正在执行中，请稍后重试", s)
  else if (0 <? instanceID) && bool_decide (instanceID ∈ backupRunningInstances s)
  then (Err $"数据库实例已有备份任务正在执行中，请稍后重试", s)
  else (Ok tt, {|
    backupRunningTasks := {[taskID]} ∪ backupRunningTasks s;
    backupRunningPolicies := backupRunningPolicies s;
    backupRunningInstances := lock_instance instanceID (backupRunningInstances s) |}).

Definition releaseBackupTaskRun (taskID instanceID : Z) : handler run_locks unit := fun s =>
  if taskID =? 0 then (Ok tt, s)
  else (Ok tt, {|
    backupRunningTasks := backupRunningTasks s ∖ {[taskID]};
    backupRunningPolicies := backupRunningPolicies s;
    backupRunningInstances := unlock_instance instanceID (backupRunningInstances s) |}).

Definition acquireBackupPolicyRun (policyID instanceID : Z) : handler run_locks unit := fun s =>
  if policyID =? 0 then (Err $"备份策略不存在", s)
  else if bool_decide (policyID ∈ backupRunningPolicies s)
  then (Err $"备份策略正在执行中，请稍后重试", s)
  else if (0 <? instanceID) && bool_decide (instanceID ∈ backupRunningInstances s)
  then (Err $"数据库实例已有备份任务正在执行中，请稍后重试", s)
  else (Ok tt, {|
    backupRunningTasks := backupRunningTasks s;
    backupRunningPolicies := {[policyID]} ∪ backupRunningPolicies s;
    backupRunningInstances := lock_instance instanceID (backupRunningInstances s) |}).

Definition releaseBackupPolicyRun (policyID instanceID : Z) : handler run_locks unit := fun s =>
  if policyID =? 0 then (Ok tt, s)
  else (Ok tt, {|
    backupRunningTasks := backupRunningTasks s;
    backupRunningPolicies := backupRunningPolicies s ∖ {[policyID]};
    backupRunningInstances := unlock_instance instanceID (backupRunningInstances s) |}).

(** The locks around a backup of a Barman server, of a task (its number and
    its instance) or of none: taken before the record is created, given back when
    the job has ended or could not be started. *)
Definition enqueueBarmanBackup_acquire (task : option (Z * Z)) : handler run_locks unit :=
  match task with
  | Some (taskID, instanceID) => acquireBackupTaskRun taskID instanceID
  | None => mret tt
  end.
Definition enqueueBarmanBackup_release (task : option (Z * Z)) : handler run_locks unit :=
  match task with
  | Some (taskID, instanceID) => releaseBackupTaskRun taskID instanceID
  | None => mret tt
  end.

(** ** Interleavings

    A run that acquired its lock holds it until it releases it, once: the
    deferred release of the callers. [RunBarman] is a run of
    [BackupBarmanServer], which has no task. *)
Inductive holder :=
| RunTask (taskID instanceID : Z)
| RunPolicy (policyID instanceID : Z)
| RunBarman (serverID instanceID : Z).

Definition holder_instance (h : holder) : Z :=
  match h with RunTask _ i | RunPolicy _ i | RunBarman _ i => i end.
Definition takes_lock (h : holder) : bool :=
  match h with RunBarman _ _ => false | _ => true end.
Definition acquire (h : holder) : handler run_locks unit :=
  match h with
  | RunTask t i => acquireBackupTaskRun t i
  | RunPolicy p i => acquireBackupPolicyRun p i
  | RunBarman _ _ => enqueueBarmanBackup_acquire None
  end.
Definition release (h : holder) : handler run_locks unit :=
  match h with
  | RunTask t i => releaseBackupTaskRun t i
  | RunPolicy p i => releaseBackupPolicyRun p i
  | RunBarman _ _ => enqueueBarmanBackup_release None
  end.

(** What two runs that take locks must not share. *)
Definition conflict (a b : holder) : Prop :=
  (exists t i j, a = RunTask t i /\ b = RunTask t j) \/
  (exists p i j, a = RunPolicy p i /\ b = RunPolicy p j) \/
  (takes_lock a = true /\ takes_lock b = true /\
   holder_instance a = holder_instance b /\ 0 < holder_instance a).

Inductive step : run_locks * list holder -> run_locks * list holder -> Prop :=
| step_acquire h s s' hs : acquire h s = (Ok tt, s') -> step (s, hs) (s', h :: hs)
| step_refused h s e s' hs : acquire h s = (Err e, s') -> step (s, hs) (s', hs)
| step_release h s s' hs hs' :
    release h s = (Ok tt, s') -> hs ≡ₚ h :: hs' -> step (s, hs) (s', hs').

Definition initial_locks : run_locks := {|
  backupRunningTasks := ∅; backupRunningPolicies := ∅; backupRunningInstances := ∅ |}.

Inductive reachable : run_locks * list holder -> Prop :=
| reach_init : reachable (initial_locks, [])
| reach_step x y : reachable x -> step x y -> reachable y.

(** The sets are those of the runs that take locks, which do not conflict. *)
Record lock_invariant (s : run_locks) (hs : list holder) : Prop := {
  li_tasks t : t ∈ backupRunningTasks s <-> exists i, RunTask t i ∈ hs;
  li_policies p : p ∈ backupRunningPolicies s <-> exists i, RunPolicy p i ∈ hs;
  li_instances i : i ∈ backupRunningInstances s <->
    0 < i /\ exists h, h ∈ hs /\ takes_lock h = true /\ holder_instance h = i;
  li_apart : ForallOrdPairs (fun a b => ~ conflict a b) hs;
}.

Lemma ordpairs_perm {A} (R : A -> A -> Prop) l k :
  (forall a b, R a b -> R b a) -> l ≡ₚ k -> ForallOrdPairs R l -> ForallOrdPairs R k.
Proof.
  intros Hsym. induction 1 as [|x l k Hp IH|x y l|l m k _ IH1 _ IH2]; [done | | |eauto].
  - inversion 1; subst. constructor; [|by apply IH]. by rewrite <- Hp.
  - inversion 1 as [|? ? H1 H2]; subst. inversion H2 as [|? ? H3 H4]; subst.
    inversion H1; subst. constructor; [constructor; auto|]. by constructor.
Qed.

Lemma conflict_sym a b : conflict a b -> conflict b a.
Proof.
  unfold conflict. intros [(t & i & j & -> & ->)|[(p & i & j & -> & ->)|(Ha & Hb & H & ?)]];
    [left; by eauto 6 | right; left; by eauto 6 | right; right; by rewrite <- H].
Qed.

(** A run without a lock is not seen by the others. *)
Lemma unlocked_keeps n i s hs : lock_invariant s hs <-> lock_invariant s (RunBarman n i :: hs).
Proof.
  assert (Hc : forall a, ~ conflict (RunBarman n i) a).
  { intros a [(? & ? & ? & [=] & _)|[(? & ? & ? & [=] & _)|([=] & _)]]. }
  split; intros [Ht Hp Hi Ha]; split.
  - intros t. rewrite Ht. set_solver.
  - intros p. rewrite Hp. set_solver.
  - intros k. rewrite Hi. set_unfold. naive_solver.
  - constructor; [by apply list.Forall_forall | done].
  - intros t. rewrite Ht. set_solver.
  - intros p. rewrite Hp. set_solver.
  - intros k. rewrite Hi. set_unfold. naive_solver.
  - by inversion Ha.
Qed.

Lemma acquire_keeps h s s' hs :
  lock_invariant s hs -> acquire h s = (Ok tt, s') -> lock_invariant s' (h :: hs).
Proof.
  destruct (takes_lock h) eqn:Hl; [|destruct h; [done..|]; intros H [= <-]; by apply unlocked_keeps].
  intros [Ht Hp Hi Ha] H.
  assert (Hfree : (match h with RunTask t _ => t ∉ backupRunningTasks s
                   | RunPolicy p _ => p ∉ backupRunningPolicies s | _ => True end) /\
    (0 < holder_instance h -> holder_instance h ∉ backupRunningInstances s) /\
    backupRunningInstances s' = lock_instance (holder_instance h) (backupRunningInstances s) /\
    backupRunningTasks s' =
      match h with RunTask t _ => {[t]} ∪ backupRunningTasks s | _ => backupRunningTasks s end /\
    backupRunningPolicies s' =
      match h with RunPolicy p _ => {[p]} ∪ backupRunningPolicies s
      | _ => backupRunningPolicies s end).
  { destruct h as [t i|p i|]; [..|done]; simpl in *;
      unfold acquireBackupTaskRun, acquireBackupPolicyRun in H;
      do 3 (case_if_in H; [done|]); injection H as <-; simpl; bsimpl;
      (split; [done|]); (split; [|done]); intros Hpos;
      match goal with Hx : _ && _ = false |- _ => apply andb_false_iff in Hx as [Hx|Hx] end;
      bsimpl; [lia | done | lia | done]. }
  destruct Hfree as (Hf1 & Hf2 & Hs1 & Hs2 & Hs3). split.
  - intros t. rewrite Hs2. destruct h; set_solver.
  - intros p. rewrite Hs3. destruct h; set_solver.
  - intros i. rewrite Hs1. unfold lock_instance. destruct (Z.ltb_spec 0 (holder_instance h)).
    + rewrite elem_of_union, elem_of_singleton, Hi. set_unfold. naive_solver.
    + rewrite Hi. set_unfold. naive_solver lia.
  - constructor; [|done]. apply list.Forall_forall. intros b Hb [Hc|[Hc|(_ & Hlb & Hc & Hpos)]].
    + destruct Hc as (t & i & j & -> & ->). apply Hf1, Ht. eauto.
    + destruct Hc as (p & i & j & -> & ->). apply Hf1, Hp. eauto.
    + apply (Hf2 Hpos), Hi. split; [lia|]. by exists b.
Qed.

Lemma invariant_perm s hs ks : hs ≡ₚ ks -> lock_invariant s hs -> lock_invariant s ks.
Proof.
  intros Hperm [Ht Hp Hi Ha]. split; [..|by apply (ordpairs_perm _ hs); [intros a b ? ?%conflict_sym|..]];
    intros k; [rewrite Ht|rewrite Hp|rewrite Hi]; by setoid_rewrite Hperm.
Qed.

Lemma release_keeps h s s' hs hs' :
  lock_invariant s hs -> release h s = (Ok tt, s') -> hs ≡ₚ h :: hs' ->
  (forall t i, h = RunTask t i -> t <> 0) -> (forall p i, h = RunPolicy p i -> p <> 0) ->
  lock_invariant s' hs'.
Proof.
  intros Hinv H Hperm Hnt Hnp.
  destruct (takes_lock h) eqn:Hl.
  2: { destruct h as [| |n i]; [done..|]. injection H as <-. apply (unlocked_keeps n i).
       by apply (invariant_perm s hs). }
  destruct Hinv as [Ht Hp Hi Ha].
  apply (ordpairs_perm _ _ (h :: hs')) in Ha; [|by intros a b ? ?%conflict_sym | done].
  inversion Ha as [|? ? Hh Ha']; subst. rewrite list.Forall_forall in Hh.
  assert (Hs : backupRunningInstances s' =
      unlock_instance (holder_instance h) (backupRunningInstances s) /\
    backupRunningTasks s' =
      match h with RunTask t _ => backupRunningTasks s ∖ {[t]} | _ => backupRunningTasks s end /\
    backupRunningPolicies s' =
      match h with RunPolicy p _ => backupRunningPolicies s ∖ {[p]}
      | _ => backupRunningPolicies s end).
  { destruct h as [t i|p i|]; [..|done]; simpl in *;
      unfold releaseBackupTaskRun, releaseBackupPolicyRun in H; case_if_in H.
    - bsimpl. by destruct (Hnt t i eq_refl).
    - by injection H as <-.
    - bsimpl. by destruct (Hnp p i eq_refl).
    - by injection H as <-. }
  destruct Hs as (Hs1 & Hs2 & Hs3).
  assert (Hin : forall x, x ∈ hs <-> x = h \/ x ∈ hs').
  { intros x. rewrite Hperm. apply elem_of_cons. }
  split; [| | |done].
  - intros t. rewrite Hs2. destruct h as [t0 i0|p0 i0|]; [..|done].
    + rewrite elem_of_difference, elem_of_singleton, Ht. split.
      * intros [[i Hx] Hne]. apply Hin in Hx as [[=]|Hx]; [done | eauto].
      * intros [i Hx]. split; [exists i; apply Hin; by right|]. intros ->.
        apply (Hh _ Hx). left. eauto 6.
    + rewrite Ht. split; intros [i Hx]; exists i; [apply Hin in Hx as [[=]|Hx]; done | apply Hin; by right].
  - intros p. rewrite Hs3. destruct h as [t0 i0|p0 i0|]; [..|done].
    + rewrite Hp. split; intros [i Hx]; exists i; [apply Hin in Hx as [[=]|Hx]; done | apply Hin; by right].
    + rewrite elem_of_difference, elem_of_singleton, Hp. split.
      * intros [[i Hx] Hne]. apply Hin in Hx as [[=]|Hx]; [done | eauto].
      * intros [i Hx]. split; [exists i; apply Hin; by right|]. intros ->.
        apply (Hh _ Hx). right; left. eauto 6.
  - intros i. rewrite Hs1. unfold unlock_instance. destruct (Z.ltb_spec 0 (holder_instance h)).
    + rewrite elem_of_difference, elem_of_singleton, Hi. split.
      * intros [[Hpos (x & Hx & Hlx & <-)] Hne]. apply Hin in Hx as [->|Hx]; [done | eauto].
      * intros [Hpos (x & Hx & Hlx & <-)].
        split; [split; [done|]; exists x; split; [apply Hin; by right|done]|].
        intros Heq. apply (Hh _ Hx). right; right. by rewrite Heq.
    + rewrite Hi. split; intros [Hpos (x & Hx & Hlx & <-)]; (split; [done|]); exists x.
      * apply Hin in Hx as [->|Hx]; [lia | done].
      * split; [apply Hin; by right | done].
Qed.

Lemma reachable_invariant s hs :
  reachable (s, hs) -> lock_invariant s hs /\
  Forall (fun h => match h with RunTask t _ => t <> 0 | RunPolicy p _ => p <> 0 | _ => True end) hs.
Proof.
  intros H. remember (s, hs) as x eqn:Hx. revert s hs Hx.
  induction H as [|x y Hx IH Hstep]; intros s hs Heq.
  - injection Heq as <- <-. split; [|done]. split; [..|constructor]; simpl; intros; set_solver.
  - destruct Hstep as [h s0 s1 hs0 Hacq|h s0 e s1 hs0 Hacq|h s0 s1 hs0 hs1 Hrel Hp];
      injection Heq as <- <-; destruct (IH _ _ eq_refl) as [Hinv Hne]; clear IH.
    + split; [by eapply acquire_keeps|]. constructor; [|done].
      destruct h; [..|done]; simpl in Hacq; unfold acquireBackupTaskRun, acquireBackupPolicyRun in Hacq;
        case_if_in Hacq; [done | bsimpl; done | done | bsimpl; done].
    + assert (s1 = s0) as ->; [|done]. clear - Hacq.
      destruct h; [..|done]; simpl in Hacq; unfold acquireBackupTaskRun, acquireBackupPolicyRun in Hacq;
        repeat case_if_in Hacq; by injection Hacq.
    + rewrite Hp in Hne. inversion Hne as [|? ? Hh Hne']; subst. split; [|done].
      eapply release_keeps; [done | done | done | | ]; intros * ->; exact Hh.
Qed.

(** C37: However the backup runs interleave, no two of those that take a lock
    ([takes_lock]: every run but the backup of a Barman server without a task)
    have the same task, the same policy or a lock on the same instance, and the
    map of instances holds exactly those that the running ones locked; when
    nothing that took a lock runs any more, all maps are empty, so no lock is
    ever lost. *)
Theorem runs_exclusive s hs :
  reachable (s, hs) ->
  ForallOrdPairs (fun a b => ~ conflict a b) hs /\
  (forall i, i ∈ backupRunningInstances s <->
     0 < i /\ exists h, h ∈ hs /\ takes_lock h = true /\ holder_instance h = i) /\
  (existsb takes_lock hs = false -> s = initial_locks).
Proof.
  intros [[Ht Hp Hi Ha] _]%reachable_invariant. split; [done|]. split; [done|].
  intros Hnone.
  assert (Hno : forall h, h ∈ hs -> takes_lock h = true -> False).
  { intros h Hh Hl. enough (existsb takes_lock hs = true) by congruence.
    apply existsb_exists. exists h. by rewrite <- list_elem_of_In. }
  destruct s as [t p i]. simpl in *. unfold initial_locks. f_equal; apply leibniz_equiv; intros x.
  - rewrite Ht. split; [intros [k Hk]; by destruct (Hno _ Hk)|set_solver].
  - rewrite Hp. split; [intros [k Hk]; by destruct (Hno _ Hk)|set_solver].
  - rewrite Hi. split; [intros (_ & h & Hh & Hl & _); by destruct (Hno _ Hh)|set_solver].
Qed.

Lemma reach_acquire h s hs :
  reachable (s, hs) -> (acquire h s).1 = Ok tt -> reachable ((acquire h s).2, h :: hs).
Proof.
  intros H Hok. eapply reach_step; [exact H|]. apply step_acquire. rewrite <- Hok.
  by destruct (acquire h s).
Qed.

Lemma runs_exclusive_witness :
  let s := (acquire (RunPolicy 5 9) (acquire (RunTask 1 7) initial_locks).2).2 in
  ForallOrdPairs (fun a b => ~ conflict a b) [RunBarman 3 7; RunPolicy 5 9; RunTask 1 7] /\
  (forall i, i ∈ backupRunningInstances s <->
     0 < i /\ exists h, h ∈ [RunBarman 3 7; RunPolicy 5 9; RunTask 1 7] /\ takes_lock h = true /\
       holder_instance h = i) /\
  (existsb takes_lock [RunBarman 3 7; RunPolicy 5 9; RunTask 1 7] = false -> s = initial_locks).
Proof.
  apply (runs_exclusive (acquire (RunPolicy 5 9) (acquire (RunTask 1 7) initial_locks).2).2
    [RunBarman 3 7; RunPolicy 5 9; RunTask 1 7]).
  apply (reach_acquire (RunBarman 3 7) (acquire (RunPolicy 5 9) (acquire (RunTask 1 7) initial_locks).2).2);
    [|reflexivity].
  do 2 (apply reach_acquire; [|vm_compute; reflexivity]). apply reach_init.
Defined.

(** A run on an instance that another one holds is refused. *)
Example same_instance_refused :
  is_ok (acquire (RunPolicy 5 7) (acquire (RunTask 1 7) initial_locks).2).1 = false.
Proof. vm_compute. reflexivity. Qed.

(** The backup of a Barman server that a user starts takes no lock: it runs
    beside the backup of a task on the very same instance, and so do any number
    of such backups. *)
Theorem manual_barman_unlocked s hs serverID instanceID :
  reachable (s, hs) -> reachable (s, RunBarman serverID instanceID :: hs).
Proof. intros H. by apply (reach_acquire (RunBarman serverID instanceID) s hs H). Qed.
