(* ===== verification/SyntheticFull.v ===== *)
(** * Synthetic full backups: preview and automatic trigger

    [parseSyntheticRule] and [buildSyntheticFullPreview] of
    [backup_policy_chain.go], [buildSyntheticAutoDecision] and its caller of
    [backup_policy_auto_synthetic.go]. The size texts of the preview are for
    display only and left out; the records stand for their view objects. *)

From Stdlib Require Import ZArith Lia.
From stdpp Require Import base tactics option list numbers sets gmap.
From S2P Require Import Prelude GoStrings SqlSafety WriteExec BackupModel BackupChain.

Open Scope Z_scope.

(** Signed 64-bit wrap-around. *)
Definition wrap_i64 (z : Z) : Z := (z + 2 ^ 63) mod 2 ^ 64 - 2 ^ 63.

Record DatabaseSyntheticFullPreviewVO := {
  sp_PolicyID : Z; sp_Status : gostring; sp_StatusText : gostring;
  sp_SelectedBaseRecordID : Z; sp_SelectedIncrementalRecordIDs : list Z;
  sp_SelectedRecordIDs : list Z; sp_SelectedRecords : list DatabaseBackupRecord;
  sp_NewSyntheticFullAfterRecordID : Z; sp_EstimatedInputSize : Z;
  sp_EstimatedWorkdirSize : Z; sp_MergeIncrementalCount : Z; sp_RequiresRestoreProof : bool;
  sp_BlockingReasons : list gostring; sp_Warnings : list gostring; sp_CheckedAt : gostring }.
Abbreviation preview := DatabaseSyntheticFullPreviewVO.

Record syntheticAutoDecision := { ShouldRun : bool; Degraded : bool; Reason : gostring }.

Section synthetic.
Context `{U : UnicodeTables, L : GoLib}.

(** ** The rule of a policy *)
Definition default_rule : syntheticRuleConfig := {|
  Mode := $"rolling_synthetic_full"; AutoRun := false; TriggerAfterIncrementals := 5;
  MergeOldestIncrementals := 5; RequireRestoreProof := true; SupersededKeepDaysAfterProof := 7;
  NeverDeleteWithoutProof := true; MarkSupersededAfterProof := true |}.

Definition parseSyntheticRule (policy : DatabaseBackupPolicyConfig) : syntheticRuleConfig :=
  let rule :=
    if bool_decide (TrimSpace (p_SyntheticRuleJSON policy) = []) then default_rule
    else json_synthetic_rule (p_SyntheticRuleJSON policy) default_rule in
  let trigger :=
    if TriggerAfterIncrementals rule <=? 0 then 5 else TriggerAfterIncrementals rule in
  {| Mode := if bool_decide (TrimSpace (Mode rule) = []) then $"rolling_synthetic_full"
             else Mode rule;
     AutoRun := AutoRun rule;
     TriggerAfterIncrementals := trigger;
     MergeOldestIncrementals :=
       if MergeOldestIncrementals rule <=? 0 then trigger else MergeOldestIncrementals rule;
     RequireRestoreProof := RequireRestoreProof rule;
     SupersededKeepDaysAfterProof :=
       if SupersededKeepDaysAfterProof rule <? 0 then 7 else SupersededKeepDaysAfterProof rule;
     NeverDeleteWithoutProof := NeverDeleteWithoutProof rule;
     MarkSupersededAfterProof := MarkSupersededAfterProof rule |}.

(** ** The preview *)

(** The status that [finalizeSyntheticPreviewStatus] sets. *)
Definition preview_status (blocking warnings : list gostring) : gostring :=
  match blocking, warnings with
  | _ :: _, _ => DatabasePlanValidationFailed
  | [], _ :: _ => DatabasePlanValidationWarning
  | [], [] => DatabasePlanValidationPassed
  end.

Definition sum_sizes (l : list DatabaseBackupRecord) : Z :=
  foldl (fun acc item => wrap_i64 (acc + r_FileSize item)) 0 l.

Definition buildSyntheticFullPreview (policy : DatabaseBackupPolicyConfig) (v : validation)
    (now : Z) : preview :=
  let rule := parseSyntheticRule policy in
  let requires := RequireRestoreProof rule || p_RestoreDrillRequired policy in
  let blocking :=
    if p_SyntheticEnabled policy then [] else [$"策略未开启合成全量"] in
  let complete := bool_decide (v_Status v = DatabaseBackupChainStatusComplete) in
  let blocking :=
    if complete then blocking
    else blocking ++ [$"备份链校验未通过"] ++ v_BlockingReasons v in
  let warnings := if complete then [] else v_Warnings v in
  match v_BaseRecord v with
  | None =>
    let blocking := blocking ++ [$"没有可合成的基础全量"] in
    {| sp_PolicyID := p_ID policy; sp_Status := preview_status blocking warnings;
       sp_StatusText := ValidationStatusText (preview_status blocking warnings);
       sp_SelectedBaseRecordID := 0; sp_SelectedIncrementalRecordIDs := [];
       sp_SelectedRecordIDs := []; sp_SelectedRecords := [];
       sp_NewSyntheticFullAfterRecordID := 0; sp_EstimatedInputSize := 0;
       sp_EstimatedWorkdirSize := 0; sp_MergeIncrementalCount := MergeOldestIncrementals rule;
       sp_RequiresRestoreProof := requires; sp_BlockingReasons := blocking;
       sp_Warnings := warnings; sp_CheckedAt := format_time now |}
  | Some base =>
    let incrementals := List.filter is_incremental (v_Records v) in
    let count := Z.of_nat (length incrementals) in
    let merge := MergeOldestIncrementals rule in
    let blocking :=
      if count <? merge
      then blocking ++ [$"当前可合成增量数 " ++ fmt_d count ++ $"，小于规则要求 " ++ fmt_d merge]
      else blocking in
    let limit := if count <? merge then count else merge in
    let merged := take (Z.to_nat limit) incrementals in
    let selected := base :: merged in
    let warnings :=
      if requires
      then warnings ++ [$"策略要求恢复证明；合成全量完成后仍建议发起隔离恢复演练再进入长期保留"]
      else warnings in
    {| sp_PolicyID := p_ID policy; sp_Status := preview_status blocking warnings;
       sp_StatusText := ValidationStatusText (preview_status blocking warnings);
       sp_SelectedBaseRecordID := r_ID base;
       sp_SelectedIncrementalRecordIDs := r_ID <$> merged;
       sp_SelectedRecordIDs := r_ID <$> selected; sp_SelectedRecords := selected;
       sp_NewSyntheticFullAfterRecordID := r_ID (List.last selected base);
       sp_EstimatedInputSize := sum_sizes selected;
       sp_EstimatedWorkdirSize := wrap_i64 (sum_sizes selected * 3);
       sp_MergeIncrementalCount := merge; sp_RequiresRestoreProof := requires;
       sp_BlockingReasons := blocking; sp_Warnings := warnings;
       sp_CheckedAt := format_time now |}
  end.

(** ** The automatic trigger *)
Definition decline (reason : gostring) : syntheticAutoDecision :=
  {| ShouldRun := false; Degraded := false; Reason := reason |}.
Definition degrade (reason : gostring) : syntheticAutoDecision :=
  {| ShouldRun := false; Degraded := true; Reason := reason |}.

Definition countValidationIncrementals (v : validation) : Z := count_incrementals (v_Records v).

Definition policy_active (policy : DatabaseBackupPolicyConfig) : bool :=
  p_Enabled policy && negb (bool_decide (p_Status policy = DatabaseBackupPolicyStatusDisabled)).

Definition is_successful_incremental (r : DatabaseBackupRecord) : bool :=
  bool_decide (r_Status r = DatabaseBackupStatusSuccess) && is_incremental r.

(** [!policy.LastSyntheticAt.Before( *triggerRecord.FinishedAt)]. *)
Definition covered_by_synthetic (policy : DatabaseBackupPolicyConfig)
    (trigger : DatabaseBackupRecord) : bool :=
  match p_LastSyntheticAt policy, r_FinishedAt trigger with
  | Some last, Some finished => negb (last <? finished)
  | _, _ => false
  end.

Definition blocked := $"自动 Synthetic Full 阻塞：".

Definition buildSyntheticAutoDecision (policy : DatabaseBackupPolicyConfig)
    (rule : syntheticRuleConfig) (v : validation) (preview : preview)
    (trigger : DatabaseBackupRecord) : syntheticAutoDecision :=
  if negb (policy_active policy) then decline $"策略未启用"
  else if negb (p_SyntheticEnabled policy) then decline $"策略未开启合成全量"
  else if negb (AutoRun rule) then decline $"自动合成未开启"
  else if r_ID trigger =? 0 then decline $"触发增量记录不存在"
  else if negb (is_successful_incremental trigger) then decline $"触发记录不是成功增量备份"
  else
  let broken : gostring := $"自动 Synthetic Full 阻塞：备份链校验未通过" ++
    match v_BlockingReasons v with [] => [] | l => $": " ++ Join l $"；" end in
  if negb (bool_decide (v_Status v = DatabaseBackupChainStatusComplete)) then degrade broken
  else match v_LatestRecord v with
  | None => degrade broken
  | Some latest =>
    let count := countValidationIncrementals v in
    if count <? TriggerAfterIncrementals rule
    then decline ($"当前增量数 " ++ fmt_d count ++ $" 未达到自动合成阈值 "
                  ++ fmt_d (TriggerAfterIncrementals rule))
    else if p_BinlogStreamID policy =? 0 then degrade (blocked ++ $"策略未绑定 binlog 归档流")
    else if negb (MergeOldestIncrementals rule =? TriggerAfterIncrementals rule)
    then degrade (blocked ++ $"第一版要求 mergeOldestIncrementals 等于 triggerAfterIncrementals，避免部分合并导致旧父链无法清理")
    else if count <? MergeOldestIncrementals rule
    then degrade (blocked ++ $"可合成增量数 " ++ fmt_d count ++ $" 小于规则要求 "
                  ++ fmt_d (MergeOldestIncrementals rule))
    else if negb (r_ID latest =? r_ID trigger)
    then degrade (blocked ++ $"触发记录 #" ++ fmt_d (r_ID trigger) ++ $" 不是当前最新记录 #"
                  ++ fmt_d (r_ID latest))
    else if covered_by_synthetic policy trigger
    then decline $"最新增量已被最近一次 Synthetic Full 覆盖"
    else match sp_BlockingReasons preview with
    | _ :: _ => degrade (blocked ++ Join (sp_BlockingReasons preview) $"；")
    | [] =>
      if negb (Z.of_nat (length (sp_SelectedIncrementalRecordIDs preview))
               =? MergeOldestIncrementals rule)
      then degrade (blocked ++ $"预览选择增量数 "
             ++ fmt_d (Z.of_nat (length (sp_SelectedIncrementalRecordIDs preview)))
             ++ $" 与规则要求 " ++ fmt_d (MergeOldestIncrementals rule) ++ $" 不一致")
      else if negb (sp_NewSyntheticFullAfterRecordID preview =? r_ID trigger)
      then degrade (blocked ++ $"当前链已有 " ++ fmt_d count
                    ++ $" 条增量，第一版只自动合并完整窗口，请先人工处理旧窗口")
      else {| ShouldRun := true; Degraded := false; Reason := $"达到自动 Synthetic Full 阈值" |}
    end
  end.

(** ** [maybeRunBackupPolicySyntheticAfterSuccess]

    What it does after its look-ups; the jobs listed for the source instance
    are those whose request names this policy. *)
Inductive auto_action :=
| NoAction
| MarkBlocked (message : gostring)
| RunSynthetic (policyID triggerRecordID : Z) (triggerReason : gostring).

Definition DatabaseRunnerJobStatusQueued := $"queued".
Definition DatabaseRunnerJobStatusRunning := $"running".

(** [None]: the list could not be read, which counts as no active job. *)
Definition hasActiveBackupPolicySyntheticJob (job_statuses : option (list gostring)) : bool :=
  match job_statuses with
  | None => false
  | Some l =>
    existsb (fun s => one_of (TrimSpace s)
      [DatabaseRunnerJobStatusQueued; DatabaseRunnerJobStatusRunning]) l
  end.

Definition maybeRunBackupPolicySyntheticAfterSuccess
    (trigger : option DatabaseBackupRecord) (policy : option DatabaseBackupPolicyConfig)
    (host : option Z) (state : option DatabaseBackupChainState)
    (records : result (list DatabaseBackupRecord)) (job_statuses : option (list gostring))
    (triggerReason : gostring) (now : Z) : option auto_action :=
  match trigger with
  | None => Some NoAction
  | Some trigger =>
    if negb (is_successful_incremental trigger) then Some NoAction
    else match policy with
    | None => Some NoAction
    | Some policy =>
      let rule := parseSyntheticRule policy in
      if negb (AutoRun rule) || negb (p_SyntheticEnabled policy) || negb (policy_active policy)
      then Some NoAction
      else match host with
      | None => Some (MarkBlocked (blocked ++ $"Runner 主机不存在"))
      | Some hostID =>
        match records with
        | Err e => Some (MarkBlocked (blocked ++ $"备份链校验失败: " ++ e))
        | Ok records =>
          match validateBackupPolicyChainRecords policy hostID state records now with
          | None => None
          | Some v =>
            let preview := buildSyntheticFullPreview policy v now in
            let decision := buildSyntheticAutoDecision policy rule v preview trigger in
            if negb (ShouldRun decision) then
              Some (if Degraded decision then MarkBlocked (Reason decision) else NoAction)
            else if hasActiveBackupPolicySyntheticJob job_statuses then Some NoAction
            else Some (RunSynthetic (p_ID policy) (r_ID trigger)
                   (if bool_decide (TrimSpace triggerReason = []) then $"auto_after_incremental"
                    else triggerReason))
          end
        end
      end
    end
  end.

(** [markBackupPolicyAutoSyntheticBlocked]: the saved policy, its next run
    times aside. *)
Definition markBackupPolicyAutoSyntheticBlocked (policy : DatabaseBackupPolicyConfig)
    (message : gostring) (now : Z) : DatabaseBackupPolicyConfig :=
  if p_ID policy =? 0 then policy
  else {|
    p_ID := p_ID policy; p_InstanceID := p_InstanceID policy;
    p_SourceInstanceID := p_SourceInstanceID policy; p_BackupEngine := p_BackupEngine policy;
    p_RunnerHostID := p_RunnerHostID policy; p_BinlogStreamID := p_BinlogStreamID policy;
    p_SyntheticEnabled := p_SyntheticEnabled policy;
    p_SyntheticRuleJSON := p_SyntheticRuleJSON policy;
    p_RestoreDrillRequired := p_RestoreDrillRequired policy; p_Enabled := p_Enabled policy;
    p_Status := DatabaseBackupPolicyStatusDegraded; p_LastRunAt := Some now;
    p_LastSyntheticAt := p_LastSyntheticAt policy; p_LastStatus := DatabaseBackupStatusFailed;
    p_LastMessage := trimText message 500; p_LastError := trimText message 1000 |}.
End synthetic.
