(* ===== verification/SyntheticFullFacts.v ===== *)
(** * What is merged into a synthetic full backup

    The preview selects a prefix of a complete chain, and the automatic
    trigger only fires when that prefix is the whole chain. *)

From Stdlib Require Import ZArith Lia.
From stdpp Require Import base tactics option list numbers sets gmap.
From S2P Require Import Prelude GoStrings SqlSafety WriteExec BackupModel BackupChain.
From S2P Require Import BackupChainFacts SyntheticFull.

Open Scope Z_scope.

Section facts.
Context `{U : UnicodeTables, L : GoLib}.

(** Whatever the rule text of a policy decodes to, the rule in force asks
    for a positive number of incremental records to trigger and to merge, and
    for a window that is not negative. *)
Theorem rule_bounds policy :
  let rule := parseSyntheticRule policy in
  0 < TriggerAfterIncrementals rule /\ 0 < MergeOldestIncrementals rule /\
  0 <= SupersededKeepDaysAfterProof rule /\ TrimSpace (Mode rule) <> [].
Proof.
  unfold parseSyntheticRule. cbn [TriggerAfterIncrementals MergeOldestIncrementals
    SupersededKeepDaysAfterProof Mode].
  generalize (if bool_decide (TrimSpace (p_SyntheticRuleJSON policy) = []) then default_rule
    else json_synthetic_rule (p_SyntheticRuleJSON policy) default_rule) as rule. intros rule.
  destruct (Z.leb_spec (TriggerAfterIncrementals rule) 0),
    (Z.leb_spec (MergeOldestIncrementals rule) 0),
    (Z.ltb_spec (SupersededKeepDaysAfterProof rule) 0);
    (do 3 (split; [lia|])); case_bool_decide; try done; by vm_compute.
Qed.

Lemma rule_merge_pos policy : 0 < MergeOldestIncrementals (parseSyntheticRule policy).
Proof. unfold parseSyntheticRule. cbn. repeat case_match; bsimpl; lia. Qed.

Lemma last_default {A} (l : list A) x d : last l = Some x -> List.last l d = x.
Proof.
  induction l as [|y l IH]; [done|]. destruct l; [by intros [= ->]|].
  rewrite last_cons_cons. exact IH.
Qed.

Lemma parents_take c l n : parents c l -> parents c (take n l).
Proof.
  revert c n. induction l as [|x l IH]; intros c [|n]; try done. simpl. intros [? ?]. auto.
Qed.

Lemma full_not_incremental r : is_full r = true -> is_incremental r = false.
Proof.
  unfold is_full, is_incremental. intros H. bsimpl. rewrite H.
  apply bool_decide_eq_false. by vm_compute.
Qed.

(** The incremental records of a complete chain whose base is full. *)
Lemma chain_incrementals policy hostID state records v base latest incs :
  complete_chain policy hostID state records v base latest incs -> is_full base = true ->
  List.filter is_incremental (v_Records v) = incs.
Proof.
  intros H Hfull. rewrite (cc_records _ _ _ _ _ _ _ _ H). simpl.
  rewrite (full_not_incremental _ Hfull).
  exact (linked_incremental _ _ _ _ _ (cc_linked _ _ _ _ _ _ _ _ H)).
Qed.

Lemma validate_complete policy hostID state records now v :
  validateBackupPolicyChainRecords policy hostID state records now = Some v ->
  v_Status v = DatabaseBackupChainStatusComplete ->
  exists base latest incs, complete_chain policy hostID state records v base latest incs.
Proof. intros [[_ Hag] Hun]%validate_spec Hst. by apply Hun, Hag. Qed.

Lemma preview_unblocked policy v now :
  sp_BlockingReasons (buildSyntheticFullPreview policy v now) = [] ->
  v_Status v = DatabaseBackupChainStatusComplete /\ p_SyntheticEnabled policy = true /\
  MergeOldestIncrementals (parseSyntheticRule policy)
    <= Z.of_nat (length (List.filter is_incremental (v_Records v))).
Proof.
  unfold buildSyntheticFullPreview. set (merge := MergeOldestIncrementals _).
  destruct (p_SyntheticEnabled policy), (bool_decide (v_Status v = _)) eqn:Hst,
    (v_BaseRecord v); cbn [sp_BlockingReasons app]; try done;
    case_match; intros H'; try done; bsimpl; try done; by destruct (v_BlockingReasons v).
Qed.

Lemma preview_selected policy v now base :
  v_BaseRecord v = Some base ->
  let p := buildSyntheticFullPreview policy v now in
  let incs := List.filter is_incremental (v_Records v) in
  let merged := take (Z.to_nat (MergeOldestIncrementals (parseSyntheticRule policy))) incs in
  sp_SelectedRecords p = base :: merged /\
  sp_SelectedRecordIDs p = r_ID <$> sp_SelectedRecords p /\
  sp_SelectedIncrementalRecordIDs p = r_ID <$> merged /\
  sp_NewSyntheticFullAfterRecordID p = r_ID (List.last (base :: merged) base).
Proof.
  intros Hb. unfold buildSyntheticFullPreview. rewrite Hb.
  set (incs := List.filter is_incremental (v_Records v)).
  set (merge := MergeOldestIncrementals _).
  assert (take (Z.to_nat (if Z.of_nat (length incs) <? merge then Z.of_nat (length incs) else merge))
    incs = take (Z.to_nat merge) incs) as Ht.
  { destruct (Z.ltb_spec (Z.of_nat (length incs)) merge); [|done].
    rewrite !take_ge by lia. done. }
  cbn [sp_SelectedRecords sp_SelectedRecordIDs sp_SelectedIncrementalRecordIDs
    sp_NewSyntheticFullAfterRecordID]. by rewrite Ht.
Qed.

(** A preview that blocks nothing selects the base and the oldest
    incremental records, as many as the rule says, of a complete chain: a
    contiguous piece of it, each record the parent of the next, with the last
    of them the record after which the new full backup stands. *)
Theorem preview_selects_chain policy hostID state records now v now' :
  validateBackupPolicyChainRecords policy hostID state records now = Some v ->
  let p := buildSyntheticFullPreview policy v now' in
  sp_BlockingReasons p = [] ->
  exists base latest incs,
    complete_chain policy hostID state records v base latest incs /\
    (is_full base = true ->
     let merge := Z.to_nat (MergeOldestIncrementals (parseSyntheticRule policy)) in
     sp_SelectedRecords p = base :: take merge incs /\ (1 <= merge <= length incs)%nat /\
     NoDup (sp_SelectedRecordIDs p) /\ parents base (take merge incs) /\
     incs !! (merge - 1)%nat ≫= (fun r => Some (r_ID r))
       = Some (sp_NewSyntheticFullAfterRecordID p)).
Proof.
  intros Hv p Hp. destruct (preview_unblocked _ _ _ Hp) as (Hst & _ & Hlen).
  destruct (validate_complete _ _ _ _ _ _ Hv Hst) as (base & latest & incs & H).
  exists base, latest, incs. split; [exact H|]. intros Hfull merge.
  destruct (preview_selected policy v now' base (cc_base _ _ _ _ _ _ _ _ H))
    as (Hsel & Hids & _ & Hnew).
  rewrite (chain_incrementals _ _ _ _ _ _ _ _ H Hfull) in Hsel, Hnew, Hlen.
  fold p in Hsel, Hids, Hnew. fold merge in Hsel, Hnew.
  pose proof (rule_merge_pos policy) as Hpos.
  split; [done|]. split; [subst merge; lia|]. rewrite Hids, Hsel, Hnew.
  split.
  { pose proof (cc_distinct _ _ _ _ _ _ _ _ H) as Hnd.
    rewrite <- (take_drop merge incs), app_comm_cons, fmap_app in Hnd.
    by apply NoDup_app in Hnd as [Hnd _]. }
  split; [by apply parents_take, (cc_parents _ _ _ _ _ _ _ _ H)|].
  by rewrite (last_take_lookup base base) by (subst merge; lia).
Qed.

(** The conditions under which the automatic trigger fires. *)
Lemma decision_runs policy rule v preview trigger :
  ShouldRun (buildSyntheticAutoDecision policy rule v preview trigger) = true ->
  v_Status v = DatabaseBackupChainStatusComplete /\
  is_successful_incremental trigger = true /\
  sp_BlockingReasons preview = [] /\
  TriggerAfterIncrementals rule <= countValidationIncrementals v /\
  MergeOldestIncrementals rule = TriggerAfterIncrementals rule /\
  p_BinlogStreamID policy <> 0 /\ covered_by_synthetic policy trigger = false /\
  Z.of_nat (length (sp_SelectedIncrementalRecordIDs preview)) = MergeOldestIncrementals rule /\
  sp_NewSyntheticFullAfterRecordID preview = r_ID trigger /\
  exists latest, v_LatestRecord v = Some latest /\ r_ID latest = r_ID trigger.
Proof.
  unfold buildSyntheticAutoDecision. intros H.
  do 6 (case_match; [discriminate H|]). destruct (v_LatestRecord v) as [latest|]; [|done].
  do 6 (case_match; [discriminate H|]).
  destruct (sp_BlockingReasons preview); [|done]. do 2 (case_match; [discriminate H|]).
  bsimpl. repeat (split; [done || lia|]). eauto.
Qed.

(** The automatic trigger starts a synthetic full backup only for an active
    policy without a synthetic job in its queue, after a successful incremental
    that is the latest record of a complete chain; and what is merged is then
    the whole chain, as many incremental records as the rule asks for, so that
    no record of the old chain is left behind. *)
Theorem auto_run_merges_chain trigger policy hostID state records jobs reason now
    pid tid treason :
  maybeRunBackupPolicySyntheticAfterSuccess (Some trigger) (Some policy) (Some hostID) state
    (Ok records) jobs reason now = Some (RunSynthetic pid tid treason) ->
  pid = p_ID policy /\ tid = r_ID trigger /\ policy_active policy = true /\
  AutoRun (parseSyntheticRule policy) = true /\
  hasActiveBackupPolicySyntheticJob jobs = false /\
  is_successful_incremental trigger = true /\
  exists v base latest incs,
    validateBackupPolicyChainRecords policy hostID state records now = Some v /\
    complete_chain policy hostID state records v base latest incs /\
    r_ID latest = r_ID trigger /\
    (is_full base = true ->
     sp_SelectedRecords (buildSyntheticFullPreview policy v now) = v_Records v /\
     Z.of_nat (length incs) = TriggerAfterIncrementals (parseSyntheticRule policy)).
Proof.
  unfold maybeRunBackupPolicySyntheticAfterSuccess. intros H.
  do 2 (case_match; [discriminate H|]).
  destruct (validateBackupPolicyChainRecords policy hostID state records now) as [v|] eqn:Hv; [|done].
  set (p := buildSyntheticFullPreview policy v now) in H.
  destruct (ShouldRun (buildSyntheticAutoDecision policy (parseSyntheticRule policy) v p trigger))
    eqn:Hrun; cbn [negb] in H; [|by case_match]. case_match; [done|].
  assert (pid = p_ID policy /\ tid = r_ID trigger) as [-> ->] by (by injection H).
  destruct (decision_runs _ _ _ _ _ Hrun)
    as (Hst & Htr & Hb & Hcount & Hmerge & _ & _ & Hlen & Hnew & latest & Hlat & Hid).
  bsimpl. do 6 (split; [done|]).
  destruct (validate_complete _ _ _ _ _ _ Hv Hst) as (base & latest' & incs & Hc).
  pose proof (cc_latest _ _ _ _ _ _ _ _ Hc) as Hlat'. rewrite Hlat in Hlat'.
  injection Hlat' as <-. exists v, base, latest, incs. do 3 (split; [done|]). intros Hfull.
  destruct (preview_selected policy v now base (cc_base _ _ _ _ _ _ _ _ Hc))
    as (Hsel & _ & Hinc & Hlast).
  rewrite (chain_incrementals _ _ _ _ _ _ _ _ Hc Hfull) in Hsel, Hinc, Hlast.
  fold p in Hsel, Hinc, Hlast. set (merge := Z.to_nat _) in Hsel, Hinc, Hlast.
  assert (take merge incs = incs) as Hall.
  { apply (take_last_all r_ID base base); [apply (cc_distinct _ _ _ _ _ _ _ _ Hc)|].
    rewrite <- Hlast, Hnew, <- Hid. pose proof (cc_last _ _ _ _ _ _ _ _ Hc) as Hl.
    by rewrite (last_default _ _ base Hl). }
  rewrite Hall in *. fold p. rewrite Hsel, (cc_records _ _ _ _ _ _ _ _ Hc). split; [done|].
  rewrite <- Hmerge, <- Hlen, Hinc. by rewrite length_fmap.
Qed.
End facts.

(** ** Concrete runs *)
Section examples.
#[local] Existing Instance sample_tables.
#[local] Existing Instance sample_lib.

Lemma preview_selects_chain_witness : exists base latest incs,
  complete_chain (sample_policy_config $"auto") 4 None sample_chain sample_validation
    base latest incs.
Proof.
  destruct (preview_selects_chain (sample_policy_config $"auto") 4 None sample_chain 1000
    sample_validation 1000) as (base & latest & incs & H & _).
  - vm_compute. reflexivity.
  - vm_compute. reflexivity.
  - exists base, latest, incs. exact H.
Defined.

Lemma auto_run_merges_chain_witness : exists v base latest incs,
  validateBackupPolicyChainRecords (sample_policy_config $"auto") 4 None sample_chain 1000
    = Some v /\
  complete_chain (sample_policy_config $"auto") 4 None sample_chain v base latest incs.
Proof.
  destruct (auto_run_merges_chain (sample_record 3 2 $"incremental" $"200" $"300")
    (sample_policy_config $"auto") 4 None sample_chain (Some [$"success"]) [] 1000
    1 3 $"auto_after_incremental") as (_ & _ & _ & _ & _ & _ & v & base & latest & incs & H1 & H2 & _).
  - vm_compute. reflexivity.
  - exists v, base, latest, incs. split; [exact H1 | exact H2].
Defined.

(** One incremental too few: nothing is started. *)
Example below_threshold :
  maybeRunBackupPolicySyntheticAfterSuccess
    (Some (sample_record 2 1 $"incremental" $"100" $"200"))
    (Some (sample_policy_config $"auto")) (Some 4) None (Ok (drop 1 sample_chain)) None [] 1000
  = Some NoAction.
Proof. vm_compute. reflexivity. Qed.
End examples.
