(* ===== verification/BackupPurge.v ===== *)
(** * Purging superseded backup records, [backup_policy_purge.go]

    The records are shared by pointer: a source record may be the very object
    of the list of all records, and the code changes it through either. The
    model keeps the objects in a heap by location, and the rows of the table by
    number; saving an object writes its row. *)

From Stdlib Require Import ZArith Lia.
From stdpp Require Import base tactics option list numbers sets gmap.
From S2P Require Import Prelude GoStrings SqlSafety WriteExec BackupModel BackupChain BinlogChain.
From S2P Require Import SyntheticFull.

Open Scope Z_scope.

Definition DatabaseBackupVerifyStatusExpired := $"expired".

Abbreviation loc := Z (only parsing).
Abbreviation record := DatabaseBackupRecord (only parsing).

Record purge_world := {
  heap : gmap Z DatabaseBackupRecord; next_loc : Z;
  rows : gmap Z DatabaseBackupRecord; saved_policy : option DatabaseBackupPolicyConfig }.

Record syntheticPurgeInput := {
  in_Policy : DatabaseBackupPolicyConfig; in_Synthetic : Z; in_SourceRecords : list Z;
  in_AllRecords : list Z; in_LogArchives : list DatabaseLogArchive;
  in_Rule : syntheticRuleConfig; in_Now : Z }.

(** What the repositories answer: the policy, the archived logs by file name,
    the error of saving a record. *)
Record purge_env := {
  pe_policy : Z -> result DatabaseBackupPolicyConfig;
  pe_logs : DatabaseBackupPolicyConfig -> list DatabaseLogArchive;
  pe_list : option gostring;
  pe_update : DatabaseBackupRecord -> option gostring;
  pe_now : Z }.

Record DatabaseBackupPolicyPurgePreviewVO := {
  pp_SyntheticRecordID : Z; pp_ProofStatus : gostring; pp_BinlogCoverageStatus : gostring;
  pp_BinlogCoverageText : gostring; pp_EligibleRecordIDs : list Z;
  pp_BlockedRecordIDs : list (Z * gostring); pp_BlockingReasons : list gostring }.

Record DatabaseBackupPolicyPurgeRunVO := {
  pr_PolicyID : Z; pr_SyntheticRecordID : Z; pr_PurgedRecordIDs : list Z;
  pr_SkippedRecordIDs : list Z; pr_Message : gostring }.

(** ** Field updates *)
Definition mark_superseded (r : DatabaseBackupRecord) (by_id : Z) (eligibleAt : Z)
    (message : gostring) : DatabaseBackupRecord := {|
  r_ID := r_ID r; r_CreatedAt := r_CreatedAt r; r_PolicyID := r_PolicyID r;
  r_ChainID := r_ChainID r; r_BaseRecordID := r_BaseRecordID r;
  r_ParentRecordID := r_ParentRecordID r; r_BackupMethod := r_BackupMethod r;
  r_BackupLevel := r_BackupLevel r; r_BackupEngine := r_BackupEngine r;
  r_SourceInstanceID := r_SourceInstanceID r; r_StorageURI := r_StorageURI r;
  r_BackupOrigin := r_BackupOrigin r; r_CheckpointFromLSN := r_CheckpointFromLSN r;
  r_CheckpointToLSN := r_CheckpointToLSN r; r_CheckpointLastLSN := r_CheckpointLastLSN r;
  r_ArtifactState := r_ArtifactState r;
  r_SyntheticSourceRecordIDs := r_SyntheticSourceRecordIDs r;
  r_SupersededByRecordID := by_id;
  r_PurgeEligibleAt := Some (default eligibleAt (r_PurgeEligibleAt r));
  r_ProtectedUntil := r_ProtectedUntil r; r_Status := r_Status r; r_FilePath := r_FilePath r;
  r_FileName := r_FileName r; r_FileSize := r_FileSize r; r_ChecksumSHA256 := r_ChecksumSHA256 r;
  r_VerifyStatus := r_VerifyStatus r; r_VerifyMessage := r_VerifyMessage r;
  r_RestoreTestStatus := r_RestoreTestStatus r; r_StartedAt := r_StartedAt r;
  r_FinishedAt := r_FinishedAt r; r_RecoverableFrom := r_RecoverableFrom r;
  r_RecoverableUntil := r_RecoverableUntil r; r_ErrorMessage := message;
  r_ServerUUID := r_ServerUUID r; r_GTIDMode := r_GTIDMode r;
  r_ExecutedGTIDSet := r_ExecutedGTIDSet r; r_BackupBinlogFile := r_BackupBinlogFile r;
  r_BackupBinlogPos := r_BackupBinlogPos r; r_BackupGTIDSet := r_BackupGTIDSet r;
  r_details := r_details r |}.

Definition mark_expired (r : DatabaseBackupRecord) (synthetic_id : Z)
    : DatabaseBackupRecord := {|
  r_ID := r_ID r; r_CreatedAt := r_CreatedAt r; r_PolicyID := r_PolicyID r;
  r_ChainID := r_ChainID r; r_BaseRecordID := r_BaseRecordID r;
  r_ParentRecordID := r_ParentRecordID r; r_BackupMethod := r_BackupMethod r;
  r_BackupLevel := r_BackupLevel r; r_BackupEngine := r_BackupEngine r;
  r_SourceInstanceID := r_SourceInstanceID r; r_StorageURI := r_StorageURI r;
  r_BackupOrigin := r_BackupOrigin r; r_CheckpointFromLSN := r_CheckpointFromLSN r;
  r_CheckpointToLSN := r_CheckpointToLSN r; r_CheckpointLastLSN := r_CheckpointLastLSN r;
  r_ArtifactState := r_ArtifactState r;
  r_SyntheticSourceRecordIDs := r_SyntheticSourceRecordIDs r;
  r_SupersededByRecordID := r_SupersededByRecordID r;
  r_PurgeEligibleAt := r_PurgeEligibleAt r; r_ProtectedUntil := r_ProtectedUntil r;
  r_Status := DatabaseBackupStatusExpired; r_FilePath := r_FilePath r;
  r_FileName := r_FileName r; r_FileSize := r_FileSize r; r_ChecksumSHA256 := r_ChecksumSHA256 r;
  r_VerifyStatus := DatabaseBackupVerifyStatusExpired; 
  r_VerifyMessage := trimText ($"已由 synthetic full #" ++ fmt_d synthetic_id ++ $" 完成恢复证明后替代；P2.12 仅做元数据清理标记，artifact 删除交给 Runner/对象存储保留策略") 500;
 
  r_RestoreTestStatus := r_RestoreTestStatus r; r_StartedAt := r_StartedAt r;
  r_FinishedAt := r_FinishedAt r; r_RecoverableFrom := r_RecoverableFrom r;
  r_RecoverableUntil := r_RecoverableUntil r; 
  r_ErrorMessage := trimText ($"合成全量 #" ++ fmt_d synthetic_id ++ $" 已通过恢复证明，旧链记录进入 expired/purged 元数据状态；storage URI/checksum 保留用于审计") 500;
 
  r_ServerUUID := r_ServerUUID r; r_GTIDMode := r_GTIDMode r;
  r_ExecutedGTIDSet := r_ExecutedGTIDSet r; r_BackupBinlogFile := r_BackupBinlogFile r;
  r_BackupBinlogPos := r_BackupBinlogPos r; r_BackupGTIDSet := r_BackupGTIDSet r;
  r_details := r_details r |}.

Section purge.
Context `{U : UnicodeTables, L : GoLib} (E : purge_env).

(** ** The table of records, [data/database/backup_repository.go] *)

(** [ORDER BY finished_at ASC, id ASC]; no time sorts first. *)
Definition row_less (a b : DatabaseBackupRecord) : bool :=
  match r_FinishedAt a, r_FinishedAt b with
  | None, None => r_ID a <? r_ID b
  | None, Some _ => true
  | Some _, None => false
  | Some x, Some y => if x =? y then r_ID a <? r_ID b else x <? y
  end.

Definition is_listed (policyID : Z) (r : DatabaseBackupRecord) : bool :=
  (r_PolicyID r =? policyID) &&
  bool_decide (r_BackupMethod r = DatabaseBackupMethodPhysical) &&
  bool_decide (r_Status r = DatabaseBackupStatusSuccess).

Definition successful_rows (policyID : Z) (t : gmap Z DatabaseBackupRecord)
    : list DatabaseBackupRecord :=
  if policyID =? 0 then []
  else sort_stable row_less (List.filter (is_listed policyID) (snd <$> map_to_list t)).

(** Reading a row makes a new object. *)
Definition alloc (r : DatabaseBackupRecord) : handler purge_world Z := fun w =>
  (Ok (next_loc w), {| heap := <[next_loc w := r]> (heap w); next_loc := next_loc w + 1;
                       rows := rows w; saved_policy := saved_policy w |}).

Fixpoint alloc_all (l : list DatabaseBackupRecord) : handler purge_world (list Z) :=
  match l with
  | [] => mret []
  | r :: l' => p ← alloc r; ps ← alloc_all l'; mret (p :: ps)
  end.

Definition ListSuccessfulPhysicalByPolicy (policyID : Z) : handler purge_world (list Z) :=
  w ← h_get;
  match (if policyID =? 0 then None else pe_list E) with
  | Some e => h_fail e
  | None => alloc_all (successful_rows policyID (rows w))
  end.

Definition backupRecord_Update (p : Z) : handler purge_world unit := fun w =>
  match heap w !! p with
  | None => (Ok tt, w)
  | Some r =>
    match pe_update E r with
    | Some e => (Err e, w)
    | None => (Ok tt, {| heap := heap w; next_loc := next_loc w;
                         rows := <[r_ID r := r]> (rows w); saved_policy := saved_policy w |})
    end
  end.

Definition deref (h : gmap Z DatabaseBackupRecord) (ps : list Z) : list (Z * DatabaseBackupRecord) :=
  omap (fun p => pair p <$> h !! p) ps.

Definition store (p : Z) (r : DatabaseBackupRecord) : handler purge_world unit := fun w =>
  (Ok tt, {| heap := <[p := r]> (heap w); next_loc := next_loc w; rows := rows w;
             saved_policy := saved_policy w |}).

(** ** Selection *)

(** [latestSyntheticFullRecord]: the later of two by sort time, then number. *)
Definition later (a b : Z * DatabaseBackupRecord) : bool :=
  let ta := backupRecordSortTime a.2 in
  let tb := backupRecordSortTime b.2 in
  (ta <? tb) || ((ta =? tb) && (r_ID a.2 <? r_ID b.2)).

Definition is_synthetic_full (r : DatabaseBackupRecord) : bool := is_synthetic r && is_full r.

Definition latestSyntheticFullRecord (records : list (Z * DatabaseBackupRecord))
    : option (Z * DatabaseBackupRecord) :=
  foldl (fun latest r =>
    if negb (is_synthetic_full r.2) then latest
    else match latest with
         | None => Some r
         | Some l => if later l r then Some r else latest
         end) None records.

(** Digits in base 10, wrapping at 64 bits; an error for another character. *)
Definition parseUintText (value : gostring) : option Z :=
  let value := TrimSpace value in
  if bool_decide (value = []) || negb (forallb is_digit value) then None
  else Some (foldl (fun parsed ch => (parsed * 10 + (ch - 48)) mod 2 ^ 64) 0 value).

(** [strings.FieldsFunc] with the separators of the code. *)
Definition is_id_separator (r : rune) : bool := one_of [r] [$","; $";"; $" "; [10]; [9]].
Fixpoint fields_func (p : rune -> bool) (current : gostring) (s : gostring) : list gostring :=
  match s with
  | [] => match current with [] => [] | _ => [current] end
  | r :: s' =>
    if p r
    then match current with [] => fields_func p [] s' | _ => current :: fields_func p [] s' end
    else fields_func p (current ++ [r]) s'
  end.

Definition parseSyntheticSourceRecordIDs (value : gostring) : list Z :=
  let value := TrimSpace value in
  if bool_decide (value = []) then []
  else
    let '(ids, ok) := json_uint_list value in
    if ok then ids
    else ids ++ omap (fun part => match parseUintText part with
                                  | Some id => if 0 <? id then Some id else None
                                  | None => None
                                  end) (fields_func is_id_separator [] value).

(** The order of the archived logs: file name, then number. *)
Definition log_less (a b : DatabaseLogArchive) : bool :=
  if bool_decide (la_FileName a = la_FileName b) then la_ID a <? la_ID b
  else string_less (la_FileName a) (la_FileName b).

Definition purge_logs (policy : DatabaseBackupPolicyConfig) : list DatabaseLogArchive :=
  if 0 <? p_BinlogStreamID policy then sort_stable log_less (pe_logs E policy) else [].

(** A source record: the object of the list, else a new one from its row. *)
Definition find_source (all : list Z) (id : Z) : handler purge_world (option Z) :=
  w ← h_get;
  match List.find (fun x => r_ID x.2 =? id) (deref (heap w) all) with
  | Some x => mret (Some x.1)
  | None =>
    match rows w !! id with
    | Some r => p ← alloc r; mret (Some p)
    | None => mret None
    end
  end.

Fixpoint find_sources (all : list Z) (ids : list Z) : handler purge_world (list Z) :=
  match ids with
  | [] => mret []
  | id :: ids' =>
    p ← find_source all id; ps ← find_sources all ids';
    mret (match p with Some p => p :: ps | None => ps end)
  end.

Definition buildSyntheticPurgeInput (id : Z) : handler purge_world syntheticPurgeInput :=
  policy ← h_lift (match pe_policy E id with Ok p => Ok p | Err _ => Err $"备份策略不存在" end);
  all ← ListSuccessfulPhysicalByPolicy (p_ID policy);
  w ← h_get;
  match latestSyntheticFullRecord (deref (heap w) all) with
  | None => h_fail $"当前策略没有成功的 synthetic full 记录"
  | Some (syn, r) =>
    sources ← find_sources all (parseSyntheticSourceRecordIDs (r_SyntheticSourceRecordIDs r));
    mret {|
      in_Policy := policy; in_Synthetic := syn; in_SourceRecords := sources;
      in_AllRecords := all;
      in_LogArchives := purge_logs policy;
      in_Rule := parseSyntheticRule policy; in_Now := pe_now E |}
  end.

(** ** [reconcileSyntheticPurgeState] *)
Definition nanos_per_day : Z := 86400 * 1000000000.

Definition reconcile_one (synthetic_id eligibleAt : Z) (p : Z) : handler purge_world unit :=
  w ← h_get;
  match heap w !! p with
  | None => mret tt
  | Some r =>
    if (r_ID r =? synthetic_id) || bool_decide (r_Status r = DatabaseBackupStatusExpired)
    then mret tt
    else if (r_SupersededByRecordID r =? synthetic_id) &&
            negb (bool_decide (r_PurgeEligibleAt r = None))
    then mret tt
    else
      store p (mark_superseded r synthetic_id eligibleAt
        (trimText ($"Synthetic full #" ++ fmt_d synthetic_id
                   ++ $" 已通过恢复证明，旧链记录标记为 superseded，清理窗口："
                   ++ format_time eligibleAt) 500));;
      backupRecord_Update p
  end.

Fixpoint each (f : Z -> handler purge_world unit) (ps : list Z) : handler purge_world unit :=
  match ps with
  | [] => mret tt
  | p :: ps' => f p;; each f ps'
  end.

Definition reconcileSyntheticPurgeState (input : syntheticPurgeInput) : handler purge_world unit :=
  w ← h_get;
  match heap w !! in_Synthetic input with
  | None => mret tt
  | Some syn =>
    let rule := in_Rule input in
    if NeverDeleteWithoutProof rule &&
       negb (bool_decide (r_RestoreTestStatus syn = DatabaseBackupStatusSuccess))
    then mret tt
    else if negb (MarkSupersededAfterProof rule) then mret tt
    else
      let eligibleAt := in_Now input + SupersededKeepDaysAfterProof rule * nanos_per_day in
      each (reconcile_one (r_ID syn) eligibleAt) (in_SourceRecords input)
  end.

(** ** The binlog behind the synthetic record *)

Definition bad_archive (item : DatabaseLogArchive) : bool :=
  one_of (la_Status item)
    [DatabaseLogArchiveStatusMissing; DatabaseLogArchiveStatusChecksumFailed].

Definition syntheticPurgeBinlogStatus (policy : DatabaseBackupPolicyConfig)
    (synthetic : DatabaseBackupRecord) (logs : list DatabaseLogArchive) : gostring * gostring :=
  if p_BinlogStreamID policy =? 0
  then (DatabaseLogChainStatusMissingBinlog, $"策略未绑定 binlog 归档流，不能证明 PITR 清理安全")
  else match List.find bad_archive logs with
  | Some item =>
    if one_of (la_Status item) [DatabaseLogArchiveStatusMissing]
    then (DatabaseLogChainStatusMissingBinlog, $"binlog " ++ la_FileName item ++ $" 被标记为缺失")
    else (DatabaseLogChainStatusTimeRangeGap, $"binlog " ++ la_FileName item ++ $" checksum 异常")
  | None =>
    let '(status, message) := validateMySQLRestoreLogMetadata synthetic logs in
    if bool_decide (status = DatabaseLogChainStatusComplete)
    then (status, $"binlog catalog 起点和文件链校验通过")
    else (status, message)
  end.

(** ** What blocks *)
Definition depends_on_source (synthetic_id : Z) (source_ids : list Z)
    (r : DatabaseBackupRecord) : bool :=
  negb ((r_ID r =? synthetic_id) || bool_decide (r_Status r = DatabaseBackupStatusExpired)) &&
  negb (bool_decide (r_ID r ∈ source_ids)) && bool_decide (r_ParentRecordID r ∈ source_ids).

Definition sourceDependencyBlockReasons (synthetic_id : Z) (sources all : list DatabaseBackupRecord)
    : list gostring :=
  uniqueStrings
    (map (fun r => $"记录 #" ++ fmt_d (r_ID r) ++ $" 仍以旧链记录 #" ++ fmt_d (r_ParentRecordID r)
                   ++ $" 为 parent，清理会破坏后续增量依赖")
       (List.filter (depends_on_source synthetic_id (r_ID <$> sources)) all)).

(** [firstRecordPurgeBlockReason]: the empty text lets the record go. *)
Definition firstRecordPurgeBlockReason (record synthetic : DatabaseBackupRecord) (now : Z)
    (globalBlocked : list gostring) : gostring :=
  if bool_decide (r_Status record = DatabaseBackupStatusExpired)
  then $"记录已是 expired/purged 状态"
  else match globalBlocked with
  | reason :: _ => reason
  | [] =>
    if negb (r_SupersededByRecordID record =? r_ID synthetic)
    then $"记录尚未被当前 synthetic full 标记 superseded"
    else
      let protected_until := default now (r_ProtectedUntil record) in
      if now <? protected_until then $"记录仍在保护期内：" ++ format_time protected_until
      else match r_PurgeEligibleAt record with
      | None => $"记录未设置 purge_eligible_at"
      | Some t => if now <? t then $"清理窗口未到：" ++ format_time t else []
      end
  end.

Definition global_blocks (input : syntheticPurgeInput) (syn : DatabaseBackupRecord)
    (sources all : list DatabaseBackupRecord) : list gostring :=
  let '(status, text) :=
    syntheticPurgeBinlogStatus (in_Policy input) syn (in_LogArchives input) in
  let full := $"synthetic full #" ++ fmt_d (r_ID syn) in
  (if bool_decide (r_Status syn = DatabaseBackupStatusSuccess) then []
   else [full ++ $" 不是成功状态"]) ++
  (if one_of (r_ArtifactState syn)
        [DatabaseBackupArtifactStateMissing; DatabaseBackupArtifactStateChecksumFailed]
   then [full ++ $" artifact 状态为 " ++ r_ArtifactState syn] else []) ++
  (if bool_decide (TrimSpace (r_ChecksumSHA256 syn) = []) then [full ++ $" 缺少 checksum"] else []) ++
  (if NeverDeleteWithoutProof (in_Rule input) &&
      negb (bool_decide (r_RestoreTestStatus syn = DatabaseBackupStatusSuccess))
   then [full ++ $" 尚未通过恢复演练 proof"] else []) ++
  (if bool_decide (status = DatabaseLogChainStatusComplete) then []
   else [firstNonEmpty [text; $"binlog 归档链未证明连续"]]) ++
  (match sources with [] => [$"synthetic full 缺少来源记录，不能清理旧链"] | _ => [] end) ++
  sourceDependencyBlockReasons (r_ID syn) sources all.

(** ** [buildSyntheticPurgePreview], its texts for display aside *)
Definition buildSyntheticPurgePreview (input : syntheticPurgeInput)
    (h : gmap Z DatabaseBackupRecord) : option DatabaseBackupPolicyPurgePreviewVO :=
  match h !! in_Synthetic input with
  | None => None
  | Some syn =>
    let sources := snd <$> deref h (in_SourceRecords input) in
    let all := snd <$> deref h (in_AllRecords input) in
    let blocked := global_blocks input syn sources all in
    let reason r := firstRecordPurgeBlockReason r syn (in_Now input) blocked in
    let is_eligible r := bool_decide (reason r = []) in
    let '(status, text) :=
      syntheticPurgeBinlogStatus (in_Policy input) syn (in_LogArchives input) in
    Some {|
      pp_SyntheticRecordID := r_ID syn;
      pp_ProofStatus := firstNonEmpty [r_RestoreTestStatus syn; DatabaseBackupStatusPending];
      pp_BinlogCoverageStatus := status; pp_BinlogCoverageText := text;
      pp_EligibleRecordIDs := r_ID <$> List.filter is_eligible sources;
      pp_BlockedRecordIDs :=
        (fun r => (r_ID r, reason r)) <$> List.filter (fun r => negb (is_eligible r)) sources;
      pp_BlockingReasons := uniqueStrings blocked |}
  end.

(** [PreviewBackupPolicyPurge]. *)
Definition PreviewBackupPolicyPurge (id : Z)
    : handler purge_world DatabaseBackupPolicyPurgePreviewVO :=
  input ← buildSyntheticPurgeInput id;
  reconcileSyntheticPurgeState input;;
  w ← h_get;
  match buildSyntheticPurgePreview input (heap w) with
  | Some preview => mret preview
  | None => h_fail []
  end.

(** ** [RunBackupPolicyPurge] *)
Definition expire_one (synthetic_id : Z) (sources : list Z) (id : Z)
    : handler purge_world (option Z) :=
  w ← h_get;
  match List.find (fun x => r_ID x.2 =? id) (deref (heap w) sources) with
  | None => mret None
  | Some (p, r) =>
    store p (mark_expired r synthetic_id);;
    h_map_err (fun e => $"更新备份记录 #" ++ fmt_d (r_ID r) ++ $" 清理状态失败: " ++ e)
      (backupRecord_Update p);;
    mret (Some (r_ID r))
  end.

Fixpoint expire_all (synthetic_id : Z) (sources ids : list Z) : handler purge_world (list Z) :=
  match ids with
  | [] => mret []
  | id :: ids' =>
    x ← expire_one synthetic_id sources id;
    xs ← expire_all synthetic_id sources ids';
    mret (match x with Some x => x :: xs | None => xs end)
  end.

(** The policy row after the purge; saving it may not fail the run. *)
Definition purged_policy (policy : DatabaseBackupPolicyConfig) (synthetic_id now : Z) (count : Z)
    : DatabaseBackupPolicyConfig := {|
  p_ID := p_ID policy; p_InstanceID := p_InstanceID policy;
  p_SourceInstanceID := p_SourceInstanceID policy; p_BackupEngine := p_BackupEngine policy;
  p_RunnerHostID := p_RunnerHostID policy; p_BinlogStreamID := p_BinlogStreamID policy;
  p_SyntheticEnabled := p_SyntheticEnabled policy;
  p_SyntheticRuleJSON := p_SyntheticRuleJSON policy;
  p_RestoreDrillRequired := p_RestoreDrillRequired policy; p_Enabled := p_Enabled policy;
  p_Status := DatabaseBackupPolicyStatusActive; p_LastRunAt := Some now;
  p_LastSyntheticAt := p_LastSyntheticAt policy; p_LastStatus := DatabaseBackupStatusExpired;
  p_LastMessage := trimText ($"Synthetic full #" ++ fmt_d synthetic_id
    ++ $" 恢复证明后已标记清理旧链记录 " ++ fmt_d count ++ $" 条") 500;
  p_LastError := p_LastError policy |}.

Definition save_policy (p : DatabaseBackupPolicyConfig) : handler purge_world unit := fun w =>
  (Ok tt, {| heap := heap w; next_loc := next_loc w; rows := rows w; saved_policy := Some p |}).

Definition RunBackupPolicyPurge (id : Z) : handler purge_world DatabaseBackupPolicyPurgeRunVO :=
  input ← buildSyntheticPurgeInput id;
  reconcileSyntheticPurgeState input;;
  w ← h_get;
  match buildSyntheticPurgePreview input (heap w) with
  | None => h_fail []
  | Some preview =>
    match pp_BlockingReasons preview, pp_EligibleRecordIDs preview with
    | _ :: _, _ => h_fail (Join (pp_BlockingReasons preview) $"；")
    | [], [] => h_fail $"没有到达清理窗口的旧链记录"
    | [], _ =>
      purged ← expire_all (pp_SyntheticRecordID preview) (in_SourceRecords input)
                 (pp_EligibleRecordIDs preview);
      let count := Z.of_nat (length purged) in
      save_policy (purged_policy (in_Policy input) (pp_SyntheticRecordID preview)
                     (in_Now input) count);;
      mret {| pr_PolicyID := p_ID (in_Policy input);
              pr_SyntheticRecordID := pp_SyntheticRecordID preview;
              pr_PurgedRecordIDs := purged;
              pr_SkippedRecordIDs := fst <$> pp_BlockedRecordIDs preview;
              pr_Message := $"已标记清理 " ++ fmt_d count
                ++ $" 条旧链记录；未在 backend 中硬删除 artifact" |}
    end
  end.
End purge.
