(* ===== verification/BackupPurgeFacts.v ===== *)
(** * What the purge of superseded backup records keeps

    The objects in memory and the rows of the table stay related to the rows
    the purge started from, through every save and every failed save; a row
    that is expired had the whole proof the rule asks for. *)

From Stdlib Require Import String List ZArith Lia.
From stdpp Require Import base tactics option list numbers sets gmap.
From S2P Require Import Prelude GoStrings SqlSafety WriteExec BackupModel BinlogChain BackupChain.
From S2P Require Import SyntheticFull BackupPurge.

Open Scope Z_scope.

Abbreviation table := (gmap Z DatabaseBackupRecord) (only parsing).

(** Every row is saved under its own number. *)
Definition keyed (t : gmap Z DatabaseBackupRecord) : Prop :=
  forall k r, t !! k = Some r -> r_ID r = k.

(** ** Related states *)

(** [D r0 r]: the purge may turn the row [r0] into [r]. *)
Definition tracks (D : DatabaseBackupRecord -> DatabaseBackupRecord -> Prop)
    (t : gmap Z DatabaseBackupRecord) (ps : list Z) (w : purge_world) : Prop :=
  (forall p, p ∈ ps -> exists r r0, heap w !! p = Some r /\ t !! r_ID r = Some r0 /\ D r0 r) /\
  (forall k, option_Forall2 D (t !! k) (rows w !! k)).

Lemma tracks_mono (D D' : DatabaseBackupRecord -> DatabaseBackupRecord -> Prop) t ps w :
  (forall r0 r, D r0 r -> D' r0 r) -> tracks D t ps w -> tracks D' t ps w.
Proof.
  intros HD [Hh Hr]. split.
  - intros p Hp. destruct (Hh p Hp) as (r & r0 & ? & ? & ?). eauto 6.
  - intros k. destruct (Hr k); constructor; auto.
Qed.

Section facts.
Context `{U : UnicodeTables, L : GoLib} (E : purge_env).
Implicit Types (w : purge_world) (r : DatabaseBackupRecord) (p : Z).

(** Writing an object that is still related to its row, then saving it. *)
Lemma store_tracks D t ps w p r r0 :
  tracks D t ps w -> t !! r_ID r = Some r0 -> D r0 r ->
  tracks D t ps (store p r w).2.
Proof.
  intros [Hh Hr] Ht HD. split; [|exact Hr]. intros q Hq. simpl.
  destruct (decide (p = q)) as [->|Hn].
  - exists r, r0. by rewrite lookup_insert_eq.
  - destruct (Hh q Hq) as (x & x0 & ?). exists x, x0. by rewrite lookup_insert_ne.
Qed.

Lemma update_tracks D t ps w p r r0 res w' :
  tracks D t ps w -> heap w !! p = Some r -> t !! r_ID r = Some r0 -> D r0 r ->
  backupRecord_Update E p w = (res, w') -> tracks D t ps w'.
Proof.
  unfold backupRecord_Update. intros [Hh Hr] Hp Ht HD. rewrite Hp.
  destruct (pe_update E r); intros [= <- <-]; [by split|]. split; [exact Hh|].
  intros k. simpl. destruct (decide (r_ID r = k)) as [<-|Hn].
  - rewrite lookup_insert_eq, Ht. by constructor.
  - by rewrite lookup_insert_ne.
Qed.

Lemma store_update_tracks D t ps w p r r0 res w' :
  tracks D t ps w -> t !! r_ID r = Some r0 -> D r0 r ->
  (store p r;; backupRecord_Update E p) w = (res, w') -> tracks D t ps w'.
Proof.
  intros Hw Ht HD Hrun. pose proof (store_tracks D t ps w p r r0 Hw Ht HD) as Hw1.
  change (backupRecord_Update E p (store p r w).2 = (res, w')) in Hrun.
  eapply update_tracks; [exact Hw1 | | exact Ht | exact HD | exact Hrun].
  apply lookup_insert_eq.
Qed.

(** ** Texts that are not blank *)
Definition blank (s : gostring) : Prop := Forall (fun c : Z => IsSpace c = true) s.

Lemma not_blank_app s s' : ~ blank s -> ~ blank (s ++ s').
Proof. intros Hs H. apply Hs. by apply Forall_app in H as [? _]. Qed.

Lemma not_blank_lit (s : string) : forallb IsSpace (lit s) = false -> ~ blank (lit s).
Proof.
  intros H Hb. apply not_true_iff_false in H. apply H, forallb_forall. intros c Hc.
  apply list_elem_of_In in Hc. exact (proj1 (Forall_forall _ _) Hb c Hc).
Qed.

Lemma uniqueStrings_loop_nil seen l :
  Forall (fun s => ~ blank s) l -> uniqueStrings_loop seen l = [] ->
  (forall s, s ∈ seen -> s <> [] ) -> Forall (fun s => TrimSpace s ∈ seen) l.
Proof.
  revert seen. induction l as [|s l IH]; intros seen Hl Hu Hs; [constructor|].
  inversion Hl as [|? ? Hn Hl']; subst. simpl in Hu.
  destruct (bool_decide _) eqn:B; simpl in Hu; [exfalso; apply Hn; bsimpl; by apply TrimSpace_nil|].
  destruct (one_of _ _) eqn:O; [|done]. apply one_of_true in O. constructor; auto.
Qed.

Lemma uniqueStrings_nil l :
  Forall (fun s => ~ blank s) l -> uniqueStrings l = [] -> l = [].
Proof.
  intros Hl Hu. apply uniqueStrings_loop_nil in Hu; [|done|by intros s ?%elem_of_nil].
  destruct Hu as [|s l Hs]; [done|]. by apply elem_of_nil in Hs.
Qed.

Lemma uniqueStrings_not_nil seen l : Forall (fun s => s <> []) (uniqueStrings_loop seen l).
Proof.
  revert seen. induction l as [|s l IH]; intros seen; simpl; [constructor|].
  destruct (bool_decide _) eqn:B; simpl; [done|]. destruct (one_of _ _); [done|].
  constructor; [by bsimpl | done].
Qed.

Lemma firstNonEmpty_not_nil l : Exists (fun s => ~ blank s) l -> firstNonEmpty l <> [].
Proof.
  intros H. unfold firstNonEmpty. destruct (List.find _ l) as [s|] eqn:Hf.
  - apply List.find_some in Hf as [_ Hf]. by bsimpl.
  - exfalso. apply Exists_exists in H as (s & Hs & Hb). apply list_elem_of_In in Hs.
    apply (List.find_none _ _ Hf) in Hs. bsimpl. by apply Hb, TrimSpace_nil.
Qed.

(** ** Reading: new objects, nothing written *)
Definition reads (w w' : purge_world) : Prop :=
  next_loc w <= next_loc w' /\ rows w' = rows w /\ saved_policy w' = saved_policy w /\
  forall p, p < next_loc w -> heap w' !! p = heap w !! p.

#[local] Instance reads_refl : Reflexive reads.
Proof. by intros w. Qed.
#[local] Instance reads_trans : Transitive reads.
Proof.
  intros w1 w2 w3 (H1 & H2 & H3 & H4) (G1 & G2 & G3 & G4).
  repeat split; [lia | congruence | congruence|]. intros p Hp. rewrite G4, H4; lia || done.
Qed.

(** [p] holds an object with the contents [r]. *)
Definition holds (w : purge_world) (p : Z) (r : DatabaseBackupRecord) : Prop :=
  p < next_loc w /\ heap w !! p = Some r.

Lemma holds_reads w w' p r : reads w w' -> holds w p r -> holds w' p r.
Proof. intros (H1 & _ & _ & H4) [Hp Hr]. split; [lia|]. by rewrite H4. Qed.

Lemma alloc_spec r w :
  exists p w', alloc r w = (Ok p, w') /\ reads w w' /\ holds w' p r.
Proof.
  eexists _, _. split; [reflexivity|]. unfold reads, holds. simpl. repeat split; try lia.
  - intros p Hp. apply lookup_insert_ne. lia.
  - apply lookup_insert_eq.
Qed.

Lemma alloc_all_spec l w :
  exists ps w', alloc_all l w = (Ok ps, w') /\ reads w w' /\ Forall2 (holds w') ps l.
Proof.
  revert w. induction l as [|r l IH]; intros w.
  - exists [], w. split; [done|]. split; [reflexivity | constructor].
  - destruct (alloc_spec r w) as (p & w1 & H1 & H2 & H3).
    destruct (IH w1) as (ps & w2 & G1 & G2 & G3).
    exists (p :: ps), w2. cbn [alloc_all]. unfold mbind, handler_bind. rewrite H1, G1.
    split; [done|]. split; [by transitivity w1|]. constructor; [by eapply holds_reads | done].
Qed.

(** The objects in a list of locations. *)
Lemma elem_of_deref h ps p r : (p, r) ∈ deref h ps <-> p ∈ ps /\ h !! p = Some r.
Proof.
  unfold deref. rewrite list_elem_of_omap. split.
  - intros (q & Hq & Hr). apply fmap_Some in Hr as (r' & Hr' & [= -> ->]). done.
  - intros [Hp Hr]. exists p. by rewrite Hr.
Qed.

Lemma deref_holds w ps l : Forall2 (holds w) ps l -> deref (heap w) ps = zip ps l.
Proof.
  induction 1 as [|p r ps l [_ Hr] _ IH]; [done|].
  unfold deref in *. cbn. rewrite Hr. cbn. f_equal. exact IH.
Qed.

Lemma successful_rows_spec policyID t r :
  r ∈ successful_rows policyID t <->
  policyID <> 0 /\ (exists k, t !! k = Some r) /\ is_listed policyID r = true.
Proof.
  unfold successful_rows. destruct (policyID =? 0) eqn:Hp; bsimpl; [set_solver|].
  rewrite sort_stable_perm, list_elem_of_In, List.filter_In, <- list_elem_of_In.
  rewrite list_elem_of_fmap. split.
  - intros [([k x] & -> & Hx) Hl]. apply elem_of_map_to_list in Hx. eauto.
  - intros (_ & [k Hk] & Hl). split; [|done]. exists (k, r). by rewrite elem_of_map_to_list.
Qed.

Lemma ListSuccessful_spec policyID w :
  (exists e, ListSuccessfulPhysicalByPolicy E policyID w = (Err e, w)) \/
  exists ps w', ListSuccessfulPhysicalByPolicy E policyID w = (Ok ps, w') /\ reads w w' /\
    Forall2 (holds w') ps (successful_rows policyID (rows w)).
Proof.
  unfold ListSuccessfulPhysicalByPolicy, mbind, handler_bind, h_get.
  destruct (if policyID =? 0 then None else pe_list E) as [e|]; [left; by exists e | right].
  destruct (alloc_all_spec (successful_rows policyID (rows w)) w) as (ps & w' & H & ?).
  exists ps, w'. split; [|done]. exact H.
Qed.

(** A row that is found is an object of the list with its number, or the
    row of that number. *)
Lemma find_source_spec all id w t :
  rows w = t -> keyed t ->
  (forall p, p ∈ all -> exists r, holds w p r /\ t !! r_ID r = Some r) ->
  exists res w', find_source all id w = (Ok res, w') /\ reads w w' /\
    match res with
    | Some p => exists r, holds w' p r /\ r_ID r = id /\ t !! id = Some r
    | None => t !! id = None
    end.
Proof.
  intros <- Hk Hall. unfold find_source, h_get, mbind, handler_bind.
  destruct (List.find _ _) as [[p r]|] eqn:Hf.
  - apply List.find_some in Hf as [Hf Hid]. simpl in Hid. bsimpl.
    apply list_elem_of_In, elem_of_deref in Hf as [Hp Hr].
    exists (Some p), w. split; [done|]. split; [reflexivity|].
    destruct (Hall p Hp) as (r' & Hh & Ht). assert (r' = r) as -> by (destruct Hh; congruence).
    exists r. by subst id.
  - destruct (rows w !! id) as [r|] eqn:Hr.
    + destruct (alloc_spec r w) as (p & w' & H1 & H2 & H3). rewrite H1.
      exists (Some p), w'. split; [done|]. split; [done|]. exists r. by rewrite (Hk id r).
    + exists None, w. by split.
Qed.

Lemma find_sources_spec all ids w t :
  rows w = t -> keyed t ->
  (forall p, p ∈ all -> exists r, holds w p r /\ t !! r_ID r = Some r) ->
  exists ps w', find_sources all ids w = (Ok ps, w') /\ reads w w' /\
    (forall p, p ∈ ps -> exists r, holds w' p r /\ r_ID r ∈ ids /\ t !! r_ID r = Some r) /\
    (forall id, id ∈ ids -> is_Some (t !! id) -> exists p r, p ∈ ps /\ holds w' p r /\ r_ID r = id).
Proof.
  intros Ht Hk. revert w Ht. induction ids as [|id ids IH]; intros w Ht Hall.
  - exists [], w. split; [done|]. split; [reflexivity|]. set_solver.
  - destruct (find_source_spec all id w t Ht Hk Hall) as (res & w1 & H1 & Hw1 & Hres).
    destruct (IH w1) as (ps & w2 & G1 & Hw2 & G2 & G3).
    { destruct Hw1 as (_ & -> & _). done. }
    { intros p Hp. destruct (Hall p Hp) as (r & ? & ?).
      exists r. split; [by eapply holds_reads | done]. }
    assert (Hrun : find_sources all (id :: ids) w =
                   (Ok (match res with Some p => p :: ps | None => ps end), w2)).
    { cbn [find_sources]. unfold mbind, handler_bind. by rewrite H1, G1. }
    eexists _, w2. split; [exact Hrun|]. split; [by transitivity w1|].
    destruct res as [p|].
    + destruct Hres as (r & Hh & Hid & Hr). apply (holds_reads _ _ _ _ Hw2) in Hh. split.
      * intros q [->|Hq]%elem_of_cons; [exists r; subst id; set_solver|].
        destruct (G2 q Hq) as (x & ? & ? & ?). exists x. set_solver.
      * intros i [->|Hi]%elem_of_cons Hsome; [exists p, r; set_solver|].
        destruct (G3 i Hi Hsome) as (q & x & ? & ? & ?). exists q, x. set_solver.
    + split.
      * intros q Hq. destruct (G2 q Hq) as (x & ? & ? & ?). exists x. set_solver.
      * intros i [->|Hi]%elem_of_cons Hsome; [by rewrite Hres in Hsome; destruct Hsome|].
        by apply G3.
Qed.

(** The latest synthetic full record: none is later. *)
Lemma later_true x y :
  later x y = true <->
  backupRecordSortTime x.2 < backupRecordSortTime y.2 \/
  (backupRecordSortTime x.2 = backupRecordSortTime y.2 /\ r_ID x.2 < r_ID y.2).
Proof. unfold later. by rewrite orb_true_iff, andb_true_iff, Z.eqb_eq, !Z.ltb_lt. Qed.

Lemma later_false x y :
  later x y = false <->
  backupRecordSortTime y.2 <= backupRecordSortTime x.2 /\
  (backupRecordSortTime x.2 = backupRecordSortTime y.2 -> r_ID y.2 <= r_ID x.2).
Proof. rewrite <- not_true_iff_false, later_true. lia. Qed.

Definition is_latest_synthetic (rs : list DatabaseBackupRecord) (syn : DatabaseBackupRecord) : Prop :=
  syn ∈ rs /\ is_synthetic_full syn = true /\
  forall r, r ∈ rs -> is_synthetic_full r = true ->
    backupRecordSortTime r <= backupRecordSortTime syn /\
    (backupRecordSortTime syn = backupRecordSortTime r -> r_ID r <= r_ID syn).

Definition latest_step (latest : option (Z * DatabaseBackupRecord)) (r : Z * DatabaseBackupRecord) :=
  if negb (is_synthetic_full r.2) then latest
  else match latest with
       | None => Some r
       | Some l => if later l r then Some r else latest
       end.

Lemma latest_loop l acc :
  match foldl latest_step acc l with
  | None => acc = None
  | Some x =>
    (acc = Some x \/ x ∈ l /\ is_synthetic_full x.2 = true) /\
    (forall y, acc = Some y \/ (y ∈ l /\ is_synthetic_full y.2 = true) -> later x y = false)
  end.
Proof.
  revert acc. induction l as [|r l IH]; intros acc; simpl.
  - destruct acc as [x|]; [|done]. split; [by left|].
    intros y [[= ->]|[Hy _]]; [apply later_false; lia | by apply elem_of_nil in Hy].
  - specialize (IH (latest_step acc r)). destruct (foldl _ _ l) as [x|].
    + destruct IH as [H1 H2]. unfold latest_step in H1, H2.
      destruct (is_synthetic_full r.2) eqn:Hr; simpl in H1, H2.
      * assert (Hxr : later x r = false).
        { destruct acc as [y|]; [|by apply H2; left].
          destruct (later y r) eqn:Hl; [by apply H2; left|].
          assert (Hxy : later x y = false) by (apply H2; by left).
          apply later_false in Hl, Hxy. apply later_false. lia. }
        split.
        { destruct acc as [y|]; [destruct (later y r)|]; destruct H1 as [[= <-]|[? ?]]; set_solver. }
        intros y [->|[[->|Hy]%elem_of_cons Hs]]; [|done|by apply H2; right].
        destruct (later y r) eqn:Hl; [|by apply H2; left].
        apply later_true in Hl. apply later_false in Hxr. apply later_false. lia.
      * split; [set_solver|]. intros y [->|[[->|Hy]%elem_of_cons Hs]];
          [by apply H2; left | congruence | by apply H2; right].
    + unfold latest_step in IH. destruct (negb _); [done|]. destruct acc; [|done].
      by destruct (later _ _).
Qed.

Lemma latest_spec l x :
  latestSyntheticFullRecord l = Some x -> x ∈ l /\ is_latest_synthetic (l.*2) x.2.
Proof.
  intros Hx. pose proof (latest_loop l None) as H.
  change (foldl latest_step None l) with (latestSyntheticFullRecord l) in H. rewrite Hx in H.
  destruct H as [[?|[Hin Hs]] Hl]; [done|]. split; [done|]. split; [|split; [done|]].
  - by apply list_elem_of_fmap_2.
  - intros r (y & -> & Hy)%list_elem_of_fmap Hr. apply later_false, Hl. auto.
Qed.

(** ** What the input of a purge holds *)
Definition tracked (input : syntheticPurgeInput) : list Z :=
  in_Synthetic input :: in_SourceRecords input ++ in_AllRecords input.

Definition source_ids (syn : DatabaseBackupRecord) : list Z :=
  parseSyntheticSourceRecordIDs (r_SyntheticSourceRecordIDs syn).

Record built (t : gmap Z DatabaseBackupRecord) (id : Z) (input : syntheticPurgeInput)
    (syn : DatabaseBackupRecord) (w : purge_world) : Prop := {
  built_policy : pe_policy E id = Ok (in_Policy input);
  built_logs : in_LogArchives input = purge_logs E (in_Policy input);
  built_rule : in_Rule input = parseSyntheticRule (in_Policy input);
  built_now : in_Now input = pe_now E;
  built_rows : rows w = t;
  built_synthetic : heap w !! in_Synthetic input = Some syn;
  built_latest : is_latest_synthetic (successful_rows (p_ID (in_Policy input)) t) syn;
  built_all : (deref (heap w) (in_AllRecords input)).*2
              = successful_rows (p_ID (in_Policy input)) t;
  built_tracked : forall p, p ∈ tracked input ->
    exists r, heap w !! p = Some r /\ t !! r_ID r = Some r;
  built_sources : forall p, p ∈ in_SourceRecords input ->
    exists r, heap w !! p = Some r /\ r_ID r ∈ source_ids syn;
  built_every_source : forall i, i ∈ source_ids syn -> is_Some (t !! i) ->
    exists p r, p ∈ in_SourceRecords input /\ heap w !! p = Some r /\ r_ID r = i }.

Lemma Forall2_holds_in w ps l p :
  Forall2 (holds w) ps l -> p ∈ ps -> exists r, r ∈ l /\ holds w p r.
Proof.
  intros H Hp. apply list_elem_of_lookup in Hp as [i Hi].
  destruct (Forall2_lookup_l _ _ _ _ _ H Hi) as (r & Hr & Hh). exists r.
  split; [by eapply list_elem_of_lookup_2 | done].
Qed.

Lemma build_spec id w res w' :
  keyed (rows w) -> buildSyntheticPurgeInput E id w = (res, w') ->
  reads w w' /\ match res with
               | Ok input => exists syn, built (rows w) id input syn w'
               | Err _ => True
               end.
Proof.
  intros Hk Hrun. unfold buildSyntheticPurgeInput in Hrun.
  apply h_bind_inv in Hrun as [(policy & w1 & H1 & Hrun)|(e & H1 & ->)];
    [|injection H1 as _ <-; by split].
  assert (pe_policy E id = Ok policy /\ w1 = w) as [Hpol ->].
  { unfold h_lift in H1. destruct (pe_policy E id); naive_solver. }
  clear H1. destruct (ListSuccessful_spec (p_ID policy) w) as [[e H1]|(all & w1 & H1 & Hw1 & Hall)].
  { unfold mbind at 1, handler_bind in Hrun. rewrite H1 in Hrun. injection Hrun as <- <-. by split. }
  unfold mbind at 1, handler_bind in Hrun. rewrite H1 in Hrun. cbn beta iota in Hrun.
  unfold mbind at 1, handler_bind, h_get at 1 in Hrun. rewrite (deref_holds _ _ _ Hall) in Hrun.
  destruct (latestSyntheticFullRecord _) as [[p syn]|] eqn:Hlat;
    [|injection Hrun as <- <-; by split].
  apply latest_spec in Hlat as [Hin Hlat].
  pose proof (Forall2_length _ _ _ Hall) as Hlen.
  rewrite snd_zip in Hlat by lia. simpl in Hlat.
  assert (Hrow : forall q, q ∈ all -> exists r, holds w1 q r /\ rows w !! r_ID r = Some r).
  { intros q Hq. destruct (Forall2_holds_in _ _ _ _ Hall Hq) as (r & Hr & Hh).
    apply successful_rows_spec in Hr as (_ & [k Hr] & _). exists r. split; [done|].
    by rewrite (Hk k r). }
  destruct (find_sources_spec all (source_ids syn) w1 (rows w)) as (ps & w2 & G1 & Hw2 & G2 & G3);
    [by destruct Hw1 as (_ & ? & _) | done | done|].
  unfold mbind, handler_bind in Hrun. fold (source_ids syn) in Hrun. rewrite G1 in Hrun.
  injection Hrun as <- <-. split; [by transitivity w1|]. exists syn.
  assert (Hall2 : Forall2 (holds w2) all (successful_rows (p_ID policy) (rows w))).
  { eapply Forall2_impl; [exact Hall|]. intros. by eapply holds_reads. }
  rewrite <- (deref_holds _ _ _ Hall) in Hin.
  apply elem_of_deref in Hin as [Hp Hsyn].
  assert (Hsyn2 : heap w2 !! p = Some syn).
  { destruct (Hrow p Hp) as (r & [Hlt Hr] & _). destruct Hw2 as (_ & _ & _ & ->); [done | lia]. }
  split; cbn [in_Policy in_Synthetic in_SourceRecords in_AllRecords in_LogArchives in_Rule in_Now];
    try done.
  - destruct Hw2 as (_ & -> & _), Hw1 as (_ & -> & _). done.
  - rewrite (deref_holds _ _ _ Hall2), snd_zip; [done | lia].
  - unfold tracked. cbn. intros q [->|[Hq|Hq]%elem_of_app]%elem_of_cons.
    + destruct (Hrow p Hp) as (r & [_ Hr] & Ht). exists syn. by assert (r = syn) as <- by congruence.
    + destruct (G2 q Hq) as (r & [_ ?] & _ & ?). eauto.
    + destruct (Hrow q Hq) as (r & Hr & Ht). exists r. split; [|done].
      by apply (holds_reads _ _ _ _ Hw2) in Hr as [_ Hr].
  - intros q Hq. destruct (G2 q Hq) as (r & [_ ?] & ? & _). eauto.
  - intros i Hi Hs. destruct (G3 i Hi Hs) as (q & r & ? & [_ ?] & ?). eauto.
Qed.

Lemma built_tracks t id input syn w : built t id input syn w -> tracks eq t (tracked input) w.
Proof.
  intros Hb. split.
  - intros p Hp. destruct (built_tracked _ _ _ _ _ Hb p Hp) as (r & ? & ?). eauto.
  - intros k. rewrite (built_rows _ _ _ _ _ Hb). destruct (t !! k); by constructor.
Qed.

(** ** Marking the source records *)
Definition proof_given (rule : syntheticRuleConfig) (syn : DatabaseBackupRecord) : Prop :=
  NeverDeleteWithoutProof rule = true -> r_RestoreTestStatus syn = DatabaseBackupStatusSuccess.

Definition window_end (input : syntheticPurgeInput) : Z :=
  in_Now input + SupersededKeepDaysAfterProof (in_Rule input) * nanos_per_day.

Definition may_supersede (input : syntheticPurgeInput) (syn r0 : DatabaseBackupRecord) : Prop :=
  proof_given (in_Rule input) syn /\ MarkSupersededAfterProof (in_Rule input) = true /\
  r_ID r0 ∈ source_ids syn /\ r_ID r0 <> r_ID syn /\ r_Status r0 <> DatabaseBackupStatusExpired.

Definition reconciled (input : syntheticPurgeInput) (syn r0 r : DatabaseBackupRecord) : Prop :=
  r = r0 \/
  (may_supersede input syn r0 /\
   exists msg, r = mark_superseded r0 (r_ID syn) (window_end input) msg).

(** No object gets another number. *)
Definition same_ids (w w' : purge_world) : Prop :=
  forall q r', heap w' !! q = Some r' -> exists r, heap w !! q = Some r /\ r_ID r' = r_ID r.

Lemma same_ids_refl w : same_ids w w.
Proof. intros q r Hq. eauto. Qed.
#[local] Hint Resolve same_ids_refl : core.

Lemma reconcile_one_tracks input syn t ps w p res w' :
  (forall r r0, heap w !! p = Some r -> t !! r_ID r = Some r0 ->
     proof_given (in_Rule input) syn /\ MarkSupersededAfterProof (in_Rule input) = true /\
     r_ID r ∈ source_ids syn) ->
  p ∈ ps -> tracks (reconciled input syn) t ps w ->
  reconcile_one E (r_ID syn) (window_end input) p w = (res, w') ->
  tracks (reconciled input syn) t ps w' /\
  same_ids w w'.
Proof.
  intros Hsrc Hp Hw Hrun. destruct (proj1 Hw p Hp) as (r & r0 & Hr & Ht & HD).
  destruct (Hsrc r r0 Hr Ht) as (Hproof & Hmark & Hin).
  unfold reconcile_one in Hrun. unfold mbind at 1, handler_bind, h_get at 1 in Hrun.
  rewrite Hr in Hrun.
  destruct (_ || _) eqn:C1 in Hrun; [injection Hrun as _ <-; eauto|].
  destruct (_ && _) eqn:C2 in Hrun; [injection Hrun as _ <-; eauto|].
  assert (HD' : forall msg, reconciled input syn r0 (mark_superseded r (r_ID syn) (window_end input) msg)).
  { intros msg. right. destruct HD as [->|(Hm & m & ->)].
    - bsimpl. repeat split; eauto.
    - split; [done|]. exists msg. unfold mark_superseded. cbn.
      by destruct (r_PurgeEligibleAt r0). }
  split.
  - eapply store_update_tracks; [exact Hw | | | exact Hrun]; [exact Ht | apply HD'].
  - intros q r' Hq. revert Hrun. unfold store, mbind, handler_bind, backupRecord_Update.
    cbn [heap]. rewrite lookup_insert_eq. intros Hrun.
    assert (Hq' : <[p := mark_superseded r (r_ID syn) (window_end input) _]> (heap w) !! q = Some r')
      by (destruct (pe_update E _); injection Hrun as _ <-; exact Hq).
    destruct (decide (p = q)) as [->|Hn].
    + rewrite lookup_insert_eq in Hq'. injection Hq' as <-. by exists r.
    + rewrite lookup_insert_ne in Hq' by done. eauto.
Qed.

Lemma each_reconcile_tracks input syn t ps l w res w' :
  l ⊆ ps ->
  proof_given (in_Rule input) syn -> MarkSupersededAfterProof (in_Rule input) = true ->
  (forall p r, p ∈ l -> heap w !! p = Some r -> r_ID r ∈ source_ids syn) ->
  tracks (reconciled input syn) t ps w ->
  each (reconcile_one E (r_ID syn) (window_end input)) l w = (res, w') ->
  tracks (reconciled input syn) t ps w' /\
  same_ids w w'.
Proof.
  intros Hl Hproof Hmark. revert w. induction l as [|p l IH]; intros w Hsrc Hw Hrun.
  - injection Hrun as _ <-. eauto.
  - cbn [each] in Hrun.
    assert (Hone : forall res1 w1, reconcile_one E (r_ID syn) (window_end input) p w = (res1, w1) ->
      tracks (reconciled input syn) t ps w1 /\
      same_ids w w1).
    { intros res1 w1. apply reconcile_one_tracks; [|set_solver|done].
      intros r r0 Hr _. split; [done|]. split; [done|]. apply (Hsrc p); [set_solver|done]. }
    apply h_bind_inv in Hrun as [([] & w1 & H1 & Hrun)|(e & H1 & ->)]; [|by eapply Hone].
    destruct (Hone _ _ H1) as [Hw1 Hids]. apply IH in Hrun as [Hw' Hids']; [|set_solver| |done].
    + split; [done|]. intros q r' Hq. destruct (Hids' q r' Hq) as (r1 & Hr1 & ->). by apply Hids.
    + intros q r Hq Hr. destruct (Hids q r Hr) as (r2 & Hr2 & ->). apply (Hsrc q); set_solver.
Qed.

Lemma reconcile_tracks t id input syn w res w' :
  built t id input syn w -> reconcileSyntheticPurgeState E input w = (res, w') ->
  tracks (reconciled input syn) t (tracked input) w' /\ same_ids w w'.
Proof.
  intros Hb Hrun.
  assert (Hw : tracks (reconciled input syn) t (tracked input) w).
  { eapply tracks_mono; [|by eapply built_tracks]. intros ? ? ->. by left. }
  unfold reconcileSyntheticPurgeState in Hrun. unfold mbind at 1, handler_bind, h_get at 1 in Hrun.
  rewrite (built_synthetic _ _ _ _ _ Hb) in Hrun. cbv zeta in Hrun.
  destruct (_ && _) eqn:C1 in Hrun; [injection Hrun as _ <-; done|].
  destruct (negb _) eqn:C2 in Hrun; [injection Hrun as _ <-; done|].
  refine (each_reconcile_tracks input syn t _ _ _ _ _ _ _ _ _ Hw Hrun).
  - unfold tracked. set_solver.
  - intros Hn. rewrite Hn, andb_true_l in C1. by bsimpl.
  - by bsimpl.
  - intros p r Hp Hr. destruct (built_sources _ _ _ _ _ Hb p Hp) as (r' & ? & ?). congruence.
Qed.

(** ** What a purge asks for *)
Lemma if_nil {A} (b : bool) (x : list A) : (if b then [] else x) = [] -> x <> [] -> b = true.
Proof. by destruct b. Qed.
Lemma if_nil' {A} (b : bool) (x : list A) : (if b then x else []) = [] -> x <> [] -> b = false.
Proof. by destruct b. Qed.

Lemma lit_app_not_nil (s : string) t : lit s <> [] -> lit s ++ t <> [].
Proof. by destruct (lit s). Qed.

(** The reasons are texts, never empty ones. *)
Lemma global_blocks_texts input syn sources all :
  Forall (fun s => s <> []) (global_blocks input syn sources all).
Proof.
  unfold global_blocks. destruct (syntheticPurgeBinlogStatus _ _ _) as [status text].
  rewrite !Forall_app. repeat apply conj; try (case_match; repeat constructor).
  1-4: rewrite <- ?app_assoc; apply lit_app_not_nil; by vm_compute.
  - apply firstNonEmpty_not_nil, Exists_cons. right. apply Exists_cons. left.
    by apply not_blank_lit.
  - by vm_compute.
  - apply uniqueStrings_not_nil.
Qed.

Record clear_to_purge (input : syntheticPurgeInput) (syn : DatabaseBackupRecord)
    (sources all : list DatabaseBackupRecord) : Prop := {
  clear_success : r_Status syn = DatabaseBackupStatusSuccess;
  clear_artifact : r_ArtifactState syn <> DatabaseBackupArtifactStateMissing /\
                   r_ArtifactState syn <> DatabaseBackupArtifactStateChecksumFailed;
  clear_checksum : TrimSpace (r_ChecksumSHA256 syn) <> [];
  clear_proof : proof_given (in_Rule input) syn;
  clear_binlog : (syntheticPurgeBinlogStatus (in_Policy input) syn (in_LogArchives input)).1
                 = DatabaseLogChainStatusComplete;
  clear_parents : forall r, r ∈ all -> r_ID r <> r_ID syn ->
    r_Status r <> DatabaseBackupStatusExpired -> r_ID r ∉ r_ID <$> sources ->
    r_ParentRecordID r ∉ r_ID <$> sources }.

Lemma global_blocks_nil input syn sources all :
  global_blocks input syn sources all = [] -> clear_to_purge input syn sources all.
Proof.
  unfold global_blocks. pose proof (eq_refl
    (syntheticPurgeBinlogStatus (in_Policy input) syn (in_LogArchives input))) as Hb.
  revert Hb. generalize (syntheticPurgeBinlogStatus (in_Policy input) syn (in_LogArchives input)) at 2 3.
  intros [status text] Hb H.
  apply app_eq_nil in H as [H1 H]. apply app_eq_nil in H as [H2 H]. apply app_eq_nil in H as [H3 H].
  apply app_eq_nil in H as [H4 H]. apply app_eq_nil in H as [H5 H]. apply app_eq_nil in H as [_ H7].
  apply if_nil in H1; [|done]. apply if_nil' in H2; [|done]. apply if_nil' in H3; [|done].
  apply if_nil' in H4; [|done]. apply if_nil in H5; [|done]. bsimpl.
  apply one_of_false in H2.
  assert (H7' : List.filter (depends_on_source (r_ID syn) (r_ID <$> sources)) all = []).
  { apply uniqueStrings_nil in H7; [by apply map_eq_nil in H7|].
    apply Forall_fmap, Forall_true. intros r. by apply not_blank_app, not_blank_lit. }
  split; try done.
  - set_solver.
  - intros Hn. rewrite Hn, andb_true_l in H4. by bsimpl.
  - by rewrite Hb.
  - intros r Hr Hid Hst Hns Hp. apply list_elem_of_In in Hr.
    assert (Hin : r ∈ List.filter (depends_on_source (r_ID syn) (r_ID <$> sources)) all).
    { apply list_elem_of_In, List.filter_In. split; [done|]. unfold depends_on_source.
      rewrite !bool_decide_false by done. rewrite bool_decide_true by done.
      by rewrite (proj2 (Z.eqb_neq _ _) Hid). }
    rewrite H7' in Hin. by apply elem_of_nil in Hin.
Qed.

Record may_purge (syn r : DatabaseBackupRecord) (now : Z) : Prop := {
  purge_not_expired : r_Status r <> DatabaseBackupStatusExpired;
  purge_superseded : r_SupersededByRecordID r = r_ID syn;
  purge_unprotected : forall t, r_ProtectedUntil r = Some t -> t <= now;
  purge_eligible : exists t, r_PurgeEligibleAt r = Some t /\ t <= now }.

Lemma block_reason_nil r syn now blocked :
  Forall (fun s => s <> []) blocked ->
  firstRecordPurgeBlockReason r syn now blocked = [] -> blocked = [] /\ may_purge syn r now.
Proof.
  unfold firstRecordPurgeBlockReason. intros Hb H.
  destruct (bool_decide _) eqn:C1 in H; [by vm_compute in H|].
  destruct blocked as [|reason blocked]; [|by inversion Hb].
  destruct (negb _) eqn:C2 in H; [by vm_compute in H|].
  destruct (_ <? _) eqn:C3 in H; [by apply lit_app_not_nil in H; [|vm_compute]|].
  destruct (r_PurgeEligibleAt r) as [t|] eqn:Ht; [|by vm_compute in H].
  destruct (_ <? _) eqn:C4 in H; [by apply lit_app_not_nil in H; [|vm_compute]|].
  bsimpl. split; [done|]. split; [done..| |eauto]. intros u Hu. by rewrite Hu in C3.
Qed.

(** ** Expiring *)
Definition purged (input : syntheticPurgeInput) (syn : DatabaseBackupRecord) (S : Z -> Prop)
    (r0 r : DatabaseBackupRecord) : Prop :=
  reconciled input syn r0 r \/
  (S (r_ID r0) /\ exists r', reconciled input syn r0 r' /\ r = mark_expired r' (r_ID syn)).

Lemma reconciled_id input syn r0 r : reconciled input syn r0 r -> r_ID r = r_ID r0.
Proof. by intros [->|(_ & msg & ->)]. Qed.

Lemma purged_id input syn S r0 r : purged input syn S r0 r -> r_ID r = r_ID r0.
Proof. intros [H|(_ & r' & H & ->)]; by apply reconciled_id in H. Qed.

Lemma purged_mono input syn (S S' : Z -> Prop) r0 r :
  (forall k, S k -> S' k) -> purged input syn S r0 r -> purged input syn S' r0 r.
Proof. intros HS [?|[? ?]]; [by left | right; auto]. Qed.

Lemma expire_one_tracks input syn S t ps w sources id res w' :
  sources ⊆ ps -> tracks (purged input syn S) t ps w ->
  expire_one E (r_ID syn) sources id w = (res, w') ->
  tracks (purged input syn (fun k => S k \/ k = id)) t ps w'.
Proof.
  intros Hps Hw Hrun.
  assert (Hw2 : tracks (purged input syn (fun k => S k \/ k = id)) t ps w).
  { eapply tracks_mono; [|exact Hw]. intros r0 r. apply purged_mono. auto. }
  unfold expire_one in Hrun. unfold mbind at 1, handler_bind, h_get at 1 in Hrun.
  destruct (List.find _ _) as [[p r]|] eqn:Hf; [|by injection Hrun as _ <-].
  apply List.find_some in Hf as [Hf Hid]. simpl in Hid. bsimpl.
  apply list_elem_of_In, elem_of_deref in Hf as [Hp Hr].
  destruct (proj1 Hw p) as (r' & r0 & Hr' & Ht & HD); [set_solver|].
  assert (r' = r) as -> by congruence. pose proof (purged_id _ _ _ _ _ HD) as Hid0.
  assert (HD' : purged input syn (fun k => S k \/ k = id) r0 (mark_expired r (r_ID syn))).
  { right. split; [right; congruence|]. destruct HD as [HD|(_ & r1 & HD & ->)]; [eauto|].
    by exists r1. }
  assert (Hsu : forall res1 w1, (store p (mark_expired r (r_ID syn));; backupRecord_Update E p) w = (res1, w1) ->
    tracks (purged input syn (fun k => S k \/ k = id)) t ps w1).
  { intros res1 w1 H1. eapply store_update_tracks; [exact Hw2 | | | exact H1]; [exact Ht | exact HD']. }
  unfold store, mbind, handler_bind, h_map_err in Hrun, Hsu.
  destruct (backupRecord_Update E p _) as [[[]|e] w1]; injection Hrun as <- <-; by eapply Hsu.
Qed.

Lemma expire_all_tracks input syn S t ps w sources ids res w' :
  sources ⊆ ps -> tracks (purged input syn S) t ps w ->
  expire_all E (r_ID syn) sources ids w = (res, w') ->
  tracks (purged input syn (fun k => S k \/ k ∈ ids)) t ps w'.
Proof.
  intros Hps. revert S w. revert res. induction ids as [|id ids IH]; intros res S w Hw Hrun.
  - injection Hrun as _ <-. eapply tracks_mono; [|exact Hw]. intros r0 r. apply purged_mono. auto.
  - cbn [expire_all] in Hrun. apply h_bind_inv in Hrun as [(x & w1 & H1 & Hrun)|(e & H1 & ->)].
    + apply expire_one_tracks with (input := input) (S := S) (t := t) (ps := ps) in H1; [|done..].
      apply h_bind_inv in Hrun as [(xs & w2 & H2 & Hrun)|(e & H2 & ->)].
      * injection Hrun as _ <-. apply IH with (S := fun k => S k \/ k = id) in H2; [|done].
        eapply tracks_mono; [|exact H2]. intros r0 r. apply purged_mono. set_solver.
      * apply IH with (S := fun k => S k \/ k = id) in H2; [|done].
        eapply tracks_mono; [|exact H2]. intros r0 r. apply purged_mono. set_solver.
    + apply expire_one_tracks with (input := input) (S := S) (t := t) (ps := ps) in H1; [|done..].
      eapply tracks_mono; [|exact H1]. intros r0 r. apply purged_mono. set_solver.
Qed.

(** A record that is found is expired in the table from then on. *)
Definition expired_row (w : purge_world) (k : Z) : Prop :=
  exists r, rows w !! k = Some r /\ r_Status r = DatabaseBackupStatusExpired.

Lemma expire_one_rows sid sources id w res w' :
  expire_one E sid sources id w = (res, w') ->
  (forall k, expired_row w k -> expired_row w' k) /\
  (match res with
   | Ok None => w' = w
   | Ok (Some x) => x = id /\ expired_row w' id
   | Err _ => True
   end) /\
  (res = Ok None -> id ∉ r_ID <$> (deref (heap w) sources).*2).
Proof.
  intros Hrun. unfold expire_one in Hrun. unfold mbind at 1, handler_bind, h_get at 1 in Hrun.
  destruct (List.find _ _) as [[p r]|] eqn:Hf.
  - apply List.find_some in Hf as [_ Hid]. simpl in Hid. bsimpl.
    unfold store, mbind, handler_bind, h_map_err, backupRecord_Update in Hrun. cbn [heap] in Hrun.
    rewrite lookup_insert_eq in Hrun.
    destruct (pe_update E _); injection Hrun as <- <-.
    + split; [by intros|]. by split.
    + split; [|split; [split; [done|] | by intros]].
      * intros k (x & Hx & Hs). unfold expired_row. cbn [rows].
        destruct (decide (r_ID r = k)) as [<-|]; [eexists; by rewrite lookup_insert_eq|].
        exists x. by rewrite lookup_insert_ne.
      * eexists. cbn [rows]. rewrite <- Hid. by rewrite lookup_insert_eq.
  - injection Hrun as <- <-. split; [by intros|]. split; [done|]. intros _ Hin.
    apply list_elem_of_fmap in Hin as (r & -> & Hr).
    apply list_elem_of_fmap in Hr as (x & -> & Hx). apply list_elem_of_In in Hx.
    apply (List.find_none _ _ Hf) in Hx. bsimpl. done.
Qed.

Lemma expire_all_Ok input syn S t ps w sources ids xs w' :
  sources ⊆ ps -> tracks (purged input syn S) t ps w ->
  expire_all E (r_ID syn) sources ids w = (Ok xs, w') ->
  tracks (purged input syn (fun k => S k \/ k ∈ xs)) t ps w' /\
  (forall k, k ∈ xs \/ expired_row w k -> expired_row w' k) /\
  (forall id, head ids = Some id -> id ∈ r_ID <$> (deref (heap w) sources).*2 -> xs <> []).
Proof.
  intros Hps. revert S w xs. induction ids as [|id ids IH]; intros S w xs Hw Hrun.
  - injection Hrun as <- <-. split; [|split; [set_solver | done]].
    eapply tracks_mono; [|exact Hw]. intros r0 r. apply purged_mono. auto.
  - cbn [expire_all] in Hrun. apply h_bind_Ok in Hrun as (x & w1 & H1 & Hrun).
    apply h_bind_Ok in Hrun as (ys & w2 & H2 & Hrun). injection Hrun as <- <-.
    destruct (expire_one_rows _ _ _ _ _ _ H1) as (Hk & Hx & Hn).
    apply expire_one_tracks with (input := input) (S := S) (t := t) (ps := ps) in H1; [|done..].
    destruct x as [x|].
    + destruct Hx as [-> Hx]. apply IH with (S := fun k => S k \/ k = id) in H2 as (G1 & G2 & _); [|done].
      split; [eapply tracks_mono; [|exact G1]; intros r0 r; apply purged_mono; set_solver|].
      split; [|done]. intros k [[->|Hin]%elem_of_cons|He]; apply G2; auto.
    + subst w1. apply IH with (S := S) in H2 as (G1 & G2 & _); [|done].
      split; [done|]. split; [done|]. intros i [= ->] Hin. by destruct (Hn eq_refl).
Qed.

Lemma expire_all_subset sid sources ids w xs w' :
  expire_all E sid sources ids w = (Ok xs, w') -> xs ⊆ ids.
Proof.
  revert w xs. induction ids as [|id ids IH]; intros w xs Hrun; [by injection Hrun as <- _|].
  cbn [expire_all] in Hrun. apply h_bind_Ok in Hrun as (x & w1 & H1 & Hrun).
  apply h_bind_Ok in Hrun as (ys & w2 & H2 & Hrun). injection Hrun as <- <-.
  apply IH in H2. apply expire_one_rows in H1 as (_ & Hx & _).
  destruct x as [x|]; [destruct Hx as [-> _]|]; set_solver.
Qed.

Lemma eligible_found input h preview :
  buildSyntheticPurgePreview input h = Some preview ->
  forall k, k ∈ pp_EligibleRecordIDs preview -> k ∈ r_ID <$> (deref h (in_SourceRecords input)).*2.
Proof.
  unfold buildSyntheticPurgePreview. destruct (h !! _); [|done]. cbv zeta.
  destruct (syntheticPurgeBinlogStatus _ _ _). intros H%(inj Some) k Hk. subst preview.
  cbn [pp_EligibleRecordIDs] in Hk. apply list_elem_of_fmap in Hk as (r & -> & Hr).
  apply list_elem_of_In, filter_In in Hr as [Hr _]. apply list_elem_of_fmap. exists r.
  split; [done|]. by apply list_elem_of_In.
Qed.

(** ** A whole run *)
Definition same_backup (r0 r : DatabaseBackupRecord) : Prop :=
  r_ID r = r_ID r0 /\ r_StorageURI r = r_StorageURI r0 /\ r_FilePath r = r_FilePath r0 /\
  r_FileName r = r_FileName r0 /\ r_FileSize r = r_FileSize r0 /\
  r_ChecksumSHA256 r = r_ChecksumSHA256 r0 /\ r_ArtifactState r = r_ArtifactState r0 /\
  r_ParentRecordID r = r_ParentRecordID r0 /\ r_BaseRecordID r = r_BaseRecordID r0 /\
  r_ChainID r = r_ChainID r0 /\ r_ProtectedUntil r = r_ProtectedUntil r0.

Lemma purged_same input syn S r0 r : purged input syn S r0 r -> same_backup r0 r.
Proof. by intros [[->|(_ & msg & ->)]|(_ & r' & [->|(_ & msg & ->)] & ->)]. Qed.

(** The objects behind the preview, after the source records were marked. *)
Lemma reconciled_object t id input syn w0 w p r0 :
  built t id input syn w0 -> tracks (reconciled input syn) t (tracked input) w ->
  same_ids w0 w -> p ∈ tracked input -> heap w0 !! p = Some r0 ->
  exists r, heap w !! p = Some r /\ t !! r_ID r0 = Some r0 /\ reconciled input syn r0 r.
Proof.
  intros Hb [Hw _] Hids Hp Hr0. destruct (Hw p Hp) as (r & r1 & Hr & Ht & HD).
  destruct (built_tracked _ _ _ _ _ Hb p Hp) as (r0' & H0 & Ht0).
  destruct (Hids p r Hr) as (r0'' & H1 & Hid).
  assert (r0' = r0) as -> by congruence. assert (r0'' = r0) as -> by congruence.
  rewrite Hid, Ht0 in Ht. injection Ht as <-. eauto.
Qed.

Lemma reconciled_synthetic t id input syn w0 w :
  built t id input syn w0 -> tracks (reconciled input syn) t (tracked input) w ->
  same_ids w0 w -> heap w !! in_Synthetic input = Some syn.
Proof.
  intros Hb Hw Hids.
  destruct (reconciled_object t id input syn w0 w (in_Synthetic input) syn) as (r & Hr & _ & HD);
    [done..|apply elem_of_cons; by left|by eapply built_synthetic|].
  destruct HD as [->|((_ & _ & _ & ? & _) & _)]; done.
Qed.

(** What the preview lets go. *)
Lemma preview_eligible t id input syn w0 w preview k :
  built t id input syn w0 -> tracks (reconciled input syn) t (tracked input) w ->
  same_ids w0 w -> buildSyntheticPurgePreview input (heap w) = Some preview ->
  k ∈ pp_EligibleRecordIDs preview ->
  exists r r0, t !! k = Some r0 /\ k ∈ source_ids syn /\
    reconciled input syn r0 r /\ may_purge syn r (in_Now input) /\
    clear_to_purge input syn (deref (heap w) (in_SourceRecords input)).*2
      (deref (heap w) (in_AllRecords input)).*2.
Proof.
  intros Hb Hw Hids Hpre Hk. unfold buildSyntheticPurgePreview in Hpre.
  rewrite (reconciled_synthetic _ _ _ _ _ _ Hb Hw Hids) in Hpre. cbv zeta in Hpre.
  destruct (syntheticPurgeBinlogStatus _ _ _) as [status text].
  apply (inj Some) in Hpre. subst preview. cbn [pp_EligibleRecordIDs] in Hk.
  apply list_elem_of_fmap in Hk as (r & -> & Hr).
  apply list_elem_of_In, filter_In in Hr as [Hr He]. bsimpl.
  apply block_reason_nil in He as [Hg Hm]; [|apply global_blocks_texts].
  apply global_blocks_nil in Hg.
  apply list_elem_of_In, list_elem_of_fmap in Hr as ([p x] & -> & Hx).
  apply elem_of_deref in Hx as [Hp Hx]. simpl in *.
  destruct (Hids p x Hx) as (r0 & Hr0 & Hid).
  destruct (built_sources _ _ _ _ _ Hb p Hp) as (r0' & Hr0' & Hsrc).
  assert (r0' = r0) as -> by congruence.
  destruct (reconciled_object t id input syn w0 w p r0) as (r & Hr & Ht & HD);
    [done..|unfold tracked; set_solver|done|].
  assert (r = x) as -> by congruence. exists x, r0. rewrite Hid. auto.
Qed.

(** No successful record outside of the merge has a purged one as parent. *)
Lemma no_dependents t id input syn w0 w r k :
  keyed t -> built t id input syn w0 -> tracks (reconciled input syn) t (tracked input) w ->
  same_ids w0 w ->
  clear_to_purge input syn (deref (heap w) (in_SourceRecords input)).*2
    (deref (heap w) (in_AllRecords input)).*2 ->
  k ∈ source_ids syn -> is_Some (t !! k) ->
  r ∈ successful_rows (p_ID (in_Policy input)) t -> r_ID r <> r_ID syn ->
  r_ID r ∉ source_ids syn -> r_ParentRecordID r <> k.
Proof.
  intros Hkeys Hb Hw Hids Hc Hk Hrow Hr Hsyn Hsrc Hpar.
  pose proof Hr as Hsucc. apply successful_rows_spec in Hsucc as (_ & _ & Hsucc).
  unfold is_listed in Hsucc. bsimpl.
  rewrite <- (built_all _ _ _ _ _ Hb) in Hr.
  apply list_elem_of_fmap in Hr as ([p x] & -> & Hx). apply elem_of_deref in Hx as [Hp Hx].
  simpl in *.
  destruct (reconciled_object t id input syn w0 w p x) as (y & Hy & Ht & HD);
    [done..|unfold tracked; set_solver|done|].
  assert (y = x) as -> by (destruct HD as [->|((_ & _ & ? & _) & _)]; done).
  apply (clear_parents _ _ _ _ Hc x); [| done | | |].
  - apply list_elem_of_fmap. exists (p, x). split; [done|]. by apply elem_of_deref.
  - match goal with H : r_Status x = _ |- _ => rewrite H end. by vm_compute.
  - intros Hin. apply list_elem_of_fmap in Hin as (y & Hyid & Hin).
    apply list_elem_of_fmap in Hin as ([q z] & -> & Hz). apply elem_of_deref in Hz as [Hq Hz].
    destruct (Hids q z Hz) as (z0 & Hz0 & Hzid).
    destruct (built_sources _ _ _ _ _ Hb q Hq) as (z1 & Hz1 & Hzs).
    apply Hsrc. simpl in Hyid. rewrite Hyid, Hzid. congruence.
  - rewrite Hpar. destruct (built_every_source _ _ _ _ _ Hb k Hk Hrow) as (q & z0 & Hq & Hz0 & Hzk).
    destruct (reconciled_object t id input syn w0 w q z0) as (z & Hz & _ & HD');
      [done..|unfold tracked; set_solver|done|].
    apply reconciled_id in HD'. apply list_elem_of_fmap. exists z. split; [congruence|].
    apply list_elem_of_fmap. exists (q, z). split; [done|]. by apply elem_of_deref.
Qed.

(** Everything the purge of record [k] rests on. *)
Record purge_case (t : gmap Z DatabaseBackupRecord) (policy : DatabaseBackupPolicyConfig)
    (syn : DatabaseBackupRecord) (k : Z) (r0 : DatabaseBackupRecord) : Prop := {
  case_latest : is_latest_synthetic (successful_rows (p_ID policy) t) syn;
  case_source : k ∈ source_ids syn;
  case_artifact : r_ArtifactState syn <> DatabaseBackupArtifactStateMissing /\
                  r_ArtifactState syn <> DatabaseBackupArtifactStateChecksumFailed /\
                  TrimSpace (r_ChecksumSHA256 syn) <> [];
  case_proof : proof_given (parseSyntheticRule policy) syn;
  case_binlog : (syntheticPurgeBinlogStatus policy syn (purge_logs E policy)).1
                = DatabaseLogChainStatusComplete;
  case_superseded : r_SupersededByRecordID r0 = r_ID syn \/
                    MarkSupersededAfterProof (parseSyntheticRule policy) = true;
  case_window : default (pe_now E + SupersededKeepDaysAfterProof (parseSyntheticRule policy)
                         * nanos_per_day) (r_PurgeEligibleAt r0) <= pe_now E;
  case_unprotected : forall u, r_ProtectedUntil r0 = Some u -> u <= pe_now E;
  case_status : r_Status r0 <> DatabaseBackupStatusExpired;
  case_dependents : forall r, r ∈ successful_rows (p_ID policy) t -> r_ID r <> r_ID syn ->
    r_ID r ∉ source_ids syn -> r_ParentRecordID r <> k }.

Lemma eligible_case t id input syn w0 w preview k r0 :
  keyed t -> built t id input syn w0 -> tracks (reconciled input syn) t (tracked input) w ->
  same_ids w0 w -> buildSyntheticPurgePreview input (heap w) = Some preview ->
  k ∈ pp_EligibleRecordIDs preview -> t !! k = Some r0 ->
  purge_case t (in_Policy input) syn k r0.
Proof.
  intros Hkeys Hb Hw Hids Hpre Hk Ht.
  destruct (preview_eligible _ _ _ _ _ _ _ _ Hb Hw Hids Hpre Hk)
    as (r & r0' & Ht' & Hsrc & HD & Hm & Hc).
  assert (r0' = r0) as -> by congruence.
  pose proof (built_rule _ _ _ _ _ Hb) as Hrule. pose proof (built_now _ _ _ _ _ Hb) as Hnow.
  destruct (purge_eligible _ _ _ Hm) as (u & Hu & Hle). split.
  - by eapply built_latest.
  - done.
  - destruct (clear_artifact _ _ _ _ Hc). auto using clear_checksum.
    repeat split; try done. by eapply clear_checksum.
  - rewrite <- Hrule. by eapply clear_proof.
  - rewrite <- (built_logs _ _ _ _ _ Hb). by eapply clear_binlog.
  - rewrite <- Hrule. pose proof (purge_superseded _ _ _ Hm).
    destruct HD as [->|((_ & ? & _) & _)]; auto.
  - rewrite <- Hrule, <- Hnow. destruct HD as [->|(_ & msg & ->)]; [by rewrite Hu|].
    cbn in Hu. injection Hu as <-. exact Hle.
  - rewrite <- Hnow. intros v Hv. apply (purge_unprotected _ _ _ Hm).
    destruct HD as [->|(_ & msg & ->)]; done.
  - pose proof (purge_not_expired _ _ _ Hm). destruct HD as [->|(_ & msg & ->)]; done.
  - intros r'. eapply (no_dependents t id input syn w0 w); done || by eexists.
Qed.

(** How a run ends: before anything is expired, or after the expiry began. *)
Lemma run_cases id w res w' :
  keyed (rows w) -> RunBackupPolicyPurge E id w = (res, w') ->
  (exists e, res = Err e /\ rows w' = rows w) \/
  exists input syn w0, built (rows w) id input syn w0 /\
    ((exists e, res = Err e /\ tracks (reconciled input syn) (rows w) (tracked input) w') \/
     exists preview w1 out w2,
       tracks (reconciled input syn) (rows w) (tracked input) w1 /\ same_ids w0 w1 /\
       buildSyntheticPurgePreview input (heap w1) = Some preview /\
       pp_EligibleRecordIDs preview <> [] /\
       expire_all E (r_ID syn) (in_SourceRecords input) (pp_EligibleRecordIDs preview) w1 = (out, w2) /\
       rows w' = rows w2 /\
       match out with
       | Ok xs => exists vo, res = Ok vo /\ pr_PurgedRecordIDs vo = xs /\
                             pr_SyntheticRecordID vo = r_ID syn
       | Err e => res = Err e
       end).
Proof.
  intros Hk Hrun. unfold RunBackupPolicyPurge in Hrun.
  apply h_bind_inv in Hrun as [(input & w0 & H1 & Hrun)|(e & H1 & ->)];
    apply build_spec in H1 as [(_ & Hrows & _) H1]; [|done|left; eauto|done].
  destruct H1 as [syn Hb]. right. exists input, syn, w0. split; [done|].
  apply h_bind_inv in Hrun as [([] & w1 & H2 & Hrun)|(e & H2 & ->)];
    destruct (reconcile_tracks _ _ _ _ _ _ _ Hb H2) as [Hw1 Hids]; [|left; eauto].
  unfold mbind at 1, handler_bind, h_get at 1 in Hrun.
  destruct (buildSyntheticPurgePreview input (heap w1)) as [preview|] eqn:Hpre;
    [|injection Hrun as <- <-; left; eauto].
  assert (Hid : pp_SyntheticRecordID preview = r_ID syn).
  { unfold buildSyntheticPurgePreview in Hpre.
    rewrite (reconciled_synthetic _ _ _ _ _ _ Hb Hw1 Hids) in Hpre. cbv zeta in Hpre.
    destruct (syntheticPurgeBinlogStatus _ _ _). apply (inj Some) in Hpre. by subst preview. }
  destruct (pp_BlockingReasons preview) as [|reason reasons];
    [|injection Hrun as <- <-; left; eauto].
  destruct (pp_EligibleRecordIDs preview) as [|k ks] eqn:Hel;
    [injection Hrun as <- <-; left; eauto|].
  right. rewrite Hid in Hrun. apply h_bind_inv in Hrun as [(xs & w2 & H3 & Hrun)|(e & H3 & ->)].
  - exists preview, w1, (Ok xs), w2. cbv zeta in Hrun. rewrite Hel.
    unfold save_policy, mbind, handler_bind, mret, handler_ret in Hrun.
    apply pair_eq in Hrun as [<- <-]. repeat (split; [done|]). eexists. repeat split.
  - exists preview, w1, (Err e), w'. by rewrite Hel.
Qed.

Lemma reconciled_status input syn r0 r : reconciled input syn r0 r -> r_Status r = r_Status r0.
Proof. by intros [->|(_ & msg & ->)]. Qed.

Lemma tracks_row D t ps w k r0 :
  tracks D t ps w -> t !! k = Some r0 -> exists r, rows w !! k = Some r /\ D r0 r.
Proof. intros [_ Hr] Ht. specialize (Hr k). rewrite Ht in Hr. inversion Hr; subst. eauto. Qed.

(** C11: Whatever the purge of a policy returns, and whichever save fails on the
    way, every backup row is still there with its artifact, checksum and place
    in the chain, and its status is the old one unless the row was expired. A
    row that was expired is a source of the latest synthetic full backup, that
    backup is present and has a checksum and, if the rule asks for it, a
    restore proof, the binlog behind it is complete, the row was marked as
    superseded by it, its window has passed and its protection is over, and no
    successful record outside of the merge is an increment on it. *)
Theorem purge_only_proven id w res w' k r0 :
  keyed (rows w) -> RunBackupPolicyPurge E id w = (res, w') -> rows w !! k = Some r0 ->
  exists r1, rows w' !! k = Some r1 /\ same_backup r0 r1 /\
    (r_Status r1 = r_Status r0 \/
     (r_Status r1 = DatabaseBackupStatusExpired /\
      exists policy syn, pe_policy E id = Ok policy /\ purge_case (rows w) policy syn k r0)).
Proof.
  intros Hkeys Hrun Hr0. pose proof (Hkeys _ _ Hr0) as Hid.
  destruct (run_cases _ _ _ _ Hkeys Hrun) as [(e & _ & ->)|(input & syn & w0 & Hb & Hc)].
  { exists r0. repeat split; auto. }
  destruct Hc as [(e & _ & Hw)|(preview & w1 & out & w2 & Hw1 & Hids & Hpre & _ & Hex & -> & _)].
  - destruct (tracks_row _ _ _ _ _ _ Hw Hr0) as (r1 & Hr1 & HD). exists r1. split; [done|].
    split; [by apply (purged_same input syn (fun _ => False)); left|].
    left. by eapply reconciled_status.
  - apply (expire_all_tracks input syn (fun _ => False) (rows w) (tracked input)) in Hex;
      [|unfold tracked; set_solver|eapply tracks_mono; [|exact Hw1]; by left].
    destruct (tracks_row _ _ _ _ _ _ Hex Hr0) as (r1 & Hr1 & HD). exists r1. split; [done|].
    split; [by eapply purged_same|]. destruct HD as [HD|([[]|Hel] & r' & _ & ->)];
      [left; by eapply reconciled_status|].
    right. split; [done|]. exists (in_Policy input), syn. split; [by eapply built_policy|].
    rewrite Hid in Hel. by eapply eligible_case.
Qed.

(** A purge that succeeds purges something, and reports exactly what it
    purged: the rows it names are expired, every other row keeps its status. *)
Theorem purge_reports id w vo w' :
  keyed (rows w) -> RunBackupPolicyPurge E id w = (Ok vo, w') ->
  pr_PurgedRecordIDs vo <> [] /\
  forall k r0, rows w !! k = Some r0 -> exists r1, rows w' !! k = Some r1 /\
    (k ∈ pr_PurgedRecordIDs vo -> r_Status r1 = DatabaseBackupStatusExpired /\
                                  r_Status r0 <> DatabaseBackupStatusExpired) /\
    (k ∉ pr_PurgedRecordIDs vo -> r_Status r1 = r_Status r0).
Proof.
  intros Hkeys Hrun.
  destruct (run_cases _ _ _ _ Hkeys Hrun) as [(e & ? & _)|(input & syn & w0 & Hb & Hc)]; [done|].
  destruct Hc as [(e & ? & _)|(preview & w1 & out & w2 & Hw1 & Hids & Hpre & Hne & Hex & Hrows & Hout)];
    [done|].
  destruct out as [xs|e]; [|done]. destruct Hout as (vo' & [= <-] & Hxs & _). rewrite Hxs, Hrows.
  pose proof (expire_all_subset _ _ _ _ _ _ Hex) as Hsub.
  apply (expire_all_Ok input syn (fun _ => False) (rows w) (tracked input)) in Hex as (G1 & G2 & G3);
    [|unfold tracked; set_solver|eapply tracks_mono; [|exact Hw1]; by left].
  split.
  - destruct (pp_EligibleRecordIDs preview) as [|k ks] eqn:Hel; [done|].
    apply (G3 k); [done|]. apply (eligible_found input (heap w1) preview); [done|]. rewrite Hel. set_solver.
  - intros k r0 Hr0. pose proof (Hkeys _ _ Hr0) as Hid.
    destruct (tracks_row _ _ _ _ _ _ G1 Hr0) as (r1 & Hr1 & HD). exists r1. split; [done|]. split.
    + intros Hin. split.
      * destruct (G2 k) as (r1' & Hr1' & ?); [by left|]. congruence.
      * apply Hsub in Hin. eapply case_status. by eapply eligible_case.
    + intros Hn. destruct HD as [HD|([[]|Hin] & _)]; [by eapply reconciled_status|].
      by rewrite Hid in Hin.
Qed.


(** ** The binlog behind the synthetic record *)
Definition linked (a b : DatabaseLogArchive) : Prop :=
  (TrimSpace (la_NextFileName a) = [] \/ la_NextFileName a = la_FileName b) /\
  (TrimSpace (la_PreviousFileName b) = [] \/ la_PreviousFileName b = la_FileName a).

Fixpoint links (prev : option DatabaseLogArchive) (logs : list DatabaseLogArchive) : Prop :=
  match logs with
  | [] => True
  | b :: logs' => match prev with Some a => linked a b | None => True end /\ links (Some b) logs'
  end.

Lemma links_consecutive logs i a b :
  links None logs -> logs !! i = Some a -> logs !! (S i) = Some b -> linked a b.
Proof.
  assert (H : forall q, links q logs -> logs !! i = Some a -> logs !! (S i) = Some b -> linked a b);
    [|by apply H].
  revert i. induction logs as [|x logs IH]; intros i q Hl Ha Hb; [done|]. destruct Hl as [_ Hl].
  destruct i as [|i]; [|by eapply (IH i)]. injection Ha as ->.
  destruct logs as [|y logs]; [done|]. injection Hb as ->. by destruct Hl.
Qed.

Definition gtid_known (item : DatabaseLogArchive) : Prop :=
  TrimSpace (la_StartGTIDSet item) <> [] \/ TrimSpace (la_EndGTIDSet item) <> [].

Lemma gtid_test (gtid : bool) item :
  gtid && bool_decide (TrimSpace (la_StartGTIDSet item) = []) &&
  bool_decide (TrimSpace (la_EndGTIDSet item) = []) = false ->
  gtid = true -> gtid_known item.
Proof.
  intros H ->. rewrite !andb_false_iff, !bool_decide_eq_false in H.
  destruct H as [[?|?]|?]; [done | by left | by right].
Qed.

Lemma differ_false (s t : gostring) :
  negb (bool_decide (TrimSpace s = [])) && negb (bool_decide (s = t)) = false <->
  TrimSpace s = [] \/ s = t.
Proof. by rewrite andb_false_iff, !negb_false_iff, !bool_decide_eq_true. Qed.

Lemma link_break_None a b : link_break a b = None <-> linked a b.
Proof.
  unfold link_break, linked. rewrite <- !differ_false.
  destruct (_ && _); [split; [done | by intros [? _]]|].
  destruct (_ && _); [split; [done | by intros [_ ?]] | done].
Qed.

Definition is_start (base : DatabaseBackupRecord) (item : DatabaseLogArchive) : Prop :=
  la_FileName item = r_BackupBinlogFile base \/ la_PreviousFileName item = r_BackupBinlogFile base.

Lemma missing_not_complete : DatabaseLogChainStatusMissingBinlog <> DatabaseLogChainStatusComplete.
Proof. by vm_compute. Qed.
Lemma gtid_gap_not_complete : DatabaseLogChainStatusGTIDGap <> DatabaseLogChainStatusComplete.
Proof. by vm_compute. Qed.
Lemma time_gap_not_complete : DatabaseLogChainStatusTimeRangeGap <> DatabaseLogChainStatusComplete.
Proof. by vm_compute. Qed.

Lemma iff_false (P Q : Prop) : ~ P -> ~ Q -> P <-> Q.
Proof. tauto. Qed.

(** What the loop says of a list of logs. *)
Lemma binlog_loop_spec base gtid found prev logs :
  match binlog_loop base gtid found prev logs with
  | inr b => links prev logs /\ (gtid = true -> Forall gtid_known logs) /\
             (b = true <-> found = true \/ Exists (is_start base) logs)
  | inl (status, _) => status <> DatabaseLogChainStatusComplete /\
                       ~ (links prev logs /\ (gtid = true -> Forall gtid_known logs))
  end.
Proof.
  revert found prev. induction logs as [|item logs IH]; intros found prev.
  - simpl. rewrite Exists_nil. naive_solver.
  - cbn [binlog_loop links]. set (found' := found || _ || _).
    assert (Hf : found' = true <-> found = true \/ is_start base item).
    { unfold found', is_start. rewrite !orb_true_iff, !bool_decide_eq_true. tauto. }
    assert (Hp : match prev ≫= (fun prev => link_break prev item) with
                 | Some _ => ~ match prev with Some a => linked a item | None => True end
                 | None => match prev with Some a => linked a item | None => True end
                 end).
    { destruct prev as [a|]; [simpl|done]. pose proof (link_break_None a item).
      destruct (link_break a item); naive_solver. }
    destruct (_ ≫= _) as [message|]; [split; [apply missing_not_complete | tauto]|].
    destruct (_ && _) eqn:G.
    + split; [apply gtid_gap_not_complete|]. intros (_ & Hg). bsimpl. subst gtid.
      specialize (Hg eq_refl). apply Forall_cons in Hg as [[?|?] _]; done.
    + pose proof (gtid_test _ _ G). specialize (IH found' (Some item)).
      destruct (binlog_loop _ _ _ _ _) as [[status text]|b] in IH |- *;
        rewrite Forall_cons, ?Exists_cons; tauto.
Qed.

Definition uses_gtid (base : DatabaseBackupRecord) : bool :=
  EqualFold (TrimSpace (r_GTIDMode base)) $"ON" || Contains (ToLower (r_GTIDMode base)) $"mariadb" ||
  negb (bool_decide (TrimSpace (r_BackupGTIDSet base) = [])).

Lemma validate_complete_iff base logs :
  (validateMySQLRestoreLogMetadata base logs).1 = DatabaseLogChainStatusComplete <->
  (TrimSpace (r_BackupBinlogFile base) <> [] \/ TrimSpace (r_BackupGTIDSet base) <> []) /\
  (uses_gtid base = true ->
     TrimSpace (r_BackupGTIDSet base) <> [] \/ TrimSpace (r_ExecutedGTIDSet base) <> []) /\
  logs <> [] /\
  (TrimSpace (r_BackupBinlogFile base) <> [] ->
     Exists (is_start base) logs /\ links None logs /\
     (uses_gtid base = true -> Forall gtid_known logs)).
Proof.
  unfold validateMySQLRestoreLogMetadata. fold (uses_gtid base). cbv zeta.
  generalize (uses_gtid base) as gtid. intros gtid.
  destruct (_ && _) eqn:C1; [apply iff_false; [apply missing_not_complete | bsimpl; naive_solver]|].
  destruct (gtid && _ && _) eqn:C2; [apply iff_false; [apply gtid_gap_not_complete | bsimpl; naive_solver]|].
  apply andb_false_iff in C1. rewrite !bool_decide_eq_false in C1.
  assert (H2 : gtid = true -> TrimSpace (r_BackupGTIDSet base) <> [] \/
                              TrimSpace (r_ExecutedGTIDSet base) <> []).
  { intros ->. rewrite !andb_false_iff, !bool_decide_eq_false in C2. naive_solver. }
  destruct logs as [|item logs]; [apply iff_false; [apply missing_not_complete | tauto]|].
  assert (Hne : item :: logs <> []) by done. revert Hne. generalize (item :: logs) as l.
  clear item logs C2. intros logs Hne.
  pose proof (binlog_loop_spec base gtid false None logs) as Hl.
  destruct (bool_decide _) eqn:C3 in |- *; bsimpl; [cbn [fst]; tauto|].
  destruct (binlog_loop _ _ _ _ _) as [[status text]|found] in Hl |- *; cbn [fst]; [tauto|].
  destruct found; cbn [fst].
  - split; [intros _ | done]. assert (Exists (is_start base) logs) by (destruct Hl; naive_solver).
    tauto.
  - apply iff_false; [apply missing_not_complete|]. destruct Hl as (_ & _ & Hl).
    intros (_ & _ & _ & H). destruct (H C3) as [Hx _]. by specialize (proj2 Hl (or_intror Hx)).
Qed.

(** The binlog behind a synthetic full backup counts as complete exactly
    when a stream is bound, no archived log is missing or damaged, the backup
    knows where it starts (a GTID set when GTIDs are on), and, if it starts at
    a file, that file or its successor is archived, no log contradicts its
    neighbour on the file between them, and under GTIDs every log has a set. *)
Theorem binlog_complete_iff policy base logs :
  (syntheticPurgeBinlogStatus policy base logs).1 = DatabaseLogChainStatusComplete <->
  p_BinlogStreamID policy <> 0 /\ Forall (fun item => bad_archive item = false) logs /\
  (TrimSpace (r_BackupBinlogFile base) <> [] \/ TrimSpace (r_BackupGTIDSet base) <> []) /\
  (uses_gtid base = true ->
     TrimSpace (r_BackupGTIDSet base) <> [] \/ TrimSpace (r_ExecutedGTIDSet base) <> []) /\
  logs <> [] /\
  (TrimSpace (r_BackupBinlogFile base) <> [] ->
     Exists (is_start base) logs /\ links None logs /\
     (uses_gtid base = true -> Forall gtid_known logs)).
Proof.
  unfold syntheticPurgeBinlogStatus.
  destruct (_ =? 0) eqn:C0; bsimpl; [apply iff_false; [apply missing_not_complete | tauto]|].
  destruct (List.find bad_archive logs) as [item|] eqn:Hf.
  - apply List.find_some in Hf as [Hin Hbad]. apply list_elem_of_In in Hin. apply iff_false.
    + destruct (one_of _ _); [apply missing_not_complete | apply time_gap_not_complete].
    + intros (_ & Hall & _). pose proof (proj1 (Forall_forall _ _) Hall item Hin). congruence.
  - assert (Hall : Forall (fun item => bad_archive item = false) logs).
    { apply Forall_forall. intros item Hin. apply (List.find_none _ _ Hf). by apply list_elem_of_In. }
    transitivity ((validateMySQLRestoreLogMetadata base logs).1 = DatabaseLogChainStatusComplete).
    + destruct (validateMySQLRestoreLogMetadata base logs) as [status text]. cbn [fst].
      by destruct (bool_decide _).
    + rewrite validate_complete_iff. tauto.
Qed.
End facts.

(** ** Record numbers as text *)
Lemma foldl_digits_wrap s acc :
  foldl (fun v c => (v * 10 + (c - 48)) mod 2 ^ 64) (acc mod 2 ^ 64) s
  = (foldl (fun v c => v * 10 + (c - 48)) acc s) mod 2 ^ 64.
Proof.
  revert acc. induction s as [|c s IH]; intros acc; cbn [foldl]; [done|].
  rewrite <- IH. f_equal. rewrite <- Z.add_mod_idemp_l, Z.mul_mod_idemp_l, Z.add_mod_idemp_l by done.
  done.
Qed.

(** A text of digits is read as its value modulo 2^64: exactly when it
    fits, and as a different number, not as an error, when it does not. *)
Theorem parse_uint_wraps s :
  s <> [] -> Forall is_ascii_digit s -> parseUintText s = Some (digits_value s mod 2 ^ 64).
Proof.
  intros Hne Hs. unfold parseUintText. cbv zeta. rewrite TrimSpace_digits by done.
  rewrite bool_decide_false by done.
  assert (Hd : forallb is_digit s = true).
  { apply forallb_forall. intros c Hc. apply list_elem_of_In in Hc.
    pose proof (proj1 (Forall_forall _ _) Hs c Hc) as H. unfold is_ascii_digit in H.
    unfold is_digit. rewrite andb_true_iff, !Z.leb_le. lia. }
  rewrite Hd. cbn [negb orb]. f_equal. exact (foldl_digits_wrap s 0).
Qed.

(** ** Examples *)
Definition sample_synthetic : DatabaseBackupRecord := {|
  r_ID := 4; r_CreatedAt := 50; r_PolicyID := 1; r_ChainID := $"c2";
  r_BaseRecordID := 4; r_ParentRecordID := 0; r_BackupMethod := $"physical";
  r_BackupLevel := $"full"; r_BackupEngine := $"xtrabackup"; r_SourceInstanceID := 9;
  r_StorageURI := $"runner://runner-host-4/data/s"; r_BackupOrigin := $"synthetic_full";
  r_CheckpointFromLSN := $"0"; r_CheckpointToLSN := $"300"; r_CheckpointLastLSN := $"300";
  r_ArtifactState := $"local"; r_SyntheticSourceRecordIDs := $"[1,2,3]";
  r_SupersededByRecordID := 0; r_PurgeEligibleAt := None; r_ProtectedUntil := None;
  r_Status := $"success"; r_FilePath := []; r_FileName := $"s"; r_FileSize := 300;
  r_ChecksumSHA256 := $"def"; r_VerifyStatus := []; r_VerifyMessage := [];
  r_RestoreTestStatus := $"success"; r_StartedAt := Some 50; r_FinishedAt := Some 60;
  r_RecoverableFrom := None; r_RecoverableUntil := Some 60; r_ErrorMessage := [];
  r_ServerUUID := $"u1"; r_GTIDMode := []; r_ExecutedGTIDSet := [];
  r_BackupBinlogFile := $"bin.01"; r_BackupBinlogPos := 4; r_BackupGTIDSet := [];
  r_details := no_details |}.

Definition sample_purge_env : purge_env := {|
  pe_policy id := if id =? 1 then Ok (sample_policy_config []) else Err $"record not found";
  pe_logs _ := [sample_log 1 $"bin.01"; sample_log 2 $"bin.02"];
  pe_list := None; pe_update _ := None; pe_now := 1000 |}.

Definition sample_purge_world : purge_world := {|
  heap := ∅; next_loc := 1; saved_policy := None;
  rows := list_to_map [
    (1, mark_superseded (sample_record 1 0 $"full" $"0" $"100") 4 100 []);
    (2, mark_superseded (sample_record 2 1 $"incremental" $"100" $"200") 4 100 []);
    (3, mark_superseded (sample_record 3 2 $"incremental" $"200" $"300") 4 2000 []);
    (4, sample_synthetic)] |}.

Definition sample_purge_run :=
  RunBackupPolicyPurge (U := sample_tables) (L := sample_lib) sample_purge_env 1 sample_purge_world.

Example sample_purge_ids :
  match sample_purge_run.1 with
  | Ok vo => Some (pr_PurgedRecordIDs vo, pr_SkippedRecordIDs vo)
  | Err _ => None
  end = Some ([1; 2], [3]).
Proof. vm_compute. reflexivity. Qed.

(** A source record that must still be kept loses its parent: only records
    outside of the merge are protected as dependents. *)
Example kept_source_loses_parent :
  match sample_purge_run with
  | (Ok _, w) => (fun r => (r_Status r, r_ParentRecordID r)) <$> rows w !! 3
                 = Some ($"success", 2) /\
                 r_Status <$> rows w !! 2 = Some $"expired"
  | _ => False
  end.
Proof. vm_compute. split; reflexivity. Qed.

(** Logs that do not name their neighbours pass with a file missing between
    them. *)
Example unnamed_gap_is_complete :
  (syntheticPurgeBinlogStatus (U := sample_tables) (sample_policy_config []) sample_synthetic
     [sample_log 1 $"bin.01"; sample_log 2 $"bin.09"]).1 = $"complete".
Proof. vm_compute. reflexivity. Qed.

Lemma sample_purge_keyed : keyed (rows sample_purge_world).
Proof.
  intros k r H. unfold sample_purge_world in H. cbn [rows list_to_map fmap] in H.
  simpl list_to_map in H.
  repeat (apply lookup_insert_Some in H as [[<- <-]|[_ H]]; [reflexivity|]).
  by apply lookup_empty_Some in H.
Qed.

Lemma purge_only_proven_witness :
  let U := sample_tables in let L := sample_lib in
  let w := sample_purge_world in
  let r0 := mark_superseded (sample_record 1 0 $"full" $"0" $"100") 4 100 [] in
  let w' := (RunBackupPolicyPurge sample_purge_env 1 w).2 in
  keyed (rows w) /\
  exists r1, rows w' !! 1 = Some r1 /\ same_backup r0 r1 /\
    (r_Status r1 = r_Status r0 \/
     (r_Status r1 = DatabaseBackupStatusExpired /\
      exists policy syn, pe_policy sample_purge_env 1 = Ok policy /\
        purge_case sample_purge_env (rows w) policy syn 1 r0)).
Proof.
  split; [exact sample_purge_keyed|].
  exact (purge_only_proven (U := sample_tables) (L := sample_lib) sample_purge_env 1
    sample_purge_world _ _ 1 _ sample_purge_keyed (surjective_pairing _) eq_refl).
Defined.

Lemma purge_reports_witness : exists vo w',
  sample_purge_run = (Ok vo, w') /\ pr_PurgedRecordIDs vo <> [] /\ expired_row w' 1.
Proof.
  pose proof sample_purge_ids as H.
  destruct sample_purge_run as [[vo|e] w'] eqn:Hrun; [|discriminate H].
  exists vo, w'. split; [reflexivity|].
  destruct (purge_reports (U := sample_tables) (L := sample_lib) sample_purge_env 1
    sample_purge_world vo w' sample_purge_keyed Hrun) as [Hne Hrows].
  split; [exact Hne|].
  destruct (Hrows 1 _ eq_refl) as (r1 & Hr1 & Hin & _). exists r1. split; [exact Hr1|].
  apply Hin. cbn [fst] in H. apply (inj Some), pair_eq in H as [-> _]. apply elem_of_cons. by left.
Defined.

Lemma parse_uint_wraps_witness :
  let s := $"18446744073709551617" in
  s <> [] /\ Forall is_ascii_digit s /\ parseUintText s = Some (digits_value s mod 2 ^ 64) /\
  digits_value s mod 2 ^ 64 = 1.
Proof.
  assert (Hn : $"18446744073709551617" <> []) by (vm_compute; discriminate).
  assert (Hd : Forall is_ascii_digit $"18446744073709551617").
  { apply (bool_decide_unpack _). vm_compute. exact I. }
  split; [exact Hn|]. split; [exact Hd|].
  split; [exact (parse_uint_wraps _ Hn Hd) | vm_compute; reflexivity].
Defined.
