(* ===== verification/LogStream.v ===== *)
(** * Log archive streams: operator control and the runner agents

    [log_archive_stream_control.go], [runner_agent.go], the registration of an
    archived log in [backup_pitr.go] and the statements of
    [data/database/backup_pitr_repository.go] behind them. An operator starts,
    pauses, resumes and stops a stream; the agent of the bound runner host
    takes a lease on it, reports checkpoints and registers the archived logs.
    Each handler reads a row, computes the new one and saves it whole. One
    reading of the clock is taken per request. *)

From Stdlib Require Import ZArith Lia.
From stdpp Require Import base tactics option list numbers sets gmap.
From S2P Require Import Prelude GoStrings SqlSafety WriteExec BackupModel BinlogChain BackupPurge.

Open Scope Z_scope.

(** ** Constants *)
Definition DatabaseArchiveTypeBinlog := $"binlog".
Definition DatabaseArchiveTypeWAL := $"wal".
Definition DatabaseArchiveTypeNone := $"none".
Definition DatabaseArchiveModeExternal := $"external".
Definition DatabaseArchiveModeManual := $"manual_once".
Definition DatabaseArchiveModeCatchUp := $"catch_up".
Definition DatabaseArchiveModePolling := $"polling".
Definition DatabaseArchiveModeStreaming := $"streaming".
Definition DatabaseLogArchiveStatusArchived := $"archived".
Definition DatabaseLogArchiveStatusExpired := $"expired".
Definition DatabaseLogArchiveStreamStatusPending := $"pending".
Definition DatabaseLogArchiveStreamStatusRunning := $"running".
Definition DatabaseLogArchiveStreamStatusPaused := $"paused".
Definition DatabaseLogArchiveStreamStatusDegraded := $"degraded".
Definition DatabaseLogArchiveStreamStatusFailed := $"failed".
Definition DatabaseLogArchiveStreamStatusDisabled := $"disabled".
Definition DatabaseLogArchiveDesiredStateRunning := $"running".
Definition DatabaseLogArchiveDesiredStatePaused := $"paused".
Definition DatabaseLogArchiveDesiredStateStopped := $"stopped".
Definition DatabaseLogArchiveDaemonStatusStarting := $"starting".
Definition DatabaseLogArchiveDaemonStatusRunning := $"running".
Definition DatabaseLogArchiveDaemonStatusPaused := $"paused".
Definition DatabaseLogArchiveDaemonStatusDegraded := $"degraded".
Definition DatabaseLogArchiveDaemonStatusFailed := $"failed".
Definition DatabaseLogArchiveDaemonStatusStopped := $"stopped".
Definition DatabaseLogArchiveEventLevelInfo := $"info".
Definition DatabaseLogArchiveEventLevelWarning := $"warning".
Definition DatabaseLogArchiveEventLevelError := $"error".
Definition DatabaseLogArchiveEventRunnerHeartbeat := $"runner_heartbeat".
Definition DatabaseLogArchiveEventLeaseAcquired := $"lease_acquired".
Definition DatabaseLogArchiveEventCheckpoint := $"checkpoint".
Definition DatabaseLogArchiveEventStateChanged := $"state_changed".
Definition DatabaseLogArchiveEventArchiveSuccess := $"archive_success".
Definition DatabaseLogArchiveEventArchiveFailed := $"archive_failed".
Definition DatabaseLogArchiveEventSpoolUpdated := $"spool_updated".
Definition DatabaseLogArchiveEventPurgeGap := $"purge_gap".
Definition DatabaseLogArchiveEventAgentMessage := $"agent_message".
Definition DatabaseRunnerTypeLocal := $"local".
Definition DatabaseRunnerTypeAgent := $"agent".
Definition DatabaseRunnerHostStatusOnline := $"online".
Definition DatabaseRunnerHostStatusFailed := $"failed".
Definition DatabaseRunnerHostStatusDisabled := $"disabled".

Definition defaultRunnerAgentLeaseTTLSeconds : Z := 90.
Definition maxRunnerAgentLeaseTTLSeconds : Z := 600.

(** ** Rows. The columns of a stream are grouped by who writes them *)

(** What no operation below changes. *)
Record stream_identity := {
  ls_ID : Z; ls_InstanceID : Z; ls_SourceInstanceID : Z; ls_ArchiveType : gostring;
  ls_RPOTargetSeconds : Z; ls_Enabled : bool }.

(** What a start assigns. *)
Record stream_assignment := {
  ls_RunnerHostID : Z; ls_ArchiveMode : gostring; ls_ArchiveEngine : gostring }.

Record stream_state := {
  ls_Status : gostring; ls_DesiredState : gostring; ls_DaemonStatus : gostring;
  ls_ConsecutiveFailures : Z; ls_PausedAt : option Z; ls_PausedReason : gostring;
  ls_LastError : gostring }.

Record stream_lease := {
  ls_LeaseOwner : gostring; ls_LeaseExpiresAt : option Z; ls_LastHeartbeatAt : option Z }.

Record stream_cursor := {
  ls_CursorFile : gostring; ls_CursorPos : Z; ls_CursorGTIDSet : gostring;
  ls_ActiveFile : gostring; ls_LastSourceFile : gostring; ls_LastSourcePos : Z;
  ls_LastEventTime : option Z; ls_ArchiveLagSeconds : Z; ls_LastArchivedAt : option Z;
  ls_LastArchiveName : gostring }.

Record DatabaseLogArchiveStream := {
  ident : stream_identity; assigned : stream_assignment; state : stream_state;
  lease : stream_lease; cursor : stream_cursor }.

Record DatabaseRunnerHost := {
  h_ID : Z; h_RunnerType : gostring; h_Host : gostring; h_Port : Z; h_Enabled : bool;
  h_Status : gostring; h_LastHeartbeatAt : option Z; h_LastError : gostring;
  h_ConfigJSON : gostring }.

Record LogArchiveRow := {
  a_StreamID : Z; a_InstanceID : Z; a_SourceInstanceID : Z; a_FileName : gostring;
  a_StorageURI : gostring; a_FileSize : Z; a_ChecksumSHA256 : gostring;
  a_FirstEventTime : Z; a_LastEventTime : Z; a_Status : gostring; a_ArchivedAt : Z;
  a_StartPos : Z; a_EndPos : Z; a_StartGTIDSet : gostring; a_EndGTIDSet : gostring;
  a_PreviousFileName : gostring; a_NextFileName : gostring }.

Record DatabaseLogArchiveEvent := {
  e_StreamID : Z; e_InstanceID : Z; e_SourceInstanceID : Z; e_RunnerHostID : Z;
  e_RunnerID : gostring; e_EventType : gostring; e_Level : gostring; e_Message : gostring;
  e_FileName : gostring; e_CursorFile : gostring; e_CursorPos : Z; e_ActiveFile : gostring;
  e_ArchiveLagSeconds : Z; e_PayloadJSON : gostring; e_OccurredAt : Z }.

(** ** Requests *)
Record DatabaseLogArchiveStreamControlRequest := {
  rq_RunnerHostID : Z; rq_ArchiveMode : gostring; rq_Reason : gostring }.

Record DatabaseRunnerAgentHeartbeatRequest := { hb_Status : gostring; hb_Message : gostring }.

Record DatabaseRunnerAgentCheckpointRequest := {
  cp_DaemonStatus : gostring; cp_CursorFile : gostring; cp_CursorPos : Z;
  cp_CursorGTIDSet : gostring; cp_ActiveFile : gostring; cp_LastSourceFile : gostring;
  cp_LastSourcePos : Z; cp_LastEventTime : gostring; cp_ArchiveLagSeconds : Z;
  cp_ConsecutiveFailures : Z; cp_LastError : gostring; cp_LeaseTTLSeconds : Z;
  cp_ReleaseLease : bool }.

Record DatabaseExternalLogArchiveRequest := {
  xa_StreamID : Z; xa_FileName : gostring; xa_StorageURI : gostring; xa_FileSize : Z;
  xa_ChecksumSHA256 : gostring; xa_FirstEventTime : gostring; xa_LastEventTime : gostring;
  xa_Status : gostring; xa_StartPos : Z; xa_EndPos : Z; xa_StartGTIDSet : gostring;
  xa_EndGTIDSet : gostring; xa_PreviousFileName : gostring; xa_NextFileName : gostring }.

Record DatabaseRunnerAgentEventRequest := {
  ev_StreamID : Z; ev_EventType : gostring; ev_Level : gostring; ev_Message : gostring;
  ev_FileName : gostring; ev_CursorFile : gostring; ev_CursorPos : Z; ev_ActiveFile : gostring;
  ev_ArchiveLagSeconds : Z; ev_PayloadJSON : gostring; ev_OccurredAt : gostring }.

(** ** The store and what is outside of the code *)
Record stream_world := {
  streams : gmap Z DatabaseLogArchiveStream; hosts : gmap Z DatabaseRunnerHost;
  archives : list LogArchiveRow; events : list DatabaseLogArchiveEvent }.

(** [crypto/sha256] in hex, a key of a JSON object printed with [fmt.Sprint]
    (none when the text is not an object or lacks the key), the payload of a
    registered archive as JSON, and [time.Parse] of a layout. *)
Class AgentLib := {
  sha256_hex : gostring -> gostring;
  json_key : gostring -> gostring -> option gostring;
  json_payload : gostring -> Z -> gostring -> gostring;
  time_parse : gostring -> gostring -> option Z }.

(** The database type of an instance and the errors of the statements. *)
Record agent_env := {
  ae_instance : Z -> option gostring;
  ae_save_stream : DatabaseLogArchiveStream -> option gostring;
  ae_save_host : DatabaseRunnerHost -> option gostring;
  ae_list_hosts : option gostring;
  ae_list_streams : option gostring;
  ae_acquire : Z -> option gostring;
  ae_create_archive : LogArchiveRow -> option gostring;
  ae_create_event : DatabaseLogArchiveEvent -> option gostring }.

Definition nanos_per_second : Z := 1000000000.

Section log_stream.
Context `{U : UnicodeTables, A : AgentLib}.

(** ** Normalised values, [backup_pitr.go] *)
Definition normalizeArchiveType (value : gostring) : gostring :=
  let v := ToLower (TrimSpace value) in
  if one_of v [DatabaseArchiveTypeBinlog; DatabaseArchiveTypeWAL; DatabaseArchiveTypeNone]
  then v else [].

Definition normalizeArchiveMode (value : gostring) : gostring :=
  let v := ToLower (TrimSpace value) in
  if one_of v [[]; DatabaseArchiveModeExternal] then DatabaseArchiveModeExternal
  else if one_of v [DatabaseArchiveModeManual; $"manual"; $"once"; $"run_once"]
  then DatabaseArchiveModeManual
  else if one_of v [DatabaseArchiveModeCatchUp; $"catchup"] then DatabaseArchiveModeCatchUp
  else if one_of v [DatabaseArchiveModePolling; $"poll"; $"high_frequency_poll";
                    $"high_frequency_polling"] then DatabaseArchiveModePolling
  else if one_of v [DatabaseArchiveModeStreaming; $"stream"] then DatabaseArchiveModeStreaming
  else trimText v 30.

Definition normalizeLogArchiveStatus (value : gostring) : gostring :=
  let v := TrimSpace value in
  if one_of v [DatabaseLogArchiveStatusMissing; DatabaseLogArchiveStatusChecksumFailed;
               DatabaseLogArchiveStatusExpired] then v
  else DatabaseLogArchiveStatusArchived.

Definition LogArchiveStatusText (value : gostring) : gostring :=
  let v := TrimSpace value in
  if one_of v [DatabaseLogArchiveStatusMissing] then $"缺失"
  else if one_of v [DatabaseLogArchiveStatusChecksumFailed] then $"校验失败"
  else if one_of v [DatabaseLogArchiveStatusExpired] then $"已过期"
  else $"已归档".

Definition normalizeLogArchiveEventLevel (value : gostring) : gostring :=
  let v := ToLower (TrimSpace value) in
  if one_of v [DatabaseLogArchiveEventLevelWarning; DatabaseLogArchiveEventLevelError] then v else DatabaseLogArchiveEventLevelInfo.

Definition normalizeLogArchiveEventType (value : gostring) : gostring :=
  let v := ToLower (TrimSpace value) in
  if one_of v [DatabaseLogArchiveEventRunnerHeartbeat; DatabaseLogArchiveEventLeaseAcquired; DatabaseLogArchiveEventCheckpoint; DatabaseLogArchiveEventStateChanged;
               DatabaseLogArchiveEventArchiveSuccess; DatabaseLogArchiveEventArchiveFailed; DatabaseLogArchiveEventSpoolUpdated; DatabaseLogArchiveEventPurgeGap] then v
  else DatabaseLogArchiveEventAgentMessage.

Definition normalizeLogArchiveDaemonStatus (value : gostring) : gostring :=
  let v := ToLower (TrimSpace value) in
  if one_of v [DatabaseLogArchiveDaemonStatusStarting; DatabaseLogArchiveDaemonStatusRunning; DatabaseLogArchiveDaemonStatusPaused;
               DatabaseLogArchiveDaemonStatusDegraded; DatabaseLogArchiveDaemonStatusFailed] then v
  else DatabaseLogArchiveDaemonStatusStopped.

(** [parseDatabaseTime]: nothing for a blank text, else the first layout that
    parses it. *)
Definition time_layouts : list gostring :=
  [$"2006-01-02T15:04:05Z07:00"; $"2006-01-02 15:04:05"; $"2006-01-02T15:04:05"; $"2006-01-02"].
Definition parseDatabaseTime (value : gostring) : result (option Z) :=
  let v := TrimSpace value in
  if bool_decide (v = []) then Ok None
  else match omap (fun layout => time_parse layout v) time_layouts with
       | t :: _ => Ok (Some t)
       | [] => Err $"cannot parse"
       end.

Definition runnerAgentLeaseTTLSeconds (value : Z) : Z :=
  if value <=? 0 then defaultRunnerAgentLeaseTTLSeconds
  else if maxRunnerAgentLeaseTTLSeconds <? value then maxRunnerAgentLeaseTTLSeconds
  else value.

(** ** Operator control of a stream *)
Definition daemonArchiveModeForStart (value : gostring) : gostring :=
  let mode := normalizeArchiveMode value in
  if one_of mode [DatabaseArchiveModePolling] then DatabaseArchiveModePolling
  else if one_of mode [DatabaseArchiveModeStreaming] then DatabaseArchiveModeStreaming
  else DatabaseArchiveModePolling.

Definition archiveEngineForDaemonMode (current archiveMode : gostring) : gostring :=
  let current := ToLower (TrimSpace current) in
  if negb (bool_decide (current = [])) && negb (HasPrefix current $"external")
  then trimText current 60
  else if one_of (normalizeArchiveMode archiveMode) [DatabaseArchiveModeStreaming]
  then $"mysqlbinlog_streaming"
  else $"mysqlbinlog_polling".

Definition no_lease (l : stream_lease) : stream_lease := {|
  ls_LeaseOwner := []; ls_LeaseExpiresAt := None; ls_LastHeartbeatAt := ls_LastHeartbeatAt l |}.

Definition applyLogArchiveStreamStartState (s : DatabaseLogArchiveStream) (runnerHostID : Z)
    (archiveMode archiveEngine : gostring) : DatabaseLogArchiveStream :=
  let mode := daemonArchiveModeForStart archiveMode in {|
  ident := ident s;
  assigned := {|
    ls_RunnerHostID := if 0 <? runnerHostID then runnerHostID else ls_RunnerHostID (assigned s);
    ls_ArchiveMode := mode;
    ls_ArchiveEngine := archiveEngineForDaemonMode archiveEngine mode |};
  state := {|
    ls_Status := DatabaseLogArchiveStreamStatusPending; ls_DesiredState := DatabaseLogArchiveDesiredStateRunning;
    ls_DaemonStatus := DatabaseLogArchiveDaemonStatusStarting;
    ls_ConsecutiveFailures := ls_ConsecutiveFailures (state s);
    ls_PausedAt := None; ls_PausedReason := [];
    ls_LastError := $"等待 Runner Agent 接管归档流" |};
  lease := no_lease (lease s); cursor := cursor s |}.

Definition applyLogArchiveStreamPauseState (s : DatabaseLogArchiveStream) (reason : gostring)
    (pausedAt : Z) : DatabaseLogArchiveStream :=
  let trimmed := trimText (TrimSpace reason) 500 in
  let reason := if bool_decide (trimmed = []) then $"手动暂停" else trimmed in {|
  ident := ident s; assigned := assigned s;
  state := {|
    ls_Status := DatabaseLogArchiveStreamStatusPaused; ls_DesiredState := DatabaseLogArchiveDesiredStatePaused;
    ls_DaemonStatus := DatabaseLogArchiveDaemonStatusPaused;
    ls_ConsecutiveFailures := ls_ConsecutiveFailures (state s);
    ls_PausedAt := Some pausedAt; ls_PausedReason := reason;
    ls_LastError := $"归档流已暂停: " ++ reason |};
  lease := no_lease (lease s); cursor := cursor s |}.

Definition applyLogArchiveStreamStopState (s : DatabaseLogArchiveStream) (reason : gostring)
    : DatabaseLogArchiveStream :=
  let reason := trimText (TrimSpace reason) 500 in {|
  ident := ident s; assigned := assigned s;
  state := {|
    ls_Status := if ls_Enabled (ident s) then DatabaseLogArchiveStreamStatusPending else DatabaseLogArchiveStreamStatusDisabled;
    ls_DesiredState := DatabaseLogArchiveDesiredStateStopped; ls_DaemonStatus := DatabaseLogArchiveDaemonStatusStopped;
    ls_ConsecutiveFailures := ls_ConsecutiveFailures (state s);
    ls_PausedAt := None; ls_PausedReason := [];
    ls_LastError := if bool_decide (reason = []) then $"归档流已停止"
                    else $"归档流已停止: " ++ reason |};
  lease := no_lease (lease s); cursor := cursor s |}.

(** ** What an agent may do to a stream *)
Definition validateRunnerAgentStreamOwnership (s : DatabaseLogArchiveStream) (runnerHostID : Z)
    (runnerID : gostring) : result unit :=
  if negb (ls_RunnerHostID (assigned s) =? runnerHostID)
  then Err $"日志归档流未绑定当前 Runner"
  else if negb (bool_decide (ls_DesiredState (state s) = DatabaseLogArchiveDesiredStateRunning))
  then Err $"日志归档流当前不期望运行"
  else if negb (bool_decide (TrimSpace (ls_LeaseOwner (lease s)) = runnerID))
  then Err $"日志归档流租约不属于当前 Runner，请重新拉取任务"
  else Ok tt.

Definition set_state (s : DatabaseLogArchiveStream) (status daemon : gostring) (failures : Z)
    (error : gostring) : stream_state := {|
  ls_Status := status; ls_DesiredState := ls_DesiredState (state s); ls_DaemonStatus := daemon;
  ls_ConsecutiveFailures := failures; ls_PausedAt := ls_PausedAt (state s);
  ls_PausedReason := ls_PausedReason (state s); ls_LastError := error |}.

(** The release of a lease, the branch of [ReleaseLease]. *)
Definition release_lease (s : DatabaseLogArchiveStream) (now : Z) : DatabaseLogArchiveStream :=
  let keep status daemon :=
    set_state s status daemon (ls_ConsecutiveFailures (state s)) (ls_LastError (state s)) in {|
  ident := ident s; assigned := assigned s;
  state := if bool_decide (ls_DesiredState (state s) = DatabaseLogArchiveDesiredStatePaused)
           then keep DatabaseLogArchiveStreamStatusPaused DatabaseLogArchiveDaemonStatusPaused
           else keep DatabaseLogArchiveStreamStatusPending DatabaseLogArchiveDaemonStatusStopped;
  lease := {| ls_LeaseOwner := []; ls_LeaseExpiresAt := None; ls_LastHeartbeatAt := Some now |};
  cursor := cursor s |}.

Definition checkpoint_cursor (c : stream_cursor) (req : DatabaseRunnerAgentCheckpointRequest)
    (lastEventTime : option Z) : stream_cursor :=
  let or_keep new old := if bool_decide (TrimSpace new = []) then old
                         else trimText (TrimSpace new) 255 in {|
  ls_CursorFile := or_keep (cp_CursorFile req) (ls_CursorFile c);
  ls_CursorPos := if 0 <? cp_CursorPos req then cp_CursorPos req else ls_CursorPos c;
  ls_CursorGTIDSet := if bool_decide (TrimSpace (cp_CursorGTIDSet req) = [])
                      then ls_CursorGTIDSet c else TrimSpace (cp_CursorGTIDSet req);
  ls_ActiveFile := trimText (TrimSpace (cp_ActiveFile req)) 255;
  ls_LastSourceFile := or_keep (cp_LastSourceFile req) (ls_LastSourceFile c);
  ls_LastSourcePos := if 0 <? cp_LastSourcePos req then cp_LastSourcePos req
                      else ls_LastSourcePos c;
  ls_LastEventTime := match lastEventTime with Some t => Some t | None => ls_LastEventTime c end;
  ls_ArchiveLagSeconds := cp_ArchiveLagSeconds req;
  ls_LastArchivedAt := ls_LastArchivedAt c; ls_LastArchiveName := ls_LastArchiveName c |}.

(** The switch on the reported daemon status. *)
Definition checkpoint_state (s : DatabaseLogArchiveStream)
    (req : DatabaseRunnerAgentCheckpointRequest) : stream_state :=
  let daemon := normalizeLogArchiveDaemonStatus (cp_DaemonStatus req) in
  let error := trimText (TrimSpace (cp_LastError req)) 1000 in
  let failures := ls_ConsecutiveFailures (state s) in
  let lag := cp_ArchiveLagSeconds req in
  let rpo := ls_RPOTargetSeconds (ident s) in
  let or_else message := if bool_decide (error = []) then message else error in
  if one_of daemon [DatabaseLogArchiveDaemonStatusRunning] then
    if bool_decide (error = []) && (0 <? rpo) && (rpo * 2 <? lag)
    then set_state s DatabaseLogArchiveStreamStatusDegraded DatabaseLogArchiveDaemonStatusDegraded (cp_ConsecutiveFailures req)
           $"归档延迟超过 RPO 目标"
    else set_state s DatabaseLogArchiveStreamStatusRunning daemon (cp_ConsecutiveFailures req) error
  else if one_of daemon [DatabaseLogArchiveDaemonStatusPaused]
  then set_state s DatabaseLogArchiveStreamStatusPaused daemon failures error
  else if one_of daemon [DatabaseLogArchiveDaemonStatusDegraded]
  then set_state s DatabaseLogArchiveStreamStatusDegraded daemon (Z.max (cp_ConsecutiveFailures req) (failures + 1))
         (or_else $"Runner Agent 上报归档流降级")
  else if one_of daemon [DatabaseLogArchiveDaemonStatusFailed]
  then set_state s DatabaseLogArchiveStreamStatusFailed daemon (Z.max (cp_ConsecutiveFailures req) (failures + 1))
         (or_else $"Runner Agent 上报归档流失败")
  else set_state s DatabaseLogArchiveStreamStatusPending daemon failures error.

Definition applyRunnerAgentCheckpoint (s : DatabaseLogArchiveStream)
    (req : DatabaseRunnerAgentCheckpointRequest) (lastEventTime : option Z) (now : Z)
    (runnerID : gostring) : DatabaseLogArchiveStream :=
  if cp_ReleaseLease req then release_lease s now
  else {|
    ident := ident s; assigned := assigned s; state := checkpoint_state s req;
    lease := {|
      ls_LeaseOwner := runnerID;
      ls_LeaseExpiresAt :=
        Some (now + runnerAgentLeaseTTLSeconds (cp_LeaseTTLSeconds req) * nanos_per_second);
      ls_LastHeartbeatAt := Some now |};
    cursor := checkpoint_cursor (cursor s) req lastEventTime |}.

(** ** The host of an agent *)
Definition runnerIDForHost (h : DatabaseRunnerHost) : gostring :=
  if one_of (h_RunnerType h) [DatabaseRunnerTypeLocal] then $"local:" ++ fmt_d (h_ID h)
  else if one_of (h_RunnerType h) [DatabaseRunnerTypeAgent]
  then if bool_decide (TrimSpace (h_Host h) = []) then $"runner-host-" ++ fmt_d (h_ID h)
       else $"agent:" ++ h_Host h
  else $"ssh:" ++ h_Host h ++ $":" ++ fmt_d (h_Port h).

(** [strconv.ParseUint(s, 10, 32)] of the text without the known prefixes. *)
Definition parseRunnerHostIDAlias (value : gostring) : option Z :=
  let v := foldl TrimPrefix (TrimSpace value) [$"runner-host-"; $"runner:"; $"host:"] in
  if bool_decide (v = []) || negb (forallb is_digit v) then None
  else let id := digits_value v in
       if (2 ^ 32 - 1 <? id) || (id =? 0) then None else Some id.

(** A key counts when its value has 64 bytes. *)
Definition runnerAgentAuthHash (configJSON : gostring) : gostring :=
  let configJSON := TrimSpace configJSON in
  if bool_decide (configJSON = []) then []
  else
    let candidate key :=
      match json_key configJSON key with
      | Some raw => let value := ToLower (TrimSpace raw) in
                    if byte_len value =? 64 then Some value else None
      | None => None
      end in
    match omap candidate [$"runnerAuthSha256"; $"authSha256"] with
    | value :: _ => value
    | [] => []
    end.

Definition runnerAgentAuthMatches (configJSON auth : gostring) : bool :=
  let auth := TrimSpace auth in
  if bool_decide (auth = []) then false
  else
    let expected := runnerAgentAuthHash configJSON in
    if bool_decide (expected = []) then false
    else bool_decide (ToLower expected = sha256_hex auth).

Definition set_heartbeat (h : DatabaseRunnerHost) (status error : gostring) (now : Z)
    : DatabaseRunnerHost := {|
  h_ID := h_ID h; h_RunnerType := h_RunnerType h; h_Host := h_Host h; h_Port := h_Port h;
  h_Enabled := h_Enabled h; h_Status := status; h_LastHeartbeatAt := Some now;
  h_LastError := error; h_ConfigJSON := h_ConfigJSON h |}.

Definition applyRunnerAgentHeartbeat (h : DatabaseRunnerHost)
    (req : DatabaseRunnerAgentHeartbeatRequest) (now : Z) : DatabaseRunnerHost :=
  let message := trimText (TrimSpace (hb_Message req)) 500 in
  let reported := ToLower (TrimSpace (hb_Status req)) in
  let status := if one_of reported [DatabaseRunnerHostStatusFailed] then DatabaseRunnerHostStatusFailed
                else if one_of reported [DatabaseRunnerHostStatusDisabled] then DatabaseRunnerHostStatusDisabled
                else DatabaseRunnerHostStatusOnline in
  set_heartbeat h status
    (if bool_decide (status = DatabaseRunnerHostStatusFailed)
     then (if bool_decide (message = []) then $"Runner Agent 心跳上报失败状态" else message)
     else []) now.

(** ** Statements *)
Section handlers.
Context (E : agent_env).

Definition getStream (id : Z) : handler stream_world DatabaseLogArchiveStream :=
  w ← h_get;
  match streams w !! id with
  | Some s => mret s
  | None => h_fail $"日志归档流不存在"
  end.

Definition put_stream (s : DatabaseLogArchiveStream) (w : stream_world) : stream_world := {|
  streams := <[ls_ID (ident s) := s]> (streams w); hosts := hosts w; archives := archives w;
  events := events w |}.

Definition saveStream (s : DatabaseLogArchiveStream) : handler stream_world unit := fun w =>
  match ae_save_stream E s with
  | Some e => (Err e, w)
  | None => (Ok tt, put_stream s w)
  end.

Definition saveHost (h : DatabaseRunnerHost) : handler stream_world unit := fun w =>
  match ae_save_host E h with
  | Some e => (Err e, w)
  | None => (Ok tt, {| streams := streams w; hosts := <[h_ID h := h]> (hosts w);
                       archives := archives w; events := events w |})
  end.

Definition createArchive (a : LogArchiveRow) : handler stream_world unit := fun w =>
  match ae_create_archive E a with
  | Some e => (Err e, w)
  | None => (Ok tt, {| streams := streams w; hosts := hosts w; archives := archives w ++ [a];
                       events := events w |})
  end.

(** [recordLogArchiveEvent]; its callers go on when it fails. *)
Definition clean_event (e : DatabaseLogArchiveEvent) : DatabaseLogArchiveEvent :=
  let clean v n := trimText (TrimSpace v) n in {|
  e_StreamID := e_StreamID e; e_InstanceID := e_InstanceID e;
  e_SourceInstanceID := e_SourceInstanceID e; e_RunnerHostID := e_RunnerHostID e;
  e_RunnerID := clean (e_RunnerID e) 120; e_EventType := normalizeLogArchiveEventType (e_EventType e);
  e_Level := normalizeLogArchiveEventLevel (e_Level e); e_Message := clean (e_Message e) 1000;
  e_FileName := clean (e_FileName e) 255; e_CursorFile := clean (e_CursorFile e) 255;
  e_CursorPos := e_CursorPos e; e_ActiveFile := clean (e_ActiveFile e) 255;
  e_ArchiveLagSeconds := e_ArchiveLagSeconds e; e_PayloadJSON := clean (e_PayloadJSON e) 4000;
  e_OccurredAt := e_OccurredAt e |}.

Definition recordLogArchiveEvent (e : DatabaseLogArchiveEvent) : handler stream_world unit := fun w =>
  match ae_create_event E (clean_event e) with
  | Some msg => (Err msg, w)
  | None => (Ok tt, {| streams := streams w; hosts := hosts w; archives := archives w;
                       events := events w ++ [clean_event e] |})
  end.

Definition ignore_err {B} (m : handler stream_world B) : handler stream_world unit :=
  fun w => (Ok tt, (m w).2).

Definition stream_event (s : DatabaseLogArchiveStream) (runnerHostID : Z)
    (runnerID kind level message fileName payload : gostring) (now : Z) : DatabaseLogArchiveEvent := {|
  e_StreamID := ls_ID (ident s); e_InstanceID := ls_InstanceID (ident s);
  e_SourceInstanceID := ls_SourceInstanceID (ident s); e_RunnerHostID := runnerHostID;
  e_RunnerID := runnerID; e_EventType := kind; e_Level := level; e_Message := message;
  e_FileName := fileName; e_CursorFile := ls_CursorFile (cursor s);
  e_CursorPos := ls_CursorPos (cursor s); e_ActiveFile := ls_ActiveFile (cursor s);
  e_ArchiveLagSeconds := ls_ArchiveLagSeconds (cursor s); e_PayloadJSON := payload;
  e_OccurredAt := now |}.

Definition recordLogArchiveStreamStateEvent (s : DatabaseLogArchiveStream)
    (level message : gostring) (now : Z) : handler stream_world unit :=
  ignore_err (recordLogArchiveEvent (stream_event s (ls_RunnerHostID (assigned s))
    (ls_LeaseOwner (lease s)) DatabaseLogArchiveEventStateChanged level message (ls_LastArchiveName (cursor s)) [] now)).

(** ** Operator handlers *)
Definition getLogArchiveStreamForControl (streamID : Z)
    : handler stream_world DatabaseLogArchiveStream :=
  if streamID =? 0 then h_fail $"日志归档流ID不能为空" else getStream streamID.

Definition validateLogArchiveStreamDaemonTarget (s : DatabaseLogArchiveStream) : result unit :=
  if negb (bool_decide (normalizeArchiveType (ls_ArchiveType (ident s)) = DatabaseArchiveTypeBinlog))
  then Err $"P2.6 第一版仅支持 MySQL/MariaDB binlog 长期归档流"
  else
    let source := if ls_SourceInstanceID (ident s) =? 0 then ls_InstanceID (ident s)
                  else ls_SourceInstanceID (ident s) in
    match ae_instance E source with
    | None => Err $"日志来源实例不存在"
    | Some dbType =>
      if one_of (normalizeDBType dbType) [DBTypeMySQL; DBTypeMariaDB] then Ok tt
      else Err (DBTypeText dbType ++ $" 暂不支持 P2.6 binlog 长期归档流")
    end.

Definition validateRequiredLogArchiveRunnerHost (id : Z) : handler stream_world DatabaseRunnerHost :=
  w ← h_get;
  if id =? 0 then h_fail $"请选择 Runner 主机"
  else match hosts w !! id with
  | None => h_fail $"Runner 主机不存在"
  | Some h =>
    if negb (h_Enabled h) || one_of (h_Status h) [DatabaseRunnerHostStatusDisabled]
    then h_fail $"Runner 主机已禁用" else mret h
  end.

(** [StartLogArchiveStream] and [ResumeLogArchiveStream] differ in their texts. *)
Definition start_with (disabled started : gostring) (streamID : Z)
    (req : DatabaseLogArchiveStreamControlRequest) (now : Z)
    : handler stream_world DatabaseLogArchiveStream :=
  s ← getLogArchiveStreamForControl streamID;
  h_lift (validateLogArchiveStreamDaemonTarget s);;
  h_guard (ls_Enabled (ident s) && negb (one_of (ls_Status (state s)) [DatabaseLogArchiveStreamStatusDisabled])) disabled;;
  host ← validateRequiredLogArchiveRunnerHost
    (if 0 <? rq_RunnerHostID req then rq_RunnerHostID req else ls_RunnerHostID (assigned s));
  let mode := daemonArchiveModeForStart
    (if bool_decide (TrimSpace (rq_ArchiveMode req) = []) then ls_ArchiveMode (assigned s)
     else rq_ArchiveMode req) in
  let s' := applyLogArchiveStreamStartState s (h_ID host) mode
    (archiveEngineForDaemonMode (ls_ArchiveEngine (assigned s)) mode) in
  saveStream s';;
  recordLogArchiveStreamStateEvent s' DatabaseLogArchiveEventLevelInfo started now;;
  mret s'.

Definition StartLogArchiveStream :=
  start_with $"日志归档流已禁用，请先启用后再启动" $"日志归档流已启动，等待 Runner Agent 接管".
Definition ResumeLogArchiveStream :=
  start_with $"日志归档流已禁用，请先启用后再恢复" $"日志归档流已恢复，等待 Runner Agent 接管".

Definition PauseLogArchiveStream (streamID : Z) (req : DatabaseLogArchiveStreamControlRequest)
    (now : Z) : handler stream_world DatabaseLogArchiveStream :=
  s ← getLogArchiveStreamForControl streamID;
  let s' := applyLogArchiveStreamPauseState s (rq_Reason req) now in
  saveStream s';;
  recordLogArchiveStreamStateEvent s' DatabaseLogArchiveEventLevelWarning (ls_LastError (state s')) now;;
  mret s'.

Definition StopLogArchiveStream (streamID : Z) (req : DatabaseLogArchiveStreamControlRequest)
    (now : Z) : handler stream_world DatabaseLogArchiveStream :=
  s ← getLogArchiveStreamForControl streamID;
  let s' := applyLogArchiveStreamStopState s (rq_Reason req) in
  saveStream s';;
  recordLogArchiveStreamStateEvent s' DatabaseLogArchiveEventLevelWarning (ls_LastError (state s')) now;;
  mret s'.

(** ** Agent handlers *)

(** The first page of hosts, newest number first. *)
Definition listed_hosts (w : stream_world) : list DatabaseRunnerHost :=
  take 1000 (sort_stable (fun a b => h_ID b <? h_ID a) (snd <$> map_to_list (hosts w))).

Definition findRunnerHostByRunnerID (runnerID : gostring) : handler stream_world DatabaseRunnerHost :=
  w ← h_get;
  match parseRunnerHostIDAlias runnerID with
  | Some id =>
    match hosts w !! id with
    | Some h => mret h
    | None => h_fail $"Runner 主机不存在"
    end
  | None =>
    match ae_list_hosts E with
    | Some e => h_fail e
    | None =>
      match List.find (fun h => bool_decide (runnerIDForHost h = runnerID)) (listed_hosts w) with
      | Some h => mret h
      | None => h_fail $"Runner 主机不存在"
      end
    end
  end.

Definition authenticateRunnerAgent (runnerID auth : gostring)
    : handler stream_world DatabaseRunnerHost :=
  let runnerID := TrimSpace runnerID in
  h_guard (negb (bool_decide (runnerID = []))) $"Runner ID 不能为空";;
  h ← findRunnerHostByRunnerID runnerID;
  h_guard (h_Enabled h && negb (one_of (h_Status h) [DatabaseRunnerHostStatusDisabled])) $"Runner 主机已禁用";;
  h_guard (runnerAgentAuthMatches (h_ConfigJSON h) auth)
    $"Runner Agent 鉴权失败，请在 Runner Host configJson 中配置 runnerAuthSha256";;
  mret h.

Definition RunnerAgentHeartbeat (runnerID auth : gostring)
    (req : DatabaseRunnerAgentHeartbeatRequest) (now : Z) : handler stream_world DatabaseRunnerHost :=
  h ← authenticateRunnerAgent runnerID auth;
  let h := applyRunnerAgentHeartbeat h req now in
  saveHost h;;
  (if one_of (h_Status h) [DatabaseRunnerHostStatusFailed]
   then ignore_err (recordLogArchiveEvent {|
     e_StreamID := 0; e_InstanceID := 0; e_SourceInstanceID := 0; e_RunnerHostID := h_ID h;
     e_RunnerID := runnerIDForHost h; e_EventType := DatabaseLogArchiveEventRunnerHeartbeat;
     e_Level := DatabaseLogArchiveEventLevelError; e_Message := h_LastError h; e_FileName := [];
     e_CursorFile := []; e_CursorPos := 0; e_ActiveFile := []; e_ArchiveLagSeconds := 0;
     e_PayloadJSON := []; e_OccurredAt := now |})
   else mret tt);;
  mret h.

Definition runnable_for (runnerHostID : Z) (s : DatabaseLogArchiveStream) : bool :=
  (ls_RunnerHostID (assigned s) =? runnerHostID) && ls_Enabled (ident s) &&
  bool_decide (ls_DesiredState (state s) = DatabaseLogArchiveDesiredStateRunning) &&
  bool_decide (ls_ArchiveType (ident s) = DatabaseArchiveTypeBinlog) &&
  one_of (ls_ArchiveMode (assigned s)) [DatabaseArchiveModePolling; DatabaseArchiveModeStreaming] &&
  negb (bool_decide (ls_Status (state s) = DatabaseLogArchiveStreamStatusDisabled)).

Definition ListRunnableForRunner (runnerHostID : Z) (w : stream_world)
    : list DatabaseLogArchiveStream :=
  if runnerHostID =? 0 then []
  else take 100 (sort_stable (fun a b => ls_ID (ident a) <? ls_ID (ident b))
         (List.filter (runnable_for runnerHostID) (snd <$> map_to_list (streams w)))).

(** The condition and the assignments of the [UPDATE] of [TryAcquireLease]. *)
Definition lease_free (l : stream_lease) (runnerID : gostring) (now : Z) : bool :=
  bool_decide (ls_LeaseOwner l = []) || bool_decide (ls_LeaseOwner l = runnerID) ||
  match ls_LeaseExpiresAt l with None => true | Some t => t <? now end.

Definition may_acquire (s : DatabaseLogArchiveStream) (runnerHostID : Z) (runnerID : gostring)
    (now : Z) : bool :=
  (ls_RunnerHostID (assigned s) =? runnerHostID) && ls_Enabled (ident s) &&
  bool_decide (ls_DesiredState (state s) = DatabaseLogArchiveDesiredStateRunning) &&
  negb (bool_decide (ls_Status (state s) = DatabaseLogArchiveStreamStatusDisabled)) &&
  lease_free (lease s) runnerID now.

Definition acquired (s : DatabaseLogArchiveStream) (runnerID : gostring) (now expires : Z)
    : DatabaseLogArchiveStream := {|
  ident := ident s; assigned := assigned s;
  state := set_state s DatabaseLogArchiveStreamStatusPending DatabaseLogArchiveDaemonStatusStarting
             (ls_ConsecutiveFailures (state s)) $"Runner Agent 已获取租约，等待归档 checkpoint";
  lease := {| ls_LeaseOwner := runnerID; ls_LeaseExpiresAt := Some expires;
              ls_LastHeartbeatAt := Some now |};
  cursor := cursor s |}.

Definition TryAcquireLease (streamID runnerHostID : Z) (runnerID : gostring) (now expires : Z)
    : handler stream_world bool := fun w =>
  if (streamID =? 0) || (runnerHostID =? 0) || bool_decide (TrimSpace runnerID = [])
  then (Ok false, w)
  else match ae_acquire E streamID with
  | Some e => (Err e, w)
  | None =>
    match streams w !! streamID with
    | Some s =>
      if may_acquire s runnerHostID runnerID now
      then (Ok true, put_stream (acquired s runnerID now expires) w)
      else (Ok false, w)
    | None => (Ok false, w)
    end
  end.

(** The loop over the candidates: the streams this agent now holds. *)
Fixpoint lease_loop (h : DatabaseRunnerHost) (runnerID : gostring) (now expires : Z)
    (candidates : list DatabaseLogArchiveStream) : handler stream_world (list DatabaseLogArchiveStream) :=
  match candidates with
  | [] => mret []
  | c :: rest =>
    got ← TryAcquireLease (ls_ID (ident c)) (h_ID h) runnerID now expires;
    w ← h_get;
    match got : bool, streams w !! ls_ID (ident c) with
    | true, Some leased =>
      ignore_err (recordLogArchiveEvent (stream_event leased (h_ID h) runnerID DatabaseLogArchiveEventLeaseAcquired
        DatabaseLogArchiveEventLevelInfo $"Runner Agent 已获取日志归档流租约" [] [] now));;
      more ← lease_loop h runnerID now expires rest;
      mret (leased :: more)
    | _, _ => lease_loop h runnerID now expires rest
    end
  end.

Definition RunnerAgentListLogArchiveStreams (runnerID auth : gostring) (now : Z)
    : handler stream_world (list DatabaseLogArchiveStream) :=
  h ← authenticateRunnerAgent runnerID auth;
  let h := applyRunnerAgentHeartbeat h {| hb_Status := DatabaseRunnerHostStatusOnline; hb_Message := [] |} now in
  saveHost h;;
  w ← h_get;
  match ae_list_streams E with
  | Some e => h_fail e
  | None =>
    lease_loop h (runnerIDForHost h) now (now + runnerAgentLeaseTTLSeconds 0 * nanos_per_second)
      (ListRunnableForRunner (h_ID h) w)
  end.

Definition RunnerAgentCheckpointLogArchiveStream (runnerID auth : gostring) (streamID : Z)
    (req : DatabaseRunnerAgentCheckpointRequest) (now : Z)
    : handler stream_world DatabaseLogArchiveStream :=
  h ← authenticateRunnerAgent runnerID auth;
  s ← getStream streamID;
  h_lift (validateRunnerAgentStreamOwnership s (h_ID h) (runnerIDForHost h));;
  lastEventTime ← h_lift (match parseDatabaseTime (cp_LastEventTime req) with
                          | Ok t => Ok t | Err _ => Err $"最近事件时间格式不正确" end);
  let s' := applyRunnerAgentCheckpoint s req lastEventTime now (runnerIDForHost h) in
  saveStream s';;
  (let has_error := negb (bool_decide (TrimSpace (ls_LastError (state s')) = [])) in
   let has_status status := one_of (ls_Status (state s')) [status] in
   if cp_ReleaseLease req || has_status DatabaseLogArchiveStreamStatusDegraded || has_status DatabaseLogArchiveStreamStatusFailed || has_error
   then ignore_err (recordLogArchiveEvent (stream_event s' (h_ID h) (runnerIDForHost h) DatabaseLogArchiveEventCheckpoint
     (if has_status DatabaseLogArchiveStreamStatusFailed then DatabaseLogArchiveEventLevelError
      else if has_status DatabaseLogArchiveStreamStatusDegraded || has_error then DatabaseLogArchiveEventLevelWarning else DatabaseLogArchiveEventLevelInfo)
     (if cp_ReleaseLease req then $"Runner Agent 已释放日志归档流租约" else ls_LastError (state s'))
     (ls_LastArchiveName (cursor s')) [] now))
   else mret tt);;
  mret s'.

(** ** Registering an archived log *)
Definition archive_row (s : DatabaseLogArchiveStream) (req : DatabaseExternalLogArchiveRequest)
    (first last now : Z) : LogArchiveRow := {|
  a_StreamID := ls_ID (ident s); a_InstanceID := ls_InstanceID (ident s);
  a_SourceInstanceID := ls_SourceInstanceID (ident s);
  a_FileName := trimText (TrimSpace (xa_FileName req)) 255;
  a_StorageURI := trimText (TrimSpace (xa_StorageURI req)) 1000; a_FileSize := xa_FileSize req;
  a_ChecksumSHA256 := TrimSpace (xa_ChecksumSHA256 req);
  a_FirstEventTime := first; a_LastEventTime := last;
  a_Status := normalizeLogArchiveStatus (xa_Status req); a_ArchivedAt := now;
  a_StartPos := xa_StartPos req; a_EndPos := xa_EndPos req;
  a_StartGTIDSet := TrimSpace (xa_StartGTIDSet req); a_EndGTIDSet := TrimSpace (xa_EndGTIDSet req);
  a_PreviousFileName := trimText (TrimSpace (xa_PreviousFileName req)) 255;
  a_NextFileName := trimText (TrimSpace (xa_NextFileName req)) 255 |}.

(** The stream after one of its logs was registered. *)
Definition stream_after_archive (s : DatabaseLogArchiveStream) (a : LogArchiveRow) (now : Z)
    : DatabaseLogArchiveStream :=
  let archived := one_of (a_Status a) [DatabaseLogArchiveStatusArchived] in {|
  ident := ident s; assigned := assigned s; lease := lease s;
  state := if archived
           then set_state s DatabaseLogArchiveStreamStatusRunning (ls_DaemonStatus (state s)) 0 []
           else set_state s DatabaseLogArchiveStreamStatusDegraded DatabaseLogArchiveDaemonStatusDegraded
                  (ls_ConsecutiveFailures (state s) + 1) (LogArchiveStatusText (a_Status a));
  cursor := {|
    ls_CursorFile := a_FileName a;
    ls_CursorPos := if 0 <? a_EndPos a then a_EndPos a else ls_CursorPos (cursor s);
    ls_CursorGTIDSet := if bool_decide (TrimSpace (a_EndGTIDSet a) = [])
                        then ls_CursorGTIDSet (cursor s) else a_EndGTIDSet a;
    ls_ActiveFile := ls_ActiveFile (cursor s); ls_LastSourceFile := ls_LastSourceFile (cursor s);
    ls_LastSourcePos := ls_LastSourcePos (cursor s);
    ls_LastEventTime := Some (a_LastEventTime a); ls_ArchiveLagSeconds := 0;
    ls_LastArchivedAt := Some now; ls_LastArchiveName := a_FileName a |} |}.

Definition RegisterExternalLogArchive (req : DatabaseExternalLogArchiveRequest) (now : Z)
    : handler stream_world LogArchiveRow :=
  h_guard (negb (xa_StreamID req =? 0)) $"请选择日志归档流";;
  s ← getStream (xa_StreamID req);
  first ← h_lift (match parseDatabaseTime (xa_FirstEventTime req) with
                  | Ok t => Ok t | Err _ => Err $"首个事件时间格式不正确" end);
  last ← h_lift (match parseDatabaseTime (xa_LastEventTime req) with
                 | Ok t => Ok t | Err _ => Err $"最后事件时间格式不正确" end);
  match first, last with
  | Some first, Some last =>
    h_guard (negb (last <? first)) $"最后事件时间不能早于首个事件时间";;
    let a := archive_row s req first last now in
    h_guard (negb (bool_decide (a_FileName a = []) || bool_decide (a_StorageURI a = [])))
      $"日志文件名和存储 URI 不能为空";;
    createArchive a;;
    ignore_err (saveStream (stream_after_archive s a now));;
    mret a
  | _, _ => h_fail $"日志归档必须填写事件时间范围"
  end.

Definition with_lease (s : DatabaseLogArchiveStream) (runnerID : gostring) (now : Z)
    : DatabaseLogArchiveStream := {|
  ident := ident s; assigned := assigned s; state := state s; cursor := cursor s;
  lease := {| ls_LeaseOwner := runnerID;
              ls_LeaseExpiresAt := Some (now + runnerAgentLeaseTTLSeconds 0 * nanos_per_second);
              ls_LastHeartbeatAt := Some now |} |}.

Definition RunnerAgentRegisterLogArchive (runnerID auth : gostring)
    (req : DatabaseExternalLogArchiveRequest) (now : Z) : handler stream_world LogArchiveRow :=
  h_guard (negb (xa_StreamID req =? 0)) $"请选择日志归档流";;
  h ← authenticateRunnerAgent runnerID auth;
  s ← getStream (xa_StreamID req);
  h_lift (validateRunnerAgentStreamOwnership s (h_ID h) (runnerIDForHost h));;
  a ← RegisterExternalLogArchive req now;
  w ← h_get;
  match streams w !! xa_StreamID req with
  | Some s =>
    let s' := with_lease s (runnerIDForHost h) now in
    ignore_err (saveStream s');;
    ignore_err (recordLogArchiveEvent (stream_event s' (h_ID h) (runnerIDForHost h)
      DatabaseLogArchiveEventArchiveSuccess DatabaseLogArchiveEventLevelInfo $"Runner Agent 已登记日志归档文件" (xa_FileName req)
      (trimText (json_payload (xa_StorageURI req) (xa_FileSize req) (xa_ChecksumSHA256 req)) 4000) now))
  | None => mret tt
  end;;
  mret a.

Definition RunnerAgentCreateLogArchiveEvent (runnerID auth : gostring)
    (req : DatabaseRunnerAgentEventRequest) (now : Z) : handler stream_world DatabaseLogArchiveEvent :=
  h ← authenticateRunnerAgent runnerID auth;
  s ← (if 0 <? ev_StreamID req
       then s ← getStream (ev_StreamID req);
            h_guard (ls_RunnerHostID (assigned s) =? h_ID h) $"日志归档流未绑定当前 Runner";;
            mret (Some s)
       else mret None);
  at_ ← h_lift (match parseDatabaseTime (ev_OccurredAt req) with
                | Ok t => Ok (default now t) | Err _ => Err $"事件时间格式不正确" end);
  let of_stream (f : stream_identity -> Z) := match s with Some s => f (ident s) | None => 0 end in
  let e := {|
    e_StreamID := of_stream ls_ID; e_InstanceID := of_stream ls_InstanceID;
    e_SourceInstanceID := of_stream ls_SourceInstanceID; e_RunnerHostID := h_ID h;
    e_RunnerID := runnerIDForHost h; e_EventType := normalizeLogArchiveEventType (ev_EventType req);
    e_Level := normalizeLogArchiveEventLevel (ev_Level req); e_Message := ev_Message req;
    e_FileName := ev_FileName req; e_CursorFile := ev_CursorFile req;
    e_CursorPos := ev_CursorPos req; e_ActiveFile := ev_ActiveFile req;
    e_ArchiveLagSeconds := ev_ArchiveLagSeconds req; e_PayloadJSON := ev_PayloadJSON req;
    e_OccurredAt := at_ |} in
  recordLogArchiveEvent e;;
  mret (clean_event e).
End handlers.
End log_stream.
