(* ===== verification/RestorePlan.v ===== *)
(** * Planning a restore, [backup_pitr.go]

    [CreateRestorePlan] picks a base backup, the incremental records on it and
    the archived logs up to the target, checks each link and saves a plan with
    its four statuses. MySQL targets a time, PostgreSQL a time or a log
    sequence number.

    The repositories answer from the tables of [restore_db] the way their
    queries read; rows are never nil. [sort.SliceStable] sorts the slice of the
    caller, so the callers of [validateLogArchiveCoverage] go on with the sorted
    slice. A panic of [make] is [None]. *)
From Stdlib Require Import ZArith Lia String.
From stdpp Require Import base option list gmap.
From S2P Require Import Prelude GoStrings GoNumbers PgWal SqlSafety WriteExec BackupModel.
From S2P Require Import BinlogChain LogStream.

Open Scope Z_scope.

Definition BackupEnginePgBaseBackup := $"pg_basebackup".
Definition BackupEngineWALG := $"walg".
Definition BackupEnginePgBackRest := $"pgbackrest".
Definition BackupEngineMariaDB := $"mariadb_backup".
Definition DatabaseBackupChainStatusUnsupported := $"unsupported".
Definition DatabaseLogChainStatusMissingWAL := $"missing_wal".
Definition DatabaseLogChainStatusTimelineGap := $"timeline_gap".
Definition DatabaseLogChainStatusTimelineMismatch := $"timeline_mismatch".
Definition DatabaseLogChainStatusSystemIdentifierMismatch := $"system_identifier_mismatch".
Definition DatabaseLogChainStatusLSNNotCovered := $"lsn_not_covered".
Definition DatabaseLogChainStatusUnsupported := $"unsupported".
Definition DatabaseStorageStatusAvailable := $"available".
Definition DatabaseStorageStatusMissingObject := $"missing_object".
Definition DatabaseStorageStatusChecksumFailed := $"checksum_failed".
Definition DatabaseStorageStatusPermissionDenied := $"permission_denied".
Definition DatabaseStorageStatusUnsupported := $"unsupported".
Definition DatabaseToolStatusCompatible := $"compatible".
Definition DatabaseToolStatusIncompatibleVersion := $"incompatible_version".
Definition DatabaseToolStatusMissingTool := $"missing_tool".
Definition DatabaseToolStatusPermissionDenied := $"permission_denied".
Definition DatabaseToolStatusUnsupported := $"unsupported".
Definition DatabaseBackupVerifyStatusFailed := $"failed".
Definition DatabaseRunnerJobStatusFailed := $"failed".
Definition DatabaseRestoreStatusPlanned := $"planned".
Definition DatabaseRestoreCapabilityPITRCapable := $"pitr_capable".

(** ** Data *)
Record DatabaseBarmanServer := {
  bs_ID : Z; bs_SourceInstanceID : Z; bs_RunnerHostID : Z; bs_BarmanServerName : gostring;
  bs_PGSystemIdentifier : gostring; bs_WALSegmentSize : Z; bs_LastCheckStatus : gostring }.

(** The result of a validation: the statuses, what is selected, where it runs. *)
Record plan_statuses := {
  st_BackupChain : gostring; st_LogChain : gostring; st_Storage : gostring;
  st_Tool : gostring }.
Record restoreProofBackup := {
  rb_record : DatabaseBackupRecord; rb_StorageURI : gostring; rb_ManifestJSON : gostring;
  rb_RecoverableFrom : gostring; rb_RecoverableUntil : gostring }.
Record restoreProofLogArchive := {
  rl_archive : DatabaseLogArchive; rl_FirstEventTime : gostring; rl_LastEventTime : gostring }.
Record plan_selection := {
  sel_BaseRecordID : Z; sel_BackupRecordIDs : list Z; sel_LogArchiveIDs : list Z;
  sel_BackupProofs : list restoreProofBackup; sel_LogProofs : list restoreProofLogArchive }.
Record plan_runner := {
  rn_RunnerHostID : Z; rn_BarmanServerID : Z; rn_BarmanServerName : gostring;
  rn_TargetTimelineID : gostring; rn_TargetLSN : gostring }.
Record restorePlanValidationResult := {
  pv_statuses : plan_statuses; pv_selection : plan_selection; pv_runner : plan_runner;
  pv_ValidationStatus : gostring; pv_RecoverableFrom : gostring;
  pv_RecoverableUntil : gostring; pv_ValidationSQL : list gostring;
  pv_Messages : list gostring }.

Record postgreSQLRestoreTarget := {
  tg_Type : gostring; tg_Value : gostring; tg_Time : option Z; tg_LSN : Z;
  tg_TimelineID : gostring }.

Record DatabaseRestorePlanRequest := {
  pq_SourceInstanceID : Z; pq_TargetInstanceID : Z; pq_BaseRecordID : Z;
  pq_RestoreMode : gostring; pq_RestoreTargetType : gostring;
  pq_RestoreTargetValue : gostring; pq_TargetTimelineID : gostring;
  pq_RestoreTargetInclusive : bool }.

(** The row of a plan; the JSON documents about tools, artifacts and the plan
    itself are left out. *)
Record DatabaseRestorePlan := {
  pl_SourceInstanceID : Z; pl_TargetInstanceID : Z; pl_RunnerHostID : Z;
  pl_RestoreMode : gostring; pl_RestoreTargetType : gostring;
  pl_RestoreTargetValue : gostring; pl_RestoreTargetInclusive : bool;
  pl_SelectedBaseRecordID : Z; pl_SelectedBackupRecordIDs : list Z;
  pl_SelectedLogArchiveIDs : list Z; pl_statuses : plan_statuses;
  pl_ValidationStatus : gostring; pl_RestoreStatus : gostring;
  pl_EstimatedRestoreBytes : Z; pl_EstimatedRestoreMinutes : Z; pl_OperatorID : Z;
  pl_OperatorName : gostring; pl_StartedAt : Z; pl_FinishedAt : Z;
  pl_ErrorMessage : gostring }.

(** The tables, and the restore capability of the backup tasks. *)
Record restore_db := {
  db_records : list DatabaseBackupRecord; db_archives : list DatabaseLogArchive;
  db_servers : list DatabaseBarmanServer; db_plans : list DatabaseRestorePlan;
  db_capability : gmap Z gostring }.

(** The instance rows with their environment, the errors of the queries, and
    the clock: now and a hundred years later. *)
Record restore_env := {
  re_instance : Z -> option (DatabaseInstance * gostring);
  re_list_records : option gostring;
  re_list_range : option gostring;
  re_list_archives : option gostring;
  re_list_servers : option gostring;
  re_create_plan : option gostring;
  re_update_task : Z -> option gostring;
  re_now : Z; re_century : Z }.

(** ** Field updates *)
Definition with_message (m : gostring) (r : restorePlanValidationResult) := {|
  pv_statuses := pv_statuses r; pv_selection := pv_selection r; pv_runner := pv_runner r;
  pv_ValidationStatus := pv_ValidationStatus r; pv_RecoverableFrom := pv_RecoverableFrom r;
  pv_RecoverableUntil := pv_RecoverableUntil r; pv_ValidationSQL := pv_ValidationSQL r;
  pv_Messages := pv_Messages r ++ [m] |}.
Definition with_statuses (s : plan_statuses) (r : restorePlanValidationResult) := {|
  pv_statuses := s; pv_selection := pv_selection r; pv_runner := pv_runner r;
  pv_ValidationStatus := pv_ValidationStatus r; pv_RecoverableFrom := pv_RecoverableFrom r;
  pv_RecoverableUntil := pv_RecoverableUntil r; pv_ValidationSQL := pv_ValidationSQL r;
  pv_Messages := pv_Messages r |}.
Definition with_selection (s : plan_selection) (r : restorePlanValidationResult) := {|
  pv_statuses := pv_statuses r; pv_selection := s; pv_runner := pv_runner r;
  pv_ValidationStatus := pv_ValidationStatus r; pv_RecoverableFrom := pv_RecoverableFrom r;
  pv_RecoverableUntil := pv_RecoverableUntil r; pv_ValidationSQL := pv_ValidationSQL r;
  pv_Messages := pv_Messages r |}.
Definition with_runner (s : plan_runner) (r : restorePlanValidationResult) := {|
  pv_statuses := pv_statuses r; pv_selection := pv_selection r; pv_runner := s;
  pv_ValidationStatus := pv_ValidationStatus r; pv_RecoverableFrom := pv_RecoverableFrom r;
  pv_RecoverableUntil := pv_RecoverableUntil r; pv_ValidationSQL := pv_ValidationSQL r;
  pv_Messages := pv_Messages r |}.
Definition with_validation (v : gostring) (r : restorePlanValidationResult) := {|
  pv_statuses := pv_statuses r; pv_selection := pv_selection r; pv_runner := pv_runner r;
  pv_ValidationStatus := v; pv_RecoverableFrom := pv_RecoverableFrom r;
  pv_RecoverableUntil := pv_RecoverableUntil r; pv_ValidationSQL := pv_ValidationSQL r;
  pv_Messages := pv_Messages r |}.
Definition with_window (from until : gostring) (r : restorePlanValidationResult) := {|
  pv_statuses := pv_statuses r; pv_selection := pv_selection r; pv_runner := pv_runner r;
  pv_ValidationStatus := pv_ValidationStatus r; pv_RecoverableFrom := from;
  pv_RecoverableUntil := until; pv_ValidationSQL := pv_ValidationSQL r;
  pv_Messages := pv_Messages r |}.

Definition set_log (v : gostring) (r : restorePlanValidationResult) :=
  let s := pv_statuses r in
  with_statuses {| st_BackupChain := st_BackupChain s; st_LogChain := v;
                   st_Storage := st_Storage s; st_Tool := st_Tool s |} r.
Definition set_storage (v : gostring) (r : restorePlanValidationResult) :=
  let s := pv_statuses r in
  with_statuses {| st_BackupChain := st_BackupChain s; st_LogChain := st_LogChain s;
                   st_Storage := v; st_Tool := st_Tool s |} r.
Definition set_tool (v : gostring) (r : restorePlanValidationResult) :=
  let s := pv_statuses r in
  with_statuses {| st_BackupChain := st_BackupChain s; st_LogChain := st_LogChain s;
                   st_Storage := st_Storage s; st_Tool := v |} r.
Definition set_backup (v : gostring) (r : restorePlanValidationResult) :=
  let s := pv_statuses r in
  with_statuses {| st_BackupChain := v; st_LogChain := st_LogChain s;
                   st_Storage := st_Storage s; st_Tool := st_Tool s |} r.
Definition set_backups (ids : list Z) (proofs : list restoreProofBackup)
    (r : restorePlanValidationResult) :=
  let s := pv_selection r in
  with_selection {| sel_BaseRecordID := sel_BaseRecordID s; sel_BackupRecordIDs := ids;
    sel_LogArchiveIDs := sel_LogArchiveIDs s; sel_BackupProofs := proofs;
    sel_LogProofs := sel_LogProofs s |} r.
Definition set_logs (ids : list Z) (proofs : list restoreProofLogArchive)
    (r : restorePlanValidationResult) :=
  let s := pv_selection r in
  with_selection {| sel_BaseRecordID := sel_BaseRecordID s;
    sel_BackupRecordIDs := sel_BackupRecordIDs s; sel_LogArchiveIDs := ids;
    sel_BackupProofs := sel_BackupProofs s; sel_LogProofs := proofs |} r.
Definition set_runner_host (id : Z) (r : restorePlanValidationResult) :=
  let s := pv_runner r in
  with_runner {| rn_RunnerHostID := id; rn_BarmanServerID := rn_BarmanServerID s;
    rn_BarmanServerName := rn_BarmanServerName s;
    rn_TargetTimelineID := rn_TargetTimelineID s; rn_TargetLSN := rn_TargetLSN s |} r.
Definition set_timeline (tl : gostring) (r : restorePlanValidationResult) :=
  let s := pv_runner r in
  with_runner {| rn_RunnerHostID := rn_RunnerHostID s; rn_BarmanServerID := rn_BarmanServerID s;
    rn_BarmanServerName := rn_BarmanServerName s; rn_TargetTimelineID := tl;
    rn_TargetLSN := rn_TargetLSN s |} r.

Section restore.
Context `{U : UnicodeTables, L : GoLib, A : AgentLib}.

(** ** Names *)
Definition normalizePostgreSQLPhysicalBackupEngine (value : gostring) : gostring :=
  let v := replace_rune 46 [95] (replace_rune 45 [95] (ToLower (TrimSpace value))) in
  if one_of v [[]; $"barman"] then $"barman"
  else if one_of v [$"pg_basebackup"; $"pgbasebackup"] then BackupEnginePgBaseBackup
  else if one_of v [$"walg"; $"wal_g"] then BackupEngineWALG
  else if one_of v [$"pgbackrest"; $"pg_backrest"; $"pg_back_rest"] then BackupEnginePgBackRest
  else trimText v 60.

Definition normalizeExternalToolEngineName (value : gostring) : gostring :=
  let v := replace_rune 46 [95] (replace_rune 45 [95] (ToLower (TrimSpace value))) in
  if one_of v [$"wal_g"] then BackupEngineWALG
  else if one_of v [$"pg_backrest"; $"pg_back_rest"] then BackupEnginePgBackRest
  else if one_of v [$"mariadb_backup"; $"mariabackup"] then BackupEngineMariaDB
  else if one_of v [$"pg_basebackup"; $"pgbasebackup"] then BackupEnginePgBaseBackup
  else v.

Definition archiveTypeForEngine (engine : gostring) : gostring :=
  let e := normalizeDBType engine in
  if one_of e [DBTypeMySQL; DBTypeMariaDB; DBTypeTiDB; DBTypeOceanBase]
  then DatabaseArchiveTypeBinlog
  else if one_of e [DBTypePostgreSQL; DBTypeOpenGauss] then DatabaseArchiveTypeWAL
  else [].

Definition isProductionEnvironment (environment : gostring) : bool :=
  one_of (ToLower (TrimSpace environment))
    [$"prod"; $"production"; $"prd"; $"生产"; $"生产环境"].

Definition StorageStatusText (value : gostring) : gostring :=
  let v := TrimSpace value in
  if one_of v [DatabaseStorageStatusAvailable] then $"存储可用"
  else if one_of v [DatabaseStorageStatusMissingObject] then $"对象缺失"
  else if one_of v [DatabaseStorageStatusChecksumFailed] then $"校验失败"
  else if one_of v [DatabaseStorageStatusPermissionDenied] then $"无存储权限"
  else $"不支持".

Definition ToolStatusText (value : gostring) : gostring :=
  let v := TrimSpace value in
  if one_of v [DatabaseToolStatusCompatible] then $"工具兼容"
  else if one_of v [DatabaseToolStatusIncompatibleVersion] then $"版本不兼容"
  else if one_of v [DatabaseToolStatusMissingTool] then $"缺少工具"
  else if one_of v [DatabaseToolStatusPermissionDenied] then $"无工具权限"
  else $"不支持".

Definition firstNonNilTime (values : list (option Z)) : option Z :=
  match List.find (fun v => negb (bool_decide (v = None))) values with
  | Some v => v | None => None
  end.
Definition firstNonZeroInt64 (values : list Z) : Z :=
  default 0 (List.find (fun v => 0 <? v) values).

(** [t.After(u)] and [t.Before(u)] of times that may be missing: the callers
    test for nil first. *)
Definition after_opt (t : option Z) (u : Z) : bool :=
  match t with Some t => u <? t | None => false end.
Definition before_opt (t : option Z) (u : Z) : bool :=
  match t with Some t => t <? u | None => false end.

(** The orders of the [sort.SliceStable] calls: no time comes last. *)
Definition time_before (left right : option Z) : bool :=
  match left, right with
  | None, _ => false
  | Some _, None => true
  | Some x, Some y => x <? y
  end.
Definition time_after (left right : option Z) : bool :=
  match left, right with
  | None, _ => false
  | Some _, None => true
  | Some x, Some y => y <? x
  end.

(** ** The status of one record *)
Definition storageStatusForBackupRecord (item : DatabaseBackupRecord) : gostring :=
  if bool_decide (r_VerifyStatus item = DatabaseBackupVerifyStatusFailed)
  then DatabaseStorageStatusChecksumFailed
  else if bool_decide (TrimSpace (r_StorageURI item) = []) &&
          bool_decide (TrimSpace (r_FilePath item) = [])
  then DatabaseStorageStatusMissingObject
  else
    let checksum := TrimSpace (r_ChecksumSHA256 item) in
    if negb (bool_decide (checksum = [])) && negb (byte_len checksum =? 64)
    then DatabaseStorageStatusChecksumFailed
    else DatabaseStorageStatusAvailable.

Definition toolStatusForBackupRecord (item : DatabaseBackupRecord) : gostring :=
  if bool_decide (TrimSpace (r_BackupEngine item) = []) &&
     bool_decide (TrimSpace (rd_ToolName (r_details item)) = [])
  then DatabaseToolStatusUnsupported
  else DatabaseToolStatusCompatible.

(** ** The incremental records on a base *)
Definition same_engine (item base : DatabaseBackupRecord) : bool :=
  bool_decide (TrimSpace (r_BackupEngine item) = []) ||
  bool_decide (TrimSpace (r_BackupEngine base) = []) ||
  bool_decide (normalizeExternalToolEngineName (r_BackupEngine item) =
               normalizeExternalToolEngineName (r_BackupEngine base)).
Definition same_chain (item base : DatabaseBackupRecord) : bool :=
  bool_decide (r_ChainID item = []) || bool_decide (r_ChainID base = []) ||
  bool_decide (r_ChainID item = r_ChainID base).

Definition is_incremental_of (base : DatabaseBackupRecord) (targetTime : Z)
    (item : DatabaseBackupRecord) : bool :=
  negb (r_ID item =? r_ID base) &&
  bool_decide (r_Status item = DatabaseBackupStatusSuccess) &&
  bool_decide (normalizeBackupMethod (r_BackupMethod item) =
               normalizeBackupMethod (r_BackupMethod base)) &&
  same_engine item base &&
  bool_decide (normalizeBackupLevel (r_BackupLevel item) = DatabaseBackupLevelIncremental) &&
  same_chain item base &&
  negb (after_opt (r_FinishedAt item) targetTime).

(** The loop over the sorted records: [selected] holds the numbers so far. *)
Fixpoint incremental_loop (selected : list Z) (status : gostring) (messages : list gostring)
    (items : list DatabaseBackupRecord) : gostring * list gostring :=
  match items with
  | [] => (status, messages)
  | item :: rest =>
    if (0 <? r_ParentRecordID item) && negb (bool_decide (r_ParentRecordID item ∈ selected))
    then incremental_loop (r_ID item :: selected) DatabaseBackupChainStatusMissingIncremental
           (messages ++ [$"增量备份 #" ++ fmt_d (r_ID item) ++ $" 的父记录 #"
                         ++ fmt_d (r_ParentRecordID item) ++ $" 不在当前链路内"]) rest
    else incremental_loop (r_ID item :: selected) status messages rest
  end.

Definition incrementals_of (records : list DatabaseBackupRecord) (base : DatabaseBackupRecord)
    (targetTime : Z) : list DatabaseBackupRecord :=
  sort_stable (fun a b => time_before (r_FinishedAt a) (r_FinishedAt b))
    (List.filter (is_incremental_of base targetTime) records).

(** Status, appended numbers, appended messages. *)
Definition validateIncrementalBackupChain (records : list DatabaseBackupRecord)
    (base : DatabaseBackupRecord) (targetTime : Z) : gostring * list Z * list gostring :=
  let items := incrementals_of records base targetTime in
  let '(status, messages) :=
    incremental_loop [r_ID base] DatabaseBackupChainStatusComplete [] items in
  (status, r_ID <$> items, messages).

Definition records_by_id (records : list DatabaseBackupRecord)
    : gmap Z DatabaseBackupRecord :=
  foldl (fun m item => <[r_ID item := item]> m) ∅ records.
Fixpoint first_seen (seen : list Z) (ids : list Z) : list Z :=
  match ids with
  | [] => []
  | id :: ids' => if bool_decide (id ∈ seen) then first_seen seen ids'
                  else id :: first_seen (id :: seen) ids'
  end.
Definition backupRecordsByIDs (records : list DatabaseBackupRecord) (ids : list Z)
    : list DatabaseBackupRecord :=
  omap (fun id => records_by_id records !! id) (first_seen [] ids).

Definition backupProofFromRecord (item : DatabaseBackupRecord) : restoreProofBackup := {|
  rb_record := item; rb_StorageURI := firstNonEmpty [r_StorageURI item; r_FilePath item];
  rb_ManifestJSON := trimText (rd_ManifestJSON (r_details item)) 1000;
  rb_RecoverableFrom := match r_RecoverableFrom item with Some t => format_time t | None => [] end;
  rb_RecoverableUntil :=
    match r_RecoverableUntil item with Some t => format_time t | None => [] end |}.
Definition buildSelectedBackupProofs (records : list DatabaseBackupRecord) (ids : list Z)
    : list restoreProofBackup :=
  backupProofFromRecord <$> backupRecordsByIDs records ids.

Definition buildSelectedLogProofs (logs : list DatabaseLogArchive) (ids : list Z)
    : list restoreProofLogArchive :=
  omap (fun item =>
    if bool_decide (la_ID item ∈ ids) then
      Some {| rl_archive := item;
              rl_FirstEventTime :=
                match la_FirstEventTime item with Some t => format_time t | None => [] end;
              rl_LastEventTime :=
                match la_LastEventTime item with Some t => format_time t | None => [] end |}
    else None) logs.

(** ** Coverage of a time range by archived logs *)
Definition missingLogStatus (archiveType : gostring) : gostring :=
  if bool_decide (archiveType = DatabaseArchiveTypeWAL)
  then DatabaseLogChainStatusMissingWAL else DatabaseLogChainStatusMissingBinlog.

Definition tolerance : Z := 60 * 1000000000.

Definition sort_archives (items : list DatabaseLogArchive) : list DatabaseLogArchive :=
  sort_stable (fun a b => time_before (la_FirstEventTime a) (la_FirstEventTime b)) items.

Fixpoint coverage_loop (archiveType : gostring) (endTime cursor : Z) (ids : list Z)
    (items : list DatabaseLogArchive) : gostring * list Z * gostring :=
  match items with
  | [] =>
    if cursor <? endTime
    then (missingLogStatus archiveType, ids, $"日志归档未覆盖到目标恢复时间")
    else (DatabaseLogChainStatusComplete, ids, [])
  | item :: rest =>
    match la_FirstEventTime item, la_LastEventTime item with
    | Some first, Some last =>
      if bool_decide (la_Status item = DatabaseLogArchiveStatusMissing)
      then (missingLogStatus archiveType, ids, $"日志归档文件被标记为缺失")
      else if bool_decide (la_Status item = DatabaseLogArchiveStatusChecksumFailed)
      then (DatabaseLogChainStatusTimeRangeGap, ids, $"日志归档文件 checksum 异常")
      else if cursor + tolerance <? first
      then (DatabaseLogChainStatusTimeRangeGap, ids, $"日志归档时间范围不连续")
      else
        let cursor := if cursor <? last then last else cursor in
        let ids := ids ++ [la_ID item] in
        if negb (cursor <? endTime) then (DatabaseLogChainStatusComplete, ids, [])
        else coverage_loop archiveType endTime cursor ids rest
    | _, _ => coverage_loop archiveType endTime cursor ids rest
    end
  end.

Definition validateLogArchiveCoverage (items : list DatabaseLogArchive)
    (archiveType : gostring) (startTime endTime : Z) : gostring * list Z * gostring :=
  match items with
  | [] =>
    if bool_decide (archiveType = DatabaseArchiveTypeWAL)
    then (DatabaseLogChainStatusMissingWAL, [], $"缺少覆盖目标时间段的 WAL 归档")
    else (DatabaseLogChainStatusMissingBinlog, [], $"缺少覆盖目标时间段的 binlog 归档")
  | _ => coverage_loop archiveType endTime startTime [] (sort_archives items)
  end.

(** ** Coverage of a position by WAL segments *)
Definition postgreSQLWALSegmentSize (base : DatabaseBackupRecord)
    (server : option DatabaseBarmanServer) : Z :=
  if 0 <? rd_WALSegmentSize (r_details base) then rd_WALSegmentSize (r_details base)
  else match server with
  | Some server => if 0 <? bs_WALSegmentSize server then bs_WALSegmentSize server
                   else DefaultSegmentSize
  | None => DefaultSegmentSize
  end.

(** One archive of the loop that fills [bySegment]. *)
Definition segment_key (timelineID : gostring) (segmentSize : Z) (item : DatabaseLogArchive)
    : option gostring :=
  if negb (IsSegmentName (la_FileName item)) then None
  else match ParseSegmentName (la_FileName item)
               (firstNonZeroInt64 [la_WALSegmentSize item; segmentSize]) with
  | Err _ => None
  | Ok segment =>
    if bool_decide (sg_TimelineID segment = timelineID) then Some (sg_Name segment) else None
  end.

(** The archive the map holds for a name: the last one that has it. *)
Definition by_segment (timelineID : gostring) (segmentSize : Z)
    (logs : list DatabaseLogArchive) : gmap gostring DatabaseLogArchive :=
  foldl (fun m item =>
    match segment_key timelineID segmentSize item with
    | Some name => <[name := item]> m
    | None => m
    end) ∅ logs.

Fixpoint lsn_loop (archived : gmap gostring DatabaseLogArchive) (ids : list Z)
    (required : list Segment) : gostring * list Z * gostring :=
  match required with
  | [] => (DatabaseLogChainStatusComplete, ids, [])
  | segment :: rest =>
    match archived !! sg_Name segment with
    | None => (DatabaseLogChainStatusMissingWAL, ids,
               $"缺少覆盖目标 LSN 的 WAL segment：" ++ sg_Name segment)
    | Some item =>
      if bool_decide (la_Status item = DatabaseLogArchiveStatusMissing)
      then (DatabaseLogChainStatusMissingWAL, ids,
            $"WAL segment " ++ sg_Name segment ++ $" 被标记为缺失")
      else if bool_decide (la_Status item = DatabaseLogArchiveStatusChecksumFailed)
      then (DatabaseLogChainStatusTimeRangeGap, ids,
            $"WAL segment " ++ sg_Name segment ++ $" checksum 异常")
      else lsn_loop archived (ids ++ [la_ID item]) rest
    end
  end.

Definition lsn_timeline (base : DatabaseBackupRecord) (timelineID : gostring)
    (segmentSize : Z) : gostring :=
  let timelineID := NormalizeTimelineID
                      (firstNonEmpty [timelineID; rd_TimelineID (r_details base)]) in
  if bool_decide (timelineID = []) &&
     negb (bool_decide (TrimSpace (rd_WALEnd (r_details base)) = []))
  then match ParseSegmentName (rd_WALEnd (r_details base)) segmentSize with
       | Ok segment => sg_TimelineID segment
       | Err _ => timelineID
       end
  else timelineID.

(** The name of the first required segment, or why there is none. *)
Definition lsn_start_segment (base : DatabaseBackupRecord) (timelineID : gostring)
    (segmentSize : Z) : result gostring :=
  let startSegmentName := TrimSpace (rd_WALEnd (r_details base)) in
  if negb (bool_decide (startSegmentName = [])) then Ok startSegmentName
  else if bool_decide (TrimSpace (rd_EndLSN (r_details base)) = [])
  then Err $"base backup 缺少 EndLSN/WALEnd，无法校验 LSN 覆盖"
  else match ParseLSN (rd_EndLSN (r_details base)) with
  | Err _ => Err $"base backup EndLSN 不合法"
  | Ok baseEnd => Ok (sg_Name (SegmentForLSN timelineID baseEnd segmentSize))
  end.

Definition before_base_end (base : DatabaseBackupRecord) (lsn : Z) : bool :=
  negb (bool_decide (TrimSpace (rd_EndLSN (r_details base)) = [])) &&
  match ParseLSN (rd_EndLSN (r_details base)) with
  | Ok baseEnd => lsn <=? baseEnd
  | Err _ => false
  end.

Definition validatePostgreSQLLSNWALCoverage (base : DatabaseBackupRecord)
    (logs : list DatabaseLogArchive) (target : postgreSQLRestoreTarget)
    (timelineID : gostring) (segmentSize : Z) : option (gostring * list Z * gostring) :=
  let timelineID := lsn_timeline base timelineID segmentSize in
  if bool_decide (timelineID = [])
  then Some (DatabaseLogChainStatusTimelineMismatch, [],
             $"无法确定 PostgreSQL 恢复目标 timeline")
  else if before_base_end base (tg_LSN target)
  then Some (DatabaseLogChainStatusComplete, [], [])
  else match lsn_start_segment base timelineID segmentSize with
  | Err message => Some (DatabaseLogChainStatusLSNNotCovered, [], message)
  | Ok startSegmentName =>
    let targetSegment := SegmentForLSN timelineID (tg_LSN target) segmentSize in
    required ← SegmentRange startSegmentName (sg_Name targetSegment) segmentSize 20000;
    match required with
    | Err message => Some (DatabaseLogChainStatusLSNNotCovered, [], message)
    | Ok required => Some (lsn_loop (by_segment timelineID segmentSize logs) [] required)
    end
  end.

(** ** Continuity of the segments that cover a time range *)

(** The segment numbers of the archives, or the first foreign timeline. *)
Fixpoint segment_numbers (timelineID : gostring) (logs : list DatabaseLogArchive)
    : (gostring * gostring) + list Z :=
  match logs with
  | [] => inr []
  | item :: rest =>
    if negb (IsSegmentName (la_FileName item)) then segment_numbers timelineID rest
    else match ParseSegmentName (la_FileName item) (la_WALSegmentSize item) with
    | Err _ => segment_numbers timelineID rest
    | Ok segment =>
      if negb (bool_decide (timelineID = [])) &&
         negb (bool_decide (sg_TimelineID segment = timelineID))
      then inl (DatabaseLogChainStatusTimelineMismatch,
                $"WAL " ++ la_FileName item ++ $" timeline=" ++ sg_TimelineID segment
                ++ $" 与目标 timeline=" ++ timelineID ++ $" 不一致")
      else match segment_numbers timelineID rest with
           | inl mismatch => inl mismatch
           | inr segments => inr (sg_SegmentNo segment :: segments)
           end
    end
  end.

Fixpoint consecutive (previous : Z) (segments : list Z) : bool :=
  match segments with
  | [] => true
  | n :: rest =>
    if (n =? previous) || (n =? uint64 (previous + 1)) then consecutive n rest else false
  end.

Definition validatePostgreSQLWALContinuity (logs : list DatabaseLogArchive)
    (timelineID : gostring) : gostring * gostring :=
  match segment_numbers (NormalizeTimelineID timelineID) logs with
  | inl mismatch => mismatch
  | inr segments =>
    match sort_stable Z.ltb segments with
    | [] => (DatabaseLogChainStatusComplete, [])
    | first :: rest =>
      if consecutive first rest then (DatabaseLogChainStatusComplete, [])
      else (DatabaseLogChainStatusMissingWAL, $"WAL segment 序号不连续")
    end
  end.

Definition in_time_range (logStart targetTime : Z) (item : DatabaseLogArchive) : bool :=
  negb (IsTimelineHistoryFile (la_FileName item)) &&
  match la_LastEventTime item, la_FirstEventTime item with
  | Some last, Some first => negb (last <? logStart) && negb (targetTime <? first)
  | _, _ => false
  end.

(** The sorted candidates go on to the continuity check. *)
Definition validatePostgreSQLTimeWALCoverage (base : DatabaseBackupRecord)
    (logs : list DatabaseLogArchive) (target : postgreSQLRestoreTarget)
    (timelineID : gostring) : gostring * list Z * gostring :=
  match tg_Time target with
  | None => (DatabaseLogChainStatusTimeRangeGap, [], $"恢复目标时间为空")
  | Some targetTime =>
    match firstNonNilTime [r_RecoverableUntil base; r_FinishedAt base] with
    | None => (DatabaseLogChainStatusComplete, [], [])
    | Some logStart =>
      if negb (logStart <? targetTime) then (DatabaseLogChainStatusComplete, [], [])
      else
        let candidates := List.filter (in_time_range logStart targetTime) logs in
        let '(status, ids, message) :=
          validateLogArchiveCoverage candidates DatabaseArchiveTypeWAL logStart targetTime in
        if negb (bool_decide (status = DatabaseLogChainStatusComplete))
        then (status, ids, message)
        else
          let '(continuityStatus, continuityMessage) :=
            validatePostgreSQLWALContinuity (sort_archives candidates) timelineID in
          if negb (bool_decide (continuityStatus = DatabaseLogChainStatusComplete))
          then (continuityStatus, ids, continuityMessage)
          else (DatabaseLogChainStatusComplete, ids, [])
    end
  end.

Definition validatePostgreSQLWALCoverage (base : DatabaseBackupRecord)
    (logs : list DatabaseLogArchive) (target : postgreSQLRestoreTarget)
    (timelineID : gostring) (segmentSize : Z) : option (gostring * list Z * gostring) :=
  if bool_decide (tg_Type target = $"lsn")
  then validatePostgreSQLLSNWALCoverage base logs target timelineID segmentSize
  else Some (validatePostgreSQLTimeWALCoverage base logs target timelineID).

Definition validatePostgreSQLTimelineHistory (logs : list DatabaseLogArchive)
    (timelineID : gostring) : gostring * gostring :=
  let timelineID := NormalizeTimelineID timelineID in
  if bool_decide (timelineID = []) then (DatabaseLogChainStatusComplete, [])
  else match TimelineNumber timelineID with
  | Err _ => (DatabaseLogChainStatusComplete, [])
  | Ok timelineNo =>
    if timelineNo <=? 1 then (DatabaseLogChainStatusComplete, [])
    else if existsb (fun item =>
           bool_decide (TimelineFromHistoryFile (la_FileName item) = timelineID) ||
           Contains (ToUpper (la_TimelineHistoryURI item)) (timelineID ++ $".HISTORY")) logs
    then (DatabaseLogChainStatusComplete, [])
    else (DatabaseLogChainStatusTimelineGap,
          $"timeline " ++ timelineID
          ++ $" 需要对应 timeline history 文件，但当前 WAL catalog 未找到")
  end.

(** What the filter keeps; an archive of another system stays, so that the
    mismatch is reported later. *)
Definition keep_wal_archive (systemID timelineID externalServerName : gostring)
    (item : DatabaseLogArchive) : bool :=
  if negb (bool_decide (TrimSpace systemID = [])) &&
     negb (bool_decide (TrimSpace (la_PGSystemIdentifier item) = [])) &&
     negb (bool_decide (TrimSpace (la_PGSystemIdentifier item) = TrimSpace systemID))
  then true
  else if negb (bool_decide (TrimSpace externalServerName = [])) &&
          negb (bool_decide (TrimSpace (la_ExternalServerName item) = [])) &&
          negb (bool_decide (TrimSpace (la_ExternalServerName item) =
                             TrimSpace externalServerName))
  then false
  else true.
Definition filterPostgreSQLWALArchives (items : list DatabaseLogArchive)
    (systemID timelineID externalServerName : gostring) : list DatabaseLogArchive :=
  List.filter (keep_wal_archive systemID timelineID externalServerName) items.

(** ** Incremental pg_basebackup records *)
Definition no_manifest (item : DatabaseBackupRecord) : bool :=
  bool_decide (TrimSpace (rd_BackupManifestChecksum (r_details item)) = []) &&
  bool_decide (TrimSpace (rd_ManifestJSON (r_details item)) = []).

Fixpoint pg_incremental_loop (base : DatabaseBackupRecord) (seen : list Z)
    (items : list DatabaseBackupRecord) : option gostring :=
  match items with
  | [] => None
  | item :: rest =>
    if negb (bool_decide (normalizeBackupLevel (r_BackupLevel item) =
                          DatabaseBackupLevelIncremental))
    then Some ($"pg_basebackup 增量链包含非 incremental 记录 #" ++ fmt_d (r_ID item))
    else if (0 <? r_BaseRecordID item) && negb (r_BaseRecordID item =? r_ID base)
    then Some ($"pg_basebackup 增量记录 #" ++ fmt_d (r_ID item) ++ $" 的 base_record_id="
               ++ fmt_d (r_BaseRecordID item) ++ $" 与当前 base #" ++ fmt_d (r_ID base)
               ++ $" 不一致")
    else if r_ParentRecordID item =? 0
    then Some ($"pg_basebackup 增量记录 #" ++ fmt_d (r_ID item) ++ $" 缺少 parent_record_id")
    else if negb (bool_decide (r_ParentRecordID item ∈ seen))
    then Some ($"pg_basebackup 增量记录 #" ++ fmt_d (r_ID item) ++ $" 的父记录 #"
               ++ fmt_d (r_ParentRecordID item) ++ $" 不在当前链路内")
    else if no_manifest item
    then Some ($"pg_basebackup 增量记录 #" ++ fmt_d (r_ID item)
               ++ $" 缺少 backup manifest 摘要，无法证明 pg_combinebackup 依赖链")
    else pg_incremental_loop base (r_ID item :: seen) rest
  end.

Definition validatePgBaseBackupIncrementalMetadata (records : list DatabaseBackupRecord)
    : gostring * gostring :=
  match records with
  | base :: ((_ :: _) as rest) =>
    if no_manifest base
    then (DatabaseBackupChainStatusMissingIncremental,
          $"pg_basebackup base 记录 #" ++ fmt_d (r_ID base)
          ++ $" 缺少 backup manifest 摘要，无法证明 pg_combinebackup 依赖链")
    else match pg_incremental_loop base [r_ID base] rest with
    | Some message => (DatabaseBackupChainStatusMissingIncremental, message)
    | None => (DatabaseBackupChainStatusComplete, [])
    end
  | _ => (DatabaseBackupChainStatusComplete, [])
  end.

(** ** Choosing the base backup *)
Definition isPostgreSQLExternalMetadataBackupEngine (engine : gostring) : bool :=
  one_of (normalizePostgreSQLPhysicalBackupEngine engine)
    [BackupEngineWALG; BackupEnginePgBackRest].

Definition not_blank (s : gostring) : bool := negb (bool_decide (TrimSpace s = [])).

Definition isPostgreSQLPhysicalBaseRecord (item : DatabaseBackupRecord) : bool :=
  if negb (bool_decide (normalizeBackupLevel (r_BackupLevel item) = DatabaseBackupLevelFull))
  then false
  else
    let method := normalizeBackupMethod (r_BackupMethod item) in
    let backupEngine := normalizePostgreSQLPhysicalBackupEngine (r_BackupEngine item) in
    if negb (bool_decide (method = DatabaseBackupMethodPhysical)) &&
       negb (bool_decide (method = DatabaseBackupMethodExternal) &&
             isPostgreSQLExternalMetadataBackupEngine backupEngine)
    then false
    else if one_of backupEngine [$"barman"]
    then not_blank (rd_ExternalBackupID (r_details item))
    else if one_of backupEngine [BackupEnginePgBaseBackup]
    then not_blank (r_StorageURI item) || not_blank (r_FilePath item)
    else if one_of backupEngine [BackupEngineWALG; BackupEnginePgBackRest]
    then not_blank (rd_ExternalBackupID (r_details item)) || not_blank (r_StorageURI item) ||
         not_blank (r_FilePath item)
    else false.

(** A base record for a position ends at or before it, when it says where. *)
Definition lsn_base_fits (item : DatabaseBackupRecord) (target : postgreSQLRestoreTarget)
    : bool :=
  if negb (bool_decide (tg_Type target = $"lsn")) then true
  else
    let lsnText := TrimSpace (rd_EndLSN (r_details item)) in
    if bool_decide (lsnText = []) then true
    else match ParseLSN lsnText with
    | Ok endLSN => endLSN <=? tg_LSN target
    | Err _ => false
    end.

Definition selectPostgreSQLPhysicalBaseRecord (records : list DatabaseBackupRecord)
    (target : postgreSQLRestoreTarget) : option DatabaseBackupRecord :=
  List.find (fun item => isPostgreSQLPhysicalBaseRecord item && lsn_base_fits item target)
    records.

Definition isPostgreSQLBarmanBaseRecord (item : DatabaseBackupRecord) : bool :=
  bool_decide (normalizeBackupMethod (r_BackupMethod item) = DatabaseBackupMethodPhysical) &&
  bool_decide (normalizeBackupLevel (r_BackupLevel item) = DatabaseBackupLevelFull) &&
  bool_decide (normalizePostgreSQLPhysicalBackupEngine (r_BackupEngine item) = $"barman") &&
  not_blank (rd_ExternalBackupID (r_details item)).

Definition selectPostgreSQLBarmanBaseRecord (records : list DatabaseBackupRecord)
    (target : postgreSQLRestoreTarget) : option DatabaseBackupRecord :=
  List.find (fun item => isPostgreSQLBarmanBaseRecord item && lsn_base_fits item target) records.

Definition validateRequestedPostgreSQLBaseRecord (item : DatabaseBackupRecord)
    (sourceInstanceID : Z) (target : postgreSQLRestoreTarget) : result unit :=
  if negb (rd_InstanceID (r_details item) =? sourceInstanceID)
  then Err $"指定的 base backup 不属于当前 PostgreSQL 实例"
  else if negb (bool_decide (TrimSpace (r_Status item) = DatabaseBackupStatusSuccess))
  then Err $"指定的 base backup 不是成功状态"
  else if negb (isPostgreSQLPhysicalBaseRecord item)
  then Err $"指定的记录不是可用于 PITR 的 PostgreSQL physical full backup"
  else match tg_Time target with
  | None => Ok tt
  | Some targetTime =>
    if after_opt (r_RecoverableFrom item) targetTime
    then Err $"指定 base backup 的可恢复起点晚于目标时间"
    else if bool_decide (r_RecoverableFrom item = None) &&
            after_opt (r_FinishedAt item) targetTime
    then Err $"指定 base backup 完成时间晚于目标时间"
    else Ok tt
  end.

(** Blank types mean a time. *)
Definition restore_target_type (targetType : gostring) : gostring :=
  let t := ToLower (TrimSpace targetType) in if bool_decide (t = []) then $"time" else t.

Definition normalizePostgreSQLRestoreTarget (targetType value timelineID : gostring)
    : result postgreSQLRestoreTarget :=
  let targetType := restore_target_type targetType in
  let timelineID := NormalizeTimelineID timelineID in
  if one_of targetType [$"time"] then
    match parseDatabaseTime value with
    | Ok (Some targetTime) =>
      Ok {| tg_Type := $"time"; tg_Value := format_time targetTime; tg_Time := Some targetTime;
            tg_LSN := 0; tg_TimelineID := timelineID |}
    | _ => Err $"PostgreSQL 恢复目标时间格式不正确"
    end
  else if one_of targetType [$"lsn"] then
    match ParseLSN value with
    | Ok lsn =>
      Ok {| tg_Type := $"lsn"; tg_Value := FormatLSN lsn; tg_Time := None; tg_LSN := lsn;
            tg_TimelineID := timelineID |}
    | Err _ => Err $"PostgreSQL 恢复目标 LSN 格式不正确"
    end
  else Err $"PostgreSQL PITR 首版仅支持 targetType=time 或 lsn".

Definition is_restore_candidate (targetTime : Z) (item : DatabaseBackupRecord) : bool :=
  bool_decide (r_Status item = DatabaseBackupStatusSuccess) &&
  negb (after_opt (r_RecoverableFrom item) targetTime) &&
  negb (after_opt (r_FinishedAt item) targetTime).

Definition selectRestoreBaseRecord (records : list DatabaseBackupRecord) (targetTime : Z)
    : option DatabaseBackupRecord :=
  let candidates := sort_stable (fun a b => time_after (r_FinishedAt a) (r_FinishedAt b))
                      (List.filter (is_restore_candidate targetTime) records) in
  match List.find (fun item =>
          negb (bool_decide (normalizeBackupMethod (r_BackupMethod item) =
                             DatabaseBackupMethodLogical)) &&
          bool_decide (normalizeBackupLevel (r_BackupLevel item) = DatabaseBackupLevelFull))
          candidates with
  | Some item => Some item
  | None => head candidates
  end.

(** ** The result before anything is checked *)
Definition validationSQLForRestorePlan (instance : DatabaseInstance) : list gostring :=
  let t := normalizeDBType (i_DBType instance) in
  if one_of t [DBTypeMySQL; DBTypeMariaDB]
  then [$"SELECT 1 AS restore_probe"; $"SELECT @@version AS version"; $"SHOW DATABASES"]
  else if one_of t [DBTypePostgreSQL]
  then [$"SELECT 1 AS restore_probe"; $"SELECT version()";
        $"SELECT datname FROM pg_database WHERE datistemplate = false"]
  else [$"SELECT 1 AS restore_probe"].

Definition unchecked_plan (instance : DatabaseInstance) (timeline lsn : gostring)
    : restorePlanValidationResult := {|
  pv_statuses := {| st_BackupChain := DatabaseBackupChainStatusMissingBase;
    st_LogChain := DatabaseLogChainStatusUnsupported;
    st_Storage := DatabaseStorageStatusUnsupported;
    st_Tool := DatabaseToolStatusUnsupported |};
  pv_selection := {| sel_BaseRecordID := 0; sel_BackupRecordIDs := []; sel_LogArchiveIDs := [];
    sel_BackupProofs := []; sel_LogProofs := [] |};
  pv_runner := {| rn_RunnerHostID := 0; rn_BarmanServerID := 0; rn_BarmanServerName := [];
    rn_TargetTimelineID := timeline; rn_TargetLSN := lsn |};
  pv_ValidationStatus := DatabasePlanValidationFailed; pv_RecoverableFrom := [];
  pv_RecoverableUntil := []; pv_ValidationSQL := validationSQLForRestorePlan instance;
  pv_Messages := [] |}.

Definition select_base (base : DatabaseBackupRecord) (r : restorePlanValidationResult) :=
  with_selection {| sel_BaseRecordID := r_ID base; sel_BackupRecordIDs := [r_ID base];
    sel_LogArchiveIDs := []; sel_BackupProofs := []; sel_LogProofs := [] |} r.

(** The incremental chain, its proofs and the statuses of the base record. *)
Definition check_backup_chain (records : list DatabaseBackupRecord)
    (base : DatabaseBackupRecord) (targetTime : Z) (r : restorePlanValidationResult) :=
  let '(status, ids, messages) := validateIncrementalBackupChain records base targetTime in
  let r := foldl (fun r m => with_message m r) (set_backup status r) messages in
  let ids := r_ID base :: ids in
  let r := set_backups ids (buildSelectedBackupProofs records ids) r in
  set_tool (toolStatusForBackupRecord base) (set_storage (storageStatusForBackupRecord base) r).

(** A status other than the good one adds its text. *)
Definition report_storage_and_tool (r : restorePlanValidationResult) :=
  let r := if negb (bool_decide (st_Storage (pv_statuses r) = DatabaseStorageStatusAvailable))
           then with_message (StorageStatusText (st_Storage (pv_statuses r))) r else r in
  if negb (bool_decide (st_Tool (pv_statuses r) = DatabaseToolStatusCompatible))
  then with_message (ToolStatusText (st_Tool (pv_statuses r))) r else r.

Definition all_complete (r : restorePlanValidationResult) : bool :=
  let s := pv_statuses r in
  bool_decide (st_BackupChain s = DatabaseBackupChainStatusComplete) &&
  bool_decide (st_LogChain s = DatabaseLogChainStatusComplete) &&
  bool_decide (st_Storage s = DatabaseStorageStatusAvailable) &&
  bool_decide (st_Tool s = DatabaseToolStatusCompatible).

Definition failed_plan (message : gostring) (r : restorePlanValidationResult) :=
  let r := with_validation DatabasePlanValidationFailed r in
  match pv_Messages r with [] => with_message message r | _ => r end.

(** ** The queries, [data/database/backup_repository.go] and
    [data/database/backup_pitr_repository.go]

    A missing time is the least value of its column. *)
Definition desc_less {T} (time : T -> option Z) (id : T -> Z) (a b : T) : bool :=
  match time a, time b with
  | None, None => id b <? id a
  | Some _, None => true
  | None, Some _ => false
  | Some x, Some y => if x =? y then id b <? id a else y <? x
  end.
Definition asc_less {T} (time : T -> option Z) (id : T -> Z) (a b : T) : bool :=
  desc_less time id b a.

Definition restorable_row (instanceID : Z) (targetTime : option Z)
    (r : DatabaseBackupRecord) : bool :=
  (rd_InstanceID (r_details r) =? instanceID) &&
  bool_decide (r_Status r = DatabaseBackupStatusSuccess) &&
  match targetTime with
  | None => true
  | Some t => negb (after_opt (r_FinishedAt r) t) && negb (after_opt (r_RecoverableFrom r) t)
  end.
Definition ListSuccessfulForRestore (db : restore_db) (instanceID : Z) (targetTime : option Z)
    : list DatabaseBackupRecord :=
  sort_stable (desc_less r_FinishedAt r_ID)
    (List.filter (restorable_row instanceID targetTime) (db_records db)).

Definition covering_row (instanceID : Z) (archiveType : gostring) (startTime endTime : Z)
    (a : DatabaseLogArchive) : bool :=
  (la_InstanceID a =? instanceID) && bool_decide (la_ArchiveType a = archiveType) &&
  one_of (la_Status a) [DatabaseLogArchiveStatusArchived;
    DatabaseLogArchiveStatusChecksumFailed; DatabaseLogArchiveStatusMissing] &&
  match la_LastEventTime a, la_FirstEventTime a with
  | Some last, Some first => (startTime <=? last) && (first <=? endTime)
  | _, _ => false
  end.
Definition ListCoveringTimeRange (db : restore_db) (instanceID : Z) (archiveType : gostring)
    (startTime endTime : Z) : list DatabaseLogArchive :=
  sort_stable (asc_less la_FirstEventTime la_ID)
    (List.filter (covering_row instanceID archiveType startTime endTime) (db_archives db)).

(** The page of at most 10000 rows that the restore asks for. *)
Definition wal_rows (db : restore_db) (instanceID : Z) : list DatabaseLogArchive :=
  take (Z.to_nat 10000) (sort_stable (desc_less la_FirstEventTime la_ID)
    (List.filter (fun a => ((instanceID <=? 0) || (la_InstanceID a =? instanceID)) &&
                           bool_decide (la_ArchiveType a = DatabaseArchiveTypeWAL))
       (db_archives db))).
Definition barman_rows (db : restore_db) (instanceID : Z) : list DatabaseBarmanServer :=
  take 200 (sort_stable (fun a b => bs_ID b <? bs_ID a)
    (List.filter (fun s => (instanceID <=? 0) || (bs_SourceInstanceID s =? instanceID))
       (db_servers db))).

Context (E : restore_env).

Definition or_error {T} (e : option gostring) (x : T) : result T :=
  match e with Some message => Err message | None => Ok x end.

Definition listPostgreSQLWALArchivesForRestore (db : restore_db) (instanceID : Z)
    : result (list DatabaseLogArchive) :=
  or_error (re_list_archives E) (wal_rows db instanceID).

Definition findBarmanServerForBackup (db : restore_db) (base : DatabaseBackupRecord)
    : result DatabaseBarmanServer :=
  items ← or_error (re_list_servers E) (barman_rows db (rd_InstanceID (r_details base)));
  let serverName := TrimSpace (rd_ExternalServerName (r_details base)) in
  if negb (bool_decide (serverName = [])) then
    match List.find (fun item => bool_decide (TrimSpace (bs_BarmanServerName item) = serverName))
            items with
    | Some item => Ok item
    | None => Err ($"未找到 Barman Server：" ++ serverName)
    end
  else match items with
  | [item] => Ok item
  | _ => Err $"无法唯一确定 Barman Server，请先同步 Barman catalog"
  end.

(** ** [validateRestorePlan] *)

(** The logs from the end of the base record to the target. *)
Definition check_mysql_logs (db : restore_db) (base : DatabaseBackupRecord)
    (archiveType : gostring) (logStart targetTime : Z) (r : restorePlanValidationResult)
    : restorePlanValidationResult :=
  match or_error (re_list_range E)
          (ListCoveringTimeRange db (rd_InstanceID (r_details base)) archiveType logStart
             targetTime) with
  | Err message => with_message message (set_log DatabaseLogChainStatusUnsupported r)
  | Ok logs =>
    let '(status, ids, message) :=
      validateLogArchiveCoverage logs archiveType logStart targetTime in
    let logs := sort_archives logs in
    let r := set_logs ids (buildSelectedLogProofs logs ids) (set_log status r) in
    let r := if bool_decide (message = []) then r else with_message message r in
    let r :=
      if bool_decide (archiveType = DatabaseArchiveTypeBinlog) &&
         bool_decide (status = DatabaseLogChainStatusComplete)
      then
        let '(mysqlStatus, mysqlMessage) := validateMySQLRestoreLogMetadata base logs in
        if negb (bool_decide (mysqlStatus = DatabaseLogChainStatusComplete))
        then with_message mysqlMessage (set_log mysqlStatus r) else r
      else r in
    if existsb (fun item => bool_decide (la_Status item = DatabaseLogArchiveStatusChecksumFailed))
         logs
    then set_storage DatabaseStorageStatusChecksumFailed r else r
  end.

Definition log_start (base : DatabaseBackupRecord) : option Z :=
  match r_RecoverableUntil base with Some t => Some t | None => r_FinishedAt base end.

Definition time_text (t : option Z) : gostring :=
  match t with Some t => format_time t | None => [] end.

(** The logs are asked for only when the base record ends before the target. *)
Definition check_log_chain (db : restore_db) (instance : DatabaseInstance)
    (base : DatabaseBackupRecord) (targetTime : Z) (r : restorePlanValidationResult)
    : restorePlanValidationResult :=
  match log_start base with
  | None => set_log DatabaseLogChainStatusComplete r
  | Some logStart =>
    if negb (logStart <? targetTime) then set_log DatabaseLogChainStatusComplete r
    else
      let archiveType := archiveTypeForEngine (normalizeDBType (i_DBType instance)) in
      if bool_decide (archiveType = [])
      then set_log DatabaseLogChainStatusUnsupported r
      else check_mysql_logs db base archiveType logStart targetTime r
  end.

Definition validateRestorePlan (db : restore_db) (instance : DatabaseInstance)
    (records : list DatabaseBackupRecord) (base : option DatabaseBackupRecord)
    (targetTime : Z) : restorePlanValidationResult :=
  let r := unchecked_plan instance [] [] in
  match base with
  | None => with_message $"未找到目标时间之前可用的 base backup" r
  | Some base =>
    let r := with_window (time_text (r_RecoverableFrom base))
               (time_text (r_RecoverableUntil base)) (select_base base r) in
    if bool_decide (normalizeBackupMethod (r_BackupMethod base) = DatabaseBackupMethodLogical)
    then
      with_message $"逻辑备份不支持 PITR，只能做逻辑恢复或对象级回填"
        (with_statuses {| st_BackupChain := DatabaseBackupChainStatusUnsupported;
           st_LogChain := DatabaseLogChainStatusUnsupported;
           st_Storage := DatabaseStorageStatusAvailable;
           st_Tool := DatabaseToolStatusUnsupported |} r)
    else
      let r := report_storage_and_tool (check_backup_chain records base targetTime r) in
      let r := check_log_chain db instance base targetTime r in
      if all_complete r
      then with_message $"恢复计划预校验通过，可作为后续隔离恢复输入"
             (with_validation DatabasePlanValidationPassed r)
      else failed_plan $"恢复计划预校验未通过" r
  end.

(** ** [validatePostgreSQLRestorePlan] *)
Definition postgreSQLPlanBackupEngine (r : restorePlanValidationResult) : gostring :=
  match sel_BackupProofs (pv_selection r) with
  | [] => $"barman"
  | proof :: _ => normalizePostgreSQLPhysicalBackupEngine (r_BackupEngine (rb_record proof))
  end.

Definition finalizePostgreSQLRestoreValidation (r : restorePlanValidationResult)
    : restorePlanValidationResult :=
  if all_complete r then
    let engine := postgreSQLPlanBackupEngine r in
    if one_of engine [BackupEnginePgBaseBackup]
    then with_message $"PostgreSQL pg_basebackup PITR 恢复计划预校验通过，可作为后续隔离恢复 Runner 输入"
           (with_validation DatabasePlanValidationPassed r)
    else if one_of engine [BackupEngineWALG]
    then with_message $"PostgreSQL WAL-G external PITR 元数据预校验完成；当前版本只记录计划和证明，不自动执行 WAL-G 恢复"
           (with_validation DatabasePlanValidationWarning r)
    else if one_of engine [BackupEnginePgBackRest]
    then with_message $"PostgreSQL pgBackRest legacy external PITR 元数据预校验完成；pgBackRest 不作为新方案默认推荐，当前版本不自动执行恢复"
           (with_validation DatabasePlanValidationWarning r)
    else with_message $"PostgreSQL Barman PITR 恢复计划预校验通过，可下发 barman restore 到隔离目录或隔离实例"
           (with_validation DatabasePlanValidationPassed r)
  else failed_plan $"PostgreSQL PITR 恢复计划预校验未通过" r.

Definition runnerHostIDFromRunnerStorageURI (value : gostring) : Z :=
  let value := TrimSpace value in
  if negb (HasPrefix value runner_prefix) then 0
  else
    let '(rest, _, _) := cut_at 47 (TrimPrefix value runner_prefix) in
    match ParseUint rest 10 64 with Ok id => id | Err _ => 0 end.

(** The first incremental record with a bad status; the storage is asked first. *)
Fixpoint check_incrementals (base_id : Z) (items : list DatabaseBackupRecord)
    (r : restorePlanValidationResult) : restorePlanValidationResult :=
  match items with
  | [] => r
  | item :: rest =>
    if r_ID item =? base_id then check_incrementals base_id rest r
    else
      let status := storageStatusForBackupRecord item in
      if negb (bool_decide (status = DatabaseStorageStatusAvailable))
      then with_message ($"增量备份 #" ++ fmt_d (r_ID item) ++ $" " ++ StorageStatusText status)
             (set_storage status r)
      else
        let status := toolStatusForBackupRecord item in
        if negb (bool_decide (status = DatabaseToolStatusCompatible))
        then with_message ($"增量备份 #" ++ fmt_d (r_ID item) ++ $" " ++ ToolStatusText status)
               (set_tool status r)
        else check_incrementals base_id rest r
  end.

(** Where the restore runs, by engine. The [server] found for a Barman record
    is a variable of the branch: [:=] declares it anew, and the one the code
    reads afterwards stays nil. *)
Definition check_engine (db : restore_db) (base : DatabaseBackupRecord)
    (r : restorePlanValidationResult) : restorePlanValidationResult :=
  let engine := normalizePostgreSQLPhysicalBackupEngine (r_BackupEngine base) in
  if one_of engine [$"barman"] then
    match findBarmanServerForBackup db base with
    | Err message => with_message message (set_tool DatabaseToolStatusMissingTool r)
    | Ok server =>
      let s := pv_runner r in
      let r := with_runner {| rn_RunnerHostID := bs_RunnerHostID server;
                 rn_BarmanServerID := bs_ID server;
                 rn_BarmanServerName := bs_BarmanServerName server;
                 rn_TargetTimelineID := rn_TargetTimelineID s;
                 rn_TargetLSN := rn_TargetLSN s |} r in
      if bool_decide (TrimSpace (bs_LastCheckStatus server) = DatabaseRunnerJobStatusFailed)
      then with_message $"Barman Server 最近检查失败，请先执行 Barman 检查"
             (set_tool DatabaseToolStatusIncompatibleVersion r)
      else r
    end
  else if one_of engine [BackupEnginePgBaseBackup] then
    if 0 <? runnerHostIDFromRunnerStorageURI (r_StorageURI base)
    then set_runner_host (runnerHostIDFromRunnerStorageURI (r_StorageURI base)) r
    else if 0 <? runnerHostIDFromRunnerStorageURI (r_FilePath base)
    then set_runner_host (runnerHostIDFromRunnerStorageURI (r_FilePath base)) r
    else with_message $"pg_basebackup 记录未包含 runner://runner-host-N 存储 URI，恢复执行前需登记 Runner 可读 artifact"
           (set_tool DatabaseToolStatusMissingTool r)
  else if one_of engine [BackupEngineWALG] then
    with_message $"WAL-G 作为 external metadata 纳管：OpsHub 校验备份/WAL 元数据链路，但 P3.9 不执行 wal-g backup-fetch 或 WAL replay" r
  else if one_of engine [BackupEnginePgBackRest] then
    with_message $"pgBackRest 仅作为 legacy external 纳管：新方案不默认推荐，OpsHub P3.9 不执行 pgBackRest restore" r
  else r.

(** The first archive of another system. *)
Definition foreign_system (expectedSystemID : gostring) (logs : list DatabaseLogArchive)
    : option DatabaseLogArchive :=
  if bool_decide (expectedSystemID = []) then None
  else List.find (fun item => not_blank (la_PGSystemIdentifier item) &&
         negb (bool_decide (TrimSpace (la_PGSystemIdentifier item) = expectedSystemID))) logs.

(** The first archive that is marked damaged or missing. *)
Definition report_bad_wal (logs : list DatabaseLogArchive) (r : restorePlanValidationResult)
    : restorePlanValidationResult :=
  match List.find (fun item => one_of (la_Status item)
          [DatabaseLogArchiveStatusChecksumFailed; DatabaseLogArchiveStatusMissing]) logs with
  | None => r
  | Some item =>
    if bool_decide (la_Status item = DatabaseLogArchiveStatusChecksumFailed)
    then with_message ($"WAL " ++ la_FileName item ++ $" checksum 异常")
           (set_storage DatabaseStorageStatusChecksumFailed r)
    else with_message ($"WAL " ++ la_FileName item ++ $" 被标记为缺失")
           (set_storage DatabaseStorageStatusMissingObject r)
  end.

Definition expected_timeline (base : DatabaseBackupRecord) (server : option DatabaseBarmanServer)
    (target : postgreSQLRestoreTarget) : gostring :=
  let expectedTimeline := NormalizeTimelineID
        (firstNonEmpty [tg_TimelineID target; rd_TimelineID (r_details base)]) in
  if bool_decide (expectedTimeline = []) && not_blank (rd_WALEnd (r_details base))
  then match ParseSegmentName (rd_WALEnd (r_details base))
               (postgreSQLWALSegmentSize base server) with
       | Ok segment => sg_TimelineID segment
       | Err _ => expectedTimeline
       end
  else expectedTimeline.

(** From the WAL coverage to the end. *)
Definition check_wal (base : DatabaseBackupRecord) (logs : list DatabaseLogArchive)
    (target : postgreSQLRestoreTarget) (expectedTimeline : gostring) (segmentSize : Z)
    (r : restorePlanValidationResult) : option restorePlanValidationResult :=
  '(status, selected, message) ←
    validatePostgreSQLWALCoverage base logs target expectedTimeline segmentSize;
  let r := set_logs selected (buildSelectedLogProofs logs selected) (set_log status r) in
  let r := if bool_decide (message = []) then r else with_message message r in
  let r :=
    if bool_decide (status = DatabaseLogChainStatusComplete) then
      let '(historyStatus, historyMessage) :=
        validatePostgreSQLTimelineHistory logs expectedTimeline in
      if negb (bool_decide (historyStatus = DatabaseLogChainStatusComplete))
      then with_message historyMessage (set_log historyStatus r) else r
    else r in
  Some (finalizePostgreSQLRestoreValidation (report_bad_wal logs r)).

Definition validatePostgreSQLRestorePlan (db : restore_db) (instance : DatabaseInstance)
    (records : list DatabaseBackupRecord) (base : option DatabaseBackupRecord)
    (target : postgreSQLRestoreTarget) : option restorePlanValidationResult :=
  let r := unchecked_plan instance (tg_TimelineID target)
             (if bool_decide (tg_Type target = $"lsn") then tg_Value target else []) in
  match base with
  | None => Some (with_message $"未找到目标点之前可用的 PostgreSQL 物理 full backup" r)
  | Some base =>
    let targetTime := default (re_century E) (tg_Time target) in
    let r := check_backup_chain records base targetTime (select_base base r) in
    let selected := backupRecordsByIDs records (sel_BackupRecordIDs (pv_selection r)) in
    let r := report_storage_and_tool (check_incrementals (r_ID base) selected r) in
    let backupEngine := normalizePostgreSQLPhysicalBackupEngine (r_BackupEngine base) in
    let r :=
      if bool_decide (backupEngine = BackupEnginePgBaseBackup) &&
         (1 <? Z.of_nat (length (sel_BackupRecordIDs (pv_selection r))))
      then
        let '(status, message) := validatePgBaseBackupIncrementalMetadata selected in
        if negb (bool_decide (status = DatabaseBackupChainStatusComplete))
        then with_message message
               (set_tool DatabaseToolStatusIncompatibleVersion (set_backup status r))
        else r
      else r in
    let r := check_engine db base r in
    (* the outer variable, which the branch of [check_engine] shadows *)
    let server : option DatabaseBarmanServer := None in
    let serverSystemID :=
      match server with Some server => bs_PGSystemIdentifier server | None => [] end in
    let expectedSystemID :=
      TrimSpace (firstNonEmpty [rd_PGSystemIdentifier (r_details base); serverSystemID]) in
    let expectedTimeline := expected_timeline base server target in
    let r := set_timeline expectedTimeline r in
    let server_mismatch :=
      match server with
      | Some server =>
        not_blank (rd_PGSystemIdentifier (r_details base)) &&
        not_blank (bs_PGSystemIdentifier server) &&
        negb (bool_decide (TrimSpace (rd_PGSystemIdentifier (r_details base)) =
                           TrimSpace (bs_PGSystemIdentifier server)))
      | None => false
      end in
    if server_mismatch
    then Some (finalizePostgreSQLRestoreValidation (with_message
           ($"base backup system_identifier=" ++ rd_PGSystemIdentifier (r_details base)
            ++ $" 与 Barman server=" ++ serverSystemID ++ $" 不一致")
           (set_log DatabaseLogChainStatusSystemIdentifierMismatch r)))
    else
    match listPostgreSQLWALArchivesForRestore db (rd_InstanceID (r_details base)) with
    | Err message =>
      Some (finalizePostgreSQLRestoreValidation
        (with_message ($"读取 PostgreSQL WAL catalog 失败: " ++ message)
           (set_log DatabaseLogChainStatusUnsupported r)))
    | Ok logs =>
      let externalServerName :=
        if bool_decide (backupEngine = $"barman") ||
           isPostgreSQLExternalMetadataBackupEngine backupEngine
        then rd_ExternalServerName (r_details base) else [] in
      let logs :=
        filterPostgreSQLWALArchives logs expectedSystemID expectedTimeline externalServerName in
      match foreign_system expectedSystemID logs with
      | Some item =>
        Some (finalizePostgreSQLRestoreValidation
          (with_message ($"WAL " ++ la_FileName item ++ $" system_identifier="
                         ++ la_PGSystemIdentifier item ++ $" 与 base backup="
                         ++ expectedSystemID ++ $" 不一致")
             (set_log DatabaseLogChainStatusSystemIdentifierMismatch r)))
      | None =>
        let baseTimeline := NormalizeTimelineID (rd_TimelineID (r_details base)) in
        if negb (bool_decide (expectedTimeline = [])) && negb (bool_decide (baseTimeline = [])) &&
           negb (bool_decide (baseTimeline = expectedTimeline))
        then Some (finalizePostgreSQLRestoreValidation
               (with_message ($"恢复目标 timeline=" ++ expectedTimeline
                  ++ $" 与 base backup timeline=" ++ baseTimeline ++ $" 不一致")
                  (set_log DatabaseLogChainStatusTimelineMismatch r)))
        else check_wal base logs target expectedTimeline
               (postgreSQLWALSegmentSize base server) r
      end
    end
  end.

(** ** The plan row *)
Definition estimateRestoreBytes (r : restorePlanValidationResult) : Z :=
  let add total size := if 0 <? size then int64 (total + size) else total in
  let total := foldl (fun total p => add total (r_FileSize (rb_record p))) 0
                 (sel_BackupProofs (pv_selection r)) in
  foldl (fun total p => add total (la_FileSize (rl_archive p))) total
    (sel_LogProofs (pv_selection r)).

Definition two_gib : Z := 2 * 1024 * 1024 * 1024.
Definition estimateRestoreMinutes (r : restorePlanValidationResult) : Z :=
  let total := estimateRestoreBytes r in
  if total <=? 0 then 0
  else
    let minutes := Z.quot (int64 (total + (two_gib - 1))) two_gib in
    if minutes <? 1 then 1 else minutes.

Definition restore_mode (mode : gostring) : gostring :=
  let mode := TrimSpace mode in if bool_decide (mode = []) then $"isolated_restore" else mode.

Definition plan_row (req : DatabaseRestorePlanRequest) (operator : QueryOperator)
    (targetType targetValue : gostring) (r : restorePlanValidationResult)
    : DatabaseRestorePlan := {|
  pl_SourceInstanceID := pq_SourceInstanceID req;
  pl_TargetInstanceID := pq_TargetInstanceID req;
  pl_RunnerHostID := rn_RunnerHostID (pv_runner r);
  pl_RestoreMode := restore_mode (pq_RestoreMode req);
  pl_RestoreTargetType := targetType; pl_RestoreTargetValue := targetValue;
  pl_RestoreTargetInclusive := pq_RestoreTargetInclusive req;
  pl_SelectedBaseRecordID := sel_BaseRecordID (pv_selection r);
  pl_SelectedBackupRecordIDs := sel_BackupRecordIDs (pv_selection r);
  pl_SelectedLogArchiveIDs := sel_LogArchiveIDs (pv_selection r);
  pl_statuses := pv_statuses r; pl_ValidationStatus := pv_ValidationStatus r;
  pl_RestoreStatus := DatabaseRestoreStatusPlanned;
  pl_EstimatedRestoreBytes := estimateRestoreBytes r;
  pl_EstimatedRestoreMinutes := estimateRestoreMinutes r;
  pl_OperatorID := op_ID operator; pl_OperatorName := trimText (op_Username operator) 120;
  pl_StartedAt := re_now E; pl_FinishedAt := re_now E;
  pl_ErrorMessage := trimText (Join (pv_Messages r) $"；") 1000 |}.

(** ** The operations *)

(** GORM's [Create]: a false value of a column with [default:true] is left to
    the database, and the struct is set to the default. *)
Definition default_true (v : bool) : bool := if v then v else true.
Definition created_row (p : DatabaseRestorePlan) : DatabaseRestorePlan := {|
  pl_SourceInstanceID := pl_SourceInstanceID p; pl_TargetInstanceID := pl_TargetInstanceID p;
  pl_RunnerHostID := pl_RunnerHostID p; pl_RestoreMode := pl_RestoreMode p;
  pl_RestoreTargetType := pl_RestoreTargetType p;
  pl_RestoreTargetValue := pl_RestoreTargetValue p;
  pl_RestoreTargetInclusive := default_true (pl_RestoreTargetInclusive p);
  pl_SelectedBaseRecordID := pl_SelectedBaseRecordID p;
  pl_SelectedBackupRecordIDs := pl_SelectedBackupRecordIDs p;
  pl_SelectedLogArchiveIDs := pl_SelectedLogArchiveIDs p; pl_statuses := pl_statuses p;
  pl_ValidationStatus := pl_ValidationStatus p; pl_RestoreStatus := pl_RestoreStatus p;
  pl_EstimatedRestoreBytes := pl_EstimatedRestoreBytes p;
  pl_EstimatedRestoreMinutes := pl_EstimatedRestoreMinutes p;
  pl_OperatorID := pl_OperatorID p; pl_OperatorName := pl_OperatorName p;
  pl_StartedAt := pl_StartedAt p; pl_FinishedAt := pl_FinishedAt p;
  pl_ErrorMessage := pl_ErrorMessage p |}.

Definition restorePlan_Create (p : DatabaseRestorePlan)
    : handler restore_db DatabaseRestorePlan :=
  match re_create_plan E with
  | Some e => h_fail e
  | None =>
    db ← h_get;
    h_put {| db_records := db_records db; db_archives := db_archives db;
             db_servers := db_servers db; db_plans := db_plans db ++ [created_row p];
             db_capability := db_capability db |};;
    mret (created_row p)
  end.

(** [backupTaskRepo.GetByID], the new capability, [Update] with its error
    dropped. *)
Definition mark_pitr_capable (taskID : Z) : handler restore_db unit :=
  db ← h_get;
  match db_capability db !! taskID, re_update_task E taskID with
  | Some _, None =>
    h_put {| db_records := db_records db; db_archives := db_archives db;
             db_servers := db_servers db; db_plans := db_plans db;
             db_capability :=
               <[taskID := DatabaseRestoreCapabilityPITRCapable]> (db_capability db) |}
  | _, _ => mret tt
  end.

Definition record_by_id (db : restore_db) (id : Z) : option DatabaseBackupRecord :=
  List.find (fun r => r_ID r =? id) (db_records db).

Definition postgreSQLRestoreBaseRecordFromRequest (db : restore_db)
    (req : DatabaseRestorePlanRequest) (target : postgreSQLRestoreTarget)
    (candidates : list DatabaseBackupRecord) : result DatabaseBackupRecord :=
  if pq_BaseRecordID req =? 0 then Err $"base backup 记录不能为空"
  else
    match match List.find (fun item => r_ID item =? pq_BaseRecordID req) candidates with
          | Some item => Some item
          | None => record_by_id db (pq_BaseRecordID req)
          end with
    | None => Err $"指定的 base backup 记录不存在"
    | Some item =>
      validateRequestedPostgreSQLBaseRecord item (pq_SourceInstanceID req) target;;
      mret item
    end.

Definition backupRecordInList (records : list DatabaseBackupRecord) (id : Z) : bool :=
  existsb (fun item => r_ID item =? id) records.

(** The base record and the records it is validated with. *)
Definition pg_base_and_records (db : restore_db) (req : DatabaseRestorePlanRequest)
    (target : postgreSQLRestoreTarget) (records : list DatabaseBackupRecord)
    : result (option DatabaseBackupRecord * list DatabaseBackupRecord) :=
  if 0 <? pq_BaseRecordID req then
    base ← postgreSQLRestoreBaseRecordFromRequest db req target records;
    mret (Some base,
          if backupRecordInList records (r_ID base) then records else records ++ [base])
  else mret (selectPostgreSQLPhysicalBaseRecord records target, records).

Definition runtime_panic : gostring := $"runtime error: makeslice: cap out of range".

Definition createPostgreSQLRestorePlan (req : DatabaseRestorePlanRequest)
    (source : DatabaseInstance) (targetType : gostring) (operator : QueryOperator)
    : handler restore_db DatabaseRestorePlan :=
  target ← h_lift (normalizePostgreSQLRestoreTarget targetType (pq_RestoreTargetValue req)
                     (pq_TargetTimelineID req));
  db ← h_get;
  records ← h_lift (or_error (re_list_records E)
              (ListSuccessfulForRestore db (pq_SourceInstanceID req) (tg_Time target)));
  '(base, records) ← h_lift (pg_base_and_records db req target records);
  match validatePostgreSQLRestorePlan db source records base target with
  | None => h_fail runtime_panic
  | Some r =>
    restorePlan_Create (plan_row req operator (tg_Type target) (tg_Value target) r)
  end.

Definition CreateRestorePlan (req : DatabaseRestorePlanRequest) (operator : QueryOperator)
    : handler restore_db DatabaseRestorePlan :=
  h_guard (negb (pq_SourceInstanceID req =? 0)) $"请选择来源实例";;
  '(source, _) ← h_lift (match re_instance E (pq_SourceInstanceID req) with
                         | Some i => Ok i | None => Err $"来源实例不存在" end);
  (if 0 <? pq_TargetInstanceID req then
     '(_, environment) ← h_lift (match re_instance E (pq_TargetInstanceID req) with
                                 | Some i => Ok i | None => Err $"目标实例不存在" end);
     h_guard (negb (isProductionEnvironment environment)) $"恢复计划目标实例不能是生产环境"
   else mret tt);;
  let targetType := restore_target_type (pq_RestoreTargetType req) in
  if bool_decide (normalizeDBType (i_DBType source) = DBTypePostgreSQL)
  then createPostgreSQLRestorePlan req source targetType operator
  else
    h_guard (bool_decide (targetType = $"time")) $"P1 仅支持按时间生成恢复计划";;
    targetTime ← h_lift (match parseDatabaseTime (pq_RestoreTargetValue req) with
                         | Ok (Some t) => Ok t | _ => Err $"恢复目标时间格式不正确" end);
    db ← h_get;
    records ← h_lift (or_error (re_list_records E)
                (ListSuccessfulForRestore db (pq_SourceInstanceID req) (Some targetTime)));
    let base := selectRestoreBaseRecord records targetTime in
    let r := validateRestorePlan db source records base targetTime in
    item ← restorePlan_Create (plan_row req operator targetType (format_time targetTime) r);
    (match base with
     | Some base =>
       if bool_decide (pv_ValidationStatus r = DatabasePlanValidationPassed) &&
          (0 <? rd_TaskID (r_details base))
       then mark_pitr_capable (rd_TaskID (r_details base)) else mret tt
     | None => mret tt
     end);;
    mret item.
End restore.
