(* ===== verification/RestorePlanFacts.v ===== *)
(** What a plan that passes promises: a base backup that was taken in time and
    is stored, a linked chain of incremental records, and logs that reach the
    target without a hole; for a PostgreSQL position, an archived segment for
    every position up to it. A request that fails changes nothing. *)
From Stdlib Require Import ZArith Lia String.
From stdpp Require Import base option list list_numbers gmap sorting.
From S2P Require Import Prelude GoStrings GoNumbers PgWal PgWalFacts SqlSafety WriteExec.
From S2P Require Import BackupModel BinlogChain LogStream RestorePlan.

Open Scope Z_scope.

(** ** The statuses differ *)
Lemma missing_wal_neq : DatabaseLogChainStatusMissingWAL <> DatabaseLogChainStatusComplete.
Proof. by vm_compute. Qed.
Lemma missing_binlog_neq : DatabaseLogChainStatusMissingBinlog <> DatabaseLogChainStatusComplete.
Proof. by vm_compute. Qed.
Lemma range_gap_neq : DatabaseLogChainStatusTimeRangeGap <> DatabaseLogChainStatusComplete.
Proof. by vm_compute. Qed.
Lemma timeline_mismatch_neq :
  DatabaseLogChainStatusTimelineMismatch <> DatabaseLogChainStatusComplete.
Proof. by vm_compute. Qed.
Lemma system_mismatch_neq :
  DatabaseLogChainStatusSystemIdentifierMismatch <> DatabaseLogChainStatusComplete.
Proof. by vm_compute. Qed.
Lemma lsn_not_covered_neq : DatabaseLogChainStatusLSNNotCovered <> DatabaseLogChainStatusComplete.
Proof. by vm_compute. Qed.
Lemma log_unsupported_neq : DatabaseLogChainStatusUnsupported <> DatabaseLogChainStatusComplete.
Proof. by vm_compute. Qed.
Lemma missing_incremental_neq :
  DatabaseBackupChainStatusMissingIncremental <> DatabaseBackupChainStatusComplete.
Proof. by vm_compute. Qed.
Lemma storage_failed_neq : DatabaseStorageStatusChecksumFailed <> DatabaseStorageStatusAvailable.
Proof. by vm_compute. Qed.
Lemma storage_missing_neq : DatabaseStorageStatusMissingObject <> DatabaseStorageStatusAvailable.
Proof. by vm_compute. Qed.
Lemma tool_unsupported_neq : DatabaseToolStatusUnsupported <> DatabaseToolStatusCompatible.
Proof. by vm_compute. Qed.
Lemma plan_failed_neq : DatabasePlanValidationFailed <> DatabasePlanValidationPassed.
Proof. by vm_compute. Qed.

Lemma missingLogStatus_neq ty : missingLogStatus ty <> DatabaseLogChainStatusComplete.
Proof. unfold missingLogStatus. case_match; [apply missing_wal_neq | apply missing_binlog_neq]. Qed.

(** ** Logs without a hole *)

(** The archive can be replayed and says when it begins and ends. *)
Definition replayable (a : DatabaseLogArchive) : Prop :=
  la_Status a <> DatabaseLogArchiveStatusMissing /\
  la_Status a <> DatabaseLogArchiveStatusChecksumFailed /\
  is_Some (la_FirstEventTime a) /\ is_Some (la_LastEventTime a).

(** From the cursor to the end, each archive begins at most a minute after what
    the earlier ones reach. *)
Inductive covers (e : Z) : Z -> list DatabaseLogArchive -> Prop :=
| covers_done c : e <= c -> covers e c []
| covers_step c a first last items :
    la_FirstEventTime a = Some first -> la_LastEventTime a = Some last ->
    first <= c + tolerance -> covers e (Z.max c last) items -> covers e c (a :: items).

(** Every instant after the start lies in the window of an archive, a minute
    before its first event included. *)
Definition in_window (t : Z) (a : DatabaseLogArchive) : Prop :=
  exists first last, la_FirstEventTime a = Some first /\ la_LastEventTime a = Some last /\
    first - tolerance <= t <= last.

Lemma covers_instants e c items t :
  covers e c items -> c < t <= e -> exists a, a ∈ items /\ in_window t a.
Proof.
  induction 1 as [c Hc | c a first last items Hf Hl Hg Hcov IH]; intros Ht; [lia|].
  destruct (decide (t <= last)) as [Hin|Hout].
  - exists a. split; [left|]. exists first, last. repeat split; [done..|lia|done].
  - destruct IH as (b & Hb & Hw); [lia|]. exists b. split; [by right | done].
Qed.

Section facts.
Context `{U : UnicodeTables, L : GoLib, A : AgentLib}.

Lemma coverage_loop_sound ty e c ids items ids' m :
  coverage_loop ty e c ids items = (DatabaseLogChainStatusComplete, ids', m) ->
  exists sel, ids' = ids ++ (la_ID <$> sel) /\ sel `sublist_of` items /\
    Forall replayable sel /\ covers e c sel.
Proof.
  revert c ids. induction items as [|a items IH]; intros c ids H; cbn [coverage_loop] in H.
  - destruct (c <? e) eqn:E; apply pair_eq in H as [H _]; apply pair_eq in H as [H1 H2].
    + by apply missingLogStatus_neq in H1.
    + exists []. bsimpl. rewrite app_nil_r. by repeat constructor.
  - destruct (la_FirstEventTime a) as [first|] eqn:Hf, (la_LastEventTime a) as [last|] eqn:Hl.
    2-4: destruct (IH _ _ H) as (sel & -> & Hs & Hr & Hc); exists sel;
         repeat split; [by apply sublist_cons | done..].
    destruct (bool_decide (la_Status a = DatabaseLogArchiveStatusMissing)) eqn:E1.
    { apply pair_eq in H as [H _]; apply pair_eq in H as [H1 H2]. by apply missingLogStatus_neq in H1. }
    destruct (bool_decide (la_Status a = DatabaseLogArchiveStatusChecksumFailed)) eqn:E2.
    { apply pair_eq in H as [H _]; apply pair_eq in H as [H1 H2]. by apply range_gap_neq in H1. }
    destruct (c + tolerance <? first) eqn:E3.
    { apply pair_eq in H as [H _]; apply pair_eq in H as [H1 H2]. by apply range_gap_neq in H1. }
    bsimpl.
    assert (Hra : replayable a) by (repeat split; [done..| by eexists | by eexists]).
    assert (Hmax : (if c <? last then last else c) = Z.max c last) by (destruct (c <? last) eqn:?; bsimpl; lia).
    rewrite Hmax in H. clear Hmax.
    destruct (negb (Z.max c last <? e)) eqn:E4.
    + apply pair_eq in H as [H _]; apply pair_eq in H as [_ <-]. bsimpl. exists [a].
      repeat split; [by apply sublist_skip, sublist_nil_l | by constructor |].
      eapply covers_step; [done..|]. by constructor.
    + destruct (IH _ _ H) as (sel & -> & Hs & Hr & Hc). exists (a :: sel).
      rewrite <- app_assoc. repeat split; [by apply sublist_skip | by constructor |].
      by eapply covers_step.
Qed.

Lemma validateLogArchiveCoverage_sound items ty s e ids m :
  validateLogArchiveCoverage items ty s e = (DatabaseLogChainStatusComplete, ids, m) ->
  exists sel, ids = la_ID <$> sel /\ (forall a, a ∈ sel -> a ∈ items) /\
    Forall replayable sel /\ covers e s sel.
Proof.
  unfold validateLogArchiveCoverage. destruct items as [|a items].
  - intros H. exfalso. case_match; apply pair_eq in H as [H _]; apply pair_eq in H as [H _];
      [by apply missing_wal_neq in H | by apply missing_binlog_neq in H].
  - intros H. apply coverage_loop_sound in H as (sel & Hids & Hsub & Hr & Hc).
    exists sel. repeat split; [done | | done | done]. intros b Hb.
    rewrite <- (sort_stable_perm (fun a b => time_before (la_FirstEventTime a) (la_FirstEventTime b))).
    by eapply elem_of_sublist.
Qed.

(** ** The incremental records *)
Lemma incremental_loop_sound selected status messages items m :
  incremental_loop selected status messages items = (DatabaseBackupChainStatusComplete, m) ->
  status = DatabaseBackupChainStatusComplete /\
  forall pre item post, items = pre ++ item :: post -> 0 < r_ParentRecordID item ->
    r_ParentRecordID item ∈ selected \/ r_ParentRecordID item ∈ r_ID <$> pre.
Proof.
  revert selected status messages. induction items as [|x items IH];
    intros selected status messages H; cbn [incremental_loop] in H.
  - apply pair_eq in H as [-> _]. split; [done|]. intros pre item post Hi. by destruct pre.
  - destruct ((0 <? r_ParentRecordID x) && negb (bool_decide (r_ParentRecordID x ∈ selected))) eqn:E.
    { apply IH in H as [H _]. by apply missing_incremental_neq in H. }
    apply IH in H as [-> IHs]. split; [done|]. intros pre item post Hi Hp.
    destruct pre as [|y pre]; cbn [app] in Hi; injection Hi as -> Hi.
    + left. apply andb_false_iff in E as [E|E]; bsimpl; [lia | done].
    + destruct (IHs _ _ _ Hi Hp) as [Hin|Hin].
      * apply list_elem_of_In in Hin as [<-|Hin%list_elem_of_In]; [|by left]. right. rewrite fmap_cons. by left.
      * right. rewrite fmap_cons. by right.
Qed.

(** The records on a base: each one succeeded, is incremental, was finished in
    time, and its parent is the base or an earlier one. *)
Definition linked_chain (base : DatabaseBackupRecord) (t : Z)
    (records items : list DatabaseBackupRecord) : Prop :=
  Forall (fun r => r ∈ records /\ is_incremental_of base t r = true) items /\
  forall pre item post, items = pre ++ item :: post -> 0 < r_ParentRecordID item ->
    r_ParentRecordID item = r_ID base \/ r_ParentRecordID item ∈ r_ID <$> pre.

Lemma validateIncrementalBackupChain_sound records base t ids ms :
  validateIncrementalBackupChain records base t = (DatabaseBackupChainStatusComplete, ids, ms) ->
  ids = r_ID <$> incrementals_of records base t /\
  linked_chain base t records (incrementals_of records base t).
Proof.
  unfold validateIncrementalBackupChain.
  destruct (incremental_loop _ _ _ _) as [status messages] eqn:E. intros H.
  apply pair_eq in H as [H _]. apply pair_eq in H as [-> <-]. split; [done|].
  apply incremental_loop_sound in E as [_ Hp]. split.
  - apply Forall_forall. intros r Hr. unfold incrementals_of in Hr.
    rewrite sort_stable_perm, list_elem_of_In, filter_In, <- list_elem_of_In in Hr. done.
  - intros pre item post Hi H0. destruct (Hp pre item post Hi H0) as [Hin|Hin]; [|by right].
    left. by apply list_elem_of_singleton in Hin.
Qed.

(** ** The base record *)
Lemma find_elem {T} (p : T -> bool) l x : List.find p l = Some x -> x ∈ l /\ p x = true.
Proof. intros H. apply find_some in H as [H1 H2]. by rewrite list_elem_of_In. Qed.

Lemma filter_sorted_in {T} less (p : T -> bool) l x :
  x ∈ sort_stable less (List.filter p l) <-> x ∈ l /\ p x = true.
Proof. by rewrite sort_stable_perm, !list_elem_of_In, filter_In. Qed.

Lemma ListSuccessfulForRestore_in db id t r :
  r ∈ ListSuccessfulForRestore db id t <-> r ∈ db_records db /\ restorable_row id t r = true.
Proof. apply filter_sorted_in. Qed.

Lemma selectRestoreBaseRecord_spec records t b : selectRestoreBaseRecord records t = Some b ->
  b ∈ records /\ is_restore_candidate t b = true.
Proof.
  unfold selectRestoreBaseRecord. intros H.
  assert (Hin : b ∈ sort_stable (fun a b => time_after (r_FinishedAt a) (r_FinishedAt b))
                     (List.filter (is_restore_candidate t) records)).
  { case_match eqn:Hf; [simplify_eq; by apply find_elem in Hf as [Hf _]|].
    by apply head_Some_elem_of. }
  by apply filter_sorted_in in Hin.
Qed.

Lemma selectRestoreBaseRecord_in records t b :
  selectRestoreBaseRecord records t = Some b -> b ∈ records.
Proof. intros H. by apply selectRestoreBaseRecord_spec in H as [H _]. Qed.

(** ** What a validation keeps *)
Lemma foldl_messages ms r :
  pv_statuses (foldl (fun r m => with_message m r) r ms) = pv_statuses r /\
  pv_selection (foldl (fun r m => with_message m r) r ms) = pv_selection r /\
  pv_runner (foldl (fun r m => with_message m r) r ms) = pv_runner r.
Proof. revert r. induction ms as [|m ms IH]; intros r; [done|]. apply (IH (with_message m r)). Qed.

Lemma report_keeps r :
  pv_statuses (report_storage_and_tool r) = pv_statuses r /\
  pv_selection (report_storage_and_tool r) = pv_selection r /\
  pv_runner (report_storage_and_tool r) = pv_runner r.
Proof. unfold report_storage_and_tool. by repeat case_match. Qed.

Lemma check_backup_chain_spec records base t r :
  let '(status, ids, _) := validateIncrementalBackupChain records base t in
  let r' := check_backup_chain records base t r in
  pv_statuses r' = {| st_BackupChain := status; st_LogChain := st_LogChain (pv_statuses r);
    st_Storage := storageStatusForBackupRecord base; st_Tool := toolStatusForBackupRecord base |} /\
  pv_selection r' = {| sel_BaseRecordID := sel_BaseRecordID (pv_selection r);
    sel_BackupRecordIDs := r_ID base :: ids; sel_LogArchiveIDs := sel_LogArchiveIDs (pv_selection r);
    sel_BackupProofs := buildSelectedBackupProofs records (r_ID base :: ids);
    sel_LogProofs := sel_LogProofs (pv_selection r) |} /\
  pv_runner r' = pv_runner r.
Proof.
  unfold check_backup_chain.
  destruct (validateIncrementalBackupChain records base t) as [[status ids] ms].
  destruct (foldl_messages ms (set_backup status r)) as (H1 & H2 & H3).
  cbn [set_tool set_storage set_backups with_statuses with_selection pv_statuses pv_selection pv_runner].
  rewrite H1, H2, H3. done.
Qed.

Lemma failed_plan_fails m r :
  pv_ValidationStatus (failed_plan m r) = DatabasePlanValidationFailed /\
  pv_selection (failed_plan m r) = pv_selection r /\
  pv_statuses (failed_plan m r) = pv_statuses r.
Proof. unfold failed_plan. by case_match. Qed.

(** ** How a run of [CreateRestorePlan] ends *)
Context (E : restore_env).

(** The logs change the log status and the logs that are selected; the storage
    status only gets worse. *)
Lemma check_mysql_logs_spec db base ty s t r :
  let r' := check_mysql_logs E db base ty s t r in
  st_BackupChain (pv_statuses r') = st_BackupChain (pv_statuses r) /\
  st_Tool (pv_statuses r') = st_Tool (pv_statuses r) /\
  (st_Storage (pv_statuses r') = DatabaseStorageStatusAvailable ->
   st_Storage (pv_statuses r) = DatabaseStorageStatusAvailable) /\
  sel_BaseRecordID (pv_selection r') = sel_BaseRecordID (pv_selection r) /\
  sel_BackupRecordIDs (pv_selection r') = sel_BackupRecordIDs (pv_selection r) /\
  (st_LogChain (pv_statuses r') = DatabaseLogChainStatusComplete ->
   exists message,
   validateLogArchiveCoverage
     (ListCoveringTimeRange db (rd_InstanceID (r_details base)) ty s t) ty s t
   = (DatabaseLogChainStatusComplete, sel_LogArchiveIDs (pv_selection r'), message) /\
   (ty = DatabaseArchiveTypeBinlog ->
    (validateMySQLRestoreLogMetadata base (sort_archives
      (ListCoveringTimeRange db (rd_InstanceID (r_details base)) ty s t))).1
    = DatabaseLogChainStatusComplete)).
Proof.
  unfold check_mysql_logs. destruct (re_list_range E) as [e|]; cbn [or_error].
  { do 5 (split; [done|]). intros Hl. by apply log_unsupported_neq in Hl. }
  set (logs := ListCoveringTimeRange _ _ _ _ _).
  destruct (validateLogArchiveCoverage logs ty s t) as [[status ids] message] eqn:Ev.
  destruct (validateMySQLRestoreLogMetadata base (sort_archives logs)) as [ms mm] eqn:Em.
  assert (Hst : forall r' x, st_Storage (pv_statuses (set_storage DatabaseStorageStatusChecksumFailed r')) = x ->
            x <> DatabaseStorageStatusAvailable) by (intros ? ? <-; apply storage_failed_neq).
  destruct (bool_decide (message = [])), (bool_decide (ty = DatabaseArchiveTypeBinlog)) eqn:Et,
    (bool_decide (status = DatabaseLogChainStatusComplete)) eqn:Es; cbn [andb]; bsimpl;
    try destruct (bool_decide (ms = DatabaseLogChainStatusComplete)) eqn:Eq; cbn [negb]; bsimpl;
    destruct (existsb _ _);
    cbn [set_storage set_log set_logs with_message with_statuses with_selection pv_statuses
         pv_selection st_BackupChain st_Tool st_Storage st_LogChain sel_BaseRecordID
         sel_BackupRecordIDs sel_LogArchiveIDs];
    do 5 (split; [done || (intros Hx; by apply storage_failed_neq in Hx)|]);
    intros Hc; try done; exists message; (split; [by rewrite <- Hc at 2 || congruence|]); intros Hty; done.
Qed.

Lemma validateRestorePlan_base db inst records b t :
  sel_BaseRecordID (pv_selection (validateRestorePlan E db inst records (Some b) t)) = r_ID b.
Proof.
  unfold validateRestorePlan. case_match; [done|].
  set (r0 := with_window _ _ _).
  set (r1 := report_storage_and_tool (check_backup_chain records b t r0)).
  assert (H1 : sel_BaseRecordID (pv_selection r1) = r_ID b).
  { unfold r1. rewrite (proj1 (proj2 (report_keeps _))).
    pose proof (check_backup_chain_spec records b t r0) as Hc.
    destruct (validateIncrementalBackupChain records b t) as [[? ?] ?].
    by rewrite (proj1 (proj2 Hc)). }
  set (r2 := check_log_chain E db inst b t r1).
  assert (H2 : sel_BaseRecordID (pv_selection r2) = r_ID b).
  { unfold r2, check_log_chain. repeat case_match; try done.
    by rewrite (proj1 (proj2 (proj2 (proj2 (check_mysql_logs_spec db b _ _ t r1))))). }
  case_match; [done|]. by rewrite (proj1 (proj2 (failed_plan_fails _ _))).
Qed.

(** What both engines leave: one more plan, the rows of the other tables. *)
Definition plan_added (p : DatabaseRestorePlan) (db db' : restore_db) : Prop :=
  db_plans db' = db_plans db ++ [p] /\ db_records db' = db_records db /\
  db_archives db' = db_archives db /\ db_servers db' = db_servers db.

(** A run for a PostgreSQL source, and for another one. *)
Definition pg_run (req : DatabaseRestorePlanRequest) (source : DatabaseInstance)
    (db : restore_db) (r : restorePlanValidationResult) (ty value : gostring) : Prop :=
  normalizeDBType (i_DBType source) = DBTypePostgreSQL /\
  exists target base records,
    normalizePostgreSQLRestoreTarget (restore_target_type (pq_RestoreTargetType req))
      (pq_RestoreTargetValue req) (pq_TargetTimelineID req) = Ok target /\
    pg_base_and_records db req target
      (ListSuccessfulForRestore db (pq_SourceInstanceID req) (tg_Time target))
    = Ok (base, records) /\
    validatePostgreSQLRestorePlan E db source records base target = Some r /\
    ty = tg_Type target /\ value = tg_Value target.

Definition time_run (req : DatabaseRestorePlanRequest) (source : DatabaseInstance)
    (db : restore_db) (r : restorePlanValidationResult) (t : Z) (records : list DatabaseBackupRecord)
    : Prop :=
  normalizeDBType (i_DBType source) <> DBTypePostgreSQL /\
  parseDatabaseTime (pq_RestoreTargetValue req) = Ok (Some t) /\
  records = ListSuccessfulForRestore db (pq_SourceInstanceID req) (Some t) /\
  r = validateRestorePlan E db source records (selectRestoreBaseRecord records t) t.

Definition target_allowed (req : DatabaseRestorePlanRequest) : Prop :=
  0 < pq_TargetInstanceID req ->
  exists i environment, re_instance E (pq_TargetInstanceID req) = Some (i, environment) /\
    isProductionEnvironment environment = false.

(** The capability of the task of the base record, when the plan passed. *)
Definition capability_after (r : restorePlanValidationResult)
    (base : option DatabaseBackupRecord) (db db' : restore_db) : Prop :=
  db_capability db' = db_capability db \/
  exists b, base = Some b /\ pv_ValidationStatus r = DatabasePlanValidationPassed /\
    db_capability db' =
    <[rd_TaskID (r_details b) := DatabaseRestoreCapabilityPITRCapable]> (db_capability db).

Lemma restorePlan_Create_run p db :
  restorePlan_Create E p db =
  match re_create_plan E with
  | Some e => (Err e, db)
  | None => (Ok (created_row p), {| db_records := db_records db; db_archives := db_archives db;
      db_servers := db_servers db; db_plans := db_plans db ++ [created_row p];
      db_capability := db_capability db |})
  end.
Proof. unfold restorePlan_Create. by case_match. Qed.

Lemma mark_pitr_capable_run id db :
  exists db', mark_pitr_capable E id db = (Ok tt, db') /\
    db_plans db' = db_plans db /\ db_records db' = db_records db /\
    db_archives db' = db_archives db /\ db_servers db' = db_servers db /\
    (db_capability db' = db_capability db \/
     db_capability db' = <[id := DatabaseRestoreCapabilityPITRCapable]> (db_capability db)).
Proof.
  unfold mark_pitr_capable. rewrite h_get_bind. repeat case_match; eexists; (split; [done|]);
    cbn [db_plans db_records db_archives db_servers db_capability]; auto 10.
Qed.

Lemma CreateRestorePlan_inv req op db res db' :
  CreateRestorePlan E req op db = (res, db') ->
  (exists e, res = Err e /\ db' = db) \/
  (exists source environment r ty value,
    pq_SourceInstanceID req <> 0 /\
    re_instance E (pq_SourceInstanceID req) = Some (source, environment) /\
    target_allowed req /\
    let p := created_row (plan_row E req op ty value r) in
    res = Ok p /\ plan_added p db db' /\
    ((pg_run req source db r ty value /\ db_capability db' = db_capability db) \/
     (exists t records, time_run req source db r t records /\
        ty = restore_target_type (pq_RestoreTargetType req) /\ value = format_time t /\
        capability_after r (selectRestoreBaseRecord records t) db db'))).
Proof.
  unfold CreateRestorePlan. rewrite h_guard_bind. intros H.
  destruct (negb (pq_SourceInstanceID req =? 0)) eqn:E0; [|left; apply pair_eq in H as [<- <-]; eauto].
  rewrite h_lift_bind in H. bsimpl.
  destruct (re_instance E (pq_SourceInstanceID req)) as [[source environment]|] eqn:E1;
    [|left; apply pair_eq in H as [<- <-]; eauto].
  apply h_bind_inv in H as [([] & s1 & H1 & H)|(e & H1 & ->)].
  2: { left. exists e. split; [done|]. case_match; [|done]. rewrite h_lift_bind in H1.
    destruct (re_instance E (pq_TargetInstanceID req)) as [[i env]|]; [|by apply pair_eq in H1 as [_ ->]].
    unfold h_guard in H1. by case_match; apply pair_eq in H1 as [_ ->]. }
  assert (s1 = db /\ target_allowed req) as [-> Hallowed].
  { unfold target_allowed. destruct (0 <? pq_TargetInstanceID req) eqn:E2; bsimpl;
      [|apply pair_eq in H1 as [_ ->]; split; [done | lia]].
    rewrite h_lift_bind in H1.
    destruct (re_instance E (pq_TargetInstanceID req)) as [[i env]|]; [|done].
    apply h_guard_Ok in H1 as (H1 & _ & ->). bsimpl. split; [done|]. eauto. }
  clear H1. destruct (bool_decide (normalizeDBType (i_DBType source) = DBTypePostgreSQL)) eqn:E2; bsimpl.
  - unfold createPostgreSQLRestorePlan in H. rewrite h_lift_bind in H.
    destruct (normalizePostgreSQLRestoreTarget _ _ _) as [target|e] eqn:Et;
      [|left; apply pair_eq in H as [<- <-]; eauto].
    rewrite h_get_bind, h_lift_bind in H.
    destruct (re_list_records E) as [e|]; cbn [or_error] in H;
      [left; apply pair_eq in H as [<- <-]; eauto|].
    rewrite h_lift_bind in H.
    destruct (pg_base_and_records _ _ _ _) as [[base records]|e] eqn:Eb;
      [|left; apply pair_eq in H as [<- <-]; eauto].
    destruct (validatePostgreSQLRestorePlan _ _ _ _ _ _) as [r|] eqn:Ev;
      [|left; apply pair_eq in H as [<- <-]; eauto].
    rewrite restorePlan_Create_run in H.
    destruct (re_create_plan E); [left; apply pair_eq in H as [<- <-]; eauto|].
    apply pair_eq in H as [<- <-]. right.
    exists source, environment, r, (tg_Type target), (tg_Value target).
    repeat split; try done. left. split; [|done]. split; [done|]. by exists target, base, records.
  - rewrite h_guard_bind in H. case_match; [|left; apply pair_eq in H as [<- <-]; eauto].
    rewrite h_lift_bind in H.
    destruct (parseDatabaseTime (pq_RestoreTargetValue req)) as [[t|]|] eqn:Et;
      [|left; apply pair_eq in H as [<- <-]; eauto..].
    rewrite h_get_bind, h_lift_bind in H.
    destruct (re_list_records E) as [e|]; cbn [or_error] in H;
      [left; apply pair_eq in H as [<- <-]; eauto|].
    set (records := ListSuccessfulForRestore db (pq_SourceInstanceID req) (Some t)) in *.
    set (base := selectRestoreBaseRecord records t) in *.
    set (r := validateRestorePlan E db source records base t) in *. cbv zeta in H.
    apply h_bind_inv in H as [(p & s1 & H1 & H)|(e & H1 & ->)].
    2: { left. exists e. split; [done|]. rewrite restorePlan_Create_run in H1.
         destruct (re_create_plan E); [by apply pair_eq in H1 as [_ <-] | done]. }
    rewrite restorePlan_Create_run in H1. destruct (re_create_plan E); [done|].
    apply pair_eq in H1 as [H1 <-]. injection H1 as <-. right.
    exists source, environment, r, (restore_target_type (pq_RestoreTargetType req)), (format_time t).
    split; [done|]. split; [done|]. split; [done|]. cbv zeta.
    assert (Hrun : time_run req source db r t records) by done.
    destruct base as [b|] eqn:Eb.
    + destruct (bool_decide (pv_ValidationStatus r = DatabasePlanValidationPassed) &&
                (0 <? rd_TaskID (r_details b))) eqn:E3.
      * destruct (mark_pitr_capable_run (rd_TaskID (r_details b))
          {| db_records := db_records db; db_archives := db_archives db;
             db_servers := db_servers db;
             db_plans := db_plans db ++ [created_row (plan_row E req op
               (restore_target_type (pq_RestoreTargetType req)) (format_time t) r)];
             db_capability := db_capability db |}) as (db2 & Hm & Hp & Hr & Ha & Hs & Hc).
        apply h_bind_inv in H as [([] & s2 & H2 & H)|(e & H2 & _)]; rewrite Hm in H2; [|done].
        injection H2 as <-. apply pair_eq in H as [<- <-]. bsimpl.
        split; [done|]. split; [done|]. right. exists t, records. split; [done|]. split; [done|].
        split; [done|]. fold base. rewrite Eb. destruct Hc as [Hc|Hc]; [by left | right; eauto].
      * rewrite h_ret_bind in H. apply pair_eq in H as [<- <-]. split; [done|]. split; [done|].
        right. exists t, records. split; [done|]. split; [done|]. split; [done|]. by left.
    + rewrite h_ret_bind in H. apply pair_eq in H as [<- <-]. split; [done|]. split; [done|].
      right. exists t, records. split; [done|]. split; [done|]. split; [done|]. by left.
Qed.

(** C39: [CreateRestorePlan] is all or nothing. A request that fails leaves every
    table as it was; one that succeeds names an existing source and a target
    outside of production, appends exactly one plan with the statuses of its
    validation, and touches nothing else but the restore capability of the task
    of the base record, which it raises only for a plan that passed. The saved
    plan always includes the target event, whatever the request says. *)
Theorem create_plan_atomic req op db res db' :
  CreateRestorePlan E req op db = (res, db') ->
  match res with
  | Err _ => db' = db
  | Ok p =>
      is_Some (re_instance E (pq_SourceInstanceID req)) /\ target_allowed req /\
      plan_added p db db' /\ pl_RestoreStatus p = DatabaseRestoreStatusPlanned /\
      pl_RestoreTargetInclusive p = true /\
      (db_capability db' <> db_capability db ->
       pl_ValidationStatus p = DatabasePlanValidationPassed /\
       exists b, b ∈ db_records db /\ r_ID b = pl_SelectedBaseRecordID p /\
         db_capability db' = <[rd_TaskID (r_details b) := DatabaseRestoreCapabilityPITRCapable]>
                               (db_capability db))
  end.
Proof.
  intros H. apply CreateRestorePlan_inv in H
    as [(e & -> & ->)|(source & env & r & ty & value & H0 & Hs & Ht & -> & Hp & Hc)]; [done|].
  split; [by eexists|]. split; [done|]. split; [done|]. split; [done|].
  split; [cbn; by destruct (pq_RestoreTargetInclusive req)|]. intros Hne.
  destruct Hc as [[_ Hc]|(t & records & (_ & _ & -> & Hr) & _ & _ & [Hc|(b & Hb & Hv & Hc)])]; [done..|].
  split; [done|]. exists b. rewrite Hb in Hr. split; [|split; [|done]].
  - apply selectRestoreBaseRecord_in in Hb. by apply ListSuccessfulForRestore_in in Hb as [Hb _].
  - cbn [pl_SelectedBaseRecordID created_row plan_row]. rewrite Hr.
    symmetry. apply validateRestorePlan_base.
Qed.

(** ** A plan for a time *)

(** The logs of a plan reach from [s] to [t] without a hole. *)
Definition logs_reach (db : restore_db) (instanceID : Z) (ty : gostring) (ids : list Z)
    (s t : Z) : Prop :=
  forall u, s < u <= t -> exists a, a ∈ db_archives db /\ la_InstanceID a = instanceID /\
    la_ArchiveType a = ty /\ la_ID a ∈ ids /\ replayable a /\ in_window u a.

Lemma ListCoveringTimeRange_in db id ty s t a :
  a ∈ ListCoveringTimeRange db id ty s t ->
  a ∈ db_archives db /\ la_InstanceID a = id /\ la_ArchiveType a = ty.
Proof.
  intros H. apply filter_sorted_in in H as [Hin H]. unfold covering_row in H.
  apply andb_true_iff in H as [H _]. bsimpl. done.
Qed.

Lemma coverage_reaches db id ty s t ids m :
  validateLogArchiveCoverage (ListCoveringTimeRange db id ty s t) ty s t
  = (DatabaseLogChainStatusComplete, ids, m) ->
  logs_reach db id ty ids s t.
Proof.
  intros H u Hu. apply validateLogArchiveCoverage_sound in H as (sel & -> & Hin & Hr & Hc).
  destruct (covers_instants t s sel u Hc Hu) as (a & Ha & Hw).
  destruct (ListCoveringTimeRange_in db id ty s t a (Hin a Ha)) as (H1 & H2 & H3).
  exists a. rewrite Forall_forall in Hr. split; [done|]. split; [done|]. split; [done|].
  split; [by apply list_elem_of_fmap_2|]. split; [by apply Hr | done].
Qed.

(** Every check of [validateRestorePlan], read off a plan that passed. *)
Lemma validateRestorePlan_passed db inst records base t r :
  r = validateRestorePlan E db inst records base t ->
  pv_ValidationStatus r = DatabasePlanValidationPassed ->
  exists b, base = Some b /\
    normalizeBackupMethod (r_BackupMethod b) <> DatabaseBackupMethodLogical /\
    storageStatusForBackupRecord b = DatabaseStorageStatusAvailable /\
    toolStatusForBackupRecord b = DatabaseToolStatusCompatible /\
    sel_BackupRecordIDs (pv_selection r) = r_ID b :: (r_ID <$> incrementals_of records b t) /\
    linked_chain b t records (incrementals_of records b t) /\
    forall s, log_start b = Some s -> s < t ->
      let ty := archiveTypeForEngine (normalizeDBType (i_DBType inst)) in
      logs_reach db (rd_InstanceID (r_details b)) ty (sel_LogArchiveIDs (pv_selection r)) s t /\
      (ty = DatabaseArchiveTypeBinlog ->
       (validateMySQLRestoreLogMetadata b (sort_archives
         (ListCoveringTimeRange db (rd_InstanceID (r_details b)) ty s t))).1
       = DatabaseLogChainStatusComplete).
Proof.
  intros Hr Hv. unfold validateRestorePlan in Hr. destruct base as [b|].
  2: { subst r. by apply plan_failed_neq in Hv. }
  exists b. split; [done|].
  destruct (bool_decide (normalizeBackupMethod (r_BackupMethod b) = DatabaseBackupMethodLogical)) eqn:Em.
  { subst r. by apply plan_failed_neq in Hv. }
  bsimpl. split; [done|]. cbv zeta in Hr.
  set (r0 := with_window _ _ _) in Hr.
  set (r1 := report_storage_and_tool (check_backup_chain records b t r0)) in Hr.
  set (r2 := check_log_chain E db inst b t r1) in Hr.
  destruct (all_complete r2) eqn:Ec.
  2: { subst r. rewrite (proj1 (failed_plan_fails _ _)) in Hv. by apply plan_failed_neq in Hv. }
  assert (Hsel : pv_selection r = pv_selection r2) by (by subst r).
  rewrite Hsel. clear Hr Hv Hsel. unfold all_complete in Ec. bsimpl.
  match goal with H : st_LogChain _ = _ |- _ => rename H into Hcomplete end.
  pose proof (check_backup_chain_spec records b t r0) as Hchain.
  destruct (report_keeps (check_backup_chain records b t r0)) as (K1 & K2 & _).
  fold r1 in K1, K2.
  destruct (validateIncrementalBackupChain records b t) as [[status ids] ms] eqn:Ei.
  destruct Hchain as (C1 & C2 & _). rewrite C1 in K1. rewrite C2 in K2.
  (* the logs change neither the chain nor the tool, and keep the records *)
  assert (Hlogs : st_BackupChain (pv_statuses r2) = status /\
    st_Tool (pv_statuses r2) = toolStatusForBackupRecord b /\
    storageStatusForBackupRecord b = DatabaseStorageStatusAvailable /\
    sel_BackupRecordIDs (pv_selection r2) = r_ID b :: ids).
  { unfold r2, check_log_chain in *. repeat case_match;
      try (rewrite ?K1, ?K2 in *; cbn in *; rewrite ?K1, ?K2 in *; done).
    destruct (check_mysql_logs_spec db b (archiveTypeForEngine (normalizeDBType (i_DBType inst)))
      z t r1) as (M1 & M2 & M3 & _ & M5 & _).
    rewrite M1, M2, M5, K1, K2. rewrite K1 in M3. by repeat split; auto. }
  destruct Hlogs as (L1 & L2 & L3 & L4). rewrite L1 in *. subst status.
  apply validateIncrementalBackupChain_sound in Ei as [-> Hlinked].
  split; [done|]. split; [congruence|]. split; [done|]. split; [done|].
  intros s Hs Hst. cbv zeta. unfold r2, check_log_chain in *. rewrite Hs in *.
  rewrite (proj2 (Z.ltb_lt s t) Hst) in *. cbn [negb] in *.
  case_match; [by apply log_unsupported_neq in Hcomplete|].
  destruct (check_mysql_logs_spec db b (archiveTypeForEngine (normalizeDBType (i_DBType inst)))
    s t r1) as (_ & _ & _ & _ & _ & M6). destruct (M6 Hcomplete) as (m & Hcov & Hmeta).
  split; [by apply coverage_reaches in Hcov | done].
Qed.


(** ** A plan for a position *)
Context {UL : UpperLaws U}.

Lemma by_segment_spec_from (m : gmap gostring DatabaseLogArchive) tl size logs name a :
  foldl (fun m item => match segment_key tl size item with
                       | Some name => <[name := item]> m | None => m end) m logs !! name = Some a ->
  m !! name = Some a \/ (a ∈ logs /\ segment_key tl size a = Some name).
Proof.
  revert m. induction logs as [|x logs IH]; intros m H; cbn [foldl] in H; [by left|].
  apply IH in H as [H|[H1 H2]]; [|right; split; [by right | done]].
  destruct (segment_key tl size x) as [n|] eqn:En; [|by left].
  destruct (decide (n = name)) as [->|Hne].
  - rewrite lookup_insert_eq in H. simplify_eq. right. split; [by left | done].
  - rewrite lookup_insert_ne in H by done. by left.
Qed.

Lemma by_segment_spec tl size logs name a :
  by_segment tl size logs !! name = Some a -> a ∈ logs /\ segment_key tl size a = Some name.
Proof.
  unfold by_segment. intros H.
  destruct (by_segment_spec_from ∅ tl size logs name a H) as [H'|H']; [|exact H'].
  rewrite lookup_empty in H'. discriminate.
Qed.

(** An archive of the map carries a segment of the timeline. *)
Lemma segment_key_spec tl size a name : segment_key tl size a = Some name ->
  timeline_name tl /\ ToUpper (TrimSpace (la_FileName a)) = name.
Proof.
  unfold segment_key. case_match; [done|]. destruct (ParseSegmentName _ _) as [sg|] eqn:Ep; [|done].
  case_match eqn:Et; [|done]. intros [= <-]. bsimpl. subst tl.
  destruct (ParseSegmentName_inv _ _ _ Ep) as (Hn & Hname & Hp). split; [|done].
  rewrite ParseSegmentName_name in Hp by done. injection Hp as <-. cbn [sg_TimelineID].
  destruct Hn as [Hx Hl]. split; [by apply Forall_take_hex|]. rewrite length_take. lia.
Qed.

Lemma lsn_loop_sound archived ids required ids' m :
  lsn_loop archived ids required = (DatabaseLogChainStatusComplete, ids', m) ->
  (forall x, x ∈ ids -> x ∈ ids') /\
  forall sg, sg ∈ required -> exists a, archived !! sg_Name sg = Some a /\ la_ID a ∈ ids' /\
    la_Status a <> DatabaseLogArchiveStatusMissing /\
    la_Status a <> DatabaseLogArchiveStatusChecksumFailed.
Proof.
  revert ids. induction required as [|sg required IH]; intros ids H; cbn [lsn_loop] in H.
  - apply pair_eq in H as [H _]. apply pair_eq in H as [_ ->]. split; [done|].
    intros sg Hsg. by apply not_elem_of_nil in Hsg.
  - destruct (archived !! sg_Name sg) as [a|] eqn:Ea.
    2: { apply pair_eq in H as [H _]. apply pair_eq in H as [H _]. by apply missing_wal_neq in H. }
    destruct (bool_decide (la_Status a = DatabaseLogArchiveStatusMissing)) eqn:E1.
    { apply pair_eq in H as [H _]. apply pair_eq in H as [H _]. by apply missing_wal_neq in H. }
    destruct (bool_decide (la_Status a = DatabaseLogArchiveStatusChecksumFailed)) eqn:E2.
    { apply pair_eq in H as [H _]. apply pair_eq in H as [H _]. by apply range_gap_neq in H. }
    bsimpl. apply IH in H as [H1 H2]. split.
    + intros x Hx. apply H1. apply elem_of_app. by left.
    + intros s Hs. apply elem_of_cons in Hs as [->|Hs]; [|by apply H2].
      exists a. split; [done|]. split; [|done]. apply H1, elem_of_app. right. by apply list_elem_of_singleton.
Qed.

(** The archived segments of a timeline reach from a segment to a position. *)
Definition segments_reach (logs : list DatabaseLogArchive) (ids : list Z) (tl : gostring)
    (size from to_ : Z) : Prop :=
  forall lsn, from <= lsn <= to_ -> exists a, a ∈ logs /\ la_ID a ∈ ids /\
    la_Status a <> DatabaseLogArchiveStatusMissing /\
    la_Status a <> DatabaseLogArchiveStatusChecksumFailed /\
    ToUpper (TrimSpace (la_FileName a)) = sg_Name (SegmentForLSN tl lsn size).

Lemma lsn_coverage_reaches base logs target tl size P ids m :
  wal_size size -> segmentsPerLog size = P -> 0 <= tg_LSN target < 2 ^ 64 ->
  validatePostgreSQLLSNWALCoverage base logs target tl size
  = Some (DatabaseLogChainStatusComplete, ids, m) ->
  let tl := lsn_timeline base tl size in
  before_base_end base (tg_LSN target) = true \/
  exists start a, lsn_start_segment base tl size = Ok start /\
    ParseSegmentName start size = Ok a /\
    (sg_Segment a < P ->
     segments_reach logs ids tl size (sg_SegmentNo a * size) (tg_LSN target)).
Proof.
  intros Hw HP Hlsn H tl'. unfold validatePostgreSQLLSNWALCoverage in H. fold tl' in H.
  destruct (bool_decide (tl' = [])) eqn:E0.
  { apply some_triple in H as [H _]. by apply timeline_mismatch_neq in H. }
  destruct (before_base_end base (tg_LSN target)) eqn:E1; [by left|]. right.
  destruct (lsn_start_segment base tl' size) as [start|e] eqn:E2.
  2: { apply some_triple in H as [H _]. by apply lsn_not_covered_neq in H. }
  destruct (SegmentRange start _ size 20000) as [required|] eqn:E3; [|done].
  cbn [mbind option_bind] in H. destruct required as [required|e].
  2: { apply some_triple in H as [H _]. by apply lsn_not_covered_neq in H. }
  apply (inj Some) in H. apply lsn_loop_sound in H as [_ Hloop].
  set (b := SegmentForLSN tl' (tg_LSN target) size) in *.
  destruct (ParseSegmentName start size) as [a|] eqn:Ha;
    [|unfold SegmentRange in E3; by rewrite Ha in E3].
  exists start, a. split; [done|]. split; [done|]. intros Hla.
  destruct (wal_size_per_log size Hw) as (_ & P' & HP' & HPr & Hps).
  assert (P' = P) as -> by congruence. clear HP'.
  (* some archive carries the timeline *)
  assert (Htl : timeline_name tl').
  { assert (exists sg, sg ∈ required) as [sg Hsg].
    { unfold SegmentRange in E3. rewrite Ha in E3.
      destruct (ParseSegmentName (sg_Name b) size) as [b'|]; [|done].
      repeat case_match; try done.
      destruct (range_loop _ _ _ _) as [[|x l]|] eqn:El; try done.
      - unfold range_fuel in El. rewrite range_loop_S in El. case_match; [done|].
        by destruct (range_loop _ _ _ _).
      - injection E3 as <-. exists x. by left. }
    destruct (Hloop sg Hsg) as (x & Hx & _). apply by_segment_spec in Hx as [_ Hx].
    by apply segment_key_spec in Hx as [Hx _]. }
  assert (Hdiv : forall n, 0 <= n < 2 ^ 64 -> 0 <= n / size < 2 ^ 32 * P).
  { intros n Hn. assert (0 < size) by (destruct Hw; lia).
    split; [apply Z.div_pos; lia | apply Z.div_lt_upper_bound; lia]. }
  assert (Hb : b = segment_at tl' P (tg_LSN target / size)) by (by apply SegmentForLSN_at).
  assert (Hpb : ParseSegmentName (sg_Name b) size = Ok (segment_at tl' P (tg_LSN target / size)))
    by (rewrite Hb; apply ParseSegmentName_at; auto).
  destruct (SegmentRange_run start (sg_Name b) size 20000 P a (segment_at tl' P (tg_LSN target / size)))
    as (e1 & e2 & e3 & Hrun); [done..| | ].
  { cbn [sg_Segment segment_at]. apply Z.mod_pos_bound. lia. }
  rewrite E3 in Hrun. cbn [sg_TimelineID segment_at] in Hrun.
  destruct (bool_decide (sg_TimelineID a = tl')) eqn:Et; [|done]. bsimpl. cbn [negb] in Hrun.
  change (sg_SegmentNo (segment_at tl' P (tg_LSN target / size))) with (tg_LSN target / size) in Hrun.
  case_match; [done|]. case_match; [done|]. injection Hrun as ->. bsimpl.
  assert (0 < size) by (destruct Hw; lia).
  intros lsn Hr. assert (Hq : sg_SegmentNo a <= lsn / size <= tg_LSN target / size).
  { split; [apply Z.div_le_lower_bound; lia | apply Z.div_le_mono; lia]. }
  assert (0 <= sg_SegmentNo a) by (destruct (ParseSegmentName_is_at start size P a) as (_ & ? & _); [done..|lia]).
  destruct (Hloop (segment_at (sg_TimelineID a) P (lsn / size))) as (x & Hx & Hid & Hs1 & Hs2).
  { apply list_elem_of_fmap_2, elem_of_seqZ. lia. }
  apply by_segment_spec in Hx as [Hin Hkey]. apply segment_key_spec in Hkey as [_ Hname].
  exists x. split; [done|]. split; [done|]. split; [done|]. split; [done|].
  rewrite Hname, Et. rewrite (SegmentForLSN_at tl' lsn size P); [done..|]. nia.
Qed.

(** *** The steps of the PostgreSQL validation *)

(** A step keeps the selection, and its statuses are good only when they were
    good before. *)
Definition only_worse (r r' : restorePlanValidationResult) : Prop :=
  pv_selection r' = pv_selection r /\
  (st_BackupChain (pv_statuses r') = DatabaseBackupChainStatusComplete ->
   st_BackupChain (pv_statuses r) = DatabaseBackupChainStatusComplete) /\
  (st_Storage (pv_statuses r') = DatabaseStorageStatusAvailable ->
   st_Storage (pv_statuses r) = DatabaseStorageStatusAvailable) /\
  (st_Tool (pv_statuses r') = DatabaseToolStatusCompatible ->
   st_Tool (pv_statuses r) = DatabaseToolStatusCompatible).

#[local] Instance only_worse_preorder : PreOrder only_worse.
Proof.
  split; [by intros r|]. intros r1 r2 r3 (A1 & A2 & A3 & A4) (B1 & B2 & B3 & B4).
  split; [congruence|]. auto.
Qed.

Lemma only_worse_message m r : only_worse r (with_message m r).
Proof. done. Qed.
Lemma only_worse_log v r : only_worse r (set_log v r).
Proof. done. Qed.
Lemma only_worse_storage v r :
  v <> DatabaseStorageStatusAvailable -> only_worse r (set_storage v r).
Proof. intros Hv. by repeat split; auto. Qed.
Lemma only_worse_tool v r : v <> DatabaseToolStatusCompatible -> only_worse r (set_tool v r).
Proof. intros Hv. by repeat split; auto. Qed.
Lemma only_worse_backup v r :
  v <> DatabaseBackupChainStatusComplete -> only_worse r (set_backup v r).
Proof. intros Hv. by repeat split; auto. Qed.

Lemma tool_missing_neq : DatabaseToolStatusMissingTool <> DatabaseToolStatusCompatible.
Proof. by vm_compute. Qed.
Lemma tool_version_neq : DatabaseToolStatusIncompatibleVersion <> DatabaseToolStatusCompatible.
Proof. by vm_compute. Qed.

Lemma report_only_worse r : only_worse r (report_storage_and_tool r).
Proof. unfold only_worse. destruct (report_keeps r) as (-> & -> & _). done. Qed.

Lemma check_incrementals_spec id items r :
  only_worse r (check_incrementals id items r) /\
  (st_Storage (pv_statuses (check_incrementals id items r)) = DatabaseStorageStatusAvailable ->
   st_Tool (pv_statuses (check_incrementals id items r)) = DatabaseToolStatusCompatible ->
   Forall (fun x => r_ID x <> id -> storageStatusForBackupRecord x = DatabaseStorageStatusAvailable)
     items).
Proof.
  induction items as [|x items [IH1 IH2]]; cbn [check_incrementals]; [done|].
  destruct (r_ID x =? id) eqn:E0; bsimpl.
  { split; [done|]. intros H1 H2. constructor; [done | by apply IH2]. }
  destruct (bool_decide (storageStatusForBackupRecord x = _)) eqn:E1; cbn [negb]; bsimpl.
  2: { split; [by apply only_worse_storage|]. intros H1. done. }
  destruct (bool_decide (toolStatusForBackupRecord x = _)) eqn:E2; cbn [negb]; bsimpl.
  2: { split; [by apply only_worse_tool|]. intros _ H2. done. }
  split; [done|]. intros H1 H2. constructor; [done | by apply IH2].
Qed.

Lemma check_engine_only_worse db base r : only_worse r (check_engine E db base r).
Proof.
  unfold check_engine. repeat case_match; try done;
    try (apply (only_worse_tool _ r), tool_missing_neq).
Qed.

Lemma report_bad_wal_spec logs r :
  only_worse r (report_bad_wal logs r) /\
  st_LogChain (pv_statuses (report_bad_wal logs r)) = st_LogChain (pv_statuses r) /\
  (st_Storage (pv_statuses (report_bad_wal logs r)) = DatabaseStorageStatusAvailable ->
   Forall (fun a => la_Status a <> DatabaseLogArchiveStatusMissing /\
                    la_Status a <> DatabaseLogArchiveStatusChecksumFailed) logs).
Proof.
  unfold report_bad_wal. destruct (List.find _ logs) as [a|] eqn:Ef.
  - case_match; (split; [by apply only_worse_storage; (apply storage_failed_neq || apply storage_missing_neq)|]);
      (split; [done|]); intros H1; exfalso;
      [by apply storage_failed_neq in H1 | by apply storage_missing_neq in H1].
  - split; [done|]. split; [done|]. intros _. apply Forall_forall. intros a Ha.
    apply list_elem_of_In in Ha. apply (find_none _ _ Ef) in Ha. cbn beta in Ha.
    rewrite one_of_false in Ha. split; intros He; apply Ha; rewrite He; [right; left | left].
Qed.

Lemma finalize_complete r :
  pv_ValidationStatus (finalizePostgreSQLRestoreValidation r) <> DatabasePlanValidationFailed ->
  pv_selection (finalizePostgreSQLRestoreValidation r) = pv_selection r /\
  st_BackupChain (pv_statuses r) = DatabaseBackupChainStatusComplete /\
  st_LogChain (pv_statuses r) = DatabaseLogChainStatusComplete /\
  st_Storage (pv_statuses r) = DatabaseStorageStatusAvailable /\
  st_Tool (pv_statuses r) = DatabaseToolStatusCompatible.
Proof.
  unfold finalizePostgreSQLRestoreValidation. destruct (all_complete r) eqn:Ec.
  - intros _. split; [by repeat case_match|]. unfold all_complete in Ec. by bsimpl.
  - intros H. exfalso. apply H. by rewrite (proj1 (failed_plan_fails _ _)).
Qed.

(** A return before the WAL is checked fails the plan. *)
Lemma early_return v m r r' :
  v <> DatabaseLogChainStatusComplete ->
  Some (finalizePostgreSQLRestoreValidation (with_message m (set_log v r))) = Some r' ->
  pv_ValidationStatus r' <> DatabasePlanValidationFailed -> False.
Proof.
  intros Hne H Hv. apply (inj Some) in H. subst r'.
  apply finalize_complete in Hv as (_ & _ & Hl & _). exact (Hne Hl).
Qed.

(** A plan that is not failed has its WAL checked to the end. *)
Lemma check_wal_spec base logs target tl size r r' :
  check_wal base logs target tl size r = Some r' ->
  pv_ValidationStatus r' <> DatabasePlanValidationFailed ->
  exists ids m,
    validatePostgreSQLWALCoverage base logs target tl size
    = Some (DatabaseLogChainStatusComplete, ids, m) /\
    sel_LogArchiveIDs (pv_selection r') = ids /\
    sel_BackupRecordIDs (pv_selection r') = sel_BackupRecordIDs (pv_selection r) /\
    (validatePostgreSQLTimelineHistory logs tl).1 = DatabaseLogChainStatusComplete /\
    Forall (fun a => la_Status a <> DatabaseLogArchiveStatusMissing /\
                     la_Status a <> DatabaseLogArchiveStatusChecksumFailed) logs /\
    st_BackupChain (pv_statuses r) = DatabaseBackupChainStatusComplete /\
    st_Storage (pv_statuses r) = DatabaseStorageStatusAvailable /\
    st_Tool (pv_statuses r) = DatabaseToolStatusCompatible.
Proof.
  unfold check_wal. intros H Hv.
  destruct (validatePostgreSQLWALCoverage _ _ _ _ _) as [[[status ids] m]|] eqn:Ecov; [|done].
  cbn [mbind option_bind] in H. apply (inj Some) in H.
  set (r1 := if bool_decide (m = []) then _ else _) in H.
  assert (Hr1 : pv_selection r1 = pv_selection (set_logs ids (buildSelectedLogProofs logs ids) r) /\
    pv_statuses r1 = pv_statuses (set_log status r)) by (unfold r1; by destruct (bool_decide (m = []))).

  set (r2 := if bool_decide (status = _) then _ else _) in H.
  subst r'. apply finalize_complete in Hv as (Hsel & H1 & H2 & H3 & H4).
  destruct (report_bad_wal_spec logs r2) as ((W1 & W2 & W3 & W4) & W5 & W6).
  rewrite W5 in H2. apply W2 in H1. apply W4 in H4. specialize (W6 H3). apply W3 in H3.
  destruct (validatePostgreSQLTimelineHistory logs tl) as [hs hm].
  assert (Hcomplete : status = DatabaseLogChainStatusComplete /\
    hs = DatabaseLogChainStatusComplete /\ pv_statuses r2 = pv_statuses r1 /\
    pv_selection r2 = pv_selection r1).
  { unfold r2 in *. destruct (bool_decide (status = _)) eqn:Es; bsimpl.
    - destruct (bool_decide (hs = _)) eqn:Eh; cbn [negb] in *; bsimpl; [done|]. done.
    - rewrite (proj2 Hr1) in H2. done. }
  destruct Hcomplete as (-> & -> & Hst & Hs2). rewrite Hst, (proj2 Hr1) in H1, H3, H4.
  exists ids, m. split; [done|]. rewrite Hsel, W1, Hs2, (proj1 Hr1). done.
Qed.

Lemma wal_rows_in db id a : 0 < id -> a ∈ wal_rows db id ->
  a ∈ db_archives db /\ la_InstanceID a = id /\ la_ArchiveType a = DatabaseArchiveTypeWAL.
Proof.
  unfold wal_rows. intros Hid H. apply elem_of_take in H as (k & H & _).
  apply list_elem_of_lookup_2, filter_sorted_in in H as [H1 H2]. bsimpl.
  apply orb_true_iff in H as [H|H]; bsimpl; [lia | done].
Qed.

Lemma filterPostgreSQLWALArchives_in items s t e a :
  a ∈ filterPostgreSQLWALArchives items s t e -> a ∈ items.
Proof.
  unfold filterPostgreSQLWALArchives. rewrite !list_elem_of_In, filter_In. by intros [H _].
Qed.

(** Every check of [validatePostgreSQLRestorePlan], read off a plan that did
    not fail. *)
Lemma validatePostgreSQLRestorePlan_passed db inst records base target r :
  validatePostgreSQLRestorePlan E db inst records base target = Some r ->
  pv_ValidationStatus r <> DatabasePlanValidationFailed ->
  exists b, base = Some b /\
    storageStatusForBackupRecord b = DatabaseStorageStatusAvailable /\
    toolStatusForBackupRecord b = DatabaseToolStatusCompatible /\
    let t := default (re_century E) (tg_Time target) in
    let items := incrementals_of records b t in
    sel_BackupRecordIDs (pv_selection r) = r_ID b :: (r_ID <$> items) /\
    linked_chain b t records items /\
    Forall (fun x => r_ID x <> r_ID b ->
              storageStatusForBackupRecord x = DatabaseStorageStatusAvailable)
      (backupRecordsByIDs records (sel_BackupRecordIDs (pv_selection r))) /\
    exists logs m, (forall a, a ∈ logs -> a ∈ wal_rows db (rd_InstanceID (r_details b))) /\
      validatePostgreSQLWALCoverage b logs target (expected_timeline b None target)
        (postgreSQLWALSegmentSize b None)
      = Some (DatabaseLogChainStatusComplete, sel_LogArchiveIDs (pv_selection r), m) /\
      (validatePostgreSQLTimelineHistory logs (expected_timeline b None target)).1
      = DatabaseLogChainStatusComplete /\
      Forall (fun a => la_Status a <> DatabaseLogArchiveStatusMissing /\
                       la_Status a <> DatabaseLogArchiveStatusChecksumFailed) logs.
Proof.
  intros H Hv. unfold validatePostgreSQLRestorePlan in H. destruct base as [b|].
  2: { apply (inj Some) in H. subst r. by destruct Hv. }
  exists b. split; [done|]. cbv zeta in H.
  set (t := default (re_century E) (tg_Time target)) in *.
  set (r0 := select_base b _) in H.
  set (r1 := check_backup_chain records b t r0) in H.
  set (items := backupRecordsByIDs records (sel_BackupRecordIDs (pv_selection r1))) in H.
  set (r2 := check_incrementals (r_ID b) items r1) in H.
  set (r3 := report_storage_and_tool r2) in H.
  set (r4 := if bool_decide (_ = BackupEnginePgBaseBackup) && _ then _ else _) in H.
  set (r5 := set_timeline _ (check_engine E db b r4)) in H.
  destruct (listPostgreSQLWALArchivesForRestore E db (rd_InstanceID (r_details b)))
    as [all_logs|e] eqn:Elogs.
  2: { destruct (early_return _ _ _ _ log_unsupported_neq H Hv). }
  set (logs := filterPostgreSQLWALArchives _ _ _ _) in H.
  destruct (foreign_system _ logs) as [a|].
  { destruct (early_return _ _ _ _ system_mismatch_neq H Hv). }
  match type of H with (if ?c then _ else _) = _ => destruct c end.
  { destruct (early_return _ _ _ _ timeline_mismatch_neq H Hv). }
  apply check_wal_spec in H as (ids & m & Hcov & Hids & Hrec & Hhist & Hgood & Hb & Hs & Ht); [|done].
  assert (W34 : only_worse r3 r4).
  { unfold r4. case_match; [|done]. destruct (validatePgBaseBackupIncrementalMetadata items) as [st msg].
    case_match eqn:Est; [|done]. bsimpl. etransitivity; [by apply only_worse_backup|].
    etransitivity; [apply only_worse_tool, tool_version_neq | done]. }
  assert (W25 : only_worse r2 r5).
  { etransitivity; [apply report_only_worse|]. etransitivity; [exact W34|].
    etransitivity; [apply (check_engine_only_worse db b) | done]. }
  destruct (check_incrementals_spec (r_ID b) items r1) as [W12 Hinc]. fold r2 in W12, Hinc.
  destruct W25 as (S25 & B25 & St25 & T25).
  specialize (Hinc (St25 Hs) (T25 Ht)).
  destruct W12 as (S12 & B12 & St12 & T12). rewrite S25, S12 in Hrec.
  apply B25, B12 in Hb. apply St25, St12 in Hs. apply T25, T12 in Ht.
  pose proof (check_backup_chain_spec records b t r0) as Hchain. fold r1 in Hchain.
  destruct (validateIncrementalBackupChain records b t) as [[status cids] ms] eqn:Ei.
  destruct Hchain as (C1 & C2 & _). rewrite C1 in Hb, Hs, Ht. cbn in Hb, Hs, Ht.
  assert (Hsel : sel_BackupRecordIDs (pv_selection r1) = r_ID b :: cids) by (by rewrite C2).
  unfold items in Hinc. rewrite <- Hrec in Hinc.
  subst status. apply validateIncrementalBackupChain_sound in Ei as [-> Hlinked].
  split; [done|]. split; [done|]. split; [congruence|]. split; [done|]. split; [done|].
  exists logs, m. subst ids. split; [|done]. intros a Ha.
  apply filterPostgreSQLWALArchives_in in Ha.
  unfold listPostgreSQLWALArchivesForRestore in Elogs.
  destruct (re_list_archives E); [done|]. by injection Elogs as <-.
Qed.

Lemma time_coverage_reaches db id base logs target tl ids m t s :
  (forall a, a ∈ logs -> a ∈ db_archives db /\ la_InstanceID a = id /\
             la_ArchiveType a = DatabaseArchiveTypeWAL) ->
  validatePostgreSQLTimeWALCoverage base logs target tl = (DatabaseLogChainStatusComplete, ids, m) ->
  tg_Time target = Some t -> firstNonNilTime [r_RecoverableUntil base; r_FinishedAt base] = Some s ->
  s < t -> logs_reach db id DatabaseArchiveTypeWAL ids s t.
Proof.
  intros Hlogs H Ht Hs Hst. unfold validatePostgreSQLTimeWALCoverage in H. rewrite Ht, Hs in H.
  rewrite (proj2 (Z.ltb_lt s t) Hst) in H. cbn [negb] in H.
  set (cands := List.filter (in_time_range s t) logs) in *.
  destruct (validateLogArchiveCoverage cands DatabaseArchiveTypeWAL s t) as [[status ids'] m'] eqn:Ec.
  destruct (bool_decide (status = DatabaseLogChainStatusComplete)) eqn:Es; cbn [negb] in H; bsimpl.
  2: { apply pair_eq in H as [H _]. apply pair_eq in H as [H _]. done. }
  subst status. destruct (validatePostgreSQLWALContinuity (sort_archives cands) tl) as [cs cm].
  assert (ids' = ids) as -> by (by case_match; apply pair_eq in H as [H _]; apply pair_eq in H as [_ H]).
  apply validateLogArchiveCoverage_sound in Ec as (sel & -> & Hin & Hr & Hc).
  intros u Hu. destruct (covers_instants t s sel u Hc Hu) as (a & Ha & Hw).
  specialize (Hin a Ha). unfold cands in Hin. rewrite list_elem_of_In, filter_In, <- list_elem_of_In in Hin.
  destruct (Hlogs a (proj1 Hin)) as (H1 & H2 & H3). rewrite Forall_forall in Hr.
  exists a. split; [done|]. split; [done|]. split; [done|].
  split; [by apply list_elem_of_fmap_2|]. split; [by apply Hr | done].
Qed.

Lemma pg_base_spec db req target base records :
  pg_base_and_records db req target
    (ListSuccessfulForRestore db (pq_SourceInstanceID req) (tg_Time target)) = Ok (base, records) ->
  (forall x, x ∈ records -> x ∈ db_records db) /\
  forall b, base = Some b -> b ∈ db_records db /\
    rd_InstanceID (r_details b) = pq_SourceInstanceID req /\
    TrimSpace (r_Status b) = DatabaseBackupStatusSuccess /\
    isPostgreSQLPhysicalBaseRecord b = true.
Proof.
  set (listed := ListSuccessfulForRestore _ _ _). intros H.
  assert (Hlisted : forall x, x ∈ listed -> x ∈ db_records db /\
            restorable_row (pq_SourceInstanceID req) (tg_Time target) x = true)
    by (intros x; apply ListSuccessfulForRestore_in).
  unfold pg_base_and_records in H. destruct (0 <? pq_BaseRecordID req).
  - apply bind_Ok in H as (b & Hb & H). injection H as <- <-.
    unfold postgreSQLRestoreBaseRecordFromRequest in Hb. case_match; [done|].
    destruct (match List.find _ listed with Some _ => _ | None => _ end) as [x|] eqn:Ex; [|done].
    apply bind_Ok in Hb as ([] & Hval & Hb). injection Hb as ->.
    assert (Hin : b ∈ db_records db).
    { case_match eqn:Ef.
      - injection Ex as ->. apply find_elem in Ef as [Ef _]. by apply Hlisted.
      - by apply find_elem in Ex as [Ex _]. }
    split.
    + intros y Hy. case_match; [by apply Hlisted|].
      apply elem_of_app in Hy as [Hy|Hy]; [by apply Hlisted|].
      by apply list_elem_of_singleton in Hy as ->.
    + intros b' [= <-]. unfold validateRequestedPostgreSQLBaseRecord in Hval.
      destruct (negb (rd_InstanceID (r_details b) =? pq_SourceInstanceID req)) eqn:E1; [done|].
      destruct (negb (bool_decide (TrimSpace (r_Status b) = _))) eqn:E2; [done|].
      destruct (negb (isPostgreSQLPhysicalBaseRecord b)) eqn:E3; [done|]. by bsimpl.
  - injection H as <- <-. split; [intros x Hx; by apply Hlisted|]. intros b Hb.
    apply find_elem in Hb as [Hb Hp]. apply Hlisted in Hb as [Hin Hrow].
    unfold restorable_row in Hrow. bsimpl. split; [done|]. split; [done|]. split; [|done].
    match goal with He : r_Status b = _ |- _ => rewrite He end. by vm_compute.
Qed.

Lemma linked_chain_mono b t l l' items :
  (forall x, x ∈ l -> x ∈ l') -> linked_chain b t l items -> linked_chain b t l' items.
Proof.
  intros Hl [H1 H2]. split; [|done]. eapply Forall_impl; [exact H1|].
  intros x [Hx1 Hx2]. split; [by apply Hl | done].
Qed.

(** C33: A PostgreSQL plan that did not fail can be carried out up to its target.
    Its base is a stored successful physical full record of the source instance,
    the incremental records on it are linked, and none of the archives it read
    is missing or damaged. For a target time after the end of the base, every
    instant in between lies in the window of a selected archive. For a target
    position, unless the base itself ends after it, an archived segment of the
    timeline is selected for every position from the first required segment to
    the target (for the segment sizes of PostgreSQL). *)
Theorem pg_plan_sound req op db p db' source environment :
  CreateRestorePlan E req op db = (Ok p, db') -> 0 <= pq_SourceInstanceID req ->
  re_instance E (pq_SourceInstanceID req) = Some (source, environment) ->
  normalizeDBType (i_DBType source) = DBTypePostgreSQL ->
  pl_ValidationStatus p <> DatabasePlanValidationFailed ->
  exists target b,
    normalizePostgreSQLRestoreTarget (restore_target_type (pq_RestoreTargetType req))
      (pq_RestoreTargetValue req) (pq_TargetTimelineID req) = Ok target /\
    b ∈ db_records db /\ rd_InstanceID (r_details b) = pq_SourceInstanceID req /\
    TrimSpace (r_Status b) = DatabaseBackupStatusSuccess /\
    isPostgreSQLPhysicalBaseRecord b = true /\
    storageStatusForBackupRecord b = DatabaseStorageStatusAvailable /\
    (exists items, pl_SelectedBackupRecordIDs p = r_ID b :: (r_ID <$> items) /\
       linked_chain b (default (re_century E) (tg_Time target)) (db_records db) items) /\
    if bool_decide (tg_Type target = $"lsn") then
      let size := postgreSQLWALSegmentSize b None in
      let tl := lsn_timeline b (expected_timeline b None target) size in
      wal_size size -> 0 <= tg_LSN target < 2 ^ 64 ->
      before_base_end b (tg_LSN target) = true \/
      exists start a, lsn_start_segment b tl size = Ok start /\
        ParseSegmentName start size = Ok a /\
        (sg_Segment a < segmentsPerLog size ->
         segments_reach (db_archives db) (pl_SelectedLogArchiveIDs p) tl size
           (sg_SegmentNo a * size) (tg_LSN target))
    else forall t s, tg_Time target = Some t ->
      firstNonNilTime [r_RecoverableUntil b; r_FinishedAt b] = Some s -> s < t ->
      logs_reach db (pq_SourceInstanceID req) DatabaseArchiveTypeWAL
        (pl_SelectedLogArchiveIDs p) s t.
Proof.
  intros H Hge Hs Hty Hv.
  apply CreateRestorePlan_inv in H
    as [(e & He & _)|(source' & env & r & ty & value & H0 & Hs' & _ & Hp & _ & Hc)]; [done|].
  rewrite Hs in Hs'. injection Hs' as <- <-. injection Hp as ->.
  destruct Hc as [[(_ & target & base & records & Ht & Hbr & Hval & _ & _) _]|(t & recs & (Hn & _) & _)];
    [|done].
  apply validatePostgreSQLRestorePlan_passed in Hval
    as (b & -> & Hst & _ & Hids & Hlink & _ & logs & m & Hlogs & Hcov & _ & _); [|done].
  apply pg_base_spec in Hbr as [Hrecs Hb]. destruct (Hb b eq_refl) as (Hin & Hinst & Hsucc & Hphys).
  exists target, b. split; [done|]. split; [done|]. split; [done|]. split; [done|]. split; [done|].
  split; [done|]. split.
  { eexists. split; [exact Hids|]. by eapply linked_chain_mono. }
  rewrite Hinst in Hlogs. assert (Hpos : 0 < pq_SourceInstanceID req) by lia.
  assert (Hdb : forall a, a ∈ logs -> a ∈ db_archives db /\ la_InstanceID a = pq_SourceInstanceID req /\
            la_ArchiveType a = DatabaseArchiveTypeWAL)
    by (intros a Ha; apply wal_rows_in; auto).
  unfold validatePostgreSQLWALCoverage in Hcov. destruct (bool_decide (tg_Type target = $"lsn")).
  - cbv zeta. intros Hw Hlsn.
    destruct (lsn_coverage_reaches b logs target _ _ _ _ _ Hw eq_refl Hlsn Hcov)
      as [Hl|(start & a & H1 & H2 & H3)]; [by left|]. right. exists start, a.
    split; [done|]. split; [done|]. intros Hseg lsn Hr.
    destruct (H3 Hseg lsn Hr) as (x & Hx & Hrest). exists x. split; [by apply Hdb | done].
  - intros t s Htt Hss Hlt. apply (inj Some) in Hcov.
    by eapply time_coverage_reaches.
Qed.

(** ** The Barman server that is found is not compared *)
Definition forget_identity (s : DatabaseBarmanServer) : DatabaseBarmanServer := {|
  bs_ID := bs_ID s; bs_SourceInstanceID := bs_SourceInstanceID s;
  bs_RunnerHostID := bs_RunnerHostID s; bs_BarmanServerName := bs_BarmanServerName s;
  bs_PGSystemIdentifier := []; bs_WALSegmentSize := 0;
  bs_LastCheckStatus := bs_LastCheckStatus s |}.
Definition forget_servers (db : restore_db) : restore_db := {|
  db_records := db_records db; db_archives := db_archives db;
  db_servers := forget_identity <$> db_servers db; db_plans := db_plans db;
  db_capability := db_capability db |}.

Lemma filter_fmap {S T} (f : S -> T) (p : T -> bool) (q : S -> bool) l :
  (forall x, p (f x) = q x) -> List.filter p (f <$> l) = f <$> List.filter q l.
Proof.
  intros Hpq. induction l as [|x l IH]; [done|]. rewrite fmap_cons. cbn [List.filter].
  rewrite Hpq, IH. by destruct (q x).
Qed.

Lemma sort_stable_fmap {S T} (f : S -> T) less less' l :
  (forall x y, less (f x) (f y) = less' x y) ->
  sort_stable less (f <$> l) = f <$> sort_stable less' l.
Proof.
  intros Hless. induction l as [|x l IH]; [done|]. rewrite fmap_cons. cbn [sort_stable foldr].
  change (foldr (insert_stable less) [] (f <$> l)) with (sort_stable less (f <$> l)). rewrite IH.
  change (foldr (insert_stable less') [] l) with (sort_stable less' l). clear IH.
  induction (sort_stable less' l) as [|y k IH]; [done|]. rewrite fmap_cons. cbn [insert_stable].
  rewrite Hless. destruct (less' y x); [|done]. by rewrite IH.
Qed.

Lemma find_fmap {S T} (f : S -> T) (p : T -> bool) (q : S -> bool) l :
  (forall x, p (f x) = q x) -> List.find p (f <$> l) = f <$> List.find q l.
Proof.
  intros Hpq. induction l as [|x l IH]; [done|]. rewrite fmap_cons. cbn [List.find].
  rewrite Hpq. by destruct (q x).
Qed.

Lemma barman_rows_forget db id :
  barman_rows (forget_servers db) id = forget_identity <$> barman_rows db id.
Proof.
  unfold barman_rows. cbn [db_servers forget_servers].
  rewrite (filter_fmap _ _ (fun s => (id <=? 0) || (bs_SourceInstanceID s =? id))) by done.
  rewrite (sort_stable_fmap _ _ (fun a b => bs_ID b <? bs_ID a)) by done.
  by rewrite fmap_take.
Qed.

Lemma check_engine_forget db b r :
  check_engine E (forget_servers db) b r = check_engine E db b r.
Proof.
  unfold check_engine, findBarmanServerForBackup. rewrite barman_rows_forget.
  destruct (re_list_servers E) as [e|]; cbn [or_error mbind result_bind]; [done|].
  set (rows := barman_rows _ _).
  destruct (negb (bool_decide (TrimSpace (rd_ExternalServerName (r_details b)) = []))).
  - rewrite (find_fmap _ _ (fun item => bool_decide (TrimSpace (bs_BarmanServerName item) =
      TrimSpace (rd_ExternalServerName (r_details b))))) by done.
    by destruct (List.find _ rows).
  - by destruct rows as [|x [|y k]].
Qed.

(** The check of a PostgreSQL plan never looks at the system identifier or
    the WAL segment size of the Barman server it found: two databases whose
    servers differ only there give the same result for every record and target.
    (The server is declared anew inside of the branch that finds it, so that the
    comparison after it sees none.) *)
Theorem pg_plan_ignores_server db1 db2 inst records base target :
  forget_servers db1 = forget_servers db2 ->
  validatePostgreSQLRestorePlan E db1 inst records base target
  = validatePostgreSQLRestorePlan E db2 inst records base target.
Proof.
  intros Hf. destruct base as [b|]; [|done]. unfold validatePostgreSQLRestorePlan. cbv zeta.
  rewrite <- (check_engine_forget db1), <- (check_engine_forget db2), Hf.
  unfold listPostgreSQLWALArchivesForRestore, wal_rows.
  change (db_archives db1) with (db_archives (forget_servers db1)).
  change (db_archives db2) with (db_archives (forget_servers db2)). by rewrite Hf.
Qed.
End facts.

(** ** Concrete runs *)
#[local] Existing Instance sample_tables.
#[local] Existing Instance sample_lib.

Definition restore_agent_lib : AgentLib := {|
  sha256_hex auth := auth; json_key _ _ := None; json_payload uri _ _ := uri;
  time_parse _ v := if bool_decide (v = []) then None else Some (digits_value v) |}.
#[local] Existing Instance restore_agent_lib.

Definition sample_instance (id : Z) (ty : gostring) : DatabaseInstance := {|
  i_ID := id; i_Name := $"db"; i_DBType := ty; i_Host := $"h"; i_Port := 1;
  i_DefaultDatabase := []; i_CredentialID := 0; i_TLSEnabled := false; i_Status := $"enabled" |}.

Definition sample_restore_env : restore_env := {|
  re_instance id := if id =? 9 then Some (sample_instance 9 $"mysql", $"prod")
                    else if id =? 8 then Some (sample_instance 8 $"postgresql", $"prod")
                    else None;
  re_list_records := None; re_list_range := None; re_list_archives := None;
  re_list_servers := None; re_create_plan := None; re_update_task _ := None;
  re_now := 500; re_century := 1000000 |}.

Definition base_details (instance : Z) (walEnd endLSN : gostring) : DatabaseBackupRecordDetails := {|
  rd_TaskID := 3; rd_InstanceID := instance; rd_ExternalBackupID := $"b1";
  rd_ExternalServerName := []; rd_ToolName := []; rd_ToolVersion := []; rd_ManifestJSON := [];
  rd_ServerID := []; rd_PGSystemIdentifier := []; rd_TimelineID := [];
  rd_TimelineHistoryFile := []; rd_WALSegmentSize := 0; rd_StartLSN := []; rd_EndLSN := endLSN;
  rd_WALStart := []; rd_WALEnd := walEnd; rd_BackupManifestChecksum := [] |}.

(** A full record that ends at 100. *)
Definition restore_base (id : Z) (engine : gostring) (details : DatabaseBackupRecordDetails)
    : DatabaseBackupRecord := {|
  r_ID := id; r_CreatedAt := 90; r_PolicyID := 0; r_ChainID := []; r_BaseRecordID := 0;
  r_ParentRecordID := 0; r_BackupMethod := $"physical"; r_BackupLevel := $"full";
  r_BackupEngine := engine; r_SourceInstanceID := 0;
  r_StorageURI := $"runner://runner-host-4/data/b"; r_BackupOrigin := [];
  r_CheckpointFromLSN := []; r_CheckpointToLSN := []; r_CheckpointLastLSN := [];
  r_ArtifactState := []; r_SyntheticSourceRecordIDs := []; r_SupersededByRecordID := 0;
  r_PurgeEligibleAt := None; r_ProtectedUntil := None; r_Status := $"success"; r_FilePath := [];
  r_FileName := $"b"; r_FileSize := 100; r_ChecksumSHA256 := []; r_VerifyStatus := [];
  r_VerifyMessage := []; r_RestoreTestStatus := []; r_StartedAt := Some 90;
  r_FinishedAt := Some 100; r_RecoverableFrom := Some 90; r_RecoverableUntil := Some 100;
  r_ErrorMessage := []; r_ServerUUID := []; r_GTIDMode := []; r_ExecutedGTIDSet := [];
  r_BackupBinlogFile := $"bin.01"; r_BackupBinlogPos := 4; r_BackupGTIDSet := [];
  r_details := details |}.

Definition sample_wal (id : Z) (name status : gostring) : DatabaseLogArchive := {|
  la_ID := id; la_InstanceID := 8; la_ArchiveType := $"wal"; la_FileName := name;
  la_StorageURI := []; la_FileSize := 16; la_ChecksumSHA256 := []; la_FirstEventTime := None;
  la_LastEventTime := None; la_Status := status; la_ServerUUID := []; la_ServerID := [];
  la_StartPos := 0; la_EndPos := 0; la_StartGTIDSet := []; la_EndGTIDSet := [];
  la_PreviousFileName := []; la_NextFileName := []; la_PGSystemIdentifier := [];
  la_TimelineID := []; la_WALSegmentSize := 0; la_ExternalServerName := []; la_StartLSN := [];
  la_EndLSN := []; la_SegmentNo := []; la_TimelineHistoryURI := [] |}.

Definition sample_restore_db (status : gostring) : restore_db := {|
  db_records := [restore_base 1 $"xtrabackup" (base_details 9 [] []);
    restore_base 2 $"pg_basebackup"
      (base_details 8 $"000000010000000000000001" $"0/1000100")];
  db_archives := [sample_log 1 $"bin.01"; sample_log 2 $"bin.02";
    sample_wal 3 $"000000010000000000000001" $"archived";
    sample_wal 4 $"000000010000000000000002" status];
  db_servers := []; db_plans := []; db_capability := {[3 := $"physical_restore"]} |}.

Definition sample_plan_request (source : Z) (ty value : gostring) : DatabaseRestorePlanRequest := {|
  pq_SourceInstanceID := source; pq_TargetInstanceID := 0; pq_BaseRecordID := 0;
  pq_RestoreMode := []; pq_RestoreTargetType := ty; pq_RestoreTargetValue := value;
  pq_TargetTimelineID := []; pq_RestoreTargetInclusive := false |}.
Definition sample_operator : QueryOperator :=
  {| op_ID := 1; op_Username := $"ops"; op_ClientIP := [] |}.

Definition time_plan := CreateRestorePlan sample_restore_env
  (sample_plan_request 9 [] $"250") sample_operator (sample_restore_db $"archived").
Definition lsn_plan (status : gostring) := CreateRestorePlan sample_restore_env
  (sample_plan_request 8 $"lsn" $"0/2800000") sample_operator (sample_restore_db status).

Definition plan_of (run : result DatabaseRestorePlan * restore_db) : DatabaseRestorePlan :=
  match run.1 with
  | Ok p => p
  | Err _ => created_row (plan_row sample_restore_env (sample_plan_request 0 [] []) sample_operator
               [] [] (unchecked_plan (sample_instance 0 []) [] []))
  end.

Example time_plan_selects :
  pl_SelectedBackupRecordIDs (plan_of time_plan) = [1] /\
  pl_SelectedLogArchiveIDs (plan_of time_plan) = [1; 2] /\
  pl_ValidationStatus (plan_of time_plan) = DatabasePlanValidationPassed /\
  db_capability time_plan.2 !! 3 = Some DatabaseRestoreCapabilityPITRCapable.
Proof. vm_compute. auto. Qed.

(** Only the PostgreSQL query leaves an archive that has expired in: a position
    is covered by a segment that retention has removed. *)
Example expired_segment_counts :
  pl_SelectedLogArchiveIDs (plan_of (lsn_plan $"expired")) = [3; 4] /\
  pl_ValidationStatus (plan_of (lsn_plan $"expired")) = DatabasePlanValidationPassed.
Proof. vm_compute. auto. Qed.

Lemma time_plan_run :
  CreateRestorePlan sample_restore_env (sample_plan_request 9 [] $"250") sample_operator
    (sample_restore_db $"archived") = (Ok (plan_of time_plan), time_plan.2).
Proof. vm_compute. reflexivity. Qed.
Lemma lsn_plan_run :
  CreateRestorePlan sample_restore_env (sample_plan_request 8 $"lsn" $"0/2800000")
    sample_operator (sample_restore_db $"archived") = (Ok (plan_of (lsn_plan $"archived")), (lsn_plan $"archived").2).
Proof. vm_compute. reflexivity. Qed.

Lemma create_plan_atomic_witness :
  is_Some (re_instance sample_restore_env 9) /\
  target_allowed sample_restore_env (sample_plan_request 9 [] $"250") /\
  plan_added (plan_of time_plan) (sample_restore_db $"archived") time_plan.2 /\
  pl_RestoreStatus (plan_of time_plan) = DatabaseRestoreStatusPlanned /\
  pl_RestoreTargetInclusive (plan_of time_plan) = true /\
  (db_capability time_plan.2 <> db_capability (sample_restore_db $"archived") ->
   pl_ValidationStatus (plan_of time_plan) = DatabasePlanValidationPassed /\
   exists b, b ∈ db_records (sample_restore_db $"archived") /\
     r_ID b = pl_SelectedBaseRecordID (plan_of time_plan) /\
     db_capability time_plan.2
     = <[rd_TaskID (r_details b) := DatabaseRestoreCapabilityPITRCapable]>
         (db_capability (sample_restore_db $"archived"))).
Proof.
  exact (create_plan_atomic sample_restore_env (sample_plan_request 9 [] $"250") sample_operator
    (sample_restore_db $"archived") (Ok (plan_of time_plan)) time_plan.2 time_plan_run).
Defined.


Lemma pg_plan_sound_witness :
  exists target b,
    normalizePostgreSQLRestoreTarget $"lsn" $"0/2800000" [] = Ok target /\
    b ∈ db_records (sample_restore_db $"archived") /\ rd_InstanceID (r_details b) = 8 /\
    TrimSpace (r_Status b) = DatabaseBackupStatusSuccess /\
    isPostgreSQLPhysicalBaseRecord b = true /\
    storageStatusForBackupRecord b = DatabaseStorageStatusAvailable /\
    (exists items,
       pl_SelectedBackupRecordIDs (plan_of (lsn_plan $"archived")) = r_ID b :: (r_ID <$> items) /\
       linked_chain b (default 1000000 (tg_Time target))
         (db_records (sample_restore_db $"archived")) items) /\
    if bool_decide (tg_Type target = $"lsn") then
      let size := postgreSQLWALSegmentSize b None in
      let tl := lsn_timeline b (expected_timeline b None target) size in
      wal_size size -> 0 <= tg_LSN target < 2 ^ 64 ->
      before_base_end b (tg_LSN target) = true \/
      exists start a, lsn_start_segment b tl size = Ok start /\
        ParseSegmentName start size = Ok a /\
        (sg_Segment a < segmentsPerLog size ->
         segments_reach (db_archives (sample_restore_db $"archived"))
           (pl_SelectedLogArchiveIDs (plan_of (lsn_plan $"archived"))) tl size
           (sg_SegmentNo a * size) (tg_LSN target))
    else forall t s, tg_Time target = Some t ->
      firstNonNilTime [r_RecoverableUntil b; r_FinishedAt b] = Some s -> s < t ->
      logs_reach (sample_restore_db $"archived") 8 DatabaseArchiveTypeWAL
        (pl_SelectedLogArchiveIDs (plan_of (lsn_plan $"archived"))) s t.
Proof.
  apply (pg_plan_sound sample_restore_env (sample_plan_request 8 $"lsn" $"0/2800000")
    sample_operator (sample_restore_db $"archived") (plan_of (lsn_plan $"archived"))
    (lsn_plan $"archived").2 (sample_instance 8 $"postgresql") $"prod");
    [exact lsn_plan_run | cbn; lia | reflexivity | vm_compute; reflexivity | vm_compute; discriminate].
Defined.

Definition sample_server (system : gostring) (size : Z) : DatabaseBarmanServer := {|
  bs_ID := 1; bs_SourceInstanceID := 8; bs_RunnerHostID := 4; bs_BarmanServerName := $"main";
  bs_PGSystemIdentifier := system; bs_WALSegmentSize := size; bs_LastCheckStatus := [] |}.
Definition with_server (s : DatabaseBarmanServer) (db : restore_db) : restore_db := {|
  db_records := db_records db; db_archives := db_archives db; db_servers := [s];
  db_plans := db_plans db; db_capability := db_capability db |}.

Lemma pg_plan_ignores_server_witness :
  let db := sample_restore_db $"archived" in
  let base := Some (restore_base 5 $"barman" (base_details 8 $"000000010000000000000001" [])) in
  let target := {| tg_Type := $"lsn"; tg_Value := $"0/2800000"; tg_Time := None;
                   tg_LSN := 41943040; tg_TimelineID := [] |} in
  validatePostgreSQLRestorePlan sample_restore_env
    (with_server (sample_server $"7001" 16777216) db) (sample_instance 8 $"postgresql")
    (db_records db) base target
  = validatePostgreSQLRestorePlan sample_restore_env
      (with_server (sample_server $"7002" 1048576) db) (sample_instance 8 $"postgresql")
      (db_records db) base target.
Proof. intros db base target. apply pg_plan_ignores_server. reflexivity. Defined.
