(* ===== verification/LogStreamFacts.v ===== *)
(** * What the agents and the operator may do to a log archive stream *)

From Stdlib Require Import ZArith Lia.
From stdpp Require Import base tactics option list numbers sets gmap.
From S2P Require Import Prelude GoStrings SqlSafety WriteExec BackupModel BackupPurge LogStream.

Open Scope Z_scope.

(** Every stream is saved under its own number. *)
Definition keyed_streams (w : stream_world) : Prop :=
  forall sid s, streams w !! sid = Some s -> ls_ID (ident s) = sid.

(** What an agent leaves as the operator set it. *)
Definition same_plan (s s' : DatabaseLogArchiveStream) : Prop :=
  ident s' = ident s /\ assigned s' = assigned s /\
  ls_DesiredState (state s') = ls_DesiredState (state s) /\
  ls_PausedAt (state s') = ls_PausedAt (state s) /\
  ls_PausedReason (state s') = ls_PausedReason (state s).

(** The host [h], known as [rid], may work on the stream. *)
Definition may_touch (h : DatabaseRunnerHost) (rid : gostring) (now : Z)
    (s : DatabaseLogArchiveStream) : Prop :=
  ls_RunnerHostID (assigned s) = h_ID h /\ ls_DesiredState (state s) = DatabaseLogArchiveDesiredStateRunning /\
  (TrimSpace (ls_LeaseOwner (lease s)) = rid \/ lease_free (lease s) rid now = true).

Definition touched (h : DatabaseRunnerHost) (rid : gostring) (now : Z)
    (s s' : DatabaseLogArchiveStream) : Prop :=
  s' = s \/ (may_touch h rid now s /\ same_plan s s' /\
             (ls_LeaseOwner (lease s') = rid \/ ls_LeaseOwner (lease s') = [] \/
              ls_LeaseOwner (lease s') = ls_LeaseOwner (lease s))).

Definition works (h : DatabaseRunnerHost) (rid : gostring) (now : Z) (w w' : stream_world) : Prop :=
  forall sid, option_Forall2 (touched h rid now) (streams w !! sid) (streams w' !! sid).

#[export] Instance touched_refl h rid now : Reflexive (touched h rid now).
Proof. by left. Qed.
#[export] Instance touched_trans h rid now : Transitive (touched h rid now).
Proof.
  intros s1 s2 s3 [->|(H1 & P1 & O1)] [->|(H2 & P2 & O2)]; try by left; try by right.
  - by right.
  - by right.
  - right. split; [done|]. split; [|destruct O2 as [?|[?|Heq]]; [auto..|rewrite Heq; tauto]].
    destruct P1 as (? & ? & ? & ? & ?), P2 as (? & ? & ? & ? & ?). repeat split; congruence.
Qed.
#[export] Instance works_refl h rid now : Reflexive (works h rid now).
Proof. intros w sid. destruct (streams w !! sid); by constructor. Qed.
#[export] Instance works_trans h rid now : Transitive (works h rid now).
Proof.
  intros w1 w2 w3 H1 H2 sid. specialize (H1 sid). specialize (H2 sid).
  destruct H1; inversion H2; subst; constructor. by etransitivity.
Qed.

Lemma works_keyed h rid now w w' : works h rid now w w' -> keyed_streams w -> keyed_streams w'.
Proof.
  intros Hw Hk sid s' Hs'. specialize (Hw sid). rewrite Hs' in Hw. inversion Hw as [s ? Ht Heq|]; subst.
  rewrite <- (Hk sid s) by done. destruct Ht as [->|(_ & (-> & _) & _)]; done.
Qed.

Lemma works_streams h rid now w w' : streams w' = streams w -> works h rid now w w'.
Proof. intros Hs sid. rewrite Hs. destruct (streams w !! sid); by constructor. Qed.

Section facts.
Context `{U : UnicodeTables, A : AgentLib} (E : agent_env).
Implicit Types (w : stream_world) (s : DatabaseLogArchiveStream) (h : DatabaseRunnerHost).

Lemma saveStream_cases s w res w' :
  saveStream E s w = (res, w') -> w' = w \/ w' = put_stream s w.
Proof. unfold saveStream. destruct (ae_save_stream E s); intros [= <- <-]; auto. Qed.

Lemma put_works h rid now s s' w :
  keyed_streams w -> streams w !! ls_ID (ident s) = Some s -> touched h rid now s s' ->
  works h rid now w (put_stream s' w).
Proof.
  intros Hk Hs Ht sid. unfold put_stream. cbn [streams].
  assert (ls_ID (ident s') = ls_ID (ident s)) as -> by (destruct Ht as [->|(_ & (-> & _) & _)]; done).
  destruct (decide (sid = ls_ID (ident s))) as [->|Hn].
  - rewrite lookup_insert_eq, Hs. by constructor.
  - rewrite lookup_insert_ne by done. destruct (streams w !! sid); by constructor.
Qed.

Lemma save_works h rid now s s' w res w' :
  keyed_streams w -> streams w !! ls_ID (ident s) = Some s -> touched h rid now s s' ->
  saveStream E s' w = (res, w') -> works h rid now w w'.
Proof.
  intros Hk Hs Ht [->| ->]%saveStream_cases; [reflexivity | by eapply put_works].
Qed.

(** Handlers that write no stream. *)
Lemma record_event_streams e w : streams (recordLogArchiveEvent E e w).2 = streams w.
Proof. unfold recordLogArchiveEvent. by destruct (ae_create_event E _). Qed.
Lemma ignored_event_streams e w res w' :
  ignore_err (recordLogArchiveEvent E e) w = (res, w') -> streams w' = streams w.
Proof. intros [= _ <-]. apply record_event_streams. Qed.
Lemma record_streams e w res w' :
  recordLogArchiveEvent E e w = (res, w') -> streams w' = streams w.
Proof. intros H. rewrite <- (record_event_streams e w). by rewrite H. Qed.
Lemma saveHost_streams h w res w' : saveHost E h w = (res, w') -> streams w' = streams w.
Proof. unfold saveHost. destruct (ae_save_host E h); by intros [= _ <-]. Qed.
Lemma createArchive_streams a w res w' : createArchive E a w = (res, w') -> streams w' = streams w.
Proof. unfold createArchive. destruct (ae_create_archive E a); by intros [= _ <-]. Qed.

Lemma getStream_inv id w res w' :
  getStream id w = (res, w') ->
  w' = w /\ forall s, res = Ok s -> streams w !! id = Some s.
Proof.
  unfold getStream, mbind, handler_bind, h_get.
  destruct (streams w !! id) as [s|]; intros [= <- <-]; split; [done|naive_solver|done|done].
Qed.

Lemma h_lift_inv {S B} (r : result B) (x : S) res x' : h_lift r x = (res, x') -> x' = x /\ res = r.
Proof. by intros [= <- <-]. Qed.
Lemma h_guard_inv {S} b e (x : S) res x' :
  h_guard b e x = (res, x') -> x' = x /\ (res = Ok tt -> b = true).
Proof. unfold h_guard. destruct b; by intros [= <- <-]. Qed.

(** ** Who an agent is *)
Record authorised (w : stream_world) (runnerID auth : gostring) (h : DatabaseRunnerHost) : Prop := {
  auth_known : exists id, hosts w !! id = Some h;
  auth_named : parseRunnerHostIDAlias (TrimSpace runnerID) <> None \/
               runnerIDForHost h = TrimSpace runnerID;
  auth_enabled : h_Enabled h = true /\ h_Status h <> DatabaseRunnerHostStatusDisabled;
  auth_given : TrimSpace auth <> [];
  auth_secret : ToLower (runnerAgentAuthHash (h_ConfigJSON h)) = sha256_hex (TrimSpace auth) /\
                runnerAgentAuthHash (h_ConfigJSON h) <> [] }.

Lemma find_host_inv runnerID w res w' :
  findRunnerHostByRunnerID E runnerID w = (res, w') ->
  w' = w /\ forall h, res = Ok h -> (exists id, hosts w !! id = Some h) /\
    (parseRunnerHostIDAlias runnerID <> None \/ runnerIDForHost h = runnerID).
Proof.
  unfold findRunnerHostByRunnerID, mbind, handler_bind, h_get.
  destruct (parseRunnerHostIDAlias runnerID) as [id|].
  - destruct (hosts w !! id) as [h|] eqn:Hh; intros [= <- <-]; split; try done.
    intros h' [= <-]. split; [by exists id | by left].
  - destruct (ae_list_hosts E); [by intros [= <- <-]|].
    destruct (List.find _ _) as [h|] eqn:Hf; intros [= <- <-]; split; try done.
    intros h' [= <-]. apply List.find_some in Hf as [Hin Hid]. bsimpl. split; [|by right].
    apply list_elem_of_In in Hin. unfold listed_hosts in Hin.
    apply elem_of_take in Hin as (i & Hi & _). apply list_elem_of_lookup_2 in Hi.
    rewrite sort_stable_perm in Hi. apply list_elem_of_fmap in Hi as ([id x] & -> & Hx).
    apply elem_of_map_to_list in Hx. by exists id.
Qed.

Lemma authenticate_inv runnerID auth w res w' :
  authenticateRunnerAgent E runnerID auth w = (res, w') ->
  w' = w /\ forall h, res = Ok h -> authorised w runnerID auth h.
Proof.
  unfold authenticateRunnerAgent. cbv zeta. intros H.
  apply h_bind_inv in H as [([] & w1 & [-> _]%h_guard_inv & H)|(e & [-> _]%h_guard_inv & ->)]; [|done].
  apply h_bind_inv in H as [(h & w2 & [-> Hh]%find_host_inv & H)|(e & [-> _]%find_host_inv & ->)]; [|done].
  destruct (Hh h eq_refl) as [Hknown Hname].
  apply h_bind_inv in H as [([] & w3 & [-> H1]%h_guard_inv & H)|(e & [-> _]%h_guard_inv & ->)]; [|done].
  apply h_bind_inv in H as [([] & w4 & [-> H2]%h_guard_inv & H)|(e & [-> _]%h_guard_inv & ->)]; [|done].
  injection H as <- <-. split; [done|]. intros h' [= <-].
  specialize (H1 eq_refl). specialize (H2 eq_refl). unfold runnerAgentAuthMatches in H2.
  destruct (bool_decide _) eqn:B1 in H2; [done|].
  destruct (bool_decide (runnerAgentAuthHash _ = [])) eqn:B2 in H2; [done|]. bsimpl. split; try done.
  split; [done|]. match goal with H : one_of _ _ = false |- _ => apply one_of_false in H end. set_solver.
Qed.

(** ** What each agent handler writes *)
Lemma ownership_inv s hid rid :
  validateRunnerAgentStreamOwnership s hid rid = Ok tt ->
  ls_RunnerHostID (assigned s) = hid /\ ls_DesiredState (state s) = DatabaseLogArchiveDesiredStateRunning /\
  TrimSpace (ls_LeaseOwner (lease s)) = rid.
Proof.
  unfold validateRunnerAgentStreamOwnership. destruct (negb _) eqn:B1; [done|].
  destruct (negb (bool_decide _)) eqn:B2; [done|].
  destruct (negb (bool_decide (TrimSpace _ = _))) eqn:B3; [done|]. intros _. by bsimpl.
Qed.

Lemma ownership_may_touch s h rid now :
  validateRunnerAgentStreamOwnership s (h_ID h) rid = Ok tt -> may_touch h rid now s.
Proof. intros (? & ? & ?)%ownership_inv. repeat split; auto. Qed.

Lemma checkpoint_state_plan s req :
  let st' := checkpoint_state s req in
  ls_DesiredState st' = ls_DesiredState (state s) /\ ls_PausedAt st' = ls_PausedAt (state s) /\
  ls_PausedReason st' = ls_PausedReason (state s).
Proof. unfold checkpoint_state. cbv zeta. by repeat case_match. Qed.

Lemma checkpoint_touched s h rid now req t :
  may_touch h rid now s -> touched h rid now s (applyRunnerAgentCheckpoint s req t now rid).
Proof.
  intros Hm. right. split; [done|]. unfold applyRunnerAgentCheckpoint.
  destruct (cp_ReleaseLease req).
  - split; [|right; by left]. unfold release_lease. cbn. by case_match.
  - destruct (checkpoint_state_plan s req) as (? & ? & ?). split; [done | by left].
Qed.

Lemma archive_touched s h rid now a :
  may_touch h rid now s -> touched h rid now s (stream_after_archive s a now).
Proof.
  intros Hm. right. split; [done|]. unfold stream_after_archive. cbn. case_match; split; try done; auto.
Qed.

Lemma with_lease_touched s h rid now :
  may_touch h rid now s -> touched h rid now s (with_lease s rid now).
Proof. intros Hm. right. split; [done|]. split; [done | by left]. Qed.

(** Registering leaves the stream alone or marks it as archived. *)
Lemma register_external_inv req now w res w' s :
  keyed_streams w -> streams w !! xa_StreamID req = Some s ->
  RegisterExternalLogArchive E req now w = (res, w') ->
  streams w' = streams w \/
  exists first last, let a := archive_row s req first last now in
    first <= last /\ a_FileName a <> [] /\ a_StorageURI a <> [] /\ res = Ok a /\
    streams w' = <[xa_StreamID req := stream_after_archive s a now]> (streams w).
Proof.
  intros Hk Hs H. unfold RegisterExternalLogArchive in H.
  apply h_bind_inv in H as [([] & w1 & [-> _]%h_guard_inv & H)|(e & [-> _]%h_guard_inv & ->)];
    [|by left].
  apply h_bind_inv in H as [(s1 & w1 & [-> Hs1]%getStream_inv & H)|(e & [-> _]%getStream_inv & ->)];
    [|by left].
  specialize (Hs1 s1 eq_refl). assert (s1 = s) as -> by congruence. clear Hs1.
  apply h_bind_inv in H as [(first & w1 & [-> _]%h_lift_inv & H)|(e & [-> _]%h_lift_inv & ->)];
    [|by left].
  apply h_bind_inv in H as [(last & w1 & [-> _]%h_lift_inv & H)|(e & [-> _]%h_lift_inv & ->)];
    [|by left].
  destruct first as [first|], last as [last|]; try (injection H as _ <-; by left).
  apply h_bind_inv in H as [([] & w1 & [-> Hle]%h_guard_inv & H)|(e & [-> _]%h_guard_inv & ->)];
    [|by left].
  apply h_bind_inv in H as [([] & w1 & [-> Hne]%h_guard_inv & H)|(e & [-> _]%h_guard_inv & ->)];
    [|by left].
  specialize (Hle eq_refl). specialize (Hne eq_refl). bsimpl.
  match goal with H : _ || _ = false |- _ => apply orb_false_iff in H as [? ?] | _ => idtac end.
  apply h_bind_inv in H as [([] & w1 & Hcr%createArchive_streams & H)|(e & Hcr%createArchive_streams & ->)];
    [|by left].
  apply h_bind_inv in H as [([] & w2 & Hsv & H)|(e & [=] & ->)]. injection H as <- <-.
  injection Hsv as Hsv.
  destruct (saveStream E (stream_after_archive s (archive_row s req first last now) now) w1)
    as [r3 w3] eqn:H3. simpl in Hsv. subst w3.
  apply saveStream_cases in H3 as [->| ->]; [by left|]. right. exists first, last.
  cbv zeta. split; [lia|]. repeat (split; [done|]). cbn [put_stream streams].
  by rewrite Hcr, <- (Hk _ _ Hs).
Qed.

Lemma streams_works h rid now s s' sid w w' :
  streams w !! sid = Some s -> touched h rid now s s' -> streams w' = <[sid := s']> (streams w) ->
  works h rid now w w'.
Proof.
  intros Hs Ht Hw k. rewrite Hw. destruct (decide (k = sid)) as [->|Hn].
  - rewrite lookup_insert_eq, Hs. by constructor.
  - rewrite lookup_insert_ne by done. destruct (streams w !! k); by constructor.
Qed.

Lemma register_works h rid auth req now w res w' :
  rid = runnerIDForHost h ->
  keyed_streams w -> authenticateRunnerAgent E auth.1 auth.2 w = (Ok h, w) ->
  RunnerAgentRegisterLogArchive E auth.1 auth.2 req now w = (res, w') -> works h rid now w w'.
Proof.
  intros -> Hk Ha H. unfold RunnerAgentRegisterLogArchive in H.
  apply h_bind_inv in H as [([] & w1 & [-> _]%h_guard_inv & H)|(e & [-> _]%h_guard_inv & ->)];
    [|reflexivity].
  unfold mbind at 1, handler_bind in H. rewrite Ha in H.
  apply h_bind_inv in H as [(s & w1 & [-> Hs]%getStream_inv & H)|(e & [-> _]%getStream_inv & ->)];
    [|reflexivity].
  specialize (Hs s eq_refl).
  apply h_bind_inv in H as [([] & w1 & [-> Hown]%h_lift_inv & H)|(e & [-> _]%h_lift_inv & ->)];
    [|reflexivity].
  symmetry in Hown. pose proof (ownership_may_touch _ _ _ now Hown) as Hm.
  assert (Hext : forall res1 w1, RegisterExternalLogArchive E req now w = (res1, w1) ->
    works h (runnerIDForHost h) now w w1 /\
    exists s1, streams w1 !! xa_StreamID req = Some s1 /\ may_touch h (runnerIDForHost h) now s1).
  { intros res1 w1 [Hst|(first & last & Hx)]%(register_external_inv _ _ _ _ _ s Hk Hs).
    - split; [by apply works_streams|]. exists s. by rewrite Hst.
    - cbv zeta in Hx. destruct Hx as (_ & _ & _ & _ & Hst).
      split; [eapply streams_works; [exact Hs | by apply archive_touched | exact Hst]|].
      eexists. rewrite Hst, lookup_insert_eq. split; [done|].
      destruct Hm as (? & ? & Ho). split; [done|]. split; [|by left; apply ownership_inv in Hown as (_ & _ & ?)].
      unfold stream_after_archive. cbn. by case_match. }
  apply h_bind_inv in H as [(a & w1 & H1 & H)|(e & H1 & ->)]; destruct (Hext _ _ H1) as (Hw1 & s1 & Hs1 & Hm1);
    [|done].
  transitivity w1; [done|]. pose proof (works_keyed _ _ _ _ _ Hw1 Hk) as Hk1.
  unfold mbind at 1, handler_bind, h_get at 1 in H. rewrite Hs1 in H. cbv zeta in H.
  apply h_bind_inv in H as [([] & w2 & H2 & H)|(e & H2 & ->)]; [injection H as _ <-|].
  all: apply h_bind_inv in H2 as [([] & w3 & H3 & H2)|(e' & [=] & _)];
    apply ignored_event_streams in H2; injection H3 as H3.
  all: destruct (saveStream E (with_lease s1 (runnerIDForHost h) now) w1) as [r4 w4] eqn:H4;
    simpl in H3; subst w4.
  all: transitivity w3; [|by apply works_streams].
  all: eapply save_works; [exact Hk1 | by rewrite (Hk1 _ _ Hs1) | by apply with_lease_touched | exact H4].
Qed.

Lemma checkpoint_works h auth sid req now w res w' :
  keyed_streams w -> authenticateRunnerAgent E auth.1 auth.2 w = (Ok h, w) ->
  RunnerAgentCheckpointLogArchiveStream E auth.1 auth.2 sid req now w = (res, w') ->
  works h (runnerIDForHost h) now w w'.
Proof.
  intros Hk Ha H. unfold RunnerAgentCheckpointLogArchiveStream in H.
  unfold mbind at 1, handler_bind in H. rewrite Ha in H.
  apply h_bind_inv in H as [(s & w1 & [-> Hs]%getStream_inv & H)|(e & [-> _]%getStream_inv & ->)];
    [|reflexivity].
  specialize (Hs s eq_refl).
  apply h_bind_inv in H as [([] & w1 & [-> Hown]%h_lift_inv & H)|(e & [-> _]%h_lift_inv & ->)];
    [|reflexivity].
  symmetry in Hown.
  apply h_bind_inv in H as [(t & w1 & [-> _]%h_lift_inv & H)|(e & [-> _]%h_lift_inv & ->)];
    [|reflexivity].
  assert (Hsave : forall r1 w1, saveStream E (applyRunnerAgentCheckpoint s req t now (runnerIDForHost h)) w
      = (r1, w1) -> works h (runnerIDForHost h) now w w1).
  { intros r1 w1. apply save_works with (s := s); [done | by rewrite (Hk _ _ Hs)|].
    by apply checkpoint_touched, ownership_may_touch. }
  apply h_bind_inv in H as [([] & w1 & H1 & H)|(e & H1 & ->)]; [|by eapply Hsave].
  transitivity w1; [by eapply Hsave|]. cbv zeta in H.
  apply h_bind_inv in H as [([] & w2 & H2 & H)|(e & H2 & ->)]; [injection H as _ <-|].
  all: apply works_streams; destruct (_ || _) in H2; [by apply ignored_event_streams in H2|].
  all: first [discriminate H2 | by injection H2 as <-].
Qed.

Lemma TryAcquire_works h rid now expires sid w res w' :
  keyed_streams w -> TryAcquireLease E sid (h_ID h) rid now expires w = (res, w') ->
  works h rid now w w'.
Proof.
  intros Hk H. unfold TryAcquireLease in H. destruct (_ || _); [by injection H as _ <-|].
  destruct (ae_acquire E sid); [by injection H as _ <-|].
  destruct (streams w !! sid) as [s|] eqn:Hs; [|by injection H as _ <-].
  destruct (may_acquire _ _ _ _) eqn:Hm; injection H as _ <-; [|reflexivity].
  apply (put_works _ _ _ s); [done | by rewrite (Hk _ _ Hs)|].
  unfold may_acquire in Hm. bsimpl. right. repeat split; auto.
Qed.

Lemma lease_loop_works h rid now expires l w res w' :
  keyed_streams w -> lease_loop E h rid now expires l w = (res, w') -> works h rid now w w'.
Proof.
  revert w res. induction l as [|c l IH]; intros w res Hk H; [by injection H as _ <-|].
  cbn [lease_loop] in H. apply h_bind_inv in H as [(got & w1 & H1 & H)|(e & H1 & ->)];
    apply TryAcquire_works in H1; try done.
  pose proof (works_keyed _ _ _ _ _ H1 Hk) as Hk1. transitivity w1; [done|].
  unfold mbind at 1, handler_bind, h_get at 1 in H.
  destruct got; [|by eapply IH].
  destruct (streams w1 !! ls_ID (ident c)) as [leased|]; [|by eapply IH].
  apply h_bind_inv in H as [([] & w2 & H2%ignored_event_streams & H)|(e & [=] & _)].
  pose proof (works_streams h rid now _ _ H2) as Hw2. transitivity w2; [done|].
  apply h_bind_inv in H as [(more & w3 & H3 & H)|(e & H3 & ->)].
  - injection H as _ <-. eapply IH, H3. by eapply works_keyed.
  - eapply IH, H3. by eapply works_keyed.
Qed.

Lemma list_works h auth now w res w' :
  keyed_streams w -> authenticateRunnerAgent E auth.1 auth.2 w = (Ok h, w) ->
  RunnerAgentListLogArchiveStreams E auth.1 auth.2 now w = (res, w') ->
  works h (runnerIDForHost h) now w w'.
Proof.
  intros Hk Ha H. unfold RunnerAgentListLogArchiveStreams in H.
  unfold mbind at 1, handler_bind in H. rewrite Ha in H.
  apply h_bind_inv in H as [([] & w1 & H1%saveHost_streams & H)|(e & H1%saveHost_streams & ->)];
    [|by apply works_streams].
  pose proof (works_streams h (runnerIDForHost h) now _ _ H1) as Hw1. transitivity w1; [done|].
  unfold mbind at 1, handler_bind, h_get at 1 in H.
  destruct (ae_list_streams E); [by injection H as _ <-|].
  apply lease_loop_works in H; [exact H | by eapply works_keyed].
Qed.

(** ** Any request of an agent *)
Inductive agent_call :=
| CallHeartbeat (req : DatabaseRunnerAgentHeartbeatRequest)
| CallList
| CallCheckpoint (streamID : Z) (req : DatabaseRunnerAgentCheckpointRequest)
| CallRegister (req : DatabaseExternalLogArchiveRequest)
| CallEvent (req : DatabaseRunnerAgentEventRequest).

Definition run_agent (runnerID auth : gostring) (c : agent_call) (now : Z)
    : handler stream_world unit :=
  match c with
  | CallHeartbeat req => RunnerAgentHeartbeat E runnerID auth req now;; mret tt
  | CallList => RunnerAgentListLogArchiveStreams E runnerID auth now;; mret tt
  | CallCheckpoint sid req =>
    RunnerAgentCheckpointLogArchiveStream E runnerID auth sid req now;; mret tt
  | CallRegister req => RunnerAgentRegisterLogArchive E runnerID auth req now;; mret tt
  | CallEvent req => RunnerAgentCreateLogArchiveEvent E runnerID auth req now;; mret tt
  end.

Lemma drop_result {S B} (m : handler S B) x res x' :
  (m;; mret tt) x = (res, x') -> exists r, m x = (r, x').
Proof.
  intros [(a & y & H1 & H2)|(e & H1 & _)]%h_bind_inv; [|eauto].
  injection H2 as _ <-. eauto.
Qed.

Lemma heartbeat_streams runnerID auth req now w res w' :
  RunnerAgentHeartbeat E runnerID auth req now w = (res, w') -> streams w' = streams w.
Proof.
  intros H. unfold RunnerAgentHeartbeat in H.
  apply h_bind_inv in H as [(h & w1 & [-> _]%authenticate_inv & H)|(e & [-> _]%authenticate_inv & ->)];
    [|done].
  apply h_bind_inv in H as [([] & w1 & H1%saveHost_streams & H)|(e & H1%saveHost_streams & ->)]; [|done].
  apply h_bind_inv in H as [([] & w2 & H2 & H)|(e & H2 & ->)]; [injection H as _ <-|];
    destruct (one_of _ _) in H2; try (apply ignored_event_streams in H2; congruence).
  - injection H2 as <-. done.
  - done.
Qed.

Lemma event_streams runnerID auth req now w res w' :
  RunnerAgentCreateLogArchiveEvent E runnerID auth req now w = (res, w') -> streams w' = streams w.
Proof.
  intros H. unfold RunnerAgentCreateLogArchiveEvent in H.
  apply h_bind_inv in H as [(h & w1 & [-> _]%authenticate_inv & H)|(e & [-> _]%authenticate_inv & ->)];
    [|done].
  assert (Hs : forall r w1, (if 0 <? ev_StreamID req
       then s ← getStream (ev_StreamID req);
            h_guard (ls_RunnerHostID (assigned s) =? h_ID h) $"日志归档流未绑定当前 Runner";;
            mret (Some s)
       else mret None) w = (r, w1) -> w1 = w).
  { intros r w1. destruct (0 <? ev_StreamID req); [|by intros [= _ <-]]. intros Hx.
    apply h_bind_inv in Hx as [(s & w2 & [-> _]%getStream_inv & Hx)|(e & [-> _]%getStream_inv & _)]; [|done].
    apply h_bind_inv in Hx as [([] & w2 & [-> _]%h_guard_inv & Hx)|(e & [-> _]%h_guard_inv & _)]; [|done].
    by injection Hx as _ <-. }
  apply h_bind_inv in H as [(s & w1 & ->%Hs & H)|(e & ->%Hs & ->)]; [|done].
  apply h_bind_inv in H as [(t & w1 & [-> _]%h_lift_inv & H)|(e & [-> _]%h_lift_inv & ->)]; [|done].
  apply h_bind_inv in H as [([] & w1 & H1 & H)|(e & H1 & ->)].
  - injection H as _ <-. by apply record_streams in H1.
  - by apply record_streams in H1.
Qed.

(** An agent that is refused changes nothing at all; one that is known only
    works on the streams that are bound to its host. *)
Lemma agent_cases runnerID auth c now w res w' :
  keyed_streams w -> run_agent runnerID auth c now w = (res, w') ->
  w' = w \/ exists h, authorised w runnerID auth h /\ works h (runnerIDForHost h) now w w'.
Proof.
  intros Hk H.
  destruct (authenticateRunnerAgent E runnerID auth w) as [[h|e] w1] eqn:Ha;
    destruct (authenticate_inv _ _ _ _ _ Ha) as [-> Hauth].
  - right. exists h. split; [by apply Hauth|].
    destruct c as [req| |sid req|req|req]; cbn [run_agent] in H; apply drop_result in H as [r H].
    + apply works_streams. by eapply heartbeat_streams.
    + by eapply (list_works _ (runnerID, auth)).
    + by eapply (checkpoint_works _ (runnerID, auth)).
    + by eapply (register_works _ _ (runnerID, auth)).
    + apply works_streams. by eapply event_streams.
  - left. destruct c as [req| |sid req|req|req]; cbn [run_agent] in H; apply drop_result in H as [r H].
    1-3,5: (unfold RunnerAgentHeartbeat, RunnerAgentListLogArchiveStreams,
      RunnerAgentCheckpointLogArchiveStream, RunnerAgentCreateLogArchiveEvent in H;
      unfold mbind at 1, handler_bind in H; rewrite Ha in H; by injection H).
    unfold RunnerAgentRegisterLogArchive in H.
    apply h_bind_inv in H as [([] & w2 & [-> _]%h_guard_inv & H)|(e' & [-> _]%h_guard_inv & _)]; [|done].
    unfold mbind at 1, handler_bind in H. rewrite Ha in H. by injection H.
Qed.

(** C14: No request of a runner agent changes anything unless it names a known,
    enabled host and carries the secret whose hash that host's configuration
    holds; and then the only streams it changes are those bound to that host,
    meant to run and leased to it or free, whose owner, mode, desired state and
    pause stay as the operator set them. *)
Theorem agent_acts_within_lease runnerID auth c now w res w' :
  keyed_streams w -> run_agent runnerID auth c now w = (res, w') ->
  w' = w \/
  exists h, authorised w runnerID auth h /\
    forall sid, streams w' !! sid <> streams w !! sid ->
    exists s s', streams w !! sid = Some s /\ streams w' !! sid = Some s' /\
      may_touch h (runnerIDForHost h) now s /\ same_plan s s'.
Proof.
  intros Hk [->|(h & Hauth & Hw)]%agent_cases; [by left | | done].
  right. exists h. split; [done|]. intros sid Hne. specialize (Hw sid).
  inversion Hw as [s s' Ht Hs Hs'|Hs Hs']; [|congruence].
  destruct Ht as [->|(Hm & Hp & _)]; [congruence|]. eauto 6.
Qed.

(** ** A stream that is not meant to run *)
Fixpoint run_agents (l : list (gostring * gostring * agent_call * Z)) (w : stream_world)
    : stream_world :=
  match l with
  | [] => w
  | (runnerID, auth, c, now) :: rest => run_agents rest (run_agent runnerID auth c now w).2
  end.

Lemma agents_keep_idle l w sid s :
  keyed_streams w -> streams w !! sid = Some s ->
  ls_DesiredState (state s) <> DatabaseLogArchiveDesiredStateRunning -> streams (run_agents l w) !! sid = Some s.
Proof.
  revert w. induction l as [|[[[runnerID auth] c] now] l IH]; intros w Hk Hs Hd; [done|].
  cbn [run_agents]. destruct (run_agent runnerID auth c now w) as [res w'] eqn:Hrun.
  destruct (agent_cases _ _ _ _ _ _ _ Hk Hrun) as [->|(h & _ & Hw)]; [by apply IH|].
  cbn [snd]. apply IH; [by eapply works_keyed | | done].
  specialize (Hw sid). rewrite Hs in Hw. inversion Hw as [? s' Ht|]; subst.
  destruct Ht as [->|((_ & Hrun' & _) & _)]; done.
Qed.

Lemma pause_inv streamID req now w s' w' :
  keyed_streams w -> PauseLogArchiveStream E streamID req now w = (Ok s', w') ->
  exists s, streams w !! streamID = Some s /\
    s' = applyLogArchiveStreamPauseState s (rq_Reason req) now /\
    streams w' = <[streamID := s']> (streams w).
Proof.
  intros Hk H. unfold PauseLogArchiveStream, getLogArchiveStreamForControl in H.
  apply h_bind_Ok in H as (s & w1 & H1 & H). destruct (streamID =? 0); [done|].
  apply getStream_inv in H1 as [-> Hs]. specialize (Hs s eq_refl). cbv zeta in H.
  apply h_bind_Ok in H as ([] & w1 & H1 & H). apply h_bind_Ok in H as ([] & w2 & H2 & H).
  injection H as <- <-. exists s. split; [done|]. split; [done|].
  apply ignored_event_streams in H2. rewrite H2. unfold saveStream in H1.
  destruct (ae_save_stream E _); [done|]. injection H1 as <-. by rewrite <- (Hk _ _ Hs).
Qed.

Lemma stop_inv streamID req now w s' w' :
  keyed_streams w -> StopLogArchiveStream E streamID req now w = (Ok s', w') ->
  exists s, streams w !! streamID = Some s /\
    s' = applyLogArchiveStreamStopState s (rq_Reason req) /\
    streams w' = <[streamID := s']> (streams w).
Proof.
  intros Hk H. unfold StopLogArchiveStream, getLogArchiveStreamForControl in H.
  apply h_bind_Ok in H as (s & w1 & H1 & H). destruct (streamID =? 0); [done|].
  apply getStream_inv in H1 as [-> Hs]. specialize (Hs s eq_refl). cbv zeta in H.
  apply h_bind_Ok in H as ([] & w1 & H1 & H). apply h_bind_Ok in H as ([] & w2 & H2 & H).
  injection H as <- <-. exists s. split; [done|]. split; [done|].
  apply ignored_event_streams in H2. rewrite H2. unfold saveStream in H1.
  destruct (ae_save_stream E _); [done|]. injection H1 as <-. by rewrite <- (Hk _ _ Hs).
Qed.

Lemma insert_keyed sid s s' w w' :
  keyed_streams w -> streams w !! sid = Some s -> ident s' = ident s ->
  streams w' = <[sid := s']> (streams w) -> keyed_streams w'.
Proof.
  intros Hk Hs Hi Hw k x. rewrite Hw. destruct (decide (k = sid)) as [->|Hn].
  - rewrite lookup_insert_eq. intros [= <-]. rewrite Hi. by apply Hk.
  - rewrite lookup_insert_ne by done. apply Hk.
Qed.

(** Once a stream is paused or stopped its lease is gone, and whatever
    requests agents send afterwards, with whatever credentials, the row stays
    exactly as the operator left it. *)
Theorem halted_stream_stays streamID req now w s' w' l :
  keyed_streams w ->
  PauseLogArchiveStream E streamID req now w = (Ok s', w') \/
  StopLogArchiveStream E streamID req now w = (Ok s', w') ->
  ls_LeaseOwner (lease s') = [] /\ ls_LeaseExpiresAt (lease s') = None /\
  ls_DesiredState (state s') <> DatabaseLogArchiveDesiredStateRunning /\
  streams (run_agents l w') !! streamID = Some s'.
Proof.
  intros Hk H.
  assert (exists s, streams w !! streamID = Some s /\ streams w' = <[streamID := s']> (streams w) /\
    ident s' = ident s /\ lease s' = no_lease (lease s) /\
    ls_DesiredState (state s') <> DatabaseLogArchiveDesiredStateRunning) as (s & Hs & Hw & Hi & -> & Hd).
  { destruct H as [(s & Hs & -> & Hw)%(pause_inv _ _ _ _ _ _ Hk)|(s & Hs & -> & Hw)%(stop_inv _ _ _ _ _ _ Hk)];
      exists s; repeat (split; [done|]); by vm_compute. }
  repeat (split; [done|]). apply agents_keep_idle; [by eapply insert_keyed | | done].
  by rewrite Hw, lookup_insert_eq.
Qed.

(** ** Interleaved requests *)

(** A checkpoint reads the row, computes a whole new one and saves it. If
    an operator pauses the stream between the read and the save, the pause
    succeeds and is lost: the saved row is meant to run, not paused and leased
    to the agent again, although a checkpoint sent after the pause would have
    been refused. *)
Theorem concurrent_pause_lost streamID preq req now t later w s s' w1 h :
  keyed_streams w -> streams w !! streamID = Some s ->
  validateRunnerAgentStreamOwnership s (h_ID h) (runnerIDForHost h) = Ok tt ->
  cp_ReleaseLease req = false ->
  PauseLogArchiveStream E streamID preq now w = (Ok s', w1) ->
  validateRunnerAgentStreamOwnership s' (h_ID h) (runnerIDForHost h) <> Ok tt /\
  forall w2, saveStream E (applyRunnerAgentCheckpoint s req t later (runnerIDForHost h)) w1 = (Ok tt, w2) ->
    exists s2, streams w2 !! streamID = Some s2 /\
      ls_DesiredState (state s2) = DatabaseLogArchiveDesiredStateRunning /\
      ls_PausedAt (state s2) = ls_PausedAt (state s) /\
      ls_LeaseOwner (lease s2) = runnerIDForHost h.
Proof.
  intros Hk Hs Hown Hrel (s0 & Hs0 & -> & Hw1)%pause_inv; [|done].
  assert (s0 = s) as -> by congruence. split.
  - intros (_ & Hd & _)%ownership_inv. by vm_compute in Hd.
  - intros w2 H. unfold saveStream in H. destruct (ae_save_stream E _); [done|]. injection H as <-.
    eexists. split.
    { cbn [put_stream streams]. unfold applyRunnerAgentCheckpoint at 1. rewrite Hrel. cbn [ident].
      rewrite (Hk _ _ Hs). apply lookup_insert_eq. }
    apply ownership_inv in Hown as (_ & Hd & _). unfold applyRunnerAgentCheckpoint.
    rewrite Hrel. cbn [state lease ls_LeaseOwner].
    destruct (checkpoint_state_plan s req) as (-> & -> & _). done.
Qed.

(** ** Leases *)
Lemma lease_held l t now rid :
  ls_LeaseOwner l <> [] -> ls_LeaseOwner l <> rid -> ls_LeaseExpiresAt l = Some t -> now <= t ->
  lease_free l rid now = false.
Proof.
  intros H1 H2 H3 H4. unfold lease_free. rewrite !bool_decide_false, H3 by done.
  apply Z.ltb_ge. lia.
Qed.

(** While a lease has not run out, requests under any other runner name
    leave the stream exactly as it is. *)
Theorem lease_excludes_others l w sid s owner t :
  keyed_streams w -> streams w !! sid = Some s ->
  ls_LeaseOwner (lease s) = owner -> owner <> [] -> TrimSpace owner = owner ->
  ls_LeaseExpiresAt (lease s) = Some t ->
  Forall (fun call : gostring * gostring * agent_call * Z =>
    let '(runnerID, _, _, now) := call in
    parseRunnerHostIDAlias (TrimSpace runnerID) = None /\ TrimSpace runnerID <> owner /\ now <= t) l ->
  streams (run_agents l w) !! sid = Some s.
Proof.
  intros Hk Hs Ho Hne Htrim Ht Hl. revert w Hk Hs.
  induction Hl as [|[[[runnerID auth] c] now] l (Hal & Hn & Hnow) _ IH]; intros w Hk Hs; [done|].
  cbn [run_agents]. destruct (run_agent runnerID auth c now w) as [res w'] eqn:Hrun.
  destruct (agent_cases _ _ _ _ _ _ _ Hk Hrun) as [->|(h & Hauth & Hw)]; [by apply IH|].
  cbn [snd]. apply IH; [by eapply works_keyed|].
  specialize (Hw sid). rewrite Hs in Hw. inversion Hw as [? s' Hx|]; subst.
  destruct Hx as [->|((_ & _ & Hm) & _)]; [done|]. exfalso.
  destruct (auth_named _ _ _ _ Hauth) as [?|Hname]; [done|]. rewrite Hname in Hm.
  destruct Hm as [Hm|Hm]; [congruence|].
  rewrite (lease_held _ t) in Hm by (done || congruence). done.
Qed.

(** The streams that a list request hands out are leased to the agent. *)
Lemma lease_loop_granted h rid now expires l w res w' :
  keyed_streams w -> lease_loop E h rid now expires l w = (Ok res, w') ->
  Forall (fun s => ls_RunnerHostID (assigned s) = h_ID h /\ ls_Enabled (ident s) = true /\
    ls_DesiredState (state s) = DatabaseLogArchiveDesiredStateRunning /\ ls_LeaseOwner (lease s) = rid /\
    ls_LeaseExpiresAt (lease s) = Some expires) res.
Proof.
  revert w res. induction l as [|c l IH]; intros w res Hk H; [injection H as <- _; constructor|].
  cbn [lease_loop] in H. apply h_bind_Ok in H as (got & w1 & H1 & H).
  pose proof (works_keyed _ _ _ _ _ (TryAcquire_works _ _ _ _ _ _ _ _ Hk H1) Hk) as Hk1.
  unfold mbind at 1, handler_bind, h_get at 1 in H. destruct got; [|by eapply IH].
  destruct (streams w1 !! ls_ID (ident c)) as [leased|] eqn:Hl; [|by eapply IH].
  apply h_bind_Ok in H as ([] & w2 & H2%ignored_event_streams & H).
  apply h_bind_Ok in H as (more & w3 & H3 & H). injection H as <- <-.
  constructor; [|eapply IH, H3; apply (works_keyed h rid now w1); [by apply works_streams | done]].
  unfold TryAcquireLease in H1. destruct (_ || _) in H1; [done|].
  destruct (ae_acquire E _); [done|]. destruct (streams w !! _) as [s|] eqn:Hs; [|done].
  destruct (may_acquire _ _ _ _) eqn:Hm; [|done]. injection H1 as <-.
  cbn [put_stream streams acquired ident] in Hl. rewrite (Hk _ _ Hs), lookup_insert_eq in Hl.
  injection Hl as <-. unfold may_acquire in Hm. bsimpl. done.
Qed.

(** Every stream that a list request hands to an agent is enabled, meant
    to run, bound to the agent's host, and leased to the agent for the next 90
    seconds. *)
Theorem listed_streams_leased runnerID auth now w res w' :
  keyed_streams w -> RunnerAgentListLogArchiveStreams E runnerID auth now w = (Ok res, w') ->
  exists h, authorised w runnerID auth h /\
  Forall (fun s => ls_RunnerHostID (assigned s) = h_ID h /\ ls_Enabled (ident s) = true /\
    ls_DesiredState (state s) = DatabaseLogArchiveDesiredStateRunning /\
    ls_LeaseOwner (lease s) = runnerIDForHost h /\
    ls_LeaseExpiresAt (lease s) = Some (now + 90 * nanos_per_second)) res.
Proof.
  intros Hk H. unfold RunnerAgentListLogArchiveStreams in H.
  apply h_bind_Ok in H as (h & w1 & H1 & H). apply authenticate_inv in H1 as [-> Hauth].
  exists h. split; [by apply Hauth|].
  apply h_bind_Ok in H as ([] & w1 & H1%saveHost_streams & H).
  unfold mbind at 1, handler_bind, h_get at 1 in H. destruct (ae_list_streams E); [done|].
  apply lease_loop_granted in H; [exact H|]. intros k s. rewrite H1. apply Hk.
Qed.

(** ** Checkpoints *)
Definition agreeing_status : list (gostring * gostring) :=
  [(DatabaseLogArchiveStreamStatusPending, DatabaseLogArchiveDaemonStatusStarting); (DatabaseLogArchiveStreamStatusPending, DatabaseLogArchiveDaemonStatusStopped);
   (DatabaseLogArchiveStreamStatusRunning, DatabaseLogArchiveDaemonStatusRunning); (DatabaseLogArchiveStreamStatusPaused, DatabaseLogArchiveDaemonStatusPaused);
   (DatabaseLogArchiveStreamStatusDegraded, DatabaseLogArchiveDaemonStatusDegraded); (DatabaseLogArchiveStreamStatusFailed, DatabaseLogArchiveDaemonStatusFailed)].

Lemma normalized_daemon v :
  normalizeLogArchiveDaemonStatus v ∈ [DatabaseLogArchiveDaemonStatusStarting; DatabaseLogArchiveDaemonStatusRunning;
    DatabaseLogArchiveDaemonStatusPaused; DatabaseLogArchiveDaemonStatusDegraded; DatabaseLogArchiveDaemonStatusFailed; DatabaseLogArchiveDaemonStatusStopped].
Proof.
  unfold normalizeLogArchiveDaemonStatus. cbv zeta. destruct (one_of _ _) eqn:H.
  - apply one_of_true in H. set_solver.
  - set_solver.
Qed.

Lemma sound_status v :
  v ∈ [DatabaseLogArchiveStreamStatusPending; DatabaseLogArchiveStreamStatusRunning; DatabaseLogArchiveStreamStatusPaused] ->
  ~ (v = DatabaseLogArchiveStreamStatusDegraded \/ v = DatabaseLogArchiveStreamStatusFailed).
Proof.
  rewrite !elem_of_cons, elem_of_nil.
  intros [->|[->|[->|[]]]] [H|H]; by vm_compute in H.
Qed.

(** Whatever an agent reports, the stream status it leads to agrees with
    the daemon status, a degraded or failed stream has an error text, and a
    stream without an error text that is more than twice its recovery point
    target behind is not running. *)
Theorem checkpoint_state_consistent s req :
  let st' := checkpoint_state s req in
  (ls_Status st', ls_DaemonStatus st') ∈ agreeing_status /\
  (ls_Status st' = DatabaseLogArchiveStreamStatusDegraded \/ ls_Status st' = DatabaseLogArchiveStreamStatusFailed ->
     ls_LastError st' <> []) /\
  (0 < ls_RPOTargetSeconds (ident s) -> ls_RPOTargetSeconds (ident s) * 2 < cp_ArchiveLagSeconds req ->
     ls_LastError st' = [] -> ls_Status st' <> DatabaseLogArchiveStreamStatusRunning) /\
  ls_DesiredState st' = ls_DesiredState (state s).
Proof.
  cbv zeta. split; [|split; [|split; [|apply checkpoint_state_plan]]].
  - unfold checkpoint_state, agreeing_status. cbv zeta.
    pose proof (normalized_daemon (cp_DaemonStatus req)) as Hd.
    destruct (one_of _ [DatabaseLogArchiveDaemonStatusRunning]) eqn:B1.
    { apply one_of_true, list_elem_of_singleton in B1. rewrite B1.
      destruct (_ && _); cbn [set_state ls_Status ls_DaemonStatus]; rewrite !elem_of_cons; tauto. }
    destruct (one_of _ [DatabaseLogArchiveDaemonStatusPaused]) eqn:B2.
    { apply one_of_true, list_elem_of_singleton in B2. rewrite B2.
      cbn [set_state ls_Status ls_DaemonStatus]; rewrite !elem_of_cons; tauto. }
    destruct (one_of _ [DatabaseLogArchiveDaemonStatusDegraded]) eqn:B3.
    { apply one_of_true, list_elem_of_singleton in B3. rewrite B3.
      cbn [set_state ls_Status ls_DaemonStatus]; rewrite !elem_of_cons; tauto. }
    destruct (one_of _ [DatabaseLogArchiveDaemonStatusFailed]) eqn:B4.
    { apply one_of_true, list_elem_of_singleton in B4. rewrite B4.
      cbn [set_state ls_Status ls_DaemonStatus]; rewrite !elem_of_cons; tauto. }
    apply one_of_false in B1, B2, B3, B4. rewrite list_elem_of_singleton in B1, B2, B3, B4.
    rewrite !elem_of_cons in Hd. cbn [set_state ls_Status ls_DaemonStatus].
    destruct Hd as [->|[?|[?|[?|[?|[->|Hd]]]]]]; try done; rewrite ?elem_of_cons; try tauto.
    by apply elem_of_nil in Hd.
  - unfold checkpoint_state. cbv zeta. destruct (one_of _ [DatabaseLogArchiveDaemonStatusRunning]);
      [destruct (_ && _)|destruct (one_of _ [DatabaseLogArchiveDaemonStatusPaused]);
         [|destruct (one_of _ [DatabaseLogArchiveDaemonStatusDegraded]); [|destruct (one_of _ [DatabaseLogArchiveDaemonStatusFailed])]]];
      cbn [set_state ls_Status ls_LastError].
    2,3,6: intros Hx; exfalso; eapply sound_status, Hx; set_solver.
    all: intros _; try (destruct (bool_decide _) eqn:B; [clear|by bsimpl]); by vm_compute.
  - unfold checkpoint_state. cbv zeta. intros Hr Hlag.
    destruct (one_of _ [DatabaseLogArchiveDaemonStatusRunning]) eqn:B1.
    + destruct (bool_decide _ && _ && _) eqn:B; cbn [set_state ls_Status ls_LastError].
      * intros _ Hx. by vm_compute in Hx.
      * intros He. rewrite !andb_false_iff, bool_decide_eq_false, !Z.ltb_ge in B. exfalso. destruct B as [[?|?]|?]; [done | lia | lia].
    + intros _. repeat case_match; cbn [set_state ls_Status]; intros Hx; by vm_compute in Hx.
Qed.

(** An agent host without an address is known as runner-host-<id>, and
    that name finds its row. *)
Theorem runner_alias_round_trip h :
  0 < h_ID h < 2 ^ 32 -> h_RunnerType h = DatabaseRunnerTypeAgent -> TrimSpace (h_Host h) = [] ->
  parseRunnerHostIDAlias (runnerIDForHost h) = Some (h_ID h).
Proof.
  intros Hid Ht Hh. unfold runnerIDForHost. rewrite Ht, Hh.
  replace (one_of DatabaseRunnerTypeAgent [DatabaseRunnerTypeLocal]) with false by (by vm_compute).
  replace (one_of DatabaseRunnerTypeAgent [DatabaseRunnerTypeAgent]) with true by (by vm_compute).
  rewrite bool_decide_true by done. unfold parseRunnerHostIDAlias.
  pose proof (fmt_d_digits (h_ID h) ltac:(lia)) as Hd.
  rewrite TrimSpace_no_space.
  2: { apply Forall_app. split; [|by apply digits_no_space].
       apply (bool_decide_unpack _). by vm_compute. }
  cbn [foldl]. rewrite TrimPrefix_app.
  assert (Hhead : forall c, ~ is_ascii_digit c -> forall r, head (fmt_d (h_ID h)) = Some r -> r <> c).
  { intros c Hc r Hr ->. apply Hc. destruct (fmt_d (h_ID h)); [done|]. injection Hr as ->.
    by inversion Hd. }
  change $"runner:" with (114 :: $"unner:"). change $"host:" with (104 :: $"ost:").
  rewrite (TrimPrefix_other 114) by (apply Hhead; unfold is_ascii_digit; lia).
  rewrite (TrimPrefix_other 104) by (apply Hhead; unfold is_ascii_digit; lia).
  rewrite bool_decide_false by (apply fmt_d_not_nil; lia).
  assert (forallb is_digit (fmt_d (h_ID h)) = true) as ->.
  { apply forallb_forall. intros c Hc. apply list_elem_of_In in Hc.
    pose proof (proj1 (Forall_forall _ _) Hd c Hc) as Hx. unfold is_ascii_digit in Hx.
    unfold is_digit. rewrite andb_true_iff, !Z.leb_le. lia. }
  cbn [negb orb]. unfold digits_value. rewrite fmt_d_value by lia.
  replace ((2 ^ 32 - 1 <? h_ID h) || (h_ID h =? 0)) with false; [done|].
  symmetry. rewrite orb_false_iff, Z.ltb_ge, Z.eqb_neq. lia.
Qed.
End facts.

(** ** Examples *)
Definition sample_agent_lib : AgentLib := {|
  sha256_hex auth := replicate 64 (if bool_decide (auth = $"secret") then 97 else 98);
  json_key config key := if bool_decide (key = $"runnerAuthSha256") then Some config else None;
  json_payload uri _ _ := uri;
  time_parse _ v := if bool_decide (v = []) then None else Some (digits_value v) |}.

Definition sample_agent_env : agent_env := {|
  ae_instance _ := Some $"mysql"; ae_save_stream _ := None; ae_save_host _ := None;
  ae_list_hosts := None; ae_list_streams := None; ae_acquire _ := None;
  ae_create_archive _ := None; ae_create_event _ := None |}.

Definition sample_host : DatabaseRunnerHost := {|
  h_ID := 3; h_RunnerType := $"agent"; h_Host := []; h_Port := 22; h_Enabled := true;
  h_Status := $"online"; h_LastHeartbeatAt := None; h_LastError := [];
  h_ConfigJSON := replicate 64 97 |}.

Definition sample_stream : DatabaseLogArchiveStream := {|
  ident := {| ls_ID := 7; ls_InstanceID := 9; ls_SourceInstanceID := 0;
              ls_ArchiveType := $"binlog"; ls_RPOTargetSeconds := 30; ls_Enabled := true |};
  assigned := {| ls_RunnerHostID := 3; ls_ArchiveMode := $"polling";
                 ls_ArchiveEngine := $"mysqlbinlog_polling" |};
  state := {| ls_Status := $"running"; ls_DesiredState := $"running";
              ls_DaemonStatus := $"running"; ls_ConsecutiveFailures := 0;
              ls_PausedAt := None; ls_PausedReason := []; ls_LastError := [] |};
  lease := {| ls_LeaseOwner := $"runner-host-3"; ls_LeaseExpiresAt := Some 500;
              ls_LastHeartbeatAt := Some 100 |};
  cursor := {| ls_CursorFile := $"bin.01"; ls_CursorPos := 4; ls_CursorGTIDSet := [];
               ls_ActiveFile := []; ls_LastSourceFile := []; ls_LastSourcePos := 0;
               ls_LastEventTime := None; ls_ArchiveLagSeconds := 0; ls_LastArchivedAt := None;
               ls_LastArchiveName := [] |} |}.

Definition sample_stream_world : stream_world := {|
  streams := {[7 := sample_stream]}; hosts := {[3 := sample_host]}; archives := []; events := [] |}.

Definition sample_control (mode : gostring) : DatabaseLogArchiveStreamControlRequest := {|
  rq_RunnerHostID := 0; rq_ArchiveMode := mode; rq_Reason := [] |}.

Definition sample_checkpoint : DatabaseRunnerAgentCheckpointRequest := {|
  cp_DaemonStatus := $"running"; cp_CursorFile := $"bin.02"; cp_CursorPos := 8;
  cp_CursorGTIDSet := []; cp_ActiveFile := []; cp_LastSourceFile := []; cp_LastSourcePos := 0;
  cp_LastEventTime := []; cp_ArchiveLagSeconds := 5; cp_ConsecutiveFailures := 0;
  cp_LastError := []; cp_LeaseTTLSeconds := 60; cp_ReleaseLease := false |}.

Section samples.
#[local] Existing Instance sample_tables.
#[local] Existing Instance sample_agent_lib.

Definition sample_pause :=
  PauseLogArchiveStream sample_agent_env 7 (sample_control []) 200 sample_stream_world.
Definition sample_paused : DatabaseLogArchiveStream :=
  applyLogArchiveStreamPauseState sample_stream [] 200.

Lemma sample_streams_keyed : keyed_streams sample_stream_world.
Proof. intros sid s H. unfold sample_stream_world in H. cbn [streams] in H.
  by apply lookup_singleton_Some in H as [<- <-]. Qed.

Lemma sample_pause_run : sample_pause = (Ok sample_paused, sample_pause.2).
Proof. vm_compute. reflexivity. Qed.

(** Started in streaming mode, a stream keeps the engine of the polling mode. *)
Example engine_of_the_old_mode :
  match StartLogArchiveStream sample_agent_env 7 (sample_control $"streaming") 200
          sample_stream_world with
  | (Ok s, _) => (ls_ArchiveMode (assigned s), ls_ArchiveEngine (assigned s))
                 = ($"streaming", $"mysqlbinlog_polling")
  | _ => False
  end.
Proof. vm_compute. reflexivity. Qed.

Lemma agent_acts_within_lease_witness :
  let w' := (run_agent sample_agent_env $"runner-host-3" $"secret" CallList 200 sample_stream_world).2 in
  keyed_streams sample_stream_world /\
  (w' = sample_stream_world \/
   exists h, authorised sample_stream_world $"runner-host-3" $"secret" h /\
    forall sid, streams w' !! sid <> streams sample_stream_world !! sid ->
    exists s s', streams sample_stream_world !! sid = Some s /\ streams w' !! sid = Some s' /\
      may_touch h (runnerIDForHost h) 200 s /\ same_plan s s').
Proof.
  split; [exact sample_streams_keyed|].
  exact (agent_acts_within_lease sample_agent_env $"runner-host-3" $"secret" CallList 200
    sample_stream_world _ _ sample_streams_keyed (surjective_pairing _)).
Defined.

Lemma halted_stream_stays_witness :
  ls_LeaseOwner (lease sample_paused) = [] /\
  streams (run_agents sample_agent_env
    [($"runner-host-3", $"secret", CallCheckpoint 7 sample_checkpoint, 300)] sample_pause.2) !! 7
  = Some sample_paused.
Proof.
  destruct (halted_stream_stays sample_agent_env 7 (sample_control []) 200 sample_stream_world
    sample_paused sample_pause.2 [($"runner-host-3", $"secret", CallCheckpoint 7 sample_checkpoint, 300)]
    sample_streams_keyed (or_introl sample_pause_run)) as (H1 & _ & _ & H2).
  split; [exact H1 | exact H2].
Defined.

Lemma concurrent_pause_lost_witness :
  validateRunnerAgentStreamOwnership sample_paused 3 $"runner-host-3" <> Ok tt /\
  exists w2 s2,
    saveStream sample_agent_env
      (applyRunnerAgentCheckpoint sample_stream sample_checkpoint None 250 $"runner-host-3")
      sample_pause.2 = (Ok tt, w2) /\
    streams w2 !! 7 = Some s2 /\ ls_DesiredState (state s2) = DatabaseLogArchiveDesiredStateRunning.
Proof.
  destruct (concurrent_pause_lost sample_agent_env 7 (sample_control []) sample_checkpoint 200
    None 250 sample_stream_world sample_stream sample_paused sample_pause.2 sample_host
    sample_streams_keyed eq_refl ltac:(vm_compute; reflexivity) eq_refl sample_pause_run) as [H1 H2].
  split; [exact H1|].
  destruct (H2 _ eq_refl) as (s2 & Hs & Hd & _). eexists _, s2.
  split; [reflexivity|]. split; [exact Hs | exact Hd].
Defined.

Lemma lease_excludes_others_witness :
  streams (run_agents sample_agent_env [($"agent:other", $"secret", CallList, 400)]
    sample_stream_world) !! 7 = Some sample_stream.
Proof.
  apply (lease_excludes_others sample_agent_env _ _ 7 sample_stream $"runner-host-3" 500
    sample_streams_keyed).
  - reflexivity.
  - reflexivity.
  - vm_compute. discriminate.
  - vm_compute. reflexivity.
  - reflexivity.
  - repeat constructor; vm_compute; discriminate.
Defined.

Lemma listed_streams_leased_witness : exists res w' h,
  RunnerAgentListLogArchiveStreams sample_agent_env $"runner-host-3" $"secret" 200
    sample_stream_world = (Ok res, w') /\
  res <> [] /\ authorised sample_stream_world $"runner-host-3" $"secret" h.
Proof.
  destruct (RunnerAgentListLogArchiveStreams sample_agent_env $"runner-host-3" $"secret" 200
    sample_stream_world) as [[res|e] w'] eqn:Hrun;
    [|apply (f_equal (fun x => is_ok x.1)) in Hrun; vm_compute in Hrun; discriminate Hrun].
  destruct (listed_streams_leased sample_agent_env $"runner-host-3" $"secret" 200
    sample_stream_world res w' sample_streams_keyed Hrun) as (h & Hh & _).
  exists res, w', h. split; [reflexivity|]. split; [|exact Hh].
  apply (f_equal (fun x => match x.1 with Ok l => length l | Err _ => 0%nat end)) in Hrun.
  vm_compute in Hrun. intros ->. discriminate Hrun.
Defined.

Lemma runner_alias_round_trip_witness :
  parseRunnerHostIDAlias (runnerIDForHost sample_host) = Some 3.
Proof.
  apply (runner_alias_round_trip sample_host); [split; vm_compute; reflexivity | reflexivity|].
  vm_compute. reflexivity.
Defined.
End samples.
