(* ===== verification/ProtectionModel.v ===== *)
(** * What the protection of an instance is computed from

    The rows and the queries behind the protection profile, the protection
    risks and the backup alerts ([data/database/*_repository.go]). A [view] is
    the database and the clock as one evaluation reads them; every query may
    be refused. A column that only the protection reads stands beside the row
    of the component that owns the others; deleted rows are not in a view. *)

From Stdlib Require Import ZArith Lia.
From stdpp Require Import base tactics option list numbers.
From S2P Require Import Prelude GoStrings GoNumbers SqlSafety WriteExec BackupModel LogStream.
From S2P Require Import RestorePlan.

Open Scope Z_scope.

(** ** Constants *)
Definition DatabaseReplicaRoleRealtime := $"realtime_replica".
Definition DatabaseReplicaRoleDelayed := $"delayed_replica".
Definition DatabaseReplicaRoleStandby := $"standby".
Definition DatabaseReplicaRoleUnknown := $"unknown".
Definition DatabaseReplicationRolePrimary := $"primary".
Definition DatabaseReplicationRoleReplica := $"replica".
Definition DatabaseReplicationRoleStandby := $"standby".
Definition DatabaseReplicationRoleUnknown := $"unknown".
Definition DatabaseReplicaHealthHealthy := $"healthy".
Definition DatabaseReplicaHealthWarning := $"warning".
Definition DatabaseReplicaHealthCritical := $"critical".
Definition DatabaseReplicaProtectionProtected := $"protected".
Definition DatabaseReplicaProtectionDegraded := $"degraded".
Definition DatabaseReplicaProtectionUnprotected := $"unprotected".
Definition DatabaseReplicaProtectionUnknown := $"unknown".
Definition DatabaseReplicaDiscoveryReplicaStatus := $"replica_status".
Definition DatabaseBackupTypeLogical := $"logical".
Definition DatabaseRestoreStatusRestored := $"restored".
Definition DatabaseRestoreStatusVerified := $"verified".
Definition DatabaseRestoreStatusFailed := $"failed".
Definition DatabaseBarmanServerStatusPending := $"pending".
Definition DatabaseBarmanServerStatusHealthy := $"healthy".
Definition DatabaseBarmanServerStatusDegraded := $"degraded".
Definition DatabaseBarmanServerStatusFailed := $"failed".
Definition DatabaseBarmanServerStatusDisabled := $"disabled".

(** ** Rows *)
Record ManagedInstance := {
  mi_row : DatabaseInstance; mi_Version : gostring; mi_Environment : gostring;
  mi_BusinessSystem : gostring; mi_Owner : gostring }.
Definition mi_ID (i : ManagedInstance) : Z := i_ID (mi_row i).

Record PolicyRow := {
  po_policy : DatabaseBackupPolicyConfig; po_StorageProfileID : Z;
  po_LastFullAt : option Z; po_LastIncrementalAt : option Z;
  po_LastRestoreDrillAt : option Z }.

Record DatabaseBackupTask := {
  bt_ID : Z; bt_InstanceID : Z; bt_BackupType : gostring; bt_BackupMethod : gostring;
  bt_StorageProfileID : Z; bt_Enabled : bool; bt_LastSuccessAt : option Z;
  bt_LastRestoreTestAt : option Z; bt_LastStatus : gostring }.

Record StreamRow := { sr_stream : DatabaseLogArchiveStream; sr_StorageProfileID : Z }.
Record ArchiveRow := {
  ar_archive : DatabaseLogArchive; ar_StreamID : Z; ar_ArchivedAt : option Z }.
Record DatabaseStorageProfile := { sp_ID : Z; sp_PostureStatus : gostring }.
Record DatabaseRestoreJob := {
  rj_ID : Z; rj_SourceInstanceID : Z; rj_Status : gostring; rj_FinishedAt : option Z;
  rj_UpdatedAt : Z; rj_CreatedAt : Z }.
Record BarmanRow := { br_server : DatabaseBarmanServer; br_Status : gostring }.

Record DatabaseInstanceReplica := {
  ir_ID : Z; ir_PrimaryInstanceID : Z; ir_ReplicaInstanceID : Z; ir_ReplicaRole : gostring;
  ir_ConfiguredDelaySeconds : Z; ir_DiscoverySource : gostring; ir_Status : gostring;
  ir_LastCheckedAt : option Z }.

Record DatabaseReplicationCheck := {
  ck_ID : Z; ck_InstanceID : Z; ck_Engine : gostring; ck_RoleDetected : gostring;
  ck_SourceInstanceID : Z; ck_SecondsBehindSource : Z; ck_ConfiguredDelaySeconds : Z;
  ck_RemainingDelaySeconds : Z; ck_RelayLogBytes : Z;
  ck_PGLastXactReplayTimestamp : option Z; ck_WALBacklogBytes : Z;
  ck_HealthStatus : gostring; ck_RiskFlagsJSON : gostring; ck_CheckedAt : option Z }.

(** ** Views *)
Inductive query :=
| QInstance (id : Z) | QInstances | QEnabledInstances
| QPolicies (instanceID : Z) | QChain (policyID : Z) | QTasks (instanceID : Z)
| QRecords (instanceID : Z) (status : gostring) (page : Z)
| QStream (id : Z) | QStreams (instanceID : Z)
| QArchived (instanceID : Z) | QWAL (instanceID : Z)
| QRunner (id : Z) | QStorage (id : Z) | QRestoreJobs (instanceID : Z)
| QReplicas | QReplicaOf (instanceID : Z) | QCheck (instanceID : Z)
| QBarman (instanceID : Z).

Record view := {
  v_now : Z; v_error : query -> option gostring;
  v_instances : list ManagedInstance; v_policies : list PolicyRow;
  v_chains : list DatabaseBackupChainState; v_tasks : list DatabaseBackupTask;
  v_records : list DatabaseBackupRecord; v_streams : list StreamRow;
  v_archives : list ArchiveRow; v_runners : list DatabaseRunnerHost;
  v_storages : list DatabaseStorageProfile; v_jobs : list DatabaseRestoreJob;
  v_replicas : list DatabaseInstanceReplica; v_checks : list DatabaseReplicationCheck;
  v_barman : list BarmanRow }.

(** What the code uses of [encoding/json] and [time]: a list of texts (none
    when the text is no such list), and [time.ParseInLocation] of a layout in
    the zone of the server; of the database, [LIKE]. *)
Class ProtectionLib := {
  json_strings : gostring -> list gostring;
  parse_in_location : gostring -> gostring -> option Z;
  sql_like : gostring -> gostring -> bool }.

(** ** Queries *)
Definition ErrRecordNotFound := $"record not found".
Definition asked {A} (v : view) (q : query) (a : A) : result A :=
  match v_error v q with Some e => Err e | None => Ok a end.
Definition first_row {A} (v : view) (q : query) (l : list A) : result A :=
  match asked v q l with
  | Err e => Err e
  | Ok [] => Err ErrRecordNotFound
  | Ok (x :: _) => Ok x
  end.
Definition found {A} (r : result A) : option A := match r with Ok a => Some a | Err _ => None end.

(** [Offset((page - 1) * size).Limit(size)]. *)
Definition page_rows {A} (page size : Z) (l : list A) : list A :=
  take (Z.to_nat size) (drop (Z.to_nat ((page - 1) * size)) l).

Definition by_id_desc {A} (id : A -> Z) (a b : A) : bool := id b <? id a.
(** [NULL] is the least value of a column. *)
Definition time_less (a b : option Z) : bool :=
  match a, b with
  | None, Some _ => true
  | Some x, Some y => x <? y
  | _, None => false
  end.
Definition by_time_desc {A} (time : A -> option Z) (id : A -> Z) (a b : A) : bool :=
  if time_less (time b) (time a) then true
  else if time_less (time a) (time b) then false else id b <? id a.

Section repositories.
Context (v : view).

Definition instance_GetByID (id : Z) : result ManagedInstance :=
  first_row v (QInstance id) (List.filter (fun i => mi_ID i =? id) (v_instances v)).
Definition instance_ListEnabled : result (list ManagedInstance) :=
  asked v QEnabledInstances
    (sort_stable (fun a b => mi_ID a <? mi_ID b)
       (List.filter (fun i => bool_decide (i_Status (mi_row i) = DatabaseInstanceStatusEnabled))
          (v_instances v))).

(** What [DatabaseInstanceListRequest] asks for on the first page of 10000. *)
Definition allowed_instance (restrict : bool) (allowed : list Z) (id : Z) : bool :=
  negb restrict || bool_decide (id ∈ allowed).
Definition keyword_like `{ProtectionLib} (keyword : gostring) (i : ManagedInstance) : bool :=
  let like := $"%" ++ keyword ++ $"%" in
  bool_decide (keyword = []) || sql_like (i_Name (mi_row i)) like ||
  sql_like (i_Host (mi_row i)) like || sql_like (i_DefaultDatabase (mi_row i)) like ||
  sql_like (mi_BusinessSystem i) like || sql_like (mi_Owner i) like.
Definition instance_List `{ProtectionLib} (keyword dbType : gostring) (restrict : bool)
    (allowed : list Z) : result (list ManagedInstance) :=
  asked v QInstances
    (page_rows 1 10000 (sort_stable (by_id_desc mi_ID)
       (List.filter (fun i =>
          allowed_instance restrict allowed (mi_ID i) && keyword_like (TrimSpace keyword) i &&
          (bool_decide (TrimSpace dbType = []) ||
           bool_decide (i_DBType (mi_row i) = TrimSpace dbType))) (v_instances v)))).

Definition policy_List (instanceID : Z) : result (list PolicyRow) :=
  asked v (QPolicies instanceID)
    (page_rows 1 100 (sort_stable (by_id_desc (fun r => p_ID (po_policy r)))
       (List.filter (fun r => p_InstanceID (po_policy r) =? instanceID) (v_policies v)))).
Definition chain_GetByPolicyID (policyID : Z) : result DatabaseBackupChainState :=
  first_row v (QChain policyID) (List.filter (fun s => s_PolicyID s =? policyID) (v_chains v)).
Definition task_List (instanceID : Z) : result (list DatabaseBackupTask) :=
  asked v (QTasks instanceID)
    (page_rows 1 100 (sort_stable (by_id_desc bt_ID)
       (List.filter (fun t => bt_InstanceID t =? instanceID) (v_tasks v)))).

(** An instance of 0 stands for all of them. *)
Definition record_List (instanceID : Z) (status : gostring) (page size : Z)
    : result (list DatabaseBackupRecord) :=
  asked v (QRecords instanceID status page)
    (page_rows page size (sort_stable (by_id_desc r_ID)
       (List.filter (fun r => ((instanceID =? 0) || (rd_InstanceID (r_details r) =? instanceID))
                              && bool_decide (r_Status r = status)) (v_records v)))).

Definition stream_GetByID (id : Z) : result StreamRow :=
  first_row v (QStream id) (List.filter (fun s => ls_ID (ident (sr_stream s)) =? id) (v_streams v)).
Definition stream_List (instanceID : Z) (archiveType : gostring) : result (list StreamRow) :=
  asked v (QStreams instanceID)
    (page_rows 1 20 (sort_stable (by_id_desc (fun s => ls_ID (ident (sr_stream s))))
       (List.filter (fun s => (ls_InstanceID (ident (sr_stream s)) =? instanceID) &&
                       bool_decide (ls_ArchiveType (ident (sr_stream s)) = archiveType))
          (v_streams v)))).

Definition archive_order : ArchiveRow -> ArchiveRow -> bool :=
  by_time_desc (fun a => la_FirstEventTime (ar_archive a)) (fun a => la_ID (ar_archive a)).
Definition archive_latest (instanceID : Z) (archiveType : gostring) : result ArchiveRow :=
  first_row v (QArchived instanceID)
    (sort_stable archive_order
       (List.filter (fun a => (la_InstanceID (ar_archive a) =? instanceID) &&
                       bool_decide (la_ArchiveType (ar_archive a) = archiveType) &&
                       bool_decide (la_Status (ar_archive a) = DatabaseLogArchiveStatusArchived))
          (v_archives v))).
Definition archive_ListWAL (instanceID streamID : Z) : result (list ArchiveRow) :=
  asked v (QWAL instanceID)
    (page_rows 1 500 (sort_stable archive_order
       (List.filter (fun a => (la_InstanceID (ar_archive a) =? instanceID) &&
                       bool_decide (la_ArchiveType (ar_archive a) = DatabaseArchiveTypeWAL) &&
                       ((streamID =? 0) || (ar_StreamID a =? streamID)))
          (v_archives v)))).

Definition runner_GetByID (id : Z) : result DatabaseRunnerHost :=
  first_row v (QRunner id) (List.filter (fun h => h_ID h =? id) (v_runners v)).
Definition storage_GetByID (id : Z) : result DatabaseStorageProfile :=
  first_row v (QStorage id) (List.filter (fun s => sp_ID s =? id) (v_storages v)).
Definition job_latest (instanceID : Z) : result DatabaseRestoreJob :=
  first_row v (QRestoreJobs instanceID)
    (sort_stable (by_id_desc rj_ID)
       (List.filter (fun j => rj_SourceInstanceID j =? instanceID) (v_jobs v))).
Definition barman_List (instanceID : Z) : result (list BarmanRow) :=
  asked v (QBarman instanceID)
    (page_rows 1 100 (sort_stable (by_id_desc (fun b => bs_ID (br_server b)))
       (List.filter (fun b => bs_SourceInstanceID (br_server b) =? instanceID) (v_barman v)))).

Definition replica_List : result (list DatabaseInstanceReplica) :=
  asked v QReplicas
    (page_rows 1 10000 (sort_stable (by_time_desc ir_LastCheckedAt ir_ID) (v_replicas v))).
Definition replica_GetByReplicaInstanceID (id : Z) : result DatabaseInstanceReplica :=
  first_row v (QReplicaOf id) (List.filter (fun r => ir_ReplicaInstanceID r =? id) (v_replicas v)).
Definition check_LatestByInstanceID (id : Z) : result DatabaseReplicationCheck :=
  first_row v (QCheck id)
    (sort_stable (by_time_desc ck_CheckedAt ck_ID)
       (List.filter (fun c => ck_InstanceID c =? id) (v_checks v))).
End repositories.

Lemma found_Some {A} (r : result A) a : found r = Some a <-> r = Ok a.
Proof. destruct r; naive_solver. Qed.

Lemma first_row_Ok {A} v q (l : list A) x : first_row v q l = Ok x -> x ∈ l.
Proof.
  unfold first_row, asked. destruct (v_error v q); [done|]. destruct l as [|y l]; [done|].
  intros [= ->]. by left.
Qed.

Lemma instance_GetByID_Ok v id i :
  instance_GetByID v id = Ok i -> i ∈ v_instances v /\ mi_ID i = id.
Proof.
  intros H%first_row_Ok. apply list_elem_of_In, List.filter_In in H as [H ?].
  apply list_elem_of_In in H. bsimpl. done.
Qed.
