(* ===== verification/ReplicaProtection.v ===== *)
(** * Delayed replicas as a protection: [database/replication_protection.go]

    [ListReplicaProtections] gives every primary the best of its delayed
    replicas, with the messages of its last check, and from them a risk level
    and whether the protection window holds. *)

From Stdlib Require Import ZArith Lia.
From stdpp Require Import base tactics option list numbers.
From S2P Require Import Prelude GoStrings GoNumbers SqlSafety WriteExec BackupModel.
From S2P Require Import ProtectionModel.

Open Scope Z_scope.

Definition defaultReplicaLagWarningSeconds : Z := 300.
Definition defaultReplicaLagCriticalSeconds : Z := 1800.
Definition defaultReplicaRemainingDelayWarningSeconds : Z := 300.

Record replicaProtectionThresholds := {
  lagWarningSeconds : Z; lagCriticalSeconds : Z; remainingDelayWarningSeconds : Z;
  relayLogBacklogWarningBytes : Z; walBacklogWarningBytes : Z }.

Record DatabaseReplicaProtectionListRequest := {
  lr_Page : Z; lr_PageSize : Z; lr_InstanceID : Z; lr_Engine : gostring;
  lr_RiskLevel : gostring; lr_ProtectionStatus : gostring; lr_LagWarningSeconds : Z;
  lr_LagCriticalSeconds : Z; lr_RemainingDelayWarningSeconds : Z;
  lr_RelayLogBacklogWarningBytes : Z; lr_WALBacklogWarningBytes : Z;
  lr_RestrictToAllowed : bool; lr_AllowedInstanceIDs : list Z }.

(** Without the texts for display and the thresholds it repeats. *)
Record DatabaseReplicaProtectionVO := {
  rp_PrimaryInstanceID : Z; rp_Engine : gostring; rp_HasReplica : bool;
  rp_DelayedReplicaCount : Z; rp_HasDelayedReplica : bool; rp_PreferredReplicaID : Z;
  rp_PreferredReplicaInstanceID : Z; rp_PreferredReplicaStatus : gostring;
  rp_ConfiguredDelaySeconds : Z; rp_LastCheckID : Z; rp_RemainingDelaySeconds : Z;
  rp_RemainingDelayEstimated : bool; rp_ApplyLagSeconds : Z; rp_RiskLevel : gostring;
  rp_ProtectionStatus : gostring; rp_RiskMessages : list gostring }.

Section operations.
Context `{U : UnicodeTables, P : ProtectionLib} (v : view).

(** The latest check; a refused query and no check are the same. *)
Definition latestReplicationCheck (instanceID : Z) : option DatabaseReplicationCheck :=
  if instanceID =? 0 then None else found (check_LatestByInstanceID v instanceID).

Definition normalizeReplicaProtectionThresholds
    (req : option DatabaseReplicaProtectionListRequest) : replicaProtectionThresholds :=
  match req with
  | None => {| lagWarningSeconds := defaultReplicaLagWarningSeconds;
               lagCriticalSeconds := defaultReplicaLagCriticalSeconds;
               remainingDelayWarningSeconds := defaultReplicaRemainingDelayWarningSeconds;
               relayLogBacklogWarningBytes := 0; walBacklogWarningBytes := 0 |}
  | Some req =>
    let given (value fallback : Z) := if 0 <? value then value else fallback in
    let warning := given (lr_LagWarningSeconds req) defaultReplicaLagWarningSeconds in
    let critical := given (lr_LagCriticalSeconds req) defaultReplicaLagCriticalSeconds in
    {| lagWarningSeconds := warning;
       lagCriticalSeconds := if critical <? warning then warning else critical;
       remainingDelayWarningSeconds := given (lr_RemainingDelayWarningSeconds req)
         defaultReplicaRemainingDelayWarningSeconds;
       relayLogBacklogWarningBytes := lr_RelayLogBacklogWarningBytes req;
       walBacklogWarningBytes := lr_WALBacklogWarningBytes req |}
  end.

Definition isReplicaGovernanceEngine (dbType : gostring) : bool :=
  one_of (normalizeDBType dbType) [DBTypeMySQL; DBTypeMariaDB; DBTypePostgreSQL].

Definition matchesReplicaProtectionRequest (item : ManagedInstance)
    (req : option DatabaseReplicaProtectionListRequest) : bool :=
  match req with
  | None => true
  | Some req =>
    if (0 <? lr_InstanceID req) && negb (mi_ID item =? lr_InstanceID req) then false
    else
      let engine := TrimSpace (lr_Engine req) in
      bool_decide (engine = []) || bool_decide (normalizeDBType (i_DBType (mi_row item)) = engine)
  end.

Definition delayedReplicaCandidateScore (replica : DatabaseInstanceReplica)
    (check : option DatabaseReplicationCheck) : Z :=
  let health (status : gostring) : Z :=
    if one_of status [DatabaseReplicaHealthHealthy] then 1000
    else if one_of status [DatabaseReplicaHealthWarning] then 500 else 0 in
  health (ir_Status replica) +
  match check with
  | None => 0
  | Some c =>
    health (ck_HealthStatus c) +
    (if 0 <? ck_RemainingDelaySeconds c then ck_RemainingDelaySeconds c else 0) +
    (if 0 <? ck_ConfiguredDelaySeconds c then ck_ConfiguredDelaySeconds c ÷ 10 else 0)
  end.

(** The loop over the delayed replicas: the best one so far with its check. *)
Definition prefer (best : option (DatabaseInstanceReplica * option DatabaseReplicationCheck))
    (replica : DatabaseInstanceReplica)
    : option (DatabaseInstanceReplica * option DatabaseReplicationCheck) :=
  let check := latestReplicationCheck (ir_ReplicaInstanceID replica) in
  match best with
  | None => Some (replica, check)
  | Some (r, c) =>
    if delayedReplicaCandidateScore r c <? delayedReplicaCandidateScore replica check
    then Some (replica, check) else best
  end.

(** [int(now.Sub(t).Seconds())], not below 0. *)
Definition apply_lag (t : Z) : Z := Z.max 0 ((v_now v - t) ÷ 1000000000).

(** What is left of the delay: remaining seconds, estimated, apply lag. *)
Definition remaining_delay (check : option DatabaseReplicationCheck) : Z * bool * Z :=
  match check with
  | None => (-1, false, 0)
  | Some c =>
    if bool_decide (ck_Engine c = DBTypePostgreSQL) then
      match ck_PGLastXactReplayTimestamp c with
      | Some t => (Z.max 0 (ck_ConfiguredDelaySeconds c - apply_lag t), true, apply_lag t)
      | None => (ck_RemainingDelaySeconds c, true, 0)
      end
    else (ck_RemainingDelaySeconds c, false, 0)
  end.

Definition decodeReplicaRiskFlags (raw : gostring) : list gostring := json_strings raw.

Definition replicaProtectionRiskMessages (replica : DatabaseInstanceReplica)
    (check : option DatabaseReplicationCheck) (remaining : Z) (estimated : bool)
    (thresholds : replicaProtectionThresholds) : list gostring :=
  let say (b : bool) (message : gostring) := if b then [message] else [] in
  let status := TrimSpace (ir_Status replica) in
  let messages :=
    if bool_decide (status = DatabaseReplicaHealthCritical)
    then [$"延迟副本状态异常，需先排障"]
    else say (bool_decide (status = DatabaseReplicaHealthWarning))
           $"延迟副本存在警告，请检查风险明细" in
  match check with
  | None => messages ++ [$"延迟副本尚无采集记录，保护窗口未知"]
  | Some c =>
    uniqueStrings (messages ++ decodeReplicaRiskFlags (ck_RiskFlagsJSON c) ++
      say (bool_decide (ck_Engine c = DBTypePostgreSQL) && estimated)
        $"PostgreSQL remaining delay 为估算值，主从时钟不一致会影响判断" ++
      say ((0 <? ck_ConfiguredDelaySeconds c) && (remaining <? 0)) $"剩余保护窗口未知" ++
      (if (ck_ConfiguredDelaySeconds c <=? 0) &&
          (lagCriticalSeconds thresholds <=? ck_SecondsBehindSource c)
       then [$"复制延迟达到严重阈值"]
       else say ((ck_ConfiguredDelaySeconds c <=? 0) &&
                 (lagWarningSeconds thresholds <=? ck_SecondsBehindSource c))
              $"复制延迟超过告警阈值") ++
      say ((0 <? relayLogBacklogWarningBytes thresholds) &&
           (relayLogBacklogWarningBytes thresholds <=? ck_RelayLogBytes c))
        $"relay log 积压超过告警阈值" ++
      say ((0 <? walBacklogWarningBytes thresholds) &&
           (walBacklogWarningBytes thresholds <=? ck_WALBacklogBytes c))
        $"WAL 积压超过告警阈值")
  end.

Definition has_health (check : option DatabaseReplicationCheck) (status : gostring) : bool :=
  match check with Some c => bool_decide (ck_HealthStatus c = status) | None => false end.

Definition replicaProtectionRiskLevel (messages : list gostring)
    (replica : DatabaseInstanceReplica) (check : option DatabaseReplicationCheck) : gostring :=
  if bool_decide (ir_Status replica = DatabaseReplicaHealthCritical)
  then DatabaseReplicaHealthCritical
  else if has_health check DatabaseReplicaHealthCritical then DatabaseReplicaHealthCritical
  else if existsb (fun m => Contains m $"异常" || Contains m $"严重" || Contains m $"失败") messages
  then DatabaseReplicaHealthCritical
  else if negb (bool_decide (messages = [])) ||
          bool_decide (ir_Status replica = DatabaseReplicaHealthWarning) ||
          has_health check DatabaseReplicaHealthWarning
  then DatabaseReplicaHealthWarning
  else DatabaseReplicaHealthHealthy.

Definition replicaProtectionStatus (riskLevel : gostring) (hasDelayedReplica : bool) : gostring :=
  if negb hasDelayedReplica then DatabaseReplicaProtectionUnprotected
  else if one_of riskLevel [DatabaseReplicaHealthCritical; DatabaseReplicaHealthWarning]
  then DatabaseReplicaProtectionDegraded
  else DatabaseReplicaProtectionProtected.

Definition is_delayed (r : DatabaseInstanceReplica) : bool :=
  bool_decide (ir_ReplicaRole r = DatabaseReplicaRoleDelayed).

Definition buildReplicaProtectionVO (primary : ManagedInstance)
    (replicas : list DatabaseInstanceReplica) (thresholds : replicaProtectionThresholds)
    : DatabaseReplicaProtectionVO :=
  let engine := normalizeDBType (i_DBType (mi_row primary)) in
  let unprotected (hasReplica : bool) (message : gostring) : DatabaseReplicaProtectionVO :=
    {| rp_PrimaryInstanceID := mi_ID primary; rp_Engine := engine; rp_HasReplica := hasReplica;
       rp_DelayedReplicaCount := 0; rp_HasDelayedReplica := false; rp_PreferredReplicaID := 0;
       rp_PreferredReplicaInstanceID := 0; rp_PreferredReplicaStatus := [];
       rp_ConfiguredDelaySeconds := 0; rp_LastCheckID := 0; rp_RemainingDelaySeconds := -1;
       rp_RemainingDelayEstimated := false; rp_ApplyLagSeconds := 0;
       rp_RiskLevel := DatabaseReplicaHealthWarning;
       rp_ProtectionStatus := DatabaseReplicaProtectionUnprotected;
       rp_RiskMessages := [message] |} in
  if bool_decide (length replicas = 0%nat) then unprotected false $"当前主库没有已登记副本"
  else
    let delayed := List.filter is_delayed replicas in
    match foldl prefer None delayed with
    | None => unprotected true $"当前主库没有延迟副本，缺少短窗口误删保护"
    | Some (preferred, check) =>
      let '(remaining, estimated, lag) := remaining_delay check in
      let messages := replicaProtectionRiskMessages preferred check remaining estimated thresholds in
      let level := replicaProtectionRiskLevel messages preferred check in
      {| rp_PrimaryInstanceID := mi_ID primary; rp_Engine := engine; rp_HasReplica := true;
         rp_DelayedReplicaCount := Z.of_nat (length delayed);
         rp_HasDelayedReplica := 0 <? Z.of_nat (length delayed);
         rp_PreferredReplicaID := ir_ID preferred;
         rp_PreferredReplicaInstanceID := ir_ReplicaInstanceID preferred;
         rp_PreferredReplicaStatus := ir_Status preferred;
         rp_ConfiguredDelaySeconds := ir_ConfiguredDelaySeconds preferred;
         rp_LastCheckID := from_option ck_ID 0 check;
         rp_RemainingDelaySeconds := remaining; rp_RemainingDelayEstimated := estimated;
         rp_ApplyLagSeconds := lag; rp_RiskLevel := level;
         rp_ProtectionStatus :=
           replicaProtectionStatus level (0 <? Z.of_nat (length delayed));
         rp_RiskMessages := messages |}
    end.

(** ** [ListReplicaProtections] *)
Definition protectionRank (status : gostring) : Z :=
  if one_of status [DatabaseReplicaProtectionUnprotected] then 0
  else if one_of status [DatabaseReplicaProtectionDegraded] then 1
  else if one_of status [DatabaseReplicaProtectionUnknown] then 2
  else if one_of status [DatabaseReplicaProtectionProtected] then 3 else 4.
Definition riskRank (level : gostring) : Z :=
  if one_of level [DatabaseReplicaHealthCritical] then 3
  else if one_of level [DatabaseReplicaHealthWarning] then 2
  else if one_of level [DatabaseReplicaHealthHealthy] then 1 else 0.

Definition protection_less (a b : DatabaseReplicaProtectionVO) : bool :=
  let pa := protectionRank (rp_ProtectionStatus a) in
  let pb := protectionRank (rp_ProtectionStatus b) in
  let ra := riskRank (rp_RiskLevel a) in
  let rb := riskRank (rp_RiskLevel b) in
  if negb (pa =? pb) then pa <? pb
  else if negb (ra =? rb) then rb <? ra
  else rp_PrimaryInstanceID b <? rp_PrimaryInstanceID a.

Definition normalizeListPage (page pageSize : Z) : Z * Z :=
  (if page <=? 0 then 1 else page,
   if pageSize <=? 0 then 10 else if 200 <? pageSize then 200 else pageSize).

(** [start := (page - 1) * size] and the slice, on machine integers: [None] is
    the panic of a slice that begins before the list. *)
Definition page_slice {A} (page pageSize : Z) (l : list A) : option (list A) :=
  let start := int64 (int64 (page - 1) * pageSize) in
  if Z.of_nat (length l) <=? start then Some []
  else if start <? 0 then None
  else Some (take (Z.to_nat pageSize) (drop (Z.to_nat start) l)).

Definition replicas_of (replicas : list DatabaseInstanceReplica) (restrict : bool)
    (allowed : list Z) (primaryID : Z) : list DatabaseInstanceReplica :=
  List.filter (fun r =>
    negb (ir_PrimaryInstanceID r =? 0) && (ir_PrimaryInstanceID r =? primaryID) &&
    (negb restrict || bool_decide (ir_PrimaryInstanceID r ∈ allowed) ||
     bool_decide (ir_ReplicaInstanceID r ∈ allowed))) replicas.

Definition is_replica (replicas : list DatabaseInstanceReplica) (id : Z) : bool :=
  existsb (fun r => negb (ir_PrimaryInstanceID r =? 0) && (ir_ReplicaInstanceID r =? id)) replicas.

Definition opt_matches (wanted value : gostring) : bool :=
  bool_decide (TrimSpace wanted = []) || bool_decide (value = TrimSpace wanted).

(** One turn of the loop over the instances. *)
Definition protection_of (req : option DatabaseReplicaProtectionListRequest)
    (replicas : list DatabaseInstanceReplica) (primary : ManagedInstance)
    : option DatabaseReplicaProtectionVO :=
  let restrict := match req with Some r => lr_RestrictToAllowed r | None => false end in
  let allowed := match req with Some r => lr_AllowedInstanceIDs r | None => [] end in
  let mine := replicas_of replicas restrict allowed (mi_ID primary) in
  if negb (isReplicaGovernanceEngine (i_DBType (mi_row primary))) then None
  else if is_replica replicas (mi_ID primary) then None
  else if negb (matchesReplicaProtectionRequest primary req) then None
  else if restrict && negb (bool_decide (mi_ID primary ∈ allowed)) &&
          negb (existsb (fun r => bool_decide (ir_ReplicaInstanceID r ∈ allowed)) mine)
  then None
  else
    let vo := buildReplicaProtectionVO primary mine (normalizeReplicaProtectionThresholds req) in
    match req with
    | None => Some vo
    | Some r =>
      if negb (opt_matches (lr_ProtectionStatus r) (rp_ProtectionStatus vo)) then None
      else if negb (opt_matches (lr_RiskLevel r) (rp_RiskLevel vo)) then None
      else Some vo
    end.

Definition ListReplicaProtections (req : option DatabaseReplicaProtectionListRequest)
    : result (option (list DatabaseReplicaProtectionVO) * Z) :=
  match instance_ListEnabled v with
  | Err e => Err e
  | Ok instances =>
    match replica_List v with
    | Err e => Err e
    | Ok replicas =>
      let result := sort_stable protection_less (omap (protection_of req replicas) instances) in
      let '(page, pageSize) :=
        normalizeListPage (match req with Some r => lr_Page r | None => 1 end)
                          (match req with Some r => lr_PageSize r | None => 10 end) in
      Ok (page_slice page pageSize result, Z.of_nat (length result))
    end
  end.
End operations.
