(* ===== verification/ReplicaProtectionFacts.v ===== *)
(** * When a delayed replica protects its primary

    The replica that a primary is shown with is the best of its delayed
    replicas, and the window is called protected exactly when nothing at all
    speaks against it. *)

From Stdlib Require Import ZArith Lia.
From stdpp Require Import base tactics option list numbers sets.
From S2P Require Import Prelude GoStrings GoNumbers SqlSafety WriteExec BackupModel.
From S2P Require Import ProtectionModel ReplicaProtection.

Open Scope Z_scope.

Section facts.
Context `{U : UnicodeTables, P : ProtectionLib} (v : view).

Definition checked (r : DatabaseInstanceReplica) : option DatabaseReplicationCheck :=
  latestReplicationCheck v (ir_ReplicaInstanceID r).
Definition score (r : DatabaseInstanceReplica) : Z := delayedReplicaCandidateScore r (checked r).

(** The loop keeps the first of the best replicas. *)
Lemma prefer_best l r c :
  foldl (prefer v) None l = Some (r, c) ->
  r ∈ l /\ c = checked r /\ forall r', r' ∈ l -> score r' <= score r.
Proof.
  revert r c. induction l as [|x l IH] using rev_ind; intros r c; [done|].
  rewrite foldl_app. cbn [foldl]. destruct (foldl (prefer v) None l) as [[r0 c0]|] eqn:Hl.
  - destruct (IH _ _ eq_refl) as (Hin & -> & Hmax). cbn [prefer].
    change (latestReplicationCheck v (ir_ReplicaInstanceID x)) with (checked x). fold (score x) (score r0).
    destruct (Z.ltb_spec (score r0) (score x)); intros [= <- <-].
    + split; [set_solver|]. split; [done|]. intros r'. rewrite elem_of_app, list_elem_of_singleton.
      intros [Hr| ->]; [specialize (Hmax _ Hr); lia | lia].
    + split; [set_solver|]. split; [done|]. intros r'. rewrite elem_of_app, list_elem_of_singleton.
      intros [Hr| ->]; [by apply Hmax | lia].
  - cbn [prefer]. intros [= <- <-]. split; [set_solver|]. split; [done|].
    assert (l = []) as ->.
    { destruct l as [|y l] using rev_ind; [done|]. exfalso. rewrite foldl_app in Hl. cbn [foldl] in Hl.
      unfold prefer in Hl. repeat case_match; done. }
    intros r' ->%list_elem_of_singleton. lia.
Qed.

Lemma prefer_none l : foldl (prefer v) None l = None -> l = [].
Proof.
  destruct l as [|x l] using rev_ind; [done|]. rewrite foldl_app. cbn [foldl].
  unfold prefer. repeat case_match; done.
Qed.

(** Nothing speaks against the window of a replica. *)
Record window_holds (thresholds : replicaProtectionThresholds) (r : DatabaseInstanceReplica)
    (c : DatabaseReplicationCheck) : Prop := {
  wh_replica : ir_Status r ∉ [DatabaseReplicaHealthCritical; DatabaseReplicaHealthWarning];
  wh_check : ck_HealthStatus c ∉ [DatabaseReplicaHealthCritical; DatabaseReplicaHealthWarning];
  wh_messages : replicaProtectionRiskMessages r (Some c) (remaining_delay v (Some c)).1.1
                  (remaining_delay v (Some c)).1.2 thresholds = [] }.

Lemma two_not x (a b : gostring) : x ∉ [a; b] <-> x <> a /\ x <> b.
Proof. rewrite !not_elem_of_cons. split; [by intros (? & ? & _) | intros [? ?]; by repeat split; try apply not_elem_of_nil]. Qed.

Lemma level_healthy messages r c :
  replicaProtectionRiskLevel messages r c = DatabaseReplicaHealthHealthy <->
  messages = [] /\ ir_Status r ∉ [DatabaseReplicaHealthCritical; DatabaseReplicaHealthWarning] /\
  has_health c DatabaseReplicaHealthCritical = false /\
  has_health c DatabaseReplicaHealthWarning = false.
Proof.
  unfold replicaProtectionRiskLevel. rewrite two_not.
  destruct (bool_decide_reflect (ir_Status r = DatabaseReplicaHealthCritical)) as [->|H1]; [naive_solver|].
  destruct (has_health c DatabaseReplicaHealthCritical); [naive_solver|].
  destruct messages as [|m l].
  - cbn [existsb negb orb]. rewrite bool_decide_eq_true_2 by done. cbn [negb orb].
    destruct (bool_decide_reflect (ir_Status r = DatabaseReplicaHealthWarning)) as [->|H2]; [naive_solver|].
    destruct (has_health c DatabaseReplicaHealthWarning); naive_solver.
  - rewrite bool_decide_eq_false_2 by done. destruct (existsb _ _); naive_solver.
Qed.

Lemma level_protected messages r c :
  replicaProtectionStatus (replicaProtectionRiskLevel messages r c) true =
    DatabaseReplicaProtectionProtected <->
  replicaProtectionRiskLevel messages r c = DatabaseReplicaHealthHealthy.
Proof.
  unfold replicaProtectionStatus. cbn [negb]. split; [|by intros ->].
  assert (H : replicaProtectionRiskLevel messages r c ∈
    [DatabaseReplicaHealthCritical; DatabaseReplicaHealthWarning; DatabaseReplicaHealthHealthy]).
  { unfold replicaProtectionRiskLevel. repeat case_match; set_solver. }
  apply elem_of_cons in H as [->|H]; [done|]. apply elem_of_cons in H as [->|H]; [done|].
  by apply list_elem_of_singleton in H as ->.
Qed.

Lemma healthy_check c :
  ck_HealthStatus c ∉ [DatabaseReplicaHealthCritical; DatabaseReplicaHealthWarning] <->
  has_health (Some c) DatabaseReplicaHealthCritical = false /\
  has_health (Some c) DatabaseReplicaHealthWarning = false.
Proof. rewrite two_not. cbn [has_health]. by rewrite !bool_decide_eq_false. Qed.

(** The window of a primary is protected exactly when it has a delayed replica
    and the best of them has been checked with nothing against its window. *)
Theorem protected_window primary replicas thresholds :
  rp_ProtectionStatus (buildReplicaProtectionVO v primary replicas thresholds) =
    DatabaseReplicaProtectionProtected <->
  exists r c, foldl (prefer v) None (List.filter is_delayed replicas) = Some (r, Some c) /\
    window_holds thresholds r c.
Proof.
  unfold buildReplicaProtectionVO.
  destruct (bool_decide_reflect (length replicas = 0%nat)) as [H0|_].
  { apply nil_length_inv in H0 as ->. split; [done|]. by intros (? & ? & ? & _). }
  destruct (foldl (prefer v) None _) as [[r c]|] eqn:Hf; [|split; [done|]; by intros (? & ? & ? & _)].
  assert (Hne : (0 <? Z.of_nat (length (List.filter is_delayed replicas))) = true).
  { apply prefer_best in Hf as (Hin & _ & _). destruct (List.filter _ _); [set_solver|]. done. }
  rewrite Hne. destruct (remaining_delay v c) as [[remaining estimated] lag] eqn:Hr.
  cbn [rp_ProtectionStatus]. rewrite level_protected, level_healthy. split.
  - intros (Hm & Hs & Hc). destruct c as [c|]; [|by apply app_nil in Hm as [_ ?]].
    exists r, c. split; [done|]. split; [done| by apply healthy_check|]. by rewrite Hr.
  - intros (r' & c' & [= <- ->] & [H1 H2 H3]). rewrite Hr in H3.
    split; [done|]. split; [done|]. by apply healthy_check.
Qed.

Lemma unique_loop_nonblank seen l x :
  x ∈ l -> TrimSpace x <> [] -> TrimSpace x ∉ seen -> uniqueStrings_loop seen l <> [].
Proof.
  intros Hx Hn Hs. induction l as [|y l IH]; [by apply not_elem_of_nil in Hx|].
  cbn [uniqueStrings_loop].
  destruct (bool_decide (TrimSpace y = []) || one_of (TrimSpace y) seen) eqn:Hy; [|done].
  apply IH. apply elem_of_cons in Hx as [->|?]; [|done]. exfalso.
  apply orb_true_iff in Hy as [Hy|Hy]; [by bsimpl | by apply one_of_true in Hy].
Qed.
Lemma unique_nonblank l x : x ∈ l -> TrimSpace x <> [] -> uniqueStrings l <> [].
Proof. intros ? ?. eapply unique_loop_nonblank; [done..|]. apply not_elem_of_nil. Qed.

Definition estimate_message := $"PostgreSQL remaining delay 为估算值，主从时钟不一致会影响判断".

(** The estimate of PostgreSQL is itself a message against the window. *)
Lemma postgres_speaks_against thresholds r c :
  ck_Engine c = DBTypePostgreSQL -> ~ window_holds thresholds r c.
Proof.
  intros He [_ _ Hm]. unfold remaining_delay in Hm. rewrite bool_decide_eq_true_2 in Hm by done.
  revert Hm. unfold replicaProtectionRiskMessages. rewrite (bool_decide_eq_true_2 (ck_Engine c = _)) by done.
  destruct (ck_PGLastXactReplayTimestamp c) as [t|]; cbn [fst snd andb];
    apply (unique_nonblank _ estimate_message); try by vm_compute.
  all: apply elem_of_app; right; apply elem_of_app; right; apply elem_of_app; left;
    unfold estimate_message; apply list_elem_of_here.
Qed.

(** ** The listing *)
Lemma page_slice_sub {A} page size (l l' : list A) x : page_slice page size l = Some l' -> x ∈ l' -> x ∈ l.
Proof.
  unfold page_slice. destruct (_ <=? _); [intros [= <-] H; by apply not_elem_of_nil in H|].
  destruct (_ <? _); [done|]. intros [= <-] H.
  apply elem_of_take in H as (i & H & _). rewrite lookup_drop in H. by eapply list_elem_of_lookup_2.
Qed.

Lemma listed_protection req l total x :
  ListReplicaProtections v req = Ok (Some l, total) -> x ∈ l ->
  exists primary replicas, primary ∈ v_instances v /\
    matchesReplicaProtectionRequest primary req = true /\
    (forall r, r ∈ replicas -> r ∈ v_replicas v /\ ir_PrimaryInstanceID r = mi_ID primary) /\
    x = buildReplicaProtectionVO v primary replicas (normalizeReplicaProtectionThresholds req).
Proof.
  unfold ListReplicaProtections, instance_ListEnabled, replica_List, asked.
  destruct (v_error v QEnabledInstances); [done|]. destruct (v_error v QReplicas); [done|].
  destruct (normalizeListPage _ _) as [page size]. intros [= Hl _] Hx.
  apply (page_slice_sub _ _ _ _ _ Hl) in Hx. rewrite sort_stable_perm in Hx.
  apply list_elem_of_omap in Hx as (primary & Hp & Hx).
  rewrite sort_stable_perm in Hp. apply list_elem_of_In, List.filter_In in Hp as [Hp _].
  apply list_elem_of_In in Hp.
  exists primary, (replicas_of (page_rows 1 10000 (sort_stable (by_time_desc ir_LastCheckedAt ir_ID) (v_replicas v)))
    (match req with Some r => lr_RestrictToAllowed r | None => false end)
    (match req with Some r => lr_AllowedInstanceIDs r | None => [] end) (mi_ID primary)).
  split; [done|]. unfold protection_of in Hx.
  destruct (negb (isReplicaGovernanceEngine _)); [done|]. destruct (is_replica _ _); [done|].
  destruct (matchesReplicaProtectionRequest primary req) eqn:Hm; [|done]. cbn [negb] in Hx.
  split; [done|]. split.
  - intros r Hr%list_elem_of_In%List.filter_In. destruct Hr as [Hr Hid]. bsimpl.
    split; [|done]. apply list_elem_of_In in Hr. unfold page_rows in Hr.
    apply elem_of_take in Hr as (k & Hr & _). rewrite lookup_drop in Hr.
    apply list_elem_of_lookup_2 in Hr. by rewrite sort_stable_perm in Hr.
  - destruct (_ && _ && _); [done|]. destruct req as [req|]; [|by injection Hx].
    repeat case_match; by simplify_eq.
Qed.
End facts.
