(* ===== verification/Protection.v ===== *)
(** * How well an instance is protected: [database/protection_profile.go]

    The profile of an instance: what is found about its backups, logs, runner,
    storage, drills and replicas, the protection it inherits from its primary
    when it is a replica, and the assessment: findings, risk level, protection
    level. The texts that only repeat a field for display are left out, the
    sub-records of the profile keep the fields that belong together. *)

From Stdlib Require Import ZArith Lia.
From stdpp Require Import base tactics option list numbers.
From S2P Require Import Prelude GoStrings GoNumbers SqlSafety WriteExec BackupModel BinlogChain.
From S2P Require Import PgWal LogStream RestorePlan ProtectionModel ReplicaProtection.

Open Scope Z_scope.

(** ** Constants *)
Definition DatabaseProtectionModeNone := $"none".
Definition DatabaseProtectionModeLogicalBackup := $"logical_backup".
Definition DatabaseProtectionModeMySQLPhysicalPITR := $"mysql_physical_pitr".
Definition DatabaseProtectionModeMariaDBPhysicalPITR := $"mariadb_physical_pitr".
Definition DatabaseProtectionModePostgresBarmanPITR := $"postgres_barman_pitr".
Definition DatabaseProtectionModePostgresPgBaseBackupPITR := $"postgres_pg_basebackup_pitr".
Definition DatabaseProtectionModeExternalPITR := $"external_pitr".
Definition DatabaseProtectionModeInherited := $"inherited".
Definition DatabaseProtectionLevelNone := $"none".
Definition DatabaseProtectionLevelBackupOnly := $"backup_only".
Definition DatabaseProtectionLevelPITRCapable := $"pitr_capable".
Definition DatabaseProtectionLevelPITRVerified := $"pitr_verified".
Definition DatabaseProtectionLevelHAAndPITRVerified := $"ha_and_pitr_verified".
Definition DatabaseProtectionHealthHealthy := $"healthy".
Definition DatabaseProtectionHealthWarning := $"warning".
Definition DatabaseProtectionHealthCritical := $"critical".
Definition DatabaseProtectionHealthUnknown := $"unknown".
Definition DatabaseRestoreDrillStatusNone := $"none".
Definition DatabaseRestoreDrillStatusSuccess := $"success".
Definition DatabaseRestoreDrillStatusFailed := $"failed".
Definition DatabaseRestoreDrillStatusStale := $"stale".
Definition DatabaseProtectionBackupRequirementRequired := $"required".
Definition DatabaseProtectionBackupRequirementInherited := $"inherited".
Definition DatabaseBackupChainStateDegraded := $"degraded".
Definition DatabaseBackupChainStateConsolidating := $"consolidating".
Definition DatabaseBackupPolicyStatusFailed := $"failed".
Definition DatabaseRunnerHostStatusPending := $"pending".
Definition protectionProfileIDPrefix := $"instance-".
Definition protectionRestoreDrillFreshDays : Z := 30.

(** ** Parts of a profile: the columns that the profile and its readers use *)
Record DatabaseBackupChainStateVO := {
  cs_CurrentBaseRecordID : Z; cs_Status : gostring; cs_ChainStartedAt : gostring;
  cs_RecoverableUntil : gostring }.
Record DatabaseBackupPolicyVO := {
  bp_ID : Z; bp_RunnerHostID : Z; bp_StorageProfileID : Z; bp_BinlogStreamID : Z;
  bp_Enabled : bool; bp_Status : gostring; bp_LastStatus : gostring; bp_LastFullAt : gostring;
  bp_LastIncrementalAt : gostring; bp_LastSyntheticAt : gostring;
  bp_LastRestoreDrillAt : gostring; bp_Chain : option DatabaseBackupChainStateVO }.
Record DatabaseBackupTaskVO := {
  tv_ID : Z; tv_StorageProfileID : Z; tv_LastStatus : gostring; tv_LastSuccessAt : gostring;
  tv_LastRestoreTestAt : gostring }.
Record DatabaseBarmanServerVO := {
  bv_ID : Z; bv_RunnerHostID : Z; bv_PGSystemIdentifier : gostring; bv_Status : gostring;
  bv_LastCheckStatus : gostring }.
Record DatabaseRestoreJobVO := {
  jv_ID : Z; jv_Status : gostring; jv_FinishedAt : gostring; jv_UpdatedAt : gostring;
  jv_CreatedAt : gostring }.
Record DatabaseProtectionActionVO := {
  ac_Level : gostring; ac_Action : gostring; ac_Text : gostring; ac_Blocking : bool }.

Record profile_parts := {
  BackupPolicy : option DatabaseBackupPolicyVO; LogicalTask : option DatabaseBackupTaskVO;
  LatestBackupRecord : option DatabaseBackupRecord;
  BarmanServer : option DatabaseBarmanServerVO; LogArchiveStream : option StreamRow;
  LatestLogArchive : option ArchiveRow; RunnerHost : option DatabaseRunnerHost;
  StorageProfile : option DatabaseStorageProfile;
  LatestRestoreJob : option DatabaseRestoreJobVO;
  ReplicaProtection : option DatabaseReplicaProtectionVO }.
Record profile_times := {
  RecoverableFrom : gostring; RecoverableUntil : gostring; LastFullAt : gostring;
  LastIncrementalAt : gostring; LastSyntheticAt : gostring; LastLogArchiveAt : gostring;
  LastRestoreDrillAt : gostring; RPOLagSeconds : Z }.
Record profile_postgres := {
  PGSystemIdentifier : gostring; TimelineID : gostring; WALStart : gostring;
  WALEnd : gostring; WALGapCount : Z; TimelineMismatch : bool }.
Record profile_states := {
  BackupChainStatus : gostring; LogChainStatus : gostring; RunnerStatus : gostring;
  StorageStatus : gostring; RestoreDrillStatus : gostring;
  ReplicaProtectionStatus : gostring }.
Record profile_role := {
  InstanceRole : gostring; ReplicaRole : gostring; PrimaryInstanceID : Z;
  PrimaryInstanceName : gostring; PrimaryEndpoint : gostring;
  RoleDiscoverySource : gostring; ConfiguredDelaySeconds : Z; RemainingDelaySeconds : Z;
  BackupRequirement : gostring }.
Record profile_inheritance := {
  InheritedProtection : bool; InheritedProtectionMode : gostring;
  InheritedProtectionLevel : gostring; InheritedProtectionRiskLevel : gostring }.

Record DatabaseProtectionProfileVO := {
  pf_instance : ManagedInstance; pf_parts : profile_parts; pf_times : profile_times;
  pf_postgres : profile_postgres; pf_states : profile_states; pf_role : profile_role;
  pf_inheritance : profile_inheritance; ProtectionMode : gostring;
  ProtectionLevel : gostring; HealthStatus : gostring; RiskLevel : gostring;
  RiskMessages : list gostring; RecommendedActions : list DatabaseProtectionActionVO }.

Definition pf_InstanceID (p : DatabaseProtectionProfileVO) : Z := mi_ID (pf_instance p).

Section operations.
Context `{U : UnicodeTables, L : GoLib, P : ProtectionLib}.

Definition pf_Engine (p : DatabaseProtectionProfileVO) : gostring :=
  normalizeDBType (i_DBType (mi_row (pf_instance p))).

(** [net.JoinHostPort]. *)
Definition JoinHostPort (host port : gostring) : gostring :=
  if ContainsRune host 58 then $"[" ++ host ++ $"]:" ++ port else host ++ $":" ++ port.
Definition netJoinHostPort (host : gostring) (port : Z) : gostring :=
  if bool_decide (TrimSpace host = []) || (port <=? 0) then TrimSpace host
  else JoinHostPort (TrimSpace host) (fmt_d port).
Definition pf_Endpoint (p : DatabaseProtectionProfileVO) : gostring :=
  netJoinHostPort (i_Host (mi_row (pf_instance p))) (i_Port (mi_row (pf_instance p))).

(** ** Normalisation and ranks *)
Definition normalizeStoragePostureStatus (value : gostring) : gostring :=
  let v := ToLower (TrimSpace value) in
  if one_of v [$"passed"; $"warning"; $"failed"; $"unsupported"] then v else $"unknown".
Definition normalizeBarmanServerStatus (value : gostring) : gostring :=
  let v := ToLower (TrimSpace value) in
  if one_of v [DatabaseBarmanServerStatusHealthy; DatabaseBarmanServerStatusDegraded;
               DatabaseBarmanServerStatusFailed; DatabaseBarmanServerStatusDisabled;
               DatabaseBarmanServerStatusPending]
  then v else [].

Definition normalizeProtectionBackupEngine (value : gostring) : gostring :=
  replace_rune 45 [95] (ToLower (TrimSpace value)).

Definition protectionModeForPolicy (engine : gostring) (policy : DatabaseBackupPolicyConfig)
    : gostring :=
  let backupEngine := normalizeProtectionBackupEngine (p_BackupEngine policy) in
  let e := normalizeDBType engine in
  if one_of e [DBTypeMySQL] then DatabaseProtectionModeMySQLPhysicalPITR
  else if one_of e [DBTypeMariaDB] then DatabaseProtectionModeMariaDBPhysicalPITR
  else if one_of e [DBTypePostgreSQL] then
    if bool_decide (backupEngine = $"barman") then DatabaseProtectionModePostgresBarmanPITR
    else if bool_decide (backupEngine = $"pg_basebackup")
    then DatabaseProtectionModePostgresPgBaseBackupPITR
    else DatabaseProtectionModePostgresBarmanPITR
  else DatabaseProtectionModeExternalPITR.

Definition postgresProtectionModeFromBackupEngine (value : gostring) : gostring :=
  let e := normalizePostgreSQLPhysicalBackupEngine value in
  if one_of e [$"barman"] then DatabaseProtectionModePostgresBarmanPITR
  else if one_of e [BackupEnginePgBaseBackup] then DatabaseProtectionModePostgresPgBaseBackupPITR
  else DatabaseProtectionModeExternalPITR.

Definition isPostgreSQLPhysicalBackupEngine (value : gostring) : bool :=
  one_of (normalizePostgreSQLPhysicalBackupEngine value)
    [$"barman"; BackupEnginePgBaseBackup; BackupEngineWALG; BackupEnginePgBackRest].

Definition isPostgreSQLPhysicalProtectionRecord (record : DatabaseBackupRecord) : bool :=
  isPostgreSQLPhysicalBackupEngine (r_BackupEngine record) &&
  bool_decide (normalizeBackupMethod (r_BackupMethod record) = DatabaseBackupMethodPhysical).

Definition isPostgreSQLBackupBaselineAvailable (record : DatabaseBackupRecord) : bool :=
  bool_decide (r_Status record = DatabaseBackupStatusSuccess) &&
  (bool_decide (normalizeBackupLevel (r_BackupLevel record) = DatabaseBackupLevelFull) ||
   (0 <? r_BaseRecordID record) ||
   bool_decide (r_BackupOrigin record = DatabaseBackupOriginSyntheticFull)).

Definition backupChainStatusForProfile (chain : DatabaseBackupChainStateVO) : gostring :=
  if cs_CurrentBaseRecordID chain =? 0 then DatabaseBackupChainStatusMissingBase
  else if one_of (cs_Status chain) [DatabaseBackupChainStateHealthy;
                                    DatabaseBackupChainStateConsolidating]
  then DatabaseBackupChainStatusComplete
  else if one_of (cs_Status chain) [DatabaseBackupChainStateDegraded]
  then DatabaseBackupChainStatusMissingIncremental
  else if one_of (cs_Status chain) [DatabaseBackupChainStateBroken]
  then DatabaseBackupChainStatusBrokenChain
  else DatabaseBackupChainStatusComplete.

Definition stream_status (s : StreamRow) : gostring := ls_Status (LogStream.state (sr_stream s)).
Definition stream_halted (s : StreamRow) : bool :=
  one_of (stream_status s) [DatabaseLogArchiveStreamStatusFailed;
    DatabaseLogArchiveStreamStatusDisabled; DatabaseLogArchiveStreamStatusPaused].

Definition logChainStatusForStream (s : StreamRow) : gostring :=
  let archiveType := ls_ArchiveType (ident (sr_stream s)) in
  if bool_decide (archiveType = DatabaseArchiveTypeBinlog) && stream_halted s
  then DatabaseLogChainStatusMissingBinlog
  else if bool_decide (archiveType = DatabaseArchiveTypeWAL) && stream_halted s
  then DatabaseLogChainStatusMissingWAL
  else if bool_decide (stream_status s = DatabaseLogArchiveStreamStatusDegraded)
  then DatabaseLogChainStatusTimeRangeGap
  else DatabaseLogChainStatusComplete.

Definition isPITRProtectionMode (mode : gostring) : bool :=
  one_of mode [DatabaseProtectionModeMySQLPhysicalPITR; DatabaseProtectionModeMariaDBPhysicalPITR;
    DatabaseProtectionModePostgresBarmanPITR; DatabaseProtectionModePostgresPgBaseBackupPITR;
    DatabaseProtectionModeExternalPITR].

Definition protectionInstanceRoleFromReplicaRole (role : gostring) : gostring :=
  let r := TrimSpace role in
  if one_of r [DatabaseReplicaRoleDelayed; DatabaseReplicaRoleRealtime; DatabaseReplicaRoleStandby]
  then r else DatabaseReplicationRoleUnknown.

Definition protectionInstanceRoleFromReplicationCheck (check : DatabaseReplicationCheck) : gostring :=
  let delayed := 0 <? ck_ConfiguredDelaySeconds check in
  if one_of (ck_RoleDetected check) [DatabaseReplicationRolePrimary]
  then DatabaseReplicationRolePrimary
  else if one_of (ck_RoleDetected check) [DatabaseReplicationRoleStandby]
  then if delayed then DatabaseReplicaRoleDelayed else DatabaseReplicaRoleStandby
  else if one_of (ck_RoleDetected check) [DatabaseReplicationRoleReplica]
  then if delayed then DatabaseReplicaRoleDelayed else DatabaseReplicaRoleRealtime
  else DatabaseReplicationRoleUnknown.

Definition isReplicaProtectionRole (role : gostring) : bool :=
  one_of (TrimSpace role)
    [DatabaseReplicaRoleRealtime; DatabaseReplicaRoleDelayed; DatabaseReplicaRoleStandby].

Definition protectionRiskRank (value : gostring) : Z :=
  if one_of value [DatabaseQueryRiskCritical] then 4
  else if one_of value [DatabaseQueryRiskHigh] then 3
  else if one_of value [DatabaseQueryRiskMedium] then 2
  else if one_of value [DatabaseQueryRiskLow] then 1 else 0.
Definition protectionLevelRank (value : gostring) : Z :=
  if one_of value [DatabaseProtectionLevelHAAndPITRVerified] then 5
  else if one_of value [DatabaseProtectionLevelPITRVerified] then 4
  else if one_of value [DatabaseProtectionLevelPITRCapable] then 3
  else if one_of value [DatabaseProtectionLevelBackupOnly] then 2
  else if one_of value [DatabaseProtectionLevelNone] then 1 else 0.

(** ** Times *)
Definition local_layout := $"2006-01-02 15:04:05".
Definition RFC3339 := $"2006-01-02T15:04:05Z07:00".
Fixpoint parse_layouts (layouts : list gostring) (value : gostring) : option Z :=
  match layouts with
  | [] => None
  | layout :: rest =>
    match parse_in_location layout value with
    | Some t => Some t
    | None => parse_layouts rest value
    end
  end.
Definition parseProtectionProfileTime (value : gostring) : option Z :=
  let value := TrimSpace value in
  if bool_decide (value = []) then None
  else parse_layouts [local_layout; RFC3339; $"2006-01-02T15:04:05"] value.

(** The zero [time.Time]. *)
Definition zero_time : Z := -62135596800 * 1000000000.
Definition day : Z := 24 * 3600 * 1000000000.

Definition restoreDrillStatusFromTime (value : gostring) (now : Z) : gostring :=
  match parseProtectionProfileTime value with
  | None => DatabaseRestoreDrillStatusSuccess
  | Some t =>
    if t =? zero_time then DatabaseRestoreDrillStatusSuccess
    else if protectionRestoreDrillFreshDays * day <? now - t then DatabaseRestoreDrillStatusStale
    else DatabaseRestoreDrillStatusSuccess
  end.

Definition restoreDrillStatusForJob (job : DatabaseRestoreJobVO) (now : Z) : gostring :=
  if jv_ID job =? 0 then DatabaseRestoreDrillStatusNone
  else if one_of (jv_Status job) [DatabaseRestoreStatusVerified; DatabaseBackupStatusSuccess;
                                  DatabaseRestoreStatusRestored]
  then restoreDrillStatusFromTime
         (firstNonEmpty [jv_FinishedAt job; jv_UpdatedAt job; jv_CreatedAt job]) now
  else if one_of (jv_Status job) [DatabaseRestoreStatusFailed] then DatabaseRestoreDrillStatusFailed
  else DatabaseRestoreDrillStatusNone.

Definition latestBackupRecordTime (record : DatabaseBackupRecord) (level : gostring) : gostring :=
  if bool_decide (normalizeBackupLevel (r_BackupLevel record) = level)
  then firstNonEmpty [formatTime (r_FinishedAt record); formatTime (r_StartedAt record)]
  else [].

(** ** Finding the parts *)
Section parts.
Context (v : view).

Definition toBackupChainStateVO (s : DatabaseBackupChainState) : DatabaseBackupChainStateVO := {|
  cs_CurrentBaseRecordID := s_CurrentBaseRecordID s; cs_Status := s_Status s;
  cs_ChainStartedAt := formatTime (s_ChainStartedAt s);
  cs_RecoverableUntil := formatTime (s_RecoverableUntil s) |}.

Definition toBackupPolicyVO (r : PolicyRow) : DatabaseBackupPolicyVO :=
  let p := po_policy r in {|
  bp_ID := p_ID p; bp_RunnerHostID := p_RunnerHostID p;
  bp_StorageProfileID := po_StorageProfileID r; bp_BinlogStreamID := p_BinlogStreamID p;
  bp_Enabled := p_Enabled p; bp_Status := p_Status p; bp_LastStatus := p_LastStatus p;
  bp_LastFullAt := formatTime (po_LastFullAt r);
  bp_LastIncrementalAt := formatTime (po_LastIncrementalAt r);
  bp_LastSyntheticAt := formatTime (p_LastSyntheticAt p);
  bp_LastRestoreDrillAt := formatTime (po_LastRestoreDrillAt r);
  bp_Chain := if 0 <? p_ID p
              then toBackupChainStateVO <$> found (chain_GetByPolicyID v (p_ID p)) else None |}.

Definition prefer_policy (selected : option PolicyRow) (item : PolicyRow) : option PolicyRow :=
  let s := match selected with None => item | Some s => s end in
  if p_Enabled (po_policy item) &&
     negb (bool_decide (p_Status (po_policy item) = DatabaseBackupPolicyStatusDisabled)) &&
     (negb (p_Enabled (po_policy s)) || (p_ID (po_policy s) <? p_ID (po_policy item)))
  then Some item else Some s.
Definition selectProtectionPolicy (instanceID : Z) : option PolicyRow :=
  if instanceID =? 0 then None
  else match policy_List v instanceID with
       | Err _ => None
       | Ok items => foldl prefer_policy None items
       end.

Definition betterProtectionTask (candidate current : DatabaseBackupTask) : bool :=
  if negb (Bool.eqb (bt_Enabled candidate) (bt_Enabled current)) then bt_Enabled candidate
  else match bt_LastSuccessAt candidate, bt_LastSuccessAt current with
       | Some a, Some b => b <? a
       | Some _, None => true
       | None, _ => bt_ID current <? bt_ID candidate
       end.
Definition prefer_task (selected : option DatabaseBackupTask) (item : DatabaseBackupTask)
    : option DatabaseBackupTask :=
  if negb (bool_decide (normalizeBackupMethod (bt_BackupMethod item) = DatabaseBackupMethodLogical))
     && negb (bool_decide (bt_BackupType item = DatabaseBackupTypeLogical))
  then selected
  else match selected with
       | None => Some item
       | Some s => if betterProtectionTask item s then Some item else selected
       end.
Definition toBackupTaskVO (t : DatabaseBackupTask) : DatabaseBackupTaskVO := {|
  tv_ID := bt_ID t; tv_StorageProfileID := bt_StorageProfileID t;
  tv_LastStatus := bt_LastStatus t; tv_LastSuccessAt := formatTime (bt_LastSuccessAt t);
  tv_LastRestoreTestAt := formatTime (bt_LastRestoreTestAt t) |}.
Definition selectLogicalBackupTask (instanceID : Z) : option DatabaseBackupTaskVO :=
  if instanceID =? 0 then None
  else match task_List v instanceID with
       | Err _ => None
       | Ok items => toBackupTaskVO <$> foldl prefer_task None items
       end.

Definition latestSuccessfulBackupRecord (instanceID : Z) : option DatabaseBackupRecord :=
  if instanceID =? 0 then None
  else match record_List v instanceID DatabaseBackupStatusSuccess 1 1 with
       | Ok (r :: _) => Some r
       | _ => None
       end.

Definition stream_enabled (s : StreamRow) : bool := ls_Enabled (ident (sr_stream s)).
Fixpoint choose_stream (selected : option StreamRow) (items : list StreamRow) : option StreamRow :=
  match items with
  | [] => selected
  | item :: rest =>
    let s := match selected with None => item | Some s => s end in
    if stream_enabled item && bool_decide (stream_status item = DatabaseLogArchiveStreamStatusRunning)
    then Some item
    else choose_stream (if stream_enabled item && negb (stream_enabled s) then Some item else Some s) rest
  end.
Definition selectProtectionLogArchiveStream (instanceID : Z) (engine : gostring)
    (policy : option DatabaseBackupPolicyVO) : option StreamRow :=
  if instanceID =? 0 then None
  else
    let bound := match policy with
                 | Some p => if 0 <? bp_BinlogStreamID p
                             then found (stream_GetByID v (bp_BinlogStreamID p)) else None
                 | None => None
                 end in
    match bound with
    | Some s => Some s
    | None =>
      let archiveType := archiveTypeForEngine engine in
      if one_of archiveType [[]; DatabaseArchiveTypeNone] then None
      else match stream_List v instanceID archiveType with
           | Err _ => None
           | Ok items => choose_stream None items
           end
    end.

Definition latestArchivedLog (instanceID : Z) (archiveType : gostring) : option ArchiveRow :=
  if (instanceID =? 0) || one_of archiveType [[]; DatabaseArchiveTypeNone] then None
  else found (archive_latest v instanceID archiveType).

(** The first id that is set, of the places that may name the row. *)
Definition first_id (ids : list Z) : Z := match List.find (fun i => 0 <? i) ids with Some i => i | None => 0 end.
Definition stream_runner (s : StreamRow) : Z := ls_RunnerHostID (assigned (sr_stream s)).

Definition resolveProtectionRunner (policy : option DatabaseBackupPolicyVO)
    (stream : option StreamRow) : option DatabaseRunnerHost :=
  let id := first_id [from_option bp_RunnerHostID 0 policy; from_option stream_runner 0 stream] in
  if id =? 0 then None else found (runner_GetByID v id).

Definition resolveProtectionStorage (policy : option DatabaseBackupPolicyVO)
    (stream : option StreamRow) (task : option DatabaseBackupTaskVO)
    : option DatabaseStorageProfile :=
  let id := first_id [from_option bp_StorageProfileID 0 policy;
    from_option sr_StorageProfileID 0 stream; from_option tv_StorageProfileID 0 task] in
  if id =? 0 then None else found (storage_GetByID v id).

Definition toRestoreJobVO (j : DatabaseRestoreJob) : DatabaseRestoreJobVO := {|
  jv_ID := rj_ID j; jv_Status := rj_Status j; jv_FinishedAt := formatTime (rj_FinishedAt j);
  jv_UpdatedAt := format_time (rj_UpdatedAt j); jv_CreatedAt := format_time (rj_CreatedAt j) |}.
Definition latestRestoreJob (instanceID : Z) : option DatabaseRestoreJobVO :=
  if instanceID =? 0 then None else toRestoreJobVO <$> found (job_latest v instanceID).

Definition protectionReplicaStatus (instanceID : Z) (engine : gostring)
    : option DatabaseReplicaProtectionVO :=
  if (instanceID =? 0) || negb (isReplicaGovernanceEngine engine) then None
  else
    match ListReplicaProtections v (Some {| lr_Page := 1; lr_PageSize := 1;
      lr_InstanceID := instanceID; lr_Engine := []; lr_RiskLevel := [];
      lr_ProtectionStatus := []; lr_LagWarningSeconds := 0; lr_LagCriticalSeconds := 0;
      lr_RemainingDelayWarningSeconds := 0; lr_RelayLogBacklogWarningBytes := 0;
      lr_WALBacklogWarningBytes := 0; lr_RestrictToAllowed := false;
      lr_AllowedInstanceIDs := [] |}) with
    | Ok (Some (vo :: _), _) => Some vo
    | _ => None
    end.

Definition barmanServerProtectionRank (item : BarmanRow) : Z :=
  let s := normalizeBarmanServerStatus (br_Status item) in
  if one_of s [DatabaseBarmanServerStatusHealthy] then 5
  else if one_of s [DatabaseBarmanServerStatusDegraded] then 4
  else if one_of s [DatabaseBarmanServerStatusPending] then 3
  else if one_of s [DatabaseBarmanServerStatusFailed] then 2 else 1.
Fixpoint choose_barman (externalName : gostring) (selected : option BarmanRow)
    (items : list BarmanRow) : option BarmanRow :=
  match items with
  | [] => selected
  | item :: rest =>
    if negb (bool_decide (externalName = [])) &&
       bool_decide (TrimSpace (bs_BarmanServerName (br_server item)) = externalName)
    then Some item
    else match selected with
         | None => choose_barman externalName (Some item) rest
         | Some s => choose_barman externalName
             (if barmanServerProtectionRank s <? barmanServerProtectionRank item
              then Some item else Some s) rest
         end
  end.
Definition selectProtectionBarmanServer (instanceID : Z)
    (latestRecord : option DatabaseBackupRecord) : option BarmanRow :=
  if instanceID =? 0 then None
  else match barman_List v instanceID with
       | Err _ => None
       | Ok items =>
         let externalName := match latestRecord with
           | Some r => if bool_decide (TrimSpace (r_BackupEngine r) = $"barman")
                       then TrimSpace (rd_ExternalServerName (r_details r)) else []
           | None => []
           end in
         choose_barman externalName None items
       end.
Definition toBarmanServerVO (b : BarmanRow) : DatabaseBarmanServerVO := {|
  bv_ID := bs_ID (br_server b); bv_RunnerHostID := bs_RunnerHostID (br_server b);
  bv_PGSystemIdentifier := bs_PGSystemIdentifier (br_server b);
  bv_Status := normalizeBarmanServerStatus (br_Status b);
  bv_LastCheckStatus := bs_LastCheckStatus (br_server b) |}.

(** The loop over the WAL files: [inr] is the early return on another system. *)
Fixpoint wal_scan (expectedSystemID expectedTimeline : gostring) (gaps : Z) (mismatch : bool)
    (items : list ArchiveRow) : Z * bool + Z :=
  match items with
  | [] => inl (gaps, mismatch)
  | item :: rest =>
    let a := ar_archive item in
    if negb (bool_decide (expectedSystemID = [])) && negb (bool_decide (la_PGSystemIdentifier a = []))
       && negb (bool_decide (la_PGSystemIdentifier a = expectedSystemID))
    then inr (gaps + 1)
    else
      let mismatch := mismatch ||
        (negb (bool_decide (expectedTimeline = [])) && negb (bool_decide (la_TimelineID a = [])) &&
         negb (bool_decide (la_TimelineID a = expectedTimeline)) &&
         negb (Contains (ToUpper (la_FileName a)) $".HISTORY")) in
      let gaps := if one_of (la_Status a) [DatabaseLogArchiveStatusMissing;
                                           DatabaseLogArchiveStatusChecksumFailed]
                  then gaps + 1 else gaps in
      wal_scan expectedSystemID expectedTimeline gaps mismatch rest
  end.

Definition postgresProtectionWALStatus (instanceID : Z) (stream : option StreamRow)
    (latestRecord : option DatabaseBackupRecord) (server : option DatabaseBarmanServerVO)
    : gostring * Z * bool :=
  if instanceID =? 0 then ([], 0, false)
  else
    let none := match stream with
                | Some _ => (DatabaseLogChainStatusMissingWAL, 1, false)
                | None => ([], 0, false)
                end in
    match archive_ListWAL v instanceID
            (from_option (fun s => ls_ID (ident (sr_stream s))) 0 stream) with
    | Err _ | Ok [] => none
    | Ok items =>
      let expectedTimeline := from_option (fun r => rd_TimelineID (r_details r)) [] latestRecord in
      let systemID := from_option (fun r => rd_PGSystemIdentifier (r_details r)) [] latestRecord in
      let expectedSystemID := match server with
        | Some s => firstNonEmpty [systemID; bv_PGSystemIdentifier s]
        | None => systemID
        end in
      match wal_scan expectedSystemID expectedTimeline 0 false items with
      | inr gaps => (DatabaseLogChainStatusSystemIdentifierMismatch, gaps, false)
      | inl (gaps, mismatch) =>
        let logs := ar_archive <$> items in
        let continuity := (validatePostgreSQLWALContinuity logs expectedTimeline).1 in
        let continuous := bool_decide (continuity = DatabaseLogChainStatusComplete) in
        let status := if continuous then DatabaseLogChainStatusComplete else continuity in
        let mismatch := mismatch ||
          bool_decide (continuity = DatabaseLogChainStatusTimelineMismatch) in
        let gaps := if continuous then gaps else gaps + 1 in
        let history := (validatePostgreSQLTimelineHistory logs expectedTimeline).1 in
        let known := bool_decide (history = DatabaseLogChainStatusComplete) in
        let status := if negb known && bool_decide (status = DatabaseLogChainStatusComplete)
                      then history else status in
        let gaps := if known then gaps else gaps + 1 in
        let status := if mismatch && bool_decide (status = DatabaseLogChainStatusComplete)
                      then DatabaseLogChainStatusTimelineMismatch else status in
        let status := if (0 <? gaps) && bool_decide (status = DatabaseLogChainStatusComplete)
                      then DatabaseLogChainStatusMissingWAL else status in
        (status, gaps, mismatch)
      end
    end.
End parts.

(** ** The profile before roles and assessment *)
Section profile.
Context (v : view).

Definition filled (value : gostring) (others : list gostring) : gostring :=
  firstNonEmpty (value :: others).

(** The log chain: the state of the stream, for PostgreSQL what the WAL files
    say, and what they say about gaps. *)
Definition log_chain (engine : gostring) (id : Z) (stream : option StreamRow)
    (record : option DatabaseBackupRecord) (server : option DatabaseBarmanServerVO)
    : gostring * Z * bool :=
  let own := from_option logChainStatusForStream DatabaseLogChainStatusUnsupported stream in
  if bool_decide (engine = DBTypePostgreSQL) then
    let '(status, gaps, mismatch) := postgresProtectionWALStatus v id stream record server in
    (if one_of status [[]; DatabaseLogChainStatusUnsupported] then own else status, gaps, mismatch)
  else (own, 0, false).

(** The runner of the policy or the stream, else that of the Barman server. *)
Definition profile_runner (policy : option DatabaseBackupPolicyVO) (stream : option StreamRow)
    (server : option DatabaseBarmanServerVO) : option DatabaseRunnerHost :=
  match resolveProtectionRunner v policy stream with
  | Some h => Some h
  | None =>
    match server with
    | Some s => if 0 <? bv_RunnerHostID s then found (runner_GetByID v (bv_RunnerHostID s)) else None
    | None => None
    end
  end.

Definition find_parts (instance : ManagedInstance) : profile_parts :=
  let id := mi_ID instance in
  let engine := normalizeDBType (i_DBType (mi_row instance)) in
  let policy := toBackupPolicyVO v <$> selectProtectionPolicy v id in
  let task := match policy with Some _ => None | None => selectLogicalBackupTask v id end in
  let record := latestSuccessfulBackupRecord v id in
  let server := if bool_decide (engine = DBTypePostgreSQL)
                then toBarmanServerVO <$> selectProtectionBarmanServer v id record else None in
  let stream := selectProtectionLogArchiveStream v id engine policy in
  {| BackupPolicy := policy; LogicalTask := task; LatestBackupRecord := record;
     BarmanServer := server; LogArchiveStream := stream;
     LatestLogArchive := latestArchivedLog v id (archiveTypeForEngine engine);
     RunnerHost := profile_runner policy stream server;
     StorageProfile := resolveProtectionStorage v policy stream task;
     LatestRestoreJob := latestRestoreJob v id;
     ReplicaProtection := protectionReplicaStatus v id engine |}.

(** A successful physical record of PostgreSQL, which fills in what the policy
    leaves open. *)
Definition postgres_record (engine : gostring) (parts : profile_parts)
    : option DatabaseBackupRecord :=
  if bool_decide (engine = DBTypePostgreSQL) then
    match LatestBackupRecord parts with
    | Some r => if isPostgreSQLPhysicalProtectionRecord r then Some r else None
    | None => None
    end
  else None.

Definition profile_mode (engine : gostring) (policy : option PolicyRow) (parts : profile_parts)
    : gostring :=
  match policy, LogicalTask parts with
  | Some p, _ => protectionModeForPolicy engine (po_policy p)
  | None, Some _ => DatabaseProtectionModeLogicalBackup
  | None, None =>
    match postgres_record engine parts, BarmanServer parts with
    | Some r, _ => postgresProtectionModeFromBackupEngine (r_BackupEngine r)
    | None, Some _ => DatabaseProtectionModePostgresBarmanPITR
    | None, None => DatabaseProtectionModeNone
    end
  end.

Definition profile_chain_status (engine : gostring) (parts : profile_parts) : gostring :=
  let own := match BackupPolicy parts, LogicalTask parts with
             | Some p, _ => from_option backupChainStatusForProfile
                              DatabaseBackupChainStatusMissingBase (bp_Chain p)
             | None, Some _ => DatabaseBackupChainStatusUnsupported
             | None, None => DatabaseBackupChainStatusMissingBase
             end in
  match postgres_record engine parts with
  | Some r => if bool_decide (own = DatabaseBackupChainStatusMissingBase) &&
                 isPostgreSQLBackupBaselineAvailable r
              then DatabaseBackupChainStatusComplete else own
  | None => own
  end.

Definition policy_chain {A} (f : DatabaseBackupChainStateVO -> A) (d : A) (parts : profile_parts) : A :=
  match BackupPolicy parts with
  | Some p => from_option f d (bp_Chain p)
  | None => d
  end.

Definition stream_cursor_of (s : StreamRow) : stream_cursor := cursor (sr_stream s).

Definition profile_times_of (engine : gostring) (parts : profile_parts) : profile_times :=
  let record := LatestBackupRecord parts in
  let full := match BackupPolicy parts, LogicalTask parts with
              | Some p, _ => bp_LastFullAt p
              | None, Some t => tv_LastSuccessAt t
              | None, None => []
              end in
  let until := policy_chain cs_RecoverableUntil [] parts in
  let until := match record with
               | Some r => filled until [formatTime (r_RecoverableUntil r); formatTime (r_FinishedAt r)]
               | None => until
               end in
  let stream_event := match LogArchiveStream parts with
                      | Some s => formatTime (ls_LastEventTime (stream_cursor_of s))
                      | None => []
                      end in
  let until := if bool_decide (until = []) then stream_event else until in
  let archive_event := match LatestLogArchive parts with
                       | Some a => formatTime (la_LastEventTime (ar_archive a))
                       | None => []
                       end in
  let until := if bool_decide (until = []) then archive_event else until in
  let archived := match LogArchiveStream parts with
                  | Some s => firstNonEmpty [formatTime (ls_LastArchivedAt (stream_cursor_of s));
                      formatTime (ls_LastEventTime (stream_cursor_of s));
                      formatTime (ls_LastHeartbeatAt (lease (sr_stream s)))]
                  | None => []
                  end in
  let drill := match BackupPolicy parts, LogicalTask parts with
               | Some p, _ => bp_LastRestoreDrillAt p
               | None, Some t => tv_LastRestoreTestAt t
               | None, None => []
               end in
  {| RecoverableFrom :=
       match record with
       | Some r => filled (policy_chain cs_ChainStartedAt [] parts)
                     [formatTime (r_RecoverableFrom r); formatTime (r_StartedAt r)]
       | None => policy_chain cs_ChainStartedAt [] parts
       end;
     RecoverableUntil := until;
     LastFullAt := match record with
                   | Some r => filled full [latestBackupRecordTime r DatabaseBackupLevelFull]
                   | None => full
                   end;
     LastIncrementalAt := from_option bp_LastIncrementalAt [] (BackupPolicy parts);
     LastSyntheticAt := from_option bp_LastSyntheticAt [] (BackupPolicy parts);
     LastLogArchiveAt := match LatestLogArchive parts with
                         | Some a => filled archived [formatTime (ar_ArchivedAt a);
                                       formatTime (la_LastEventTime (ar_archive a))]
                         | None => archived
                         end;
     LastRestoreDrillAt :=
       match LatestRestoreJob parts with
       | Some j => if bool_decide (drill = []) &&
                      one_of (jv_Status j) [DatabaseRestoreStatusVerified; DatabaseBackupStatusSuccess]
                   then jv_FinishedAt j else drill
       | None => drill
       end;
     RPOLagSeconds := match LogArchiveStream parts with
                      | Some s => ls_ArchiveLagSeconds (stream_cursor_of s)
                      | None => -1
                      end |}.

Definition profile_postgres_of (engine : gostring) (id : Z) (parts : profile_parts)
    : profile_postgres :=
  let pg := postgres_record engine parts in
  let details (f : DatabaseBackupRecordDetails -> gostring) : gostring :=
    match pg with Some r => filled [] [f (r_details r)] | None => [] end in
  let archive := if bool_decide (engine = DBTypePostgreSQL) then LatestLogArchive parts else None in
  let extend (value : gostring) (f : DatabaseLogArchive -> gostring) : gostring :=
    match archive with Some a => filled value [f (ar_archive a)] | None => value end in
  let system := details rd_PGSystemIdentifier in
  let system := match BarmanServer parts with
                | Some s => filled system [bv_PGSystemIdentifier s]
                | None => system
                end in
  let wal_end := details rd_WALEnd in
  let '(_, gaps, mismatch) := log_chain engine id (LogArchiveStream parts)
                                (LatestBackupRecord parts) (BarmanServer parts) in
  {| PGSystemIdentifier := extend system la_PGSystemIdentifier;
     TimelineID := extend (details rd_TimelineID) la_TimelineID;
     WALStart := details rd_WALStart;
     WALEnd := match archive with
               | Some a => if bool_decide (wal_end = []) then la_FileName (ar_archive a) else wal_end
               | None => wal_end
               end;
     WALGapCount := gaps; TimelineMismatch := mismatch |}.

Definition profile_states_of (engine : gostring) (id : Z) (parts : profile_parts)
    (times : profile_times) : profile_states :=
  let drill := match LatestRestoreJob parts with
               | Some j => restoreDrillStatusForJob j (v_now v)
               | None => DatabaseRestoreDrillStatusNone
               end in
  {| BackupChainStatus := profile_chain_status engine parts;
     LogChainStatus := (log_chain engine id (LogArchiveStream parts) (LatestBackupRecord parts)
                          (BarmanServer parts)).1.1;
     RunnerStatus := from_option h_Status DatabaseRunnerHostStatusPending (RunnerHost parts);
     StorageStatus := match StorageProfile parts with
                      | Some s => normalizeStoragePostureStatus
                                    (normalizeStoragePostureStatus (sp_PostureStatus s))
                      | None => $"unknown"
                      end;
     RestoreDrillStatus :=
       if bool_decide (drill = DatabaseRestoreDrillStatusNone) &&
          negb (bool_decide (LastRestoreDrillAt times = []))
       then restoreDrillStatusFromTime (LastRestoreDrillAt times) (v_now v)
       else drill;
     ReplicaProtectionStatus :=
       from_option rp_ProtectionStatus DatabaseReplicaProtectionUnknown (ReplicaProtection parts) |}.

(** The fields that are set before the roles; the role and the verdict hold
    their initial values. *)
Definition own_profile (instance : ManagedInstance) : DatabaseProtectionProfileVO :=
  let id := mi_ID instance in
  let engine := normalizeDBType (i_DBType (mi_row instance)) in
  let parts := find_parts instance in
  let times := profile_times_of engine parts in
  {| pf_instance := instance; pf_parts := parts; pf_times := times;
     pf_postgres := profile_postgres_of engine id parts;
     pf_states := profile_states_of engine id parts times;
     pf_role := {| InstanceRole := DatabaseReplicationRoleUnknown; ReplicaRole := [];
       PrimaryInstanceID := 0; PrimaryInstanceName := []; PrimaryEndpoint := [];
       RoleDiscoverySource := []; ConfiguredDelaySeconds := 0; RemainingDelaySeconds := -1;
       BackupRequirement := DatabaseProtectionBackupRequirementRequired |};
     pf_inheritance := {| InheritedProtection := false; InheritedProtectionMode := [];
       InheritedProtectionLevel := []; InheritedProtectionRiskLevel := [] |};
     ProtectionMode := profile_mode engine (selectProtectionPolicy v id) parts;
     ProtectionLevel := match LogicalTask parts with
                        | Some _ => DatabaseProtectionLevelBackupOnly
                        | None => DatabaseProtectionLevelNone
                        end;
     HealthStatus := DatabaseProtectionHealthUnknown; RiskLevel := DatabaseQueryRiskCritical;
     RiskMessages := []; RecommendedActions := [] |}.

(** ** Roles: [applyProtectionReplicaResponsibility] *)
Definition instanceNameEndpoint (id : Z) : gostring * gostring :=
  if id =? 0 then ([], [])
  else match instance_GetByID v id with
       | Err _ => ([], [])
       | Ok i => (i_Name (mi_row i),
                  JoinHostPort (TrimSpace (i_Host (mi_row i))) (fmt_d (i_Port (mi_row i))))
       end.

(** The role of an instance, from its registered relation, else from its last
    check, else it is a primary. *)
Definition protection_role (id : Z) : profile_role :=
  let check := latestReplicationCheck v id in
  match found (replica_GetByReplicaInstanceID v id) with
  | Some relation =>
    let role := protectionInstanceRoleFromReplicaRole (ir_ReplicaRole relation) in
    let primary := ir_PrimaryInstanceID relation in
    let named := if 0 <? primary then instanceNameEndpoint primary else ([], []) in
    {| InstanceRole := role; ReplicaRole := ir_ReplicaRole relation;
       PrimaryInstanceID := primary; PrimaryInstanceName := named.1;
       PrimaryEndpoint := named.2; RoleDiscoverySource := ir_DiscoverySource relation;
       ConfiguredDelaySeconds :=
         if ir_ConfiguredDelaySeconds relation <=? 0
         then from_option ck_ConfiguredDelaySeconds (ir_ConfiguredDelaySeconds relation) check
         else ir_ConfiguredDelaySeconds relation;
       RemainingDelaySeconds := from_option ck_RemainingDelaySeconds (-1) check;
       BackupRequirement := if isReplicaProtectionRole role
                            then DatabaseProtectionBackupRequirementInherited
                            else DatabaseProtectionBackupRequirementRequired |}
  | None =>
    match check with
    | Some c =>
      let role := protectionInstanceRoleFromReplicationCheck c in
      let named := if 0 <? ck_SourceInstanceID c
                   then instanceNameEndpoint (ck_SourceInstanceID c) else ([], []) in
      {| InstanceRole := role;
         ReplicaRole := if isReplicaProtectionRole role then
             if 0 <? ck_ConfiguredDelaySeconds c then DatabaseReplicaRoleDelayed
             else if bool_decide (ck_RoleDetected c = DatabaseReplicationRoleStandby)
             then DatabaseReplicaRoleStandby else DatabaseReplicaRoleRealtime
           else [];
         PrimaryInstanceID := ck_SourceInstanceID c; PrimaryInstanceName := named.1;
         PrimaryEndpoint := named.2;
         RoleDiscoverySource := DatabaseReplicaDiscoveryReplicaStatus;
         ConfiguredDelaySeconds := ck_ConfiguredDelaySeconds c;
         RemainingDelaySeconds := ck_RemainingDelaySeconds c;
         BackupRequirement := if isReplicaProtectionRole role
                              then DatabaseProtectionBackupRequirementInherited
                              else DatabaseProtectionBackupRequirementRequired |}
    | None =>
      {| InstanceRole := DatabaseReplicationRolePrimary; ReplicaRole := [];
         PrimaryInstanceID := 0; PrimaryInstanceName := []; PrimaryEndpoint := [];
         RoleDiscoverySource := []; ConfiguredDelaySeconds := 0; RemainingDelaySeconds := -1;
         BackupRequirement := DatabaseProtectionBackupRequirementRequired |}
    end
  end.

Definition with_role (p : DatabaseProtectionProfileVO) (r : profile_role)
    : DatabaseProtectionProfileVO :=
  {| pf_instance := pf_instance p; pf_parts := pf_parts p; pf_times := pf_times p;
     pf_postgres := pf_postgres p; pf_states := pf_states p; pf_role := r;
     pf_inheritance := pf_inheritance p; ProtectionMode := ProtectionMode p;
     ProtectionLevel := ProtectionLevel p; HealthStatus := HealthStatus p;
     RiskLevel := RiskLevel p; RiskMessages := RiskMessages p;
     RecommendedActions := RecommendedActions p |}.
Definition inherits (r : profile_role) : bool :=
  bool_decide (BackupRequirement r = DatabaseProtectionBackupRequirementInherited).
End profile.

(** What a replica takes over from the profile of its primary. *)
Definition inherit_from (primary p : DatabaseProtectionProfileVO) : DatabaseProtectionProfileVO :=
  let some := negb (one_of (ProtectionLevel primary) [[]; DatabaseProtectionLevelNone]) in
  let t := pf_times p in
  let pt := pf_times primary in
  let s := pf_states p in
  {| pf_instance := pf_instance p; pf_parts := pf_parts p;
     pf_times := if some then
       {| RecoverableFrom := filled (RecoverableFrom t) [RecoverableFrom pt];
          RecoverableUntil := filled (RecoverableUntil t) [RecoverableUntil pt];
          LastFullAt := filled (LastFullAt t) [LastFullAt pt];
          LastIncrementalAt := filled (LastIncrementalAt t) [LastIncrementalAt pt];
          LastSyntheticAt := filled (LastSyntheticAt t) [LastSyntheticAt pt];
          LastLogArchiveAt := filled (LastLogArchiveAt t) [LastLogArchiveAt pt];
          LastRestoreDrillAt := LastRestoreDrillAt t; RPOLagSeconds := RPOLagSeconds t |}
       else t;
     pf_postgres := pf_postgres p;
     pf_states := if some then
       {| BackupChainStatus := BackupChainStatus s;
          LogChainStatus := filled (LogChainStatus s) [LogChainStatus (pf_states primary)];
          RunnerStatus := RunnerStatus s; StorageStatus := StorageStatus s;
          RestoreDrillStatus := RestoreDrillStatus s;
          ReplicaProtectionStatus := ReplicaProtectionStatus s |}
       else s;
     pf_role := pf_role p;
     pf_inheritance := {|
       InheritedProtection := some || InheritedProtection (pf_inheritance p);
       InheritedProtectionMode := ProtectionMode primary;
       InheritedProtectionLevel := ProtectionLevel primary;
       InheritedProtectionRiskLevel := RiskLevel primary |};
     ProtectionMode := if some then DatabaseProtectionModeInherited else ProtectionMode p;
     ProtectionLevel := if some then ProtectionLevel primary else ProtectionLevel p;
     HealthStatus := if some then HealthStatus primary else HealthStatus p;
     RiskLevel := if some then RiskLevel primary else RiskLevel p;
     RiskMessages := RiskMessages p; RecommendedActions := RecommendedActions p |}.

(** ** The assessment: [applyProtectionAssessment]
    Every branch sets one flag, appends one message and at most one action: a
    [finding]. The findings are in the order of the code. *)
Record finding := {
  fg_level : gostring; fg_message : gostring; fg_action : option DatabaseProtectionActionVO }.

Definition protectionAction (level action text : gostring) (blocking : bool)
    : DatabaseProtectionActionVO :=
  {| ac_Level := level; ac_Action := action; ac_Text := text; ac_Blocking := blocking |}.

Definition found_risk (level message action text : gostring) (blocking : bool) : list finding :=
  [{| fg_level := level; fg_message := message;
      fg_action := Some (protectionAction level action text blocking) |}].
Definition plain_risk (level message : gostring) : list finding :=
  [{| fg_level := level; fg_message := message; fg_action := None |}].
Definition when (b : bool) (l : list finding) : list finding := if b then l else [].

Abbreviation critical := DatabaseQueryRiskCritical (only parsing).
Abbreviation high := DatabaseQueryRiskHigh (only parsing).
Abbreviation medium := DatabaseQueryRiskMedium (only parsing).

Definition has_own_backup (parts : profile_parts) : bool :=
  match BackupPolicy parts, LogicalTask parts, LatestBackupRecord parts with
  | None, None, None => false
  | _, _, _ => true
  end.

Definition coverage_findings (p : DatabaseProtectionProfileVO) : list finding :=
  if has_own_backup (pf_parts p) then []
  else if inherits (pf_role p) && InheritedProtection (pf_inheritance p) then
    let risk := InheritedProtectionRiskLevel (pf_inheritance p) in
    if one_of risk [critical] then
      found_risk critical $"当前实例继承主库备份保护，但来源主库存在严重保护风险"
        $"inspect_primary_protection" $"先处理来源主库备份保护风险" true
    else if one_of risk [high] then
      found_risk high $"当前实例继承主库备份保护，但来源主库存在高风险"
        $"inspect_primary_protection" $"先处理来源主库备份保护风险" true
    else if one_of risk [medium] then
      plain_risk medium $"当前实例继承主库备份保护，来源主库仍有待处理风险"
    else []
  else if inherits (pf_role p) then
    found_risk critical $"当前实例是从库，但来源主库尚未启用可继承的备份保护"
      $"inspect_primary_protection" $"请先为来源主库启用备份保护" true
  else
    found_risk critical $"当前实例没有启用备份策略或成功备份记录"
      $"enable_protection" $"请先启用数据库保护策略或创建备份任务" true.

Definition ChainStatus (p : DatabaseProtectionProfileVO) : gostring :=
  policy_chain cs_Status [] (pf_parts p).

Definition policy_findings (p : DatabaseProtectionProfileVO) : list finding :=
  match BackupPolicy (pf_parts p) with
  | None => []
  | Some policy =>
    when (negb (bp_Enabled policy) ||
          bool_decide (bp_Status policy = DatabaseBackupPolicyStatusDisabled))
      (found_risk high $"物理备份策略已禁用" $"enable_backup_policy" $"启用物理备份策略" true) ++
    when (bool_decide (bp_LastStatus policy = DatabaseBackupStatusFailed) ||
          bool_decide (bp_Status policy = DatabaseBackupPolicyStatusFailed))
      (found_risk critical $"最近一次物理备份失败" $"inspect_backup_failure"
         $"检查最近一次物理备份失败原因" true) ++
    when (from_option cs_CurrentBaseRecordID 0 (bp_Chain policy) =? 0)
      (found_risk critical $"当前物理备份链缺少可用全量基线" $"run_full_backup"
         $"先执行一次 full 备份建立基线" true) ++
    (let status := ChainStatus p in
     if one_of status [DatabaseBackupChainStateBroken] then
       found_risk critical $"当前物理备份链已断链" $"validate_backup_chain"
         $"校验并修复物理备份链" true
     else if one_of status [DatabaseBackupChainStateDegraded] then
       found_risk high $"当前物理备份链处于降级状态" $"validate_backup_chain"
         $"校验物理备份链并查看降级原因" true
     else if one_of status [DatabaseBackupChainStateConsolidating] then
       plain_risk medium $"当前物理备份链正在合成全量"
     else [])
  end.

Definition task_findings (p : DatabaseProtectionProfileVO) : list finding :=
  match LogicalTask (pf_parts p) with
  | Some t => when (bool_decide (tv_LastStatus t = DatabaseBackupStatusFailed))
      (found_risk high $"最近一次逻辑备份失败" $"inspect_logical_backup_failure"
         $"检查逻辑备份任务失败原因" true)
  | None => []
  end.

Definition barman_findings (p : DatabaseProtectionProfileVO) : list finding :=
  when (bool_decide (ProtectionMode p = DatabaseProtectionModePostgresBarmanPITR))
    (match BarmanServer (pf_parts p) with
     | None => found_risk high $"未纳管 PostgreSQL Barman Server" $"configure_barman_server"
                 $"通过 PostgreSQL Barman 向导登记 Barman Server" true
     | Some s =>
       (if one_of (bv_Status s) [DatabaseBarmanServerStatusFailed] then
          found_risk critical $"Barman Server 检查失败" $"check_barman_server"
            $"执行 Barman check 并查看错误" true
        else if one_of (bv_Status s) [DatabaseBarmanServerStatusDegraded] then
          found_risk high $"Barman Server 处于降级状态" $"sync_barman_catalog"
            $"同步 Barman catalog 和 WAL 状态" true
        else if one_of (bv_Status s) [DatabaseBarmanServerStatusDisabled] then
          plain_risk high $"Barman Server 已禁用"
        else []) ++
       when (bool_decide (TrimSpace (bv_LastCheckStatus s) = DatabaseRunnerJobStatusFailed))
         (found_risk high $"最近一次 Barman check 失败" $"check_barman_server"
            $"重新执行 Barman check" true)
     end ++
     when (TimelineMismatch (pf_postgres p))
       (found_risk critical $"PostgreSQL timeline 与 WAL 链不匹配" $"sync_barman_wal"
          $"同步 WAL 状态并检查 timeline history" true) ++
     when (0 <? WALGapCount (pf_postgres p))
       (found_risk critical
          ($"PostgreSQL WAL 链存在 " ++ fmt_d (WALGapCount (pf_postgres p)) ++ $" 处缺口")
          $"sync_barman_wal" $"同步 WAL 状态并补齐缺失 segment" true)).

Definition stream_RPO (s : StreamRow) : Z := ls_RPOTargetSeconds (ident (sr_stream s)).
Definition stream_LastError (s : StreamRow) : gostring := ls_LastError (LogStream.state (sr_stream s)).

Definition stream_findings (p : DatabaseProtectionProfileVO) : list finding :=
  when (isPITRProtectionMode (ProtectionMode p))
    match LogArchiveStream (pf_parts p) with
    | None => found_risk high $"未绑定 binlog/WAL 归档流，PITR 只能恢复到备份点"
                $"start_log_archive_stream" $"创建并启动日志归档流" true
    | Some s =>
      (if one_of (stream_status s) [DatabaseLogArchiveStreamStatusFailed] then
         found_risk critical $"日志归档流失败" $"inspect_log_archive_stream"
           $"检查日志归档流失败原因" true
       else if one_of (stream_status s) [DatabaseLogArchiveStreamStatusDegraded] then
         plain_risk high $"日志归档流降级"
       else if one_of (stream_status s) [DatabaseLogArchiveStreamStatusPaused;
                                         DatabaseLogArchiveStreamStatusDisabled] then
         found_risk high $"日志归档流未运行" $"resume_log_archive_stream"
           $"启动或恢复日志归档流" true
       else []) ++
      when ((0 <? stream_RPO s) && (stream_RPO s <? RPOLagSeconds (pf_times p)))
        (found_risk medium $"日志归档延迟超过目标 RPO" $"inspect_archive_lag"
           $"检查日志归档延迟和 Agent 心跳" false) ++
      when (negb (bool_decide (TrimSpace (stream_LastError s) = [])))
        (plain_risk high $"日志归档流存在最近错误")
    end.

Definition runner_findings (p : DatabaseProtectionProfileVO) : list finding :=
  match RunnerHost (pf_parts p) with
  | None =>
    when (match BackupPolicy (pf_parts p), LogArchiveStream (pf_parts p) with
          | None, None => false
          | _, _ => true
          end)
      (found_risk high $"当前保护策略缺少 Runner 主机" $"configure_runner"
         $"配置并绑定 Runner 主机" true)
  | Some h =>
    if negb (h_Enabled h) || one_of (h_Status h) [DatabaseRunnerHostStatusDisabled;
                                                  DatabaseRunnerHostStatusFailed] then
      found_risk high $"Runner 主机不可用" $"repair_runner"
        $"修复 Runner 主机或切换到可用 Runner" true
    else when (negb (bool_decide (h_Status h = DatabaseRunnerHostStatusOnline)))
           (plain_risk medium $"Runner 主机未确认在线")
  end.

Definition storage_findings (p : DatabaseProtectionProfileVO) : list finding :=
  match StorageProfile (pf_parts p) with
  | None => []
  | Some _ =>
    let status := StorageStatus (pf_states p) in
    if one_of status [$"failed"] then
      found_risk high $"备份存储安全姿态检测失败" $"check_storage_posture"
        $"重新检测备份存储安全姿态" true
    else when (one_of status [$"warning"; $"unknown"])
           (plain_risk medium $"备份存储安全姿态未完全验证")
  end.

Definition drill_findings (p : DatabaseProtectionProfileVO) : list finding :=
  when (isPITRProtectionMode (ProtectionMode p))
    (let status := RestoreDrillStatus (pf_states p) in
     if one_of status [DatabaseRestoreDrillStatusFailed] then
       found_risk high $"最近一次恢复演练失败" $"run_restore_drill" $"重新执行隔离恢复演练" true
     else if one_of status [DatabaseRestoreDrillStatusNone] then
       found_risk medium $"尚未完成恢复演练 proof" $"run_restore_drill"
         $"执行一次隔离恢复演练并生成 proof" false
     else if one_of status [DatabaseRestoreDrillStatusStale] then
       found_risk medium $"恢复演练 proof 已超过 30 天" $"run_restore_drill"
         $"刷新恢复演练 proof" false
     else []).

Definition replica_findings (p : DatabaseProtectionProfileVO) : list finding :=
  match ReplicaProtection (pf_parts p) with
  | Some r => when (negb (inherits (pf_role p)) &&
      negb (bool_decide (rp_ProtectionStatus r = DatabaseReplicaProtectionProtected)))
      (plain_risk medium $"延迟副本保护窗口不可用或降级")
  | None => []
  end.

Definition protection_findings (p : DatabaseProtectionProfileVO) : list finding :=
  coverage_findings p ++ policy_findings p ++ task_findings p ++ barman_findings p ++
  stream_findings p ++ runner_findings p ++ storage_findings p ++ drill_findings p ++
  replica_findings p.

Fixpoint dedupe_loop (seen : list gostring) (actions : list DatabaseProtectionActionVO)
    : list DatabaseProtectionActionVO :=
  match actions with
  | [] => []
  | a :: rest =>
    let key := ac_Action a ++ $":" ++ ac_Text a in
    if one_of key seen then dedupe_loop seen rest else a :: dedupe_loop (key :: seen) rest
  end.
Definition dedupeProtectionActions := dedupe_loop [].

Definition some_finding (level : gostring) (l : list finding) : bool :=
  existsb (fun f => bool_decide (fg_level f = level)) l.
Definition findings_risk (l : list finding) : gostring * gostring :=
  if some_finding critical l then (DatabaseQueryRiskCritical, DatabaseProtectionHealthCritical)
  else if some_finding high l then (DatabaseQueryRiskHigh, DatabaseProtectionHealthCritical)
  else if some_finding medium l then (DatabaseQueryRiskMedium, DatabaseProtectionHealthWarning)
  else (DatabaseQueryRiskLow, DatabaseProtectionHealthHealthy).

(** [deriveProtectionLevel]. *)
Definition chain_usable (p : DatabaseProtectionProfileVO) : bool :=
  match BackupPolicy (pf_parts p) with
  | Some policy =>
    match bp_Chain policy with
    | Some c => (0 <? cs_CurrentBaseRecordID c) &&
        one_of (cs_Status c) [[]; DatabaseBackupChainStateHealthy; DatabaseBackupChainStateConsolidating]
    | None => false
    end
  | None => false
  end ||
  (bool_decide (pf_Engine p = DBTypePostgreSQL) &&
   match LatestBackupRecord (pf_parts p) with
   | Some r => isPostgreSQLPhysicalBackupEngine (r_BackupEngine r) &&
       bool_decide (BackupChainStatus (pf_states p) = DatabaseBackupChainStatusComplete)
   | None => false
   end).
Definition logs_usable (p : DatabaseProtectionProfileVO) : bool :=
  match LogArchiveStream (pf_parts p) with
  | Some s => stream_enabled s && negb (stream_halted s)
  | None => false
  end.
Definition deriveProtectionLevel (p : DatabaseProtectionProfileVO) : gostring :=
  if inherits (pf_role p) && InheritedProtection (pf_inheritance p)
  then firstNonEmpty [InheritedProtectionLevel (pf_inheritance p); DatabaseProtectionLevelBackupOnly]
  else if negb (has_own_backup (pf_parts p)) then DatabaseProtectionLevelNone
  else if negb (isPITRProtectionMode (ProtectionMode p)) then DatabaseProtectionLevelBackupOnly
  else if negb (chain_usable p) || negb (logs_usable p) then DatabaseProtectionLevelBackupOnly
  else if bool_decide (RestoreDrillStatus (pf_states p) = DatabaseRestoreDrillStatusSuccess) then
    match ReplicaProtection (pf_parts p) with
    | Some r => if bool_decide (rp_ProtectionStatus r = DatabaseReplicaProtectionProtected)
                then DatabaseProtectionLevelHAAndPITRVerified
                else DatabaseProtectionLevelPITRVerified
    | None => DatabaseProtectionLevelPITRVerified
    end
  else DatabaseProtectionLevelPITRCapable.

Definition applyProtectionAssessment (p : DatabaseProtectionProfileVO)
    : DatabaseProtectionProfileVO :=
  let l := protection_findings p in
  {| pf_instance := pf_instance p; pf_parts := pf_parts p; pf_times := pf_times p;
     pf_postgres := pf_postgres p; pf_states := pf_states p; pf_role := pf_role p;
     pf_inheritance := pf_inheritance p; ProtectionMode := ProtectionMode p;
     ProtectionLevel := deriveProtectionLevel p; HealthStatus := (findings_risk l).2;
     RiskLevel := (findings_risk l).1; RiskMessages := uniqueStrings (fg_message <$> l);
     RecommendedActions := dedupeProtectionActions (omap fg_action l) |}.

(** ** The recursion over the primaries
    [None]: out of fuel, which never happens with a turn per instance. The map
    of the visited instances is copied on the way down, so it is a list. *)
Fixpoint build_profile (fuel : nat) (v : view) (instance : ManagedInstance) (visited : list Z)
    : option DatabaseProtectionProfileVO :=
  match fuel with
  | O => None
  | S fuel =>
    let visited := mi_ID instance :: visited in
    let p := with_role (own_profile v instance) (protection_role v (mi_ID instance)) in
    let primaryID := PrimaryInstanceID (pf_role p) in
    if negb (inherits (pf_role p)) || (primaryID =? 0) || bool_decide (primaryID ∈ visited)
    then Some (applyProtectionAssessment p)
    else match instance_GetByID v primaryID with
         | Err _ => Some (applyProtectionAssessment p)
         | Ok primary =>
           match build_profile fuel v primary visited with
           | None => None
           | Some pp => Some (applyProtectionAssessment (inherit_from pp p))
           end
         end
  end.
Definition buildProtectionProfileWithVisited (v : view) :=
  build_profile (S (S (length (v_instances v)))) v.
Definition buildProtectionProfile (v : view) (instance : ManagedInstance)
    : option DatabaseProtectionProfileVO :=
  buildProtectionProfileWithVisited v instance [].
End operations.
