(* ===== verification/ProtectionRisk.v ===== *)
(** * Lists of profiles and of risks: [protection_profile.go], [protection_risk.go]

    [ListProtectionProfiles] assesses the instances of a request and gives one
    page of them; [ListProtectionRisks] reads all their pages, turns every
    message of a profile into a risk with an issue type and gives one page of
    the risks. *)

From Stdlib Require Import ZArith Lia.
From stdpp Require Import base tactics option list numbers.
From S2P Require Import Prelude GoStrings GoNumbers SqlSafety WriteExec BackupModel.
From S2P Require Import ProtectionModel ReplicaProtection Protection.

Open Scope Z_scope.

Definition DatabaseProtectionIssueMissingFullBackup := $"missing_full_backup".
Definition DatabaseProtectionIssueIncrementalChainBroken := $"incremental_chain_broken".
Definition DatabaseProtectionIssueLogChainGap := $"log_chain_gap".
Definition DatabaseProtectionIssueRunnerOffline := $"runner_offline".
Definition DatabaseProtectionIssueRunnerToolMissing := $"runner_tool_missing".
Definition DatabaseProtectionIssueStoragePostureFailed := $"storage_posture_failed".
Definition DatabaseProtectionIssueRestoreDrillMissing := $"restore_drill_missing".
Definition DatabaseProtectionIssueRestoreDrillFailed := $"restore_drill_failed".
Definition DatabaseProtectionIssueReplicaDelayUnavailable := $"replica_delay_unavailable".
Definition DatabaseProtectionIssueArchiveLagHigh := $"archive_lag_high".

Record DatabaseProtectionProfileListRequest := {
  lp_Page : Z; lp_PageSize : Z; lp_Keyword : gostring; lp_InstanceID : Z; lp_Engine : gostring;
  lp_ProtectionMode : gostring; lp_ProtectionLevel : gostring; lp_RiskLevel : gostring;
  lp_RestrictToAllowed : bool; lp_AllowedInstanceIDs : list Z }.

Record DatabaseProtectionRiskListRequest := {
  lk_Page : Z; lk_PageSize : Z; lk_Keyword : gostring; lk_InstanceID : Z; lk_Engine : gostring;
  lk_RiskLevel : gostring; lk_IssueType : gostring; lk_ProductionOnly : gostring;
  lk_RestrictToAllowed : bool; lk_AllowedInstanceIDs : list Z }.

(** What a risk repeats of its profile is the profile. *)
Record DatabaseProtectionRiskVO := {
  rk_ID : gostring; rk_profile : DatabaseProtectionProfileVO; rk_RiskLevel : gostring;
  rk_IssueType : gostring; rk_Message : gostring; rk_Action : gostring;
  rk_ActionText : gostring; rk_Blocking : bool }.
Definition rk_InstanceID (r : DatabaseProtectionRiskVO) : Z := pf_InstanceID (rk_profile r).

(** Page and size of a request: from 1, by 10, at most 100 rows. *)
Definition listed_page (page : Z) : Z := if page <=? 0 then 1 else page.
Definition listed_size (pageSize : Z) : Z :=
  if pageSize <=? 0 then 10 else if 100 <? pageSize then 100 else pageSize.

Section operations.
Context `{U : UnicodeTables, L : GoLib, P : ProtectionLib} (v : view).

Definition ProfileID (p : DatabaseProtectionProfileVO) : gostring :=
  protectionProfileIDPrefix ++ fmt_d (pf_InstanceID p).

(** The second part of [a:b:...], else the text without the prefix. *)
Definition ProtectionProfileInstanceID (profileID : gostring) : result Z :=
  let value := TrimSpace profileID in
  if bool_decide (value = []) then Err $"保护策略ID不能为空"
  else
    let value := TrimPrefix value protectionProfileIDPrefix in
    let value := match split_at 58 value with
                 | _ :: second :: _ => second
                 | _ => value
                 end in
    match ParseUint value 10 64 with
    | Ok id => if id =? 0 then Err $"保护策略ID格式不正确" else Ok id
    | Err _ => Err $"保护策略ID格式不正确"
    end.

Definition normalizeProtectionProfileListRequest (req : DatabaseProtectionProfileListRequest)
    : DatabaseProtectionProfileListRequest := {|
  lp_Page := listed_page (lp_Page req); lp_PageSize := listed_size (lp_PageSize req);
  lp_Keyword := TrimSpace (lp_Keyword req); lp_InstanceID := lp_InstanceID req;
  lp_Engine := normalizeDBType (lp_Engine req);
  lp_ProtectionMode := TrimSpace (lp_ProtectionMode req);
  lp_ProtectionLevel := TrimSpace (lp_ProtectionLevel req);
  lp_RiskLevel := TrimSpace (lp_RiskLevel req);
  lp_RestrictToAllowed := lp_RestrictToAllowed req;
  lp_AllowedInstanceIDs := lp_AllowedInstanceIDs req |}.

Definition profileInstanceAllowed (req : DatabaseProtectionProfileListRequest) (id : Z) : bool :=
  negb (lp_RestrictToAllowed req) || existsb (fun i => i =? id) (lp_AllowedInstanceIDs req).

Definition profileInstanceMatches (i : ManagedInstance) (req : DatabaseProtectionProfileListRequest)
    : bool :=
  if negb (bool_decide (lp_Engine req = [])) &&
     negb (bool_decide (normalizeDBType (i_DBType (mi_row i)) = lp_Engine req))
  then false
  else bool_decide (lp_Keyword req = []) ||
       Contains (ToLower (Join [i_Name (mi_row i); i_Host (mi_row i); i_DefaultDatabase (mi_row i);
                                mi_BusinessSystem i; mi_Owner i] $" ")) (ToLower (lp_Keyword req)).

Definition asks (wanted value : gostring) : bool :=
  bool_decide (wanted = []) || bool_decide (value = wanted).
Definition profileMatchesRequest (p : DatabaseProtectionProfileVO)
    (req : DatabaseProtectionProfileListRequest) : bool :=
  asks (lp_ProtectionMode req) (ProtectionMode p) &&
  asks (lp_ProtectionLevel req) (ProtectionLevel p) && asks (lp_RiskLevel req) (RiskLevel p).

Definition profile_less (a b : DatabaseProtectionProfileVO) : bool :=
  let ra := protectionRiskRank (RiskLevel a) in
  let rb := protectionRiskRank (RiskLevel b) in
  let la := protectionLevelRank (ProtectionLevel a) in
  let lb := protectionLevelRank (ProtectionLevel b) in
  if negb (ra =? rb) then rb <? ra
  else if negb (la =? lb) then la <? lb
  else pf_InstanceID b <? pf_InstanceID a.

(** The profiles of a request, before the page is cut. *)
Definition matching_profiles (req : DatabaseProtectionProfileListRequest)
    (instances : list ManagedInstance) : list DatabaseProtectionProfileVO :=
  sort_stable profile_less
    (List.filter (fun p => profileMatchesRequest p req)
       (omap (buildProtectionProfile v)
          (List.filter (fun i => profileInstanceMatches i req) instances))).

Definition ListProtectionProfiles (req : DatabaseProtectionProfileListRequest)
    : result (option (list DatabaseProtectionProfileVO) * Z) :=
  let req := normalizeProtectionProfileListRequest req in
  if 0 <? lp_InstanceID req then
    match instance_GetByID v (lp_InstanceID req) with
    | Err _ => Ok (Some [], 0)
    | Ok instance =>
      if negb (profileInstanceAllowed req (mi_ID instance)) ||
         negb (profileInstanceMatches instance req) then Ok (Some [], 0)
      else match buildProtectionProfile v instance with
           | Some p => if profileMatchesRequest p req then Ok (Some [p], 1) else Ok (Some [], 0)
           | None => Ok (Some [], 0)
           end
    end
  else
    match instance_List v (lp_Keyword req) (lp_Engine req) (lp_RestrictToAllowed req)
            (lp_AllowedInstanceIDs req) with
    | Err e => Err e
    | Ok instances =>
      let profiles := matching_profiles req instances in
      let '(page, pageSize) := normalizeListPage (lp_Page req) (lp_PageSize req) in
      Ok (page_slice page pageSize profiles, Z.of_nat (length profiles))
    end.

Definition GetProtectionProfile (profileID : gostring)
    : result (option DatabaseProtectionProfileVO) :=
  match ProtectionProfileInstanceID profileID with
  | Err e => Err e
  | Ok id =>
    match instance_GetByID v id with
    | Err _ => Err $"数据库实例不存在"
    | Ok i => Ok (buildProtectionProfile v i)
    end
  end.

(** ** Risks *)
Definition issue_of_action (message action : gostring) : option gostring :=
  if one_of action [$"run_full_backup"; $"enable_protection"; $"enable_backup_policy";
                    $"configure_barman_server"]
  then Some DatabaseProtectionIssueMissingFullBackup
  else if one_of action [$"validate_backup_chain"; $"inspect_backup_failure"]
  then Some DatabaseProtectionIssueIncrementalChainBroken
  else if one_of action [$"start_log_archive_stream"; $"inspect_log_archive_stream";
                         $"resume_log_archive_stream"; $"sync_barman_wal"]
  then Some DatabaseProtectionIssueLogChainGap
  else if one_of action [$"configure_runner"; $"repair_runner"]
  then Some DatabaseProtectionIssueRunnerOffline
  else if one_of action [$"check_storage_posture"]
  then Some DatabaseProtectionIssueStoragePostureFailed
  else if one_of action [$"run_restore_drill"]
  then Some (if Contains message $"失败" then DatabaseProtectionIssueRestoreDrillFailed
             else DatabaseProtectionIssueRestoreDrillMissing)
  else if one_of action [$"inspect_archive_lag"]
  then Some DatabaseProtectionIssueArchiveLagHigh
  else if one_of action [$"check_barman_server"; $"sync_barman_catalog"]
  then Some DatabaseProtectionIssueRunnerToolMissing
  else None.

Definition issue_of_message (message : gostring) : gostring :=
  let says (l : list gostring) : bool := existsb (Contains message) l in
  if says [$"缺少可用全量"; $"没有启用备份"; $"未纳管 PostgreSQL Barman"]
  then DatabaseProtectionIssueMissingFullBackup
  else if says [$"断链"; $"备份链"; $"物理备份失败"]
  then DatabaseProtectionIssueIncrementalChainBroken
  else if says [$"归档"; $"WAL"; $"binlog"; $"timeline"]
  then if says [$"延迟超过"] then DatabaseProtectionIssueArchiveLagHigh
       else DatabaseProtectionIssueLogChainGap
  else if says [$"Runner"]
  then if says [$"工具"] || Contains (ToLower message) $"barman"
       then DatabaseProtectionIssueRunnerToolMissing else DatabaseProtectionIssueRunnerOffline
  else if says [$"存储"] then DatabaseProtectionIssueStoragePostureFailed
  else if says [$"恢复演练"; $"proof"]
  then if says [$"失败"] then DatabaseProtectionIssueRestoreDrillFailed
       else DatabaseProtectionIssueRestoreDrillMissing
  else if says [$"延迟副本"] then DatabaseProtectionIssueReplicaDelayUnavailable
  else DatabaseProtectionIssueIncrementalChainBroken.

Definition protectionIssueTypeForRisk (message action : gostring) : gostring :=
  match issue_of_action message (TrimSpace action) with
  | Some issue => issue
  | None => issue_of_message message
  end.

Definition no_action : DatabaseProtectionActionVO := protectionAction [] [] [] false.
Definition protectionActionForMessage (message : gostring)
    (actions : list DatabaseProtectionActionVO) : DatabaseProtectionActionVO :=
  let issue := protectionIssueTypeForRisk message [] in
  match List.find (fun a => bool_decide (protectionIssueTypeForRisk message (ac_Action a) = issue))
          actions with
  | Some a => a
  | None =>
    match List.find ac_Blocking actions with
    | Some a => a
    | None => hd no_action actions
    end
  end.

Definition risk_of (p : DatabaseProtectionProfileVO) (actions : list DatabaseProtectionActionVO)
    (index : nat) (message : gostring) : DatabaseProtectionRiskVO :=
  let action := protectionActionForMessage message actions in
  let issueType := protectionIssueTypeForRisk message (ac_Action action) in
  {| rk_ID := ProfileID p ++ $":" ++ issueType ++ $":" ++ fmt_d (Z.of_nat index);
     rk_profile := p; rk_RiskLevel := firstNonEmpty [ac_Level action; RiskLevel p];
     rk_IssueType := issueType; rk_Message := message; rk_Action := ac_Action action;
     rk_ActionText := ac_Text action; rk_Blocking := ac_Blocking action |}.

Definition profile_actions (p : DatabaseProtectionProfileVO) : list DatabaseProtectionActionVO :=
  match RecommendedActions p with
  | [] => [protectionAction (RiskLevel p) $"inspect_profile" $"查看保护概览" false]
  | actions => actions
  end.

Definition expandProtectionRisks (p : DatabaseProtectionProfileVO) (issueFilter : gostring)
    : list DatabaseProtectionRiskVO :=
  List.filter (fun r => asks issueFilter (rk_IssueType r))
    (imap (risk_of p (profile_actions p)) (RiskMessages p)).

Definition protectionRiskProfileMatches (p : DatabaseProtectionProfileVO)
    (req : DatabaseProtectionRiskListRequest) : bool :=
  if one_of (lk_ProductionOnly req) [$"true"; $"1"]
  then one_of (ToLower (TrimSpace (mi_Environment (pf_instance p))))
         [$"prod"; $"production"; $"生产"]
  else true.

Definition normalizeProtectionRiskListRequest (req : DatabaseProtectionRiskListRequest)
    : DatabaseProtectionRiskListRequest := {|
  lk_Page := listed_page (lk_Page req); lk_PageSize := listed_size (lk_PageSize req);
  lk_Keyword := TrimSpace (lk_Keyword req); lk_InstanceID := lk_InstanceID req;
  lk_Engine := normalizeDBType (lk_Engine req); lk_RiskLevel := TrimSpace (lk_RiskLevel req);
  lk_IssueType := TrimSpace (lk_IssueType req);
  lk_ProductionOnly := TrimSpace (lk_ProductionOnly req);
  lk_RestrictToAllowed := lk_RestrictToAllowed req;
  lk_AllowedInstanceIDs := lk_AllowedInstanceIDs req |}.

Definition profile_request (req : DatabaseProtectionRiskListRequest) (page : Z)
    : DatabaseProtectionProfileListRequest := {|
  lp_Page := page; lp_PageSize := 100; lp_Keyword := lk_Keyword req;
  lp_InstanceID := lk_InstanceID req; lp_Engine := lk_Engine req; lp_ProtectionMode := [];
  lp_ProtectionLevel := []; lp_RiskLevel := lk_RiskLevel req;
  lp_RestrictToAllowed := lk_RestrictToAllowed req;
  lp_AllowedInstanceIDs := lk_AllowedInstanceIDs req |}.

(** The pages of a listing, one after the other until a short one, [pages] at
    most: the loops of [ListProtectionRisks] and of the alert rules. *)
Fixpoint all_pages {A} (list_page : Z -> result (option (list A) * Z)) (size : Z) (pages : nat)
    (page : Z) : result (option (list A)) :=
  match pages with
  | O => Ok (Some [])
  | S pages =>
    match list_page page with
    | Err e => Err e
    | Ok (None, _) => Ok None
    | Ok (Some items, _) =>
      if Z.of_nat (length items) <? size then Ok (Some items)
      else match all_pages list_page size pages (page + 1) with
           | Err e => Err e
           | Ok None => Ok None
           | Ok (Some rest) => Ok (Some (items ++ rest))
           end
    end
  end.

Definition risks_of (req : DatabaseProtectionRiskListRequest)
    (profiles : list DatabaseProtectionProfileVO) : list DatabaseProtectionRiskVO :=
  List.filter (fun p => protectionRiskProfileMatches p req) profiles ≫=
  fun p => expandProtectionRisks p (lk_IssueType req).

Definition risk_less (a b : DatabaseProtectionRiskVO) : bool :=
  let ra := protectionRiskRank (rk_RiskLevel a) in
  let rb := protectionRiskRank (rk_RiskLevel b) in
  if negb (ra =? rb) then rb <? ra
  else if negb (Bool.eqb (rk_Blocking a) (rk_Blocking b)) then rk_Blocking a
  else rk_InstanceID b <? rk_InstanceID a.

Definition ListProtectionRisks (req : DatabaseProtectionRiskListRequest)
    : result (option (list DatabaseProtectionRiskVO) * Z) :=
  let req := normalizeProtectionRiskListRequest req in
  match all_pages (fun page => ListProtectionProfiles (profile_request req page)) 100 200 1 with
  | Err e => Err e
  | Ok None => Ok (None, 0)
  | Ok (Some profiles) =>
    let risks := sort_stable risk_less (risks_of req profiles) in
    Ok (page_slice (lk_Page req) (lk_PageSize req) risks, Z.of_nat (length risks))
  end.
End operations.
