(* ===== verification/ProtectionFacts.v ===== *)
(** * What the protection profile promises

    The recursion over the primaries ends; a risk level is low exactly when
    everything the assessment looks at is in order; a level of protection is
    always that of an instance with backups of its own; the paged listings
    give every row. *)

From Stdlib Require Import ZArith Lia.
From stdpp Require Import base tactics option list numbers sets relations.
From S2P Require Import Prelude GoStrings GoNumbers SqlGrammar SqlStatement SqlSafety WriteExec.
From S2P Require Import BackupModel BinlogChain LogStream RestorePlan ProtectionModel.
From S2P Require Import ReplicaProtection ReplicaProtectionFacts Protection ProtectionRisk.

Open Scope Z_scope.

Section facts.
Context `{U : UnicodeTables, L : GoLib, P : ProtectionLib}.

(** ** The recursion ends *)
(** The instances that a walk may still visit. *)
Definition unvisited (v : view) (visited : list Z) : list Z :=
  filter (fun id => id ∉ visited) (mi_ID <$> v_instances v).

Lemma unvisited_less v visited id :
  id ∉ visited -> id ∈ mi_ID <$> v_instances v ->
  (length (unvisited v (id :: visited)) < length (unvisited v visited))%nat.
Proof.
  unfold unvisited. generalize (mi_ID <$> v_instances v) as l. intros l Hid Hin.
  assert (Hle : forall l, (length (filter (fun x => x ∉ id :: visited) l)
                  <= length (filter (fun x => x ∉ visited) l))%nat).
  { intros k. induction k as [|x k IH]; [done|]. rewrite !filter_cons.
    repeat case_decide; simpl; set_solver by lia. }
  induction l as [|x l IH]; [by apply not_elem_of_nil in Hin|]. rewrite !filter_cons.
  specialize (Hle l). destruct (decide (x = id)) as [->|Hne].
  - rewrite decide_False by set_solver. rewrite decide_True by done. simpl. lia.
  - assert (id ∈ l) as Hl by set_solver. specialize (IH Hl).
    repeat case_decide; simpl; set_solver by lia.
Qed.

Lemma build_profile_some v fuel instance visited :
  (length (unvisited v (mi_ID instance :: visited)) < fuel)%nat ->
  is_Some (build_profile fuel v instance visited).
Proof.
  revert instance visited. induction fuel as [|fuel IH]; intros i visited Hf; [lia|].
  cbn [build_profile]. cbv zeta.
  set (p := with_role (own_profile v i) (protection_role v (mi_ID i))).
  destruct (negb (inherits (pf_role p)) || (PrimaryInstanceID (pf_role p) =? 0) ||
    bool_decide (PrimaryInstanceID (pf_role p) ∈ mi_ID i :: visited)) eqn:Hstop; [by eexists|].
  bsimpl. destruct (instance_GetByID v (PrimaryInstanceID (pf_role p))) as [primary|e] eqn:Hg;
    [|by eexists].
  apply instance_GetByID_Ok in Hg as [Hin Hid].
  destruct (IH primary (mi_ID i :: visited)) as [pp ->]; [|by eexists].
  assert (mi_ID primary ∉ mi_ID i :: visited) as Hnew by congruence.
  pose proof (unvisited_less v _ _ Hnew (list_elem_of_fmap_2 _ _ _ Hin)). lia.
Qed.

Lemma build_profile_more v fuel fuel' instance visited p :
  (fuel <= fuel')%nat -> build_profile fuel v instance visited = Some p ->
  build_profile fuel' v instance visited = Some p.
Proof.
  revert fuel' instance visited p. induction fuel as [|fuel IH]; intros fuel' i visited p Hle H; [done|].
  destruct fuel' as [|fuel']; [lia|]. cbn [build_profile] in *. cbv zeta in *.
  case_match; [done|]. case_match; [|done].
  destruct (build_profile fuel v _ _) as [pp|] eqn:Hpp; [|done].
  by rewrite (IH fuel' _ _ _ ltac:(lia) Hpp).
Qed.

(** C35: The assessment of an instance ends for every replication relation, the
    circular ones included, and no amount of further turns changes it. *)
Theorem profile_total v instance :
  exists p, buildProtectionProfile v instance = Some p /\
    forall fuel, (length (v_instances v) < fuel)%nat -> build_profile fuel v instance [] = Some p.
Proof.
  assert (Hlen : (length (unvisited v [mi_ID instance]) <= length (v_instances v))%nat).
  { unfold unvisited. rewrite length_filter. by rewrite length_fmap. }
  destruct (build_profile_some v (S (length (v_instances v))) instance []) as [p Hp]; [lia|].
  exists p. split; [by eapply build_profile_more; [|exact Hp]; lia|].
  intros fuel Hf. eapply build_profile_more; [|exact Hp]. lia.
Qed.

(** ** The risk level *)
Definition risk_levels : list gostring :=
  [DatabaseQueryRiskCritical; DatabaseQueryRiskHigh; DatabaseQueryRiskMedium].

(** Every finding has one of the three levels, a message to show, and an
    action of its own level if it has one. *)
Record proper_finding (f : finding) : Prop := {
  ff_level : fg_level f ∈ risk_levels;
  ff_message : TrimSpace (fg_message f) <> [];
  ff_action : forall a, fg_action f = Some a -> ac_Level a = fg_level f }.

Lemma proper_found level message action text blocking :
  level ∈ risk_levels -> TrimSpace message <> [] ->
  Forall proper_finding (found_risk level message action text blocking).
Proof. intros Hl Hm. constructor; [|constructor]. split; [done..|]. by intros a [= <-]. Qed.
Lemma proper_plain level message :
  level ∈ risk_levels -> TrimSpace message <> [] -> Forall proper_finding (plain_risk level message).
Proof. intros Hl Hm. constructor; [|constructor]. by split. Qed.
Lemma proper_when b l : Forall proper_finding l -> Forall proper_finding (when b l).
Proof. by destruct b. Qed.

Ltac proper :=
  repeat first
    [ apply proper_when | apply list.Forall_nil_2 | apply list.Forall_app_2
    | apply proper_found; [by apply (bool_decide_unpack _) | try by vm_compute]
    | apply proper_plain; [by apply (bool_decide_unpack _) | try by vm_compute]
    | match goal with |- Forall _ (if ?b then _ else _) => destruct b end
    | match goal with |- Forall _ (match ?x with _ => _ end) => destruct x end
    | progress cbv zeta ].

Lemma findings_proper p : Forall proper_finding (protection_findings p).
Proof.
  unfold protection_findings, coverage_findings, policy_findings, task_findings, barman_findings,
    stream_findings, runner_findings, storage_findings, drill_findings, replica_findings.
  proper. apply (TrimSpace_nonblank 80); [|done]. apply elem_of_app. left.
  apply (bool_decide_unpack _). by vm_compute.
Qed.

Lemma findings_risk_low l :
  Forall proper_finding l -> (findings_risk l).1 = DatabaseQueryRiskLow <-> l = [].
Proof.
  intros Hl. unfold findings_risk. split; [|by intros ->].
  destruct l as [|f l]; [done|]. intros H. exfalso. inversion Hl as [|?? [Hf _ _] _]; subst.
  unfold some_finding in H. cbn [existsb] in H.
  repeat (apply elem_of_cons in Hf as [Hf|Hf]; [rewrite Hf in H; repeat case_match; bsimpl; simplify_eq/=; try done|]);
    try by apply not_elem_of_nil in Hf.
Qed.

(** What a low risk stands for, part by part. *)
Definition policy_in_order (p : DatabaseProtectionProfileVO) : Prop :=
  forall b, BackupPolicy (pf_parts p) = Some b ->
    bp_Enabled b = true /\ bp_Status b <> DatabaseBackupPolicyStatusDisabled /\
    bp_Status b <> DatabaseBackupPolicyStatusFailed /\
    bp_LastStatus b <> DatabaseBackupStatusFailed /\
    exists c, bp_Chain b = Some c /\ cs_CurrentBaseRecordID c <> 0 /\
      cs_Status c ∉ [DatabaseBackupChainStateBroken; DatabaseBackupChainStateDegraded;
                     DatabaseBackupChainStateConsolidating].
Definition task_in_order (p : DatabaseProtectionProfileVO) : Prop :=
  forall t, LogicalTask (pf_parts p) = Some t -> tv_LastStatus t <> DatabaseBackupStatusFailed.
Definition covered (p : DatabaseProtectionProfileVO) : Prop :=
  has_own_backup (pf_parts p) = true \/
  inherits (pf_role p) = true /\ InheritedProtection (pf_inheritance p) = true /\
  InheritedProtectionRiskLevel (pf_inheritance p) ∉ risk_levels.
Definition barman_in_order (p : DatabaseProtectionProfileVO) : Prop :=
  ProtectionMode p = DatabaseProtectionModePostgresBarmanPITR ->
    TimelineMismatch (pf_postgres p) = false /\ WALGapCount (pf_postgres p) <= 0 /\
    exists s, BarmanServer (pf_parts p) = Some s /\
      bv_Status s ∉ [DatabaseBarmanServerStatusFailed; DatabaseBarmanServerStatusDegraded;
                     DatabaseBarmanServerStatusDisabled] /\
      TrimSpace (bv_LastCheckStatus s) <> DatabaseRunnerJobStatusFailed.
Definition logs_in_order (p : DatabaseProtectionProfileVO) : Prop :=
  isPITRProtectionMode (ProtectionMode p) = true ->
    exists s, LogArchiveStream (pf_parts p) = Some s /\
      stream_status s ∉ [DatabaseLogArchiveStreamStatusFailed;
        DatabaseLogArchiveStreamStatusDegraded; DatabaseLogArchiveStreamStatusPaused;
        DatabaseLogArchiveStreamStatusDisabled] /\
      (0 < stream_RPO s -> RPOLagSeconds (pf_times p) <= stream_RPO s) /\
      TrimSpace (stream_LastError s) = [].
Definition runner_in_order (p : DatabaseProtectionProfileVO) : Prop :=
  match RunnerHost (pf_parts p) with
  | None => BackupPolicy (pf_parts p) = None /\ LogArchiveStream (pf_parts p) = None
  | Some h => h_Enabled h = true /\ h_Status h = DatabaseRunnerHostStatusOnline
  end.
Definition storage_in_order (p : DatabaseProtectionProfileVO) : Prop :=
  forall s, StorageProfile (pf_parts p) = Some s ->
    StorageStatus (pf_states p) ∉ [$"failed"; $"warning"; $"unknown"].
Definition drill_in_order (p : DatabaseProtectionProfileVO) : Prop :=
  isPITRProtectionMode (ProtectionMode p) = true ->
    RestoreDrillStatus (pf_states p) ∉ [DatabaseRestoreDrillStatusFailed;
      DatabaseRestoreDrillStatusNone; DatabaseRestoreDrillStatusStale].
Definition replica_in_order (p : DatabaseProtectionProfileVO) : Prop :=
  forall r, ReplicaProtection (pf_parts p) = Some r -> inherits (pf_role p) = false ->
    rp_ProtectionStatus r = DatabaseReplicaProtectionProtected.

Record in_good_order (p : DatabaseProtectionProfileVO) : Prop := {
  go_coverage : covered p; go_policy : policy_in_order p; go_task : task_in_order p;
  go_barman : barman_in_order p; go_logs : logs_in_order p; go_runner : runner_in_order p;
  go_storage : storage_in_order p; go_drill : drill_in_order p; go_replica : replica_in_order p }.

Lemma when_nil b l : l <> [] -> when b l = [] <-> b = false.
Proof. by destruct b. Qed.
Lemma one_of_case s l : (one_of s l = true /\ s ∈ l) \/ (one_of s l = false /\ s ∉ l).
Proof. destruct (one_of s l) eqn:E; [left | right]; split; try done; by apply one_of_true || by apply one_of_false. Qed.

(** Split every test of a group of findings; the findings of a branch are a
    list with an element or none. *)
Ltac split_tests :=
  repeat match goal with
  | |- context [one_of ?s ?l] =>
      let H := fresh "Hof" in destruct (one_of_case s l) as [[-> H]|[-> H]]
  | |- context [bool_decide ?P] => let H := fresh "Hdec" in destruct (bool_decide_reflect P) as [H|H]
  end; cbn [when negb andb orb app found_risk plain_risk].

Lemma coverage_nil p : coverage_findings p = [] <-> covered p.
Proof.
  unfold coverage_findings, covered.
  destruct (has_own_backup (pf_parts p)); [by split; [left|]|].
  destruct (inherits (pf_role p)), (InheritedProtection (pf_inheritance p)); cbn [andb];
    try (split; [done | intros [?|(? & ? & ?)]; done]).
  split_tests; (split; [| intros [?|(_ & _ & Hn)]; [done|]]); try done.
  all: unfold risk_levels in *; set_solver.
Qed.

Lemma policy_nil p : policy_findings p = [] <-> policy_in_order p.
Proof.
  unfold policy_findings, policy_in_order, ChainStatus, policy_chain.
  destruct (BackupPolicy (pf_parts p)) as [b|]; [|by split; [intros _ ? ?|]].
  rewrite !app_nil, !when_nil by done. split.
  - intros (H1 & H2 & H3 & H4) b' [= <-]. bsimpl.
    destruct (bp_Chain b) as [c|]; [|done]. cbn [from_option] in *.
    repeat split; try done. exists c. split; [done|]. split; [done|].
    revert H4. split_tests; try done. intros _. set_solver.
  - intros H. destruct (H b eq_refl) as (-> & H1 & H2 & H3 & c & -> & H4 & H5).
    cbn [from_option]. rewrite !bool_decide_eq_false_2 by done.
    split; [done|]. split; [done|]. split; [by apply Z.eqb_neq|].
    split_tests; try done; set_solver.
Qed.

Lemma task_nil p : task_findings p = [] <-> task_in_order p.
Proof.
  unfold task_findings, task_in_order. destruct (LogicalTask (pf_parts p)) as [t|]; [|done].
  rewrite when_nil, bool_decide_eq_false by done. split; [by intros ? ? [= <-] | by eauto].
Qed.

Lemma barman_nil p : barman_findings p = [] <-> barman_in_order p.
Proof.
  unfold barman_findings, barman_in_order.
  destruct (bool_decide_reflect (ProtectionMode p = DatabaseProtectionModePostgresBarmanPITR)) as [Hm|];
    [|by split].
  cbn [when]. destruct (BarmanServer (pf_parts p)) as [s|].
  - rewrite !app_nil, !when_nil by done. rewrite Z.ltb_ge, bool_decide_eq_false.
    split.
    + intros ([H1 H2] & H3 & H4) _. split; [done|]. split; [done|]. exists s. split; [done|].
      split; [|done]. revert H1. split_tests; try done. set_solver.
    + intros H. destruct (H Hm) as (H1 & H2 & s' & [= <-] & H3 & H4).
      split; [|done]. split; [|done]. split_tests; try done; set_solver.
  - split; [done|]. intros H. by destruct (H Hm) as (_ & _ & ? & ? & _).
Qed.

Lemma logs_nil p : stream_findings p = [] <-> logs_in_order p.
Proof.
  unfold stream_findings, logs_in_order.
  destruct (isPITRProtectionMode (ProtectionMode p)); [|by split].
  cbn [when]. destruct (LogArchiveStream (pf_parts p)) as [s|].
  - rewrite !app_nil, !when_nil by done. rewrite negb_false_iff, bool_decide_eq_true, andb_false_iff, !Z.ltb_ge.
    split.
    + intros (H1 & H2 & H3) _. exists s. split; [done|].
      split; [|split; [lia|done]]. revert H1. split_tests; try done. set_solver.
    + intros H. destruct (H eq_refl) as (s' & [= <-] & H1 & H2 & H3).
      split; [|split; [lia|done]]. split_tests; try done; set_solver.
  - split; [done|]. intros H. by destruct (H eq_refl) as (? & ? & _).
Qed.

Lemma runner_nil p : runner_findings p = [] <-> runner_in_order p.
Proof.
  unfold runner_findings, runner_in_order. destruct (RunnerHost (pf_parts p)) as [h|].
  - destruct (h_Enabled h); cbn [negb orb]; [|by split; [|intros [? _]]].
    split_tests; split; try naive_solver. intros [_ Hs]. rewrite Hs in Hof. set_solver.
  - rewrite when_nil by done.
    by destruct (BackupPolicy (pf_parts p)), (LogArchiveStream (pf_parts p)); split; try done; intros [? ?].
Qed.

Lemma storage_nil p : storage_findings p = [] <-> storage_in_order p.
Proof.
  unfold storage_findings, storage_in_order.
  destruct (StorageProfile (pf_parts p)) as [s|]; [|by split].
  split_tests; (split; [| intros H; specialize (H s eq_refl)]); try done; set_solver.
Qed.

Lemma drill_nil p : drill_findings p = [] <-> drill_in_order p.
Proof.
  unfold drill_findings, drill_in_order.
  destruct (isPITRProtectionMode (ProtectionMode p)); [|by split].
  split_tests; (split; [| intros H; specialize (H eq_refl)]); try done; set_solver.
Qed.

Lemma replica_nil p : replica_findings p = [] <-> replica_in_order p.
Proof.
  unfold replica_findings, replica_in_order.
  destruct (ReplicaProtection (pf_parts p)) as [r|]; [|by split].
  rewrite when_nil, andb_false_iff, !negb_false_iff, bool_decide_eq_true by done.
  destruct (inherits (pf_role p)); naive_solver.
Qed.

Lemma findings_nil p : protection_findings p = [] <-> in_good_order p.
Proof.
  unfold protection_findings. rewrite !app_nil, coverage_nil, policy_nil, task_nil, barman_nil,
    logs_nil, runner_nil, storage_nil, drill_nil, replica_nil.
  split; [intros (?&?&?&?&?&?&?&?&?); by split | by intros [H1 H2 H3 H4 H5 H6 H7 H8 H9]].
Qed.

Lemma low_risk_spec p :
  (RiskLevel (applyProtectionAssessment p) = DatabaseQueryRiskLow <-> in_good_order p) /\
  (RiskMessages (applyProtectionAssessment p) = [] <-> in_good_order p).
Proof.
  cbn [applyProtectionAssessment RiskLevel RiskMessages].
  rewrite (findings_risk_low _ (findings_proper p)), <-findings_nil. split; [done|]. split.
  - pose proof (findings_proper p) as Hp. destruct (protection_findings p) as [|f l]; [done|].
    inversion Hp as [|?? [_ Hm _] _]; subst. intros H. exfalso. revert H.
    apply (unique_nonblank _ (fg_message f)); [by left | done].
  - by intros ->.
Qed.

Lemma build_assessed fuel v i visited p :
  build_profile fuel v i visited = Some p -> exists q, p = applyProtectionAssessment q.
Proof.
  destruct fuel as [|fuel]; [done|]. cbn [build_profile]. cbv zeta.
  repeat case_match; intros [= <-]; eauto.
Qed.

Lemma build_profile_instance v i p : buildProtectionProfile v i = Some p -> pf_InstanceID p = mi_ID i.
Proof.
  unfold buildProtectionProfile, buildProtectionProfileWithVisited. cbn [build_profile]. cbv zeta.
  repeat case_match; by intros [= <-].
Qed.

(** C17: A verdict of no risk is given exactly when everything the assessment looks
    at is in order, and it is the verdict of the profiles that show no message. *)
Theorem low_risk_iff v i p :
  buildProtectionProfile v i = Some p ->
  (RiskLevel p = DatabaseQueryRiskLow <-> in_good_order p) /\
  (RiskMessages p = [] <-> in_good_order p).
Proof.
  intros [q ->]%build_assessed. destruct (low_risk_spec q) as [Hl Hm].
  assert (Hq : in_good_order (applyProtectionAssessment q) <-> in_good_order q).
  { by split; intros []. }
  by rewrite Hq.
Qed.

(** ** The level of protection *)
Definition own (v : view) (i : ManagedInstance) : DatabaseProtectionProfileVO :=
  with_role (own_profile v i) (protection_role v (mi_ID i)).
Definition own_level (v : view) (i : ManagedInstance) : gostring := deriveProtectionLevel (own v i).

(** [j] is the primary that [i] inherits its protection from. *)
Definition primary_of (v : view) (i j : ManagedInstance) : Prop :=
  inherits (pf_role (own v i)) = true /\
  instance_GetByID v (PrimaryInstanceID (protection_role v (mi_ID i))) = Ok j.

Definition levels : list gostring :=
  [DatabaseProtectionLevelNone; DatabaseProtectionLevelBackupOnly; DatabaseProtectionLevelPITRCapable;
   DatabaseProtectionLevelPITRVerified; DatabaseProtectionLevelHAAndPITRVerified].

Lemma own_level_known v i : own_level v i ∈ levels.
Proof.
  unfold own_level, deriveProtectionLevel, own. cbn [pf_inheritance with_role own_profile InheritedProtection].
  rewrite andb_false_r. repeat case_match; unfold levels; set_solver.
Qed.

Lemma known_level_text l : l ∈ levels -> firstNonEmpty [l; DatabaseProtectionLevelBackupOnly] = l.
Proof.
  assert (H : Forall (fun l => firstNonEmpty [l; DatabaseProtectionLevelBackupOnly] = l) levels).
  { unfold levels. repeat constructor; by vm_compute. }
  rewrite list.Forall_forall in H. apply H.
Qed.

(** A replica has the level of its primary, its own when the primary has none. *)
Lemma inherited_level pp p :
  InheritedProtection (pf_inheritance p) = false -> inherits (pf_role p) = true ->
  ProtectionLevel pp ∈ levels ->
  deriveProtectionLevel (inherit_from pp p) =
    if bool_decide (ProtectionLevel pp = DatabaseProtectionLevelNone)
    then deriveProtectionLevel p else ProtectionLevel pp.
Proof.
  intros Hi Hr Hl.
  assert (Hs : one_of (ProtectionLevel pp) [[]; DatabaseProtectionLevelNone] =
               bool_decide (ProtectionLevel pp = DatabaseProtectionLevelNone)).
  { case_bool_decide as Hn; [rewrite Hn; apply one_of_true; set_solver|].
    apply one_of_false, two_not. split; [|done]. intros He. rewrite He in Hl.
    revert Hl. by apply (bool_decide_unpack _). }
  unfold inherit_from. rewrite Hs. case_bool_decide as Hn; cbn [negb].
  - unfold deriveProtectionLevel. cbn [pf_role pf_parts pf_states pf_inheritance InheritedProtection ProtectionMode].
    by rewrite Hr, Hi.
  - unfold deriveProtectionLevel at 1.
    cbn [pf_role pf_inheritance InheritedProtection InheritedProtectionLevel]. rewrite Hr.
    apply (known_level_text _ Hl).
Qed.

Lemma build_level v fuel i visited p :
  build_profile fuel v i visited = Some p ->
  exists j, rtc (primary_of v) i j /\ ProtectionLevel p = own_level v j.
Proof.
  revert i visited p. induction fuel as [|fuel IH]; intros i visited p; [done|].
  cbn [build_profile]. cbv zeta. fold (own v i).
  assert (Hown : ProtectionLevel (applyProtectionAssessment (own v i)) = own_level v i) by done.
  destruct (negb _ || _ || _) eqn:Hstop.
  { intros [= <-]. by exists i. }
  bsimpl. destruct (instance_GetByID v _) as [primary|e] eqn:Hg; [|intros [= <-]; by exists i].
  destruct (build_profile fuel v primary _) as [pp|] eqn:Hpp; [|done]. intros [= <-].
  destruct (IH _ _ _ Hpp) as (j & Hj & Hl).
  cbn [applyProtectionAssessment ProtectionLevel]. rewrite inherited_level; [|done|done|].
  - case_bool_decide; [by exists i|]. exists j. split; [|done].
    eapply rtc_l; [|done]. by split.
  - rewrite Hl. apply own_level_known.
Qed.

(** The time of a drill as text is recent: a time that can be read, and is not
    the zero time, is at most thirty days old.  A time that cannot be read counts
    as recent, as [restoreDrillStatusFromTime] has it. *)
Definition recent_drill (value : gostring) (now : Z) : Prop :=
  forall t, parseProtectionProfileTime value = Some t -> t <> zero_time ->
    now - t <= protectionRestoreDrillFreshDays * day.

(** The instance was restored in a drill: its latest restore job ended well and
    not too long ago; or that job says neither success nor failure (or there is
    none), and the profile has the time of an earlier drill, recent as well. *)
Inductive drilled (v : view) (j : ManagedInstance) : Prop :=
| drilled_by_job job :
    LatestRestoreJob (find_parts v j) = Some job -> jv_ID job <> 0 ->
    jv_Status job ∈ [DatabaseRestoreStatusVerified; DatabaseBackupStatusSuccess;
                     DatabaseRestoreStatusRestored] ->
    recent_drill (firstNonEmpty [jv_FinishedAt job; jv_UpdatedAt job; jv_CreatedAt job]) (v_now v) ->
    drilled v j
| drilled_on_record :
    (forall job, LatestRestoreJob (find_parts v j) = Some job -> jv_ID job <> 0 ->
       jv_Status job ∉ [DatabaseRestoreStatusVerified; DatabaseBackupStatusSuccess;
                        DatabaseRestoreStatusRestored; DatabaseRestoreStatusFailed]) ->
    LastRestoreDrillAt (pf_times (own v j)) <> [] ->
    recent_drill (LastRestoreDrillAt (pf_times (own v j))) (v_now v) ->
    drilled v j.

(** What a level that promises a verified recovery stands for: the backups of
    the instance with a usable chain, a log stream that is enabled and not
    halted (neither failed, disabled nor paused), and a drill. *)
Definition verified_levels : list gostring :=
  [DatabaseProtectionLevelPITRVerified; DatabaseProtectionLevelHAAndPITRVerified].
Record verified_recovery (v : view) (j : ManagedInstance) : Prop := {
  vr_backup : has_own_backup (find_parts v j) = true;
  vr_mode : isPITRProtectionMode (ProtectionMode (own v j)) = true;
  vr_chain : chain_usable (own v j) = true;
  vr_logs : exists s, LogArchiveStream (find_parts v j) = Some s /\ stream_enabled s = true /\
    stream_halted s = false;
  vr_drill : drilled v j }.

Lemma drill_recent value now :
  restoreDrillStatusFromTime value now = DatabaseRestoreDrillStatusSuccess <-> recent_drill value now.
Proof.
  unfold restoreDrillStatusFromTime, recent_drill.
  destruct (parseProtectionProfileTime value) as [t|]; [|by split].
  destruct (Z.eqb_spec t zero_time) as [->|Hz]; [split; [congruence|done]|].
  destruct (Z.ltb_spec (protectionRestoreDrillFreshDays * day) (now - t)) as [Hlt|Hle].
  - split; [done|]. intros H. specialize (H t eq_refl Hz). lia.
  - split; [|done]. intros _ u [= <-] _. exact Hle.
Qed.

(** The status of a job: success only of a job that ended well, [none] only of
    one that says nothing. *)
Lemma job_drill_success job now :
  restoreDrillStatusForJob job now = DatabaseRestoreDrillStatusSuccess ->
  jv_ID job <> 0 /\
  jv_Status job ∈ [DatabaseRestoreStatusVerified; DatabaseBackupStatusSuccess;
                   DatabaseRestoreStatusRestored] /\
  recent_drill (firstNonEmpty [jv_FinishedAt job; jv_UpdatedAt job; jv_CreatedAt job]) now.
Proof.
  unfold restoreDrillStatusForJob. destruct (Z.eqb_spec (jv_ID job) 0); [by intros ?%(bool_decide_pack _)|].
  destruct (one_of _ [DatabaseRestoreStatusVerified; _; _]) eqn:Hs;
    [|destruct (one_of _ [DatabaseRestoreStatusFailed]); by intros ?%(bool_decide_pack _)].
  intros H%drill_recent. split; [done|]. split; [|exact H]. by apply bool_decide_eq_true in Hs.
Qed.

Lemma job_drill_none job now :
  restoreDrillStatusForJob job now = DatabaseRestoreDrillStatusNone -> jv_ID job <> 0 ->
  jv_Status job ∉ [DatabaseRestoreStatusVerified; DatabaseBackupStatusSuccess;
                   DatabaseRestoreStatusRestored; DatabaseRestoreStatusFailed].
Proof.
  unfold restoreDrillStatusForJob. destruct (Z.eqb_spec (jv_ID job) 0); [done|].
  destruct (one_of _ [DatabaseRestoreStatusVerified; _; _]) eqn:Hs.
  { unfold restoreDrillStatusFromTime. repeat case_match; done. }
  destruct (one_of _ [DatabaseRestoreStatusFailed]) eqn:Hf; [done|]. intros _ _.
  apply bool_decide_eq_false in Hs, Hf. set_unfold. naive_solver.
Qed.

(** The status of the drill of a profile: the word of the latest job, else the
    time on record. *)
Lemma drill_status v i :
  RestoreDrillStatus (pf_states (own v i)) =
  let said := match LatestRestoreJob (find_parts v i) with
              | Some job => restoreDrillStatusForJob job (v_now v)
              | None => DatabaseRestoreDrillStatusNone
              end in
  let t := LastRestoreDrillAt (pf_times (own v i)) in
  if bool_decide (said = DatabaseRestoreDrillStatusNone) && negb (bool_decide (t = []))
  then restoreDrillStatusFromTime t (v_now v) else said.
Proof. done. Qed.

Lemma drill_success v i :
  RestoreDrillStatus (pf_states (own v i)) = DatabaseRestoreDrillStatusSuccess -> drilled v i.
Proof.
  rewrite drill_status. cbv zeta.
  destruct (LatestRestoreJob (find_parts v i)) as [job|] eqn:Hj;
    destruct (bool_decide_reflect (LastRestoreDrillAt (pf_times (own v i)) = [])) as [|Ht];
    rewrite ?andb_false_r, ?andb_true_r; cbn [negb].
  - intros (Hid & Hs & Hr)%job_drill_success. by eapply drilled_by_job.
  - destruct (bool_decide_reflect (restoreDrillStatusForJob job (v_now v) = DatabaseRestoreDrillStatusNone))
      as [Hn|]; cbn [andb]; [|intros (Hid & Hs & Hr)%job_drill_success; by eapply drilled_by_job].
    intros Hr%drill_recent. apply drilled_on_record; [|done..].
    intros job' Hj' Hid. rewrite Hj in Hj'. injection Hj' as <-. by eapply job_drill_none.
  - done.
  - cbn [bool_decide]. intros Hr%drill_recent. apply drilled_on_record; [|done..].
    intros job' Hj'. by rewrite Hj in Hj'.
Qed.

Lemma own_level_verified v j :
  own_level v j ∈ verified_levels ->
  verified_recovery v j /\
  (own_level v j = DatabaseProtectionLevelHAAndPITRVerified ->
   exists r, ReplicaProtection (find_parts v j) = Some r /\
     rp_ProtectionStatus r = DatabaseReplicaProtectionProtected).
Proof.
  unfold own_level, deriveProtectionLevel. change (pf_parts (own v j)) with (find_parts v j).
  change (InheritedProtection (pf_inheritance (own v j))) with false. rewrite andb_false_r.
  destruct (has_own_backup (find_parts v j)) eqn:Hb; cbn [negb]; [|by intros ?%(bool_decide_pack _)].
  destruct (isPITRProtectionMode (ProtectionMode (own v j))) eqn:Hm; cbn [negb];
    [|by intros ?%(bool_decide_pack _)].
  destruct (chain_usable (own v j)) eqn:Hc; cbn [negb orb]; [|by intros ?%(bool_decide_pack _)].
  destruct (logs_usable (own v j)) eqn:Hl; cbn [negb]; [|by intros ?%(bool_decide_pack _)].
  destruct (bool_decide_reflect (RestoreDrillStatus (pf_states (own v j)) = DatabaseRestoreDrillStatusSuccess))
    as [Hd|]; [|by intros ?%(bool_decide_pack _)].
  intros _. split.
  - split; [done..| |by apply drill_success]. revert Hl. unfold logs_usable.
    change (pf_parts (own v j)) with (find_parts v j).
    destruct (LogArchiveStream (find_parts v j)) as [s|]; [|done]. intros Hl. bsimpl. by exists s.
  - destruct (ReplicaProtection (find_parts v j)) as [r|]; [|done].
    destruct (bool_decide_reflect (rp_ProtectionStatus r = DatabaseReplicaProtectionProtected)); [|done].
    by exists r.
Qed.

(** A delayed replica of [j] whose last check leaves the window open. *)
Definition open_window (v : view) (j : ManagedInstance) : Prop :=
  exists r c, r ∈ v_replicas v /\ ir_PrimaryInstanceID r = mi_ID j /\ is_delayed r = true /\
    checked v r = Some c /\ ck_Engine c <> DBTypePostgreSQL /\
    exists thresholds, window_holds v thresholds r c.

Lemma protected_replica v j r :
  0 <= mi_ID j -> ReplicaProtection (find_parts v j) = Some r ->
  rp_ProtectionStatus r = DatabaseReplicaProtectionProtected -> open_window v j.
Proof.
  intros Hpos. change (ReplicaProtection (find_parts v j)) with
    (protectionReplicaStatus v (mi_ID j) (normalizeDBType (i_DBType (mi_row j)))).
  unfold protectionReplicaStatus. destruct (_ || _) eqn:Hid; [done|].
  destruct (ListReplicaProtections v _) as [[[[|vo l]|] total]|e] eqn:Hlist; try done.
  intros [= <-] Hp.
  apply (listed_protection _ _ _ _ vo) in Hlist as (primary & replicas & _ & Hm & Hr & ->); [|by left].
  apply orb_false_iff in Hid as [Hid _]. apply Z.eqb_neq in Hid.
  assert (Hj : mi_ID primary = mi_ID j).
  { cbn [matchesReplicaProtectionRequest lr_InstanceID] in Hm.
    destruct (Z.eqb_spec (mi_ID primary) (mi_ID j)) as [|Hne]; [done|].
    by rewrite (proj2 (Z.ltb_lt 0 (mi_ID j))) in Hm by lia. }
  apply protected_window in Hp as (x & c & Hbest & Hw).
  apply prefer_best in Hbest as (Hin & Hc & _).
  apply list_elem_of_In, List.filter_In in Hin as [Hin Hd]. apply list_elem_of_In, Hr in Hin as [Hin Hx].
  exists x, c. split; [done|]. split; [congruence|]. split; [done|]. split; [done|]. split.
  - intros Hpg. by eapply postgres_speaks_against.
  - eauto.
Qed.

(** C16: A level that promises a verified recovery is the level of an instance with
    backups of its own, reached from primary to primary, that has them, a
    usable chain, a log stream that is enabled and neither failed, disabled nor
    paused, and a drill ([drilled]): a latest restore job that succeeded, or
    without a word from that job the time of an earlier drill, in both cases at
    most thirty days old as far as the time can be read; with a replica promised,
    a delayed replica of that instance whose last check, of an engine other
    than PostgreSQL, leaves its window open. *)
Theorem level_grounded v i p :
  buildProtectionProfile v i = Some p ->
  exists j, rtc (primary_of v) i j /\ ProtectionLevel p = own_level v j /\
    (ProtectionLevel p ∈ verified_levels -> verified_recovery v j) /\
    (ProtectionLevel p = DatabaseProtectionLevelHAAndPITRVerified -> 0 <= mi_ID j -> open_window v j).
Proof.
  intros (j & Hj & Hl)%build_level. exists j. split; [done|]. split; [done|]. rewrite Hl. split.
  - apply own_level_verified.
  - intros Hha Hpos. destruct (own_level_verified v j) as [_ Hr].
    2: destruct (Hr Hha) as (r & Hr1 & Hp); by eapply protected_replica.
    rewrite Hha. by apply (bool_decide_unpack _).
Qed.

(** An instance that inherits nothing and is shown with a replica protection
    has a low risk only with a delayed replica whose window is open: one
    without such a replica, or one of PostgreSQL, is always at risk. *)
Theorem low_risk_needs_window v i p :
  buildProtectionProfile v i = Some p -> RiskLevel p = DatabaseQueryRiskLow -> 0 < mi_ID i ->
  inherits (protection_role v (mi_ID i)) = false ->
  forall r, ReplicaProtection (find_parts v i) = Some r -> open_window v i.
Proof.
  intros Hp Hlow Hpos Hrole r Hr.
  assert (p = applyProtectionAssessment (own v i)) as ->.
  { unfold buildProtectionProfile, buildProtectionProfileWithVisited in Hp. cbn [build_profile] in Hp.
    cbv zeta in Hp. cbn [with_role pf_role] in Hp. rewrite Hrole in Hp. by injection Hp. }
  apply low_risk_spec in Hlow as [_ _ _ _ _ _ _ _ Hrep].
  eapply protected_replica; [lia | exact Hr |]. by apply Hrep.
Qed.
End facts.
