(* ===== verification/ProtectionListFacts.v ===== *)
(** * The paged listings give every row

    A page of a listing is the page of its rows as long as its number does not
    overflow, and the loops that read page after page collect every row up to
    their bound; so the risks are those of all the profiles. *)

From Stdlib Require Import ZArith Lia.
From stdpp Require Import base tactics option list numbers.
From S2P Require Import Prelude GoStrings GoNumbers SqlGrammar SqlStatement SqlSafety WriteExec.
From S2P Require Import BackupModel BinlogChain LogStream RestorePlan ProtectionModel.
From S2P Require Import ReplicaProtection ReplicaProtectionFacts Protection ProtectionRisk ProtectionFacts.

Open Scope Z_scope.

(** ** Pages *)
(** The numbers of the pages that do not overflow the start of their slice. *)
Definition page_bound : Z := 2 ^ 54.

Lemma page_start page size :
  1 <= page < page_bound -> 0 < size <= 200 ->
  int64 (int64 (page - 1) * size) = (page - 1) * size.
Proof.
  unfold page_bound. intros Hp Hs.
  rewrite (int64_small (page - 1)) by lia. apply int64_small. nia.
Qed.

Lemma page_slice_rows {A} page size (l : list A) :
  1 <= page < page_bound -> 0 < size <= 200 -> page_slice page size l = Some (page_rows page size l).
Proof.
  intros Hp Hs. unfold page_slice, page_rows. rewrite page_start by done.
  destruct (Z.leb_spec (Z.of_nat (length l)) ((page - 1) * size)).
  - by rewrite drop_ge, take_nil by nia.
  - destruct (Z.ltb_spec ((page - 1) * size) 0); [nia|]. done.
Qed.

(** A page whose number wraps around is not refused: the slice panics. *)
Lemma page_overflow_panics {A} (x : A) : page_slice (2 ^ 60 + 1) 10 [x] = None.
Proof. by vm_compute. Qed.

Lemma all_pages_rows {A} (list_page : Z -> result (option (list A) * Z)) size l :
  0 < size <= 200 ->
  (forall page, 1 <= page < page_bound ->
     exists total, list_page page = Ok (Some (page_rows page size l), total)) ->
  forall pages page, 1 <= page -> page + Z.of_nat pages < page_bound ->
    Z.of_nat (length l) <= (page - 1 + Z.of_nat pages) * size ->
    all_pages list_page size pages page = Ok (Some (drop (Z.to_nat ((page - 1) * size)) l)).
Proof.
  intros Hs Hpage. induction pages as [|pages IH]; intros page H1 Hb Hl; cbn [all_pages].
  - by rewrite drop_ge by nia.
  - destruct (Hpage page) as [total ->]; [lia|]. unfold page_rows.
    set (k := Z.to_nat ((page - 1) * size)). rewrite length_take, length_drop.
    destruct (Z.ltb_spec (Z.of_nat (Nat.min (Z.to_nat size) (length l - k))) size).
    + by rewrite take_ge by (rewrite length_drop; lia).
    + rewrite IH by lia. do 2 f_equal.
      rewrite <-(take_drop (Z.to_nat size) (drop k l)) at 2. rewrite drop_drop. do 2 f_equal. unfold k. nia.
Qed.

Lemma all_pages_all {A} (list_page : Z -> result (option (list A) * Z)) size pages l :
  0 < size <= 200 -> Z.of_nat pages <= 1000 -> Z.of_nat (length l) <= Z.of_nat pages * size ->
  (forall page, 1 <= page < page_bound ->
     exists total, list_page page = Ok (Some (page_rows page size l), total)) ->
  all_pages list_page size pages 1 = Ok (Some l).
Proof.
  intros Hs Hp Hl Hpage. rewrite (all_pages_rows list_page size l) by (done || unfold page_bound; lia).
  done.
Qed.

Lemma all_pages_err {A} (list_page : Z -> result (option (list A) * Z)) size pages e :
  list_page 1 = Err e -> all_pages list_page size (S pages) 1 = Err e.
Proof. intros H. cbn [all_pages]. by rewrite H. Qed.

Lemma listed_size_bounds size : 0 < listed_size size <= 100.
Proof. unfold listed_size. repeat case_match; lia. Qed.

Lemma length_List_filter {A} (f : A -> bool) l : (length (List.filter f l) <= length l)%nat.
Proof. induction l as [|x l IH]; simpl; [done|]. destruct (f x); simpl; lia. Qed.

Section facts.
Context `{U : UnicodeTables, L : GoLib, P : ProtectionLib} (v : view).

(** ** Profiles *)
Lemma instance_List_bound keyword dbType restrict allowed l :
  instance_List v keyword dbType restrict allowed = Ok l -> Z.of_nat (length l) <= 10000.
Proof.
  unfold instance_List, asked. destruct (v_error v QInstances); [done|]. intros [= <-].
  unfold page_rows. rewrite length_take. lia.
Qed.

Lemma matching_length req l :
  (length (matching_profiles v req l) <= length l)%nat.
Proof.
  unfold matching_profiles. rewrite sort_stable_perm, (length_List_filter _).
  assert (Ho : forall k : list ManagedInstance, (length (omap (buildProtectionProfile v) k) <= length k)%nat).
  { intros k. induction k as [|x k IH]; [done|]. cbn [omap list_omap].
    destruct (buildProtectionProfile v x); simpl; lia. }
  rewrite Ho. apply length_List_filter.
Qed.

(** The instances that the risks of a request are taken from, and their
    profiles. *)
Definition profiles_request (req : DatabaseProtectionRiskListRequest)
    : DatabaseProtectionProfileListRequest :=
  normalizeProtectionProfileListRequest (profile_request req 1).
Definition request_instances (req : DatabaseProtectionRiskListRequest) : result (list ManagedInstance) :=
  let r := profiles_request req in
  instance_List v (lp_Keyword r) (lp_Engine r) (lp_RestrictToAllowed r) (lp_AllowedInstanceIDs r).
Definition request_profiles (req : DatabaseProtectionRiskListRequest)
    (instances : list ManagedInstance) : list DatabaseProtectionProfileVO :=
  matching_profiles v (profiles_request req) instances.

(** Every page of the profiles of a request for all the instances. *)
Lemma profiles_page req page :
  lk_InstanceID req <= 0 -> 1 <= page < page_bound ->
  match request_instances req with
  | Err e => ListProtectionProfiles v (profile_request req page) = Err e
  | Ok instances => exists total, ListProtectionProfiles v (profile_request req page) =
      Ok (Some (page_rows page 100 (request_profiles req instances)), total)
  end.
Proof.
  intros Hid Hpage. unfold ListProtectionProfiles, request_instances, profiles_request.
  cbn [profile_request normalizeProtectionProfileListRequest lp_InstanceID lp_Keyword lp_Engine
       lp_RestrictToAllowed lp_AllowedInstanceIDs lp_Page lp_PageSize].
  rewrite (proj2 (Z.ltb_ge 0 (lk_InstanceID req)) Hid).
  destruct (instance_List v _ _ _ _) as [instances|e]; [|done].
  assert (Hp : normalizeListPage (listed_page page) (listed_size 100) = (page, 100)).
  { unfold normalizeListPage, listed_page, listed_size. cbn.
    rewrite (proj2 (Z.leb_gt page 0)) by lia. by rewrite (proj2 (Z.leb_gt page 0)) by lia. }
  rewrite Hp, page_slice_rows by (done || lia). eauto.
Qed.

(** ** Risks *)
(** All the risks of a request, the worst first. *)
Definition request_risks (req : DatabaseProtectionRiskListRequest)
    (instances : list ManagedInstance) : list DatabaseProtectionRiskVO :=
  sort_stable risk_less (risks_of req (request_profiles req instances)).

(** A page of the risks is the page of the risks of every profile, whatever
    the number of instances; the listing fails as that of the instances. *)
Theorem risks_listed req :
  lk_InstanceID req <= 0 -> lk_Page req < page_bound ->
  let nreq := normalizeProtectionRiskListRequest req in
  ListProtectionRisks v req =
    match request_instances nreq with
    | Err e => Err e
    | Ok instances =>
      Ok (Some (page_rows (listed_page (lk_Page req)) (listed_size (lk_PageSize req))
                  (request_risks nreq instances)),
          Z.of_nat (length (request_risks nreq instances)))
    end.
Proof.
  intros Hid Hpage nreq. unfold ListProtectionRisks. fold nreq.
  pose proof (fun page => profiles_page nreq page Hid) as Hp.
  destruct (request_instances nreq) as [instances|e] eqn:Hi.
  - rewrite (all_pages_all _ 100 200 (request_profiles nreq instances)); [| lia | lia | |exact Hp].
    + rewrite page_slice_rows; [done | |]; cbn [nreq normalizeProtectionRiskListRequest lk_Page lk_PageSize].
      * unfold listed_page. destruct (Z.leb_spec (lk_Page req) 0); unfold page_bound in *; lia.
      * pose proof (listed_size_bounds (lk_PageSize req)). lia.
    + pose proof (matching_length (profiles_request nreq) instances).
      apply instance_List_bound in Hi. unfold request_profiles. lia.
  - change 200%nat with (S 199). rewrite (all_pages_err _ 100 199 e); [done|]. apply Hp. by vm_compute.
Qed.
End facts.
