(* ===== verification/BackupAlert.v ===== *)
(** * Backup alerts: [database/backup_alert_rule.go]

    The rules of the backup alerts and the scan of the scheduler: a rule
    collects candidates from the protection risks, the profiles and the failed
    records; every candidate opens or refreshes the alert state of its
    fingerprint, the other firing states of the rule are resolved. *)

From Stdlib Require Import ZArith Lia.
From stdpp Require Import base tactics option list numbers.
From S2P Require Import Prelude GoStrings GoNumbers SqlSafety WriteExec BackupModel.
From S2P Require Import RestorePlan ProtectionModel ReplicaProtection Protection ProtectionRisk.

Open Scope Z_scope.

Definition DatabaseBackupAlertScopeAll := $"all".
Definition DatabaseBackupAlertScopeProduction := $"production".
Definition DatabaseBackupAlertScopeInstance := $"instance".
Definition DatabaseBackupAlertScopeEngine := $"engine".
Definition DatabaseBackupAlertScopeBusinessSystem := $"business_system".
Definition DatabaseBackupAlertScopeOwner := $"owner".
Definition DatabaseBackupAlertStateFiring := $"firing".
Definition DatabaseBackupAlertStateResolved := $"resolved".
Definition DatabaseBackupAlertIssueBackupFailed := $"backup_failed".
Definition DatabaseBackupAlertIssueNoRecentSuccessBackup := $"no_recent_success_backup".
Definition DatabaseBackupAlertIssueRPOBreached := $"rpo_breached".

(** ** Rows and requests *)
Record DatabaseBackupAlertThreshold := {
  NoSuccessBackupHours : Z; RestoreDrillStaleDays : Z; RPOLagGraceMinutes : Z;
  IncludeNonProduction : bool; MinRiskLevel : gostring }.

Record DatabaseBackupAlertRule := {
  ru_ID : Z; ru_Name : gostring; ru_Enabled : bool; ru_ScopeType : gostring;
  ru_InstanceID : Z; ru_Engine : gostring; ru_BusinessSystem : gostring; ru_Owner : gostring;
  ru_IssueTypesJSON : gostring; ru_Severity : gostring; ru_AlertInterval : Z;
  ru_RecoveryNotify : bool; ru_ChannelIDsJSON : gostring; ru_ThresholdJSON : gostring;
  ru_Description : gostring; ru_IssueTypes : list gostring; ru_ChannelIDs : list Z }.

Record DatabaseBackupAlertRuleRequest := {
  qr_Name : gostring; qr_Enabled : bool; qr_ScopeType : gostring; qr_InstanceID : Z;
  qr_Engine : gostring; qr_BusinessSystem : gostring; qr_Owner : gostring;
  qr_IssueTypes : list gostring; qr_Severity : gostring; qr_AlertInterval : Z;
  qr_RecoveryNotify : bool; qr_ChannelIDs : list Z;
  qr_Threshold : DatabaseBackupAlertThreshold; qr_Description : gostring }.

(** What an alert is about: the fields that a candidate and a state share. *)
Record alert_issue := {
  ai_InstanceID : Z; ai_ResourceType : gostring; ai_ResourceID : Z;
  ai_ResourceName : gostring; ai_ResourceTarget : gostring; ai_IssueType : gostring;
  ai_AlertType : gostring; ai_Metric : gostring; ai_Severity : gostring;
  ai_Message : gostring; ai_Suggestion : gostring; ai_RawJSON : gostring }.
Record DatabaseBackupAlertCandidate := { ca_Fingerprint : gostring; ca_issue : alert_issue }.
Record DatabaseBackupAlertState := {
  as_ID : Z; as_RuleID : Z; as_Fingerprint : gostring; as_issue : alert_issue;
  as_Status : gostring; as_FirstFiredAt : Z; as_LastFiredAt : Z;
  as_LastNotifiedAt : option Z; as_ResolvedAt : option Z; as_NotifyCount : Z }.
Record DatabaseBackupAlertNotice := {
  nt_RuleID : Z; nt_Candidate : DatabaseBackupAlertCandidate; nt_Resolved : bool; nt_Test : bool }.

(** [encoding/json] on the columns of a rule and on the context of a candidate. *)
Inductive alert_context :=
| RiskContext (r : DatabaseProtectionRiskVO)
| ProfileContext (p : DatabaseProtectionProfileVO)
| RecordContext (r : DatabaseBackupRecord).
Class AlertLib := {
  json_ids : gostring -> list Z;
  json_threshold : gostring -> DatabaseBackupAlertThreshold;
  marshal_strings : list gostring -> gostring;
  marshal_ids : list Z -> gostring;
  marshal_threshold : DatabaseBackupAlertThreshold -> gostring;
  marshal_context : alert_context -> gostring }.

Section operations.
Context `{U : UnicodeTables, L : GoLib, P : ProtectionLib, A : AlertLib}.

(** ** Normalisation *)
Definition normalizeBackupAlertThreshold (t : DatabaseBackupAlertThreshold)
    : DatabaseBackupAlertThreshold := {|
  NoSuccessBackupHours := if NoSuccessBackupHours t <=? 0 then 24 else NoSuccessBackupHours t;
  RestoreDrillStaleDays := if RestoreDrillStaleDays t <=? 0 then 30 else RestoreDrillStaleDays t;
  RPOLagGraceMinutes := if RPOLagGraceMinutes t <=? 0 then 10 else RPOLagGraceMinutes t;
  IncludeNonProduction := IncludeNonProduction t;
  MinRiskLevel := if bool_decide (TrimSpace (MinRiskLevel t) = []) then DatabaseQueryRiskMedium
                  else MinRiskLevel t |}.

Definition normalizeBackupAlertScope (value : gostring) : gostring :=
  let v := TrimSpace value in
  if one_of v [DatabaseBackupAlertScopeProduction; DatabaseBackupAlertScopeInstance;
    DatabaseBackupAlertScopeEngine; DatabaseBackupAlertScopeBusinessSystem;
    DatabaseBackupAlertScopeOwner]
  then v else DatabaseBackupAlertScopeAll.

Definition normalizeBackupAlertSeverity (value : gostring) : gostring :=
  let v := TrimSpace value in
  if one_of v [DatabaseQueryRiskCritical; DatabaseQueryRiskHigh; DatabaseQueryRiskMedium;
               DatabaseQueryRiskLow]
  then v else DatabaseQueryRiskMedium.

Definition normalizedBackupAlertInterval (value : Z) : Z :=
  if value <=? 0 then 1800 else if value <? 60 then 60 else value.

Definition sanitizeBackupAlertIssueTypes (items : list gostring) : list gostring :=
  uniqueStrings_loop [] items.

Fixpoint sanitize_ids (seen items : list Z) : list Z :=
  match items with
  | [] => []
  | id :: rest =>
    if (id =? 0) || existsb (fun i => i =? id) seen then sanitize_ids seen rest
    else id :: sanitize_ids (id :: seen) rest
  end.
Definition sanitizeUintIDs := sanitize_ids [].

Definition decodeBackupAlertRule (r : DatabaseBackupAlertRule) : DatabaseBackupAlertRule := {|
  ru_ID := ru_ID r; ru_Name := ru_Name r; ru_Enabled := ru_Enabled r;
  ru_ScopeType := normalizeBackupAlertScope (ru_ScopeType r);
  ru_InstanceID := ru_InstanceID r; ru_Engine := ru_Engine r;
  ru_BusinessSystem := ru_BusinessSystem r; ru_Owner := ru_Owner r;
  ru_IssueTypesJSON := ru_IssueTypesJSON r;
  ru_Severity := normalizeBackupAlertSeverity (ru_Severity r);
  ru_AlertInterval := normalizedBackupAlertInterval (ru_AlertInterval r);
  ru_RecoveryNotify := ru_RecoveryNotify r; ru_ChannelIDsJSON := ru_ChannelIDsJSON r;
  ru_ThresholdJSON := ru_ThresholdJSON r; ru_Description := ru_Description r;
  ru_IssueTypes :=
    match ru_IssueTypes r with
    | [] => if bool_decide (TrimSpace (ru_IssueTypesJSON r) = []) then []
            else json_strings (ru_IssueTypesJSON r)
    | l => l
    end;
  ru_ChannelIDs :=
    match ru_ChannelIDs r with
    | [] => if bool_decide (TrimSpace (ru_ChannelIDsJSON r) = []) then []
            else json_ids (ru_ChannelIDsJSON r)
    | l => l
    end |}.

Definition no_threshold : DatabaseBackupAlertThreshold := {|
  NoSuccessBackupHours := 0; RestoreDrillStaleDays := 0; RPOLagGraceMinutes := 0;
  IncludeNonProduction := false; MinRiskLevel := [] |}.
Definition backupAlertThreshold (r : DatabaseBackupAlertRule) : DatabaseBackupAlertThreshold :=
  normalizeBackupAlertThreshold
    (if bool_decide (TrimSpace (ru_ThresholdJSON r) = []) then no_threshold
     else json_threshold (ru_ThresholdJSON r)).

(** A rule from its form; the id is that of the rule that is changed. *)
Definition buildBackupAlertRuleFromRequest (id : Z) (req : option DatabaseBackupAlertRuleRequest)
    : result DatabaseBackupAlertRule :=
  match req with
  | None => Err $"请求不能为空"
  | Some req =>
    if bool_decide (TrimSpace (qr_Name req) = []) then Err $"规则名称不能为空"
    else
      let issues := sanitizeBackupAlertIssueTypes (qr_IssueTypes req) in
      let channels := sanitizeUintIDs (qr_ChannelIDs req) in
      let scope := normalizeBackupAlertScope (qr_ScopeType req) in
      let rule := {|
        ru_ID := id; ru_Name := TrimSpace (qr_Name req); ru_Enabled := qr_Enabled req;
        ru_ScopeType := scope; ru_InstanceID := qr_InstanceID req;
        ru_Engine := TrimSpace (qr_Engine req);
        ru_BusinessSystem := TrimSpace (qr_BusinessSystem req);
        ru_Owner := TrimSpace (qr_Owner req); ru_IssueTypesJSON := marshal_strings issues;
        ru_Severity := normalizeBackupAlertSeverity (qr_Severity req);
        ru_AlertInterval := normalizedBackupAlertInterval (qr_AlertInterval req);
        ru_RecoveryNotify := qr_RecoveryNotify req; ru_ChannelIDsJSON := marshal_ids channels;
        ru_ThresholdJSON := marshal_threshold (normalizeBackupAlertThreshold (qr_Threshold req));
        ru_Description := TrimSpace (qr_Description req); ru_IssueTypes := issues;
        ru_ChannelIDs := channels |} in
      if bool_decide (scope = DatabaseBackupAlertScopeInstance) && (qr_InstanceID req =? 0)
      then Err $"指定实例范围必须选择实例"
      else if bool_decide (scope = DatabaseBackupAlertScopeEngine) &&
              bool_decide (ru_Engine rule = [])
      then Err $"指定引擎范围必须选择数据库引擎"
      else Ok rule
  end.

(** ** Issues and their names *)
Definition normalizedRiskIssueType (issueType : gostring) : gostring :=
  let t := TrimSpace issueType in
  if one_of t [DatabaseProtectionIssueArchiveLagHigh] then DatabaseBackupAlertIssueRPOBreached
  else t.

Definition backupAlertTypeForIssue (issueType : gostring) : gostring :=
  let t := TrimSpace issueType in
  if one_of t [DatabaseBackupAlertIssueBackupFailed] then $"database_backup_failed"
  else if one_of t [DatabaseBackupAlertIssueNoRecentSuccessBackup]
  then $"database_backup_no_recent_success"
  else if one_of t [DatabaseProtectionIssueMissingFullBackup] then $"database_backup_missing_full"
  else if one_of t [DatabaseProtectionIssueIncrementalChainBroken]
  then $"database_backup_chain_broken"
  else if one_of t [DatabaseBackupAlertIssueRPOBreached; DatabaseProtectionIssueArchiveLagHigh]
  then $"database_backup_rpo_breached"
  else if one_of t [DatabaseProtectionIssueLogChainGap] then $"database_backup_log_gap"
  else if one_of t [DatabaseProtectionIssueRestoreDrillMissing] then $"database_restore_drill_stale"
  else if one_of t [DatabaseProtectionIssueRestoreDrillFailed] then $"database_restore_drill_failed"
  else if one_of t [DatabaseProtectionIssueRunnerOffline]
  then $"database_backup_runner_unavailable"
  else if one_of t [DatabaseProtectionIssueRunnerToolMissing]
  then $"database_backup_runner_tool_failed"
  else if one_of t [DatabaseProtectionIssueStoragePostureFailed]
  then $"database_backup_storage_failed"
  else $"database_backup_risk".

Definition backupAlertMetricForIssue (issueType : gostring) : gostring :=
  let t := TrimSpace issueType in
  if one_of t [DatabaseBackupAlertIssueBackupFailed] then $"backup_failed"
  else if one_of t [DatabaseBackupAlertIssueNoRecentSuccessBackup;
    DatabaseProtectionIssueMissingFullBackup; DatabaseProtectionIssueIncrementalChainBroken]
  then $"backup_success_gap"
  else if one_of t [DatabaseBackupAlertIssueRPOBreached; DatabaseProtectionIssueArchiveLagHigh;
    DatabaseProtectionIssueLogChainGap]
  then $"rpo_lag"
  else if one_of t [DatabaseProtectionIssueRestoreDrillMissing;
    DatabaseProtectionIssueRestoreDrillFailed]
  then $"restore_drill_stale"
  else if one_of t [DatabaseProtectionIssueRunnerOffline; DatabaseProtectionIssueRunnerToolMissing]
  then $"runner_status"
  else if one_of t [DatabaseProtectionIssueStoragePostureFailed] then $"storage_posture"
  else $"backup_risk".

Definition backupAlertSeverityRank (value : gostring) : Z := protectionRiskRank (TrimSpace value).

Definition backupAlertFingerprint (ruleID : Z) (resourceType : gostring) (resourceID : Z)
    (issueType : gostring) : gostring :=
  $"database_backup_alert:" ++ fmt_d ruleID ++ $":" ++ TrimSpace resourceType ++ $":" ++
  fmt_d resourceID ++ $":" ++ TrimSpace issueType.

(** ** Which rules look at which rows *)
Definition isBackupAlertProductionEnvironment (value : gostring) : bool :=
  one_of (ToLower (TrimSpace value)) [$"prod"; $"production"; $"生产"; $"生产环境"].

(** The scope of a rule against the instance id, the engine, the environment,
    the business system and the owner of a risk, a profile or an instance. *)
Definition scope_matches (rule : DatabaseBackupAlertRule) (instanceID : Z)
    (engine environment businessSystem owner : gostring) : bool :=
  let s := ru_ScopeType rule in
  if one_of s [DatabaseBackupAlertScopeProduction]
  then isBackupAlertProductionEnvironment environment
  else if one_of s [DatabaseBackupAlertScopeInstance] then instanceID =? ru_InstanceID rule
  else if one_of s [DatabaseBackupAlertScopeEngine] then EqualFold engine (ru_Engine rule)
  else if one_of s [DatabaseBackupAlertScopeBusinessSystem]
  then bool_decide (TrimSpace (ru_BusinessSystem rule) = []) ||
       EqualFold businessSystem (ru_BusinessSystem rule)
  else if one_of s [DatabaseBackupAlertScopeOwner]
  then bool_decide (TrimSpace (ru_Owner rule) = []) || EqualFold owner (ru_Owner rule)
  else true.

Definition backupAlertRuleAcceptsIssue (rule : DatabaseBackupAlertRule) (issueType : gostring)
    : bool :=
  let types := ru_IssueTypes (decodeBackupAlertRule rule) in
  bool_decide (types = []) ||
  existsb (fun t => bool_decide (normalizedRiskIssueType t = normalizedRiskIssueType issueType))
    types.

Definition backupAlertRuleMatchesProfileScope (rule : DatabaseBackupAlertRule)
    (p : DatabaseProtectionProfileVO) : bool :=
  let i := pf_instance p in
  scope_matches rule (pf_InstanceID p) (pf_Engine p) (mi_Environment i) (mi_BusinessSystem i)
    (mi_Owner i).

Definition backupAlertRuleMatchesRisk (rule : DatabaseBackupAlertRule)
    (threshold : DatabaseBackupAlertThreshold) (risk : DatabaseProtectionRiskVO) : bool :=
  if negb (backupAlertRuleAcceptsIssue rule (normalizedRiskIssueType (rk_IssueType risk))) then false
  else if backupAlertSeverityRank (rk_RiskLevel risk) <?
          backupAlertSeverityRank (MinRiskLevel threshold) then false
  else backupAlertRuleMatchesProfileScope rule (rk_profile risk).

Definition backupAlertRuleMatchesInstance (rule : DatabaseBackupAlertRule)
    (instance : option ManagedInstance) : bool :=
  match instance with
  | None => bool_decide (ru_ScopeType rule = DatabaseBackupAlertScopeAll)
  | Some i => scope_matches rule (mi_ID i) (i_DBType (mi_row i)) (mi_Environment i)
                (mi_BusinessSystem i) (mi_Owner i)
  end.

(** ** Candidates *)
Definition candidate_of (rule : DatabaseBackupAlertRule) (issue : alert_issue)
    : DatabaseBackupAlertCandidate := {|
  ca_Fingerprint := backupAlertFingerprint (ru_ID rule) (ai_ResourceType issue)
                      (ai_ResourceID issue) (ai_IssueType issue);
  ca_issue := issue |}.

Definition instance_label (name : gostring) (id : Z) : gostring := firstNonEmpty [name; $"#" ++ fmt_d id].

Definition candidateFromProtectionRisk (rule : DatabaseBackupAlertRule)
    (risk : DatabaseProtectionRiskVO) : DatabaseBackupAlertCandidate :=
  let p := rk_profile risk in
  let issueType := normalizedRiskIssueType (rk_IssueType risk) in
  candidate_of rule {|
    ai_InstanceID := pf_InstanceID p; ai_ResourceType := $"database_instance";
    ai_ResourceID := pf_InstanceID p;
    ai_ResourceName := instance_label (i_Name (mi_row (pf_instance p))) (pf_InstanceID p);
    ai_ResourceTarget := pf_Endpoint p; ai_IssueType := issueType;
    ai_AlertType := backupAlertTypeForIssue issueType;
    ai_Metric := backupAlertMetricForIssue issueType;
    ai_Severity := firstNonEmpty [ru_Severity rule; rk_RiskLevel risk; DatabaseQueryRiskMedium];
    ai_Message := rk_Message risk;
    ai_Suggestion := firstNonEmpty [rk_ActionText risk; rk_Action risk];
    ai_RawJSON := marshal_context (RiskContext risk) |}.

Definition parseBackupAlertTime (value : gostring) : option Z :=
  let value := TrimSpace value in
  if one_of value [[]; $"-"] then None
  else match parse_layouts [RFC3339; local_layout; $"2006-01-02T15:04:05"; $"2006-01-02"] value with
       | Some t => if t =? zero_time then None else Some t
       | None => None
       end.

(** [time.Duration(n) * unit], and [Time.Sub], which stops at the ends. *)
Definition duration (n unit : Z) : Z := int64 (n * unit).
Definition time_sub (a b : Z) : Z := Z.max (- 2 ^ 63) (Z.min (2 ^ 63 - 1) (a - b)).
Definition hour : Z := 3600 * 1000000000.
Definition second : Z := 1000000000.

Definition candidateFromNoRecentSuccessProfile (rule : DatabaseBackupAlertRule)
    (p : DatabaseProtectionProfileVO) (threshold : DatabaseBackupAlertThreshold) (now : Z)
    : option DatabaseBackupAlertCandidate :=
  if (pf_InstanceID p =? 0) || bool_decide (ProtectionLevel p = DatabaseProtectionLevelNone) then None
  else if inherits (pf_role p) && InheritedProtection (pf_inheritance p) then None
  else
    let lastFullAt := parseBackupAlertTime (LastFullAt (pf_times p)) in
    let recent := match lastFullAt with
      | Some t => time_sub now t <? duration (NoSuccessBackupHours threshold) hour
      | None => false
      end in
    if recent then None
    else
      let message := match lastFullAt with
        | None => $"当前实例没有成功全量备份记录"
        | Some _ => $"当前实例超过阈值没有成功全量备份"
        end in
      let issueType := DatabaseBackupAlertIssueNoRecentSuccessBackup in
      Some (candidate_of rule {|
        ai_InstanceID := pf_InstanceID p; ai_ResourceType := $"database_instance";
        ai_ResourceID := pf_InstanceID p;
        ai_ResourceName := instance_label (i_Name (mi_row (pf_instance p))) (pf_InstanceID p);
        ai_ResourceTarget := pf_Endpoint p; ai_IssueType := issueType;
        ai_AlertType := backupAlertTypeForIssue issueType;
        ai_Metric := backupAlertMetricForIssue issueType;
        ai_Severity := firstNonEmpty [ru_Severity rule; DatabaseQueryRiskHigh];
        ai_Message := message ++ $"，阈值 " ++ fmt_d (NoSuccessBackupHours threshold) ++ $" 小时";
        ai_Suggestion := $"检查备份策略并执行一次全量备份";
        ai_RawJSON := marshal_context (ProfileContext p) |}).

Definition databaseInstanceEndpoint (i : ManagedInstance) : gostring :=
  TrimSpace (i_Host (mi_row i)) ++ $":" ++ fmt_d (i_Port (mi_row i)).

Definition candidateFromFailedBackupRecord (rule : DatabaseBackupAlertRule)
    (record : DatabaseBackupRecord) (instance : option ManagedInstance)
    : DatabaseBackupAlertCandidate :=
  let name := $"备份记录 #" ++ fmt_d (r_ID record) in
  let message := firstNonEmpty [r_ErrorMessage record; $"备份执行失败"] in
  let issueType := DatabaseBackupAlertIssueBackupFailed in
  candidate_of rule {|
    ai_InstanceID := rd_InstanceID (r_details record);
    ai_ResourceType := $"database_backup_record"; ai_ResourceID := r_ID record;
    ai_ResourceName := match instance with
                       | Some i => firstNonEmpty [i_Name (mi_row i); name]
                       | None => name
                       end;
    ai_ResourceTarget := from_option databaseInstanceEndpoint [] instance;
    ai_IssueType := issueType; ai_AlertType := backupAlertTypeForIssue issueType;
    ai_Metric := backupAlertMetricForIssue issueType;
    ai_Severity := firstNonEmpty [ru_Severity rule; DatabaseQueryRiskCritical];
    ai_Message := if bool_decide (r_FileName record = []) then message
                  else message ++ $"，文件 " ++ r_FileName record;
    ai_Suggestion := $"查看备份记录和 Runner 日志，修复后重新执行备份";
    ai_RawJSON := marshal_context (RecordContext record) |}.

Definition candidateFromAlertState (s : DatabaseBackupAlertState) : DatabaseBackupAlertCandidate :=
  {| ca_Fingerprint := as_Fingerprint s; ca_issue := as_issue s |}.

(** ** Collecting the candidates of a rule
    The listings of one evaluation read the database one after the other: a
    view for each. A page of these loops never begins before the list (see
    [page_slice]), so that there is no panic to report. *)
Record rule_views := { vw_risks : view; vw_profiles : view; vw_records : view; vw_now : Z }.

Definition no_panic {B} (r : result (option (list B))) : result (list B) :=
  match r with
  | Ok (Some l) => Ok l
  | Ok None => Err $"runtime error: slice bounds out of range"
  | Err e => Err e
  end.

Definition scopedAlertInstanceID (rule : DatabaseBackupAlertRule) : Z :=
  if bool_decide (ru_ScopeType rule = DatabaseBackupAlertScopeInstance) then ru_InstanceID rule else 0.
Definition scopedAlertEngine (rule : DatabaseBackupAlertRule) : gostring :=
  if bool_decide (ru_ScopeType rule = DatabaseBackupAlertScopeEngine) then ru_Engine rule else [].

Definition risk_request (rule : DatabaseBackupAlertRule) (page : Z)
    : DatabaseProtectionRiskListRequest := {|
  lk_Page := page; lk_PageSize := 100; lk_Keyword := [];
  lk_InstanceID := scopedAlertInstanceID rule; lk_Engine := scopedAlertEngine rule;
  lk_RiskLevel := []; lk_IssueType := [];
  lk_ProductionOnly := if bool_decide (ru_ScopeType rule = DatabaseBackupAlertScopeProduction)
                       then $"true" else [];
  lk_RestrictToAllowed := false; lk_AllowedInstanceIDs := [] |}.
Definition collectProtectionRisksForAlertRule (v : view) (rule : DatabaseBackupAlertRule)
    : result (list DatabaseProtectionRiskVO) :=
  no_panic (all_pages (fun page => ListProtectionRisks v (risk_request rule page)) 100 200 1).

Definition rule_profile_request (rule : DatabaseBackupAlertRule) (page : Z)
    : DatabaseProtectionProfileListRequest := {|
  lp_Page := page; lp_PageSize := 100; lp_Keyword := [];
  lp_InstanceID := scopedAlertInstanceID rule; lp_Engine := scopedAlertEngine rule;
  lp_ProtectionMode := []; lp_ProtectionLevel := []; lp_RiskLevel := [];
  lp_RestrictToAllowed := false; lp_AllowedInstanceIDs := [] |}.
Definition collectProtectionProfilesForAlertRule (v : view) (rule : DatabaseBackupAlertRule)
    : result (list DatabaseProtectionProfileVO) :=
  no_panic (all_pages (fun page => ListProtectionProfiles v (rule_profile_request rule page))
              100 200 1).

Definition loadBackupAlertInstance (v : view) (instanceID : Z) : option ManagedInstance :=
  if instanceID =? 0 then None else found (instance_GetByID v instanceID).

Definition defaultInt (value fallback : Z) : Z := if value <=? 0 then fallback else value.

(** Failed records of the last hours, of 500 at most. *)
Definition failed_since (threshold : DatabaseBackupAlertThreshold) (now : Z) : Z :=
  now + duration (- defaultInt (NoSuccessBackupHours threshold) 24) hour.
Definition failed_candidate (v : view) (rule : DatabaseBackupAlertRule)
    (threshold : DatabaseBackupAlertThreshold) (now : Z) (record : DatabaseBackupRecord)
    : option DatabaseBackupAlertCandidate :=
  if r_CreatedAt record <? failed_since threshold now then None
  else
    let instance := loadBackupAlertInstance v (rd_InstanceID (r_details record)) in
    if backupAlertRuleMatchesInstance rule instance
    then Some (candidateFromFailedBackupRecord rule record instance) else None.
Definition collectFailedBackupRecordCandidates (v : view) (rule : DatabaseBackupAlertRule)
    (threshold : DatabaseBackupAlertThreshold) (now : Z)
    : result (list DatabaseBackupAlertCandidate) :=
  if negb (backupAlertRuleAcceptsIssue rule DatabaseBackupAlertIssueBackupFailed) then Ok []
  else
    match no_panic (all_pages (fun page =>
            match record_List v (scopedAlertInstanceID rule) DatabaseBackupStatusFailed page 100 with
            | Err e => Err e
            | Ok records => Ok (Some records, 0)
            end) 100 5 1) with
    | Err e => Err e
    | Ok records => Ok (omap (failed_candidate v rule threshold now) records)
    end.

Definition no_backup_candidate (rule : DatabaseBackupAlertRule)
    (threshold : DatabaseBackupAlertThreshold) (now : Z) (p : DatabaseProtectionProfileVO)
    : option DatabaseBackupAlertCandidate :=
  if negb (backupAlertRuleAcceptsIssue rule DatabaseBackupAlertIssueNoRecentSuccessBackup) ||
     negb (backupAlertRuleMatchesProfileScope rule p)
  then None else candidateFromNoRecentSuccessProfile rule p threshold now.

Definition severity_less (a b : DatabaseBackupAlertCandidate) : bool :=
  backupAlertSeverityRank (ai_Severity (ca_issue b)) <?
  backupAlertSeverityRank (ai_Severity (ca_issue a)).

Definition evaluateBackupAlertRule (vs : rule_views) (rule : DatabaseBackupAlertRule)
    : result (list DatabaseBackupAlertCandidate) :=
  let threshold := backupAlertThreshold rule in
  match collectProtectionRisksForAlertRule (vw_risks vs) rule with
  | Err e => Err e
  | Ok risks =>
    let fromRisks := candidateFromProtectionRisk rule <$>
                       List.filter (backupAlertRuleMatchesRisk rule threshold) risks in
    let fromProfiles :=
      match collectProtectionProfilesForAlertRule (vw_profiles vs) rule with
      | Ok profiles => omap (no_backup_candidate rule threshold (vw_now vs)) profiles
      | Err _ => []
      end in
    match collectFailedBackupRecordCandidates (vw_records vs) rule threshold (vw_now vs) with
    | Err e => Err e
    | Ok failedRecords =>
      Ok (sort_stable severity_less (fromRisks ++ fromProfiles ++ failedRecords))
    end
  end.

(** ** The tables of rules and states, and the notices that were sent
    A notice is kept with what the notifier answered: [None] for a success.
    The fingerprint of a state is unique. *)
Record alert_world := {
  al_rules : list DatabaseBackupAlertRule; al_next_rule : Z;
  al_states : list DatabaseBackupAlertState; al_next_state : Z;
  al_sent : list (DatabaseBackupAlertNotice * Z * option gostring) }.
Abbreviation M := (handler alert_world).

(** What is outside: the views of every rule, the errors of the statements,
    and the notifier, which may answer differently each time. *)
Record alert_env := {
  ae_views : Z -> rule_views;
  ae_list_enabled : option gostring; ae_get_rule : Z -> option gostring;
  ae_save_rule : option gostring; ae_delete_rule : option gostring;
  ae_get_state : gostring -> option gostring;
  ae_create_state : gostring -> option gostring;
  ae_update_state : gostring -> option gostring;
  ae_list_firing : Z -> option gostring;
  ae_notifier : option (nat -> DatabaseBackupAlertNotice -> option gostring) }.

Definition refused_by {B} (e : option gostring) (m : M B) : M B :=
  match e with Some e => h_fail e | None => m end.

Definition set_states (w : alert_world) (l : list DatabaseBackupAlertState) (next : Z) : alert_world := {|
  al_rules := al_rules w; al_next_rule := al_next_rule w; al_states := l; al_next_state := next;
  al_sent := al_sent w |}.

Section scan.
Context (E : alert_env).

Definition state_of (w : alert_world) (fingerprint : gostring) : option DatabaseBackupAlertState :=
  List.find (fun s => bool_decide (as_Fingerprint s = fingerprint)) (al_states w).
Definition state_GetByFingerprint (fingerprint : gostring) : M (option DatabaseBackupAlertState) :=
  refused_by (ae_get_state E fingerprint)
    (w ← h_get; mret (state_of w (TrimSpace fingerprint))).

Definition stored_state (s : DatabaseBackupAlertState) (id : Z) : DatabaseBackupAlertState := {|
  as_ID := id; as_RuleID := as_RuleID s; as_Fingerprint := as_Fingerprint s;
  as_issue := as_issue s; as_Status := as_Status s; as_FirstFiredAt := as_FirstFiredAt s;
  as_LastFiredAt := as_LastFiredAt s; as_LastNotifiedAt := as_LastNotifiedAt s;
  as_ResolvedAt := as_ResolvedAt s; as_NotifyCount := as_NotifyCount s |}.
Definition state_Create (s : DatabaseBackupAlertState) : M unit :=
  refused_by (ae_create_state E (as_Fingerprint s))
    (w ← h_get;
     match state_of w (as_Fingerprint s) with
     | Some _ => h_fail $"Duplicate entry"
     | None => h_put (set_states w (al_states w ++ [stored_state s (al_next_state w)])
                       (al_next_state w + 1))
     end).
Definition state_Update (s : DatabaseBackupAlertState) : M unit :=
  refused_by (ae_update_state E (as_Fingerprint s))
    (w ← h_get;
     h_put (set_states w ((fun x => if as_ID x =? as_ID s then s else x) <$> al_states w)
              (al_next_state w))).
Definition state_ListFiringByRuleID (ruleID : Z) : M (list DatabaseBackupAlertState) :=
  refused_by (ae_list_firing E ruleID)
    (w ← h_get;
     mret (List.filter (fun s => (as_RuleID s =? ruleID) &&
             bool_decide (as_Status s = DatabaseBackupAlertStateFiring)) (al_states w))).

(** A call of the notifier, when there is one: whether it succeeded. *)
Definition send (now : Z) (n : DatabaseBackupAlertNotice) : M (option bool) := fun w =>
  match ae_notifier E with
  | None => (Ok None, w)
  | Some notify =>
    let e := notify (length (al_sent w)) n in
    (Ok (Some (match e with None => true | Some _ => false end)),
     {| al_rules := al_rules w; al_next_rule := al_next_rule w; al_states := al_states w;
        al_next_state := al_next_state w; al_sent := al_sent w ++ [(n, now, e)] |})
  end.

Definition notified (s : DatabaseBackupAlertState) (now : Z) : DatabaseBackupAlertState := {|
  as_ID := as_ID s; as_RuleID := as_RuleID s; as_Fingerprint := as_Fingerprint s;
  as_issue := as_issue s; as_Status := as_Status s; as_FirstFiredAt := as_FirstFiredAt s;
  as_LastFiredAt := as_LastFiredAt s; as_LastNotifiedAt := Some now;
  as_ResolvedAt := as_ResolvedAt s; as_NotifyCount := as_NotifyCount s + 1 |}.

(** The candidate written over the state, new or found. *)
Definition fired (rule : DatabaseBackupAlertRule) (c : DatabaseBackupAlertCandidate)
    (old : option DatabaseBackupAlertState) (now : Z) : DatabaseBackupAlertState :=
  let i := ca_issue c in
  {| as_ID := from_option as_ID 0 old; as_RuleID := ru_ID rule;
     as_Fingerprint := from_option as_Fingerprint (ca_Fingerprint c) old;
     as_issue := {|
       ai_InstanceID := ai_InstanceID i; ai_ResourceType := ai_ResourceType i;
       ai_ResourceID := ai_ResourceID i; ai_ResourceName := ai_ResourceName i;
       ai_ResourceTarget := ai_ResourceTarget i; ai_IssueType := ai_IssueType i;
       ai_AlertType := ai_AlertType i; ai_Metric := ai_Metric i;
       ai_Severity := firstNonEmpty [ai_Severity i; ru_Severity rule; DatabaseQueryRiskMedium];
       ai_Message := ai_Message i; ai_Suggestion := ai_Suggestion i; ai_RawJSON := ai_RawJSON i |};
     as_Status := DatabaseBackupAlertStateFiring;
     as_FirstFiredAt := from_option as_FirstFiredAt now old; as_LastFiredAt := now;
     as_LastNotifiedAt := old ≫= as_LastNotifiedAt; as_ResolvedAt := None;
     as_NotifyCount := from_option as_NotifyCount 0 old |}.

Definition due (rule : DatabaseBackupAlertRule) (old : option DatabaseBackupAlertState) (now : Z)
    : bool :=
  match old with
  | None => true
  | Some s =>
    bool_decide (as_Status s = DatabaseBackupAlertStateResolved) ||
    match as_LastNotifiedAt s with
    | None => true
    | Some t => duration (normalizedBackupAlertInterval (ru_AlertInterval rule)) second <=? time_sub now t
    end
  end.

Definition minute : Z := 60 * 1000000000.
Definition alert_notice (rule : DatabaseBackupAlertRule) (c : DatabaseBackupAlertCandidate)
    (resolved : bool) : DatabaseBackupAlertNotice :=
  {| nt_RuleID := ru_ID rule; nt_Candidate := c; nt_Resolved := resolved; nt_Test := false |}.

(** A row without an id counts as none. *)
Definition known_state (s : option DatabaseBackupAlertState) : option DatabaseBackupAlertState :=
  match s with Some x => if as_ID x =? 0 then None else s | None => None end.

Definition upsertBackupAlertState (rule : DatabaseBackupAlertRule)
    (c : DatabaseBackupAlertCandidate) (now : Z) : M unit :=
  row ← state_GetByFingerprint (ca_Fingerprint c);
  let old := known_state row in
  let s := fired rule c old now in
  answer ← (if due rule old now then send now (alert_notice rule c false) else mret None);
  let s := match answer with
           | None => s
           | Some true => notified s now
           | Some false =>
             match as_LastNotifiedAt s with
             | None => notified s now
             | Some t => if minute <=? time_sub now t then notified s now else s
             end
           end in
  match old with
  | None => state_Create s
  | Some _ => state_Update s
  end.

(** A firing state that the scan did not find again. *)
Definition resolved_state (s : DatabaseBackupAlertState) (now : Z) : DatabaseBackupAlertState := {|
  as_ID := as_ID s; as_RuleID := as_RuleID s; as_Fingerprint := as_Fingerprint s;
  as_issue := as_issue s; as_Status := DatabaseBackupAlertStateResolved;
  as_FirstFiredAt := as_FirstFiredAt s; as_LastFiredAt := now;
  as_LastNotifiedAt := as_LastNotifiedAt s; as_ResolvedAt := Some now;
  as_NotifyCount := as_NotifyCount s |}.
Definition recovery_candidate (s : DatabaseBackupAlertState) : DatabaseBackupAlertCandidate :=
  let c := candidateFromAlertState s in
  let i := ca_issue c in
  {| ca_Fingerprint := ca_Fingerprint c; ca_issue := {|
       ai_InstanceID := ai_InstanceID i; ai_ResourceType := ai_ResourceType i;
       ai_ResourceID := ai_ResourceID i; ai_ResourceName := ai_ResourceName i;
       ai_ResourceTarget := ai_ResourceTarget i; ai_IssueType := ai_IssueType i;
       ai_AlertType := ai_AlertType i; ai_Metric := ai_Metric i; ai_Severity := ai_Severity i;
       ai_Message := $"已恢复：" ++ ai_Message i; ai_Suggestion := ai_Suggestion i;
       ai_RawJSON := ai_RawJSON i |} |}.
Definition resolve (rule : DatabaseBackupAlertRule) (now : Z) (s : DatabaseBackupAlertState)
    : M unit :=
  let s := resolved_state s now in
  answer ← (if ru_RecoveryNotify rule
            then send now (alert_notice rule (recovery_candidate s) true) else mret None);
  state_Update (match answer with Some true => notified s now | _ => s end).

Fixpoint for_each {B} (f : B -> M unit) (l : list B) : M unit :=
  match l with [] => mret tt | x :: l => f x;; for_each f l end.

Definition usable_candidates (l : list DatabaseBackupAlertCandidate)
    : list DatabaseBackupAlertCandidate :=
  List.filter (fun c => negb (bool_decide (TrimSpace (ca_Fingerprint c) = []))) l.
Definition is_current (l : list DatabaseBackupAlertCandidate) (s : DatabaseBackupAlertState) : bool :=
  existsb (fun c => bool_decide (ca_Fingerprint c = as_Fingerprint s)) l.

Definition runBackupAlertRuleScan (rule : DatabaseBackupAlertRule) : M unit :=
  if (ru_ID rule =? 0) || negb (ru_Enabled rule) then mret tt
  else
    let now := vw_now (ae_views E (ru_ID rule)) in
    candidates ← h_lift (evaluateBackupAlertRule (ae_views E (ru_ID rule)) rule);
    let current := usable_candidates candidates in
    for_each (fun c => upsertBackupAlertState rule c now) current;;
    firing ← state_ListFiringByRuleID (ru_ID rule);
    for_each (resolve rule now) (List.filter (fun s => negb (is_current current s)) firing).

Definition rule_ListEnabled : M (list DatabaseBackupAlertRule) :=
  refused_by (ae_list_enabled E)
    (w ← h_get;
     mret (sort_stable (fun a b => ru_ID a <? ru_ID b) (List.filter ru_Enabled (al_rules w)))).

Definition RunBackupAlertScan : M unit :=
  rules ← rule_ListEnabled;
  for_each (fun rule => runBackupAlertRuleScan (decodeBackupAlertRule rule)) rules.

(** ** The rules: create, change, delete, test *)
Definition set_rules (w : alert_world) (l : list DatabaseBackupAlertRule) (next : Z) : alert_world := {|
  al_rules := l; al_next_rule := next; al_states := al_states w;
  al_next_state := al_next_state w; al_sent := al_sent w |}.
Definition rule_GetByID (id : Z) : M DatabaseBackupAlertRule :=
  refused_by (ae_get_rule E id)
    (w ← h_get;
     match List.find (fun r => ru_ID r =? id) (al_rules w) with
     | Some r => mret r
     | None => h_fail ErrRecordNotFound
     end).

(** [gorm] inserts the default of a column for a field that holds its zero
    value: [enabled] and [recovery_notify] are declared with the default true. *)
Definition inserted_rule (r : DatabaseBackupAlertRule) (id : Z) : DatabaseBackupAlertRule := {|
  ru_ID := id; ru_Name := ru_Name r; ru_Enabled := default_true (ru_Enabled r); ru_ScopeType := ru_ScopeType r;
  ru_InstanceID := ru_InstanceID r; ru_Engine := ru_Engine r;
  ru_BusinessSystem := ru_BusinessSystem r; ru_Owner := ru_Owner r;
  ru_IssueTypesJSON := ru_IssueTypesJSON r; ru_Severity := ru_Severity r;
  ru_AlertInterval := ru_AlertInterval r; ru_RecoveryNotify := default_true (ru_RecoveryNotify r);
  ru_ChannelIDsJSON := ru_ChannelIDsJSON r; ru_ThresholdJSON := ru_ThresholdJSON r;
  ru_Description := ru_Description r; ru_IssueTypes := ru_IssueTypes r;
  ru_ChannelIDs := ru_ChannelIDs r |}.
Definition CreateBackupAlertRule (req : option DatabaseBackupAlertRuleRequest)
    : M DatabaseBackupAlertRule :=
  item ← h_lift (buildBackupAlertRuleFromRequest 0 req);
  refused_by (ae_save_rule E)
    (w ← h_get;
     let item := inserted_rule item (al_next_rule w) in
     h_put (set_rules w (al_rules w ++ [item]) (al_next_rule w + 1));;
     mret (decodeBackupAlertRule item)).

Definition UpdateBackupAlertRule (id : Z) (req : option DatabaseBackupAlertRuleRequest)
    : M DatabaseBackupAlertRule :=
  old ← rule_GetByID id;
  rule ← h_lift (buildBackupAlertRuleFromRequest (ru_ID old) req);
  refused_by (ae_save_rule E)
    (w ← h_get;
     h_put (set_rules w ((fun r => if ru_ID r =? ru_ID rule then rule else r) <$> al_rules w)
              (al_next_rule w));;
     mret (decodeBackupAlertRule rule)).

Definition DeleteBackupAlertRule (id : Z) : M unit :=
  rule_GetByID id;;
  refused_by (ae_delete_rule E)
    (w ← h_get;
     h_put (set_rules w (List.filter (fun r => negb (ru_ID r =? id)) (al_rules w)) (al_next_rule w))).

(** A notice that tests the channels of a rule; nothing is stored. *)
Definition TestBackupAlertRule (id now : Z) : M (gostring * gostring) :=
  stored ← rule_GetByID id;
  let rule := decodeBackupAlertRule stored in
  answer ← send now {|
    nt_RuleID := ru_ID rule;
    nt_Candidate := {|
      ca_Fingerprint := $"database_backup_alert_test:" ++ fmt_d (ru_ID rule) ++ $":" ++ fmt_d now;
      ca_issue := {|
        ai_InstanceID := 0; ai_ResourceType := $"database_backup_alert_rule";
        ai_ResourceID := ru_ID rule; ai_ResourceName := ru_Name rule;
        ai_ResourceTarget := $"告警通道测试"; ai_IssueType := $"test";
        ai_AlertType := $"database_backup_alert_test"; ai_Metric := $"backup_alert_test";
        ai_Severity := firstNonEmpty [ru_Severity rule; DatabaseQueryRiskMedium];
        ai_Message := $"数据库备份恢复告警规则「" ++ ru_Name rule ++ $"」测试通知";
        ai_Suggestion := $"如果收到该消息，说明告警通道可用。"; ai_RawJSON := [] |} |};
    nt_Resolved := false; nt_Test := true |};
  mret match answer with
       | None => ($"failed", $"未配置数据库备份告警通知器")
       | Some false => ($"failed", $"测试发送失败")
       | Some true => ($"success", $"测试发送成功")
       end.

(** ** [GetBackupAlertSummary]: the counts of the first 200 rows *)
Record DatabaseBackupAlertSummaryVO := {
  su_RuleTotal : Z; su_RuleEnabled : Z; su_FiringTotal : Z; su_CriticalFiring : Z;
  su_WarningFiring : Z; su_Notified24h : Z }.
Definition count {B} (p : B -> bool) (l : list B) : Z := Z.of_nat (length (List.filter p l)).
Definition is_firing (s : DatabaseBackupAlertState) : bool :=
  bool_decide (as_Status s = DatabaseBackupAlertStateFiring).
Definition state_order (a b : DatabaseBackupAlertState) : bool :=
  if as_LastFiredAt b <? as_LastFiredAt a then true
  else if as_LastFiredAt a <? as_LastFiredAt b then false else as_ID b <? as_ID a.
Definition GetBackupAlertSummary (now : Z) (w : alert_world) : DatabaseBackupAlertSummaryVO :=
  let rules := page_rows 1 200 (sort_stable (by_id_desc ru_ID) (al_rules w)) in
  let firing := List.filter is_firing (al_states w) in
  let states := page_rows 1 200 (sort_stable state_order firing) in
  let critical (s : DatabaseBackupAlertState) : bool :=
    one_of (TrimSpace (ai_Severity (as_issue s))) [DatabaseQueryRiskCritical; DatabaseQueryRiskHigh] in
  {| su_RuleTotal := Z.of_nat (length (al_rules w)); su_RuleEnabled := count ru_Enabled rules;
     su_FiringTotal := Z.of_nat (length firing); su_CriticalFiring := count critical states;
     su_WarningFiring := count (fun s => negb (critical s)) states;
     su_Notified24h := count (fun s =>
       match as_LastNotifiedAt s with Some t => now - day <? t | None => false end) states |}.
End scan.
End operations.
