(* ===== verification/BackupAlertFacts.v ===== *)
(** * What a scan of the backup alerts promises

    The fingerprints of different rules, resources and issues differ; a scan
    leaves exactly the alerts firing that its rule found and touches those of
    no other rule; an alert is announced when it is due and not before. *)

From Stdlib Require Import ZArith Lia.
From stdpp Require Import base tactics option list numbers sets strings pretty.
From S2P Require Import Prelude GoStrings GoNumbers SqlSafety WriteExec BackupModel.
From S2P Require Import RestorePlan ProtectionModel ReplicaProtection Protection ProtectionRisk.
From S2P Require Import ProtectionFacts ProtectionListFacts BackupAlert.

Open Scope Z_scope.

(** ** Fingerprints *)
(** Neither white space nor a colon. *)
Definition word_rune (r : rune) : bool := negb (IsSpace r) && negb (r =? 58).
Definition word (s : gostring) : Prop := Forall (fun r => word_rune r = true) s.

#[export] Instance word_dec s : Decision (word s).
Proof. unfold word. apply _. Defined.

Lemma digit_word r : is_ascii_digit r -> word_rune r = true.
Proof.
  intros Hr. unfold word_rune. rewrite (digit_not_space _ Hr). unfold is_ascii_digit in Hr.
  by rewrite (proj2 (Z.eqb_neq r 58)) by lia.
Qed.
Lemma fmt_d_word z : word (fmt_d z).
Proof.
  unfold word. destruct z as [|p|p].
  - repeat constructor.
  - apply (list.Forall_impl _ _ _ (fmt_d_digits (Z.pos p) ltac:(lia)) digit_word).
  - change (fmt_d (Z.neg p)) with (45 :: fmt_d (Z.pos p)). constructor; [done|].
    apply (list.Forall_impl _ _ _ (fmt_d_digits (Z.pos p) ltac:(lia)) digit_word).
Qed.
Lemma word_trimmed s : word s -> TrimSpace s = s.
Proof.
  intros H. apply TrimSpace_no_space. eapply list.Forall_impl; [exact H|].
  intros r Hr. unfold word_rune in Hr. by bsimpl.
Qed.

(** A text up to its first colon. *)
Lemma colon_split (x x' y y' : gostring) :
  word x -> word x' -> x ++ 58 :: y = x' ++ 58 :: y' -> x = x' /\ y = y'.
Proof.
  intros Hx. revert x'. induction Hx as [|r x Hr Hx IH]; intros x' Hx'.
  - destruct Hx' as [|r' x' Hr' _]; [by intros [= ->]|]. by intros [= <- _].
  - destruct Hx' as [|r' x' Hr' Hx']; [by intros [= -> _]|]. intros [= -> H].
    by destruct (IH _ Hx' H) as [-> ->].
Qed.

(** Different rules, resources or issues have different fingerprints. *)
Theorem fingerprint_injective rule rule' kind kind' id id' issue issue' :
  0 <= rule -> 0 <= rule' -> 0 <= id -> 0 <= id' -> word kind -> word kind' -> word issue -> word issue' ->
  backupAlertFingerprint rule kind id issue = backupAlertFingerprint rule' kind' id' issue' ->
  rule = rule' /\ kind = kind' /\ id = id' /\ issue = issue'.
Proof.
  intros ???? Hk Hk' Hi Hi'. unfold backupAlertFingerprint.
  rewrite !word_trimmed by done. intros Hf%app_inv_head.
  apply colon_split in Hf as [Hr Hf]; [|apply fmt_d_word..].
  apply colon_split in Hf as [Hkind Hf]; [|done..].
  apply colon_split in Hf as [Hid Hf]; [|apply fmt_d_word..].
  split; [by apply fmt_d_inj|]. split; [done|]. split; [by apply fmt_d_inj|done].
Qed.

Definition alert_issues : list gostring :=
  [DatabaseProtectionIssueMissingFullBackup; DatabaseProtectionIssueIncrementalChainBroken;
   DatabaseProtectionIssueLogChainGap; DatabaseProtectionIssueRunnerOffline;
   DatabaseProtectionIssueRunnerToolMissing; DatabaseProtectionIssueStoragePostureFailed;
   DatabaseProtectionIssueRestoreDrillMissing; DatabaseProtectionIssueRestoreDrillFailed;
   DatabaseProtectionIssueReplicaDelayUnavailable; DatabaseProtectionIssueArchiveLagHigh;
   DatabaseBackupAlertIssueBackupFailed; DatabaseBackupAlertIssueNoRecentSuccessBackup;
   DatabaseBackupAlertIssueRPOBreached].
Definition alert_resources : list gostring := [$"database_instance"; $"database_backup_record"].

Lemma known_words : Forall word alert_issues /\ Forall word alert_resources.
Proof. split; apply (bool_decide_unpack _); by vm_compute. Qed.
Lemma issue_word t : t ∈ alert_issues -> word t.
Proof. revert t. apply list.Forall_forall, known_words. Qed.
Lemma resource_word t : t ∈ alert_resources -> word t.
Proof. revert t. apply list.Forall_forall, known_words. Qed.

(** A fingerprint of a rule, as its candidates have them. *)
Definition fingerprint_of (rule : Z) (fp : gostring) : Prop :=
  exists kind id issue, kind ∈ alert_resources /\ issue ∈ alert_issues /\
    fp = backupAlertFingerprint rule kind id issue.

Lemma fingerprint_prefix rule fp : fingerprint_of rule fp ->
  exists rest, fp = $"database_backup_alert:" ++ fmt_d rule ++ 58 :: rest.
Proof. intros (kind & id & issue & _ & _ & ->). by eexists. Qed.

Lemma fingerprint_rule rule rule' fp :
  0 <= rule -> 0 <= rule' -> fingerprint_of rule fp -> fingerprint_of rule' fp -> rule = rule'.
Proof.
  intros Hr Hr' (rest & ->)%fingerprint_prefix (rest' & Hf)%fingerprint_prefix.
  apply app_inv_head, colon_split in Hf as [Hf _]; [|apply fmt_d_word..]. by apply fmt_d_inj.
Qed.

Lemma fingerprint_trimmed rule fp : fingerprint_of rule fp -> TrimSpace fp = fp /\ fp <> [].
Proof.
  intros (kind & id & issue & Hk%resource_word & Hi%issue_word & ->). split;
    [|unfold backupAlertFingerprint; intros [Hf _]%app_nil; vm_compute in Hf; discriminate].
  unfold backupAlertFingerprint. rewrite (word_trimmed kind), (word_trimmed issue) by done.
  apply TrimSpace_no_space.
  assert (Hw : forall s, word s -> Forall (fun r => IsSpace r = false) s).
  { intros s Hs. eapply list.Forall_impl; [exact Hs|]. intros r Hr. unfold word_rune in Hr. by bsimpl. }
  assert (Hp : Forall (fun r => IsSpace r = false) $"database_backup_alert:").
  { apply (bool_decide_unpack _). by vm_compute. }
  assert (Hc : Forall (fun r => IsSpace r = false) $":").
  { apply (bool_decide_unpack _). by vm_compute. }
  rewrite !list.Forall_app. pose proof (fmt_d_word rule). pose proof (fmt_d_word id). auto 10.
Qed.

Section facts.
Context `{U : UnicodeTables, L : GoLib, P : ProtectionLib, A : AlertLib}.

(** ** Candidates *)
Lemma issue_known message action : protectionIssueTypeForRisk message action ∈ alert_issues.
Proof.
  unfold protectionIssueTypeForRisk.
  destruct (issue_of_action message (TrimSpace action)) as [i|] eqn:Hi.
  - revert Hi. unfold issue_of_action. repeat case_match; intros [= <-]; try done;
      apply (bool_decide_unpack _); by vm_compute.
  - unfold issue_of_message. repeat case_match; apply (bool_decide_unpack _); by vm_compute.
Qed.

Lemma normalized_known t : t ∈ alert_issues -> normalizedRiskIssueType t ∈ alert_issues.
Proof.
  intros Ht. unfold normalizedRiskIssueType. rewrite (word_trimmed t) by by apply issue_word.
  destruct (one_of t _); [|done]. apply (bool_decide_unpack _). by vm_compute.
Qed.

Lemma all_pages_elem {B} (list_page : Z -> result (option (list B) * Z)) (good : B -> Prop) size pages :
  (forall page l total, list_page page = Ok (Some l, total) -> Forall good l) ->
  forall page l, all_pages list_page size pages page = Ok (Some l) -> Forall good l.
Proof.
  intros Hgood. induction pages as [|pages IH]; intros page l; cbn [all_pages]; [by intros [= <-]|].
  destruct (list_page page) as [[[items|] total]|e] eqn:Hp; try done.
  apply Hgood in Hp. destruct (_ <? _); [by intros [= <-]|].
  destruct (all_pages list_page size pages (page + 1)) as [[rest|]|e] eqn:Hr; try done.
  intros [= <-]. apply list.Forall_app. split; [done|]. by eapply IH.
Qed.

Lemma no_panic_Ok {B} (r : result (option (list B))) l : no_panic r = Ok l <-> r = Ok (Some l).
Proof. destruct r as [[k|]|e]; simpl; naive_solver. Qed.

Lemma listed_risk_known v req l total :
  ListProtectionRisks v req = Ok (Some l, total) -> Forall (fun r => rk_IssueType r ∈ alert_issues) l.
Proof.
  unfold ListProtectionRisks. destruct (all_pages _ 100 200 1) as [[profiles|]|e]; try done.
  intros [= Hl _]. apply list.Forall_forall. intros r Hr.
  apply (ReplicaProtectionFacts.page_slice_sub _ _ _ _ _ Hl) in Hr.
  rewrite sort_stable_perm in Hr. unfold risks_of in Hr.
  apply list_elem_of_bind in Hr as (p & Hr & _). unfold expandProtectionRisks in Hr.
  apply list_elem_of_In, List.filter_In in Hr as [Hr _]. apply list_elem_of_In in Hr.
  apply elem_of_lookup_imap in Hr as (k & m & -> & _). apply issue_known.
Qed.

Lemma candidate_of_fingerprint rule issue :
  ai_ResourceType issue ∈ alert_resources -> ai_IssueType issue ∈ alert_issues ->
  fingerprint_of (ru_ID rule) (ca_Fingerprint (candidate_of rule issue)).
Proof. intros Hr Hi. by exists (ai_ResourceType issue), (ai_ResourceID issue), (ai_IssueType issue). Qed.

Lemma elem_of_evaluated vs rule l :
  evaluateBackupAlertRule vs rule = Ok l ->
  Forall (fun c => fingerprint_of (ru_ID rule) (ca_Fingerprint c)) l.
Proof.
  unfold evaluateBackupAlertRule.
  destruct (collectProtectionRisksForAlertRule _ _) as [risks|e] eqn:Hrisks; [|done].
  destruct (collectFailedBackupRecordCandidates _ _ _ _) as [failed|e] eqn:Hfailed; [|done].
  intros [= <-]. rewrite sort_stable_perm, !list.Forall_app. split; [|split].
  - apply no_panic_Ok, (all_pages_elem _ (fun r => rk_IssueType r ∈ alert_issues)) in Hrisks;
      [|by intros; eapply listed_risk_known].
    rewrite list.Forall_fmap, list.Forall_forall. intros r Hr%list_elem_of_In%List.filter_In.
    destruct Hr as [Hr _]. apply list_elem_of_In in Hr. rewrite list.Forall_forall in Hrisks.
    apply candidate_of_fingerprint; [apply (bool_decide_unpack _); by vm_compute|].
    by apply normalized_known, Hrisks.
  - destruct (collectProtectionProfilesForAlertRule _ _) as [profiles|e]; [|done].
    apply list.Forall_forall. intros c (p & _ & Hc)%list_elem_of_omap. revert Hc.
    unfold no_backup_candidate, candidateFromNoRecentSuccessProfile.
    repeat case_match; try done; intros [= <-];
      apply candidate_of_fingerprint; apply (bool_decide_unpack _); by vm_compute.
  - revert Hfailed. unfold collectFailedBackupRecordCandidates. destruct (negb _); [by intros [= <-]|].
    destruct (no_panic _) as [records|e]; [|done]. intros [= <-].
    apply list.Forall_forall. intros c (r & _ & Hc)%list_elem_of_omap. revert Hc.
    unfold failed_candidate. repeat case_match; try done; intros [= <-].
    apply candidate_of_fingerprint; apply (bool_decide_unpack _); by vm_compute.
Qed.

(** ** The table of states *)
(** A fingerprint and an id name one row; the ids given out are below the next. *)
Record wf (w : alert_world) : Prop := {
  wf_fingerprints : NoDup (as_Fingerprint <$> al_states w);
  wf_ids : NoDup (as_ID <$> al_states w); wf_positive : 0 < al_next_state w;
  wf_next : Forall (fun s => 0 < as_ID s < al_next_state w) (al_states w) }.

Lemma NoDup_key_inj {B K} (key : B -> K) l x y :
  NoDup (key <$> l) -> x ∈ l -> y ∈ l -> key x = key y -> x = y.
Proof.
  induction l as [|z l IH]; [by intros _ ?%not_elem_of_nil|]. rewrite fmap_cons.
  intros [Hz Hl]%NoDup_cons Hx Hy He.
  apply elem_of_cons in Hx as [->|Hx]; apply elem_of_cons in Hy as [->|Hy]; [done| | |by apply IH].
  - exfalso. apply Hz. rewrite He. by apply list_elem_of_fmap_2.
  - exfalso. apply Hz. rewrite <-He. by apply list_elem_of_fmap_2.
Qed.

Lemma NoDup_key_filter {B K} (key : B -> K) p l : NoDup (key <$> l) -> NoDup (key <$> List.filter p l).
Proof.
  induction l as [|x l IH]; [done|]. rewrite fmap_cons. intros [Hx Hl]%NoDup_cons. cbn [List.filter].
  destruct (p x); [|by apply IH]. rewrite fmap_cons. apply NoDup_cons. split; [|by apply IH].
  intros (y & Hy & Hin)%list_elem_of_fmap. apply Hx. rewrite Hy. apply list_elem_of_fmap_2.
  apply list_elem_of_In, List.filter_In in Hin as [Hin _]. by apply list_elem_of_In.
Qed.

Lemma state_of_Some w fp s :
  wf w -> state_of w fp = Some s <-> s ∈ al_states w /\ as_Fingerprint s = fp.
Proof.
  intros Hw. unfold state_of. split.
  - intros H%List.find_some. destruct H as [Hin Hf]. bsimpl. by apply list_elem_of_In in Hin.
  - intros [Hin <-]. destruct (List.find _ (al_states w)) as [s'|] eqn:Hf.
    + apply List.find_some in Hf as [Hin' Hf]. bsimpl. apply list_elem_of_In in Hin'.
      f_equal. by eapply NoDup_key_inj; [apply Hw|..].
    + apply list_elem_of_In in Hin. eapply List.find_none in Hf; [|exact Hin]. by bsimpl.
Qed.

Lemma state_of_None w fp : state_of w fp = None <-> fp ∉ as_Fingerprint <$> al_states w.
Proof.
  unfold state_of. split.
  - intros Hf (s & -> & Hin)%list_elem_of_fmap. apply list_elem_of_In in Hin.
    eapply List.find_none in Hf; [|exact Hin]. by bsimpl.
  - intros Hn. destruct (List.find _ (al_states w)) as [s|] eqn:Hf; [|done].
    apply List.find_some in Hf as [Hin Hf]. bsimpl. apply list_elem_of_In in Hin. subst.
    exfalso. apply Hn. by apply list_elem_of_fmap_2.
Qed.

Lemma refused_by_Ok {B} e (m : handler alert_world B) w r w' :
  refused_by e m w = (Ok r, w') -> m w = (Ok r, w').
Proof. unfold refused_by. by destruct e. Qed.

Section scan.
Context (E : alert_env).

Lemma create_Ok s w w' :
  wf w -> state_Create E s w = (Ok tt, w') ->
  state_of w (as_Fingerprint s) = None /\
  w' = set_states w (al_states w ++ [stored_state s (al_next_state w)]) (al_next_state w + 1) /\ wf w'.
Proof.
  intros [Hf Hi Hp Hn] H%refused_by_Ok. rewrite h_get_bind in H.
  destruct (state_of w (as_Fingerprint s)) eqn:Hs; [done|]. injection H as <-.
  split; [done|]. split; [done|]. apply state_of_None in Hs.
  rewrite list.Forall_forall in Hn. split; cbn [set_states al_states al_next_state].
  - rewrite fmap_app. apply NoDup_app. split; [done|]. split; [|apply NoDup_singleton].
    by intros x Hx ->%list_elem_of_singleton.
  - rewrite fmap_app. apply NoDup_app. split; [done|]. split; [|apply NoDup_singleton].
    intros x Hx ->%list_elem_of_singleton. apply list_elem_of_fmap in Hx as (y & Hy & Hin).
    specialize (Hn _ Hin). cbn [stored_state as_ID] in Hy. lia.
  - lia.
  - apply list.Forall_app. split; [|constructor; [|done]].
    + apply list.Forall_forall. intros x Hx. specialize (Hn _ Hx). lia.
    + cbn [stored_state as_ID]. lia.
Qed.

Lemma update_Ok s old w w' :
  wf w -> old ∈ al_states w -> as_ID s = as_ID old -> as_Fingerprint s = as_Fingerprint old ->
  state_Update E s w = (Ok tt, w') ->
  w' = set_states w ((fun x => if as_ID x =? as_ID s then s else x) <$> al_states w) (al_next_state w) /\
  wf w'.
Proof.
  intros [Hf Hi Hp Hn] Hold Hid Hfp H%refused_by_Ok. rewrite h_get_bind in H. injection H as <-.
  split; [done|].
  set (f := fun x => if as_ID x =? as_ID s then s else x).
  assert (Hkey : forall x, x ∈ al_states w -> as_ID (f x) = as_ID x /\ as_Fingerprint (f x) = as_Fingerprint x).
  { intros x Hx. unfold f. destruct (Z.eqb_spec (as_ID x) (as_ID s)) as [He|]; [|done].
    assert (x = old) as -> by (eapply NoDup_key_inj; [exact Hi|..]; congruence). done. }
  rewrite list.Forall_forall in Hn. split; cbn [set_states al_states al_next_state]; fold f.
  - rewrite <-list_fmap_compose. rewrite (list_fmap_ext _ as_Fingerprint); [done|].
    intros k x Hx%list_elem_of_lookup_2. by apply Hkey.
  - rewrite <-list_fmap_compose. rewrite (list_fmap_ext _ as_ID); [done|].
    intros k x Hx%list_elem_of_lookup_2. by apply Hkey.
  - done.
  - apply list.Forall_fmap, list.Forall_forall. intros x Hx. cbn. rewrite (proj1 (Hkey _ Hx)). by apply Hn.
Qed.

(** [w'] is [w] with the state [s] written over that of its fingerprint. *)
Record written (s : DatabaseBackupAlertState) (w w' : alert_world) : Prop := {
  wr_wf : wf w'; wr_rules : al_rules w' = al_rules w; wr_next : al_next_rule w' = al_next_rule w;
  wr_sent : al_sent w' = al_sent w;
  wr_state fp : state_of w' fp =
    if decide (fp = as_Fingerprint s) then Some s else state_of w fp }.

Lemma create_written s w w' :
  wf w -> state_Create E s w = (Ok tt, w') -> written (stored_state s (al_next_state w)) w w'.
Proof.
  intros Hw H. destruct (create_Ok _ _ _ Hw H) as (Hnone & -> & Hw'). split; try done.
  intros fp. unfold state_of, set_states. cbn [al_states as_Fingerprint stored_state].
  rewrite find_app. fold (state_of w fp). cbn [List.find as_Fingerprint stored_state].
  destruct (decide (fp = as_Fingerprint s)) as [->|Hne].
  - rewrite Hnone. by rewrite bool_decide_eq_true_2.
  - rewrite bool_decide_eq_false_2 by congruence. by destruct (state_of w fp).
Qed.

Lemma update_written s old w w' :
  wf w -> old ∈ al_states w -> as_ID s = as_ID old -> as_Fingerprint s = as_Fingerprint old ->
  state_Update E s w = (Ok tt, w') -> written s w w'.
Proof.
  intros Hw Hold Hid Hfp H. destruct (update_Ok _ _ _ _ Hw Hold Hid Hfp H) as [-> Hw']. split; try done.
  intros fp. apply option_eq. intros x. rewrite (state_of_Some _ _ _ Hw').
  cbn [set_states al_states]. rewrite list_elem_of_fmap.
  destruct (decide (fp = as_Fingerprint s)) as [->|Hne].
  - split.
    + intros [(y & -> & Hy) He]. destruct (Z.eqb_spec (as_ID y) (as_ID s)) as [|Hn]; [done|]. exfalso.
      apply Hn. rewrite Hid. f_equal. eapply NoDup_key_inj; [apply Hw| done|done|]. congruence.
    + intros [= <-]. split; [|done]. exists old. by rewrite Hid, Z.eqb_refl.
  - rewrite (state_of_Some _ _ _ Hw). split.
    + intros [(y & -> & Hy) He]. destruct (Z.eqb_spec (as_ID y) (as_ID s)); [congruence|done].
    + intros [Hx He]. split; [|done]. exists x. split; [|done].
      destruct (Z.eqb_spec (as_ID x) (as_ID s)) as [Hi|]; [|done]. exfalso. apply Hne.
      rewrite Hfp, <-He. f_equal. eapply NoDup_key_inj; [apply (wf_ids _ Hw)|..]; congruence.
Qed.

(** ** One candidate *)
(** The state that a candidate leaves, and the notice it sends. *)
Record announced (rule : DatabaseBackupAlertRule) (c : DatabaseBackupAlertCandidate) (now : Z)
    (old : option DatabaseBackupAlertState) (s : DatabaseBackupAlertState) : Prop := {
  an_fingerprint : as_Fingerprint s = ca_Fingerprint c;
  an_rule : as_RuleID s = ru_ID rule;
  an_issue : as_issue s = as_issue (fired rule c old now);
  an_firing : as_Status s = DatabaseBackupAlertStateFiring;
  an_fired : as_LastFiredAt s = now;
  an_first : as_FirstFiredAt s = from_option as_FirstFiredAt now old;
  an_notified : as_LastNotifiedAt s = old ≫= as_LastNotifiedAt \/ as_LastNotifiedAt s = Some now }.

Definition sent_by (rule : DatabaseBackupAlertRule) (c : DatabaseBackupAlertCandidate) (now : Z)
    (old : option DatabaseBackupAlertState) (w : alert_world)
    : list (DatabaseBackupAlertNotice * Z * option gostring) :=
  match ae_notifier E with
  | Some notify => if due rule old now
      then [(alert_notice rule c false, now, notify (length (al_sent w)) (alert_notice rule c false))]
      else []
  | None => []
  end.

Lemma send_run now n w : exists answer w',
  send E now n w = (Ok answer, w') /\ al_states w' = al_states w /\ al_rules w' = al_rules w /\
  al_next_rule w' = al_next_rule w /\ al_next_state w' = al_next_state w /\
  al_sent w' = al_sent w ++ match ae_notifier E with
    | Some notify => [(n, now, notify (length (al_sent w)) n)] | None => [] end.
Proof.
  unfold send. destruct (ae_notifier E) as [notify|]; eexists _, _; (split; [done|]); cbn;
    [done|]. by rewrite app_nil_r.
Qed.

Lemma wf_states w w' :
  al_states w' = al_states w -> al_next_state w' = al_next_state w -> wf w -> wf w'.
Proof. intros Hs Hn []. split; by rewrite ?Hs, ?Hn. Qed.
Lemma state_of_states w w' fp : al_states w' = al_states w -> state_of w' fp = state_of w fp.
Proof. unfold state_of. by intros ->. Qed.

Lemma known_row w fp : wf w -> known_state (state_of w fp) = state_of w fp.
Proof.
  intros Hw. destruct (state_of w fp) as [s|] eqn:Hs; [|done].
  apply state_of_Some in Hs as [Hin _]; [|done]. pose proof (wf_next _ Hw) as Hn.
  rewrite list.Forall_forall in Hn. specialize (Hn _ Hin). cbn [known_state].
  by rewrite (proj2 (Z.eqb_neq (as_ID s) 0)) by lia.
Qed.

(** What a scan step did to the states of one fingerprint. *)
Record stepped (fp : gostring) (s : DatabaseBackupAlertState)
    (notices : list (DatabaseBackupAlertNotice * Z * option gostring)) (w w' : alert_world) : Prop := {
  sp_wf : wf w'; sp_rules : al_rules w' = al_rules w; sp_next : al_next_rule w' = al_next_rule w;
  sp_sent : al_sent w' = al_sent w ++ notices;
  sp_state fp' : state_of w' fp' = if decide (fp' = fp) then Some s else state_of w fp' }.

Lemma stepped_written fp s notices w w1 w' :
  al_states w1 = al_states w -> al_rules w1 = al_rules w -> al_next_rule w1 = al_next_rule w ->
  al_sent w1 = al_sent w ++ notices -> as_Fingerprint s = fp -> written s w1 w' ->
  stepped fp s notices w w'.
Proof.
  intros Hs Hr Hn Hsent <- [H1 H2 H3 H4 H5]. split; [done|congruence..|].
  intros fp'. rewrite H5. by rewrite (state_of_states w w1).
Qed.

(** The outcome of the notice recorded on the state. *)
Definition recorded (answer : option bool) (s : DatabaseBackupAlertState) (now : Z)
    : DatabaseBackupAlertState :=
  match answer with
  | None => s
  | Some true => notified s now
  | Some false =>
    match as_LastNotifiedAt s with
    | None => notified s now
    | Some t => if minute <=? time_sub now t then notified s now else s
    end
  end.
Lemma recorded_cases answer s now : recorded answer s now = s \/ recorded answer s now = notified s now.
Proof. unfold recorded. repeat case_match; auto. Qed.

Lemma upsert_Ok rule c now w w' :
  wf w -> TrimSpace (ca_Fingerprint c) = ca_Fingerprint c ->
  upsertBackupAlertState E rule c now w = (Ok tt, w') ->
  let old := state_of w (ca_Fingerprint c) in
  exists s, announced rule c now old s /\
    stepped (ca_Fingerprint c) s (sent_by rule c now old w) w w'.
Proof.
  intros Hw Ht H old. unfold upsertBackupAlertState in H.
  apply h_bind_Ok in H as (row & w0 & H0 & H). apply refused_by_Ok in H0.
  rewrite h_get_bind in H0. injection H0 as <- <-. rewrite Ht, (known_row _ _ Hw) in H. fold old in H.
  apply h_bind_Ok in H as (answer & w1 & Hsend & H).
  fold (recorded answer (fired rule c old now) now) in H.
  assert (Hw1 : al_states w1 = al_states w /\ al_rules w1 = al_rules w /\
    al_next_rule w1 = al_next_rule w /\ al_next_state w1 = al_next_state w /\
    al_sent w1 = al_sent w ++ sent_by rule c now old w).
  { unfold sent_by. destruct (due rule old now).
    - destruct (send_run now (alert_notice rule c false) w) as (a & w2 & Hs & H2 & H3 & H4 & H5 & H6).
      rewrite Hs in Hsend. by injection Hsend as _ <-.
    - injection Hsend as _ <-. destruct (ae_notifier E); by rewrite app_nil_r. }
  destruct Hw1 as (H1 & H2 & H3 & H4 & H5).
  assert (Hfp : as_Fingerprint (fired rule c old now) = ca_Fingerprint c).
  { cbn [fired as_Fingerprint]. destruct old as [o|] eqn:Ho; [|done].
    by apply state_of_Some in Ho as [_ Ho]. }
  set (r := recorded answer (fired rule c old now) now) in *.
  assert (Hr : announced rule c now old r /\ as_ID r = from_option as_ID 0 old).
  { subst r. destruct (recorded_cases answer (fired rule c old now) now) as [-> | ->];
      (split; [|done]); split; try done; solve [by left | by right]. }
  destruct Hr as [Ha Hid]. apply (wf_states w w1) in Hw as Hw1; [|done..].
  destruct old as [o|] eqn:Ho.
  - exists r. split; [done|]. apply (state_of_Some _ _ _ Hw) in Ho as [Hin Ho].
    eapply stepped_written; [done..|apply Ha|].
    eapply (update_written r o); [done|by rewrite H1|done| |exact H]. by rewrite (an_fingerprint _ _ _ _ _ Ha).
  - exists (stored_state r (al_next_state w1)). split; [by destruct Ha; split|].
    eapply stepped_written; [done..|apply Ha|]. by apply create_written.
Qed.

(** ** A state that is resolved *)
Definition recovery_sent (rule : DatabaseBackupAlertRule) (now : Z) (s : DatabaseBackupAlertState)
    (w : alert_world) : list (DatabaseBackupAlertNotice * Z * option gostring) :=
  let n := alert_notice rule (recovery_candidate (resolved_state s now)) true in
  match ae_notifier E with
  | Some notify => if ru_RecoveryNotify rule then [(n, now, notify (length (al_sent w)) n)] else []
  | None => []
  end.

Lemma resolve_Ok rule now s w w' :
  wf w -> s ∈ al_states w -> resolve E rule now s w = (Ok tt, w') ->
  exists s', as_Status s' = DatabaseBackupAlertStateResolved /\ as_RuleID s' = as_RuleID s /\
    as_issue s' = as_issue s /\ as_ResolvedAt s' = Some now /\
    stepped (as_Fingerprint s) s' (recovery_sent rule now s w) w w'.
Proof.
  intros Hw Hin H. unfold resolve in H. cbv zeta in H.
  apply h_bind_Ok in H as (answer & w1 & Hsend & H).
  set (r := match answer with Some true => notified (resolved_state s now) now
            | _ => resolved_state s now end) in *.
  assert (Hw1 : al_states w1 = al_states w /\ al_rules w1 = al_rules w /\
    al_next_rule w1 = al_next_rule w /\ al_next_state w1 = al_next_state w /\
    al_sent w1 = al_sent w ++ recovery_sent rule now s w).
  { unfold recovery_sent. destruct (ru_RecoveryNotify rule).
    - destruct (send_run now (alert_notice rule (recovery_candidate (resolved_state s now)) true) w)
        as (a & w2 & Hs & H2 & H3 & H4 & H5 & H6).
      rewrite Hs in Hsend. by injection Hsend as _ <-.
    - injection Hsend as _ <-. destruct (ae_notifier E); by rewrite app_nil_r. }
  destruct Hw1 as (H1 & H2 & H3 & H4 & H5). apply (wf_states w w1) in Hw; [|done..].
  exists r. assert (Hr : as_Status r = DatabaseBackupAlertStateResolved /\ as_RuleID r = as_RuleID s /\
    as_issue r = as_issue s /\ as_ResolvedAt r = Some now /\ as_ID r = as_ID s /\
    as_Fingerprint r = as_Fingerprint s) by (subst r; by destruct answer as [[]|]).
  destruct Hr as (Hr1 & Hr2 & Hr3 & Hr4 & Hid & Hfp). do 4 (split; [done|]).
  eapply stepped_written; [done..|]. eapply update_written; [done| |done|done|exact H]. by rewrite H1.
Qed.

(** ** The two loops of a scan *)
Lemma for_each_cons {B} (f : B -> handler alert_world unit) x l w w' :
  for_each f (x :: l) w = (Ok tt, w') -> exists w1, f x w = (Ok tt, w1) /\ for_each f l w1 = (Ok tt, w').
Proof. cbn [for_each]. intros H. apply h_bind_Ok in H as ([] & w1 & H1 & H2). eauto. Qed.

Definition fires (rule : DatabaseBackupAlertRule) (now : Z) (s : DatabaseBackupAlertState) : Prop :=
  as_RuleID s = ru_ID rule /\ as_Status s = DatabaseBackupAlertStateFiring /\ as_LastFiredAt s = now.

Lemma upserts_Ok rule now l w w' :
  wf w -> Forall (fun c => TrimSpace (ca_Fingerprint c) = ca_Fingerprint c) l ->
  for_each (fun c => upsertBackupAlertState E rule c now) l w = (Ok tt, w') ->
  wf w' /\ al_rules w' = al_rules w /\
  (forall fp, fp ∉ ca_Fingerprint <$> l -> state_of w' fp = state_of w fp) /\
  (forall fp, fp ∈ ca_Fingerprint <$> l -> exists s, state_of w' fp = Some s /\ fires rule now s).
Proof.
  revert w. induction l as [|c l IH]; intros w Hw Ht H.
  { injection H as <-. split; [done|]. split; [done|]. split; [done|]. by intros fp ?%not_elem_of_nil. }
  apply for_each_cons in H as (w1 & H1 & H). inversion Ht as [|? ? Hc Ht']; subst.
  destruct (upsert_Ok _ _ _ _ _ Hw Hc H1) as (s & Ha & [S1 S2 S3 S4 S5]).
  destruct (IH _ S1 Ht' H) as (I1 & I2 & I3 & I4).
  split; [done|]. split; [congruence|]. rewrite fmap_cons. split.
  - intros fp [Hne Hn]%not_elem_of_cons. by rewrite I3, S5, decide_False.
  - intros fp Hfp. destruct (decide (fp ∈ ca_Fingerprint <$> l)) as [Hl|Hn]; [by apply I4|].
    apply elem_of_cons in Hfp as [->|]; [|done]. exists s. rewrite I3, S5, decide_True by done.
    split; [done|]. by destruct Ha.
Qed.

Lemma resolves_Ok rule now l w w' :
  wf w -> NoDup (as_Fingerprint <$> l) ->
  Forall (fun s => state_of w (as_Fingerprint s) = Some s) l ->
  for_each (resolve E rule now) l w = (Ok tt, w') ->
  wf w' /\ al_rules w' = al_rules w /\
  (forall fp, fp ∉ as_Fingerprint <$> l -> state_of w' fp = state_of w fp) /\
  (forall s, s ∈ l -> exists s', state_of w' (as_Fingerprint s) = Some s' /\
     as_Status s' = DatabaseBackupAlertStateResolved /\ as_RuleID s' = as_RuleID s).
Proof.
  revert w. induction l as [|s l IH]; intros w Hw Hnd Hl H.
  { injection H as <-. split; [done|]. split; [done|]. split; [done|]. by intros fp ?%not_elem_of_nil. }
  apply for_each_cons in H as (w1 & H1 & H). inversion Hl as [|? ? Hs Hl']; subst.
  rewrite fmap_cons in Hnd. apply NoDup_cons in Hnd as [Hnew Hnd].
  apply (state_of_Some _ _ _ Hw) in Hs as Hin. destruct Hin as [Hin _].
  destruct (resolve_Ok _ _ _ _ _ Hw Hin H1) as (s' & R1 & R2 & _ & _ & [S1 S2 S3 S4 S5]).
  assert (Hl1 : Forall (fun s => state_of w1 (as_Fingerprint s) = Some s) l).
  { rewrite list.Forall_forall in Hl' |- *. intros x Hx. rewrite S5, decide_False; [by apply Hl'|].
    intros He. apply Hnew. rewrite <-He. by apply list_elem_of_fmap_2. }
  destruct (IH _ S1 Hnd Hl1 H) as (I1 & I2 & I3 & I4).
  split; [done|]. split; [congruence|]. rewrite fmap_cons. split.
  - intros fp [Hne Hn]%not_elem_of_cons. by rewrite I3, S5, decide_False.
  - intros x [->|Hx]%elem_of_cons; [|by apply I4]. exists s'. by rewrite I3, S5, decide_True.
Qed.

(** ** The scan of a rule *)
(** The alerts of a rule that the table shows are the candidates [l]. *)
Record shows (rule : DatabaseBackupAlertRule) (l : list DatabaseBackupAlertCandidate)
    (w : alert_world) : Prop := {
  sh_found s : s ∈ al_states w -> as_RuleID s = ru_ID rule ->
    as_Status s = DatabaseBackupAlertStateFiring -> as_Fingerprint s ∈ ca_Fingerprint <$> l;
  sh_firing c : c ∈ l -> exists s, s ∈ al_states w /\ as_Fingerprint s = ca_Fingerprint c /\
    fires rule (vw_now (ae_views E (ru_ID rule))) s }.

Lemma usable_all rule l :
  Forall (fun c => fingerprint_of (ru_ID rule) (ca_Fingerprint c)) l -> usable_candidates l = l.
Proof.
  unfold usable_candidates. induction 1 as [|c l Hc Hl IH]; [done|]. cbn [List.filter].
  destruct (fingerprint_trimmed _ _ Hc) as [Ht Hn]. rewrite Ht, bool_decide_eq_false_2 by done.
  cbn [negb]. by rewrite IH.
Qed.

Lemma is_current_spec l s : is_current l s = true <-> as_Fingerprint s ∈ ca_Fingerprint <$> l.
Proof.
  unfold is_current. rewrite List.existsb_exists, list_elem_of_fmap. split.
  - intros (c & Hc & He). bsimpl. exists c. by rewrite list_elem_of_In.
  - intros (c & He & Hc). exists c. rewrite <-list_elem_of_In. split; [done|]. by apply bool_decide_eq_true.
Qed.

Lemma listed_firing ruleID w s :
  s ∈ List.filter (fun s => (as_RuleID s =? ruleID) &&
        bool_decide (as_Status s = DatabaseBackupAlertStateFiring)) (al_states w) <->
  s ∈ al_states w /\ as_RuleID s = ruleID /\ as_Status s = DatabaseBackupAlertStateFiring.
Proof.
  rewrite !list_elem_of_In, List.filter_In, andb_true_iff, Z.eqb_eq, bool_decide_eq_true. done.
Qed.

Lemma rule_scan_run rule w w' :
  wf w -> ru_Enabled rule = true -> ru_ID rule <> 0 ->
  runBackupAlertRuleScan E rule w = (Ok tt, w') ->
  exists l, evaluateBackupAlertRule (ae_views E (ru_ID rule)) rule = Ok l /\
    wf w' /\ al_rules w' = al_rules w /\ shows rule l w' /\
    (forall fp, fp ∉ ca_Fingerprint <$> l ->
      (forall s, state_of w fp = Some s -> as_RuleID s <> ru_ID rule) -> state_of w' fp = state_of w fp) /\
    forall s', s' ∈ al_states w' -> as_Fingerprint s' ∉ ca_Fingerprint <$> l ->
      exists s, state_of w (as_Fingerprint s') = Some s /\ as_RuleID s = as_RuleID s'.
Proof.
  intros Hw Hen Hid H. unfold runBackupAlertRuleScan in H.
  rewrite (proj2 (Z.eqb_neq _ _) Hid), Hen in H. cbn [negb orb] in H. cbv zeta in H.
  rewrite h_lift_bind in H. destruct (evaluateBackupAlertRule _ rule) as [l|e] eqn:He; [|done].
  exists l. split; [done|]. pose proof (elem_of_evaluated _ _ _ He) as Hl.
  rewrite (usable_all rule) in H by done. set (now := vw_now _) in *.
  apply h_bind_Ok in H as ([] & w1 & H1 & H). apply h_bind_Ok in H as (firing & w2 & H2 & H).
  apply refused_by_Ok in H2. rewrite h_get_bind in H2. injection H2 as <- <-.
  apply upserts_Ok in H1 as (U1 & U2 & U3 & U4); [|done|].
  2:{ eapply list.Forall_impl; [exact Hl|]. intros c Hc. by apply fingerprint_trimmed in Hc as [? _]. }
  set (stale := List.filter _ (List.filter _ _)) in H.
  assert (Hstale : forall s, s ∈ stale <-> (s ∈ al_states w1 /\ as_RuleID s = ru_ID rule /\
    as_Status s = DatabaseBackupAlertStateFiring) /\ as_Fingerprint s ∉ ca_Fingerprint <$> l).
  { intros s. unfold stale. rewrite (list_elem_of_In _ s), List.filter_In, <-list_elem_of_In, listed_firing,
      negb_true_iff, <-not_true_iff_false, is_current_spec. done. }
  apply resolves_Ok in H as (R1 & R2 & R3 & R4); [|done| |].
  - split; [done|]. split; [congruence|]. split; [split|split].
    + intros s Hs Hrule Hfire. destruct (decide (as_Fingerprint s ∈ ca_Fingerprint <$> l)) as [|Hn]; [done|].
      exfalso. assert (Hlook : state_of w' (as_Fingerprint s) = Some s) by by apply state_of_Some.
      destruct (decide (as_Fingerprint s ∈ as_Fingerprint <$> stale)) as [Hin|Hin].
      * apply list_elem_of_fmap in Hin as (x & Hx & Hin). destruct (R4 _ Hin) as (s' & Hs' & Hst & _).
        rewrite <-Hx, Hlook in Hs'. injection Hs' as <-. by rewrite Hfire in Hst.
      * apply Hin, list_elem_of_fmap_2, Hstale. rewrite (R3 _ Hin) in Hlook.
        apply state_of_Some in Hlook as [? _]; done.
    + intros c Hc. assert (Hin : ca_Fingerprint c ∈ ca_Fingerprint <$> l) by by apply list_elem_of_fmap_2.
      destruct (U4 _ Hin) as (s & Hs & Hfires). exists s.
      rewrite <-(R3 (ca_Fingerprint c)) in Hs.
      * by apply state_of_Some in Hs as [? ?].
      * intros (x & Hx & Hxs)%list_elem_of_fmap. apply Hstale in Hxs as [_ Hxs]. apply Hxs. by rewrite <-Hx.
    + intros fp Hn Hother. rewrite R3; [by apply U3|]. intros (x & -> & Hx)%list_elem_of_fmap.
      apply Hstale in Hx as [(Hx & Hrule & _) Hxn]. apply (Hother x); [|done].
      rewrite <-U3 by done. by apply state_of_Some.
    + intros s Hs Hn. assert (Hlook : state_of w' (as_Fingerprint s) = Some s) by by apply state_of_Some.
      rewrite <-(U3 _ Hn). destruct (decide (as_Fingerprint s ∈ as_Fingerprint <$> stale)) as [Hin|Hin].
      * apply list_elem_of_fmap in Hin as (x & Hx & Hin). destruct (R4 _ Hin) as (s' & Hs' & _ & Hr).
        rewrite <-Hx, Hlook in Hs'. injection Hs' as <-. exists x. rewrite Hx. split; [|done].
        apply Hstale in Hin as [[Hin _] _]. by apply state_of_Some.
      * exists s. by rewrite <-R3.
  - apply NoDup_key_filter, NoDup_key_filter, U1.
  - apply list.Forall_forall. intros s [[Hs _] _]%Hstale. by apply state_of_Some.
Qed.

(** ** The scan of all the rules *)
(** A state has a fingerprint of its rule. *)
Definition owned (w : alert_world) : Prop :=
  forall s, s ∈ al_states w -> fingerprint_of (as_RuleID s) (as_Fingerprint s) /\ 0 <= as_RuleID s.

Lemma rule_scan_owned rule w w' :
  wf w -> owned w -> ru_Enabled rule = true -> 0 < ru_ID rule ->
  runBackupAlertRuleScan E rule w = (Ok tt, w') ->
  exists l, evaluateBackupAlertRule (ae_views E (ru_ID rule)) rule = Ok l /\
    wf w' /\ owned w' /\ al_rules w' = al_rules w /\ shows rule l w' /\
    forall s, as_RuleID s <> ru_ID rule -> s ∈ al_states w' <-> s ∈ al_states w.
Proof.
  intros Hw Ho Hen Hid H. apply rule_scan_run in H as (l & He & Hw' & Hr & Hs & Hframe & Hkept); [|done..|lia].
  exists l. split; [done|]. split; [done|]. pose proof (elem_of_evaluated _ _ _ He) as Hl.
  assert (Hfp : forall fp, fp ∈ ca_Fingerprint <$> l -> fingerprint_of (ru_ID rule) fp /\
    forall s, s ∈ al_states w' -> as_Fingerprint s = fp -> as_RuleID s = ru_ID rule).
  { intros fp (c & -> & Hc)%list_elem_of_fmap. rewrite list.Forall_forall in Hl.
    split; [by apply Hl|]. intros s Hin Hsfp. destruct (sh_firing _ _ _ Hs _ Hc) as (s2 & Hin2 & Hfp2 & Hf & _).
    assert (s = s2) as -> by (eapply NoDup_key_inj; [apply (wf_fingerprints _ Hw')|..]; congruence). done. }
  assert (Ho' : owned w').
  { intros s Hin. destruct (decide (as_Fingerprint s ∈ ca_Fingerprint <$> l)) as [Hf|Hn].
    - destruct (Hfp _ Hf) as [Hof Hrule]. rewrite (Hrule _ Hin eq_refl). split; [done|lia].
    - destruct (Hkept _ Hin Hn) as (s0 & H0 & Hr0). apply state_of_Some in H0 as [H0 Hf0]; [|done].
      rewrite <-Hr0, <-Hf0. by apply Ho. }
  split; [done|]. split; [done|]. split; [done|]. intros s Hne.
  assert (Hother : as_Fingerprint s ∉ ca_Fingerprint <$> l \/
    (s ∉ al_states w' /\ s ∉ al_states w)).
  { destruct (decide (as_Fingerprint s ∈ ca_Fingerprint <$> l)) as [Hf|]; [right|by left].
    destruct (Hfp _ Hf) as [Hof Hrule]. split; intros Hin; [by apply Hne, Hrule|].
    destruct (Ho _ Hin) as [Hof2 Hpos]. apply Hne. eapply fingerprint_rule; [|lia|exact Hof2|exact Hof]. done. }
  destruct Hother as [Hn|[? ?]]; [|by split].
  assert (Hsame : forall x, as_RuleID x <> ru_ID rule -> as_Fingerprint x = as_Fingerprint s ->
    state_of w (as_Fingerprint s) = Some x \/ state_of w' (as_Fingerprint s) = Some x ->
    state_of w' (as_Fingerprint s) = state_of w (as_Fingerprint s)).
  { intros x Hx Hxs Hor. apply Hframe; [done|]. intros y Hy Hrule. destruct Hor as [Hor|Hor].
    - rewrite Hy in Hor. congruence.
    - apply (state_of_Some _ _ _ Hw') in Hor as [Hin _]. rewrite <-Hxs in Hn.
      destruct (Hkept _ Hin Hn) as (s0 & H0 & Hr0). rewrite Hxs, Hy in H0. congruence. }
  split; intros Hin.
  - assert (Hlook : state_of w' (as_Fingerprint s) = Some s) by by apply state_of_Some.
    rewrite (Hsame s) in Hlook by auto. by apply state_of_Some in Hlook as [? _].
  - assert (Hlook : state_of w (as_Fingerprint s) = Some s) by by apply state_of_Some.
    rewrite <-(Hsame s) in Hlook by auto. by apply state_of_Some in Hlook as [? _].
Qed.

Lemma shows_frame rule l w w' :
  (forall s, as_RuleID s = ru_ID rule -> s ∈ al_states w' <-> s ∈ al_states w) ->
  shows rule l w -> shows rule l w'.
Proof.
  intros Hs [H1 H2]. split.
  - intros s Hin Hr. apply (Hs _ Hr) in Hin. by apply H1.
  - intros c Hc. destruct (H2 c Hc) as (s & Hin & Hf & Hr & ?). exists s. split; [|by split].
    by apply Hs.
Qed.

Definition scan_one (rule : DatabaseBackupAlertRule) : handler alert_world unit :=
  runBackupAlertRuleScan E (decodeBackupAlertRule rule).

Lemma scans_Ok rules w w' :
  wf w -> owned w -> NoDup (ru_ID <$> rules) ->
  Forall (fun r => 0 < ru_ID r /\ ru_Enabled r = true) rules ->
  for_each scan_one rules w = (Ok tt, w') ->
  wf w' /\ owned w' /\ al_rules w' = al_rules w /\
  (forall r, r ∈ rules -> exists l,
     evaluateBackupAlertRule (ae_views E (ru_ID r)) (decodeBackupAlertRule r) = Ok l /\
     shows (decodeBackupAlertRule r) l w') /\
  (forall s, as_RuleID s ∉ ru_ID <$> rules -> s ∈ al_states w' <-> s ∈ al_states w).
Proof.
  revert w. induction rules as [|r rules IH]; intros w Hw Ho Hnd Hr H.
  { injection H as <-. do 3 (split; [done|]). split; [by intros r ?%not_elem_of_nil | done]. }
  apply for_each_cons in H as (w1 & H1 & H). inversion Hr as [|? ? [Hpos Hen] Hr']; subst.
  rewrite fmap_cons in Hnd. apply NoDup_cons in Hnd as [Hnew Hnd].
  apply rule_scan_owned in H1 as (l & He & Hw1 & Ho1 & Hr1 & Hs1 & Hf1); [|done..].
  destruct (IH _ Hw1 Ho1 Hnd Hr' H) as (I1 & I2 & I3 & I4 & I5).
  split; [done|]. split; [done|]. split; [congruence|]. split.
  - intros x [->|Hx]%elem_of_cons; [|by apply I4]. exists l. split; [exact He|].
    eapply shows_frame; [|exact Hs1]. intros s Hs. apply I5. by rewrite Hs.
  - intros s. rewrite fmap_cons. intros [Hne Hn]%not_elem_of_cons. by rewrite I5, Hf1.
Qed.

Lemma enabled_rules w :
  exists rules, sort_stable (fun a b => ru_ID a <? ru_ID b) (List.filter ru_Enabled (al_rules w)) = rules /\
    (forall r, r ∈ rules <-> r ∈ al_rules w /\ ru_Enabled r = true) /\
    (NoDup (ru_ID <$> al_rules w) -> NoDup (ru_ID <$> rules)).
Proof.
  eexists. split; [done|]. split.
  - intros r. by rewrite sort_stable_perm, list_elem_of_In, List.filter_In, list_elem_of_In.
  - intros Hnd. rewrite sort_stable_perm. by apply NoDup_key_filter.
Qed.

Lemma scan_exact_tables w w' :
  wf w -> owned w -> NoDup (ru_ID <$> al_rules w) -> Forall (fun r => 0 < ru_ID r) (al_rules w) ->
  RunBackupAlertScan E w = (Ok tt, w') ->
  wf w' /\ owned w' /\
  (forall r, r ∈ al_rules w -> ru_Enabled r = true -> exists l,
     evaluateBackupAlertRule (ae_views E (ru_ID r)) (decodeBackupAlertRule r) = Ok l /\
     shows (decodeBackupAlertRule r) l w') /\
  (forall s, (forall r, r ∈ al_rules w -> ru_Enabled r = true -> ru_ID r <> as_RuleID s) ->
     s ∈ al_states w' <-> s ∈ al_states w).
Proof.
  intros Hw Ho Hnd Hpos H. unfold RunBackupAlertScan in H.
  apply h_bind_Ok in H as (rules & w1 & Hl & H). apply refused_by_Ok in Hl. rewrite h_get_bind in Hl.
  destruct (enabled_rules w) as (rules' & Hrules & Hmem & Hnd'). rewrite Hrules in Hl.
  injection Hl as <- <-. apply scans_Ok in H as (I1 & I2 & _ & I4 & I5); [|done|done|by apply Hnd'|].
  - split; [done|]. split; [done|]. split; [intros r Hr Hen; by apply I4, Hmem|].
    intros s Hs. apply I5. intros (r & Hid & Hr)%list_elem_of_fmap. apply Hmem in Hr as [Hr Hen].
    by apply (Hs r).
  - apply list.Forall_forall. intros r [Hr Hen]%Hmem. split; [|done].
    rewrite list.Forall_forall in Hpos. by apply Hpos.
Qed.

(** ** The tables stay well formed, when a step fails too *)
Definition sound (w : alert_world) : Prop := wf w /\ owned w.

Lemma stepped_sound fp s notices w w' :
  stepped fp s notices w w' -> as_Fingerprint s = fp -> fingerprint_of (as_RuleID s) fp ->
  0 <= as_RuleID s -> sound w -> sound w'.
Proof.
  intros [S1 _ _ _ S5] Hfp Hof Hpos [Hw Ho]. split; [done|]. intros x Hx.
  assert (Hlook : state_of w' (as_Fingerprint x) = Some x) by by apply state_of_Some.
  rewrite S5 in Hlook. destruct (decide (as_Fingerprint x = fp)) as [He|].
  - injection Hlook as <-. by rewrite He.
  - apply state_of_Some in Hlook as [Hin _]; [|done]. by apply Ho.
Qed.

Lemma failed_write e s w w' :
  state_Create E s w = (Err e, w') \/ state_Update E s w = (Err e, w') -> w' = w.
Proof.
  unfold state_Create, state_Update, refused_by. intros [H|H].
  - destruct (ae_create_state E _); [by injection H|]. rewrite h_get_bind in H.
    destruct (state_of w _); by injection H.
  - destruct (ae_update_state E _); [by injection H|]. by rewrite h_get_bind in H.
Qed.

Lemma sound_states w w' :
  al_states w' = al_states w -> al_next_state w' = al_next_state w -> sound w -> sound w'.
Proof. intros Hs Hn [Hw Ho]. split; [by eapply wf_states|]. intros s. rewrite Hs. apply Ho. Qed.

Lemma maybe_send_sound (b : bool) now n w answer w' :
  (if b then send E now n else mret None) w = (answer, w') ->
  al_states w' = al_states w /\ al_next_state w' = al_next_state w /\ al_rules w' = al_rules w /\
  al_next_rule w' = al_next_rule w.
Proof.
  destruct b; [|by intros [= _ <-]].
  destruct (send_run now n w) as (a & w2 & Hs & H2 & H3 & H4 & H5 & _). rewrite Hs. by intros [= _ <-].
Qed.

Definition keeps {B} (m : handler alert_world B) : Prop := forall w, sound w ->
  sound (m w).2 /\ al_rules (m w).2 = al_rules w /\ al_next_rule (m w).2 = al_next_rule w.

Lemma upsert_keeps rule c now :
  fingerprint_of (ru_ID rule) (ca_Fingerprint c) -> 0 <= ru_ID rule ->
  keeps (upsertBackupAlertState E rule c now).
Proof.
  intros Hof Hpos w Hw. destruct (upsertBackupAlertState E rule c now w) as [[[]|e] w'] eqn:H; cbn [snd].
  - apply upsert_Ok in H as (s & Ha & Hs); [|apply Hw|by apply fingerprint_trimmed in Hof as [? _]].
    split; [|split; apply Hs]. destruct Ha as [A1 A2 _ _ _ _ _].
    eapply stepped_sound; [exact Hs|done|by rewrite A2|by rewrite A2|done].
  - unfold upsertBackupAlertState in H.
    apply h_bind_inv in H as [(row & w0 & H0 & H)|(e' & H0 & _)].
    + apply refused_by_Ok in H0. rewrite h_get_bind in H0. injection H0 as _ <-.
      apply h_bind_inv in H as [(answer & w1 & H1 & H)|(e' & H1 & _)].
      * apply maybe_send_sound in H1 as (M1 & M2 & M3 & M4).
        assert (w' = w1) as -> by (destruct (known_state row); eapply failed_write; eauto).
        split; [by eapply sound_states|done].
      * apply maybe_send_sound in H1 as (M1 & M2 & M3 & M4). split; [by eapply sound_states|done].
    + unfold state_GetByFingerprint, refused_by in H0. destruct (ae_get_state E _); by injection H0 as _ <-.
Qed.

Lemma resolve_keeps rule now s w :
  sound w -> s ∈ al_states w ->
  sound (resolve E rule now s w).2 /\ al_rules (resolve E rule now s w).2 = al_rules w /\
  al_next_rule (resolve E rule now s w).2 = al_next_rule w /\
  forall fp, fp <> as_Fingerprint s -> state_of (resolve E rule now s w).2 fp = state_of w fp.
Proof.
  intros Hw Hin. destruct (resolve E rule now s w) as [[[]|e] w'] eqn:H; cbn [snd].
  - apply resolve_Ok in H as (s' & R1 & R2 & R3 & R4 & Hs); [|apply Hw|done].
    assert (Hs' : sound w').
    { destruct (proj2 Hw _ Hin) as [Hof Hpos]. eapply stepped_sound; [exact Hs| |by rewrite R2|by rewrite R2|done].
      pose proof (sp_state _ _ _ _ _ Hs (as_Fingerprint s)) as Hl. rewrite decide_True in Hl by done.
      by apply state_of_Some in Hl as [_ ?]; [|apply Hs]. }
    split; [done|]. split; [apply Hs|]. split; [apply Hs|]. intros fp Hne.
    by rewrite (sp_state _ _ _ _ _ Hs), decide_False.
  - unfold resolve in H. cbv zeta in H. apply h_bind_inv in H as [(answer & w1 & H1 & H)|(e' & H1 & _)];
      apply maybe_send_sound in H1 as (M1 & M2 & M3 & M4).
    + assert (w' = w1) as -> by (eapply failed_write; eauto).
      split; [by eapply sound_states|]. split; [done|]. split; [done|]. intros fp _. by apply state_of_states.
    + split; [by eapply sound_states|]. split; [done|]. split; [done|]. intros fp _. by apply state_of_states.
Qed.

Lemma stays_ret {B} (b : B) : keeps (mret b).
Proof. by intros w Hw. Qed.
Lemma stays_bind {B C} (m : handler alert_world B) (f : B -> handler alert_world C) :
  keeps m -> (forall b, keeps (f b)) -> keeps (m ≫= f).
Proof.
  intros Hm Hf w Hw. specialize (Hm w Hw) as (H1 & H2 & H3). unfold mbind, handler_bind.
  destruct (m w) as [[b|e] w1]; cbn [snd] in *; [|done].
  destruct (Hf b w1 H1) as (F1 & F2 & F3). split; [done|]. split; congruence.
Qed.
Lemma keeps_for_each {B} (f : B -> handler alert_world unit) l :
  Forall (fun x => keeps (f x)) l -> keeps (for_each f l).
Proof. induction 1; [apply stays_ret|]. by apply stays_bind. Qed.

Lemma resolves_keep rule now l w :
  sound w -> NoDup (as_Fingerprint <$> l) ->
  Forall (fun s => state_of w (as_Fingerprint s) = Some s) l ->
  sound (for_each (resolve E rule now) l w).2 /\ al_rules (for_each (resolve E rule now) l w).2 = al_rules w /\
  al_next_rule (for_each (resolve E rule now) l w).2 = al_next_rule w.
Proof.
  revert w. induction l as [|s l IH]; intros w Hw Hnd Hl; [done|].
  inversion Hl as [|? ? Hs Hl']; subst. rewrite fmap_cons in Hnd. apply NoDup_cons in Hnd as [Hnew Hnd].
  apply state_of_Some in Hs as [Hin _]; [|apply Hw].
  destruct (resolve_keeps rule now s w Hw Hin) as (R1 & R2 & R3 & R4). cbn [for_each].
  unfold mbind, handler_bind. destruct (resolve E rule now s w) as [[[]|e] w1]; cbn [snd] in *; [|done].
  destruct (IH w1) as (I1 & I2 & I3); [done..| |split; [done|split; congruence]].
  rewrite list.Forall_forall in Hl' |- *. intros x Hx. rewrite R4; [by apply Hl'|].
  intros He. apply Hnew. rewrite <-He. by apply list_elem_of_fmap_2.
Qed.

Lemma rule_scan_keeps rule : 0 <= ru_ID rule -> keeps (runBackupAlertRuleScan E rule).
Proof.
  intros Hpos. unfold runBackupAlertRuleScan. destruct (_ || _); [apply stays_ret|]. cbv zeta.
  intros w Hw. rewrite h_lift_bind. destruct (evaluateBackupAlertRule _ rule) as [l|e] eqn:He; [|done].
  pose proof (elem_of_evaluated _ _ _ He) as Hl. rewrite (usable_all rule) by done. revert w Hw.
  apply stays_bind.
  - apply keeps_for_each. eapply list.Forall_impl; [exact Hl|]. intros c Hc. by apply upsert_keeps.
  - intros [] w Hw. unfold state_ListFiringByRuleID, refused_by.
    destruct (ae_list_firing E _); [done|]. cbv [mbind handler_bind h_get mret handler_ret].
    apply resolves_keep; [done| |].
    + apply NoDup_key_filter, NoDup_key_filter, Hw.
    + apply list.Forall_forall. intros s Hs%list_elem_of_In%List.filter_In. destruct Hs as [Hs _].
      apply list_elem_of_In, listed_firing in Hs as [Hs _]. apply state_of_Some; [apply Hw|done].
Qed.

(** ** The table of rules *)
Record rules_ok (w : alert_world) : Prop := {
  ro_ids : NoDup (ru_ID <$> al_rules w); ro_positive : 0 < al_next_rule w;
  ro_next : Forall (fun r => 0 < ru_ID r < al_next_rule w) (al_rules w) }.
Definition tables_ok (w : alert_world) : Prop := sound w /\ rules_ok w.

Lemma keeps_tables {B} (m : handler alert_world B) w : keeps m -> tables_ok w -> tables_ok (m w).2.
Proof.
  intros Hm [Hs [H1 H2 H3]]. destruct (Hm w Hs) as (K1 & K2 & K3). split; [done|].
  by split; rewrite ?K2, ?K3.
Qed.

Lemma set_rules_sound w l n : sound w -> sound (set_rules w l n).
Proof. by apply sound_states. Qed.

Lemma scan_tables w : tables_ok w -> tables_ok (RunBackupAlertScan E w).2.
Proof.
  intros [Hs Hr]. unfold RunBackupAlertScan, rule_ListEnabled, refused_by.
  destruct (ae_list_enabled E); [done|]. cbv [mbind handler_bind h_get mret handler_ret].
  apply keeps_tables; [|done]. apply keeps_for_each, list.Forall_forall. intros r Hin.
  destruct (enabled_rules w) as (rules & Hrules & Hmem & _). rewrite Hrules in Hin. apply Hmem in Hin as [Hin _].
  apply rule_scan_keeps. change (0 <= ru_ID r). pose proof (ro_next _ Hr) as Hn.
  rewrite list.Forall_forall in Hn. specialize (Hn _ Hin). lia.
Qed.

Lemma create_tables req w : tables_ok w -> tables_ok (CreateBackupAlertRule E req w).2.
Proof.
  intros [Hs [H1 H2 H3]]. unfold CreateBackupAlertRule. rewrite h_lift_bind.
  destruct (buildBackupAlertRuleFromRequest 0 req) as [item|e]; [|done]. unfold refused_by.
  destruct (ae_save_rule E); [done|]. rewrite h_get_bind. cbv [mbind handler_bind h_put mret handler_ret].
  cbn [snd]. split; [by apply set_rules_sound|]. rewrite list.Forall_forall in H3.
  split; cbn [set_rules al_rules al_next_rule].
  - rewrite fmap_app. apply NoDup_app. split; [done|]. split; [|apply NoDup_singleton].
    intros x (r & -> & Hin)%list_elem_of_fmap Hx%list_elem_of_singleton. specialize (H3 _ Hin). cbn in Hx. lia.
  - lia.
  - apply list.Forall_app. split; [|constructor; [|done]].
    + apply list.Forall_forall. intros r Hin. specialize (H3 _ Hin). lia.
    + cbn [inserted_rule ru_ID]. lia.
Qed.

Lemma rule_found id w r w' : rule_GetByID E id w = (Ok r, w') -> w' = w /\ r ∈ al_rules w /\ ru_ID r = id.
Proof.
  intros H%refused_by_Ok. rewrite h_get_bind in H. destruct (List.find _ _) as [x|] eqn:Hf; [|done].
  injection H as -> <-. apply List.find_some in Hf as [Hin Hid]. bsimpl. by apply list_elem_of_In in Hin.
Qed.
Lemma rule_not_found id w e w' : rule_GetByID E id w = (Err e, w') -> w' = w.
Proof.
  unfold rule_GetByID, refused_by. destruct (ae_get_rule E id); [by intros [= _ <-]|].
  rewrite h_get_bind. destruct (List.find _ _); by intros [= _ <-].
Qed.

Lemma built_id id req r : buildBackupAlertRuleFromRequest id req = Ok r -> ru_ID r = id.
Proof. unfold buildBackupAlertRuleFromRequest. repeat case_match; try done; by intros [= <-]. Qed.

Lemma update_tables id req w : tables_ok w -> tables_ok (UpdateBackupAlertRule E id req w).2.
Proof.
  intros Hok. unfold UpdateBackupAlertRule.
  destruct (rule_GetByID E id w) as [[old|e] w1] eqn:Hg; unfold mbind at 1, handler_bind at 1; rewrite Hg;
    [|by apply rule_not_found in Hg as ->].
  apply rule_found in Hg as (-> & Hin & <-). rewrite h_lift_bind.
  destruct (buildBackupAlertRuleFromRequest (ru_ID old) req) as [rule|e] eqn:Hb; [|done].
  apply built_id in Hb. unfold refused_by.
  destruct (ae_save_rule E); [done|]. rewrite h_get_bind. cbv [mbind handler_bind h_put mret handler_ret].
  cbn [snd]. destruct Hok as [Hs [H1 H2 H3]]. split; [by apply set_rules_sound|].
  assert (Hkey : forall r, ru_ID (if ru_ID r =? ru_ID rule then rule else r) = ru_ID r).
  { intros r. destruct (Z.eqb_spec (ru_ID r) (ru_ID rule)); congruence. }
  split; cbn [set_rules al_rules al_next_rule]; [|done|].
  - rewrite <-list_fmap_compose, (list_fmap_ext _ ru_ID); [done|]. intros k r _. apply Hkey.
  - apply list.Forall_fmap, (list.Forall_impl _ _ _ H3). intros r Hr. cbn. by rewrite Hkey.
Qed.

Lemma delete_tables id w : tables_ok w -> tables_ok (DeleteBackupAlertRule E id w).2.
Proof.
  intros Hok. unfold DeleteBackupAlertRule.
  destruct (rule_GetByID E id w) as [[old|e] w1] eqn:Hg; unfold mbind at 1, handler_bind at 1; rewrite Hg;
    [|by apply rule_not_found in Hg as ->].
  apply rule_found in Hg as (-> & Hin & _). unfold refused_by.
  destruct (ae_delete_rule E); [done|]. rewrite h_get_bind. cbn [h_put snd].
  destruct Hok as [Hs [H1 H2 H3]]. split; [by apply set_rules_sound|].
  split; cbn [set_rules al_rules al_next_rule]; [by apply NoDup_key_filter|done|].
  apply list.Forall_forall. intros r Hr%list_elem_of_In%List.filter_In. destruct Hr as [Hr _].
  apply list_elem_of_In in Hr. rewrite list.Forall_forall in H3. by apply H3.
Qed.

Lemma test_tables id now w : tables_ok w -> tables_ok (TestBackupAlertRule E id now w).2.
Proof.
  intros Hok. unfold TestBackupAlertRule.
  destruct (rule_GetByID E id w) as [[r|e] w1] eqn:Hg; unfold mbind at 1, handler_bind at 1; rewrite Hg;
    [|by apply rule_not_found in Hg as ->].
  apply rule_found in Hg as (-> & Hin & _). apply keeps_tables; [|done].
  apply stays_bind; [|intros; apply stays_ret]. intros w2 Hw2.
  edestruct send_run as (a & w3 & Hs & S1 & S2 & S3 & S4 & _). rewrite Hs. cbn [snd].
  split; [by eapply sound_states|done].
Qed.
End scan.

(** ** Reachable tables *)
Inductive reachable : alert_world -> Prop :=
| reach_empty : reachable {| al_rules := []; al_next_rule := 1; al_states := []; al_next_state := 1;
                             al_sent := [] |}
| reach_scan E w : reachable w -> reachable (RunBackupAlertScan E w).2
| reach_create E req w : reachable w -> reachable (CreateBackupAlertRule E req w).2
| reach_update E id req w : reachable w -> reachable (UpdateBackupAlertRule E id req w).2
| reach_delete E id w : reachable w -> reachable (DeleteBackupAlertRule E id w).2
| reach_test E id now w : reachable w -> reachable (TestBackupAlertRule E id now w).2.

Lemma reachable_tables w : reachable w -> tables_ok w.
Proof.
  induction 1; [|by apply scan_tables|by apply create_tables|by apply update_tables|
    by apply delete_tables|by apply test_tables].
  split; [split; [split|]|split]; try done; try apply NoDup_nil_2. by intros s ?%not_elem_of_nil.
Qed.
End facts.
