(* ===== verification/AlertScanFacts.v ===== *)
(** * The backup alerts from end to end

    What the scans of every reachable table do: the alerts that fire are the
    candidates of the enabled rules, a notice is sent when it is due, an
    instance that cannot be read looks recovered, and an instance at risk is
    found by a rule for all the instances. *)

From Stdlib Require Import ZArith Lia.
From stdpp Require Import base tactics option list numbers sets.
From S2P Require Import Prelude GoStrings GoNumbers SqlSafety WriteExec BackupModel.
From S2P Require Import RestorePlan ProtectionModel ReplicaProtection ReplicaProtectionFacts.
From S2P Require Import Protection ProtectionRisk ProtectionFacts ProtectionListFacts.
From S2P Require Import BackupAlert BackupAlertFacts.

Open Scope Z_scope.

Section facts.
Context `{U : UnicodeTables, L : GoLib, P : ProtectionLib, A : AlertLib}.

(** Whatever the statements and the notifier answer, in every table that the
    operations reach a fingerprint names one state, and it is a fingerprint of
    the rule of its state; a rule has an id of its own. *)
Theorem alert_tables_sound w :
  reachable w ->
  NoDup (as_Fingerprint <$> al_states w) /\ NoDup (as_ID <$> al_states w) /\
  (forall s, s ∈ al_states w -> fingerprint_of (as_RuleID s) (as_Fingerprint s)) /\
  NoDup (ru_ID <$> al_rules w) /\ Forall (fun r => 0 < ru_ID r) (al_rules w).
Proof.
  intros [[[H1 H2 _ _] Ho] [H3 _ H4]]%reachable_tables. do 2 (split; [done|]).
  split; [by intros s [? _]%Ho|]. split; [done|].
  eapply list.Forall_impl; [exact H4|]. cbn. lia.
Qed.

Lemma scan_reachable E w w' :
  reachable w -> RunBackupAlertScan E w = (Ok tt, w') ->
  wf w' /\ owned w' /\
  (forall r, r ∈ al_rules w -> ru_Enabled r = true -> exists l,
     evaluateBackupAlertRule (ae_views E (ru_ID r)) (decodeBackupAlertRule r) = Ok l /\
     shows E (decodeBackupAlertRule r) l w') /\
  (forall s, (forall r, r ∈ al_rules w -> ru_Enabled r = true -> ru_ID r <> as_RuleID s) ->
     s ∈ al_states w' <-> s ∈ al_states w).
Proof.
  intros [[Hw Ho] [H1 _ H2]]%reachable_tables. apply scan_exact_tables; [done..|].
  eapply list.Forall_impl; [exact H2|]. cbn. lia.
Qed.

(** C13: After a scan that reports no error the firing alerts of every enabled rule
    are exactly the candidates that the rule found, and the alerts of the other
    rules, switched off or deleted, are as they were. *)
Theorem scan_exact E w w' :
  reachable w -> RunBackupAlertScan E w = (Ok tt, w') ->
  (forall r, r ∈ al_rules w -> ru_Enabled r = true -> exists l,
     evaluateBackupAlertRule (ae_views E (ru_ID r)) (decodeBackupAlertRule r) = Ok l /\
     forall fp, fp ∈ ca_Fingerprint <$> l <->
       exists s, s ∈ al_states w' /\ as_Fingerprint s = fp /\ as_RuleID s = ru_ID r /\
         as_Status s = DatabaseBackupAlertStateFiring) /\
  (forall s, (forall r, r ∈ al_rules w -> ru_Enabled r = true -> ru_ID r <> as_RuleID s) ->
     s ∈ al_states w' <-> s ∈ al_states w).
Proof.
  intros Hw H. destruct (scan_reachable _ _ _ Hw H) as (_ & _ & Hs & Hf). split; [|done].
  intros r Hr Hen. destruct (Hs r Hr Hen) as (l & He & [H1 H2]). exists l. split; [done|].
  intros fp. split.
  - intros (c & -> & Hc)%list_elem_of_fmap. destruct (H2 c Hc) as (s & Hin & Hfp & F1 & F2 & _). eauto.
  - intros (s & Hin & <- & Hrule & Hst). by apply H1.
Qed.

(** ** When a notice is due *)
(** The interval of a rule as the comparison reads it, without overflow. *)
Definition interval_ns (rule : DatabaseBackupAlertRule) : Z :=
  normalizedBackupAlertInterval (ru_AlertInterval rule) * 1000000000.

Lemma due_spec rule s now :
  interval_ns rule < 2 ^ 63 ->
  due rule (Some s) now = true <->
  as_Status s = DatabaseBackupAlertStateResolved \/
  (forall t, as_LastNotifiedAt s = Some t -> interval_ns rule <= now - t).
Proof.
  intros Hb. unfold due. rewrite orb_true_iff, bool_decide_eq_true.
  assert (Hi : 0 <= interval_ns rule).
  { unfold interval_ns, normalizedBackupAlertInterval. repeat case_match; bsimpl; lia. }
  destruct (as_LastNotifiedAt s) as [t|]; [|naive_solver].
  unfold duration. fold second. change (normalizedBackupAlertInterval (ru_AlertInterval rule) * second)
    with (interval_ns rule). rewrite int64_small by lia. unfold time_sub. rewrite Z.leb_le.
  split; (intros [?|H]; [by left|right]).
  - intros ? [= <-]. lia.
  - specialize (H t eq_refl). lia.
Qed.

(** A candidate whose alert fires is announced exactly when the interval of
    the rule, at least a minute, has passed since the notice before; the state
    then holds the candidate, fires, and keeps the time it fired first. *)
Theorem notice_when_due E rule c now w w' s notify :
  reachable w -> fingerprint_of (ru_ID rule) (ca_Fingerprint c) ->
  state_of w (ca_Fingerprint c) = Some s -> as_Status s <> DatabaseBackupAlertStateResolved ->
  ae_notifier E = Some notify -> interval_ns rule < 2 ^ 63 ->
  upsertBackupAlertState E rule c now w = (Ok tt, w') ->
  60 * 1000000000 <= interval_ns rule /\
  (exists s', state_of w' (ca_Fingerprint c) = Some s' /\ as_Status s' = DatabaseBackupAlertStateFiring /\
     as_FirstFiredAt s' = as_FirstFiredAt s /\ as_LastFiredAt s' = now) /\
  ((exists t, as_LastNotifiedAt s = Some t /\ now - t < interval_ns rule) /\ al_sent w' = al_sent w \/
   (forall t, as_LastNotifiedAt s = Some t -> interval_ns rule <= now - t) /\
   exists answer, al_sent w' = al_sent w ++ [(alert_notice rule c false, now, answer)]).
Proof.
  intros Hw Hof Hs Hst Hn Hb H. apply reachable_tables in Hw as [[Hw _] _].
  apply upsert_Ok in H as (s' & [A1 A2 A3 A4 A5 A6 A7] & [S1 S2 S3 S4 S5]); [|done|by apply fingerprint_trimmed in Hof as [? _]].
  rewrite Hs in *. split; [|split].
  - unfold interval_ns, normalizedBackupAlertInterval. repeat case_match; bsimpl; lia.
  - exists s'. rewrite S5, decide_True by done. done.
  - unfold sent_by in S4. rewrite Hn in S4. destruct (due rule (Some s) now) eqn:Hd.
    + right. apply due_spec in Hd as [?|Hd]; [done| |done]. split; [done|]. eauto.
    + left. rewrite app_nil_r in S4. split; [|done].
      destruct (as_LastNotifiedAt s) as [t|] eqn:Ht.
      * exists t. split; [done|]. apply Z.lt_nge. intros Hle. apply not_true_iff_false in Hd. apply Hd.
        apply due_spec; [done|]. right. rewrite Ht. by intros ? [= <-].
      * exfalso. apply not_true_iff_false in Hd. apply Hd. apply due_spec; [done|]. right. by rewrite Ht.
Qed.

(** ** An instance that cannot be read *)
Definition unreadable (v : view) (id : Z) : Prop := is_Some (v_error v (QInstance id)).

Lemma unreadable_get v id : unreadable v id -> exists e, instance_GetByID v id = Err e.
Proof. intros [e He]. exists e. unfold instance_GetByID, first_row, asked. by rewrite He. Qed.

Lemma unreadable_profiles v req :
  0 < lp_InstanceID req -> unreadable v (lp_InstanceID req) ->
  ListProtectionProfiles v req = Ok (Some [], 0).
Proof.
  intros Hpos Hun. unfold ListProtectionProfiles.
  cbn [normalizeProtectionProfileListRequest lp_InstanceID].
  rewrite (proj2 (Z.ltb_lt _ _) Hpos). by destruct (unreadable_get _ _ Hun) as [e ->].
Qed.

Lemma unreadable_risks v req :
  0 < lk_InstanceID req -> unreadable v (lk_InstanceID req) ->
  1 <= lk_Page req < page_bound ->
  ListProtectionRisks v req = Ok (Some [], 0).
Proof.
  intros Hpos Hun Hpage. unfold ListProtectionRisks. change 200%nat with (S 199). cbn [all_pages].
  rewrite unreadable_profiles by done. cbn [length].
  change (Z.of_nat 0 <? 100) with true. cbn [risks_of List.filter sort_stable foldr mbind list_bind].
  rewrite page_slice_rows.
  - cbn. unfold page_rows. by rewrite drop_nil, take_nil.
  - cbn [normalizeProtectionRiskListRequest lk_Page]. unfold listed_page.
    by rewrite (proj2 (Z.leb_gt _ _)) by lia.
  - pose proof (listed_size_bounds (lk_PageSize req)). cbn [normalizeProtectionRiskListRequest lk_PageSize]. lia.
Qed.

Lemma scoped_record v id status page size r l :
  0 < id -> record_List v id status page size = Ok l -> r ∈ l -> rd_InstanceID (r_details r) = id.
Proof.
  intros Hid. unfold record_List, asked. destruct (v_error v _); [done|]. intros [= <-] Hr.
  unfold page_rows in Hr. apply elem_of_take in Hr as (k & Hr & _). rewrite lookup_drop in Hr.
  apply list_elem_of_lookup_2 in Hr. rewrite sort_stable_perm in Hr.
  apply list_elem_of_In, List.filter_In in Hr as [_ Hr]. bsimpl.
  apply orb_true_iff in H as [H|H]; bsimpl; lia.
Qed.

(** A rule for one instance that cannot be read finds nothing. *)
Lemma unreadable_evaluated vs rule l :
  ru_ScopeType rule = DatabaseBackupAlertScopeInstance -> 0 < ru_InstanceID rule ->
  unreadable (vw_risks vs) (ru_InstanceID rule) -> unreadable (vw_profiles vs) (ru_InstanceID rule) ->
  unreadable (vw_records vs) (ru_InstanceID rule) ->
  evaluateBackupAlertRule vs rule = Ok l -> l = [].
Proof.
  intros Hscope Hpos H1 H2 H3. unfold evaluateBackupAlertRule.
  assert (Hid : scopedAlertInstanceID rule = ru_InstanceID rule).
  { unfold scopedAlertInstanceID. by rewrite Hscope, bool_decide_eq_true_2. }
  unfold collectProtectionRisksForAlertRule, collectProtectionProfilesForAlertRule.
  change 200%nat with (S 199). cbn [all_pages].
  rewrite unreadable_risks by (cbn [risk_request lk_InstanceID lk_Page]; rewrite ?Hid; done || by vm_compute).
  rewrite unreadable_profiles by (cbn [rule_profile_request lp_InstanceID]; by rewrite Hid).
  cbn [length no_panic List.filter]. change (Z.of_nat 0 <? 100) with true. cbn [no_panic fmap list_fmap omap list_omap app List.filter].
  destruct (collectFailedBackupRecordCandidates _ _ _ _) as [failed|e] eqn:Hf; [|done].
  intros [= <-]. assert (failed = []) as ->; [|done].
  revert Hf. unfold collectFailedBackupRecordCandidates. destruct (negb _); [by intros [= <-]|].
  destruct (no_panic _) as [records|e] eqn:Hr; [|done]. intros [= <-].
  apply no_panic_Ok, (all_pages_elem _ (fun r => rd_InstanceID (r_details r) = ru_InstanceID rule)) in Hr.
  - rewrite list.Forall_forall in Hr.
    assert (Hn : forall r, rd_InstanceID (r_details r) = ru_InstanceID rule ->
      failed_candidate (vw_records vs) rule (backupAlertThreshold rule) (vw_now vs) r = None).
    { intros r Hri. unfold failed_candidate. destruct (_ <? _); [done|].
      unfold loadBackupAlertInstance. rewrite Hri, (proj2 (Z.eqb_neq _ _)) by lia.
      destruct (unreadable_get _ _ H3) as [e ->]. cbn [found backupAlertRuleMatchesInstance].
      by rewrite Hscope, bool_decide_eq_false_2 by done. }
    induction records as [|r records IH]; [done|]. cbn [omap list_omap].
    rewrite Hn by by apply Hr; left. apply IH. intros x Hx. apply Hr. by right.
  - intros page k total Hk. apply list.Forall_forall. intros r Hin.
    destruct (record_List _ _ _ page 100) as [rows|e] eqn:Hrows; [|done]. injection Hk as <- _.
    rewrite Hid in Hrows. by eapply scoped_record.
Qed.

(** C25: When the rows of an instance cannot be read, a scan that reports no error
    ends every alert of the rules for that instance, as if it had recovered. *)
Theorem unreadable_instance_recovers E w w' r :
  reachable w -> RunBackupAlertScan E w = (Ok tt, w') ->
  r ∈ al_rules w -> ru_Enabled r = true ->
  normalizeBackupAlertScope (ru_ScopeType r) = DatabaseBackupAlertScopeInstance ->
  0 < ru_InstanceID r ->
  let vs := ae_views E (ru_ID r) in
  unreadable (vw_risks vs) (ru_InstanceID r) -> unreadable (vw_profiles vs) (ru_InstanceID r) ->
  unreadable (vw_records vs) (ru_InstanceID r) ->
  forall s, s ∈ al_states w' -> as_RuleID s = ru_ID r -> as_Status s <> DatabaseBackupAlertStateFiring.
Proof.
  intros Hw H Hr Hen Hscope Hpos vs H1 H2 H3 s Hs Hrule Hst.
  destruct (scan_reachable _ _ _ Hw H) as (_ & _ & Hshow & _).
  destruct (Hshow r Hr Hen) as (l & He & [Hfound _]).
  apply unreadable_evaluated in He as ->; [|done..].
  specialize (Hfound s Hs Hrule Hst). by apply not_elem_of_nil in Hfound.
Qed.

(** ** An instance at risk *)
Lemma level_in_risk_levels p : RiskLevel (applyProtectionAssessment p) <> DatabaseQueryRiskLow ->
  RiskLevel (applyProtectionAssessment p) ∈ risk_levels.
Proof.
  cbn [applyProtectionAssessment RiskLevel]. unfold findings_risk, risk_levels.
  repeat case_match; cbn [fst]; set_solver.
Qed.

Lemma deduped_sub seen l a : a ∈ dedupe_loop seen l -> a ∈ l.
Proof.
  revert seen. induction l as [|x l IH]; intros seen; cbn [dedupe_loop]; [done|].
  destruct (one_of _ _); intros H; [right; by eapply IH|].
  apply elem_of_cons in H as [->|H]; [by left | right; by eapply IH].
Qed.

Lemma action_levels p a :
  RiskLevel (applyProtectionAssessment p) <> DatabaseQueryRiskLow ->
  a ∈ profile_actions (applyProtectionAssessment p) -> ac_Level a ∈ risk_levels.
Proof.
  intros Hl. unfold profile_actions.
  destruct (RecommendedActions (applyProtectionAssessment p)) as [|b l] eqn:Ha.
  - cbv iota. rewrite list_elem_of_singleton. intros ->. by apply level_in_risk_levels.
  - rewrite <-Ha. cbn [applyProtectionAssessment RecommendedActions]. intros Hin%deduped_sub.
    apply list_elem_of_omap in Hin as (f & Hf & Hact). pose proof (findings_proper p) as Hp.
    rewrite list.Forall_forall in Hp. destruct (Hp _ Hf) as [Hlevel _ Haction].
    by rewrite (Haction _ Hact).
Qed.

Lemma chosen_action message actions :
  actions <> [] -> protectionActionForMessage message actions ∈ actions.
Proof.
  intros Hne. unfold protectionActionForMessage.
  destruct (List.find _ actions) as [a|] eqn:Hf; [by apply List.find_some in Hf as [?%list_elem_of_In _]|].
  destruct (List.find ac_Blocking actions) as [a|] eqn:Hb; [by apply List.find_some in Hb as [?%list_elem_of_In _]|].
  destruct actions; [done|]. by left.
Qed.

Lemma profile_actions_some p : profile_actions p <> [].
Proof. unfold profile_actions. by destruct (RecommendedActions p). Qed.

Lemma risk_rank l : l ∈ risk_levels -> TrimSpace l = l /\ l <> [] /\ 2 <= protectionRiskRank l.
Proof.
  assert (H : Forall (fun l => TrimSpace l = l /\ l <> [] /\ 2 <= protectionRiskRank l) risk_levels).
  { unfold risk_levels. repeat constructor; try (by vm_compute); lia. }
  rewrite list.Forall_forall in H. apply H.
Qed.

Lemma risk_rank_at_risk p k m :
  RiskLevel (applyProtectionAssessment p) <> DatabaseQueryRiskLow ->
  let q := applyProtectionAssessment p in
  2 <= backupAlertSeverityRank (rk_RiskLevel (risk_of q (profile_actions q) k m)).
Proof.
  intros Hl q. cbn [risk_of rk_RiskLevel].
  assert (Ha : ac_Level (protectionActionForMessage m (profile_actions q)) ∈ risk_levels).
  { eapply action_levels; [done|]. apply chosen_action, profile_actions_some. }
  destruct (risk_rank _ Ha) as (Ht & Hn & Hr). unfold firstNonEmpty. cbn [List.find].
  rewrite Ht, bool_decide_eq_false_2 by done. cbn [negb]. unfold backupAlertSeverityRank. by rewrite !Ht.
Qed.

(** The risks a rule for all the instances looks at. *)
Definition rule_request (r : DatabaseBackupAlertRule) : DatabaseProtectionRiskListRequest :=
  normalizeProtectionRiskListRequest (risk_request r 1).

Lemma collected_risks v r instances :
  scopedAlertInstanceID r = 0 -> request_instances v (rule_request r) = Ok instances ->
  Z.of_nat (length (request_risks v (rule_request r) instances)) <= 20000 ->
  collectProtectionRisksForAlertRule v r = Ok (request_risks v (rule_request r) instances).
Proof.
  intros Hid Hi Hlen. unfold collectProtectionRisksForAlertRule.
  rewrite (all_pages_all _ 100 200 (request_risks v (rule_request r) instances)); [done|lia|lia|lia|].
  intros page Hpage. rewrite (risks_listed v (risk_request r page)).
  - change (request_instances v (normalizeProtectionRiskListRequest (risk_request r page)))
      with (request_instances v (rule_request r)). rewrite Hi.
    change (request_risks v (normalizeProtectionRiskListRequest (risk_request r page)) instances)
      with (request_risks v (rule_request r) instances).
    cbn [risk_request lk_Page lk_PageSize]. unfold listed_page.
    rewrite (proj2 (Z.leb_gt page 0)) by lia. eauto.
  - cbn [risk_request lk_InstanceID]. lia.
  - cbn [risk_request lk_Page]. lia.
Qed.

(** A profile at risk of a listed instance is among the risks of the rule. *)
Lemma at_risk_listed v r instances i p :
  ru_ScopeType r = DatabaseBackupAlertScopeAll ->
  i ∈ instances -> buildProtectionProfile v i = Some p -> RiskLevel p <> DatabaseQueryRiskLow ->
  exists k, k ∈ request_risks v (rule_request r) instances /\ rk_profile k = p /\
    2 <= backupAlertSeverityRank (rk_RiskLevel k) /\ rk_IssueType k ∈ alert_issues.
Proof.
  intros Hscope Hi Hp Hlow. destruct (build_assessed _ _ _ _ _ Hp) as [q Hq].
  destruct (RiskMessages p) as [|m messages] eqn:Hm.
  { exfalso. subst p. apply Hlow, low_risk_spec, low_risk_spec, Hm. }
  exists (risk_of p (profile_actions p) 0 m).
  assert (Heng : scopedAlertEngine r = []).
  { unfold scopedAlertEngine. by rewrite Hscope, bool_decide_eq_false_2. }
  assert (Hprod : lk_ProductionOnly (rule_request r) = []).
  { cbn [rule_request normalizeProtectionRiskListRequest risk_request lk_ProductionOnly].
    by rewrite Hscope, bool_decide_eq_false_2. }
  split; [|split; [done|]].
  - unfold request_risks. rewrite sort_stable_perm. unfold risks_of. apply list_elem_of_bind. exists p.
    split.
    + unfold expandProtectionRisks. rewrite Hm. apply list_elem_of_In, List.filter_In.
      split; [by left|]. unfold asks. by rewrite bool_decide_eq_true_2.
    + apply list_elem_of_In, List.filter_In. rewrite <-list_elem_of_In. split.
      * unfold request_profiles, matching_profiles. rewrite sort_stable_perm.
        apply list_elem_of_In, List.filter_In. rewrite <-list_elem_of_In.
        unfold rule_request, profiles_request. split; [|done].
        apply list_elem_of_omap. exists i. split; [|done]. apply list_elem_of_In, List.filter_In.
        rewrite <-list_elem_of_In. split; [done|]. unfold profileInstanceMatches.
        cbn [normalizeProtectionProfileListRequest profile_request normalizeProtectionRiskListRequest
             risk_request lp_Engine lp_Keyword lk_Engine lk_Keyword]. by rewrite Heng.
      * unfold protectionRiskProfileMatches. by rewrite Hprod.
  - subst p. split; [by apply risk_rank_at_risk | apply issue_known].
Qed.

(** ** From the risk to the alert *)
(** A rule for all the instances and all the issues, from a medium risk on. *)
Record watches_all (r : DatabaseBackupAlertRule) : Prop := {
  wa_enabled : ru_Enabled r = true;
  wa_scope : normalizeBackupAlertScope (ru_ScopeType r) = DatabaseBackupAlertScopeAll;
  wa_issues : ru_IssueTypes (decodeBackupAlertRule r) = [];
  wa_level : backupAlertSeverityRank (MinRiskLevel (backupAlertThreshold r)) <= 2 }.

Lemma watches_accepts r issue : watches_all r ->
  backupAlertRuleAcceptsIssue (decodeBackupAlertRule r) issue = true.
Proof.
  intros [_ _ Hi _]. unfold backupAlertRuleAcceptsIssue.
  assert (H : ru_IssueTypes (decodeBackupAlertRule (decodeBackupAlertRule r)) = []).
  { revert Hi. cbn [decodeBackupAlertRule ru_IssueTypes ru_IssueTypesJSON].
    destruct (ru_IssueTypes r) as [|x l]; [|done]. intros Hi. by rewrite Hi. }
  by rewrite H.
Qed.

Lemma at_risk_candidate vs r instances i p l :
  watches_all r -> let v := vw_risks vs in let d := decodeBackupAlertRule r in
  request_instances v (rule_request d) = Ok instances -> i ∈ instances ->
  Z.of_nat (length (request_risks v (rule_request d) instances)) <= 20000 ->
  buildProtectionProfile v i = Some p -> RiskLevel p <> DatabaseQueryRiskLow ->
  evaluateBackupAlertRule vs d = Ok l ->
  exists issue, issue ∈ alert_issues /\
    backupAlertFingerprint (ru_ID r) $"database_instance" (mi_ID i) issue ∈ ca_Fingerprint <$> l.
Proof.
  intros Hr v d Hinst Hi Hlen Hp Hlow He. unfold evaluateBackupAlertRule in He. fold v in He.
  assert (Hscope : ru_ScopeType d = DatabaseBackupAlertScopeAll) by apply (wa_scope _ Hr).
  rewrite (collected_risks v d instances) in He; [|unfold scopedAlertInstanceID; by rewrite Hscope, bool_decide_eq_false_2|done..].
  destruct (collectFailedBackupRecordCandidates _ _ _ _) as [failed|e]; [|done]. injection He as <-.
  destruct (at_risk_listed v d instances i p Hscope Hi Hp Hlow) as (k & Hk & Hkp & Hrank & Hissue).
  exists (normalizedRiskIssueType (rk_IssueType k)). split; [by apply normalized_known|].
  rewrite sort_stable_perm, !fmap_app, !elem_of_app. left.
  apply list_elem_of_fmap. exists (candidateFromProtectionRisk d k). split.
  - unfold candidateFromProtectionRisk. cbn [candidate_of ca_Fingerprint ai_ResourceType ai_ResourceID ai_IssueType].
    rewrite Hkp. destruct (build_profile_instance _ _ _ Hp). done.
  - apply list_elem_of_fmap_2, list_elem_of_In, List.filter_In. rewrite <-list_elem_of_In.
    split; [done|]. unfold backupAlertRuleMatchesRisk, d. rewrite (watches_accepts r) by done. cbn [negb].
    rewrite (proj2 (Z.ltb_ge _ _)).
    + unfold backupAlertRuleMatchesProfileScope, scope_matches. fold d. by rewrite Hscope.
    + etrans; [apply (wa_level _ Hr)|done].
Qed.

(** C15: Every listed instance whose risk is not low has a firing alert after a scan
    that reports no error, for a rule that watches all the instances. *)
Theorem at_risk_instance_alerts E w w' r i p instances :
  reachable w -> RunBackupAlertScan E w = (Ok tt, w') -> r ∈ al_rules w -> watches_all r ->
  let v := vw_risks (ae_views E (ru_ID r)) in
  let req := rule_request (decodeBackupAlertRule r) in
  request_instances v req = Ok instances -> i ∈ instances ->
  Z.of_nat (length (request_risks v req instances)) <= 20000 ->
  buildProtectionProfile v i = Some p -> RiskLevel p <> DatabaseQueryRiskLow ->
  exists s issue, s ∈ al_states w' /\ as_RuleID s = ru_ID r /\
    as_Status s = DatabaseBackupAlertStateFiring /\ issue ∈ alert_issues /\
    as_Fingerprint s = backupAlertFingerprint (ru_ID r) $"database_instance" (mi_ID i) issue.
Proof.
  intros Hw H Hr Hall v req Hi Hin Hlen Hp Hlow.
  destruct (scan_reachable _ _ _ Hw H) as (_ & _ & Hshow & _).
  destruct (Hshow r Hr (wa_enabled _ Hall)) as (l & He & [_ Hfire]).
  destruct (at_risk_candidate _ r instances i p l Hall Hi Hin Hlen Hp Hlow He) as (issue & Hk & Hfp).
  apply list_elem_of_fmap in Hfp as (c & Hc & Hcl).
  destruct (Hfire c Hcl) as (s & Hs & Hsfp & F1 & F2 & _). exists s, issue. by rewrite Hsfp.
Qed.
End facts.
