(* ===== verification/ProtectionExamples.v ===== *)
(** * Protection profiles and backup alerts on concrete tables

    The libraries outside evaluated on a primary with everything in order and a
    delayed replica, and on a bare instance that a rule watches: the theorems
    of the protection and of the alerts applied where their hypotheses hold. *)

From Stdlib Require Import ZArith Lia.
From stdpp Require Import base tactics option list numbers relations.
From S2P Require Import Prelude GoStrings GoNumbers SqlSafety WriteExec BackupModel LogStream LogStreamFacts.
From S2P Require Import RestorePlan ProtectionModel ReplicaProtection ReplicaProtectionFacts.
From S2P Require Import Protection ProtectionRisk ProtectionFacts ProtectionListFacts.
From S2P Require Import BackupAlert BackupAlertFacts AlertScanFacts.

Open Scope Z_scope.

#[local] Existing Instance sample_tables.
#[local] Existing Instance sample_lib.
(** Times are printed as numbers; no text is read back as one. *)
#[local] Instance sample_protection : ProtectionLib := {|
  json_strings _ := []; parse_in_location _ _ := None; sql_like _ _ := true |}.
#[local] Instance sample_alert_lib : AlertLib := {|
  json_ids _ := []; json_threshold _ := no_threshold; marshal_strings _ := [];
  marshal_ids _ := []; marshal_threshold _ := []; marshal_context _ := [] |}.

(** ** A primary with everything in order *)
Definition sample_managed (id : Z) (dbType : gostring) : ManagedInstance := {|
  mi_row := {| i_ID := id; i_Name := $"orders"; i_DBType := dbType; i_Host := $"10.0.0.9";
    i_Port := 3306; i_DefaultDatabase := []; i_CredentialID := 1; i_TLSEnabled := false;
    i_Status := DatabaseInstanceStatusEnabled |};
  mi_Version := []; mi_Environment := $"prod"; mi_BusinessSystem := []; mi_Owner := [] |}.

Definition sample_chain_state : DatabaseBackupChainState := {|
  s_ID := 1; s_PolicyID := 1; s_InstanceID := 9; s_ChainID := $"c1"; s_CurrentBaseRecordID := 1;
  s_LatestRecordID := 1; s_LatestFullRecordID := 1; s_LatestSyntheticRecordID := 0;
  s_IncrementalCount := 0; s_ChainStartedAt := Some 1; s_LastSuccessAt := Some 2;
  s_RecoverableUntil := Some 2; s_Status := $"healthy"; s_LastValidationStatus := $"complete";
  s_LastError := [] |}.

Definition sample_relation : DatabaseInstanceReplica := {|
  ir_ID := 1; ir_PrimaryInstanceID := 9; ir_ReplicaInstanceID := 10;
  ir_ReplicaRole := DatabaseReplicaRoleDelayed; ir_ConfiguredDelaySeconds := 3600;
  ir_DiscoverySource := $"manual"; ir_Status := DatabaseReplicaHealthHealthy; ir_LastCheckedAt := Some 5 |}.

Definition sample_check (engine : gostring) : DatabaseReplicationCheck := {|
  ck_ID := 1; ck_InstanceID := 10; ck_Engine := engine; ck_RoleDetected := DatabaseReplicationRoleReplica;
  ck_SourceInstanceID := 9; ck_SecondsBehindSource := 3600; ck_ConfiguredDelaySeconds := 3600;
  ck_RemainingDelaySeconds := 3000; ck_RelayLogBytes := 0; ck_PGLastXactReplayTimestamp := None;
  ck_WALBacklogBytes := 0; ck_HealthStatus := DatabaseReplicaHealthHealthy; ck_RiskFlagsJSON := [];
  ck_CheckedAt := Some 5 |}.

Definition no_rows : view := {|
  v_now := 1000; v_error := fun _ => None; v_instances := []; v_policies := []; v_chains := [];
  v_tasks := []; v_records := []; v_streams := []; v_archives := []; v_runners := [];
  v_storages := []; v_jobs := []; v_replicas := []; v_checks := []; v_barman := [] |}.

(** [drills]: the restore jobs of the primary. *)
Definition sample_view (drills : list DatabaseRestoreJob) : view := {|
  v_now := 1000; v_error := fun _ => None;
  v_instances := [sample_managed 9 $"mysql"; sample_managed 10 $"mysql"];
  v_policies := [{| po_policy := sample_policy_config []; po_StorageProfileID := 5;
    po_LastFullAt := Some 1; po_LastIncrementalAt := None; po_LastRestoreDrillAt := None |}];
  v_chains := [sample_chain_state]; v_tasks := []; v_records := [sample_record 1 0 $"full" $"0" $"100"];
  v_streams := [{| sr_stream := sample_stream; sr_StorageProfileID := 5 |}]; v_archives := [];
  v_runners := [{| h_ID := 4; h_RunnerType := $"agent"; h_Host := []; h_Port := 22; h_Enabled := true;
    h_Status := $"online"; h_LastHeartbeatAt := None; h_LastError := []; h_ConfigJSON := [] |}];
  v_storages := [{| sp_ID := 5; sp_PostureStatus := $"passed" |}];
  v_jobs := drills; v_replicas := [sample_relation]; v_checks := [sample_check DBTypeMySQL];
  v_barman := [] |}.
Definition sample_drill : DatabaseRestoreJob := {|
  rj_ID := 1; rj_SourceInstanceID := 9; rj_Status := DatabaseRestoreStatusVerified;
  rj_FinishedAt := Some 900; rj_UpdatedAt := 900; rj_CreatedAt := 800 |}.

Definition verdict (v : view) (id : Z) : option (gostring * gostring * gostring * Z) :=
  match instance_GetByID v id with
  | Ok i => match buildProtectionProfile v i with
            | Some p => Some (ProtectionMode p, ProtectionLevel p, RiskLevel p, Z.of_nat (length (RiskMessages p)))
            | None => None
            end
  | Err _ => None
  end.

(** The primary is verified, and so is the replica that inherits from it. *)
Example verified_primary :
  verdict (sample_view [sample_drill]) 9 =
    Some (DatabaseProtectionModeMySQLPhysicalPITR, DatabaseProtectionLevelHAAndPITRVerified,
          DatabaseQueryRiskLow, 0) /\
  verdict (sample_view [sample_drill]) 10 =
    Some (DatabaseProtectionModeInherited, DatabaseProtectionLevelHAAndPITRVerified,
          DatabaseQueryRiskLow, 0).
Proof. by vm_compute. Qed.

(** Without a drill the level is not verified and the risk is medium. *)
Example no_drill :
  verdict (sample_view []) 9 =
    Some (DatabaseProtectionModeMySQLPhysicalPITR, DatabaseProtectionLevelPITRCapable,
          DatabaseQueryRiskMedium, 1).
Proof. by vm_compute. Qed.

Definition sample_profile : DatabaseProtectionProfileVO :=
  match buildProtectionProfile (sample_view [sample_drill]) (sample_managed 10 $"mysql") with
  | Some p => p
  | None => own (sample_view [sample_drill]) (sample_managed 10 $"mysql")
  end.
Lemma sample_profile_built :
  buildProtectionProfile (sample_view [sample_drill]) (sample_managed 10 $"mysql") = Some sample_profile.
Proof. by vm_compute. Qed.

Lemma level_grounded_witness :
  exists j, rtc (primary_of (sample_view [sample_drill])) (sample_managed 10 $"mysql") j /\
    verified_recovery (sample_view [sample_drill]) j /\
    (0 <= mi_ID j -> open_window (sample_view [sample_drill]) j).
Proof.
  destruct (level_grounded _ _ _ sample_profile_built) as (j & Hj & _ & Hv & Hw).
  exists j. split; [exact Hj|]. split; [apply Hv | apply Hw].
  - apply (bool_decide_unpack _). vm_compute. exact I.
  - vm_compute. reflexivity.
Defined.

Lemma low_risk_iff_witness : in_good_order sample_profile.
Proof. apply (proj1 (low_risk_iff _ _ _ sample_profile_built)). vm_compute. reflexivity. Defined.

(** Two instances that are replicas of each other: the walk ends. *)
Definition circular_view : view := {|
  v_now := 1000; v_error := fun _ => None;
  v_instances := [sample_managed 9 $"mysql"; sample_managed 10 $"mysql"]; v_policies := [];
  v_chains := []; v_tasks := []; v_records := []; v_streams := []; v_archives := [];
  v_runners := []; v_storages := []; v_jobs := [];
  v_replicas := [sample_relation; {| ir_ID := 2; ir_PrimaryInstanceID := 10; ir_ReplicaInstanceID := 9;
    ir_ReplicaRole := DatabaseReplicaRoleRealtime; ir_ConfiguredDelaySeconds := 0;
    ir_DiscoverySource := $"manual"; ir_Status := DatabaseReplicaHealthHealthy; ir_LastCheckedAt := None |}];
  v_checks := []; v_barman := [] |}.
Example circular_ends : verdict circular_view 9 =
  Some (DatabaseProtectionModeNone, DatabaseProtectionLevelNone, DatabaseQueryRiskCritical, 1).
Proof. by vm_compute. Qed.

(** A replica with a backup record of its own says nothing of its primary: the
    primary is at a critical risk, the replica that inherits from it at none. *)
Definition replica_view : view := {|
  v_now := 1000; v_error := fun _ => None;
  v_instances := [sample_managed 9 $"mysql"; sample_managed 10 $"mysql"]; v_policies := [];
  v_chains := []; v_tasks := [
    {| bt_ID := 1; bt_InstanceID := 9; bt_BackupType := $"logical"; bt_BackupMethod := $"logical";
       bt_StorageProfileID := 0; bt_Enabled := true; bt_LastSuccessAt := None;
       bt_LastRestoreTestAt := None; bt_LastStatus := $"failed" |};
    {| bt_ID := 2; bt_InstanceID := 10; bt_BackupType := $"logical"; bt_BackupMethod := $"logical";
       bt_StorageProfileID := 0; bt_Enabled := true; bt_LastSuccessAt := None;
       bt_LastRestoreTestAt := None; bt_LastStatus := [] |}];
  v_records := []; v_streams := []; v_archives := []; v_runners := []; v_storages := [];
  v_jobs := []; v_replicas := [sample_relation]; v_checks := [sample_check DBTypeMySQL]; v_barman := [] |}.
Example replica_hides_primary :
  verdict replica_view 9 =
    Some (DatabaseProtectionModeLogicalBackup, DatabaseProtectionLevelBackupOnly, DatabaseQueryRiskHigh, 1) /\
  verdict replica_view 10 =
    Some (DatabaseProtectionModeInherited, DatabaseProtectionLevelBackupOnly, DatabaseQueryRiskLow, 0).
Proof. by vm_compute. Qed.

(** The window of a primary of PostgreSQL is degraded by the message of its
    own estimate, with the same healthy replica and check. *)
Example postgres_degraded :
  let relations := [sample_relation] in
  let v engine := {| v_now := 1000; v_error := fun _ => None; v_instances := []; v_policies := [];
    v_chains := []; v_tasks := []; v_records := []; v_streams := []; v_archives := []; v_runners := [];
    v_storages := []; v_jobs := []; v_replicas := relations; v_checks := [sample_check engine];
    v_barman := [] |} in
  let status engine := rp_ProtectionStatus (buildReplicaProtectionVO (v engine) (sample_managed 9 engine)
    relations (normalizeReplicaProtectionThresholds None)) in
  status DBTypeMySQL = DatabaseReplicaProtectionProtected /\
  status DBTypePostgreSQL = DatabaseReplicaProtectionDegraded.
Proof. by vm_compute. Qed.

(** ** A bare instance and a rule *)
Definition bare_view (refused : bool) : view := {|
  v_now := 1000; v_error := fun q => if refused then
    match q with QInstance 9 => Some $"driver: bad connection" | _ => None end else None;
  v_instances := [sample_managed 9 $"mysql"]; v_policies := []; v_chains := []; v_tasks := [];
  v_records := []; v_streams := []; v_archives := []; v_runners := []; v_storages := [];
  v_jobs := []; v_replicas := []; v_checks := []; v_barman := [] |}.

Definition sample_env (refused : bool) (now : Z) : alert_env := {|
  ae_views := fun _ => {| vw_risks := bare_view refused; vw_profiles := bare_view refused;
                          vw_records := bare_view refused; vw_now := now |};
  ae_list_enabled := None; ae_get_rule := fun _ => None; ae_save_rule := None;
  ae_delete_rule := None; ae_get_state := fun _ => None; ae_create_state := fun _ => None;
  ae_update_state := fun _ => None; ae_list_firing := fun _ => None;
  ae_notifier := Some (fun _ _ => None) |}.

Definition sample_rule (scope : gostring) (enabled : bool) : DatabaseBackupAlertRuleRequest := {|
  qr_Name := $"backups"; qr_Enabled := enabled; qr_ScopeType := scope; qr_InstanceID := 9;
  qr_Engine := []; qr_BusinessSystem := []; qr_Owner := []; qr_IssueTypes := [];
  qr_Severity := $"high"; qr_AlertInterval := 600; qr_RecoveryNotify := true; qr_ChannelIDs := [1];
  qr_Threshold := no_threshold; qr_Description := [] |}.

Definition empty_world : alert_world := {|
  al_rules := []; al_next_rule := 1; al_states := []; al_next_state := 1; al_sent := [] |}.
Definition with_rule (scope : gostring) : alert_world :=
  (CreateBackupAlertRule (sample_env false 0) (Some (sample_rule scope true)) empty_world).2.
Definition scanned (scope : gostring) : alert_world :=
  (RunBackupAlertScan (sample_env false 1000) (with_rule scope)).2.
Lemma with_rule_reachable scope : reachable (with_rule scope).
Proof. apply reach_create, reach_empty. Qed.
Lemma scanned_reachable scope : reachable (scanned scope).
Proof. apply reach_scan, with_rule_reachable. Qed.

Lemma alert_tables_sound_witness : NoDup (as_Fingerprint <$> al_states (scanned $"instance")).
Proof. apply (alert_tables_sound _ (scanned_reachable _)). Defined.

Definition firing_alerts (w : alert_world) : Z := Z.of_nat (length (List.filter is_firing (al_states w))).
Definition messages (w : alert_world) : list (gostring * bool) :=
  (fun x => (ai_Message (ca_issue (nt_Candidate x.1.1)), nt_Resolved x.1.1)) <$> al_sent w.

(** The unprotected instance fires; when its row cannot be read the alert ends
    and the channels hear that it recovered. The two risks of the instance
    count as one issue: the first is announced, the second is recovered. *)
Example false_recovery :
  firing_alerts (scanned $"instance") = 1 /\
  messages (scanned $"instance") = [($"当前实例没有启用备份策略或成功备份记录", false)] /\
  let w := (RunBackupAlertScan (sample_env true 2000) (scanned $"instance")).2 in
  firing_alerts w = 0 /\
  messages w = [($"当前实例没有启用备份策略或成功备份记录", false);
                ($"已恢复：延迟副本保护窗口不可用或降级", true)].
Proof. by vm_compute. Qed.

(** A rule that is created switched off is stored switched on. *)
Example created_disabled :
  (ru_Enabled <$> al_rules (CreateBackupAlertRule (sample_env false 0)
    (Some (sample_rule $"all" false)) empty_world).2) = [true].
Proof. by vm_compute. Qed.

(** ** The theorems at these tables *)
Lemma all_scanned : RunBackupAlertScan (sample_env false 1000) (with_rule $"all") = (Ok tt, scanned $"all").
Proof. by vm_compute. Qed.
Lemma instance_scanned :
  RunBackupAlertScan (sample_env true 2000) (scanned $"instance") =
    (Ok tt, (RunBackupAlertScan (sample_env true 2000) (scanned $"instance")).2).
Proof. by vm_compute. Qed.

(** The rule that both tables hold. *)
Definition stored_rule (scope : gostring) : DatabaseBackupAlertRule :=
  match al_rules (with_rule scope) with
  | r :: _ => r
  | [] => inserted_rule (decodeBackupAlertRule {|
      ru_ID := 0; ru_Name := []; ru_Enabled := true; ru_ScopeType := []; ru_InstanceID := 0;
      ru_Engine := []; ru_BusinessSystem := []; ru_Owner := []; ru_IssueTypesJSON := [];
      ru_Severity := []; ru_AlertInterval := 0; ru_RecoveryNotify := true; ru_ChannelIDsJSON := [];
      ru_ThresholdJSON := []; ru_Description := []; ru_IssueTypes := []; ru_ChannelIDs := [] |}) 0
  end.
Lemma stored_all : stored_rule $"all" ∈ al_rules (with_rule $"all").
Proof. assert (al_rules (with_rule $"all") = [stored_rule $"all"]) as -> by by vm_compute. by left. Qed.
Lemma stored_instance : stored_rule $"instance" ∈ al_rules (scanned $"instance").
Proof. assert (al_rules (scanned $"instance") = [stored_rule $"instance"]) as -> by by vm_compute. by left. Qed.

Lemma scan_exact_witness :
  exists l, evaluateBackupAlertRule (ae_views (sample_env false 1000) (ru_ID (stored_rule $"all")))
      (decodeBackupAlertRule (stored_rule $"all")) = Ok l /\
    forall fp, fp ∈ ca_Fingerprint <$> l <->
      exists s, s ∈ al_states (scanned $"all") /\ as_Fingerprint s = fp /\
        as_RuleID s = ru_ID (stored_rule $"all") /\ as_Status s = DatabaseBackupAlertStateFiring.
Proof.
  apply (scan_exact _ _ _ (with_rule_reachable $"all") all_scanned); [apply stored_all|].
  vm_compute. reflexivity.
Defined.

(** The alert that the rule for the instance raised before, still stored after
    the scan that cannot read the instance. *)
Lemma ended_alert_stored :
  let w := (RunBackupAlertScan (sample_env true 2000) (scanned $"instance")).2 in
  exists s, s ∈ al_states w /\ as_RuleID s = ru_ID (stored_rule $"instance").
Proof.
  cbv zeta.
  assert (ru_ID (stored_rule $"instance") ∈
    as_RuleID <$> al_states (RunBackupAlertScan (sample_env true 2000) (scanned $"instance")).2) as H
    by (eapply bool_decide_unpack; vm_compute; exact I).
  apply list_elem_of_fmap in H as (s & Hid & Hs). by exists s.
Qed.
Lemma unreadable_instance_recovers_witness :
  exists s, s ∈ al_states (RunBackupAlertScan (sample_env true 2000) (scanned $"instance")).2 /\
    as_RuleID s = ru_ID (stored_rule $"instance") /\ as_Status s <> DatabaseBackupAlertStateFiring.
Proof.
  destruct ended_alert_stored as (s & Hs & Hrule). exists s. split; [done|]. split; [done|]. revert s Hs Hrule.
  apply (unreadable_instance_recovers _ _ _ _ (scanned_reachable $"instance") instance_scanned stored_instance);
    try (vm_compute; reflexivity); vm_compute; eexists; reflexivity.
Defined.

Lemma watches_sample : watches_all (stored_rule $"all").
Proof. split; try (by vm_compute). Qed.

Definition bare_profile : DatabaseProtectionProfileVO :=
  match buildProtectionProfile (bare_view false) (sample_managed 9 $"mysql") with
  | Some p => p
  | None => own (bare_view false) (sample_managed 9 $"mysql")
  end.
Lemma at_risk_instance_alerts_witness :
  exists s issue, s ∈ al_states (scanned $"all") /\ as_RuleID s = ru_ID (stored_rule $"all") /\
    as_Status s = DatabaseBackupAlertStateFiring /\ issue ∈ alert_issues /\
    as_Fingerprint s = backupAlertFingerprint (ru_ID (stored_rule $"all")) $"database_instance" 9 issue.
Proof.
  apply (at_risk_instance_alerts _ _ _ _ (sample_managed 9 $"mysql") bare_profile [sample_managed 9 $"mysql"]
    (with_rule_reachable $"all") all_scanned stored_all watches_sample).
  - vm_compute. reflexivity.
  - left.
  - vm_compute. discriminate.
  - vm_compute. reflexivity.
  - vm_compute. discriminate.
Defined.

(** The alert of the bare instance, ten minutes and one second later. *)
Definition first_candidate : DatabaseBackupAlertCandidate :=
  match evaluateBackupAlertRule (ae_views (sample_env false 1000) 1)
          (decodeBackupAlertRule (stored_rule $"all")) with
  | Ok (c :: _) => c
  | _ => candidateFromAlertState (fired (stored_rule $"all")
           (candidate_of (stored_rule $"all") {|
              ai_InstanceID := 0; ai_ResourceType := []; ai_ResourceID := 0; ai_ResourceName := [];
              ai_ResourceTarget := []; ai_IssueType := []; ai_AlertType := []; ai_Metric := [];
              ai_Severity := []; ai_Message := []; ai_Suggestion := []; ai_RawJSON := [] |}) None 0)
  end.
Definition first_state : DatabaseBackupAlertState :=
  match al_states (scanned $"all") with
  | s :: _ => s
  | [] => fired (stored_rule $"all") first_candidate None 0
  end.
Definition sample_later : Z := 601 * 1000000000.
Definition noticed : alert_world :=
  (upsertBackupAlertState (sample_env false sample_later) (stored_rule $"all") first_candidate sample_later
     (scanned $"all")).2.
Lemma first_candidate_of : fingerprint_of (ru_ID (stored_rule $"all")) (ca_Fingerprint first_candidate).
Proof.
  exists $"database_instance", 9, DatabaseProtectionIssueMissingFullBackup.
  split; [apply (bool_decide_unpack _); by vm_compute|].
  split; [apply (bool_decide_unpack _); by vm_compute|]. by vm_compute.
Qed.

Lemma notice_when_due_witness :
  60 * 1000000000 <= interval_ns (stored_rule $"all") /\
  exists answer, al_sent noticed =
    al_sent (scanned $"all") ++ [(alert_notice (stored_rule $"all") first_candidate false, sample_later, answer)].
Proof.
  destruct (notice_when_due (sample_env false sample_later) (stored_rule $"all") first_candidate sample_later
    (scanned $"all") noticed first_state (fun _ _ => None) (scanned_reachable _) first_candidate_of)
    as (Hmin & _ & Hcase).
  - vm_compute. reflexivity.
  - vm_compute. discriminate.
  - reflexivity.
  - vm_compute. reflexivity.
  - vm_compute. reflexivity.
  - split; [exact Hmin|]. destruct Hcase as [[(t & Ht & Hlt) _]|[_ H]]; [|exact H].
    vm_compute in Ht. injection Ht as <-. vm_compute in Hlt. discriminate Hlt.
Defined.
