(* ===== verification/ParentTree.v ===== *)
(** * Rows with a parent: the trees the repositories build

    Menus, departments and groups of hosts are stored as rows that name their
    parent, 0 for a root. [data/rbac/menu.go], [data/rbac/department.go] and
    [data/asset/asset_group.go] build the tree below an id by one recursion,
    which is written once here; the payload of a node may be computed from the
    row and the nodes below it. Nothing in the recursion stops a cycle of
    parents: that it ends is a theorem about rows that hang from the root. *)

From Stdlib Require Import ZArith Lia.
From stdpp Require Import base tactics option list numbers.
From S2P Require Import Prelude.

Open Scope Z_scope.

Lemma mapM_elem {A B} (f : A -> option B) l k y :
  mapM f l = Some k -> y ∈ k <-> exists x, x ∈ l /\ f x = Some y.
Proof.
  intros H%mapM_Some. induction H as [|x z l k Hz H IH].
  - split; [by intros ?%elem_of_nil | by intros (x & ?%elem_of_nil & _)].
  - rewrite elem_of_cons, IH. split.
    + intros [->|(x' & Hx & Hf)]; [by exists x; rewrite elem_of_cons; auto|].
      exists x'. by rewrite elem_of_cons; auto.
    + intros (x' & [->|Hx]%elem_of_cons & Hf); [left; congruence|]. right. by exists x'.
Qed.

Lemma flat_map_elem {A B} (f : A -> list B) l y :
  y ∈ flat_map f l <-> exists x, x ∈ l /\ y ∈ f x.
Proof.
  rewrite list_elem_of_In, in_flat_map. split; intros (x & Hx & Hy); exists x;
    by rewrite ?list_elem_of_In in *.
Qed.

Inductive tree (A : Type) : Type := Node (a : A) (children : list (tree A)).
Arguments Node {A} a children.

Definition payload {A} (t : tree A) : A := match t with Node a _ => a end.
Definition below_node {A} (t : tree A) : list (tree A) := match t with Node _ cs => cs end.

Fixpoint flatten {A} (t : tree A) : list A :=
  match t with Node a cs => a :: flat_map flatten cs end.
Definition members {A} (ts : list (tree A)) : list A := flat_map flatten ts.

Section tree_ind.
Context {A : Type} (P : tree A -> Prop).
Hypothesis Hnode : forall a cs, Forall P cs -> P (Node a cs).
Fixpoint tree_forall_ind (t : tree A) : P t :=
  match t with
  | Node a cs =>
    Hnode a cs ((fix go (ts : list (tree A)) : Forall P ts :=
      match ts with
      | [] => Forall_nil_2 _
      | t :: ts => Forall_cons_2 _ t ts (tree_forall_ind t) (go ts)
      end) cs)
  end.
End tree_ind.

Section build.
Context {A : Type} (id parent : A -> Z).

(** [buildTree(rows, parentID)]: the rows below [parentID] in their order, each
    with the tree below its own id. [f] computes what a node keeps. *)
Fixpoint build {B} (f : A -> list (tree B) -> B) (fuel : nat) (rows : list A) (parentID : Z)
    : option (list (tree B)) :=
  match fuel with
  | O => None
  | S fuel =>
    mapM (fun a => cs ← build f fuel rows (id a); Some (Node (f a cs) cs))
      (filter (fun a => parent a = parentID) rows)
  end.

(** A round for every row is enough for rows that hang from the root. *)
Definition rounds (rows : list A) : nat := S (length rows).
Definition build_plain : nat -> list A -> Z -> option (list (tree A)) := build (fun a _ => a).

(** The ids below [parentID]: those of its children, then those below each. *)
Fixpoint descend (fuel : nat) (children : Z -> list Z) (parentID : Z) : option (list Z) :=
  match fuel with
  | O => None
  | S fuel =>
    rest ← mapM (descend fuel children) (children parentID);
    Some (children parentID ++ mjoin rest)
  end.
Definition child_ids (rows : list A) (parentID : Z) : list Z :=
  id <$> filter (fun a => parent a = parentID) rows.

(** ** What the rows say *)
Section rows.
Context (rows : list A).

(** The rows under [p], at any depth. *)
Inductive below (p : Z) : A -> Prop :=
| below_child a : a ∈ rows -> parent a = p -> below p a
| below_step b a : below p b -> a ∈ rows -> parent a = id b -> below p a.

(** A row whose ancestors end at the root. *)
Definition rooted : A -> Prop := below 0.

(** The path from a node to the root. *)
Inductive chain : list A -> Z -> Prop :=
| chain_root : chain [] 0
| chain_step a path : a ∈ rows -> chain path (parent a) -> chain (a :: path) (id a).

Record keyed : Prop := {
  keyed_ids : NoDup (id <$> rows);
  keyed_nonzero : forall a, a ∈ rows -> id a <> 0 }.

Lemma below_in p a : below p a -> a ∈ rows.
Proof. by destruct 1. Qed.

Lemma below_trans p b a : below p b -> below (id b) a -> below p a.
Proof. intros Hb. induction 1; econstructor; eauto; done. Qed.

(** A row under [p] is a child of [p] or under a child of [p]. *)
Lemma below_cases p a : below p a <->
  exists b, b ∈ rows /\ parent b = p /\ (a = b \/ below (id b) a).
Proof.
  split.
  - induction 1 as [a Ha Hp|b a Hb IH Ha Hp]; [by exists a; auto|].
    destruct IH as (c & Hc & Hcp & [->|Hbc]); exists c; repeat split; auto; right.
    + by apply below_child.
    + by eapply below_step.
  - intros (b & Hb & Hp & [->|Ha]); [by apply below_child|].
    eapply below_trans; [by apply below_child | done].
Qed.

Lemma chain_elem path p a : chain path p -> a ∈ path -> a ∈ rows.
Proof.
  induction 1 as [|b path Hb Hc IH]; [by intros ?%elem_of_nil|].
  intros [->|?]%elem_of_cons; auto.
Qed.

Lemma chain_next path p a : chain path p -> a ∈ path ->
  parent a = 0 \/ exists c, c ∈ path /\ parent a = id c.
Proof.
  induction 1 as [|b path Hb Hc IH]; [by intros ?%elem_of_nil|].
  intros [->|Ha]%elem_of_cons.
  - inversion Hc as [Hp|c path' Hc' Hp Hq]; [by left|]. right. exists c.
    split; [|done]. apply elem_of_cons. right. apply elem_of_cons. by left.
  - destruct (IH Ha) as [?|(c & ? & ?)]; [by left|]. right. exists c.
    split; [|done]. apply elem_of_cons. by right.
Qed.

Lemma chain_head path p : chain path p -> p = 0 \/ exists c, c ∈ path /\ p = id c.
Proof.
  destruct 1 as [|b path Hb Hc]; [by left|]. right. exists b. split; [|done].
  apply elem_of_cons. by left.
Qed.

Lemma rooted_chain a : rooted a -> exists path, chain (a :: path) (id a).
Proof.
  induction 1 as [a Ha Hp|b a Hb [path IH] Ha Hp].
  - exists []. constructor; [done|]. rewrite Hp. constructor.
  - exists (b :: path). constructor; [done|]. by rewrite Hp.
Qed.

Context (Hkeyed : keyed).

Lemma keyed_inj a b : a ∈ rows -> b ∈ rows -> id a = id b -> a = b.
Proof.
  intros Ha Hb He. apply list_elem_of_lookup in Ha as [i Hi], Hb as [j Hj].
  assert (i = j) as ->; [|by rewrite Hi in Hj; simplify_eq].
  eapply NoDup_lookup; [apply (keyed_ids Hkeyed)| |]; rewrite list_lookup_fmap.
  - by rewrite Hi.
  - rewrite Hj. simpl. by f_equal.
Qed.

(** A path to the root does not come back. *)
Lemma chain_fresh path p a : chain path p -> a ∈ path -> parent a <> p.
Proof.
  intros Hch. revert a. induction Hch as [|b path Hb Hch IH]; [by intros ? ?%elem_of_nil|].
  assert (Hno : forall c, c ∈ path -> id c <> id b).
  { intros c Hc He. assert (c = b) as -> by (apply keyed_inj; eauto using chain_elem).
    by apply (IH b Hc). }
  assert (Hz : id b <> 0) by by apply (keyed_nonzero Hkeyed).
  intros a [->|Ha]%elem_of_cons He.
  - destruct (chain_head _ _ Hch) as [H0|(c & Hc & Hp)]; [congruence|].
    apply (Hno c Hc). congruence.
  - destruct (chain_next _ _ _ Hch Ha) as [H0|(c & Hc & Hp)]; [congruence|].
    apply (Hno c Hc). congruence.
Qed.

Lemma chain_NoDup path p : chain path p -> NoDup path.
Proof.
  induction 1 as [|b path Hb Hch IH]; [constructor|]. constructor; [|done].
  intros Hin. by apply (chain_fresh _ _ _ Hch Hin).
Qed.

Lemma chain_length path p : chain path p -> (length path <= length rows)%nat.
Proof.
  intros Hch. apply submseteq_length, NoDup_submseteq; [by eapply chain_NoDup|].
  intros a. by apply chain_elem with p.
Qed.

Lemma rooted_acyclic a : rooted a -> ~ below (id a) a.
Proof.
  intros Hr Hb. assert (H : forall p b, below p b -> forall path, chain path p ->
    exists path', chain (b :: path') (id b) /\ path `suffix_of` path').
  { induction 1 as [b Hb' Hp|c b Hc IH Hb' Hp]; intros path Hch.
    - exists path. split; [|done]. constructor; [done|]. by rewrite Hp.
    - destruct (IH path Hch) as (path' & Hc' & Hs). exists (c :: path').
      split; [constructor; [done | by rewrite Hp]|]. by apply suffix_cons_r. }
  destruct (rooted_chain a Hr) as [path Hch].
  destruct (H _ _ Hb _ Hch) as (path' & Hc' & [k Hk]). apply chain_NoDup in Hc'.
  inversion_clear Hc' as [|? ? Hn _]. apply Hn. rewrite Hk. apply elem_of_app. right.
  apply elem_of_cons. by left.
Qed.

Lemma build_total {B} (f : A -> list (tree B) -> B) n path p :
  chain path p -> (length rows < n + length path)%nat -> is_Some (build f n rows p).
Proof.
  revert path p. induction n as [|n IH]; intros path p Hch Hn.
  - apply chain_length in Hch. lia.
  - simpl. apply mapM_is_Some_2. apply list.Forall_forall. intros a Ha.
    apply list_elem_of_filter in Ha as [Hp Ha].
    destruct (IH (a :: path) (id a)) as [cs Hcs].
    + constructor; [done|]. by rewrite Hp.
    + simpl. lia.
    + unfold compose. rewrite Hcs. by eexists.
Qed.

Lemma descend_total n path p :
  chain path p -> (length rows < n + length path)%nat ->
  is_Some (descend n (child_ids rows) p).
Proof.
  revert path p. induction n as [|n IH]; intros path p Hch Hn.
  - apply chain_length in Hch. lia.
  - simpl. assert (Hs : is_Some (mapM (descend n (child_ids rows)) (child_ids rows p))).
    { apply mapM_is_Some_2. apply list.Forall_forall. intros i Hi.
      apply list_elem_of_fmap in Hi as (a & -> & Ha).
      apply list_elem_of_filter in Ha as [Hp Ha].
      apply (IH (a :: path)); [|simpl; lia]. constructor; [done|]. by rewrite Hp. }
    destruct Hs as [rest ->]. by eexists.
Qed.
End rows.

(** ** What a tree contains *)
Lemma build_node {B} (f : A -> list (tree B) -> B) n rows p ts t :
  build f (S n) rows p = Some ts ->
  t ∈ ts <-> exists a cs, a ∈ rows /\ parent a = p /\ build f n rows (id a) = Some cs /\
    t = Node (f a cs) cs.
Proof.
  intros H. simpl in H. rewrite (mapM_elem _ _ _ _ H). split.
  - intros (a & Ha & He). apply list_elem_of_filter in Ha as [Hp Ha].
    apply bind_Some in He as (cs & Hcs & [= <-]). by exists a, cs.
  - intros (a & cs & Ha & Hp & Hcs & ->). exists a.
    split; [by apply list_elem_of_filter|]. by rewrite Hcs.
Qed.

Lemma build_child {B} (f : A -> list (tree B) -> B) n rows p ts a :
  build f (S n) rows p = Some ts -> a ∈ rows -> parent a = p ->
  exists cs, build f n rows (id a) = Some cs.
Proof.
  intros H Ha Hp. simpl in H. apply mk_is_Some, mapM_is_Some in H.
  rewrite list.Forall_forall in H. destruct (H a) as [t Ht]; [by apply list_elem_of_filter|].
  apply bind_Some in Ht as (cs & Hcs & _). by exists cs.
Qed.

Lemma build_members rows n p ts a :
  build_plain n rows p = Some ts -> a ∈ members ts <-> below rows p a.
Proof.
  revert p ts a. induction n as [|n IH]; intros p ts a H; [done|].
  unfold members. rewrite flat_map_elem, below_cases. split.
  - intros (t & Ht & Ha). apply (build_node _ _ _ _ _ _ H) in Ht as (b & cs & Hb & Hp & Hcs & ->).
    exists b. repeat split; try done.
    apply elem_of_cons in Ha as [->|Ha]; [by left|]. right. by apply (IH _ _ _ Hcs).
  - intros (b & Hb & Hp & Hc). destruct (build_child _ _ _ _ _ _ H Hb Hp) as [cs Hcs].
    exists (Node b cs). split; [by apply (build_node _ _ _ _ _ _ H); exists b, cs|].
    apply elem_of_cons. destruct Hc as [->|Hc]; [by left|]. right. by apply (IH _ _ _ Hcs).
Qed.

(** The roots of a tree are the rows of that parent, in their order. *)
Lemma build_roots rows n p ts :
  build_plain n rows p = Some ts -> payload <$> ts = filter (fun a => parent a = p) rows.
Proof.
  destruct n as [|n]; [done|]. intros H%mapM_Some.
  induction H as [|a t l k Ht H IH]; [done|]. apply bind_Some in Ht as (cs & _ & [= <-]).
  simpl. by f_equal.
Qed.

(** A payload that is computed does not change the shape. *)
Fixpoint decorate {B} (f : A -> list (tree B) -> B) (t : tree A) : tree B :=
  match t with Node a cs => let cs := decorate f <$> cs in Node (f a cs) cs end.

Lemma build_decorate {B} (f : A -> list (tree B) -> B) n rows p :
  build f n rows p = option_map (fmap (decorate f)) (build_plain n rows p).
Proof.
  unfold build_plain. revert p. induction n as [|n IH]; intros p; [done|]. simpl.
  induction (filter (fun a => parent a = p) rows) as [|a l IHl]; [done|]. simpl.
  rewrite IH, IHl. destruct (build (fun a _ => a) n rows (id a)) as [cs|]; [|done]. simpl.
  match goal with |- context [mapM ?g l] => by destruct (mapM g l) end.
Qed.

(** ** The ids below a parent *)
Lemma descend_members rows n p l i :
  descend n (child_ids rows) p = Some l ->
  i ∈ l <-> exists a, below rows p a /\ id a = i.
Proof.
  revert p l i. induction n as [|n IH]; intros p l i H; [done|]. simpl in H.
  apply bind_Some in H as (rest & Hr & [= <-]).
  rewrite elem_of_app, list_elem_of_join. split.
  - intros [Hi|(l & Hi & Hl)].
    + apply list_elem_of_fmap in Hi as (a & -> & Ha). apply list_elem_of_filter in Ha as [Hp Ha].
      exists a. split; [by apply below_child | done].
    + apply (mapM_elem _ _ _ _ Hr) in Hl as (j & Hj & Hd).
      apply list_elem_of_fmap in Hj as (b & -> & Hb). apply list_elem_of_filter in Hb as [Hp Hb].
      destruct (proj1 (IH _ _ i Hd) Hi) as (a & Ha & Hai). exists a. split; [|done].
      apply below_cases. exists b. auto.
  - intros (a & (b & Hb & Hp & Hc)%below_cases & <-).
    assert (Hi : id b ∈ child_ids rows p).
    { apply list_elem_of_fmap. exists b. split; [done|]. by apply list_elem_of_filter. }
    destruct Hc as [->|Hc]; [by left|]. right.
    apply mk_is_Some in Hr as Hs. apply mapM_is_Some in Hs. rewrite list.Forall_forall in Hs.
    destruct (Hs _ Hi) as [l Hl]. exists l. split; [apply (IH _ _ _ Hl); by exists a|].
    apply (mapM_elem _ _ _ _ Hr). by exists (id b).
Qed.

(** Below a row that is its own ancestor the recursion has no end. *)
Lemma descend_cycle rows n a : below rows (id a) a -> descend n (child_ids rows) (id a) = None.
Proof.
  intros Hcyc. assert (H : forall p, p = id a \/ below rows p a ->
    descend n (child_ids rows) p = None); [|apply H; by left].
  induction n as [|n IH]; intros p Hp; [done|].
  assert (Hb : below rows p a) by by destruct Hp as [->|].
  apply below_cases in Hb as (b & Hb & Hpb & Hc). simpl.
  assert (Hd : descend n (child_ids rows) (id b) = None).
  { apply IH. destruct Hc as [->|Hc]; [by left | by right]. }
  destruct (mapM (descend n (child_ids rows)) (child_ids rows p)) as [rest|] eqn:Hr; [|done].
  apply mk_is_Some, mapM_is_Some in Hr. rewrite list.Forall_forall in Hr.
  destruct (Hr (id b)) as [l Hl]; [|congruence].
  apply list_elem_of_fmap. exists b. split; [done|]. by apply list_elem_of_filter.
Qed.
End build.
Arguments keyed {A} id rows.
Arguments rooted {A} id parent rows a.
Arguments below {A} id parent rows p a.

(** ** Sums over a tree *)
Section counted.
Context {A : Type} (id parent : A -> Z) (count : A -> Z).

(** The count of a row, with those of the nodes below it. *)
Definition with_count (a : A) (cs : list (tree (A * Z))) : A * Z :=
  (a, count a + foldr (fun t z => (payload t).2 + z) 0 cs).
Definition total (l : list A) : Z := foldr (fun a z => count a + z) 0 l.

Lemma total_app l k : total (l ++ k) = total l + total k.
Proof. unfold total. induction l as [|a l IH]; simpl; lia. Qed.

Lemma counted_total t :
  (payload (decorate with_count t)).2 = total (flatten t).
Proof.
  induction t as [a cs IH] using tree_forall_ind. simpl. f_equal.
  induction IH as [|t cs Ht IH IHcs]; [done|].
  rewrite fmap_cons. simpl foldr. simpl flat_map. by rewrite total_app, IHcs, Ht.
Qed.

Lemma counted_payload t : (payload (decorate with_count t)).1 = payload t.
Proof. by destruct t. Qed.
End counted.
