(* ===== verification/AccessModel.v ===== *)
(** * Access: tables and repositories

    The rows that say who may do what: roles, their users and menus
    ([biz/rbac/model.go], [data/rbac]), the groups of hosts and the grants of a
    role on a group ([asset_permission.go]). A request sends its statements one
    by one; [E k] tells whether the [k]-th is answered, so that a refusal
    (an outage, a foreign key, a duplicate key) can come between any two. A
    transaction puts the tables back; single statements do not. *)

From Stdlib Require Import ZArith Lia.
From stdpp Require Import base tactics option list numbers.
From S2P Require Import Prelude GoStrings ParentTree.

Open Scope Z_scope.

(** ** Rows *)
Record SysRole := {
  ro_ID : Z; ro_Name : gostring; ro_Code : gostring; ro_Description : gostring;
  ro_Sort : Z; ro_Status : Z; ro_Deleted : bool }.

Record SysMenu := {
  me_ID : Z; me_Name : gostring; me_Code : gostring; me_Type : Z; me_ParentID : Z;
  me_Path : gostring; me_Component : gostring; me_Icon : gostring; me_Sort : Z;
  me_Visible : Z; me_Status : Z; me_Deleted : bool }.

Record SysDepartment := {
  de_ID : Z; de_Name : gostring; de_Code : gostring; de_ParentID : Z; de_DeptType : Z;
  de_Sort : Z; de_Status : Z; de_Deleted : bool }.

Record AssetGroup := {
  ag_ID : Z; ag_Name : gostring; ag_Code : gostring; ag_ParentID : Z;
  ag_Description : gostring; ag_Sort : Z; ag_Status : Z; ag_Deleted : bool }.

(** The columns of a host that access depends on. *)
Record Host := {
  ho_ID : Z; ho_Name : gostring; ho_IP : gostring; ho_GroupID : Z; ho_Status : Z;
  ho_Deleted : bool }.

(** The column [host_ids]: no value, the JSON literal [null], an array. *)
Inductive host_ids := SqlNull | JsonNull | JsonArray (ids : list Z).

Record SysRoleAssetPermission := {
  ap_ID : Z; ap_RoleID : Z; ap_AssetGroupID : Z; ap_HostIDs : host_ids;
  ap_Permissions : Z; ap_Deleted : bool }.

(** A user, as far as a department counts it. *)
Record user_row := { us_ID : Z; us_DepartmentID : Z; us_Deleted : bool }.

(** A row of an instance permission ([biz/database/model.go]) and of an
    instance. *)
Record DatabaseInstancePermission := {
  ip_ID : Z; ip_RoleID : Z; ip_InstanceID : Z; ip_Permissions : Z; ip_Deleted : bool }.
Record instance_row := { in_ID : Z; in_Deleted : bool }.

(** A table with its [AUTO_INCREMENT]. *)
Record numbered (A : Type) := { rows : list A; next : Z }.
Arguments rows {A} n.
Arguments next {A} n.
Definition with_rows {A} (l : list A) (t : numbered A) : numbered A :=
  {| rows := l; next := next t |}.
(** The id of the row when it has one, else the next number. *)
Definition insert_row {A} (mk : Z -> A) (id : Z) (t : numbered A) : numbered A :=
  let id := if id =? 0 then next t else id in
  {| rows := rows t ++ [mk id]; next := Z.max (next t) (id + 1) |}.

Record tables := {
  roles : numbered SysRole; user_roles : list (Z * Z);    (* user, role *)
  menus : numbered SysMenu; role_menus : list (Z * Z);    (* role, menu *)
  departments : numbered SysDepartment; users : list user_row;
  groups : numbered AssetGroup; hosts : list Host;
  grants : numbered SysRoleAssetPermission;
  instances : list instance_row; instance_grants : numbered DatabaseInstancePermission }.

Definition set_roles x t := {|
  roles := x; user_roles := user_roles t; menus := menus t; role_menus := role_menus t;
  departments := departments t; users := users t; groups := groups t; hosts := hosts t;
  grants := grants t; instances := instances t; instance_grants := instance_grants t |}.
Definition set_user_roles x t := {|
  roles := roles t; user_roles := x; menus := menus t; role_menus := role_menus t;
  departments := departments t; users := users t; groups := groups t; hosts := hosts t;
  grants := grants t; instances := instances t; instance_grants := instance_grants t |}.
Definition set_menus x t := {|
  roles := roles t; user_roles := user_roles t; menus := x; role_menus := role_menus t;
  departments := departments t; users := users t; groups := groups t; hosts := hosts t;
  grants := grants t; instances := instances t; instance_grants := instance_grants t |}.
Definition set_role_menus x t := {|
  roles := roles t; user_roles := user_roles t; menus := menus t; role_menus := x;
  departments := departments t; users := users t; groups := groups t; hosts := hosts t;
  grants := grants t; instances := instances t; instance_grants := instance_grants t |}.
Definition set_departments x t := {|
  roles := roles t; user_roles := user_roles t; menus := menus t; role_menus := role_menus t;
  departments := x; users := users t; groups := groups t; hosts := hosts t;
  grants := grants t; instances := instances t; instance_grants := instance_grants t |}.
Definition set_groups x t := {|
  roles := roles t; user_roles := user_roles t; menus := menus t; role_menus := role_menus t;
  departments := departments t; users := users t; groups := x; hosts := hosts t;
  grants := grants t; instances := instances t; instance_grants := instance_grants t |}.
Definition set_hosts x t := {|
  roles := roles t; user_roles := user_roles t; menus := menus t; role_menus := role_menus t;
  departments := departments t; users := users t; groups := groups t; hosts := x;
  grants := grants t; instances := instances t; instance_grants := instance_grants t |}.
Definition set_grants x t := {|
  roles := roles t; user_roles := user_roles t; menus := menus t; role_menus := role_menus t;
  departments := departments t; users := users t; groups := groups t; hosts := hosts t;
  grants := x; instances := instances t; instance_grants := instance_grants t |}.
Definition set_instance_grants x t := {|
  roles := roles t; user_roles := user_roles t; menus := menus t; role_menus := role_menus t;
  departments := departments t; users := users t; groups := groups t; hosts := hosts t;
  grants := grants t; instances := instances t; instance_grants := x |}.

(** ** Statements and transactions *)
Record access_world := { tabs : tables; steps : nat }.
Abbreviation action := (handler access_world).
(** Which statements are answered. *)
Definition conn : Type := nat -> bool.

(** The collation of the columns (equal texts have equal keys), a column
    [LIKE '%word%'], the texts of the errors. *)
Class AccessLib := {
  code_key : gostring -> gostring;
  like_contains : gostring -> gostring -> bool;
  sql_error : gostring; record_not_found : gostring; err_registered : gostring;
  err_missing_where : gostring }.

(** The rows of [l] and [k] that go together. *)
Definition join {A B} (on : A -> B -> bool) (l : list A) (k : list B) : list (A * B) :=
  flat_map (fun a => (fun b => (a, b)) <$> List.filter (on a) k) l.
Definition Count {A} (l : list A) : Z := Z.of_nat (length l).

Section repositories.
Context `{L : AccessLib}.
Implicit Types E : conn.

Definition statement {A} E (f : tables -> result A * tables) : action A := fun w =>
  if E (steps w)
  then let (r, t) := f (tabs w) in (r, {| tabs := t; steps := S (steps w) |})
  else (Err sql_error, {| tabs := tabs w; steps := S (steps w) |}).
Definition query {A} E (f : tables -> A) : action A := statement E (fun t => (Ok (f t), t)).
Definition exec E (f : tables -> tables) : action unit := statement E (fun t => (Ok tt, f t)).
Definition exec_if E (ok : tables -> bool) (f : tables -> tables) : action unit :=
  statement E (fun t => if ok t then (Ok tt, f t) else (Err sql_error, t)).

(** [db.Transaction]: begun, committed, or else rolled back. *)
Definition transaction E (m : action unit) : action unit := fun w =>
  match (exec E (fun t => t);; m;; exec E (fun t => t)) w with
  | (Ok _, w') => (Ok tt, w')
  | (Err e, w') => (Err e, {| tabs := tabs w; steps := steps w' |})
  end.

(** [Updates] with a struct leaves a column alone when the field is zero. *)
Definition nonzero_or (new old : Z) : Z := if new =? 0 then old else new.
Definition nonempty_or (new old : gostring) : gostring :=
  if bool_decide (new = []) then old else new.

Definition change {A} (p : A -> bool) (f : A -> A) (l : list A) : list A :=
  (fun a => if p a then f a else a) <$> l.

(** ** [data/rbac/role.go] *)
(** [default:1] of the column [status]. *)
Definition role_Create E (role : SysRole) : action unit :=
  exec_if E (fun t => negb (existsb (fun r => ro_ID r =? ro_ID role) (rows (roles t))))
    (fun t => set_roles (insert_row (fun id => {|
       ro_ID := id; ro_Name := ro_Name role; ro_Code := ro_Code role;
       ro_Description := ro_Description role; ro_Sort := ro_Sort role;
       ro_Status := nonzero_or (ro_Status role) 1; ro_Deleted := false |})
       (ro_ID role) (roles t)) t).

Definition updated_role (new row : SysRole) : SysRole := {|
  ro_ID := ro_ID row; ro_Name := nonempty_or (ro_Name new) (ro_Name row);
  ro_Code := nonempty_or (ro_Code new) (ro_Code row);
  ro_Description := nonempty_or (ro_Description new) (ro_Description row);
  ro_Sort := nonzero_or (ro_Sort new) (ro_Sort row);
  ro_Status := nonzero_or (ro_Status new) (ro_Status row); ro_Deleted := ro_Deleted row |}.
Definition role_Update E (role : SysRole) : action unit :=
  if ro_ID role =? 0 then h_fail err_missing_where
  else exec E (fun t => set_roles (with_rows
    (change (fun r => (ro_ID r =? ro_ID role) && negb (ro_Deleted r)) (updated_role role)
      (rows (roles t))) (roles t)) t).

Definition deleted_role (row : SysRole) : SysRole := {|
  ro_ID := ro_ID row; ro_Name := ro_Name row; ro_Code := ro_Code row;
  ro_Description := ro_Description row; ro_Sort := ro_Sort row; ro_Status := ro_Status row;
  ro_Deleted := true |}.
Definition role_Delete E (id : Z) : action unit :=
  transaction E (
    exec E (fun t => set_role_menus (List.filter (fun rm => negb (rm.1 =? id)) (role_menus t)) t);;
    exec E (fun t => set_user_roles (List.filter (fun ur => negb (ur.2 =? id)) (user_roles t)) t);;
    exec E (fun t => set_roles (with_rows
      (change (fun r => ro_ID r =? id) deleted_role (rows (roles t))) (roles t)) t)).

Definition role_GetAll E : action (list SysRole) :=
  query E (fun t => List.filter (fun r => (ro_Status r =? 1) && negb (ro_Deleted r))
    (rows (roles t))).

(** Rows of a link table: refused when one of them is there already. *)
Definition fresh_links (new old : list (Z * Z)) : bool :=
  bool_decide (NoDup new) && forallb (fun x => negb (bool_decide (x ∈ old))) new.

Definition AssignMenus E (roleID : Z) (menuIDs : list Z) : action unit :=
  transaction E (
    exec E (fun t => set_role_menus (List.filter (fun rm => negb (rm.1 =? roleID)) (role_menus t)) t);;
    match menuIDs with
    | [] => mret tt
    | _ =>
      let roleMenus := pair roleID <$> menuIDs in
      exec_if E (fun t => fresh_links roleMenus (role_menus t))
        (fun t => set_role_menus (role_menus t ++ roleMenus) t)
    end).

Definition role_GetByUserID E (userID : Z) : action (list SysRole) :=
  query E (fun t => fst <$> List.filter
    (fun ru => (ru.2.1 =? userID) && negb (ro_Deleted ru.1))
    (join (fun r ur => ur.2 =? ro_ID r) (rows (roles t)) (user_roles t))).

(** ** [data/rbac/user.go] *)
Fixpoint add_roles E (userID : Z) (roleIDs : list Z) : action unit :=
  match roleIDs with
  | [] => mret tt
  | roleID :: rest =>
    exec_if E (fun t => fresh_links [(userID, roleID)] (user_roles t))
      (fun t => set_user_roles (user_roles t ++ [(userID, roleID)]) t);;
    add_roles E userID rest
  end.
Definition user_AssignRoles E (userID : Z) (roleIDs : list Z) : action unit :=
  transaction E (
    exec E (fun t => set_user_roles (List.filter (fun ur => negb (ur.1 =? userID)) (user_roles t)) t);;
    add_roles E userID roleIDs).

(** ** [data/rbac/menu.go] *)
Definition menu_Create E (menu : SysMenu) : action unit :=
  exec_if E (fun t => negb (existsb (fun m => me_ID m =? me_ID menu) (rows (menus t))))
    (fun t => set_menus (insert_row (fun id => {|
       me_ID := id; me_Name := me_Name menu; me_Code := me_Code menu; me_Type := me_Type menu;
       me_ParentID := me_ParentID menu; me_Path := me_Path menu;
       me_Component := me_Component menu; me_Icon := me_Icon menu; me_Sort := me_Sort menu;
       me_Visible := nonzero_or (me_Visible menu) 1;
       me_Status := nonzero_or (me_Status menu) 1; me_Deleted := false |})
       (me_ID menu) (menus t)) t).

Definition menu_Update E (menu : SysMenu) : action unit :=
  exec E (fun t => set_menus (with_rows
    (change (fun m => (me_ID m =? me_ID menu) && negb (me_Deleted m)) (fun row => {|
       me_ID := me_ID row; me_Name := me_Name menu; me_Code := me_Code menu;
       me_Type := me_Type menu; me_ParentID := me_ParentID menu; me_Path := me_Path menu;
       me_Component := me_Component menu; me_Icon := me_Icon menu; me_Sort := me_Sort menu;
       me_Visible := me_Visible menu; me_Status := me_Status menu;
       me_Deleted := me_Deleted row |}) (rows (menus t))) (menus t)) t).

Definition deleted_menu (row : SysMenu) : SysMenu := {|
  me_ID := me_ID row; me_Name := me_Name row; me_Code := me_Code row; me_Type := me_Type row;
  me_ParentID := me_ParentID row; me_Path := me_Path row; me_Component := me_Component row;
  me_Icon := me_Icon row; me_Sort := me_Sort row; me_Visible := me_Visible row;
  me_Status := me_Status row; me_Deleted := true |}.
Definition live_menus (t : tables) : list SysMenu :=
  List.filter (fun m => negb (me_Deleted m)) (rows (menus t)).
Definition menu_Delete E (id : Z) : action unit :=
  transaction E (
    exec E (fun t => set_role_menus (List.filter (fun rm => negb (rm.2 =? id)) (role_menus t)) t);;
    count ← query E (fun t => Count (List.filter (fun m => me_ParentID m =? id) (live_menus t)));
    if 0 <? count then h_fail err_registered
    else exec E (fun t => set_menus (with_rows
      (change (fun m => me_ID m =? id) deleted_menu (rows (menus t))) (menus t)) t)).

(** [ORDER BY sort]: stable on the order of the ids here. *)
Fixpoint insert_by {A} (key : A -> Z) (a : A) (l : list A) : list A :=
  match l with
  | [] => [a]
  | b :: l' => if key a <=? key b then a :: l else b :: insert_by key a l'
  end.
Definition order_by {A} (key : A -> Z) (l : list A) : list A := foldr (insert_by key) [] l.

Definition menu_buildTree : nat -> list SysMenu -> Z -> option (list (tree SysMenu)) :=
  build_plain me_ID me_ParentID.
Definition menu_GetTree E : action (option (list (tree SysMenu))) :=
  menus ← query E (fun t => order_by me_Sort (live_menus t));
  mret (menu_buildTree (rounds menus) menus 0).

(** The menus of the roles of a user; [DISTINCT]. *)
Definition menu_rows (t : tables) (userID : Z) : list (SysMenu * (Z * Z) * (Z * Z)) :=
  List.filter (fun x => (x.2.1 =? userID) && negb (me_Deleted x.1.1))
    (join (fun mr ur => ur.2 =? mr.2.1)
       (join (fun m rm => rm.2 =? me_ID m) (rows (menus t)) (role_menus t)) (user_roles t)).
Definition menu_GetByUserID E (userID : Z) : action (option (list (tree SysMenu))) :=
  menus ← query E (fun t => order_by me_Sort
    (List.filter (fun m => existsb (fun x => me_ID x.1.1 =? me_ID m)
       (List.filter (fun x => (me_Status x.1.1 =? 1) && (me_Visible x.1.1 =? 1))
          (menu_rows t userID))) (rows (menus t))));
  mret (menu_buildTree (rounds menus) menus 0).

Definition HasUserMenuCode E (userID : Z) (code : gostring) : action bool :=
  count ← query E (fun t => Count (List.filter
    (fun x => bool_decide (code_key (me_Code x.1.1) = code_key code) && (me_Status x.1.1 =? 1))
    (menu_rows t userID)));
  mret (0 <? count).

(** ** [data/rbac/department.go] *)
Definition live_departments (t : tables) : list SysDepartment :=
  List.filter (fun d => negb (de_Deleted d)) (rows (departments t)).
(** [default:3] and [default:1]. *)
Definition dept_Create E (dept : SysDepartment) : action unit :=
  exec_if E (fun t => negb (existsb (fun d => de_ID d =? de_ID dept) (rows (departments t))))
    (fun t => set_departments (insert_row (fun id => {|
       de_ID := id; de_Name := de_Name dept; de_Code := de_Code dept;
       de_ParentID := de_ParentID dept; de_DeptType := nonzero_or (de_DeptType dept) 3;
       de_Sort := de_Sort dept; de_Status := nonzero_or (de_Status dept) 1;
       de_Deleted := false |}) (de_ID dept) (departments t)) t).
Definition updated_department (new row : SysDepartment) : SysDepartment := {|
  de_ID := de_ID row; de_Name := nonempty_or (de_Name new) (de_Name row);
  de_Code := nonempty_or (de_Code new) (de_Code row);
  de_ParentID := nonzero_or (de_ParentID new) (de_ParentID row);
  de_DeptType := nonzero_or (de_DeptType new) (de_DeptType row);
  de_Sort := nonzero_or (de_Sort new) (de_Sort row);
  de_Status := nonzero_or (de_Status new) (de_Status row); de_Deleted := de_Deleted row |}.
Definition dept_Update E (dept : SysDepartment) : action unit :=
  if de_ID dept =? 0 then h_fail err_missing_where
  else exec E (fun t => set_departments (with_rows
    (change (fun d => (de_ID d =? de_ID dept) && negb (de_Deleted d)) (updated_department dept)
      (rows (departments t))) (departments t)) t).
(** [Unscoped]: rows deleted softly count, and the row goes. *)
Definition dept_Delete E (id : Z) : action unit :=
  transaction E (
    count ← query E (fun t =>
      Count (List.filter (fun d => de_ParentID d =? id) (rows (departments t))));
    if 0 <? count then h_fail err_registered
    else exec E (fun t => set_departments (with_rows
      (List.filter (fun d => negb (de_ID d =? id)) (rows (departments t))) (departments t)) t)).

(** [COUNT] of the users of a department: the map [userCounts]. *)
Definition user_count (us : list user_row) (id : Z) : Z :=
  if 0 <? id then Count (List.filter (fun u => us_DepartmentID u =? id) us) else 0.
Definition buildTreeWithUserCount (userCounts : Z -> Z) :
    nat -> list SysDepartment -> Z -> option (list (tree (SysDepartment * Z))) :=
  build de_ID de_ParentID (with_count (fun d => userCounts (de_ID d))).
Definition dept_GetTree E : action (option (list (tree (SysDepartment * Z)))) :=
  departments ← query E (fun t => order_by de_Sort (live_departments t));
  results ← query E users;
  mret (buildTreeWithUserCount (user_count results) (rounds departments) departments 0).
Definition dept_GetAll E : action (list SysDepartment) :=
  query E (fun t => order_by de_Sort (live_departments t)).

(** [biz/rbac/usecase.go]: the options of a cascade: id, parent and label. *)
Definition dept_buildParentOptions :
    nat -> list SysDepartment -> Z -> option (list (tree (Z * Z * gostring))) :=
  build de_ID de_ParentID (fun d _ => (de_ID d, de_ParentID d, de_Name d)).
Definition dept_GetParentOptions E : action (option (list (tree (Z * Z * gostring)))) :=
  departments ← dept_GetAll E;
  mret (dept_buildParentOptions (rounds departments) departments 0).
End repositories.
