(* ===== verification/HostGrants.v ===== *)
(** * Hosts, their groups and what a role may do on them

    The groups of hosts ([data/asset/asset_group.go]), the grants of a role on
    a group or on some of its hosts ([biz/rbac/asset_permission.go],
    [data/rbac/asset_permission.go], [service/rbac/asset_permission.go]) and
    who asks for them: the list of hosts ([service/asset/host.go],
    [data/asset/host.go]) and the agents ([service/asset/agent.go]). *)

From Stdlib Require Import ZArith Lia.
From stdpp Require Import base tactics option list numbers.
From S2P Require Import Prelude GoStrings GoNumbers ParentTree AccessModel.

Open Scope Z_scope.

(** ** [biz/rbac/asset_permission.go] *)
Definition PermissionView : Z := 1.
Definition PermissionEdit : Z := 2.
Definition PermissionDelete : Z := 4.
Definition PermissionTerminal : Z := 8.
Definition PermissionFile : Z := 16.
Definition PermissionCollect : Z := 32.
Definition PermissionDesktop : Z := 64.
Definition PermissionAll : Z := 127.

(** A slice: [nil] or its elements. *)
Definition UintArray : Type := option (list Z).
(** [json.Marshal] of a nil slice is [null]. *)
Definition UintArray_Value (ua : UintArray) : host_ids :=
  match ua with None => JsonNull | Some ids => JsonArray ids end.
Definition UintArray_Scan (value : host_ids) : UintArray :=
  match value with SqlNull => Some [] | JsonNull => None | JsonArray ids => Some ids end.

Definition set_permissions (permissions : Z) (p : SysRoleAssetPermission) := {|
  ap_ID := ap_ID p; ap_RoleID := ap_RoleID p; ap_AssetGroupID := ap_AssetGroupID p;
  ap_HostIDs := ap_HostIDs p; ap_Permissions := permissions; ap_Deleted := ap_Deleted p |}.
Definition HasPermission (p : SysRoleAssetPermission) (perm : Z) : bool :=
  0 <? Z.land (ap_Permissions p) perm.
Definition AddPermission (perm : Z) (p : SysRoleAssetPermission) : SysRoleAssetPermission :=
  set_permissions (Z.lor (ap_Permissions p) perm) p.
Definition RemovePermission (perm : Z) (p : SysRoleAssetPermission) : SysRoleAssetPermission :=
  set_permissions (Z.ldiff (ap_Permissions p) perm) p.

Definition GetPermissionName (perm : Z) : gostring :=
  if perm =? PermissionView then $"查看"
  else if perm =? PermissionEdit then $"编辑"
  else if perm =? PermissionDelete then $"删除"
  else if perm =? PermissionTerminal then $"终端"
  else if perm =? PermissionFile then $"文件管理"
  else if perm =? PermissionCollect then $"采集信息"
  else if perm =? PermissionDesktop then $"桌面连接"
  else $"未知".
Definition named_permissions : list Z :=
  [PermissionView; PermissionEdit; PermissionDelete; PermissionTerminal; PermissionFile;
   PermissionCollect; PermissionDesktop].
Definition GetAllPermissionNames (permissions : Z) : list gostring :=
  GetPermissionName <$> List.filter (fun p => 0 <? Z.land permissions p) named_permissions.

(** ** JSON in the database *)
(** [JSON_LENGTH(COALESCE(host_ids, JSON_ARRAY()))]: a scalar has length 1. *)
Definition json_length (v : host_ids) : Z :=
  match v with SqlNull => 0 | JsonNull => 1 | JsonArray ids => Z.of_nat (length ids) end.
(** [JSON_CONTAINS(host_ids, CAST(id AS JSON))]; of [NULL] it is [NULL]. *)
Definition json_contains (v : host_ids) (id : Z) : bool :=
  match v with JsonArray ids => existsb (Z.eqb id) ids | _ => false end.
Definition covers (v : host_ids) (hostID : Z) : bool :=
  (json_length v =? 0) || json_contains v hostID.

Section repositories.
Context `{L : AccessLib}.
Implicit Types E : conn.
Abbreviation action := (handler access_world).

(** ** [data/asset/asset_group.go] *)
Definition live_groups (t : tables) : list AssetGroup :=
  List.filter (fun g => negb (ag_Deleted g)) (rows (groups t)).
Definition group_Create E (group : AssetGroup) : action unit :=
  exec_if E (fun t => negb (existsb (fun g => ag_ID g =? ag_ID group) (rows (groups t))))
    (fun t => set_groups (insert_row (fun id => {|
       ag_ID := id; ag_Name := ag_Name group; ag_Code := ag_Code group;
       ag_ParentID := ag_ParentID group; ag_Description := ag_Description group;
       ag_Sort := ag_Sort group; ag_Status := nonzero_or (ag_Status group) 1;
       ag_Deleted := false |}) (ag_ID group) (groups t)) t).
Definition updated_group (new row : AssetGroup) : AssetGroup := {|
  ag_ID := ag_ID row; ag_Name := nonempty_or (ag_Name new) (ag_Name row);
  ag_Code := nonempty_or (ag_Code new) (ag_Code row);
  ag_ParentID := nonzero_or (ag_ParentID new) (ag_ParentID row);
  ag_Description := nonempty_or (ag_Description new) (ag_Description row);
  ag_Sort := nonzero_or (ag_Sort new) (ag_Sort row);
  ag_Status := nonzero_or (ag_Status new) (ag_Status row); ag_Deleted := ag_Deleted row |}.
Definition group_Update E (group : AssetGroup) : action unit :=
  if ag_ID group =? 0 then h_fail err_missing_where
  else exec E (fun t => set_groups (with_rows
    (change (fun g => (ag_ID g =? ag_ID group) && negb (ag_Deleted g)) (updated_group group)
      (rows (groups t))) (groups t)) t).
Definition group_Delete E (id : Z) : action unit :=
  transaction E (
    count ← query E (fun t =>
      Count (List.filter (fun g => ag_ParentID g =? id) (rows (groups t))));
    if 0 <? count then h_fail err_registered
    else exec E (fun t => set_groups (with_rows
      (List.filter (fun g => negb (ag_ID g =? id)) (rows (groups t))) (groups t)) t)).

Definition live_hosts (t : tables) : list Host :=
  List.filter (fun h => negb (ho_Deleted h)) (hosts t).
(** The map [hostCounts]; empty when its query fails. *)
Definition host_count (hs : list Host) (id : Z) : Z :=
  if 0 <? id then Count (List.filter (fun h => ho_GroupID h =? id) hs) else 0.
Definition group_buildTree (hostCounts : Z -> Z) :
    nat -> list AssetGroup -> Z -> option (list (tree (AssetGroup * Z))) :=
  build ag_ID ag_ParentID (with_count (fun g => hostCounts (ag_ID g))).
(** [v, err := m]: the error is a value. *)
Definition tried {A} (m : action A) : action (result A) := fun w =>
  let (r, w') := m w in (Ok r, w').
Definition group_GetTree E : action (option (list (tree (AssetGroup * Z)))) :=
  groups ← query E (fun t => order_by ag_Sort (live_groups t));
  results ← tried (query E live_hosts);
  let hostCounts := match results with Ok hs => host_count hs | Err _ => fun _ => 0 end in
  mret (group_buildTree hostCounts (rounds groups) groups 0).
Definition group_buildParentOptions :
    nat -> list AssetGroup -> Z -> option (list (tree (Z * Z * gostring))) :=
  build ag_ID ag_ParentID (fun g _ => (ag_ID g, ag_ParentID g, ag_Name g)).
Definition group_GetParentOptions E : action (option (list (tree (Z * Z * gostring)))) :=
  groups ← query E (fun t => order_by ag_Sort (live_groups t));
  mret (group_buildParentOptions (rounds groups) groups 0).

(** [GetDescendantIDs]: one statement for every group it visits; [None] when
    the fuel is out. *)
Fixpoint each_child (f : Z -> action (option (list Z))) (ids : list Z) : action (option (list Z)) :=
  match ids with
  | [] => mret (Some [])
  | childID :: ids =>
    below ← f childID;
    match below with
    | None => mret None
    | Some l => more ← each_child f ids; mret (option_map (app l) more)
    end
  end.
Fixpoint getChildren E (fuel : nat) (parentID : Z) : action (option (list Z)) :=
  match fuel with
  | O => mret None
  | S fuel =>
    children ← query E (fun t => child_ids ag_ID ag_ParentID (live_groups t) parentID);
    rest ← each_child (getChildren E fuel) children;
    mret (option_map (app children) rest)
  end.
Definition GetDescendantIDs E (fuel : nat) (id : Z) : action (option (list Z)) :=
  getChildren E fuel id.

(** ** [data/rbac/asset_permission.go]: the grants *)
(** The column is [int unsigned]. *)
Definition grant_Create E (roleID assetGroupID : Z) (hostIDs : UintArray) (permissions : Z) :
    action unit :=
  exec_if E (fun _ => permissions <? 2 ^ 32)
    (fun t => set_grants (insert_row (fun id => {|
       ap_ID := id; ap_RoleID := roleID; ap_AssetGroupID := assetGroupID;
       ap_HostIDs := UintArray_Value hostIDs; ap_Permissions := permissions;
       ap_Deleted := false |}) 0 (grants t)) t).
Definition of_role_group (roleID assetGroupID : Z) (p : SysRoleAssetPermission) : bool :=
  (ap_RoleID p =? roleID) && (ap_AssetGroupID p =? assetGroupID).
Definition without (q : SysRoleAssetPermission -> bool) (t : tables) : tables :=
  set_grants (with_rows (List.filter (fun p => negb (q p)) (rows (grants t))) (grants t)) t.

Definition grant_DeleteByRoleAndGroup E (roleID assetGroupID : Z) : action unit :=
  exec E (without (of_role_group roleID assetGroupID)).
Definition CreateBatch E (roleID assetGroupID : Z) (hostIDs : UintArray) : action unit :=
  grant_DeleteByRoleAndGroup E roleID assetGroupID;;
  grant_Create E roleID assetGroupID hostIDs PermissionView.
Definition CreateBatchWithPermissions E (roleID assetGroupID : Z) (hostIDs : UintArray)
    (permissions : Z) : action unit :=
  exec E (without (of_role_group roleID assetGroupID));;
  grant_Create E roleID assetGroupID hostIDs
    (if permissions =? 0 then PermissionView else permissions).
Definition grant_Delete E (id : Z) : action unit := exec E (without (fun p => ap_ID p =? id)).
Definition UpdatePermissions E (id permissions : Z) : action unit :=
  exec_if E (fun _ => permissions <? 2 ^ 32) (fun t => set_grants (with_rows
    (change (fun p => (ap_ID p =? id) && negb (ap_Deleted p)) (set_permissions permissions)
      (rows (grants t))) (grants t)) t).
Definition UpdateAssetPermission E (id roleID assetGroupID : Z) (hostIDs : UintArray)
    (permissions : Z) : action unit :=
  exec E (without (fun p => ap_ID p =? id));;
  grant_Create E roleID assetGroupID hostIDs
    (if permissions =? 0 then PermissionView else permissions).

(** ** [data/rbac/asset_permission.go]: the questions *)
(** The rows of [sys_user_role] of a user with the role [admin]. *)
Definition admin_rows (t : tables) (userID : Z) : list (Z * Z * SysRole) :=
  List.filter (fun x => (x.1.1 =? userID) &&
      bool_decide (code_key (ro_Code x.2) = code_key $"admin"))
    (join (fun ur r => ro_ID r =? ur.2) (user_roles t) (rows (roles t))).
Definition is_admin_count E (userID : Z) : action bool :=
  adminCount ← query E (fun t => Count (admin_rows t userID)); mret (0 <? adminCount).

(** [Scan] into a [uint] leaves 0 when there is no row. *)
Definition group_of (t : tables) (hostID : Z) : Z :=
  match List.find (fun h => ho_ID h =? hostID) (hosts t) with
  | Some h => ho_GroupID h
  | None => 0
  end.
(** The grants of the roles of a user on a group. *)
Definition grant_rows (t : tables) (userID groupID hostID : Z)
    : list (SysRoleAssetPermission * (Z * Z)) :=
  List.filter (fun x => (x.2.1 =? userID) && (ap_AssetGroupID x.1 =? groupID) &&
      negb (ap_Deleted x.1) && covers (ap_HostIDs x.1) hostID)
    (join (fun p ur => ap_RoleID p =? ur.2) (rows (grants t)) (user_roles t)).

Definition CheckHostPermission E (userID hostID : Z) : action bool :=
  admin ← is_admin_count E userID;
  if (admin : bool) then mret true
  else
    groupID ← query E (fun t => group_of t hostID);
    permCount ← query E (fun t => Count (grant_rows t userID groupID hostID));
    mret (0 <? permCount).

Definition CheckHostOperationPermission E (userID hostID operation : Z) : action bool :=
  admin ← is_admin_count E userID;
  if (admin : bool) then mret true
  else
    groupID ← query E (fun t => group_of t hostID);
    permCount ← query E (fun t => Count (List.filter
      (fun x => 0 <? Z.land (ap_Permissions x.1) operation)
      (grant_rows t userID groupID hostID)));
    mret (0 <? permCount).

(** [COALESCE(BIT_OR(p.permissions), 0)]. *)
Definition bit_or (l : list Z) : Z := foldr Z.lor 0 l.
Definition GetUserHostPermissions E (userID hostID : Z) : action Z :=
  admin ← is_admin_count E userID;
  if (admin : bool) then mret PermissionAll
  else
    groupID ← query E (fun t => group_of t hostID);
    query E (fun t => bit_or ((fun x => ap_Permissions x.1) <$>
      grant_rows t userID groupID hostID)).

(** The live hosts with a grant of the user, once each. *)
Definition accessible_rows (t : tables) (userID : Z) : list Host :=
  List.filter (fun h => negb (bool_decide (grant_rows t userID (ho_GroupID h) (ho_ID h) = [])))
    (live_hosts t).
Definition GetUserAccessibleHostIDs E (userID : Z) : action (list Z) :=
  admin ← is_admin_count E userID;
  if (admin : bool) then query E (fun t => ho_ID <$> live_hosts t)
  else query E (fun t => remove_dups (ho_ID <$> accessible_rows t userID)).
End repositories.
