(* ===== verification/AccessControl.v ===== *)
(** * Who is let through

    The middleware of [service/rbac/middleware.go] behind [AuthRequired], and
    the handlers that change roles, grants and groups or that select hosts by
    them. [userID] is the id the session put in the context, 0 without one. *)

From Stdlib Require Import ZArith Lia.
From stdpp Require Import base tactics option list numbers.
From S2P Require Import Prelude GoStrings GoNumbers ParentTree AccessModel HostGrants.

Open Scope Z_scope.

(** A middleware goes on or answers; a handler answers data or an error. *)
Inductive verdict := Next | Halt (code : Z) (message : gostring).
Inductive reply (A : Type) := Success (data : A) | Failure (code : Z) (message : gostring).
Arguments Success {A} data.
Arguments Failure {A} code message.

Section control.
Context `{L : AccessLib}.
Implicit Types E : conn.
Abbreviation action := (handler access_world).

(** ** [middleware.go] *)
Definition is_admin_role (role : SysRole) : bool := bool_decide (ro_Code role = $"admin").

Definition RequireAdmin E (userID : Z) : action verdict :=
  if userID =? 0 then mret (Halt 401 $"未登录")
  else
    roles ← tried (role_GetByUserID E userID);
    mret match roles with
    | Err _ => Halt 500 $"获取用户角色失败"
    | Ok roles =>
      if existsb is_admin_role roles then Next
      else Halt 403 $"权限不足：此操作仅限管理员执行"
    end.

Definition HasMenuPermission E (userID : Z) (code : gostring) : action bool :=
  let code := TrimSpace code in
  if (userID =? 0) || bool_decide (code = []) then mret false
  else
    roles ← role_GetByUserID E userID;
    if existsb is_admin_role roles then mret true
    else HasUserMenuCode E userID code.

Definition RequireMenuPermission E (userID : Z) (code : gostring) : action verdict :=
  if userID =? 0 then mret (Halt 401 $"未登录")
  else if bool_decide (TrimSpace code = []) then mret (Halt 500 $"权限编码未配置")
  else
    ok ← tried (HasMenuPermission E userID code);
    mret match ok with
    | Err _ => Halt 500 $"权限检查失败"
    | Ok true => Next
    | Ok false => Halt 403 $"权限不足"
    end.

Definition parse_id (s : gostring) : option Z :=
  match ParseUint s 10 32 with Ok id => Some id | Err _ => None end.

Definition RequireHostPermission E (operation userID : Z) (hostIDStr : gostring) : action verdict :=
  if userID =? 0 then mret (Halt 401 $"未登录")
  else match hostIDStr with
  | [] => mret Next
  | _ =>
    match parse_id hostIDStr with
    | None => mret (Halt 400 $"无效的主机ID")
    | Some hostID =>
      ok ← tried (CheckHostOperationPermission E userID hostID operation);
      mret match ok with
      | Err _ => Halt 500 $"权限检查失败"
      | Ok true => Next
      | Ok false => Halt 403 $"权限不足"
      end
    end
  end.

(** A request behind a middleware. *)
Definition guarded {A} (m : action verdict) (h : action (reply A)) : action (reply A) :=
  v ← m;
  match v with
  | Next => h
  | Halt code message => mret (Failure code message)
  end.

(** What most handlers do with the error of their use case. *)
Definition answered {A B} (prefix : gostring) (m : action A) (f : A -> B) : action (reply B) :=
  r ← tried m;
  mret match r with Ok a => Success (f a) | Err e => Failure 500 (prefix ++ e) end.
Definition with_id_param {A} (message idStr : gostring) (h : Z -> action (reply A)) : action (reply A) :=
  match parse_id idStr with None => mret (Failure 400 message) | Some id => h id end.

(** ** [service/rbac/asset_permission.go] *)
(** A body that was bound: [binding:"required"] refuses 0. *)
Record grant_request := {
  gq_RoleID : Z; gq_AssetGroupID : Z; gq_HostIDs : UintArray; gq_Permissions : Z }.
Definition bind_grant (req : result grant_request) : result grant_request :=
  req ← req;
  if (gq_RoleID req =? 0) || (gq_AssetGroupID req =? 0) then Err $"required" else Ok req.
(** A body of a request, or 400 with the reason. *)
Definition with_body {A B} (req : result A) (h : A -> action (reply B)) : action (reply B) :=
  match req with Ok req => h req | Err e => mret (Failure 400 ($"参数错误: " ++ e)) end.

Definition CreateAssetPermission E (req : result grant_request) : action (reply unit) :=
  with_body (bind_grant req) (fun req =>
    let permissions := if gq_Permissions req =? 0 then PermissionView else gq_Permissions req in
    answered $"创建失败: " (CreateBatchWithPermissions E (gq_RoleID req) (gq_AssetGroupID req)
      (gq_HostIDs req) permissions) id).
Definition DeleteAssetPermission E (idStr : gostring) : action (reply unit) :=
  with_id_param $"无效的权限ID" idStr (fun permID =>
    answered $"删除失败: " (grant_Delete E permID) id).
Definition service_UpdateAssetPermission E (idStr : gostring) (req : result grant_request)
    : action (reply unit) :=
  with_id_param $"无效的权限ID" idStr (fun permID =>
    with_body (bind_grant req) (fun req =>
      let permissions := if gq_Permissions req =? 0 then PermissionView else gq_Permissions req in
      answered $"更新失败: " (UpdateAssetPermission E permID (gq_RoleID req)
        (gq_AssetGroupID req) (gq_HostIDs req) permissions) id)).
Definition DeleteAssetPermissionByRoleAndGroup E (roleIDStr assetGroupIDStr : gostring)
    : action (reply unit) :=
  with_id_param $"无效的角色ID" roleIDStr (fun roleID =>
    with_id_param $"无效的资产分组ID" assetGroupIDStr (fun assetGroupID =>
      answered $"删除失败: " (grant_DeleteByRoleAndGroup E roleID assetGroupID) id)).
Definition service_GetUserHostPermissions E (userID : Z) (hostIDStr : gostring) : action (reply Z) :=
  match hostIDStr with
  | [] => mret (Failure 400 $"主机ID不能为空")
  | _ =>
    with_id_param $"无效的主机ID" hostIDStr (fun hostID =>
      if userID =? 0 then mret (Failure 401 $"未授权")
      else answered $"查询失败: " (GetUserHostPermissions E userID hostID) id)
  end.

(** ** [service/rbac/user.go], [role.go], [menu.go] *)
(** [binding:"required"] refuses a nil slice. *)
Definition bind_ids (req : result UintArray) : result (list Z) :=
  req ← req; match req with None => Err $"required" | Some ids => Ok ids end.
Definition AssignUserRoles E (idStr : gostring) (req : result UintArray) : action (reply unit) :=
  with_id_param $"无效的用户ID" idStr (fun userID =>
    with_body (bind_ids req) (fun roleIDs =>
      answered $"分配失败: " (user_AssignRoles E userID roleIDs) id)).
Definition AssignRoleMenus E (idStr : gostring) (req : result UintArray) : action (reply unit) :=
  with_id_param $"无效的角色ID" idStr (fun roleID =>
    with_body (bind_ids req) (fun menuIDs =>
      answered $"分配失败: " (AssignMenus E roleID menuIDs) id)).
Definition role_with_id (id : Z) (r : SysRole) : SysRole := {|
  ro_ID := id; ro_Name := ro_Name r; ro_Code := ro_Code r; ro_Description := ro_Description r;
  ro_Sort := ro_Sort r; ro_Status := ro_Status r; ro_Deleted := ro_Deleted r |}.
(** The nested rows and dates of the body are left out. *)
Definition UpdateRole E (idStr : gostring) (req : result SysRole) : action (reply SysRole) :=
  with_id_param $"无效的角色ID" idStr (fun roleID =>
    with_body req (fun req =>
      let req := role_with_id roleID req in
      answered $"更新失败: " (role_Update E req) (fun _ => req))).
Definition DeleteRole E (idStr : gostring) : action (reply unit) :=
  with_id_param $"无效的角色ID" idStr (fun roleID =>
    answered $"删除失败: " (role_Delete E roleID) id).
Definition DeleteMenu E (idStr : gostring) : action (reply unit) :=
  with_id_param $"无效的菜单ID" idStr (fun menuID =>
    answered $"删除失败: " (menu_Delete E menuID) id).

(** [None]: the recursion did not end. *)
Definition GetUserMenu E (userID : Z) : action (reply (option (list (tree SysMenu)))) :=
  if userID =? 0 then mret (Failure 401 $"未登录")
  else
    roles ← tried (role_GetByUserID E userID);
    match roles with
    | Err e => mret (Failure 500 ($"查询角色失败: " ++ e))
    | Ok roles =>
      let tree := if existsb is_admin_role roles then menu_GetTree E
                  else menu_GetByUserID E userID in
      answered $"查询失败: " tree id
    end.

(** ** [service/asset/asset_group.go] *)
Definition group_with_id (id : Z) (g : AssetGroup) : AssetGroup := {|
  ag_ID := id; ag_Name := ag_Name g; ag_Code := ag_Code g; ag_ParentID := ag_ParentID g;
  ag_Description := ag_Description g; ag_Sort := ag_Sort g; ag_Status := ag_Status g;
  ag_Deleted := ag_Deleted g |}.
Definition UpdateGroup E (idStr : gostring) (req : result AssetGroup) : action (reply AssetGroup) :=
  with_id_param $"无效的分组ID" idStr (fun groupID =>
    with_body req (fun req =>
      let group := group_with_id groupID req in
      answered $"更新失败: " (group_Update E group) (fun _ => group))).
Definition DeleteGroup E (idStr : gostring) : action (reply unit) :=
  with_id_param $"无效的分组ID" idStr (fun groupID =>
    answered $"删除失败: " (group_Delete E groupID) id).

(** ** [data/asset/host.go] and [biz/asset/host_usecase.go]: the list *)
Record host_query := {
  hq_page : Z; hq_pageSize : Z; hq_keyword : gostring; hq_groupID : option Z;
  hq_status : option Z }.

(** [Offset] and [Limit]: an offset is used when positive, a limit unless
    negative; MySQL has no offset without a limit. *)
Definition paged {A} (offset limit : Z) (l : list A) : result (list A) :=
  if 0 <=? limit then Ok (take (Z.to_nat limit) (drop (Z.to_nat offset) l))
  else if 0 <? offset then Err sql_error else Ok l.

(** The rows a host list selects, newest first. *)
Definition host_matches (q : host_query) (groupIDs : list Z) (accessible : UintArray)
    (h : Host) : bool :=
  (bool_decide (hq_keyword q = []) ||
     like_contains (ho_Name h) (hq_keyword q) || like_contains (ho_IP h) (hq_keyword q)) &&
  (bool_decide (groupIDs = []) || existsb (Z.eqb (ho_GroupID h)) groupIDs) &&
  match hq_status q with None => true | Some s => ho_Status h =? s end &&
  match accessible with None => true | Some ids => existsb (Z.eqb (ho_ID h)) ids end.

Definition host_List E (q : host_query) (groupIDs : list Z) (accessible : UintArray)
    : action (list Host * Z) :=
  match accessible with
  | Some [] => mret ([], 0)
  | _ =>
    let found t := order_by (fun h => - ho_ID h)
      (List.filter (host_matches q groupIDs accessible) (live_hosts t)) in
    total ← query E (fun t => Count (found t));
    hosts ← statement E (fun t =>
      (paged (int64 ((hq_page q - 1) * hq_pageSize q)) (hq_pageSize q) (found t), t));
    mret (hosts, total)
  end.

(** The rows behind the value objects; [None]: the recursion did not end. *)
Definition usecase_List E (fuel : nat) (q : host_query) (accessible : UintArray)
    : action (option (list Host * Z)) :=
  groupIDs ← match hq_groupID q with
    | Some g =>
      if 0 <? g then
        descendantIDs ← tried (GetDescendantIDs E fuel g);
        mret match descendantIDs with
        | Ok (Some ids) => Some (g :: ids)
        | Ok None => None
        | Err _ => Some [g]
        end
      else mret (Some [])
    | None => mret (Some [])
    end;
  match groupIDs with
  | None => mret None
  | Some groupIDs => r ← host_List E q groupIDs accessible; mret (Some r)
  end.

(** [service/asset/host.go] and [agent.go] restrict in the same way. *)
Definition getAccessibleHostIDs E (userID : Z) : action UintArray :=
  if userID =? 0 then mret None
  else
    hostIDs ← tried (GetUserAccessibleHostIDs E userID);
    mret (Some match hostIDs with Ok ids => ids | Err _ => [] end).

Definition ListHosts E (fuel : nat) (userID : Z) (q : host_query)
    : action (reply (option (list Host * Z))) :=
  accessible ← getAccessibleHostIDs E userID;
  answered $"查询失败: " (usecase_List E fuel q accessible) id.

(** ** [service/asset/agent.go] *)
Definition filterHostIDs E (userID : Z) (hostIDs : list Z) : action (list Z) :=
  accessibleHostIDs ← getAccessibleHostIDs E userID;
  mret match accessibleHostIDs with
  | None => hostIDs
  | Some allowed => List.filter (fun h => existsb (Z.eqb h) allowed) hostIDs
  end.
Definition canAccessHost E (userID hostID : Z) : action bool :=
  accessibleHostIDs ← getAccessibleHostIDs E userID;
  mret match accessibleHostIDs with
  | None => true
  | Some allowed => existsb (Z.eqb hostID) allowed
  end.

(** [Deploy], [Reinstall] and [Uninstall]: a job on what is left. *)
Definition agent_job {A} E (empty prefix : gostring) (userID : Z) (req : result (list Z))
    (job : list Z -> action A) : action (reply A) :=
  with_body req (fun hostIDs =>
    filteredHostIDs ← filterHostIDs E userID hostIDs;
    match filteredHostIDs with
    | [] => mret (Failure 403 empty)
    | _ => answered prefix (job filteredHostIDs) id
    end).
Definition GetJob {A} E (userID : Z) (idStr : gostring) (get : Z -> action A) (host_of : A -> Z)
    : action (reply A) :=
  with_id_param $"无效的任务ID" idStr (fun jobID =>
    job ← tried (get jobID);
    match job with
    | Err _ => mret (Failure 404 $"任务不存在")
    | Ok job =>
      ok ← canAccessHost E userID (host_of job);
      mret (if (ok : bool) then Success job else Failure 403 $"没有权限查看该任务")
    end).

(** ** Deleting hosts, [biz/asset/host_usecase.go] and [service/asset/host.go] *)
(** The clean-up of agent records and files is [cleanup]. *)
Definition deleted_host (h : Host) : Host := {|
  ho_ID := ho_ID h; ho_Name := ho_Name h; ho_IP := ho_IP h; ho_GroupID := ho_GroupID h;
  ho_Status := ho_Status h; ho_Deleted := true |}.
Definition host_Delete E (id : Z) : action unit :=
  exec E (fun t => set_hosts (change (fun h => ho_ID h =? id) deleted_host (hosts t)) t).
Definition usecase_Delete E (cleanup : Z -> action unit) (id : Z) : action unit :=
  cleanup id;; host_Delete E id.
Fixpoint BatchDelete E (cleanup : Z -> action unit) (hostIDs : list Z) : action unit :=
  match hostIDs with
  | [] => mret tt
  | hostID :: rest =>
    h_map_err (fun e => $"删除主机 " ++ fmt_d hostID ++ $" 失败: " ++ e)
      (usecase_Delete E cleanup hostID);;
    BatchDelete E cleanup rest
  end.
Definition DeleteHost E (cleanup : Z -> action unit) (idStr : gostring) : action (reply unit) :=
  with_id_param $"无效的主机ID" idStr (fun hostID =>
    answered $"删除失败: " (usecase_Delete E cleanup hostID) id).
Definition BatchDeleteHosts E (cleanup : Z -> action unit) (req : result UintArray)
    : action (reply unit) :=
  with_body (bind_ids req) (fun hostIDs =>
    answered $"批量删除失败: " (BatchDelete E cleanup hostIDs) id).
End control.
