(* ===== verification/InstanceAccess.v ===== *)
(** * Who may use a database instance

    The second check of the database routes, after the menu permission: the
    grants of a role on an instance ([data/database/permission_repository.go],
    [service/database/http.go]). Without any grant the mode [compat] lets
    everyone through; the mode [whitelist] does not. The last part is a
    controlled write as the server runs it, from the session to the audit. *)

From Stdlib Require Import ZArith Lia.
From stdpp Require Import base tactics option list numbers.
From S2P Require Import Prelude GoStrings GoNumbers SqlSafety WriteExec ParentTree AccessModel.
From S2P Require Import DdlExec HostGrants AccessControl.

Open Scope Z_scope.

(** ** [biz/database/model.go] *)
Definition DatabasePermissionView : Z := 1.
Definition DatabasePermissionQuery : Z := 2.
Definition DatabasePermissionExport : Z := 4.
Definition DatabasePermissionWrite : Z := 8.
Definition DatabasePermissionBackup : Z := 16.
Definition DatabasePermissionRestore : Z := 32.
Definition DatabasePermissionDiagnosis : Z := 64.
Definition DatabasePermissionTopology : Z := 128.
Definition DatabasePermissionManage : Z := 256.
Definition DatabasePermissionQueryUnlimited : Z := 512.
Definition DatabasePermissionWriteExplain : Z := 1024.
Definition DatabasePermissionDDL : Z := 2048.
Definition DatabasePermissionAll : Z := 4095.

Section instances.
Context `{U : UnicodeTables} `{L : AccessLib}.
Implicit Types E : conn.
Abbreviation action := (handler access_world).

(** ** [permission_repository.go] *)
Definition HasAnyRules E : action bool :=
  count ← query E (fun t =>
    Count (List.filter (fun p => negb (ip_Deleted p)) (rows (instance_grants t))));
  mret (0 <? count).

Definition live_role (r : SysRole) : bool := (ro_Status r =? 1) && negb (ro_Deleted r).
Definition live_admin_rows (t : tables) (userID : Z) : list (Z * Z * SysRole) :=
  List.filter (fun x => live_role x.2) (admin_rows t userID).
Definition IsAdmin E (userID : Z) : action bool :=
  if userID =? 0 then mret false
  else count ← query E (fun t => Count (live_admin_rows t userID)); mret (0 <? count).

(** Grants, the links of their role, the roles: of a user, live. *)
Definition instance_rows (t : tables) (userID : Z)
    : list (DatabaseInstancePermission * (Z * Z) * SysRole) :=
  List.filter (fun x => (x.1.2.1 =? userID) && negb (ip_Deleted x.1.1) && live_role x.2)
    (join (fun pu r => ro_ID r =? pu.2.2)
       (join (fun p ur => ip_RoleID p =? ur.2) (rows (instance_grants t)) (user_roles t))
       (rows (roles t))).

Definition GetUserInstancePermissions E (userID instanceID : Z) : action Z :=
  if (userID =? 0) || (instanceID =? 0) then mret 0
  else
    admin ← IsAdmin E userID;
    if (admin : bool) then mret DatabasePermissionAll
    else
      permissions ← query E (fun t => (fun x => ip_Permissions x.1.1) <$>
        List.filter (fun x => ip_InstanceID x.1.1 =? instanceID) (instance_rows t userID));
      mret (fold_left Z.lor permissions 0).

Definition GetUserAccessibleInstanceIDs E (userID required : Z) : action (list Z) :=
  if userID =? 0 then mret []
  else
    admin ← IsAdmin E userID;
    if (admin : bool)
    then query E (fun t => in_ID <$> List.filter (fun i => negb (in_Deleted i)) (instances t))
    else query E (fun t => remove_dups ((fun x => ip_InstanceID x.1.1) <$>
      List.filter (fun x => if 0 <? required then 0 <? Z.land (ip_Permissions x.1.1) required
                            else 0 <? ip_Permissions x.1.1) (instance_rows t userID))).

(** [Scan] of the row, without the names: the newest one. *)
Definition scanPermissionVO E (p : DatabaseInstancePermission -> bool)
    : action (option DatabaseInstancePermission) :=
  query E (fun t => head (order_by (fun g => - ip_ID g)
    (List.filter (fun g => negb (ip_Deleted g) && p g) (rows (instance_grants t))))).
Definition instance_grant_GetByID E (id : Z) : action (option DatabaseInstancePermission) :=
  if id =? 0 then mret None else scanPermissionVO E (fun g => ip_ID g =? id).
Definition of_role_instance (roleID instanceID : Z) (g : DatabaseInstancePermission) : bool :=
  (ip_RoleID g =? roleID) && (ip_InstanceID g =? instanceID).
Definition GetByRoleInstance E (roleID instanceID : Z) : action (option DatabaseInstancePermission) :=
  if (roleID =? 0) || (instanceID =? 0) then mret None
  else scanPermissionVO E (of_role_instance roleID instanceID).

Definition ValidateTarget E (roleID instanceID : Z) : action unit :=
  if roleID =? 0 then h_fail $"角色不能为空"
  else if instanceID =? 0 then h_fail $"数据库实例不能为空"
  else
    roleCount ← h_map_err (app $"校验角色失败: ") (query E (fun t =>
      Count (List.filter (fun r => (ro_ID r =? roleID) && live_role r) (rows (roles t)))));
    if roleCount =? 0 then h_fail $"角色不存在或已禁用"
    else
      instanceCount ← h_map_err (app $"校验数据库实例失败: ") (query E (fun t =>
        Count (List.filter (fun i => (in_ID i =? instanceID) && negb (in_Deleted i)) (instances t))));
      if instanceCount =? 0 then h_fail $"数据库实例不存在" else mret tt.

(** The unique key is (role, instance), over deleted rows too. *)
Definition Upsert E (roleID instanceID permissions : Z) : action unit :=
  exec_if E (fun _ => permissions <? 2 ^ 32) (fun t =>
    let revive g := {| ip_ID := ip_ID g; ip_RoleID := ip_RoleID g; ip_InstanceID := ip_InstanceID g;
                       ip_Permissions := permissions; ip_Deleted := false |} in
    let old := rows (instance_grants t) in
    set_instance_grants
      (if existsb (of_role_instance roleID instanceID) old
       then with_rows (change (of_role_instance roleID instanceID) revive old) (instance_grants t)
       else insert_row (fun id => {| ip_ID := id; ip_RoleID := roleID; ip_InstanceID := instanceID;
              ip_Permissions := permissions; ip_Deleted := false |}) 0 (instance_grants t)) t).
Definition deleted_grant (g : DatabaseInstancePermission) : DatabaseInstancePermission := {|
  ip_ID := ip_ID g; ip_RoleID := ip_RoleID g; ip_InstanceID := ip_InstanceID g;
  ip_Permissions := ip_Permissions g; ip_Deleted := true |}.
Definition instance_grant_Delete E (id : Z) : action unit :=
  exec E (fun t => set_instance_grants (with_rows
    (change (fun g => ip_ID g =? id) deleted_grant (rows (instance_grants t)))
    (instance_grants t)) t).

(** ** [service/database/http.go] *)
Record databasePermissionScope := {
  sc_enforced : bool; sc_admin : bool; sc_userID : Z; sc_allowedIDs : list Z }.

(** [mode]: the answer of the configuration. *)
Definition databasePermissionMode (mode : result gostring) : result gostring :=
  mode ← mode;
  Ok (if bool_decide (ToLower (TrimSpace mode) = $"whitelist") then $"whitelist" else $"compat").
Definition normalizeDatabasePermissionMask (permissions : Z) : Z :=
  Z.land permissions DatabasePermissionAll.

Definition check_failed {A} : reply A := Failure 500 $"数据库实例权限检查失败".
(** [if err != nil] with an answer of its own. *)
Definition or_reply {A B} (m : action A) (r : reply B) (k : A -> action (reply B))
    : action (reply B) :=
  a ← tried m; match a with Ok a => k a | Err _ => mret r end.

Definition permission_scope E (mode : result gostring) (userID required : Z)
    : action (reply databasePermissionScope) :=
  if userID =? 0 then mret (Failure 401 $"未登录")
  else
    or_reply (HasAnyRules E) check_failed (fun hasRules =>
    match databasePermissionMode mode with
    | Err _ => mret (Failure 500 $"数据库实例权限模式读取失败")
    | Ok mode =>
      or_reply (IsAdmin E userID) check_failed (fun admin =>
      let scope enforced ids := Success {| sc_enforced := enforced; sc_admin := admin;
        sc_userID := userID; sc_allowedIDs := ids |} in
      if negb hasRules && negb (bool_decide (mode = $"whitelist")) then mret (scope false [])
      else if (admin : bool) then mret (scope true [])
      else or_reply (GetUserAccessibleInstanceIDs E userID required) check_failed (fun ids =>
        mret (scope true ids)))
    end).

(** The verdict of a check that may have answered already. *)
Definition ensureInstancePermission E (mode : result gostring) (userID instanceID required : Z)
    : action verdict :=
  if instanceID =? 0 then mret (Halt 400 $"无效的实例ID")
  else
    scope ← permission_scope E mode userID required;
    match scope with
    | Failure code message => mret (Halt code message)
    | Success scope =>
      if negb (sc_enforced scope) || sc_admin scope then mret Next
      else
        permissions ← tried (GetUserInstancePermissions E (sc_userID scope) instanceID);
        mret match permissions with
        | Err _ => Halt 500 $"数据库实例权限检查失败"
        | Ok permissions =>
          if Z.land permissions required =? 0 then Halt 403 $"权限不足：无权操作该数据库实例"
          else Next
        end
    end.

(** [None] when nothing was answered. *)
Definition allowExplicitInstancePermission E (userID instanceID required : Z)
    (deniedMessage : gostring) : action (option verdict) :=
  if instanceID =? 0 then mret None
  else if userID =? 0 then mret (Some (Halt 401 $"未登录"))
  else
    permissions ← tried (GetUserInstancePermissions E userID instanceID);
    mret (Some match permissions with
    | Err _ => Halt 500 $"数据库实例权限检查失败"
    | Ok permissions =>
      if Z.land permissions required =? 0
      then Halt 403 (if bool_decide (TrimSpace deniedMessage = [])
                     then $"权限不足：无权操作该数据库实例" else deniedMessage)
      else Next
    end).
Definition allowUnlimitedQueryRows E (userID instanceID : Z) : action (option verdict) :=
  allowExplicitInstancePermission E userID instanceID DatabasePermissionQueryUnlimited
    $"权限不足：无不限行数查询权限".
Definition allowWriteExplainQuery E (userID instanceID : Z) : action (option verdict) :=
  allowExplicitInstancePermission E userID instanceID DatabasePermissionWriteExplain
    $"权限不足：无写 SQL 执行计划权限".

(** [RestrictToAllowed] and the ids, then the filter of the repositories
    ([data/database/filter.go]). *)
Definition applyAllowedInstanceScope (scope : databasePermissionScope) : bool * list Z :=
  if negb (sc_enforced scope) || sc_admin scope then (false, []) else (true, sc_allowedIDs scope).
Definition applyAllowedInstanceFilter {A} (column : A -> Z) (restricted : bool)
    (allowedIDs : list Z) (l : list A) : list A :=
  if negb restricted then l
  else match allowedIDs with
  | [] => []
  | _ => List.filter (fun a => existsb (Z.eqb (column a)) allowedIDs) l
  end.

(** The masks shown with a list of instances. *)
Fixpoint decorated E (scope : databasePermissionScope) (ids : list Z) : action (list Z) :=
  match ids with
  | [] => mret []
  | id :: ids =>
    permissions ← GetUserInstancePermissions E (sc_userID scope) id;
    rest ← decorated E scope ids;
    mret (permissions :: rest)
  end.
Definition decorateInstancePermissions E (scope : databasePermissionScope) (ids : list Z)
    : action (reply (list Z)) :=
  if sc_admin scope then mret (Success ((fun _ => DatabasePermissionAll) <$> ids))
  else if negb (sc_enforced scope)
  then mret (Success ((fun _ => Z.ldiff DatabasePermissionAll
    (Z.lor (Z.lor DatabasePermissionQueryUnlimited DatabasePermissionWriteExplain)
       DatabasePermissionDDL)) <$> ids))
  else or_reply (decorated E scope ids) check_failed (fun l => mret (Success l)).

(** The rules of backup alerts of a single instance are checked on it. *)
Definition ensureBackupAlertRulePermission E (mode : result gostring) (userID : Z)
    (of_instance : bool) (instanceID : Z) : action verdict :=
  if of_instance && (0 <? instanceID)
  then ensureInstancePermission E mode userID instanceID DatabasePermissionBackup
  else
    scope ← permission_scope E mode userID DatabasePermissionBackup;
    mret match scope with Success _ => Next | Failure code message => Halt code message end.

(** [writeDatabaseError]: the status for a text; [status] is a parameter. *)
Definition parseUintParam (raw : gostring) : option Z :=
  match parse_id raw with Some id => if id =? 0 then None else Some id | None => None end.

(** [UpsertInstancePermission] and [DeleteInstancePermission]; [audit] writes
    the audit row from the masks before and after. *)
Section changes.
Context (status : gostring -> Z) (audit : option Z -> Z -> action unit).
Definition database_error {A} (prefix e : gostring) : reply A := Failure (status e) (prefix ++ e).
Definition or_database_error {A B} (prefix : gostring) (m : action A) (k : A -> action (reply B))
    : action (reply B) :=
  a ← tried m; match a with Ok a => k a | Err e => mret (database_error prefix e) end.

Definition UpsertInstancePermission E (roleID instanceID mask : Z) : action (reply unit) :=
  let permissions := normalizeDatabasePermissionMask mask in
  if permissions =? 0 then mret (Failure 400 $"请选择数据库实例权限")
  else
    or_database_error $"保存失败: " (ValidateTarget E roleID instanceID) (fun _ =>
    or_database_error $"保存失败: " (GetByRoleInstance E roleID instanceID) (fun before =>
    or_database_error $"保存失败: " (Upsert E roleID instanceID permissions) (fun _ =>
    or_database_error $"保存成功但记录审计失败: " (GetByRoleInstance E roleID instanceID) (fun after =>
    or_database_error $"保存成功但记录审计失败: "
      (audit (ip_Permissions <$> before)
         (match after with Some g => ip_Permissions g | None => permissions end)) (fun _ =>
    mret (Success tt)))))).

Definition DeleteInstancePermission E (idStr : gostring) : action (reply unit) :=
  match parseUintParam idStr with
  | None => mret (Failure 400 $"无效的权限ID")
  | Some id =>
    or_database_error $"删除失败: " (instance_grant_GetByID E id) (fun existing =>
    match existing with
    | None => mret (Failure 404 $"数据库实例权限不存在")
    | Some g =>
      or_database_error $"删除失败: " (instance_grant_Delete E id) (fun _ =>
      or_database_error $"删除成功但记录审计失败: " (audit (Some (ip_Permissions g)) 0) (fun _ =>
      mret (Success tt)))
    end)
  end.
End changes.

(** ** Requests on a database, from the route to the audit
    [instance_request] is the part that the handlers of the routes
    [/databases/instances/:id/query/...] share: the menu code of the route, the
    id and the body, the bit on the instance, the operation. *)
Definition permDatabaseQueryWrite : gostring := $"database:query:write".
Definition permDatabaseQueryDDL : gostring := $"database:query:ddl".

Definition instance_request {B A} E (status : gostring -> Z) (mode : result gostring)
    (menu : gostring) (required : Z) (failed : gostring) (run : Z -> B -> st World (result A))
    (userID : Z) (idStr : gostring) (req : result B) (s : access_world * World)
    : reply A * (access_world * World) :=
  let '(a, w) := s in
  match RequireMenuPermission E userID menu a with
  | (Ok Next, a) =>
    match parseUintParam idStr, req with
    | None, _ => (Failure 400 $"无效的实例ID", (a, w))
    | _, Err e => (Failure 400 ($"参数错误: " ++ e), (a, w))
    | Some id, Ok req =>
      match ensureInstancePermission E mode userID id required a with
      | (Ok Next, a) =>
        match run id req w with
        | (Ok data, w) => (Success data, (a, w))
        | (Err e, w) => (Failure (status e) (failed ++ e), (a, w))
        end
      | (Ok (Halt code message), a) => (Failure code message, (a, w))
      | (Err e, a) => (Failure 500 e, (a, w))
      end
    end
  | (Ok (Halt code message), a) => (Failure code message, (a, w))
  | (Err e, a) => (Failure 500 e, (a, w))
  end.

Definition http_ExecuteWriteQuery E (W : Env) (status : gostring -> Z) (mode : result gostring)
    (operator : QueryOperator) :=
  instance_request E status mode permDatabaseQueryWrite DatabasePermissionWrite $"执行失败: "
    (fun id body => ExecuteWriteQuery W id (Some body) operator) (op_ID operator).

Definition http_ExecuteDDLQuery E (W : Env) (status : gostring -> Z) (mode : result gostring)
    (operator : QueryOperator) :=
  instance_request E status mode permDatabaseQueryDDL DatabasePermissionDDL $"DDL 执行失败: "
    (fun id body => ExecuteDDLQuery W id (Some body) operator) (op_ID operator).

Definition http_ValidateDDLQuery E (W : Env) (status : gostring -> Z) (mode : result gostring)
    (operator : QueryOperator) :=
  instance_request E status mode permDatabaseQueryDDL DatabasePermissionDDL $"DDL 检查失败: "
    (fun id body w => (ValidateDDLQuery W id (Some body), w)) (op_ID operator).
End instances.
