(* ===== verification/Routes.v ===== *)
(** * The routes of the server

    The tables that [RegisterRoutes] of each server builds
    ([internal/server/{rbac,asset,database,messagequeue,system,audit,mfa}/http.go])
    and [registerRoutes] joins ([internal/server/http.go]), without the plugins
    and the disabled identity module: for every route its method, its path, the
    middlewares in front of it and the name of its handler. [pass] runs a
    request through the middlewares of a route. *)

From Stdlib Require Import ZArith Lia.
From stdpp Require Import base tactics option list numbers.
From S2P Require Import Prelude GoStrings GoNumbers ParentTree AccessModel HostGrants.
From S2P Require Import AccessControl InstanceAccess.

Open Scope Z_scope.

(** ** Routes and groups of routes *)
Inductive method := GET | POST | PUT | DELETE.

(** [AuthRequired], [RequireAdmin], [RequireMenuPermission],
    [RequireHostPermission]. *)
Inductive guard :=
| Session | AdminOnly | MenuCode (code : gostring) | HostOp (operation : Z).

Record route := Route {
  rt_method : method; rt_path : gostring; rt_guards : list guard; rt_handler : gostring }.

(** [r.Group(prefix)] with the middlewares of [Use]. *)
Definition group (prefix : gostring) (uses : list guard) (rs : list route) : list route :=
  (fun r => Route (rt_method r) (prefix ++ rt_path r) (uses ++ rt_guards r) (rt_handler r)) <$> rs.

(** ** Codes of menus, [database/http.go] *)
Definition permDatabaseInstanceView : gostring := $"database:instance:view".
Definition permDatabaseInstanceCreate : gostring := $"database:instance:create".
Definition permDatabaseInstanceUpdate : gostring := $"database:instance:update".
Definition permDatabaseInstanceDelete : gostring := $"database:instance:delete".
Definition permDatabaseInstanceStatus : gostring := $"database:instance:status".
Definition permDatabaseConnectionTest : gostring := $"database:connection:test".
Definition permDatabaseMetadataView : gostring := $"database:metadata:view".
Definition permDatabaseMetadataSync : gostring := $"database:metadata:sync".
Definition permDatabaseMetadataExport : gostring := $"database:metadata:export".
Definition permDatabaseQueryExecute : gostring := $"database:query:execute".
Definition permDatabaseQueryExplain : gostring := $"database:query:explain".
Definition permDatabaseQueryWritePlan : gostring := $"database:query:write-explain".
Definition permDatabaseQueryExport : gostring := $"database:query:export".
Definition permDatabaseQueryHistory : gostring := $"database:query:history:view".
Definition permDatabaseDiagnosisView : gostring := $"database:diagnosis:view".
Definition permDatabaseTopologyView : gostring := $"database:topology:view".
Definition permDatabaseAuditView : gostring := $"database:audit:view".
Definition permDatabaseAuditExport : gostring := $"database:audit:export".
Definition permDatabaseBackupView : gostring := $"database:backup:view".
Definition permDatabaseBackupCreate : gostring := $"database:backup:create".
Definition permDatabaseBackupUpdate : gostring := $"database:backup:update".
Definition permDatabaseBackupDelete : gostring := $"database:backup:delete".
Definition permDatabaseBackupRun : gostring := $"database:backup:run".
Definition permDatabaseBackupDownload : gostring := $"database:backup:download".
Definition permDatabaseRestoreView : gostring := $"database:restore:view".
Definition permDatabaseRestoreRun : gostring := $"database:restore:run".
Definition permDatabaseCapacityView : gostring := $"database:capacity:view".
Definition permDatabaseCapacityCollect : gostring := $"database:capacity:collect".
Definition permDatabaseInspectionView : gostring := $"database:inspection:view".
Definition permDatabaseInspectionRun : gostring := $"database:inspection:run".
Definition permDatabaseReplicaView : gostring := $"database:replica:view".
Definition permDatabaseReplicaCheck : gostring := $"database:replica:check".
Definition permDatabaseReplicaIncident : gostring := $"database:replica:incident-guide".
Definition permDatabaseReplicaDelete : gostring := $"database:replica:delete-record".
Definition permDatabaseReplicaPause : gostring := $"database:replica:pause-apply".
Definition permDatabaseReplicaResume : gostring := $"database:replica:resume-apply".
Definition permDatabaseRunnerToolView : gostring := $"database:runner-tool:view".
Definition permDatabaseRunnerToolProbe : gostring := $"database:runner-tool:probe".
Definition permDatabaseRunnerToolInstall : gostring := $"database:runner-tool:install".
Definition permDatabaseRunnerToolScript : gostring := $"database:runner-tool:generate-script".

(** ** Codes of menus, [messagequeue/http.go] *)
Definition permMQInstanceView : gostring := $"messagequeue:instance:view".
Definition permMQInstanceCreate : gostring := $"messagequeue:instance:create".
Definition permMQInstanceUpdate : gostring := $"messagequeue:instance:update".
Definition permMQInstanceDelete : gostring := $"messagequeue:instance:delete".
Definition permMQInstanceStatus : gostring := $"messagequeue:instance:status".
Definition permMQConnectionTest : gostring := $"messagequeue:connection:test".
Definition permMQMetadataView : gostring := $"messagequeue:metadata:view".
Definition permMQMetadataSync : gostring := $"messagequeue:metadata:sync".
Definition permMQDiagnosisView : gostring := $"messagequeue:diagnosis:view".
Definition permMQMessageRead : gostring := $"messagequeue:message:read".
Definition permMQMessageExport : gostring := $"messagequeue:message:export".
Definition permMQMessageWrite : gostring := $"messagequeue:message:write".
Definition permMQResourceManage : gostring := $"messagequeue:resource:manage".
Definition permMQHighRisk : gostring := $"messagequeue:operation:high-risk".
Definition permMQAuditView : gostring := $"messagequeue:audit:view".
Definition permMQAuditExport : gostring := $"messagequeue:audit:export".
Definition permMQPermissionManage : gostring := $"messagequeue:permission:manage".

(** ** The tables *)
(** [rbac/http.go] *)
Definition rbac_RegisterRoutes : list route :=
  group $"/api/v1/public" [] (
    [Route POST $"/login" [] $"userService.Login"] ++
    group $"/auth/mfa" [] (
      [Route POST $"/login" [] $"userService.MFALogin"])) ++
  group $"/api/v1/captcha" [] (
    [Route GET $"" [] $"captchaService.GetCaptcha";
     Route POST $"/verify" [] $"captchaService.VerifyCaptcha"]) ++
  group $"/api/v1" [Session] (
    [Route GET $"/profile" [] $"userService.GetProfile";
     Route PUT $"/profile/password" [] $"userService.ChangePassword"] ++
    group $"/users" [] (
      [Route GET $"" [] $"userService.ListUsers";
       Route GET $"/:id" [] $"userService.GetUser";
       Route POST $"" [] $"userService.CreateUser";
       Route PUT $"/:id" [] $"userService.UpdateUser";
       Route DELETE $"/:id" [] $"userService.DeleteUser";
       Route POST $"/:id/roles" [] $"userService.AssignUserRoles";
       Route POST $"/:id/positions" [] $"userService.AssignUserPositions";
       Route PUT $"/:id/reset-password" [] $"userService.ResetPassword";
       Route POST $"/:id/unlock" [] $"userService.UnlockUser"]) ++
    group $"/roles" [] (
      [Route GET $"" [] $"roleService.ListRoles";
       Route GET $"/all" [] $"roleService.GetAllRoles";
       Route GET $"/:id" [] $"roleService.GetRole";
       Route POST $"" [] $"roleService.CreateRole";
       Route PUT $"/:id" [] $"roleService.UpdateRole";
       Route DELETE $"/:id" [] $"roleService.DeleteRole";
       Route POST $"/:id/menus" [] $"roleService.AssignRoleMenus"]) ++
    group $"/departments" [] (
      [Route GET $"/tree" [] $"departmentService.GetDepartmentTree";
       Route GET $"/parent-options" [] $"departmentService.GetParentOptions";
       Route POST $"" [] $"departmentService.CreateDepartment";
       Route GET $"/:id" [] $"departmentService.GetDepartment";
       Route PUT $"/:id" [] $"departmentService.UpdateDepartment";
       Route DELETE $"/:id" [] $"departmentService.DeleteDepartment"]) ++
    group $"/menus" [] (
      [Route GET $"/tree" [] $"menuService.GetMenuTree";
       Route GET $"/user" [] $"menuService.GetUserMenu";
       Route GET $"/:id" [] $"menuService.GetMenu";
       Route POST $"" [] $"menuService.CreateMenu";
       Route PUT $"/:id" [] $"menuService.UpdateMenu";
       Route DELETE $"/:id" [] $"menuService.DeleteMenu"]) ++
    group $"/positions" [] (
      [Route GET $"" [] $"positionService.ListPositions";
       Route GET $"/:id" [] $"positionService.GetPosition";
       Route POST $"" [] $"positionService.CreatePosition";
       Route PUT $"/:id" [] $"positionService.UpdatePosition";
       Route DELETE $"/:id" [] $"positionService.DeletePosition";
       Route GET $"/:id/users" [] $"positionService.GetPositionUsers";
       Route POST $"/:id/users" [] $"positionService.AssignUsersToPosition";
       Route DELETE $"/:id/users/:userId" [] $"positionService.RemoveUserFromPosition"]) ++
    group $"/asset-permissions" [] (
      [Route GET $"" [] $"assetPermissionService.ListAssetPermissions";
       Route POST $"" [] $"assetPermissionService.CreateAssetPermission";
       Route GET $"/role/:roleId" [] $"assetPermissionService.GetAssetPermissionsByRole";
       Route GET $"/group/:assetGroupId" [] $"assetPermissionService.GetAssetPermissionsByGroup";
       Route GET $"/user/host" [] $"assetPermissionService.GetUserHostPermissions";
       Route GET $"/:id" [] $"assetPermissionService.GetAssetPermissionDetail";
       Route PUT $"/:id" [] $"assetPermissionService.UpdateAssetPermission";
       Route DELETE $"/:id" [] $"assetPermissionService.DeleteAssetPermission";
       Route DELETE $"" [] $"assetPermissionService.DeleteAssetPermissionByRoleAndGroup"])).

(** [asset/http.go] *)
Definition asset_RegisterRoutes : list route :=
  group $"/asset-groups" [] (
    [Route GET $"/tree" [] $"assetGroupService.GetGroupTree";
     Route GET $"/parent-options" [] $"assetGroupService.GetParentOptions";
     Route POST $"" [] $"assetGroupService.CreateGroup";
     Route GET $"/:id" [] $"assetGroupService.GetGroup";
     Route PUT $"/:id" [] $"assetGroupService.UpdateGroup";
     Route DELETE $"/:id" [] $"assetGroupService.DeleteGroup"]) ++
  group $"/hosts" [] (
    [Route GET $"" [] $"hostService.ListHosts";
     Route GET $"/template/download" [] $"hostService.DownloadExcelTemplate";
     Route POST $"/import" [] $"hostService.ImportFromExcel";
     Route POST $"/batch-collect" [] $"hostService.BatchCollectHostInfo";
     Route POST $"/batch-delete" [] $"hostService.BatchDeleteHosts";
     Route GET $"/:id/trends" [HostOp PermissionView] $"hostService.GetMetricTrend";
     Route GET $"/:id" [HostOp PermissionView] $"hostService.GetHost";
     Route POST $"" [HostOp PermissionEdit] $"hostService.CreateHost";
     Route PUT $"/:id" [HostOp PermissionEdit] $"hostService.UpdateHost";
     Route DELETE $"/:id" [HostOp PermissionDelete] $"hostService.DeleteHost";
     Route POST $"/:id/collect" [HostOp PermissionCollect] $"hostService.CollectHostInfo";
     Route POST $"/:id/test" [] $"hostService.TestHostConnection";
     Route GET $"/:id/agent/bootstrap" [HostOp PermissionEdit] $"agentService.GetHostBootstrap";
     Route POST $"/:id/desktop/sessions" [HostOp PermissionDesktop] $"desktopService.CreateDesktopSession";
     Route GET $"/:id/files" [HostOp PermissionFile] $"hostService.ListHostFiles";
     Route POST $"/:id/files/upload" [HostOp PermissionFile] $"hostService.UploadHostFile";
     Route GET $"/:id/files/download" [HostOp PermissionFile] $"hostService.DownloadHostFile";
     Route DELETE $"/:id/files" [HostOp PermissionFile] $"hostService.DeleteHostFile"]) ++
  group $"/agents" [] (
    [Route GET $"" [] $"agentService.List";
     Route POST $"/deploy" [] $"agentService.Deploy";
     Route POST $"/reinstall" [] $"agentService.Reinstall";
     Route POST $"/uninstall" [] $"agentService.Uninstall";
     Route GET $"/jobs/:id" [] $"agentService.GetJob";
     Route GET $"/:id/inventory" [HostOp PermissionView] $"agentService.GetInventory"]) ++
  group $"/credentials" [] (
    [Route GET $"" [] $"hostService.ListCredentials";
     Route GET $"/all" [] $"hostService.GetAllCredentials";
     Route GET $"/:id" [] $"hostService.GetCredential";
     Route POST $"" [] $"hostService.CreateCredential";
     Route PUT $"/:id" [] $"hostService.UpdateCredential";
     Route DELETE $"/:id" [] $"hostService.DeleteCredential"]) ++
  group $"/cloud-accounts" [] (
    [Route GET $"" [] $"hostService.ListCloudAccounts";
     Route GET $"/all" [] $"hostService.GetAllCloudAccounts";
     Route GET $"/:id" [] $"hostService.GetCloudAccount";
     Route GET $"/:id/regions" [] $"hostService.GetCloudRegions";
     Route GET $"/:id/instances" [] $"hostService.GetCloudInstances";
     Route POST $"" [] $"hostService.CreateCloudAccount";
     Route PUT $"/:id" [] $"hostService.UpdateCloudAccount";
     Route DELETE $"/:id" [] $"hostService.DeleteCloudAccount";
     Route POST $"/import" [] $"hostService.ImportFromCloud"]) ++
  group $"/virtualization" [AdminOnly] (
    [Route GET $"/settings" [] $"virtualizationService.GetSettings";
     Route PUT $"/settings" [] $"virtualizationService.UpdateSettings";
     Route GET $"/action-logs" [] $"virtualizationService.ListActionLogs"] ++
    group $"/platforms" [] (
      [Route GET $"" [] $"virtualizationService.ListPlatforms";
       Route POST $"" [] $"virtualizationService.CreatePlatform";
       Route GET $"/:id" [] $"virtualizationService.GetPlatform";
       Route PUT $"/:id" [] $"virtualizationService.UpdatePlatform";
       Route DELETE $"/:id" [] $"virtualizationService.DeletePlatform";
       Route GET $"/:id/trend" [] $"virtualizationService.GetPlatformTrend";
       Route POST $"/:id/test" [] $"virtualizationService.TestPlatform";
       Route POST $"/:id/sync" [] $"virtualizationService.SyncPlatform";
       Route GET $"/:id/sync-jobs" [] $"virtualizationService.ListSyncJobs"]) ++
    group $"/clusters" [] (
      [Route GET $"/:id/trend" [] $"virtualizationService.GetClusterTrend"]) ++
    [Route GET $"/topology" [] $"virtualizationService.GetTopology"] ++
    group $"/guests" [] (
      [Route GET $"" [] $"virtualizationService.ListGuests";
       Route GET $"/:id" [] $"virtualizationService.GetGuest";
       Route GET $"/:id/precheck" [] $"virtualizationService.PrecheckGuestOnboard";
       Route POST $"/:id/console-link" [] $"virtualizationService.CreateGuestConsoleLink";
       Route POST $"/:id/power" [] $"virtualizationService.PowerGuest";
       Route GET $"/:id/snapshots" [] $"virtualizationService.ListGuestSnapshots";
       Route POST $"/:id/snapshots" [] $"virtualizationService.CreateGuestSnapshot";
       Route POST $"/:id/snapshots/rollback" [] $"virtualizationService.RollbackGuestSnapshot";
       Route POST $"/:id/snapshots/delete" [] $"virtualizationService.DeleteGuestSnapshot";
       Route POST $"/:id/onboard" [] $"virtualizationService.BindGuest";
       Route POST $"/:id/bind" [] $"virtualizationService.BindGuest";
       Route POST $"/:id/unbind" [] $"virtualizationService.UnbindGuest"])) ++
  group $"/asset/terminal" [] (
    [Route GET $"/:id" [HostOp PermissionTerminal] $"HandleSSHConnection";
     Route POST $"/:id/resize" [] $"ResizeTerminal"]) ++
  group $"/terminal-sessions" [] (
    [Route GET $"" [AdminOnly] $"terminalAuditHandler.ListTerminalSessions";
     Route GET $"/:id/play" [AdminOnly] $"terminalAuditHandler.PlayTerminalSession";
     Route GET $"/:id/download" [AdminOnly] $"terminalAuditHandler.DownloadTerminalSession";
     Route GET $"/:id/events" [AdminOnly] $"terminalAuditHandler.ListTerminalSessionEvents";
     Route DELETE $"/:id" [AdminOnly] $"terminalAuditHandler.DeleteTerminalSession"]) ++
  group $"/desktop-sessions" [] (
    [Route GET $"" [AdminOnly] $"desktopService.ListDesktopSessions";
     Route GET $"/:id/recording" [AdminOnly] $"desktopService.DownloadDesktopSessionRecording";
     Route GET $"/:id/recording/play" [AdminOnly] $"desktopService.PlayDesktopSessionRecording";
     Route DELETE $"/:id" [AdminOnly] $"desktopService.DeleteDesktopSession";
     Route GET $"/:id" [] $"desktopService.GetDesktopSession";
     Route POST $"/:id/files/upload" [] $"desktopService.UploadDesktopSessionFile";
     Route POST $"/:id/heartbeat" [] $"desktopService.HeartbeatDesktopSession";
     Route POST $"/:id/close" [] $"desktopService.CloseDesktopSession"]).

(** [asset/http.go], public *)
Definition asset_RegisterPublicRoutes : list route :=
  group $"/agents" [] (
    [Route GET $"/install.ps1" [] $"agentService.InstallPowerShellScript";
     Route GET $"/install.sh" [] $"agentService.InstallShellScript";
     Route GET $"/download/:os/:arch" [] $"agentService.DownloadBinary";
     Route GET $"/echo-ip" [] $"agentService.EchoIP";
     Route POST $"/register" [] $"agentService.Register";
     Route POST $"/report" [] $"agentService.Report"]).

(** [database/http.go] *)
Definition database_RegisterRoutes : list route :=
  group $"/databases" [] (
    [Route GET $"/supported-types" [MenuCode permDatabaseInstanceView] $"service.GetSupportedTypes";
     Route GET $"/ui-permissions" [MenuCode permDatabaseInstanceView] $"GetUIPermissions";
     Route GET $"/instance-permissions" [MenuCode permDatabaseInstanceView] $"service.ListInstancePermissions";
     Route POST $"/instance-permissions" [MenuCode permDatabaseInstanceUpdate] $"service.UpsertInstancePermission";
     Route DELETE $"/instance-permissions/:id" [MenuCode permDatabaseInstanceUpdate] $"service.DeleteInstancePermission";
     Route GET $"/query-history" [MenuCode permDatabaseQueryHistory] $"service.ListQueryHistory";
     Route GET $"/query-audits" [MenuCode permDatabaseAuditView] $"service.ListQueryAudits";
     Route GET $"/query-audits/export" [MenuCode permDatabaseAuditExport] $"service.ExportQueryAudits";
     Route GET $"/backup-tasks" [MenuCode permDatabaseBackupView] $"service.ListBackupTasks";
     Route POST $"/backup-tasks" [MenuCode permDatabaseBackupCreate] $"service.CreateBackupTask";
     Route PUT $"/backup-tasks/:id" [MenuCode permDatabaseBackupUpdate] $"service.UpdateBackupTask";
     Route DELETE $"/backup-tasks/:id" [MenuCode permDatabaseBackupDelete] $"service.DeleteBackupTask";
     Route POST $"/backup-tasks/:id/run" [MenuCode permDatabaseBackupRun] $"service.RunBackupTask";
     Route GET $"/backup-alert-summary" [MenuCode permDatabaseBackupView] $"service.GetBackupAlertSummary";
     Route GET $"/backup-alert-rules" [MenuCode permDatabaseBackupView] $"service.ListBackupAlertRules";
     Route POST $"/backup-alert-rules" [MenuCode permDatabaseBackupCreate] $"service.CreateBackupAlertRule";
     Route GET $"/backup-alert-rules/:id" [MenuCode permDatabaseBackupView] $"service.GetBackupAlertRule";
     Route PUT $"/backup-alert-rules/:id" [MenuCode permDatabaseBackupUpdate] $"service.UpdateBackupAlertRule";
     Route DELETE $"/backup-alert-rules/:id" [MenuCode permDatabaseBackupDelete] $"service.DeleteBackupAlertRule";
     Route POST $"/backup-alert-rules/:id/test" [MenuCode permDatabaseBackupRun] $"service.TestBackupAlertRule";
     Route GET $"/backup-alert-states" [MenuCode permDatabaseBackupView] $"service.ListBackupAlertStates";
     Route GET $"/protection-profiles" [MenuCode permDatabaseBackupView] $"service.ListProtectionProfiles";
     Route GET $"/protection-risks" [MenuCode permDatabaseBackupView] $"service.ListProtectionRisks";
     Route GET $"/protection-profiles/:id" [MenuCode permDatabaseBackupView] $"service.GetProtectionProfile";
     Route POST $"/protection-profiles/:id/validate" [MenuCode permDatabaseBackupRun] $"service.ValidateProtectionProfile";
     Route POST $"/protection-profiles/:id/run-restore-drill" [MenuCode permDatabaseRestoreRun] $"service.RunProtectionProfileRestoreDrill";
     Route POST $"/protection-wizards/mysql-pitr/preview" [MenuCode permDatabaseBackupView] $"service.PreviewMySQLPITRWizard";
     Route POST $"/protection-wizards/mysql-pitr/apply" [MenuCode permDatabaseBackupCreate] $"service.ApplyMySQLPITRWizard";
     Route POST $"/protection-wizards/postgresql-barman/preview" [MenuCode permDatabaseBackupView] $"service.PreviewPostgresBarmanPITRWizard";
     Route POST $"/protection-wizards/postgresql-barman/apply" [MenuCode permDatabaseBackupCreate] $"service.ApplyPostgresBarmanPITRWizard";
     Route GET $"/backup-policies" [MenuCode permDatabaseBackupView] $"service.ListBackupPolicies";
     Route POST $"/backup-policies" [MenuCode permDatabaseBackupCreate] $"service.CreateBackupPolicy";
     Route PUT $"/backup-policies/:id" [MenuCode permDatabaseBackupUpdate] $"service.UpdateBackupPolicy";
     Route DELETE $"/backup-policies/:id" [MenuCode permDatabaseBackupDelete] $"service.DeleteBackupPolicy";
     Route GET $"/backup-policies/:id/chain" [MenuCode permDatabaseBackupView] $"service.GetBackupPolicyChain";
     Route POST $"/backup-policies/:id/validate-chain" [MenuCode permDatabaseBackupRun] $"service.ValidateBackupPolicyChain";
     Route POST $"/backup-policies/:id/synthetic-full/preview" [MenuCode permDatabaseBackupRun] $"service.PreviewBackupPolicySyntheticFull";
     Route POST $"/backup-policies/:id/synthetic-full/run" [MenuCode permDatabaseBackupRun] $"service.RunBackupPolicySyntheticFull";
     Route GET $"/backup-policies/:id/synthetic-full/jobs" [MenuCode permDatabaseBackupView] $"service.ListBackupPolicySyntheticJobs";
     Route POST $"/backup-policies/:id/purge-preview" [MenuCode permDatabaseBackupView] $"service.PreviewBackupPolicyPurge";
     Route POST $"/backup-policies/:id/purge" [MenuCode permDatabaseBackupRun] $"service.RunBackupPolicyPurge";
     Route POST $"/backup-policies/:id/run-full" [MenuCode permDatabaseBackupRun] $"service.RunBackupPolicyFull";
     Route POST $"/backup-policies/:id/run-incremental" [MenuCode permDatabaseBackupRun] $"service.RunBackupPolicyIncremental";
     Route GET $"/backup-records" [MenuCode permDatabaseBackupView] $"service.ListBackupRecords";
     Route POST $"/backup-records/external" [MenuCode permDatabaseBackupCreate] $"service.RegisterExternalBackupRecord";
     Route GET $"/backup-records/:id/download" [MenuCode permDatabaseBackupDownload] $"service.DownloadBackupRecord";
     Route POST $"/backup-records/:id/verify" [MenuCode permDatabaseBackupRun] $"service.VerifyBackupRecord";
     Route POST $"/backup-records/:id/restore-dry-run" [MenuCode permDatabaseRestoreRun] $"service.RunRestoreDryRun";
     Route GET $"/restore-jobs" [MenuCode permDatabaseRestoreView] $"service.ListRestoreJobs";
     Route GET $"/restore-jobs/:id" [MenuCode permDatabaseRestoreView] $"service.GetRestoreJob";
     Route POST $"/restore-jobs/:id/cancel" [MenuCode permDatabaseRestoreRun] $"service.CancelRestoreJob";
     Route POST $"/restore-jobs/:id/cleanup" [MenuCode permDatabaseRestoreRun] $"service.CleanupRestoreJob";
     Route GET $"/restore-jobs/:id/proof" [MenuCode permDatabaseRestoreView] $"service.GetRestoreJobProof";
     Route GET $"/restore-plans" [MenuCode permDatabaseRestoreView] $"service.ListRestorePlans";
     Route POST $"/restore-plans" [MenuCode permDatabaseRestoreRun] $"service.CreateRestorePlan";
     Route POST $"/restore-plans/:id/run" [MenuCode permDatabaseRestoreRun] $"service.RunRestorePlan";
     Route GET $"/log-archive-streams" [MenuCode permDatabaseBackupView] $"service.ListLogArchiveStreams";
     Route POST $"/log-archive-streams" [MenuCode permDatabaseBackupCreate] $"service.CreateLogArchiveStream";
     Route GET $"/log-archive-streams/:id/status" [MenuCode permDatabaseBackupView] $"service.GetLogArchiveStreamStatus";
     Route POST $"/log-archive-streams/:id/start" [MenuCode permDatabaseBackupRun] $"service.StartLogArchiveStream";
     Route POST $"/log-archive-streams/:id/pause" [MenuCode permDatabaseBackupRun] $"service.PauseLogArchiveStream";
     Route POST $"/log-archive-streams/:id/resume" [MenuCode permDatabaseBackupRun] $"service.ResumeLogArchiveStream";
     Route POST $"/log-archive-streams/:id/stop" [MenuCode permDatabaseBackupRun] $"service.StopLogArchiveStream";
     Route POST $"/log-archive-streams/:id/run-once" [MenuCode permDatabaseBackupRun] $"service.RunLogArchiveOnce";
     Route POST $"/log-archive-streams/:id/catch-up" [MenuCode permDatabaseBackupRun] $"service.RunLogArchiveCatchUp";
     Route GET $"/log-archives" [MenuCode permDatabaseBackupView] $"service.ListLogArchives";
     Route POST $"/log-archives/external" [MenuCode permDatabaseBackupCreate] $"service.RegisterExternalLogArchive";
     Route GET $"/log-archive-events" [MenuCode permDatabaseBackupView] $"service.ListLogArchiveEvents";
     Route GET $"/storage-profiles" [MenuCode permDatabaseBackupView] $"service.ListStorageProfiles";
     Route POST $"/storage-profiles" [MenuCode permDatabaseBackupCreate] $"service.CreateStorageProfile";
     Route POST $"/storage-profiles/:id/posture-check" [MenuCode permDatabaseBackupRun] $"service.CheckStorageProfilePosture";
     Route GET $"/secret-profiles" [MenuCode permDatabaseBackupView] $"service.ListSecretProfiles";
     Route POST $"/secret-profiles" [MenuCode permDatabaseBackupCreate] $"service.CreateSecretProfile";
     Route GET $"/runner-hosts" [MenuCode permDatabaseBackupView] $"service.ListRunnerHosts";
     Route POST $"/runner-hosts" [MenuCode permDatabaseBackupCreate] $"service.CreateRunnerHost";
     Route PUT $"/runner-hosts/:id" [MenuCode permDatabaseBackupUpdate] $"service.UpdateRunnerHost";
     Route DELETE $"/runner-hosts/:id" [MenuCode permDatabaseBackupDelete] $"service.DeleteRunnerHost";
     Route POST $"/runner-hosts/:id/test" [MenuCode permDatabaseBackupRun] $"service.TestRunnerHost";
     Route GET $"/runner-hosts/:id/tool-profile" [MenuCode permDatabaseRunnerToolView] $"service.GetRunnerToolProfile";
     Route POST $"/runner-hosts/:id/tool-probe" [MenuCode permDatabaseRunnerToolProbe] $"service.ProbeRunnerTools";
     Route POST $"/runner-hosts/:id/tool-install-script" [MenuCode permDatabaseRunnerToolScript] $"service.GenerateRunnerToolInstallScript";
     Route POST $"/runner-hosts/:id/tool-install" [MenuCode permDatabaseRunnerToolInstall] $"service.InstallRunnerTools";
     Route POST $"/runner-hosts/:id/agent-config-snippet" [MenuCode permDatabaseRunnerToolScript] $"service.GenerateRunnerAgentConfigSnippet";
     Route POST $"/runner-hosts/:id/agent-install" [MenuCode permDatabaseRunnerToolInstall] $"service.InstallRunnerAgent";
     Route POST $"/runner-hosts/:id/agent-upgrade" [MenuCode permDatabaseRunnerToolInstall] $"service.UpgradeRunnerAgent";
     Route POST $"/runner-hosts/:id/agent-restart" [MenuCode permDatabaseBackupRun] $"service.RestartRunnerAgent";
     Route GET $"/runner-hosts/:id/agent-logs" [MenuCode permDatabaseRunnerToolView] $"service.GetRunnerAgentLogs";
     Route GET $"/runner-tool-offline-packages" [MenuCode permDatabaseRunnerToolView] $"service.ListRunnerToolOfflinePackages";
     Route POST $"/runner-tool-offline-packages" [MenuCode permDatabaseRunnerToolInstall] $"service.UploadRunnerToolOfflinePackage";
     Route GET $"/runner-tool-offline-packages/:id/download" [MenuCode permDatabaseRunnerToolView] $"service.DownloadRunnerToolOfflinePackage";
     Route GET $"/runner-jobs" [MenuCode permDatabaseBackupView] $"service.ListRunnerJobs";
     Route GET $"/barman-servers" [MenuCode permDatabaseBackupView] $"service.ListBarmanServers";
     Route POST $"/barman-servers" [MenuCode permDatabaseBackupCreate] $"service.CreateBarmanServer";
     Route PUT $"/barman-servers/:id" [MenuCode permDatabaseBackupUpdate] $"service.UpdateBarmanServer";
     Route DELETE $"/barman-servers/:id" [MenuCode permDatabaseBackupDelete] $"service.DeleteBarmanServer";
     Route POST $"/barman-servers/:id/check" [MenuCode permDatabaseBackupRun] $"service.CheckBarmanServer";
     Route POST $"/barman-servers/:id/sync-catalog" [MenuCode permDatabaseBackupRun] $"service.SyncBarmanCatalog";
     Route POST $"/barman-servers/:id/sync-wal" [MenuCode permDatabaseBackupRun] $"service.SyncBarmanWAL";
     Route POST $"/barman-servers/:id/backup" [MenuCode permDatabaseBackupRun] $"service.BackupBarmanServer";
     Route GET $"/inspection-reports" [MenuCode permDatabaseInspectionView] $"service.ListInspectionReports";
     Route POST $"/inspection-reports" [MenuCode permDatabaseInspectionRun] $"service.GenerateInspectionReport";
     Route GET $"/inspection-reports/:id" [MenuCode permDatabaseInspectionView] $"service.GetInspectionReport";
     Route GET $"/replica-protections" [MenuCode permDatabaseReplicaView] $"service.ListReplicaProtections";
     Route POST $"/replica-incident-guides" [MenuCode permDatabaseReplicaIncident] $"service.CreateReplicaIncidentGuide";
     Route GET $"/replica-incident-guides" [MenuCode permDatabaseReplicaView] $"service.ListReplicaIncidentGuides";
     Route GET $"/replica-incident-guides/:id" [MenuCode permDatabaseReplicaView] $"service.GetReplicaIncidentGuide";
     Route DELETE $"/replica-incident-guides/:id" [MenuCode permDatabaseReplicaIncident] $"service.DeleteReplicaIncidentGuide";
     Route GET $"/replica-actions" [MenuCode permDatabaseReplicaView] $"service.ListReplicaActions";
     Route DELETE $"/replica-actions/:id" [MenuCode permDatabaseReplicaDelete] $"service.DeleteReplicaAction";
     Route GET $"/replicas" [MenuCode permDatabaseReplicaView] $"service.ListReplicas";
     Route POST $"/replicas/mark" [MenuCode permDatabaseReplicaCheck] $"service.MarkReplicaRelation";
     Route DELETE $"/replicas/:id" [MenuCode permDatabaseReplicaDelete] $"service.DeleteReplicaRelation";
     Route POST $"/replicas/:id/pause-apply" [MenuCode permDatabaseReplicaPause] $"service.PauseReplicaApply";
     Route POST $"/replicas/:id/resume-apply" [MenuCode permDatabaseReplicaResume] $"service.ResumeReplicaApply";
     Route POST $"/replication-checks/batch" [MenuCode permDatabaseReplicaCheck] $"service.RunReplicationCheckBatch";
     Route GET $"/replication-checks" [MenuCode permDatabaseReplicaView] $"service.ListReplicationChecks"] ++
    group $"/instances" [] (
      [Route GET $"" [MenuCode permDatabaseInstanceView] $"service.ListInstances";
       Route POST $"" [MenuCode permDatabaseInstanceCreate] $"service.CreateInstance";
       Route GET $"/:id" [MenuCode permDatabaseInstanceView] $"service.GetInstance";
       Route PUT $"/:id" [MenuCode permDatabaseInstanceUpdate] $"service.UpdateInstance";
       Route DELETE $"/:id" [MenuCode permDatabaseInstanceDelete] $"service.DeleteInstance";
       Route POST $"/:id/enable" [MenuCode permDatabaseInstanceStatus] $"service.EnableInstance";
       Route POST $"/:id/disable" [MenuCode permDatabaseInstanceStatus] $"service.DisableInstance";
       Route POST $"/:id/test" [MenuCode permDatabaseConnectionTest] $"service.TestInstance";
       Route POST $"/:id/sync-metadata" [MenuCode permDatabaseMetadataSync] $"service.SyncMetadata";
       Route GET $"/:id/schemas" [MenuCode permDatabaseMetadataView] $"service.ListSchemas";
       Route GET $"/:id/tables" [MenuCode permDatabaseMetadataView] $"service.ListTables";
       Route GET $"/:id/columns" [MenuCode permDatabaseMetadataView] $"service.ListColumns";
       Route GET $"/:id/indexes" [MenuCode permDatabaseMetadataView] $"service.ListIndexes";
       Route GET $"/:id/table-relations" [MenuCode permDatabaseMetadataView] $"service.ListTableRelations";
       Route GET $"/:id/ddl" [MenuCode permDatabaseMetadataView] $"service.GetTableDDL";
       Route GET $"/:id/dictionary/export" [MenuCode permDatabaseMetadataExport] $"service.ExportTableDictionary";
       Route GET $"/:id/metrics" [MenuCode permDatabaseDiagnosisView] $"service.GetDiagnosisMetrics";
       Route GET $"/:id/sessions" [MenuCode permDatabaseDiagnosisView] $"service.ListDiagnosisSessions";
       Route GET $"/:id/slow-queries" [MenuCode permDatabaseDiagnosisView] $"service.ListSlowQueries";
       Route GET $"/:id/topology" [MenuCode permDatabaseTopologyView] $"service.GetTopology";
       Route GET $"/:id/replicas" [MenuCode permDatabaseReplicaView] $"service.ListInstanceReplicas";
       Route GET $"/:id/replication-status" [MenuCode permDatabaseReplicaView] $"service.GetInstanceReplicationStatus";
       Route POST $"/:id/replication-check" [MenuCode permDatabaseReplicaCheck] $"service.CheckInstanceReplication";
       Route GET $"/:id/capacity-trend" [MenuCode permDatabaseCapacityView] $"service.GetCapacityTrend";
       Route POST $"/:id/capacity-snapshots" [MenuCode permDatabaseCapacityCollect] $"service.CollectCapacitySnapshot";
       Route POST $"/:id/query/format" [MenuCode permDatabaseQueryExecute] $"service.FormatQuerySQL";
       Route POST $"/:id/query/write/validate" [MenuCode permDatabaseQueryWrite] $"service.ValidateWriteQuery";
       Route POST $"/:id/query/write/explain" [MenuCode permDatabaseQueryWritePlan] $"service.ExplainWriteQuery";
       Route POST $"/:id/query/write" [MenuCode permDatabaseQueryWrite] $"service.ExecuteWriteQuery";
       Route POST $"/:id/query/ddl/validate" [MenuCode permDatabaseQueryDDL] $"service.ValidateDDLQuery";
       Route POST $"/:id/query/ddl" [MenuCode permDatabaseQueryDDL] $"service.ExecuteDDLQuery";
       Route POST $"/:id/query" [MenuCode permDatabaseQueryExecute] $"service.ExecuteQuery";
       Route POST $"/:id/query/explain" [MenuCode permDatabaseQueryExplain] $"service.ExplainQuery";
       Route POST $"/:id/query/export" [MenuCode permDatabaseQueryExport] $"service.ExportQueryResult"])).

(** [database/http.go], public *)
Definition database_RegisterPublicRoutes : list route :=
  group $"/databases/runner-agents/:runnerId" [] (
    [Route POST $"/heartbeat" [] $"service.RunnerAgentHeartbeat";
     Route GET $"/log-archive-streams" [] $"service.RunnerAgentListLogArchiveStreams";
     Route POST $"/log-archive-streams/:id/checkpoint" [] $"service.RunnerAgentCheckpointLogArchiveStream";
     Route POST $"/log-archives" [] $"service.RunnerAgentRegisterLogArchive";
     Route POST $"/log-archive-events" [] $"service.RunnerAgentCreateLogArchiveEvent"]).

(** [messagequeue/http.go] *)
Definition messagequeue_RegisterRoutes : list route :=
  group $"/message-queues" [] (
    [Route GET $"/supported-types" [MenuCode permMQInstanceView] $"service.GetSupportedTypes";
     Route GET $"/ui-permissions" [MenuCode permMQInstanceView] $"GetUIPermissions";
     Route GET $"/instance-permissions" [MenuCode permMQInstanceView] $"service.ListInstancePermissions";
     Route POST $"/instance-permissions" [MenuCode permMQPermissionManage] $"service.UpsertInstancePermission";
     Route DELETE $"/instance-permissions/:id" [MenuCode permMQPermissionManage] $"service.DeleteInstancePermission";
     Route GET $"/operation-audits" [MenuCode permMQAuditView] $"service.ListOperationAudits";
     Route GET $"/message-audits" [MenuCode permMQAuditView] $"service.ListMessageAudits";
     Route GET $"/jobs" [MenuCode permMQDiagnosisView] $"service.ListJobs";
     Route GET $"/jobs/:id" [MenuCode permMQDiagnosisView] $"service.GetJob";
     Route GET $"/dashboard" [MenuCode permMQDiagnosisView] $"service.GetProductionDashboard";
     Route GET $"/governance-report" [MenuCode permMQDiagnosisView] $"service.GetGovernanceReport";
     Route GET $"/dlq-analysis" [MenuCode permMQDiagnosisView] $"service.GetDLQAnalysis";
     Route POST $"/dlq-records" [MenuCode permMQDiagnosisView] $"service.UpsertDLQRecord";
     Route GET $"/audit-chain/verify" [MenuCode permMQAuditView] $"service.VerifyAuditChain"] ++
    group $"/instances" [] (
      [Route GET $"" [MenuCode permMQInstanceView] $"service.ListInstances";
       Route POST $"" [MenuCode permMQInstanceCreate] $"service.CreateInstance";
       Route GET $"/:id" [MenuCode permMQInstanceView] $"service.GetInstance";
       Route PUT $"/:id" [MenuCode permMQInstanceUpdate] $"service.UpdateInstance";
       Route DELETE $"/:id" [MenuCode permMQInstanceDelete] $"service.DeleteInstance";
       Route POST $"/:id/enable" [MenuCode permMQInstanceStatus] $"service.EnableInstance";
       Route POST $"/:id/disable" [MenuCode permMQInstanceStatus] $"service.DisableInstance";
       Route POST $"/:id/test" [MenuCode permMQConnectionTest] $"service.TestInstance";
       Route POST $"/:id/sync-metadata" [MenuCode permMQMetadataSync] $"service.SyncMetadata";
       Route GET $"/:id/overview" [MenuCode permMQDiagnosisView] $"service.GetOverview";
       Route GET $"/:id/capabilities" [MenuCode permMQInstanceView] $"service.GetCapabilities";
       Route GET $"/:id/topology" [MenuCode permMQDiagnosisView] $"service.GetTopology";
       Route GET $"/:id/capacity-forecast" [MenuCode permMQDiagnosisView] $"service.GetCapacityForecast";
       Route POST $"/:id/metric-snapshots" [MenuCode permMQDiagnosisView] $"service.CollectMetricSnapshot";
       Route GET $"/:id/metric-snapshots" [MenuCode permMQDiagnosisView] $"service.ListMetricSnapshots";
       Route POST $"/:id/inspection-reports" [MenuCode permMQDiagnosisView] $"service.GenerateInspectionReport";
       Route GET $"/:id/brokers" [MenuCode permMQDiagnosisView] $"service.ListBrokers";
       Route GET $"/:id/resources" [MenuCode permMQMetadataView] $"service.ListResources";
       Route GET $"/:id/bindings" [MenuCode permMQMetadataView] $"service.ListBindings";
       Route GET $"/:id/consumer-groups" [MenuCode permMQDiagnosisView] $"service.ListConsumerGroups";
       Route GET $"/:id/partitions" [MenuCode permMQDiagnosisView] $"service.ListPartitions";
       Route POST $"/:id/messages/sample" [MenuCode permMQMessageRead] $"service.SampleMessages";
       Route POST $"/:id/messages/schema-inspect" [MenuCode permMQMessageRead] $"service.InspectMessageSchema";
       Route POST $"/:id/messages/replay-requests" [MenuCode permMQMessageWrite] $"service.PrepareMessageReplayApplication";
       Route POST $"/:id/config-clone-plan" [MenuCode permMQResourceManage] $"service.BuildConfigClonePlan";
       Route POST $"/:id/config-clone-apply" [MenuCode permMQResourceManage] $"service.ApplyConfigClone";
       Route GET $"/:id/operations/actions" [MenuCode permMQResourceManage] $"service.ListOperationActions";
       Route POST $"/:id/operations/validate" [MenuCode permMQResourceManage] $"service.ValidateResourceOperation";
       Route POST $"/:id/operations" [MenuCode permMQResourceManage] $"service.ExecuteResourceOperation"])).

(** [system/http.go] *)
Definition system_RegisterRoutes : list route :=
  group $"/system" [] (
    group $"/config" [] (
      [Route GET $"" [] $"configService.GetAllConfig";
       Route GET $"/basic" [] $"configService.GetBasicConfig";
       Route PUT $"/basic" [] $"configService.SaveBasicConfig";
       Route GET $"/security" [] $"configService.GetSecurityConfig";
       Route PUT $"/security" [] $"configService.SaveSecurityConfig";
       Route GET $"/monitoring" [] $"configService.GetMonitoringConfig";
       Route PUT $"/monitoring" [] $"configService.SaveMonitoringConfig";
       Route GET $"/audit-log" [] $"configService.GetAuditLogConfig";
       Route PUT $"/audit-log" [] $"configService.SaveAuditLogConfig";
       Route GET $"/database" [] $"configService.GetDatabaseConfig";
       Route PUT $"/database" [] $"configService.SaveDatabaseConfig";
       Route POST $"/logo" [] $"configService.UploadLogo";
       Route GET $"/ldap" [] $"configService.GetLDAPConfig";
       Route PUT $"/ldap" [] $"configService.SaveLDAPConfig";
       Route POST $"/ldap/test" [] $"configService.TestLDAPConnection"])).

(** [system/http.go], the argument [public] *)
Definition system_public_routes : list route :=
  [Route GET $"/config" [] $"configService.GetPublicConfig"].

(** [audit/http.go] *)
Definition audit_RegisterRoutes : list route :=
  group $"/audit" [] (
    group $"/operation-logs" [] (
      [Route GET $"" [] $"operationLogService.ListOperationLogs";
       Route GET $"/:id" [] $"operationLogService.GetOperationLog";
       Route DELETE $"/:id" [] $"operationLogService.DeleteOperationLog";
       Route POST $"/batch-delete" [] $"operationLogService.DeleteOperationLogsBatch"]) ++
    group $"/login-logs" [] (
      [Route GET $"" [] $"loginLogService.ListLoginLogs";
       Route GET $"/:id" [] $"loginLogService.GetLoginLog";
       Route DELETE $"/:id" [] $"loginLogService.DeleteLoginLog";
       Route POST $"/batch-delete" [] $"loginLogService.DeleteLoginLogsBatch"]) ++
    group $"/data-logs" [] (
      [Route GET $"" [] $"dataLogService.ListDataLogs";
       Route GET $"/:id" [] $"dataLogService.GetDataLog";
       Route DELETE $"/:id" [] $"dataLogService.DeleteDataLog";
       Route POST $"/batch-delete" [] $"dataLogService.DeleteDataLogsBatch"])).

(** [mfa/http.go] *)
Definition mfa_RegisterRoutes : list route :=
  group $"/mfa" [] (
    [Route GET $"/status" [] $"GetStatus";
     Route POST $"/setup" [] $"SetupMFA";
     Route POST $"/enable" [] $"EnableMFA";
     Route POST $"/disable" [] $"DisableMFA";
     Route POST $"/regenerate-backup" [] $"RegenerateBackup"]).

(** [database/http.go] *)
Definition databaseUIPermissionCodes : list (gostring * gostring) := [
  ($"instanceCreate", permDatabaseInstanceCreate);
  ($"instanceUpdate", permDatabaseInstanceUpdate);
  ($"instanceDelete", permDatabaseInstanceDelete);
  ($"instanceStatus", permDatabaseInstanceStatus);
  ($"connectionTest", permDatabaseConnectionTest);
  ($"metadataSync", permDatabaseMetadataSync);
  ($"metadataExport", permDatabaseMetadataExport);
  ($"queryExecute", permDatabaseQueryExecute);
  ($"queryWrite", permDatabaseQueryWrite);
  ($"queryExplain", permDatabaseQueryExplain);
  ($"queryWriteExplain", permDatabaseQueryWritePlan);
  ($"queryDDL", permDatabaseQueryDDL);
  ($"queryExport", permDatabaseQueryExport);
  ($"auditExport", permDatabaseAuditExport);
  ($"backupCreate", permDatabaseBackupCreate);
  ($"backupUpdate", permDatabaseBackupUpdate);
  ($"backupDelete", permDatabaseBackupDelete);
  ($"backupRun", permDatabaseBackupRun);
  ($"backupDownload", permDatabaseBackupDownload);
  ($"restoreRun", permDatabaseRestoreRun);
  ($"capacityCollect", permDatabaseCapacityCollect);
  ($"inspectionRun", permDatabaseInspectionRun);
  ($"replicaView", permDatabaseReplicaView);
  ($"replicaCheck", permDatabaseReplicaCheck);
  ($"replicaIncidentGuide", permDatabaseReplicaIncident);
  ($"replicaRecordDelete", permDatabaseReplicaDelete);
  ($"replicaPauseApply", permDatabaseReplicaPause);
  ($"replicaResumeApply", permDatabaseReplicaResume);
  ($"runnerToolView", permDatabaseRunnerToolView);
  ($"runnerToolProbe", permDatabaseRunnerToolProbe);
  ($"runnerToolInstall", permDatabaseRunnerToolInstall);
  ($"runnerToolGenerateScript", permDatabaseRunnerToolScript);
  ($"instancePermissionView", permDatabaseInstanceView);
  ($"instancePermissionManage", permDatabaseInstanceUpdate);
  ($"instanceObjectPermissionUI", permDatabaseInstanceUpdate)].

(** [messagequeue/http.go] *)
Definition uiPermissionCodes : list (gostring * gostring) := [
  ($"instanceCreate", permMQInstanceCreate);
  ($"instanceUpdate", permMQInstanceUpdate);
  ($"instanceDelete", permMQInstanceDelete);
  ($"instanceStatus", permMQInstanceStatus);
  ($"connectionTest", permMQConnectionTest);
  ($"metadataSync", permMQMetadataSync);
  ($"diagnosisView", permMQDiagnosisView);
  ($"messageRead", permMQMessageRead);
  ($"messageExport", permMQMessageExport);
  ($"messageWrite", permMQMessageWrite);
  ($"resourceManage", permMQResourceManage);
  ($"highRisk", permMQHighRisk);
  ($"auditView", permMQAuditView);
  ($"auditExport", permMQAuditExport);
  ($"permissionManage", permMQPermissionManage)].

(** [internal/server/http.go]: the groups under [/api/v1], the public group,
    the plugins' own page. *)
Definition v1_routes : list route :=
  group $"/api/v1" [Session] (
    audit_RegisterRoutes ++ asset_RegisterRoutes ++ database_RegisterRoutes ++
    messagequeue_RegisterRoutes ++
    [Route POST $"/upload/avatar" [] $"uploadSrv.UploadAvatar";
     Route PUT $"/profile/avatar" [] $"uploadSrv.UpdateUserAvatar"] ++
    system_RegisterRoutes ++ mfa_RegisterRoutes).
Definition public_routes : list route :=
  group $"/api/v1/public" [] (
    [Route GET $"/example" [] $"svc.Example"] ++
    asset_RegisterPublicRoutes ++ database_RegisterPublicRoutes ++ system_public_routes).
Definition plugin_routes : list route :=
  group $"/api/v1/plugins" [Session]
    [Route GET $"" [] $"listPlugins";
     Route GET $"/:name" [] $"getPlugin";
     Route GET $"/:name/menus" [] $"getPluginMenus";
     Route POST $"/:name/enable" [] $"enablePlugin";
     Route POST $"/:name/disable" [] $"disablePlugin";
     Route POST $"/upload" [] $"uploadSrv.UploadPlugin";
     Route DELETE $"/:name/uninstall" [] $"uploadSrv.UninstallPlugin"].
Definition registerRoutes : list route :=
  [Route GET $"/swagger/*any" [] $"ginSwagger"; Route GET $"/health" [] $"svc.Health"] ++
  rbac_RegisterRoutes ++ public_routes ++ v1_routes ++ plugin_routes.

(** ** A request on its way to a handler *)
(** [c.Param("id")]: what the path has for [:id], empty when it has none. *)
Definition has_id (r : route) : bool := bool_decide ($":id" ∈ split_at 47 (rt_path r)).
Definition param_id (r : route) (id : gostring) : gostring := if has_id r then id else [].

Section requests.
Context `{L : AccessLib}.
Implicit Types E : conn.
Abbreviation action := (handler access_world).

(** [session]: the answer of [AuthRequired] to the tokens of the request; the
    user is 0 until it has run. *)
Fixpoint pass {A} E (session : result (Z * gostring)) (idStr : gostring) (gs : list guard)
    (userID : Z) (h : Z -> action (reply A)) : action (reply A) :=
  match gs with
  | [] => h userID
  | Session :: gs =>
    match session with
    | Err message => mret (Failure 401 message)
    | Ok (userID, _) => pass E session idStr gs userID h
    end
  | AdminOnly :: gs => guarded (RequireAdmin E userID) (pass E session idStr gs userID h)
  | MenuCode code :: gs =>
    guarded (RequireMenuPermission E userID code) (pass E session idStr gs userID h)
  | HostOp operation :: gs =>
    guarded (RequireHostPermission E operation userID idStr) (pass E session idStr gs userID h)
  end.
Definition serve {A} E (session : result (Z * gostring)) (r : route) (id : gostring)
    (h : Z -> action (reply A)) : action (reply A) :=
  pass E session (param_id r id) (rt_guards r) 0 h.

(** [GetUIPermissions] of [database/http.go] and [messagequeue/http.go]: a
    verdict for every code of the page. *)
Fixpoint ui_permissions E (userID : Z) (codes : list (gostring * gostring))
    : action (reply (list (gostring * bool))) :=
  match codes with
  | [] => mret (Success [])
  | (key, code) :: codes =>
    ok ← tried (HasMenuPermission E userID code);
    match ok with
    | Err _ => mret (Failure 500 $"权限检查失败")
    | Ok ok =>
      rest ← ui_permissions E userID codes;
      mret match rest with
      | Success l => Success ((key, ok) :: l)
      | Failure c m => Failure c m
      end
    end
  end.
Definition GetUIPermissions E (codes : list (gostring * gostring)) (userID : Z)
    : action (reply (list (gostring * bool))) :=
  if userID =? 0 then mret (Failure 401 $"未登录") else ui_permissions E userID codes.
End requests.
