(* ===== verification/AccessFacts.v ===== *)
(** * Access: what the checks decide

    [computes] says that code only reads and what it answers when its
    statements do; with it the questions of [HostGrants] are characterised
    ([may]), and the masks, the lists and the checks are shown to agree. *)

From Stdlib Require Import ZArith Lia.
From stdpp Require Import base tactics option list numbers relations.
From S2P Require Import Prelude GoStrings GoNumbers ParentTree AccessModel HostGrants.
From S2P Require Import AccessControl.

Open Scope Z_scope.

(** ** Lists and bits *)
Lemma filter_elem {A} (p : A -> bool) l x : x ∈ List.filter p l <-> x ∈ l /\ p x = true.
Proof. by rewrite !list_elem_of_In, filter_In. Qed.

Lemma filter_sublist {A} (p : A -> bool) l : List.filter p l `sublist_of` l.
Proof. induction l as [|x l IH]; [done|]. simpl. destruct (p x); by constructor. Qed.

Lemma existsb_elem {A} (p : A -> bool) l : existsb p l = true <-> exists x, x ∈ l /\ p x = true.
Proof. rewrite existsb_exists. by setoid_rewrite list_elem_of_In. Qed.

Lemma existsb_Zeqb x l : existsb (Z.eqb x) l = true <-> x ∈ l.
Proof.
  rewrite existsb_elem. split; [by intros (y & Hy & ->%Z.eqb_eq)|].
  intros Hx. exists x. by rewrite Z.eqb_refl.
Qed.

Lemma join_elem {A B} (on : A -> B -> bool) l k a b :
  (a, b) ∈ join on l k <-> a ∈ l /\ b ∈ k /\ on a b = true.
Proof.
  unfold join. rewrite flat_map_elem. split.
  - intros (a' & Ha & Hb). apply list_elem_of_fmap in Hb as (b' & [= -> ->] & Hb).
    apply filter_elem in Hb as [Hb Ho]. auto.
  - intros (Ha & Hb & Ho). exists a. split; [done|]. apply list_elem_of_fmap.
    exists b. split; [done|]. by apply filter_elem.
Qed.

Lemma Count_pos {A} (l : list A) : (0 <? Count l) = true <-> exists x, x ∈ l.
Proof.
  unfold Count. rewrite Z.ltb_lt. destruct l as [|x l]; simpl.
  - split; [lia | by intros (x & ?%elem_of_nil)].
  - split; [|lia]. intros _. exists x. by left.
Qed.

Lemma land_pos a b : 0 <= a -> (0 <? Z.land a b) = negb (Z.land a b =? 0).
Proof.
  intros Ha. assert (0 <= Z.land a b) by (apply Z.land_nonneg; by left).
  destruct (Z.ltb_spec 0 (Z.land a b)), (Z.eqb_spec (Z.land a b) 0); simpl; try done; lia.
Qed.

(** A mask has a bit of [op] when one of its parts has. *)
Lemma bit_or_land l op :
  Forall (Z.le 0) l -> Z.land (bit_or l) op <> 0 <-> exists m, m ∈ l /\ Z.land m op <> 0.
Proof.
  induction 1 as [|m l Hm Hl IH]; simpl.
  - split; [by rewrite Z.land_0_l | by intros (m & ?%elem_of_nil & _)].
  - rewrite Z.land_lor_distr_l.
    assert (H : Z.lor (Z.land m op) (Z.land (bit_or l) op) <> 0 <->
      Z.land m op <> 0 \/ Z.land (bit_or l) op <> 0) by (rewrite Z.lor_eq_0_iff; lia).
    rewrite H, IH. setoid_rewrite elem_of_cons. naive_solver.
Qed.

(** ** Code that reads *)
Definition up (E : conn) : Prop := forall k, E k = true.

Section facts.
Context `{L : AccessLib}.
Implicit Types (E : conn) (w : access_world) (t : tables).

Definition computes {A} E (m : handler access_world A) (f : tables -> A) : Prop := forall w,
  tabs (m w).2 = tabs w /\
  ((m w).1 = Ok (f (tabs w)) \/ (exists e, (m w).1 = Err e) /\ ~ up E).

Lemma computes_query {A} E (f : tables -> A) : computes E (query E f) f.
Proof.
  intros w. unfold query, statement. destruct (E (steps w)) eqn:He; simpl; [auto|].
  split; [done|]. right. split; [by eexists|]. intros Hup. by rewrite Hup in He.
Qed.

Lemma computes_ret {A} E (a : A) : computes E (mret a) (fun _ => a).
Proof. intros w. simpl. auto. Qed.

Lemma computes_bind {A B} E (m : handler access_world A) (k : A -> handler access_world B) f g :
  computes E m f -> (forall a, computes E (k a) (g a)) ->
  computes E (m ≫= k) (fun t => g (f t) t).
Proof.
  intros Hm Hk w. specialize (Hm w) as [Ht Hv]. unfold mbind, handler_bind.
  destruct (m w) as [[a|e] w'] eqn:He; simpl in *.
  - destruct Hv as [[= ->]|[[e He'] _]]; [|done].
    specialize (Hk (f (tabs w)) w') as [Ht' Hv']. rewrite Ht in Ht', Hv'. auto.
  - split; [done|]. destruct Hv as [|[_ Hup]]; [done|]. right. split; [by exists e | done].
Qed.

Lemma computes_if {A} E (b : bool) (m n : handler access_world A) f g :
  (b = true -> computes E m f) -> (b = false -> computes E n g) ->
  computes E (if b then m else n) (if b then f else g).
Proof. destruct b; auto. Qed.

Lemma computes_ext {A} E (m : handler access_world A) f g :
  (forall t, f t = g t) -> computes E m f -> computes E m g.
Proof. intros Hfg Hm w. rewrite <- Hfg. apply Hm. Qed.

(** The same, for a function that is not known yet. *)
Lemma computes_bind_eq {A B} E (m : handler access_world A) (k : A -> handler access_world B) f g h :
  computes E m f -> (forall a, computes E (k a) (g a)) -> (forall t, h t = g (f t) t) ->
  computes E (m ≫= k) h.
Proof.
  intros Hm Hk Hh. eapply computes_ext; [|by apply computes_bind]. intros t. by rewrite Hh.
Qed.

Lemma computes_tabs {A} E (m : handler access_world A) f w : computes E m f -> tabs (m w).2 = tabs w.
Proof. intros H. apply H. Qed.

Lemma computes_Ok {A} E (m : handler access_world A) f w a :
  computes E m f -> (m w).1 = Ok a -> a = f (tabs w).
Proof.
  intros H Hm. destruct (H w) as [_ [He|[[e He] _]]]; rewrite Hm in He; [|done].
  by apply Ok_eq in He.
Qed.

Lemma computes_up {A} E (m : handler access_world A) f w :
  computes E m f -> up E -> (m w).1 = Ok (f (tabs w)).
Proof. intros H Hup. by destruct (H w) as [_ [He|[_ Hn]]]. Qed.

(** [v, err := m]. *)
Lemma tried_eq {A} (m : handler access_world A) w : tried m w = (Ok (m w).1, (m w).2).
Proof. unfold tried. by destruct (m w). Qed.

Lemma tried_bind {A B} (m : handler access_world A) (k : result A -> handler access_world B) w :
  (tried m ≫= k) w = k (m w).1 (m w).2.
Proof. unfold mbind, handler_bind. by rewrite tried_eq. Qed.

(** ** Who is an administrator, what a grant is *)
Definition admin_of t (userID : Z) : Prop := exists r role,
  (userID, r) ∈ user_roles t /\ role ∈ rows (roles t) /\ ro_ID role = r /\
  code_key (ro_Code role) = code_key $"admin".

(** The grant [p] applies to a user and a host. *)
Definition holds t (userID hostID : Z) (p : SysRoleAssetPermission) : Prop :=
  p ∈ rows (grants t) /\ (userID, ap_RoleID p) ∈ user_roles t /\
  ap_AssetGroupID p = group_of t hostID /\ ap_Deleted p = false /\
  covers (ap_HostIDs p) hostID = true.

Definition may t (userID hostID operation : Z) : Prop :=
  admin_of t userID \/
  exists p, holds t userID hostID p /\ 0 < Z.land (ap_Permissions p) operation.

Lemma admin_rows_spec t userID :
  (0 <? Count (admin_rows t userID)) = true <-> admin_of t userID.
Proof.
  rewrite Count_pos. unfold admin_rows, admin_of. split.
  - intros ([[u r] role] & Hx). apply filter_elem in Hx as [Hx Hc]. simpl in Hc. bsimpl. subst u.
    apply join_elem in Hx as (Hu & Hr & Ho%Z.eqb_eq). exists r, role. auto.
  - intros (r & role & Hu & Hr & <- & Hk). exists ((userID, ro_ID role), role).
    apply filter_elem. split; [apply join_elem; simpl; by rewrite Z.eqb_refl|].
    simpl. rewrite Z.eqb_refl. by apply bool_decide_eq_true.
Qed.

Lemma is_admin_computes E userID :
  computes E (is_admin_count E userID) (fun t => 0 <? Count (admin_rows t userID)).
Proof.
  eapply computes_ext; [|eapply computes_bind;
    [apply computes_query | intros c; apply (computes_ret E (0 <? c))]]. done.
Qed.

Lemma grant_rows_spec t userID groupID hostID p r :
  (p, r) ∈ grant_rows t userID groupID hostID <->
  p ∈ rows (grants t) /\ r ∈ user_roles t /\ r = (userID, ap_RoleID p) /\
  ap_AssetGroupID p = groupID /\ ap_Deleted p = false /\ covers (ap_HostIDs p) hostID = true.
Proof.
  unfold grant_rows. rewrite filter_elem, join_elem. destruct r as [u r]. simpl.
  rewrite !andb_true_iff, !Z.eqb_eq, negb_true_iff. split.
  - intros [(Hp & Hr & Hro) [[[-> Hg] Hd] Hc]]. rewrite Hro. auto 10.
  - intros (Hp & Hr & [= -> ->] & Hg & Hd & Hc). auto 10.
Qed.

Lemma grant_rows_holds t userID hostID p :
  (exists r, (p, r) ∈ grant_rows t userID (group_of t hostID) hostID) <-> holds t userID hostID p.
Proof.
  setoid_rewrite grant_rows_spec. unfold holds. split.
  - intros (r & Hp & Hr & -> & ?). tauto.
  - intros (Hp & Hr & ?). exists (userID, ap_RoleID p). tauto.
Qed.

(** ** The questions, computed *)
Definition may_reach t (userID hostID : Z) : bool :=
  (0 <? Count (admin_rows t userID)) ||
  (0 <? Count (grant_rows t userID (group_of t hostID) hostID)).
Definition may_b t (userID hostID operation : Z) : bool :=
  (0 <? Count (admin_rows t userID)) ||
  (0 <? Count (List.filter (fun x => 0 <? Z.land (ap_Permissions x.1) operation)
    (grant_rows t userID (group_of t hostID) hostID))).
Definition mask_of t (userID hostID : Z) : Z :=
  if 0 <? Count (admin_rows t userID) then PermissionAll
  else bit_or ((fun x => ap_Permissions x.1) <$> grant_rows t userID (group_of t hostID) hostID).
Definition accessible_of t (userID : Z) : list Z :=
  if 0 <? Count (admin_rows t userID) then ho_ID <$> live_hosts t
  else remove_dups (ho_ID <$> accessible_rows t userID).

Ltac computing := first
  [ eapply computes_bind_eq;
      [ solve [apply computes_query | apply is_admin_computes]
      | intros ?; computing
      | intros ?; reflexivity ]
  | apply computes_if; intros _; computing
  | apply computes_query | refine (computes_ret _ _) ].

Lemma reach_computes E userID hostID :
  computes E (CheckHostPermission E userID hostID) (fun t => may_reach t userID hostID).
Proof.
  eapply computes_ext; [|unfold CheckHostPermission; computing].
  intros t. unfold may_reach. simpl. by destruct (0 <? Count (admin_rows t userID)).
Qed.

Lemma check_computes E userID hostID operation :
  computes E (CheckHostOperationPermission E userID hostID operation)
    (fun t => may_b t userID hostID operation).
Proof.
  eapply computes_ext; [|unfold CheckHostOperationPermission; computing].
  intros t. unfold may_b. simpl. by destruct (0 <? Count (admin_rows t userID)).
Qed.

Lemma mask_computes E userID hostID :
  computes E (GetUserHostPermissions E userID hostID) (fun t => mask_of t userID hostID).
Proof.
  eapply computes_ext; [|unfold GetUserHostPermissions; computing].
  intros t. unfold mask_of. simpl. by destruct (0 <? Count (admin_rows t userID)).
Qed.

Lemma accessible_computes E userID :
  computes E (GetUserAccessibleHostIDs E userID) (fun t => accessible_of t userID).
Proof.
  eapply computes_ext; [|unfold GetUserAccessibleHostIDs; computing].
  intros t. unfold accessible_of. simpl. by destruct (0 <? Count (admin_rows t userID)).
Qed.

(** ** What they say *)
Lemma may_reach_spec t userID hostID : may_reach t userID hostID = true <->
  admin_of t userID \/ exists p, holds t userID hostID p.
Proof.
  unfold may_reach. rewrite orb_true_iff, admin_rows_spec, Count_pos.
  setoid_rewrite <- grant_rows_holds. split; (intros [?|H]; [by left|right]).
  - destruct H as [[p r] Hp]. eauto.
  - destruct H as (p & r & Hp). eauto.
Qed.

Lemma may_b_spec t userID hostID operation :
  may_b t userID hostID operation = true <-> may t userID hostID operation.
Proof.
  unfold may_b, may. rewrite orb_true_iff, admin_rows_spec, Count_pos.
  setoid_rewrite <- grant_rows_holds.
  split; (intros [?|H]; [by left|right]).
  - destruct H as ([p r] & Hp). apply filter_elem in Hp as [Hp Hl%Z.ltb_lt]. eauto.
  - destruct H as (p & (r & Hp) & Hl%Z.ltb_lt). exists (p, r). by apply filter_elem.
Qed.

Lemma mask_of_spec t userID hostID operation :
  Forall (fun p => 0 <= ap_Permissions p) (rows (grants t)) ->
  Z.land operation PermissionAll <> 0 ->
  Z.land (mask_of t userID hostID) operation <> 0 <-> may t userID hostID operation.
Proof.
  intros Hg Hop. rewrite <- may_b_spec. unfold mask_of, may_b.
  destruct (0 <? Count (admin_rows t userID)) eqn:Ha; simpl.
  - split; [done|]. intros _. by rewrite Z.land_comm.
  - rewrite list.Forall_forall in Hg. rewrite bit_or_land, Count_pos.
    + split.
      * intros (m & Hm & Hl). apply list_elem_of_fmap in Hm as ([p r] & -> & Hp). simpl in Hl.
        exists (p, r). apply filter_elem. split; [done|]. simpl.
        apply grant_rows_spec in Hp as [Hp _]. rewrite land_pos by auto.
        by apply negb_true_iff, Z.eqb_neq.
      * intros ([p r] & Hp). apply filter_elem in Hp as [Hp Hl%Z.ltb_lt]. simpl in Hl.
        exists (ap_Permissions p). split; [|lia]. apply list_elem_of_fmap. by exists (p, r).
    + apply list.Forall_forall. intros m Hm. apply list_elem_of_fmap in Hm as ([p r] & -> & Hp).
      apply grant_rows_spec in Hp as [Hp _]. simpl. auto.
Qed.

(** The ids of the hosts are a key. *)
Definition host_keyed t : Prop := NoDup (ho_ID <$> hosts t).

Lemma find_host t h : host_keyed t -> h ∈ hosts t -> group_of t (ho_ID h) = ho_GroupID h.
Proof.
  unfold host_keyed, group_of. induction (hosts t) as [|x l IH]; intros Hk Hin.
  - by apply elem_of_nil in Hin.
  - rewrite fmap_cons in Hk. inversion_clear Hk as [|? ? Hx Hl]. simpl.
    destruct (Z.eqb_spec (ho_ID x) (ho_ID h)) as [He|Hne].
    + apply elem_of_cons in Hin as [->|Hin]; [done|]. exfalso. apply Hx. rewrite He.
      by apply list_elem_of_fmap_2.
    + apply elem_of_cons in Hin as [->|Hin]; [done|]. by apply IH.
Qed.

Lemma accessible_of_spec t userID hostID : host_keyed t ->
  hostID ∈ accessible_of t userID <->
  may_reach t userID hostID = true /\ exists h, h ∈ hosts t /\ ho_ID h = hostID /\ ho_Deleted h = false.
Proof.
  intros Hk. unfold accessible_of, may_reach.
  assert (Hlive : forall h, h ∈ live_hosts t <-> h ∈ hosts t /\ ho_Deleted h = false).
  { intros h. unfold live_hosts. by rewrite filter_elem, negb_true_iff. }
  destruct (0 <? Count (admin_rows t userID)) eqn:Ha; simpl.
  - rewrite list_elem_of_fmap. setoid_rewrite Hlive. split.
    + intros (h & -> & Hh & Hd). split; [done|]. eauto.
    + intros (_ & h & Hh & <- & Hd). eauto.
  - rewrite elem_of_remove_dups, list_elem_of_fmap. unfold accessible_rows.
    setoid_rewrite filter_elem. setoid_rewrite Hlive.
    setoid_rewrite negb_bool_decide_true. split.
    + intros (h & -> & [Hh Hd] & Hne). split; [|eauto]. rewrite Count_pos.
      rewrite (find_host t h Hk Hh).
      destruct (grant_rows t userID (ho_GroupID h) (ho_ID h)) as [|x l]; [done|]. exists x. by left.
    + intros (Hc & h & Hh & <- & Hd). exists h. repeat split; try done.
      rewrite Count_pos, (find_host t h Hk Hh) in Hc. destruct Hc as [x Hx]. intros He.
      rewrite He in Hx. by apply elem_of_nil in Hx.
Qed.
End facts.

Section claims.
Context `{L : AccessLib}.
Implicit Types (E : conn) (w : access_world) (t : tables).

(** C10: the check of an operation on a host is exact: it answers yes just when
    the user has the role admin or a role with a live grant on the group of the
    host that covers the host and has a bit of the operation. It changes
    nothing, and it answers whenever the database does. *)
Theorem host_check_exact E userID hostID operation w :
  let r := CheckHostOperationPermission E userID hostID operation w in
  tabs r.2 = tabs w /\
  (forall b, r.1 = Ok b -> b = true <-> may (tabs w) userID hostID operation) /\
  (up E -> exists b, r.1 = Ok b).
Proof.
  pose proof (check_computes E userID hostID operation) as Hc. cbv zeta.
  split; [by apply (computes_tabs _ _ _ _ Hc)|]. split.
  - intros b ->%(computes_Ok _ _ _ _ _ Hc). apply may_b_spec.
  - intros Hup. eexists. by apply (computes_up _ _ _ _ Hc).
Qed.

(** The mask shown to a user and the check made for him agree: for a
    named operation, the check passes just when the mask has a bit of it. *)
Theorem mask_matches_check E userID hostID operation w :
  up E -> Forall (fun p => 0 <= ap_Permissions p) (rows (grants (tabs w))) ->
  Z.land operation PermissionAll <> 0 ->
  exists mask b, (GetUserHostPermissions E userID hostID w).1 = Ok mask /\
    (CheckHostOperationPermission E userID hostID operation w).1 = Ok b /\
    (b = true <-> Z.land mask operation <> 0).
Proof.
  intros Hup Hg Hop. exists (mask_of (tabs w) userID hostID), (may_b (tabs w) userID hostID operation).
  split; [exact (computes_up _ _ _ w (mask_computes E userID hostID) Hup)|].
  split; [exact (computes_up _ _ _ w (check_computes E userID hostID operation) Hup)|].
  by rewrite may_b_spec, mask_of_spec.
Qed.

(** The hosts a user is shown are the live hosts that the check of a
    host lets him reach, each once. *)
Theorem accessible_hosts_exact E userID w :
  up E -> host_keyed (tabs w) ->
  exists ids, (GetUserAccessibleHostIDs E userID w).1 = Ok ids /\ NoDup ids /\
    forall hostID, hostID ∈ ids <->
      (CheckHostPermission E userID hostID w).1 = Ok true /\
      exists h, h ∈ hosts (tabs w) /\ ho_ID h = hostID /\ ho_Deleted h = false.
Proof.
  intros Hup Hk. exists (accessible_of (tabs w) userID).
  split; [exact (computes_up _ _ _ w (accessible_computes E userID) Hup)|]. split.
  - unfold accessible_of. case_match; [|apply NoDup_remove_dups].
    eapply sublist_NoDup; [exact Hk|]. apply fmap_sublist, filter_sublist.
  - intros hostID. rewrite (accessible_of_spec _ _ _ Hk).
    rewrite (computes_up _ _ _ w (reach_computes E userID hostID) Hup).
    split; (intros [H ?]; split; [|done]); [by rewrite H | by apply Ok_eq in H].
Qed.
End claims.
