(* ===== verification/GrantFacts.v ===== *)
(** * Access: what the changes do

    The effect of each change of grants, roles and links on the questions of
    [AccessFacts], with and without failures in between, and the invariant of
    the grants that all of them keep. *)

From Stdlib Require Import ZArith Lia.
From stdpp Require Import base tactics option list numbers relations.
From S2P Require Import Prelude GoStrings GoNumbers ParentTree AccessModel HostGrants.
From S2P Require Import AccessControl AccessFacts.

Open Scope Z_scope.

Section facts.
Context `{L : AccessLib}.
Implicit Types (E : conn) (w : access_world) (t : tables).

(** ** Statements that write *)
Lemma exec_if_cases E ok f w r w' : exec_if E ok f w = (r, w') ->
  (r = Ok tt /\ tabs w' = f (tabs w) /\ ok (tabs w) = true) \/
  (r = Err sql_error /\ tabs w' = tabs w /\ (up E -> ok (tabs w) = false)).
Proof.
  unfold exec_if, statement. destruct (E (steps w)) eqn:He.
  - destruct (ok (tabs w)) eqn:Ho; intros [= <- <-]; [left | right]; auto.
  - intros [= <- <-]. right. repeat split. intros Hup. by rewrite Hup in He.
Qed.

Lemma exec_cases E f w r w' : exec E f w = (r, w') ->
  (r = Ok tt /\ tabs w' = f (tabs w)) \/ (r = Err sql_error /\ tabs w' = tabs w /\ ~ up E).
Proof.
  unfold exec, statement. destruct (E (steps w)) eqn:He; intros [= <- <-]; [by left|].
  right. repeat split. intros Hup. by rewrite Hup in He.
Qed.

Lemma exec_Ok E f w u w' : exec E f w = (Ok u, w') -> tabs w' = f (tabs w).
Proof. intros [[_ H]|[H _]]%exec_cases; [done|]. discriminate H. Qed.
Lemma exec_if_Ok E ok f w u w' :
  exec_if E ok f w = (Ok u, w') -> tabs w' = f (tabs w) /\ ok (tabs w) = true.
Proof. intros [[_ H]|[H _]]%exec_if_cases; [done|]. discriminate H. Qed.

(** A transaction that fails leaves the tables alone; one that commits did all
    of its steps. *)
Lemma transaction_Err E m w e w' : transaction E m w = (Err e, w') -> tabs w' = tabs w.
Proof. unfold transaction. case_match. by case_match; intros [= <- <-]. Qed.
Lemma transaction_Ok E m w u w' : transaction E m w = (Ok u, w') ->
  exists w1 w2, tabs w1 = tabs w /\ m w1 = (Ok tt, w2) /\ tabs w' = tabs w2.
Proof.
  unfold transaction. destruct ((exec E (fun t => t);; m;; exec E (fun t => t)) w) as [[a|e] w0] eqn:H;
    intros [= <- <-].
  apply h_bind_Ok in H as (a1 & w1 & H1 & H). apply h_bind_Ok in H as ([] & w2 & H2 & H3).
  exists w1, w2. split; [by apply exec_Ok in H1|]. split; [done|]. by apply exec_Ok in H3.
Qed.

Lemma up_exec E f w : up E -> (exec E f w).1 = Ok tt /\ tabs (exec E f w).2 = f (tabs w).
Proof. intros Hup. unfold exec, statement. by rewrite Hup. Qed.

(** ** Grants *)
Definition covers_host (hostIDs : UintArray) (hostID : Z) : bool :=
  covers (UintArray_Value hostIDs) hostID.

(** What a list of hosts in a request stands for. *)
Lemma covers_host_spec hostIDs hostID : covers_host hostIDs hostID = true <->
  exists ids, hostIDs = Some ids /\ (ids = [] \/ hostID ∈ ids).
Proof.
  unfold covers_host, covers. destruct hostIDs as [ids|]; simpl.
  - rewrite orb_true_iff, existsb_Zeqb. split.
    + intros [H|H]; exists ids; split; try done; [left | by right].
      apply Z.eqb_eq in H. by destruct ids.
    + intros (ids' & [= <-] & [->|H]); [by left | by right].
  - split; [done|]. by intros (ids & ? & _).
Qed.

Lemma holds_ext t t' userID hostID p :
  rows (grants t) = rows (grants t') -> user_roles t = user_roles t' -> hosts t = hosts t' ->
  holds t userID hostID p <-> holds t' userID hostID p.
Proof. intros H1 H2 H3. unfold holds, group_of. by rewrite H1, H2, H3. Qed.

Lemma admin_ext t t' userID :
  user_roles t = user_roles t' -> rows (roles t) = rows (roles t') ->
  admin_of t userID <-> admin_of t' userID.
Proof. intros H1 H2. unfold admin_of. by rewrite H1, H2. Qed.

Lemma without_holds q t userID hostID p :
  holds (without q t) userID hostID p <-> holds t userID hostID p /\ q p = false.
Proof.
  unfold holds, without, group_of. simpl. rewrite filter_elem, negb_true_iff. tauto.
Qed.

Lemma without_may q t userID hostID operation :
  may (without q t) userID hostID operation -> may t userID hostID operation.
Proof. intros [H|(p & Hp & Hl)]; [by left|]. right. exists p. apply without_holds in Hp. tauto. Qed.

(** One more grant. *)
Definition added (roleID assetGroupID : Z) (hostIDs : UintArray) (permissions : Z) t : tables :=
  set_grants (insert_row (fun id => {|
    ap_ID := id; ap_RoleID := roleID; ap_AssetGroupID := assetGroupID;
    ap_HostIDs := UintArray_Value hostIDs; ap_Permissions := permissions;
    ap_Deleted := false |}) 0 (grants t)) t.

Lemma added_may roleID assetGroupID hostIDs permissions t userID hostID operation :
  may (added roleID assetGroupID hostIDs permissions t) userID hostID operation <->
  may t userID hostID operation \/
  ((userID, roleID) ∈ user_roles t /\ group_of t hostID = assetGroupID /\
   covers_host hostIDs hostID = true /\ 0 < Z.land permissions operation).
Proof.
  unfold may, holds, added, admin_of, group_of. simpl. setoid_rewrite elem_of_app.
  setoid_rewrite list_elem_of_singleton. split.
  - intros [H|(p & ([Hp| ->] & H1 & H2 & H3 & H4) & Hl)]; [tauto | left; right; eauto 10 |].
    right. simpl in *. auto.
  - intros [[H|(p & Hp & Hl)]|(H1 & H2 & H3 & H4)]; [by left | right | right].
    + exists p. tauto.
    + eexists. split; [split; [by right | simpl; auto 10]|]. done.
Qed.

Lemma grant_Create_cases E roleID assetGroupID hostIDs permissions w r w' :
  grant_Create E roleID assetGroupID hostIDs permissions w = (r, w') ->
  (r = Ok tt /\ tabs w' = added roleID assetGroupID hostIDs permissions (tabs w) /\
   permissions < 2 ^ 32) \/
  (r = Err sql_error /\ tabs w' = tabs w).
Proof.
  intros [(-> & Ht & Hp%Z.ltb_lt)|(-> & Ht & _)]%exec_if_cases; [by left | by right].
Qed.

(** Delete, then create: the two statements of [CreateBatchWithPermissions]
    and of [UpdateAssetPermission]. *)
Lemma replace_cases E q roleID assetGroupID hostIDs permissions w r w' :
  (exec E (without q);; grant_Create E roleID assetGroupID hostIDs permissions) w = (r, w') ->
  (r = Ok tt /\ tabs w' = added roleID assetGroupID hostIDs permissions (without q (tabs w)) /\
   permissions < 2 ^ 32) \/
  (r = Err sql_error /\ (tabs w' = tabs w \/ tabs w' = without q (tabs w))).
Proof.
  intros [(u & w1 & H1 & H2)|(e & H1 & ->)]%h_bind_inv.
  - apply exec_Ok in H1. rewrite <- H1. apply grant_Create_cases in H2 as [H2|[-> H2]]; [by left|].
    right. split; [done|]. right. by rewrite H2, H1.
  - apply exec_cases in H1 as [[H _]|[[= ->] [H _]]]; [discriminate H|]. right. auto.
Qed.

(** ** The answers of the handlers *)
Lemma answered_cases {A B} prefix (m : handler access_world A) (f : A -> B) w r w' :
  answered prefix m f w = (r, w') ->
  exists x, m w = (x, w') /\
    r = Ok match x with Ok a => Success (f a) | Err e => Failure 500 (prefix ++ e) end.
Proof.
  unfold answered. rewrite tried_bind. intros [= <- <-]. exists (m w).1. by destruct (m w).
Qed.

Lemma answered_world {A B} prefix (m : handler access_world A) (f : A -> B) w :
  (answered prefix m f w).2 = (m w).2.
Proof. unfold answered. by rewrite tried_bind. Qed.

Lemma answered_up {A B} prefix (m : handler access_world A) (f : A -> B) w a :
  (m w).1 = Ok a -> (answered prefix m f w).1 = Ok (Success (f a)) /\
  (answered prefix m f w).2 = (m w).2.
Proof. unfold answered. rewrite tried_bind. by intros ->. Qed.
End facts.

Section claims.
Context `{L : AccessLib}.
Implicit Types (E : conn) (w : access_world) (t : tables).

(** The grants as the handlers keep them. *)
Record grants_wf t : Prop := {
  wf_rows : forall p, p ∈ rows (grants t) ->
    0 < ap_RoleID p /\ 0 < ap_AssetGroupID p /\ 0 < ap_Permissions p < 2 ^ 32;
  wf_ids : NoDup (ap_ID <$> rows (grants t));
  wf_next : 0 < next (grants t) /\ forall p, p ∈ rows (grants t) -> ap_ID p < next (grants t) }.

(** A body as the decoder of JSON gives it: unsigned numbers. *)
Definition unsigned_request (req : result grant_request) : Prop :=
  forall r, req = Ok r -> 0 <= gq_RoleID r /\ 0 <= gq_AssetGroupID r /\ 0 <= gq_Permissions r.

(** The requests that change roles, links, groups and grants, one after the
    other; whatever each statement answers. *)
Inductive access_step : access_world -> access_world -> Prop :=
| step_create E req w : unsigned_request req -> access_step w (CreateAssetPermission E req w).2
| step_update E idStr req w : unsigned_request req ->
    access_step w (service_UpdateAssetPermission E idStr req w).2
| step_delete E idStr w : access_step w (DeleteAssetPermission E idStr w).2
| step_delete_pair E r g w : access_step w (DeleteAssetPermissionByRoleAndGroup E r g w).2
| step_user_roles E idStr req w : access_step w (AssignUserRoles E idStr req w).2
| step_role_menus E idStr req w : access_step w (AssignRoleMenus E idStr req w).2
| step_update_role E idStr req w : access_step w (UpdateRole E idStr req w).2
| step_delete_role E idStr w : access_step w (DeleteRole E idStr w).2
| step_delete_menu E idStr w : access_step w (DeleteMenu E idStr w).2
| step_update_group E idStr req w : access_step w (UpdateGroup E idStr req w).2
| step_delete_group E idStr w : access_step w (DeleteGroup E idStr w).2.

Lemma grants_wf_ext t t' : grants t = grants t' -> grants_wf t -> grants_wf t'.
Proof. intros H []. split; by rewrite <- H. Qed.

Lemma grants_wf_without q t : grants_wf t -> grants_wf (without q t).
Proof.
  intros [Hr Hi [Hn Hl]]. split; unfold without; simpl.
  - intros p [Hp _]%filter_elem. by apply Hr.
  - eapply sublist_NoDup; [exact Hi|]. apply fmap_sublist, filter_sublist.
  - split; [done|]. intros p [Hp _]%filter_elem. by apply Hl.
Qed.

Lemma grants_wf_added roleID assetGroupID hostIDs permissions t :
  0 < roleID -> 0 < assetGroupID -> 0 < permissions < 2 ^ 32 -> grants_wf t ->
  grants_wf (added roleID assetGroupID hostIDs permissions t).
Proof.
  intros H1 H2 H3 [Hr Hi [Hn Hl]]. split; simpl.
  - intros p [Hp| ->%list_elem_of_singleton]%elem_of_app; [by apply Hr | done].
  - rewrite fmap_app. apply NoDup_app. split; [done|]. split.
    + intros i Hp Hx. apply list_elem_of_fmap in Hp as (p & -> & Hp).
      apply list_elem_of_singleton in Hx. specialize (Hl p Hp). simpl in Hx. lia.
    + apply NoDup_singleton.
  - split; [lia|]. intros p [Hp| ->%list_elem_of_singleton]%elem_of_app; simpl; [|lia].
    specialize (Hl p Hp). lia.
Qed.

(** Whatever a handler of grants does, the invariant stays. *)
Lemma replace_wf E q roleID assetGroupID hostIDs permissions w :
  0 < roleID -> 0 < assetGroupID -> 0 < permissions -> grants_wf (tabs w) ->
  grants_wf (tabs ((exec E (without q);; grant_Create E roleID assetGroupID hostIDs permissions) w).2).
Proof.
  intros H1 H2 H3 Hw.
  destruct ((exec E (without q);; grant_Create E roleID assetGroupID hostIDs permissions) w)
    as [r w'] eqn:H. apply replace_cases in H as [(_ & Ht & Hp)|[_ [Ht|Ht]]]; simpl; rewrite Ht.
  - apply grants_wf_added; [done..|]. by apply grants_wf_without.
  - done.
  - by apply grants_wf_without.
Qed.

(** [keeps m]: no grant changes. *)
Definition keeps {A} (m : handler access_world A) : Prop :=
  forall w, grants (tabs (m w).2) = grants (tabs w).
Lemma keeps_statement {A} E (f : tables -> result A * tables) :
  (forall t, grants (f t).2 = grants t) -> keeps (statement E f).
Proof.
  intros Hf w. unfold statement. destruct (E (steps w)); [|done]. specialize (Hf (tabs w)).
  by destruct (f (tabs w)).
Qed.
Lemma keeps_ret {A} (a : A) : keeps (mret a). Proof. done. Qed.
Lemma keeps_fail {A} e : keeps (h_fail (A := A) e). Proof. done. Qed.
Lemma keeps_bind {A B} (m : handler access_world A) (k : A -> handler access_world B) :
  keeps m -> (forall a, keeps (k a)) -> keeps (m ≫= k).
Proof.
  intros Hm Hk w. specialize (Hm w). unfold mbind, handler_bind.
  destruct (m w) as [[a|e] w']; simpl in *; [|done]. by rewrite Hk.
Qed.
Lemma keeps_exec E f : (forall t, grants (f t) = grants t) -> keeps (exec E f).
Proof. intros H. apply keeps_statement. intros t. apply H. Qed.
Lemma keeps_exec_if E ok f : (forall t, grants (f t) = grants t) -> keeps (exec_if E ok f).
Proof. intros H. apply keeps_statement. intros t.
  destruct (ok t); [apply H | done].
Qed.
Lemma keeps_query {A} E (f : tables -> A) : keeps (query E f).
Proof. by apply keeps_statement. Qed.
Lemma keeps_transaction E m : keeps m -> keeps (transaction E m).
Proof.
  intros Hm w. unfold transaction.
  assert (H : keeps (exec E (fun t => t);; m;; exec E (fun t => t))).
  { apply keeps_bind; [by apply keeps_exec|]. intros _. apply keeps_bind; [done|].
    intros _. by apply keeps_exec. }
  specialize (H w). by destruct ((exec E (fun t => t);; m;; exec E (fun t => t)) w) as [[]].
Qed.
Lemma keeps_answered {A B} prefix (m : handler access_world A) (f : A -> B) :
  keeps m -> keeps (answered prefix m f).
Proof. intros Hm w. unfold answered. rewrite tried_bind. apply Hm. Qed.
Lemma keeps_with_id {A} message idStr (h : Z -> handler access_world (reply A)) :
  (forall i, keeps (h i)) -> keeps (with_id_param message idStr h).
Proof. intros H. unfold with_id_param. case_match; [apply H | apply keeps_ret]. Qed.
Lemma keeps_with_body {A B} (req : result A) (h : A -> handler access_world (reply B)) :
  (forall a, keeps (h a)) -> keeps (with_body req h).
Proof. intros H. unfold with_body. case_match; [apply H | apply keeps_ret]. Qed.
Lemma keeps_add_roles E userID roleIDs : keeps (add_roles E userID roleIDs).
Proof.
  induction roleIDs as [|r l IH]; simpl; [apply keeps_ret|].
  apply keeps_bind; [by apply keeps_exec_if | done].
Qed.

Ltac keeping := repeat first
  [ apply keeps_with_id; intros ? | apply keeps_with_body; intros ? | apply keeps_answered
  | apply keeps_transaction | apply keeps_add_roles
  | apply keeps_exec; done | apply keeps_exec_if; done | apply keeps_query
  | apply keeps_bind; [|intros ?] | case_match | apply keeps_ret | apply keeps_fail ].

Lemma bind_grant_Ok req r : unsigned_request req -> bind_grant req = Ok r ->
  0 < gq_RoleID r /\ 0 < gq_AssetGroupID r /\ 0 <= gq_Permissions r.
Proof.
  intros Hu H. apply bind_Ok in H as (r' & -> & H). specialize (Hu r' eq_refl).
  case_match; [done|]. simplify_eq. apply orb_false_iff in H0 as [H1 H2]. bsimpl. lia.
Qed.

(** The default is written twice: in the handler and in the repository. *)
Lemma default_mask_pos p : 0 <= p ->
  0 < (if (if p =? 0 then PermissionView else p) =? 0 then PermissionView
       else (if p =? 0 then PermissionView else p)).
Proof. intros Hp. unfold PermissionView. repeat case_match; bsimpl; lia. Qed.

Lemma access_step_wf w w' : access_step w w' -> grants_wf (tabs w) -> grants_wf (tabs w').
Proof.
  assert (Hkeep : forall (A : Type) (m : handler access_world A) v, keeps m ->
    grants_wf (tabs v) -> grants_wf (tabs (m v).2)).
  { intros A m v Hm. apply grants_wf_ext. by rewrite Hm. }
  destruct 1; intros Hw; try (apply Hkeep; [|done]; solve [unfold AssignUserRoles,
    AssignRoleMenus, UpdateRole, DeleteRole, DeleteMenu, UpdateGroup, DeleteGroup,
    user_AssignRoles, AssignMenus, role_Update, role_Delete, menu_Delete, group_Update,
    group_Delete; keeping]).
  - unfold CreateAssetPermission, with_body. destruct (bind_grant req) as [r|e] eqn:Hb; [|done].
    apply bind_grant_Ok in Hb as (H1 & H2 & H3); [|done]. cbv beta zeta. rewrite answered_world.
    unfold CreateBatchWithPermissions. by apply replace_wf; [..|apply default_mask_pos|].
  - unfold service_UpdateAssetPermission, with_id_param, with_body. case_match; [|done].
    destruct (bind_grant req) as [r|e] eqn:Hb; [|done].
    apply bind_grant_Ok in Hb as (H1 & H2 & H3); [|done]. cbv beta zeta. rewrite answered_world.
    unfold UpdateAssetPermission. by apply replace_wf; [..|apply default_mask_pos|].
  - unfold DeleteAssetPermission, with_id_param. case_match; [|done]. rewrite answered_world.
    destruct (grant_Delete E z w) as [r w'] eqn:Hd.
    apply exec_cases in Hd as [[_ Ht]|(_ & Ht & _)]; simpl; rewrite Ht; [|done].
    by apply grants_wf_without.
  - unfold DeleteAssetPermissionByRoleAndGroup, with_id_param. do 2 (case_match; [|done]).
    rewrite answered_world.
    destruct (grant_DeleteByRoleAndGroup E z z0 w) as [x w'] eqn:Hd.
    apply exec_cases in Hd as [[_ Ht]|(_ & Ht & _)]; simpl; rewrite Ht; [|done].
    by apply grants_wf_without.
Qed.

Lemma access_steps_wf w w' :
  rtc access_step w w' -> grants_wf (tabs w) -> grants_wf (tabs w').
Proof. induction 1 as [|w1 w2 w3 Hs _ IH]; [done|]. intros Hw. eapply IH, access_step_wf; eauto. Qed.

(** C21: whatever requests change roles, links, groups and grants, in any order
    and with any failures, every grant stored names a role and a group, has a
    mask of 1 to 32 bits that is not empty, and an id of its own. *)
Theorem grants_stay_well_formed w w' :
  rtc access_step w w' -> grants_wf (tabs w) -> grants_wf (tabs w').
Proof. apply access_steps_wf. Qed.

(** A host without a group, or an id without a host, is out of reach of
    everybody who is not an administrator, after any such requests. *)
Theorem ungrouped_host_denied w w' userID hostID operation :
  rtc access_step w w' -> grants_wf (tabs w) -> group_of (tabs w') hostID = 0 ->
  ~ admin_of (tabs w') userID -> ~ may (tabs w') userID hostID operation.
Proof.
  intros Hr Hw Hg Ha [H|(p & (Hp & _ & Hpg & _) & _)]; [done|].
  destruct (wf_rows _ (access_steps_wf _ _ Hr Hw) p Hp) as (_ & H2 & _). lia.
Qed.

(** A new grant of a role on a group does what it says. It replaces the
    grants of that pair; besides what is left, a user gains an operation on a
    host just when he has the role, the host is in the group, the list of hosts
    was empty or names the host, and the mask (view, when it was 0) has a bit
    of the operation. *)
Theorem created_grant_exact E roleID assetGroupID hostIDs permissions w w' :
  CreateBatchWithPermissions E roleID assetGroupID hostIDs permissions w = (Ok tt, w') ->
  forall userID hostID operation, may (tabs w') userID hostID operation <->
    may (without (of_role_group roleID assetGroupID) (tabs w)) userID hostID operation \/
    ((userID, roleID) ∈ user_roles (tabs w) /\ group_of (tabs w) hostID = assetGroupID /\
     (exists ids, hostIDs = Some ids /\ (ids = [] \/ hostID ∈ ids)) /\
     0 < Z.land (if permissions =? 0 then PermissionView else permissions) operation).
Proof.
  intros [(_ & -> & _)|[H _]]%replace_cases userID hostID operation; [|discriminate H].
  rewrite added_may, covers_host_spec. done.
Qed.

(** A change of grants that is answered with an error never gives anybody
    more than before, wherever it stopped. *)
Theorem failed_grant_never_widens E idStr req w :
  (forall code message w', CreateAssetPermission E req w = (Ok (Failure code message), w') ->
    forall userID hostID operation,
      may (tabs w') userID hostID operation -> may (tabs w) userID hostID operation) /\
  (forall code message w', service_UpdateAssetPermission E idStr req w = (Ok (Failure code message), w') ->
    forall userID hostID operation,
      may (tabs w') userID hostID operation -> may (tabs w) userID hostID operation).
Proof.
  assert (H : forall A q a b c d prefix (f : unit -> A) code message w',
    answered prefix (exec E (without q);; grant_Create E a b c d) f w = (Ok (Failure code message), w') ->
    forall userID hostID operation,
      may (tabs w') userID hostID operation -> may (tabs w) userID hostID operation).
  { intros A q a b c d prefix f code message w' (x & Hx & Hr)%answered_cases u h o.
    apply replace_cases in Hx as [(-> & _)|[_ [->| ->]]]; [discriminate Hr | done | apply without_may]. }
  split; intros code message w' Hr.
  - unfold CreateAssetPermission, with_body in Hr. case_match; [|by injection Hr as _ _ <-].
    by eapply H.
  - unfold service_UpdateAssetPermission, with_id_param, with_body in Hr.
    case_match; [|by injection Hr as _ _ <-]. case_match; [|by injection Hr as _ _ <-].
    by eapply H.
Qed.
End claims.
