(* ===== verification/RoleFacts.v ===== *)
(** * Access: roles, menus, routes

    Taking a role away and giving one, the checks by the role admin and by the
    code of a menu, the trees of menus and groups, and the lists of hosts. *)

From Stdlib Require Import ZArith Lia.
From stdpp Require Import base tactics option list numbers relations.
From S2P Require Import Prelude GoStrings GoNumbers ParentTree AccessModel HostGrants.
From S2P Require Import AccessControl AccessFacts GrantFacts.

Open Scope Z_scope.

Section facts.
Context `{L : AccessLib}.
Implicit Types (E : conn) (w : access_world) (t : tables).

(** ** Roles *)
(** The live roles of a user. *)
Definition has_role t (userID : Z) (role : SysRole) : Prop :=
  role ∈ rows (roles t) /\ (userID, ro_ID role) ∈ user_roles t /\ ro_Deleted role = false.
Definition is_admin t (userID : Z) : Prop :=
  exists role, has_role t userID role /\ ro_Code role = $"admin".

Definition roles_of t (userID : Z) : list SysRole := fst <$> List.filter
  (fun ru => (ru.2.1 =? userID) && negb (ro_Deleted ru.1))
  (join (fun r ur => ur.2 =? ro_ID r) (rows (roles t)) (user_roles t)).

Lemma roles_of_spec t userID role : role ∈ roles_of t userID <-> has_role t userID role.
Proof.
  unfold roles_of, has_role. rewrite list_elem_of_fmap. split.
  - intros ([r [u i]] & -> & Hx). apply filter_elem in Hx as [Hx Hc]. simpl in *. bsimpl.
    subst u. apply join_elem in Hx as (Hr & Hu & Hi%Z.eqb_eq). simpl in Hi. by subst i.
  - intros (Hr & Hu & Hd). exists (role, (userID, ro_ID role)). split; [done|].
    apply filter_elem. simpl. rewrite Z.eqb_refl, Hd. split; [|done].
    apply join_elem. simpl. by rewrite Z.eqb_refl.
Qed.

Lemma roles_of_admin t userID : existsb is_admin_role (roles_of t userID) = true <-> is_admin t userID.
Proof.
  rewrite existsb_elem. unfold is_admin, is_admin_role. setoid_rewrite roles_of_spec.
  by setoid_rewrite bool_decide_eq_true.
Qed.

Lemma role_GetByUserID_computes E userID :
  computes E (role_GetByUserID E userID) (fun t => roles_of t userID).
Proof. apply computes_query. Qed.

(** A role read from a state. *)
Lemma RequireAdmin_run E userID w v : userID <> 0 ->
  (RequireAdmin E userID w).1 = Ok v ->
  tabs (RequireAdmin E userID w).2 = tabs w /\
  (v = Next -> is_admin (tabs w) userID) /\
  (up E -> is_admin (tabs w) userID -> v = Next).
Proof.
  intros Hu Hv. unfold RequireAdmin in *. apply Z.eqb_neq in Hu. rewrite Hu in *.
  rewrite tried_bind in *. pose proof (role_GetByUserID_computes E userID) as Hc.
  split; [by apply (computes_tabs _ _ _ _ Hc)|]. simpl in Hv. apply Ok_eq in Hv. subst v. split.
  - destruct (role_GetByUserID E userID w).1 as [rs|e] eqn:Hr; [|done].
    apply (computes_Ok _ _ _ _ _ Hc) in Hr as ->. rewrite <- roles_of_admin.
    by destruct (existsb is_admin_role (roles_of (tabs w) userID)).
  - intros Hup Ha%roles_of_admin. by rewrite (computes_up _ _ _ w Hc Hup), Ha.
Qed.

(** ** The code of a menu *)
Definition has_menu_code t (userID : Z) (code : gostring) : Prop := exists menu r,
  menu ∈ rows (menus t) /\ me_Deleted menu = false /\ me_Status menu = 1 /\
  code_key (me_Code menu) = code_key code /\
  (r, me_ID menu) ∈ role_menus t /\ (userID, r) ∈ user_roles t.

Lemma menu_rows_spec t userID menu rm ur : (menu, rm, ur) ∈ menu_rows t userID <->
  menu ∈ rows (menus t) /\ rm ∈ role_menus t /\ ur ∈ user_roles t /\
  rm.2 = me_ID menu /\ ur.2 = rm.1 /\ ur.1 = userID /\ me_Deleted menu = false.
Proof.
  unfold menu_rows. rewrite filter_elem, join_elem. simpl. rewrite join_elem.
  rewrite andb_true_iff, !Z.eqb_eq, negb_true_iff. tauto.
Qed.

Definition menu_code_b t (userID : Z) (code : gostring) : bool :=
  0 <? Count (List.filter
    (fun x => bool_decide (code_key (me_Code x.1.1) = code_key code) && (me_Status x.1.1 =? 1))
    (menu_rows t userID)).
Lemma HasUserMenuCode_computes E userID code :
  computes E (HasUserMenuCode E userID code) (fun t => menu_code_b t userID code).
Proof.
  eapply computes_bind_eq; [apply computes_query | intros c; refine (computes_ret _ _) | done].
Qed.

Lemma menu_code_b_spec t userID code : menu_code_b t userID code = true <-> has_menu_code t userID code.
Proof.
  unfold menu_code_b. rewrite Count_pos. split.
  - intros ([[menu rm] ur] & Hx). apply filter_elem in Hx as [Hx Hc]. simpl in Hc. bsimpl.
    apply menu_rows_spec in Hx as (Hm & Hrm & Hur & He & Hr & Hu & Hd).
    exists menu, rm.1. destruct rm, ur. simpl in *. subst. auto 10.
  - intros (menu & r & Hm & Hd & Hs & Hk & Hrm & Hur).
    exists (menu, (r, me_ID menu), (userID, r)). apply filter_elem. split.
    + apply menu_rows_spec. simpl. auto 10.
    + simpl. rewrite Hs. by rewrite bool_decide_eq_true_2.
Qed.

Definition menu_permitted t (userID : Z) (code : gostring) : Prop :=
  is_admin t userID \/ has_menu_code t userID (TrimSpace code).

Lemma HasMenuPermission_spec E userID code w b :
  (HasMenuPermission E userID code w).1 = Ok b ->
  tabs (HasMenuPermission E userID code w).2 = tabs w /\
  (b = true <-> userID <> 0 /\ TrimSpace code <> [] /\ menu_permitted (tabs w) userID code).
Proof.
  unfold HasMenuPermission. destruct (Z.eqb_spec userID 0) as [->|Hu]; simpl.
  { intros <-%Ok_eq. split; [done|]. naive_solver. }
  destruct (bool_decide (TrimSpace code = [])) eqn:He; bsimpl.
  { intros <-%Ok_eq. split; [done|]. naive_solver. }
  assert (Hc : computes E (roles ← role_GetByUserID E userID;
    if existsb is_admin_role roles then mret true else HasUserMenuCode E userID (TrimSpace code))
    (fun t => existsb is_admin_role (roles_of t userID) || menu_code_b t userID (TrimSpace code))).
  { eapply computes_ext; [|eapply computes_bind_eq; [apply role_GetByUserID_computes|
      intros rs; apply computes_if; intros _; [refine (computes_ret _ _) |
        apply HasUserMenuCode_computes] | intros ?; reflexivity]].
    intros t. simpl. by destruct (existsb is_admin_role (roles_of t userID)). }
  intros Hb. split; [by apply (computes_tabs _ _ _ _ Hc)|].
  apply (computes_Ok _ _ _ _ _ Hc) in Hb as ->. unfold menu_permitted.
  rewrite orb_true_iff, roles_of_admin, menu_code_b_spec. tauto.
Qed.

Lemma RequireMenuPermission_Next E userID code w w' :
  RequireMenuPermission E userID code w = (Ok Next, w') ->
  tabs w' = tabs w /\ userID <> 0 /\ menu_permitted (tabs w) userID code.
Proof.
  unfold RequireMenuPermission. destruct (Z.eqb_spec userID 0) as [->|Hu]; [done|].
  case_match; [done|]. rewrite tried_bind. intros H1. apply pair_eq in H1 as [H1 <-].
  apply Ok_eq in H1. destruct (HasMenuPermission E userID code w).1 as [[]|] eqn:Hb; try done.
  apply HasMenuPermission_spec in Hb as [Ht Hb]. simpl. rewrite Ht. split; [done|]. naive_solver.
Qed.
End facts.

Section changes.
Context `{L : AccessLib}.
Implicit Types (E : conn) (w : access_world) (t : tables).

Lemma exec_up E f w : up E -> exists w', exec E f w = (Ok tt, w') /\ tabs w' = f (tabs w).
Proof. intros Hup. unfold exec, statement. rewrite Hup. by eexists. Qed.
Lemma exec_if_up E ok f w : up E -> ok (tabs w) = true ->
  exists w', exec_if E ok f w = (Ok tt, w') /\ tabs w' = f (tabs w).
Proof. intros Hup Hok. unfold exec_if, statement. rewrite Hup, Hok. by eexists. Qed.

Lemma transaction_up E m w t : up E ->
  (forall w1, tabs w1 = tabs w -> exists w2, m w1 = (Ok tt, w2) /\ tabs w2 = t) ->
  exists w', transaction E m w = (Ok tt, w') /\ tabs w' = t.
Proof.
  intros Hup Hm. unfold transaction, mbind, handler_bind.
  destruct (exec_up E (fun t => t) w Hup) as (w1 & -> & H1).
  destruct (Hm w1 H1) as (w2 & -> & H2).
  destruct (exec_up E (fun t => t) w2 Hup) as (w3 & -> & H3). exists w3. by rewrite H3.
Qed.

(** The links of a user replaced by one role. *)
Definition only_role (userID roleID : Z) t : tables := set_user_roles
  (List.filter (fun ur => negb (ur.1 =? userID)) (user_roles t) ++ [(userID, roleID)]) t.

Lemma assign_one_role E userID roleID w : up E ->
  exists w', user_AssignRoles E userID [roleID] w = (Ok tt, w') /\
    tabs w' = only_role userID roleID (tabs w).
Proof.
  intros Hup. apply transaction_up; [done|]. intros w1 H1. unfold mbind at 1, handler_bind at 1.
  destruct (exec_up E (fun t => set_user_roles
    (List.filter (fun ur => negb (ur.1 =? userID)) (user_roles t)) t) w1 Hup) as (w2 & -> & H2).
  unfold add_roles, mbind, handler_bind.
  destruct (exec_if_up E (fun t => fresh_links [(userID, roleID)] (user_roles t))
    (fun t => set_user_roles (user_roles t ++ [(userID, roleID)]) t) w2 Hup) as (w3 & -> & H3).
  - rewrite H2. unfold fresh_links. apply andb_true_iff.
    split; [apply bool_decide_eq_true_2, NoDup_singleton|]. simpl. rewrite andb_true_r.
    apply negb_true_iff, bool_decide_eq_false. intros [_ Hx]%filter_elem. simpl in Hx.
    by rewrite Z.eqb_refl in Hx.
  - eexists. split; [done|]. rewrite H3, H2, H1. done.
Qed.

Lemma answered_success {A B} prefix (m : handler access_world A) (f : A -> B) w a w' :
  m w = (Ok a, w') -> answered prefix m f w = (Ok (Success (f a)), w').
Proof. intros Hm. unfold answered. rewrite tried_bind, Hm. done. Qed.

(** A user who was given the role admin by hand. *)
Lemma promoted E idStr userID role w :
  up E -> parse_id idStr = Some userID ->
  role ∈ rows (roles (tabs w)) -> ro_Deleted role = false -> ro_Code role = $"admin" ->
  exists w', AssignUserRoles E idStr (Ok (Some [ro_ID role])) w = (Ok (Success tt), w') /\
    is_admin (tabs w') userID /\ admin_of (tabs w') userID.
Proof.
  intros Hup Hid Hin Hd Hc. destruct (assign_one_role E userID (ro_ID role) w Hup) as (w' & Hw & Ht).
  exists w'. split.
  { unfold AssignUserRoles, with_id_param, with_body. rewrite Hid. simpl.
    by apply (answered_success _ _ id). }
  assert (Hl : (userID, ro_ID role) ∈ user_roles (tabs w'))
    by (rewrite Ht; apply elem_of_app; right; by apply list_elem_of_singleton).
  assert (Hr : role ∈ rows (roles (tabs w'))) by by rewrite Ht.
  split.
  - exists role. by repeat split.
  - exists (ro_ID role), role. repeat split; try done. by rewrite Hc.
Qed.

(** The links without those of a role. *)
Definition unlinked (roleID : Z) t : tables :=
  set_user_roles (List.filter (fun ur => negb (ur.2 =? roleID)) (user_roles t)) t.

(** Deleting a role takes back all it gave, in one transaction: no link of
    the role is left, and what anybody may do on a host is what his other roles
    give. A failed deletion changes nothing. *)
Theorem deleted_role_revokes E roleID w :
  (forall w', role_Delete E roleID w = (Ok tt, w') ->
     (forall userID, (userID, roleID) ∉ user_roles (tabs w')) /\
     (forall menuID, (roleID, menuID) ∉ role_menus (tabs w')) /\
     forall userID hostID operation,
       may (tabs w') userID hostID operation <-> may (unlinked roleID (tabs w)) userID hostID operation) /\
  (forall e w', role_Delete E roleID w = (Err e, w') -> tabs w' = tabs w).
Proof.
  split; [|intros e w' H; by apply transaction_Err in H].
  intros w' (w1 & w2 & H1 & H2 & Ht)%transaction_Ok. rewrite Ht. clear w' Ht.
  apply h_bind_Ok in H2 as (_ & w3 & H3%exec_Ok & H2).
  apply h_bind_Ok in H2 as (_ & w4 & H4%exec_Ok & H5%exec_Ok). rewrite H5, H4, H3, H1. simpl.
  split; [|split].
  - intros u [_ Hx]%filter_elem. simpl in Hx. by rewrite Z.eqb_refl in Hx.
  - intros m [_ Hx]%filter_elem. simpl in Hx. by rewrite Z.eqb_refl in Hx.
  - intros u h o. unfold may. apply or_iff_compat_r.
    unfold admin_of, unlinked. simpl. split; intros (r & role & Hl & Hr & He & Hk).
    + apply list_elem_of_fmap in Hr as (role' & -> & Hr). exists r, role'.
      repeat split; try done; by destruct (ro_ID role' =? roleID).
    + exists r, (if ro_ID role =? roleID then deleted_role role else role).
      repeat split; try done; [|by destruct (ro_ID role =? roleID)..].
      apply list_elem_of_fmap. by exists role.
Qed.
End changes.
