(* ===== verification/RouteFacts.v ===== *)
(** * Access: from the route to the handler

    What a request that was served has shown on its way: a session, and what
    the middlewares of its route ask for. The tables of [Routes] are checked
    row by row. *)

From Stdlib Require Import ZArith Lia.
From stdpp Require Import base tactics option list numbers.
From S2P Require Import Prelude GoStrings GoNumbers GoCrypto SignInModel Login ParentTree.
From S2P Require Import AccessModel HostGrants AccessControl InstanceAccess Routes AccessFacts.
From S2P Require Import GrantFacts RoleFacts.

Open Scope Z_scope.

Section facts.
Context `{L : AccessLib}.
Implicit Types (E : conn) (w : access_world) (t : tables).

(** ** What a middleware asks for *)
Definition guard_holds t (userID : Z) (idStr : gostring) (g : guard) : Prop :=
  match g with
  | Session => True
  | AdminOnly => is_admin t userID
  | MenuCode code => menu_permitted t userID code
  | HostOp operation =>
    idStr = [] \/ exists hostID, parse_id idStr = Some hostID /\ may t userID hostID operation
  end.

Lemma RequireHostPermission_Next E operation userID idStr w w' :
  RequireHostPermission E operation userID idStr w = (Ok Next, w') ->
  tabs w' = tabs w /\ userID <> 0 /\ guard_holds (tabs w) userID idStr (HostOp operation).
Proof.
  unfold RequireHostPermission. destruct (Z.eqb_spec userID 0) as [|Hu]; [done|].
  destruct idStr as [|c cs] eqn:Hs; [intros H; apply pair_eq in H as [_ <-]; simpl; auto|].
  rewrite <- Hs. destruct (parse_id idStr) as [hostID|] eqn:Hid; [|done].
  rewrite tried_bind. intros H. apply pair_eq in H as [H <-]. apply Ok_eq in H.
  pose proof (check_computes E userID hostID operation) as Hc.
  split; [by apply (computes_tabs _ _ _ _ Hc)|]. split; [done|].
  destruct (CheckHostOperationPermission E userID hostID operation w).1 as [[]|e] eqn:Hb; try done.
  apply (computes_Ok _ _ _ _ _ Hc) in Hb. right. exists hostID. split; [done|].
  by apply may_b_spec.
Qed.

Lemma RequireAdmin_Next E userID w w' :
  RequireAdmin E userID w = (Ok Next, w') ->
  tabs w' = tabs w /\ userID <> 0 /\ is_admin (tabs w) userID.
Proof.
  intros H. assert (Hu : userID <> 0) by (intros ->; by unfold RequireAdmin in H).
  destruct (RequireAdmin_run E userID w Next Hu) as (Ht & Ha & _); [by rewrite H|].
  rewrite H in Ht. auto.
Qed.

Lemma guarded_Success {A} (m : handler access_world verdict) (h : handler access_world (reply A)) w x w' :
  guarded m h w = (Ok (Success x), w') ->
  exists w1, m w = (Ok Next, w1) /\ h w1 = (Ok (Success x), w').
Proof. intros ([|code msg] & w1 & H1 & H2)%h_bind_Ok; [by exists w1 | done]. Qed.

(** The middlewares after the first. *)
Definition no_session (g : guard) : bool := match g with Session => false | _ => true end.

Lemma pass_Success {A} E session idStr gs userID (h : Z -> handler access_world (reply A)) w x w' :
  forallb no_session gs = true ->
  pass E session idStr gs userID h w = (Ok (Success x), w') ->
  exists w1, tabs w1 = tabs w /\ h userID w1 = (Ok (Success x), w') /\
    (forall g, g ∈ gs -> userID <> 0 /\ guard_holds (tabs w) userID idStr g).
Proof.
  revert w. induction gs as [|g gs IH]; intros w Hn H.
  { exists w. do 2 (split; [done|]). by intros g ?%elem_of_nil. }
  simpl in Hn. apply andb_true_iff in Hn as [Hg Hn].
  assert (Hm : exists m : handler access_world verdict,
    pass E session idStr (g :: gs) userID h = guarded m (pass E session idStr gs userID h) /\
    forall w w1, m w = (Ok Next, w1) ->
      tabs w1 = tabs w /\ userID <> 0 /\ guard_holds (tabs w) userID idStr g).
  { destruct g as [| |code|op]; [done | eexists; split; [reflexivity|]..];
      [apply RequireAdmin_Next | apply RequireMenuPermission_Next | apply RequireHostPermission_Next]. }
  destruct Hm as (m & Hp & Hm). rewrite Hp in H.
  apply guarded_Success in H as (w1 & H1%Hm & H). destruct H1 as (Ht & Hu & Hh).
  destruct (IH w1 Hn H) as (w2 & Ht2 & H2 & Hgs). rewrite Ht in *.
  exists w2. split; [done|]. split; [done|]. intros g' [->|Hin]%elem_of_cons; [done | by apply Hgs].
Qed.

(** A route that needs a session: [AuthRequired] comes first. *)
Definition session_first (r : route) : bool :=
  match rt_guards r with Session :: gs => forallb no_session gs | _ => false end.

Lemma serve_Success {A} E session r id (h : Z -> handler access_world (reply A)) w x w' :
  session_first r = true ->
  serve E session r id h w = (Ok (Success x), w') ->
  exists userID name w1, session = Ok (userID, name) /\ tabs w1 = tabs w /\
    h userID w1 = (Ok (Success x), w') /\
    (forall g, g ∈ rt_guards r -> g <> Session ->
       userID <> 0 /\ guard_holds (tabs w) userID (param_id r id) g).
Proof.
  unfold session_first, serve. destruct (rt_guards r) as [|[] gs]; try done. intros Hn H. simpl in H.
  destruct session as [[userID name]|e]; [|done].
  destruct (pass_Success _ _ _ _ _ _ _ _ _ Hn H) as (w1 & Ht & Hh & Hg).
  exists userID, name, w1. do 3 (split; [done|]). intros g [->|Hin]%elem_of_cons Hne; [done | by apply Hg].
Qed.
End facts.

(** ** The areas of the table *)
Definition under (prefix : gostring) (r : route) : bool := HasPrefix (rt_path r) prefix.
Definition host_route (r : route) : bool :=
  under $"/api/v1/hosts/:id" r || under $"/api/v1/asset/terminal/:id" r ||
  under $"/api/v1/agents/:id" r.
(** The routes of a host that ask for no operation. *)
Definition open_host_route (r : route) : bool :=
  one_of (rt_path r) [$"/api/v1/hosts/:id/test"; $"/api/v1/asset/terminal/:id/resize"].
Definition menu_route (r : route) : bool :=
  under $"/api/v1/databases" r || under $"/api/v1/message-queues" r.
Definition admin_route (r : route) : bool :=
  under $"/api/v1/virtualization" r || under $"/api/v1/terminal-sessions" r.
Definition anonymous_route (r : route) : bool :=
  under $"/api/v1/public" r || under $"/api/v1/captcha" r ||
  one_of (rt_path r) [$"/health"; $"/swagger/*any"].

Definition is_host_op (g : guard) : bool := match g with HostOp _ => true | _ => false end.
Definition is_menu_code (g : guard) : bool := match g with MenuCode _ => true | _ => false end.
Definition is_admin_only (g : guard) : bool := match g with AdminOnly => true | _ => false end.

Definition row_ok (r : route) : bool :=
  (anonymous_route r || session_first r) &&
  (negb (host_route r) || open_host_route r || (has_id r && existsb is_host_op (rt_guards r))) &&
  (negb (menu_route r) || existsb is_menu_code (rt_guards r)) &&
  (negb (admin_route r) || existsb is_admin_only (rt_guards r)) &&
  (negb (anonymous_route r) || negb (host_route r || menu_route r || admin_route r)).
Lemma rows_ok : forallb row_ok registerRoutes = true.
Proof. vm_compute. reflexivity. Qed.

Lemma row_of r : r ∈ registerRoutes ->
  (anonymous_route r = false -> session_first r = true) /\
  (host_route r = true -> open_host_route r = false ->
     session_first r = true /\ has_id r = true /\ existsb is_host_op (rt_guards r) = true) /\
  (menu_route r = true -> session_first r = true /\ existsb is_menu_code (rt_guards r) = true) /\
  (admin_route r = true -> session_first r = true /\ existsb is_admin_only (rt_guards r) = true).
Proof.
  intros Hr. pose proof rows_ok as H. rewrite forallb_forall in H.
  apply list_elem_of_In, H in Hr. revert Hr. unfold row_ok.
  destruct (anonymous_route r), (session_first r), (host_route r), (menu_route r), (admin_route r);
    simpl; try done; destruct (open_host_route r), (has_id r), (existsb is_host_op (rt_guards r));
    simpl; try done; destruct (existsb is_menu_code (rt_guards r)); simpl; try done;
    by destruct (existsb is_admin_only (rt_guards r)).
Qed.

(** The sessions of [AuthRequired]: a signed token that is not of the second
    factor. *)
Definition session_of `{SignInLib} (secretKey : gostring) (R : request_env) (userID : Z) : Prop :=
  exists token claims, jwt_parse secretKey (now R) token = Ok claims /\
    cl_TokenType claims <> $"mfa" /\ cl_UserID claims = userID.

Lemma AuthRequired_session `{SignInLib} secretKey R header query cookie userID name :
  AuthRequired secretKey R header query cookie = Ok (userID, name) -> session_of secretKey R userID.
Proof.
  unfold AuthRequired. destruct (cut_at 32 header) as [[before after] found]. cbv zeta.
  case_match; [done|]. unfold ParseToken, session_of.
  match goal with |- context [jwt_parse _ _ ?t] => set (token := t) end.
  destruct (jwt_parse secretKey (now R) token) as [claims|e] eqn:Hj; [|done]. simpl.
  destruct (bool_decide (cl_TokenType claims = $"mfa")) eqn:Ht; [done|].
  intros H'. apply Ok_eq in H'. apply pair_eq in H' as [<- _]. exists token, claims.
  by apply bool_decide_eq_false in Ht.
Qed.

Section claims.
Context `{L : AccessLib} `{SL : SignInLib} (secretKey : gostring).
Implicit Types (E : conn) (w : access_world) (t : tables).

(** A request without a valid session is answered 401 on every route but
    the public ones: no statement is sent and no handler runs. *)
Theorem no_session_no_service {A} E R header query cookie message r id
    (h : Z -> handler access_world (reply A)) w :
  r ∈ registerRoutes -> anonymous_route r = false ->
  AuthRequired secretKey R header query cookie = Err message ->
  serve E (AuthRequired secretKey R header query cookie) r id h w = (Ok (Failure 401 message), w).
Proof.
  intros Hr%row_of Ha ->. apply (proj1 Hr) in Ha as Hs. unfold session_first in Hs. unfold serve.
  destruct (rt_guards r) as [|[] gs]; done.
Qed.

(** C5: whoever gets data from a route of a host has shown a valid session and
    may do on this very host what the route asks for; the test of a connection
    and the resize of a terminal are the two routes that ask for nothing. *)
Theorem host_routes_guarded {A} E R header query cookie r id
    (h : Z -> handler access_world (reply A)) w x w' :
  r ∈ registerRoutes -> host_route r = true -> open_host_route r = false -> id <> [] ->
  serve E (AuthRequired secretKey R header query cookie) r id h w = (Ok (Success x), w') ->
  exists userID hostID operation w1,
    session_of secretKey R userID /\ parse_id id = Some hostID /\
    HostOp operation ∈ rt_guards r /\ may (tabs w) userID hostID operation /\
    tabs w1 = tabs w /\ h userID w1 = (Ok (Success x), w').
Proof.
  intros Hr Hh Ho Hid H.
  destruct (row_of r Hr) as (_ & Hrow & _). destruct (Hrow Hh Ho) as (Hs & Hi & Hex).
  apply existsb_elem in Hex as (g & Hg & Hop). destruct g as [| | |op]; try done.
  assert (Hp : param_id r id = id) by (unfold param_id; by rewrite Hi).
  destruct (serve_Success _ _ _ _ _ _ _ _ Hs H) as (userID & name & w1 & Ha & Ht & Hw & Hgs).
  destruct (Hgs _ Hg) as [_ [He|(hostID & Hpi & Hm)]]; [done | congruence|].
  rewrite Hp in Hpi. exists userID, hostID, op, w1. repeat split; try done.
  by eapply AuthRequired_session.
Qed.

(** Whoever gets data from a route of the databases or the message queues
    has shown a valid session and a menu code that the route names; from the
    virtualisation or the recorded terminals, the live role admin. *)
Theorem managed_routes_guarded {A} E R header query cookie r id
    (h : Z -> handler access_world (reply A)) w x w' :
  r ∈ registerRoutes -> menu_route r || admin_route r = true ->
  serve E (AuthRequired secretKey R header query cookie) r id h w = (Ok (Success x), w') ->
  exists userID w1, session_of secretKey R userID /\ tabs w1 = tabs w /\
    h userID w1 = (Ok (Success x), w') /\
    (menu_route r = true -> exists code, MenuCode code ∈ rt_guards r /\
       menu_permitted (tabs w) userID code) /\
    (admin_route r = true -> is_admin (tabs w) userID).
Proof.
  intros Hr Ha H.
  destruct (row_of r Hr) as (_ & _ & Hmenu & Hadm).
  assert (Hs : session_first r = true) by 
    by (apply orb_true_iff in Ha as [H1|H1]; [apply (Hmenu H1) | apply (Hadm H1)]).
  destruct (serve_Success _ _ _ _ _ _ _ _ Hs H) as (userID & name & w1 & Hau & Ht & Hw & Hgs).
  exists userID, w1.
  split; [by eapply AuthRequired_session|]. do 2 (split; [done|]). split.
  - intros [_ Hm]%Hmenu. apply existsb_elem in Hm as (g & Hg & Hc).
    destruct g as [| |code|]; try done. exists code. split; [done|]. by apply (Hgs _ Hg).
  - intros [_ Hm]%Hadm. apply existsb_elem in Hm as (g & Hg & Hc).
    destruct g as [| | |]; try done. by apply (Hgs _ Hg).
Qed.

(** C24: the route that gives roles asks for a session only, and its handler
    does not ask who sends it: any signed-in user can give himself the role
    admin, after which every guard of the tables lets him through. *)
Theorem any_user_can_promote_himself E session name r idStr userID role w :
  up E -> userID <> 0 -> parse_id idStr = Some userID ->
  session = Ok (userID, name) ->
  r ∈ registerRoutes -> rt_method r = POST -> rt_path r = $"/api/v1/users/:id/roles" ->
  role ∈ rows (roles (tabs w)) -> ro_Deleted role = false -> ro_Code role = $"admin" ->
  exists w', serve E session r idStr (fun _ => AssignUserRoles E idStr (Ok (Some [ro_ID role]))) w
      = (Ok (Success tt), w') /\
    (RequireAdmin E userID w').1 = Ok Next /\
    (forall code b, TrimSpace code <> [] -> (HasMenuPermission E userID code w').1 = Ok b -> b = true) /\
    forall hostID operation, may (tabs w') userID hostID operation.
Proof.
  intros Hup Hu Hid -> Hr Hm Hp Hin Hd Hc.
  assert (Hg : rt_guards r = [Session]).
  { assert (Hall : forallb (fun r => match rt_method r with POST =>
        negb (bool_decide (rt_path r = $"/api/v1/users/:id/roles")) ||
        match rt_guards r with [Session] => true | _ => false end | _ => true end) registerRoutes = true)
      by by vm_compute.
    rewrite forallb_forall in Hall. apply list_elem_of_In, Hall in Hr. rewrite Hm in Hr.
    rewrite (bool_decide_eq_true_2 _ Hp) in Hr. simpl in Hr. by destruct (rt_guards r) as [|[] []]. }
  destruct (promoted E idStr userID role w Hup Hid Hin Hd Hc) as (w' & Hw & Ha & Hadm).
  exists w'. split; [unfold serve; by rewrite Hg|]. split; [|split].
  - assert (Hv : exists v, (RequireAdmin E userID w').1 = Ok v).
    { unfold RequireAdmin. case_match; [by eexists|]. rewrite tried_bind. by eexists. }
    destruct Hv as [v Hv]. rewrite Hv. f_equal. by apply (RequireAdmin_run E userID w' v Hu Hv).
  - intros code b Hne [_ ->]%HasMenuPermission_spec. repeat split; try done. by left.
  - intros hostID operation. by left.
Qed.
End claims.
