(* ===== verification/ListFacts.v ===== *)
(** * Access: the trees of menus and groups, the lists of hosts

    The recursions of the repositories end on rows that hang from the root and
    give what the rows say; a group put under itself keeps them running. What
    is listed or handed to an agent is within the reach of the user. *)

From Stdlib Require Import ZArith Lia.
From stdpp Require Import base tactics option list numbers relations.
From S2P Require Import Prelude GoStrings GoNumbers ParentTree AccessModel HostGrants.
From S2P Require Import AccessControl AccessFacts GrantFacts RoleFacts.

Open Scope Z_scope.

(** ** Sorting keeps the rows *)
Lemma insert_by_perm {A} (key : A -> Z) a l : insert_by key a l ≡ₚ a :: l.
Proof.
  induction l as [|b l IH]; [done|]. simpl. case_match; [done|]. rewrite IH. apply Permutation_swap.
Qed.
Lemma order_by_perm {A} (key : A -> Z) l : order_by key l ≡ₚ l.
Proof. induction l as [|a l IH]; [done|]. simpl. by rewrite insert_by_perm, IH. Qed.

Lemma below_mono {A} (id parent : A -> Z) l k p a :
  (forall x, x ∈ l -> x ∈ k) -> below id parent l p a -> below id parent k p a.
Proof. intros H. induction 1; [apply below_child | eapply below_step]; eauto. Qed.

Lemma keyed_sublist {A} (id : A -> Z) l k : k `sublist_of` l -> keyed id l -> keyed id k.
Proof.
  intros Hs [H1 H2]. split; [eapply sublist_NoDup; [exact H1 | by apply fmap_sublist]|].
  intros a Ha. apply H2. by eapply elem_of_sublist.
Qed.
Lemma keyed_perm {A} (id : A -> Z) l k : k ≡ₚ l -> keyed id l -> keyed id k.
Proof.
  intros Hp [H1 H2]. split; [by rewrite Hp|]. intros a. rewrite Hp. apply H2.
Qed.

(** The tree of sorted rows: it is built, and holds the rows that hang from
    the root. *)
Lemma ordered_tree {A} (id parent key : A -> Z) l : keyed id l ->
  exists ts, build_plain id parent (rounds (order_by key l)) (order_by key l) 0 = Some ts /\
    forall a, a ∈ members ts <-> rooted id parent l a.
Proof.
  intros Hk. set (k := order_by key l). assert (Hp : k ≡ₚ l) by apply order_by_perm.
  assert (Hk' : keyed id k) by by eapply keyed_perm.
  destruct (build_total id parent k Hk' (fun a _ => a) (rounds k) [] 0) as [ts Hts];
    [constructor | unfold rounds; simpl; lia|].
  exists ts. split; [done|]. intros a. rewrite (build_members _ _ _ _ _ _ _ Hts).
  split; apply below_mono; intros x; by rewrite Hp.
Qed.

Section facts.
Context `{L : AccessLib}.
Implicit Types (E : conn) (w : access_world) (t : tables).

(** ** Menus *)
Definition menu_list t (userID : Z) : list SysMenu :=
  if existsb is_admin_role (roles_of t userID) then live_menus t
  else List.filter (fun m => existsb (fun x => me_ID x.1.1 =? me_ID m)
    (List.filter (fun x => (me_Status x.1.1 =? 1) && (me_Visible x.1.1 =? 1)) (menu_rows t userID)))
    (rows (menus t)).

Definition menu_visible t (userID : Z) (m : SysMenu) : Prop :=
  m ∈ rows (menus t) /\ me_Deleted m = false /\
  (is_admin t userID \/ me_Status m = 1 /\ me_Visible m = 1 /\
   exists r, (r, me_ID m) ∈ role_menus t /\ (userID, r) ∈ user_roles t).

Lemma menu_list_spec t userID m : keyed me_ID (rows (menus t)) ->
  m ∈ menu_list t userID <-> menu_visible t userID m.
Proof.
  intros Hk. unfold menu_list, menu_visible.
  destruct (existsb is_admin_role (roles_of t userID)) eqn:Ha.
  - apply roles_of_admin in Ha. unfold live_menus. rewrite filter_elem, negb_true_iff. tauto.
  - assert (Hn : ~ is_admin t userID) by (intros H%roles_of_admin; congruence).
    rewrite filter_elem, existsb_elem. split.
    + intros (Hm & [[m' rm] ur] & Hx & He%Z.eqb_eq). apply filter_elem in Hx as [Hx Hc]. simpl in *.
      bsimpl. apply menu_rows_spec in Hx as (Hm' & Hrm & Hur & H1 & H2 & H3 & H4).
      assert (m' = m) as -> by by eapply (keyed_inj me_ID). repeat split; try done. right.
      repeat split; try done. exists rm.1. destruct rm, ur. simpl in *. by subst.
    + intros (Hm & Hd & [?|(Hs & Hv & r & Hrm & Hur)]); [done|]. split; [done|].
      exists (m, (r, me_ID m), (userID, r)). split; [|by apply Z.eqb_refl].
      apply filter_elem. simpl. rewrite Hs, Hv. split; [|done]. by apply menu_rows_spec.
Qed.

(** The menu of a user is built (the recursion over the parents ends) and
    holds the menus that he may see and whose ancestors, up to a menu without a
    parent, he may see too. *)
Theorem user_menu_tree E userID w :
  up E -> userID <> 0 -> keyed me_ID (rows (menus (tabs w))) ->
  exists ts, (GetUserMenu E userID w).1 = Ok (Success (Some ts)) /\
    (forall m, m ∈ members ts -> menu_visible (tabs w) userID m) /\
    forall m, m ∈ members ts <-> rooted me_ID me_ParentID (menu_list (tabs w) userID) m.
Proof.
  intros Hup Hu Hk. apply Z.eqb_neq in Hu. unfold GetUserMenu. rewrite Hu, tried_bind.
  pose proof (role_GetByUserID_computes E userID) as Hc.
  rewrite (computes_up _ _ _ w Hc Hup). pose proof (computes_tabs _ _ _ w Hc) as Ht.
  set (w1 := (role_GetByUserID E userID w).2) in *.
  assert (Hl : keyed me_ID (menu_list (tabs w) userID)).
  { eapply keyed_sublist; [|exact Hk]. unfold menu_list, live_menus.
    case_match; apply filter_sublist. }
  destruct (ordered_tree me_ID me_ParentID me_Sort _ Hl) as (ts & Hts & Hm). exists ts.
  assert (Hrun : forall (m : handler access_world (option (list (tree SysMenu)))),
    (m w1).1 = Ok (Some ts) -> (answered $"查询失败: " m id w1).1 = Ok (Success (Some ts))).
  { intros m H. by apply (answered_up _ _ id). }
  split; [|split; [|done]].
  - apply Hrun. revert Hts. unfold menu_list.
    destruct (existsb is_admin_role (roles_of (tabs w) userID)); intros Hts.
    + unfold menu_GetTree, query, statement, mbind, handler_bind. rewrite Hup. simpl.
      rewrite Ht. unfold menu_buildTree. by rewrite Hts.
    + unfold menu_GetByUserID, query, statement, mbind, handler_bind. rewrite Hup. simpl.
      rewrite Ht. unfold menu_buildTree. by rewrite Hts.
  - intros m Hin%Hm. apply menu_list_spec; [done|]. by eapply below_in.
Qed.

(** ** Groups *)
Definition group_children t : Z -> list Z := child_ids ag_ID ag_ParentID (live_groups t).

Lemma each_child_computes E f g ids :
  (forall i, computes E (f i) (fun t => g t i)) ->
  computes E (each_child f ids) (fun t => option_map mjoin (mapM (g t) ids)).
Proof.
  intros Hf. induction ids as [|i ids IH]; [refine (computes_ret _ _)|]. simpl.
  eapply (computes_bind_eq _ _ _ _ (fun b t => match b with
    | None => None | Some x => option_map (app x) (option_map mjoin (mapM (g t) ids)) end));
    [apply Hf| |].
  - intros [x|]; [|refine (computes_ret _ _)].
    eapply (computes_bind_eq _ _ _ _ (fun more _ => option_map (app x) more)); [apply IH| |done].
    intros more. refine (computes_ret _ _).
  - intros t. simpl. destruct (g t i) as [x|]; [|done]. simpl. by destruct (mapM (g t) ids).
Qed.

Lemma getChildren_computes E fuel parentID :
  computes E (getChildren E fuel parentID) (fun t => descend fuel (group_children t) parentID).
Proof.
  revert parentID. induction fuel as [|fuel IH]; intros parentID; [refine (computes_ret _ _)|].
  simpl. eapply (computes_bind_eq _ _ _ _ (fun children t =>
    option_map (app children) (option_map mjoin (mapM (descend fuel (group_children t)) children))));
    [apply computes_query| |].
  - intros children. eapply (computes_bind_eq _ _ _ _ (fun rest _ => option_map (app children) rest));
      [apply each_child_computes, IH| |done].
    intros rest. refine (computes_ret _ _).
  - intros t. cbn beta. change (child_ids ag_ID ag_ParentID (live_groups t) parentID)
      with (group_children t parentID). generalize (descend fuel (group_children t)). intros f.
    generalize (group_children t parentID). intros l. by destruct (mapM f l).
Qed.

(** C34: the groups below a group are found (the recursion ends) when the group
    hangs from the root: a round for every group is enough, and the ids are
    those of its descendants at any depth. *)
Theorem descendants_exact E g w :
  up E -> keyed ag_ID (live_groups (tabs w)) ->
  rooted ag_ID ag_ParentID (live_groups (tabs w)) g ->
  exists ids, (GetDescendantIDs E (rounds (live_groups (tabs w))) (ag_ID g) w).1 = Ok (Some ids) /\
    forall i, i ∈ ids <->
      exists d, below ag_ID ag_ParentID (live_groups (tabs w)) (ag_ID g) d /\ ag_ID d = i.
Proof.
  intros Hup Hk Hr. destruct (rooted_chain _ _ _ _ Hr) as [path Hch].
  destruct (descend_total ag_ID ag_ParentID (live_groups (tabs w)) Hk
    (rounds (live_groups (tabs w))) _ _ Hch) as [ids Hids]; [unfold rounds; simpl; lia|].
  exists ids. split.
  - unfold GetDescendantIDs. rewrite (computes_up _ _ _ w (getChildren_computes _ _ _) Hup).
    by rewrite <- Hids.
  - intros i. by apply (descend_members _ _ _ _ _ _ _ Hids).
Qed.

(** A group that is below itself. *)
Lemma descendants_diverge E fuel g w :
  up E -> below ag_ID ag_ParentID (live_groups (tabs w)) (ag_ID g) g ->
  (GetDescendantIDs E fuel (ag_ID g) w).1 = Ok None.
Proof.
  intros Hup Hb. unfold GetDescendantIDs.
  rewrite (computes_up _ _ _ w (getChildren_computes _ _ _) Hup). f_equal. by apply descend_cycle.
Qed.

(** ** The hosts a user is restricted to *)
Lemma getAccessibleHostIDs_run E userID w :
  exists ids, (getAccessibleHostIDs E userID w).1 = Ok ids /\
    tabs (getAccessibleHostIDs E userID w).2 = tabs w /\
    (userID <> 0 -> exists l, ids = Some l /\
       (forall h, h ∈ l -> h ∈ accessible_of (tabs w) userID) /\
       (up E -> l = accessible_of (tabs w) userID)).
Proof.
  unfold getAccessibleHostIDs. destruct (Z.eqb_spec userID 0) as [->|Hu].
  { exists None. repeat split; try done. }
  rewrite tried_bind. pose proof (accessible_computes E userID) as Hc. eexists.
  split; [done|]. split; [by apply (computes_tabs _ _ _ _ Hc)|]. intros _. eexists. split; [done|].
  split.
  - intros h. destruct (GetUserAccessibleHostIDs E userID w).1 as [ids|e] eqn:Hi.
    + by apply (computes_Ok _ _ _ _ _ Hc) in Hi as ->.
    + by intros ?%elem_of_nil.
  - intros Hup. by rewrite (computes_up _ _ _ w Hc Hup).
Qed.

(** What follows a step that answers. *)
Lemma answered_step {A B} (m : handler access_world A) (k : A -> handler access_world B) w a :
  (m w).1 = Ok a -> (m ≫= k) w = k a (m w).2.
Proof. unfold mbind, handler_bind. destruct (m w) as [r w']. simpl. by intros ->. Qed.

Lemma host_List_spec E q groupIDs accessible w l n w' :
  host_List E q groupIDs accessible w = (Ok (l, n), w') ->
  forall h, h ∈ l -> h ∈ live_hosts (tabs w) /\ host_matches q groupIDs accessible h = true.
Proof.
  assert (Hf : forall off lim (k x : list Host), paged off lim k = Ok x -> forall h, h ∈ x -> h ∈ k).
  { intros off lim k x. unfold paged. repeat case_match; try done; intros <-%Ok_eq h; [|done].
    intros Hh. eapply elem_of_sublist; [exact Hh|].
    etrans; [apply sublist_take | apply sublist_drop]. }
  set (found := fun t => order_by (fun h => - ho_ID h)
    (List.filter (host_matches q groupIDs accessible) (live_hosts t))).
  assert (Hm : host_List E q groupIDs accessible w = (Ok (l, n), w') -> accessible = Some [] \/
    exists off lim, paged off lim (found (tabs w)) = Ok l).
  { unfold host_List. intros H. destruct accessible as [[|a ids]|]; [by left|right..];
      apply h_bind_Ok in H as (tot & w1 & H1 & H);
      apply h_bind_Ok in H as (hs & w2 & H2 & H);
      apply pair_eq in H as [H _]; apply Ok_eq in H; apply pair_eq in H as [<- _];
      (assert (Ht : tabs w1 = tabs w)
         by (revert H1; unfold query, statement; case_match; by intros [= _ <-]));
      rewrite <- Ht; revert H2; unfold statement; case_match; try done;
      intros H2; apply pair_eq in H2 as [H2 _]; eauto. }
  intros H h Hh. destruct (Hm H) as [->|(off & lim & Hp)].
  - apply pair_eq in H as [H _]. apply Ok_eq in H. apply pair_eq in H as [<- _]. by apply elem_of_nil in Hh.
  - apply (Hf _ _ _ _ Hp) in Hh. unfold found in Hh. rewrite order_by_perm in Hh.
    by apply filter_elem in Hh.
Qed.
End facts.

Section claims.
Context `{L : AccessLib}.
Implicit Types (E : conn) (w : access_world) (t : tables).

(** A list of hosts, whatever its filters and whatever the database
    refuses on the way, shows a signed-in user only live hosts that he may
    reach; with a group, only hosts of that group or of a group below it. *)
Theorem listed_hosts_accessible E fuel userID q w l n :
  userID <> 0 -> host_keyed (tabs w) ->
  (ListHosts E fuel userID q w).1 = Ok (Success (Some (l, n))) ->
  forall h, h ∈ l ->
    h ∈ hosts (tabs w) /\ ho_Deleted h = false /\
    (admin_of (tabs w) userID \/ exists p, holds (tabs w) userID (ho_ID h) p) /\
    forall g, hq_groupID q = Some g -> 0 < g ->
      ho_GroupID h = g \/
      exists d, below ag_ID ag_ParentID (live_groups (tabs w)) g d /\ ag_ID d = ho_GroupID h.
Proof.
  intros Hu Hk. destruct (getAccessibleHostIDs_run E userID w) as (ids & Hi & Ht & Hids).
  destruct (Hids Hu) as (acc & -> & Hacc & _). unfold ListHosts.
  rewrite (answered_step _ _ w _ Hi). rewrite <- Ht in *.
  set (w1 := (getAccessibleHostIDs E userID w).2) in *. intros Hl.
  destruct (answered _ _ _ w1) as [r w'] eqn:Ha in Hl.
  apply answered_cases in Ha as (x & Hx & ->). apply Ok_eq in Hl.
  destruct x as [x|e]; [|done]. injection Hl as Hl. unfold id in Hl. subst x.
  apply h_bind_Ok in Hx as (gids & w2 & Hg & Hx).
  assert (Hs : tabs w2 = tabs w1 /\ forall gs g, gids = Some gs -> hq_groupID q = Some g -> 0 < g ->
    gs <> [] /\ forall i, i ∈ gs -> i = g \/
      exists d, below ag_ID ag_ParentID (live_groups (tabs w1)) g d /\ ag_ID d = i).
  { revert Hg. destruct (hq_groupID q) as [g|]; [|by intros [= <- <-]].
    destruct (Z.ltb_spec 0 g); [|intros [= <- <-]; split; [done|]; intros ? ? ? [= <-] ?; lia].
    unfold mbind, handler_bind. rewrite tried_eq. intros Hr.
    pose proof (getChildren_computes E fuel g) as Hc.
    apply pair_eq in Hr as [Hr <-]. apply Ok_eq in Hr. split; [by apply (computes_tabs _ _ _ _ Hc)|].
    intros gs g' -> [= <-] _. destruct (GetDescendantIDs E fuel g w1).1 as [[ds|]|e] eqn:Hd; try done.
    - injection Hr as <-. split; [done|]. intros i [->|Hin]%elem_of_cons; [by left|]. right.
      apply (computes_Ok _ _ _ _ _ Hc) in Hd. symmetry in Hd.
      by apply (descend_members _ _ _ _ _ _ _ Hd).
    - injection Hr as <-. split; [done|]. intros i ->%list_elem_of_singleton. by left. }
  destruct Hs as [Ht2 Hgs]. rewrite <- Ht2 in *. destruct gids as [gs|]; [|done].
  apply h_bind_Ok in Hx as ([l' n'] & w3 & Hx & Hr). apply pair_eq in Hr as [Hr _]. apply Ok_eq in Hr.
  injection Hr as -> ->.
  intros h Hh. destruct (host_List_spec _ _ _ _ _ _ _ _ Hx _ Hh) as [Hlive Hm].
  apply filter_elem in Hlive as [Hin Hd%negb_true_iff]. unfold host_matches in Hm.
  rewrite !andb_true_iff in Hm.
  destruct Hm as [[[_ Hgrp] _] Hac]. apply existsb_Zeqb in Hac.
  repeat split; try done.
  - apply may_reach_spec. eapply accessible_of_spec; [exact Hk|]. by apply Hacc.
  - intros g Hq Hpos. destruct (Hgs gs g eq_refl Hq Hpos) as [Hne Hgin].
    apply Hgin, existsb_Zeqb. by rewrite bool_decide_eq_false_2 in Hgrp.
Qed.

(** A job on agents is run on just those of the requested hosts that are
    live and within the reach of the signed-in user, and not at all when none
    is; a refused permission query gives it no host. *)
Theorem agent_job_restricted {A} E empty prefix userID hostIDs (job : list Z -> handler access_world A) w :
  userID <> 0 -> host_keyed (tabs w) ->
  exists l w1, tabs w1 = tabs w /\
    agent_job E empty prefix userID (Ok hostIDs) job w =
      (match l with [] => mret (Failure 403 empty) | _ => answered prefix (job l) id end) w1 /\
    (forall h, h ∈ l -> h ∈ hostIDs /\
       (admin_of (tabs w) userID \/ exists p, holds (tabs w) userID h p) /\
       exists row, row ∈ hosts (tabs w) /\ ho_ID row = h /\ ho_Deleted row = false) /\
    (up E -> forall h, h ∈ hostIDs -> may_reach (tabs w) userID h = true ->
       (exists row, row ∈ hosts (tabs w) /\ ho_ID row = h /\ ho_Deleted row = false) -> h ∈ l).
Proof.
  intros Hu Hk. destruct (getAccessibleHostIDs_run E userID w) as (ids & Hi & Ht & Hids).
  destruct (Hids Hu) as (acc & -> & Hacc & Hup).
  exists (List.filter (fun h => existsb (Z.eqb h) acc) hostIDs), (getAccessibleHostIDs E userID w).2.
  split; [done|]. split; [|split].
  - unfold agent_job, with_body, filterHostIDs. unfold mbind at 1, handler_bind at 1.
    rewrite (answered_step _ _ w _ Hi). simpl. by case_match.
  - intros h [Hin Hx%existsb_Zeqb]%filter_elem. split; [done|].
    apply Hacc in Hx. apply (accessible_of_spec _ _ _ Hk) in Hx as [Hr Hrow].
    split; [by apply may_reach_spec | done].
  - intros Hall h Hin Hr Hrow. apply filter_elem. split; [done|]. apply existsb_Zeqb.
    rewrite (Hup Hall). by apply accessible_of_spec.
Qed.

(** The handler that changes a group takes the group itself as its
    parent; after that a list of hosts of this group is never answered,
    whatever the fuel: the recursion over the descendants has no end. *)
Theorem self_parent_group_diverges E idStr g req w :
  up E -> 0 < ag_ID g -> parse_id idStr = Some (ag_ID g) -> ag_ParentID req = ag_ID g ->
  g ∈ rows (groups (tabs w)) -> ag_Deleted g = false ->
  exists req' w', UpdateGroup E idStr (Ok req) w = (Ok (Success req'), w') /\
    forall fuel userID q, hq_groupID q = Some (ag_ID g) ->
      (ListHosts E fuel userID q w').1 = Ok (Success None).
Proof.
  intros Hup Hpos Hid Hpar Hin Hd. set (req' := group_with_id (ag_ID g) req).
  destruct (exec_up E (fun t => set_groups (with_rows
    (change (fun g => (ag_ID g =? ag_ID req') && negb (ag_Deleted g)) (updated_group req')
      (rows (groups t))) (groups t)) t) w Hup) as (w' & Hw & Ht).
  exists req', w'. split.
  { unfold UpdateGroup, with_id_param, with_body. rewrite Hid.
    apply (answered_success _ _ (fun _ : unit => req') w tt). unfold group_Update.
    destruct (Z.eqb_spec (ag_ID (group_with_id (ag_ID g) req)) 0) as [H|_]; [simpl in H; lia | exact Hw]. }
  intros fuel userID q Hq. set (g' := updated_group req' g).
  assert (Hne : (ag_ID g =? 0) = false) by (apply Z.eqb_neq; lia).
  assert (Hb : below ag_ID ag_ParentID (live_groups (tabs w')) (ag_ID g') g').
  { apply below_child; [|simpl; rewrite Hpar; unfold nonzero_or; by rewrite Hne].
    unfold live_groups. apply filter_elem. simpl. rewrite Hd. split; [|done].
    rewrite Ht. simpl. apply list_elem_of_fmap. exists g. rewrite Z.eqb_refl, Hd. by split. }
  destruct (getAccessibleHostIDs_run E userID w') as (ids & Hi & Hta & _).
  unfold ListHosts. rewrite (answered_step _ _ w' _ Hi). rewrite <- Hta in Hb.
  set (w1 := (getAccessibleHostIDs E userID w').2) in *.
  pose proof (descendants_diverge E fuel g' w1 Hup Hb) as Hdv. simpl in Hdv.
  unfold answered. rewrite tried_bind. unfold usecase_List. rewrite Hq.
  apply Z.ltb_lt in Hpos. rewrite Hpos. unfold mbind, handler_bind. rewrite tried_eq.
  rewrite Hdv. done.
Qed.
End claims.
