(* ===== verification/InstanceFacts.v ===== *)
(** * Access: database instances

    What the check of an instance answers, that the lists agree with it, and
    what a controlled write needs before it reaches a database. *)

From Stdlib Require Import ZArith Lia.
From stdpp Require Import base tactics option list numbers.
From S2P Require Import Prelude GoStrings GoNumbers SqlSafety WriteExec ParentTree AccessModel.
From S2P Require Import HostGrants AccessControl InstanceAccess AccessFacts GrantFacts.
From S2P Require Import DdlExec RoleFacts.

Open Scope Z_scope.

Section facts.
Context `{U : UnicodeTables} `{L : AccessLib}.
Implicit Types (E : conn) (w : access_world) (t : tables).

(** ** What the rows say *)
Definition live_admin t (userID : Z) : Prop := exists r role,
  (userID, r) ∈ user_roles t /\ role ∈ rows (roles t) /\ ro_ID role = r /\
  code_key (ro_Code role) = code_key $"admin" /\ ro_Status role = 1 /\ ro_Deleted role = false.

(** A live grant of a live role of the user. *)
Definition instance_holds t (userID : Z) (p : DatabaseInstancePermission) : Prop :=
  p ∈ rows (instance_grants t) /\ ip_Deleted p = false /\ (userID, ip_RoleID p) ∈ user_roles t /\
  exists role, role ∈ rows (roles t) /\ ro_ID role = ip_RoleID p /\
    ro_Status role = 1 /\ ro_Deleted role = false.

Definition has_rules t : Prop := exists p, p ∈ rows (instance_grants t) /\ ip_Deleted p = false.

(** Who may do something of [required] on an instance: everybody in the
    compatibility mode (no "whitelist", no live rule), else administrators and
    the holders of a live grant. *)
Definition may_use t (whitelist : bool) (userID instanceID required : Z) : Prop :=
  (whitelist = false /\ ~ has_rules t) \/ live_admin t userID \/
  exists p, instance_holds t userID p /\ ip_InstanceID p = instanceID /\
    Z.land (ip_Permissions p) required <> 0.

Definition has_rules_b t : bool :=
  0 <? Count (List.filter (fun p => negb (ip_Deleted p)) (rows (instance_grants t))).
Definition live_admin_b t (userID : Z) : bool :=
  if userID =? 0 then false else 0 <? Count (live_admin_rows t userID).
Definition instance_mask t (userID instanceID : Z) : Z :=
  fold_left Z.lor ((fun x => ip_Permissions x.1.1) <$>
    List.filter (fun x => ip_InstanceID x.1.1 =? instanceID) (instance_rows t userID)) 0.
Definition reachable_instances t (userID required : Z) : list Z :=
  remove_dups ((fun x => ip_InstanceID x.1.1) <$>
    List.filter (fun x => if 0 <? required then 0 <? Z.land (ip_Permissions x.1.1) required
                          else 0 <? ip_Permissions x.1.1) (instance_rows t userID)).

Lemma has_rules_spec t : has_rules_b t = true <-> has_rules t.
Proof.
  unfold has_rules_b, has_rules. rewrite Count_pos. split; intros [p Hp]; exists p.
  - apply filter_elem in Hp as [Hp Hd%negb_true_iff]. by split.
  - apply filter_elem. destruct Hp as [Hp ->]. by split.
Qed.

Lemma live_role_spec r : live_role r = true <-> ro_Status r = 1 /\ ro_Deleted r = false.
Proof. unfold live_role. by rewrite andb_true_iff, Z.eqb_eq, negb_true_iff. Qed.

Lemma live_admin_spec t userID : userID <> 0 -> live_admin_b t userID = true <-> live_admin t userID.
Proof.
  intros Hu%Z.eqb_neq. unfold live_admin_b. rewrite Hu, Count_pos. unfold live_admin_rows, admin_rows.
  split.
  - intros ([[u r] role] & Hx). apply filter_elem in Hx as [Hx Hl%live_role_spec].
    apply filter_elem in Hx as [Hx Hc]. simpl in Hc. bsimpl. subst u.
    apply join_elem in Hx as (Hur & Hr & Ho%Z.eqb_eq). exists r, role. tauto.
  - intros (r & role & Hur & Hr & <- & Hk & Hl). exists ((userID, ro_ID role), role).
    apply filter_elem. split; [|by apply live_role_spec].
    apply filter_elem. split; [apply join_elem; simpl; by rewrite Z.eqb_refl|].
    simpl. rewrite Z.eqb_refl. by apply bool_decide_eq_true.
Qed.

Lemma instance_rows_spec t userID p :
  (exists x, x ∈ instance_rows t userID /\ x.1.1 = p) <-> instance_holds t userID p.
Proof.
  unfold instance_rows, instance_holds. split.
  - intros ([[q [u r]] role] & Hx & Hq). simpl in Hq. subst q.
    apply filter_elem in Hx as [Hx Hc]. simpl in Hc. rewrite !andb_true_iff in Hc.
    destruct Hc as [[->%Z.eqb_eq Hd%negb_true_iff] [Hs Hl]%live_role_spec].
    apply join_elem in Hx as (Hx & Hr & Ho%Z.eqb_eq). simpl in Hx, Hr, Ho.
    apply join_elem in Hx as (Hp & Hur & Hi%Z.eqb_eq). simpl in *. subst r.
    repeat split; try done. by exists role.
  - intros (Hp & Hd & Hur & role & Hr & Ho & Hs & Hl).
    exists (p, (userID, ip_RoleID p), role). split; [|done]. apply filter_elem. split.
    + apply join_elem. simpl. rewrite Ho, Z.eqb_refl. split; [|done].
      apply join_elem. simpl. by rewrite Z.eqb_refl.
    + simpl. rewrite Z.eqb_refl, Hd. by apply live_role_spec.
Qed.

(** A fold of [Z.lor] has a bit of [op] when a part has. *)
Lemma fold_lor_land l a op :
  Z.land (fold_left Z.lor l a) op <> 0 <-> Z.land a op <> 0 \/ exists m, m ∈ l /\ Z.land m op <> 0.
Proof.
  revert a. induction l as [|m l IH]; intros a; simpl.
  - split; [by left | intros [?|(m & ?%elem_of_nil & _)]; done].
  - rewrite IH, Z.land_lor_distr_l.
    assert (H : Z.lor (Z.land a op) (Z.land m op) <> 0 <-> Z.land a op <> 0 \/ Z.land m op <> 0)
      by (rewrite Z.lor_eq_0_iff; lia).
    rewrite H. setoid_rewrite elem_of_cons. naive_solver.
Qed.

Lemma instance_mask_spec t userID instanceID required :
  Z.land (instance_mask t userID instanceID) required <> 0 <->
  exists p, instance_holds t userID p /\ ip_InstanceID p = instanceID /\
    Z.land (ip_Permissions p) required <> 0.
Proof.
  unfold instance_mask. rewrite fold_lor_land, Z.land_0_l. setoid_rewrite <- instance_rows_spec. split.
  - intros [?|(m & Hm & Hl)]; [done|]. apply list_elem_of_fmap in Hm as (x & -> & Hx).
    apply filter_elem in Hx as [Hx Hi%Z.eqb_eq]. exists x.1.1. eauto 10.
  - intros (p & (x & Hx & <-) & Hi & Hl). right. exists (ip_Permissions x.1.1). split; [|done].
    apply list_elem_of_fmap. exists x. split; [done|]. apply filter_elem. by rewrite Hi, Z.eqb_refl.
Qed.

Lemma reachable_instances_spec t userID required i :
  Forall (fun p => 0 <= ip_Permissions p) (rows (instance_grants t)) -> 0 < required ->
  i ∈ reachable_instances t userID required <->
  exists p, instance_holds t userID p /\ ip_InstanceID p = i /\
    Z.land (ip_Permissions p) required <> 0.
Proof.
  intros Hg Hr%Z.ltb_lt. unfold reachable_instances. rewrite elem_of_remove_dups, list_elem_of_fmap, Hr.
  rewrite list.Forall_forall in Hg. setoid_rewrite <- instance_rows_spec.
  split.
  - intros (x & -> & Hx). apply filter_elem in Hx as [Hx Hl%Z.ltb_lt].
    exists x.1.1. split; [by exists x|]. split; [done|]. lia.
  - intros (p & (x & Hx & <-) & <- & Hl). exists x. split; [done|]. apply filter_elem. split; [done|].
    rewrite land_pos; [by apply negb_true_iff, Z.eqb_neq|]. apply Hg.
    by destruct (proj1 (instance_rows_spec t userID x.1.1)); [exists x|].
Qed.

(** ** What the code computes *)
Lemma HasAnyRules_computes E : computes E (HasAnyRules E) has_rules_b.
Proof.
  eapply computes_bind_eq; [apply computes_query | intros c; refine (computes_ret _ _) | done].
Qed.
Lemma IsAdmin_computes E userID : computes E (IsAdmin E userID) (fun t => live_admin_b t userID).
Proof.
  unfold IsAdmin, live_admin_b. destruct (userID =? 0); [refine (computes_ret _ _)|].
  eapply computes_bind_eq; [apply computes_query | intros c; refine (computes_ret _ _) | done].
Qed.
Lemma instance_mask_computes E userID instanceID : userID <> 0 -> instanceID <> 0 ->
  computes E (GetUserInstancePermissions E userID instanceID)
    (fun t => if live_admin_b t userID then DatabasePermissionAll else instance_mask t userID instanceID).
Proof.
  intros Hu%Z.eqb_neq Hi%Z.eqb_neq. unfold GetUserInstancePermissions. rewrite Hu, Hi. simpl.
  eapply (computes_bind_eq _ _ _ _ (fun b t => if (b : bool) then DatabasePermissionAll
    else instance_mask t userID instanceID)); [apply IsAdmin_computes| |done].
  intros []; [refine (computes_ret _ _)|].
  eapply computes_bind_eq; [apply computes_query | intros c; refine (computes_ret _ _) | done].
Qed.
Lemma ids_computes E userID required : userID <> 0 ->
  computes E (GetUserAccessibleInstanceIDs E userID required)
    (fun t => if live_admin_b t userID
              then in_ID <$> List.filter (fun i => negb (in_Deleted i)) (instances t)
              else reachable_instances t userID required).
Proof.
  intros Hu%Z.eqb_neq. unfold GetUserAccessibleInstanceIDs. rewrite Hu.
  eapply (computes_bind_eq _ _ _ _ (fun b t => if (b : bool)
    then in_ID <$> List.filter (fun i => negb (in_Deleted i)) (instances t)
    else reachable_instances t userID required)); [apply IsAdmin_computes| |done].
  intros []; apply computes_query.
Qed.

(** A computation that answers, or a refused statement. *)
Lemma tried_run {A B} E (m : handler access_world A) f (k : result A -> handler access_world B) w :
  computes E m f -> exists w1, tabs w1 = tabs w /\
    ((tried m ≫= k) w = k (Ok (f (tabs w))) w1 \/
     (~ up E /\ exists e, (tried m ≫= k) w = k (Err e) w1)).
Proof.
  intros Hc. exists (m w).2. destruct (Hc w) as [Ht Hr]. split; [done|]. rewrite tried_bind.
  destruct Hr as [->|[[e ->] Hn]]; [by left | right; eauto].
Qed.

Lemma or_reply_run {A B} E (m : handler access_world A) f (r : reply B) k w :
  computes E m f -> exists w1, tabs w1 = tabs w /\
    (or_reply m r k w = k (f (tabs w)) w1 \/ (~ up E /\ or_reply m r k w = (Ok r, w1))).
Proof.
  intros Hc. destruct (tried_run E m f (fun a => match a with Ok a => k a | Err _ => mret r end) w Hc)
    as (w1 & Ht & [H|(Hn & e & H)]); exists w1; split; try done; [by left | by right].
Qed.

Ltac ask H w1 Ht := match goal with
  | |- context [or_reply ?m ?r ?k ?w] =>
    edestruct (or_reply_run _ m _ r k w H) as (w1 & Ht & [->|[Hn ->]])
  | |- context [(tried ?m ≫= ?k) ?w] =>
    edestruct (tried_run _ m _ k w H) as (w1 & Ht & [->|(Hn & e & ->)])
  end.

Ltac refused w := eexists _, w; split; [done|]; split; [congruence | by right; right].

(** The mode that a configuration stands for. *)
Definition whitelist_b (mode : result gostring) : bool :=
  match databasePermissionMode mode with Ok m => bool_decide (m = $"whitelist") | Err _ => false end.

Definition scope_ok t (mode : result gostring) (userID required : Z)
    (sc : databasePermissionScope) : Prop :=
  userID <> 0 /\ sc_userID sc = userID /\ (exists m, mode = Ok m) /\
  sc_admin sc = live_admin_b t userID /\
  sc_enforced sc = has_rules_b t || whitelist_b mode /\
  (sc_enforced sc = true -> sc_admin sc = false ->
     sc_allowedIDs sc = reachable_instances t userID required).

Lemma permission_scope_run E mode userID required w :
  exists r w', permission_scope E mode userID required w = (Ok r, w') /\ tabs w' = tabs w /\
    match r with
    | Success sc => scope_ok (tabs w) mode userID required sc
    | Failure _ _ => userID = 0 \/ (exists e, mode = Err e) \/ ~ up E
    end.
Proof.
  unfold permission_scope. destruct (Z.eqb_spec userID 0) as [->|Hu]; [by eexists _, w; auto|].
  ask (HasAnyRules_computes E) w1 H1; [|refused w1].
  unfold databasePermissionMode. destruct mode as [mode|e]; [|eexists _, w1; split; [done|]; split; [done|]; right; left; by exists e].
  simpl. set (m := if bool_decide _ then _ else _).
  ask (IsAdmin_computes E userID) w2 H2; [|refused w2].
  rewrite H1 in *.
  assert (Hwl : whitelist_b (Ok mode) = bool_decide (m = $"whitelist")) by done.
  assert (Hok : forall b ids, b = has_rules_b (tabs w) || whitelist_b (Ok mode) ->
    (b = true -> live_admin_b (tabs w) userID = false -> ids = reachable_instances (tabs w) userID required) ->
    scope_ok (tabs w) (Ok mode) userID required {| sc_enforced := b;
      sc_admin := live_admin_b (tabs w) userID; sc_userID := userID; sc_allowedIDs := ids |}).
  { intros b ids Hb Hids. unfold scope_ok. simpl. eauto 10. }
  destruct (negb (has_rules_b (tabs w)) && negb (bool_decide (m = $"whitelist"))) eqn:He.
  - eexists _, w2. split; [done|]. split; [done|]. apply Hok; [|done]. rewrite Hwl.
    destruct (has_rules_b (tabs w)), (bool_decide (m = $"whitelist")); done.
  - assert (Hb : true = has_rules_b (tabs w) || whitelist_b (Ok mode)).
    { rewrite Hwl. destruct (has_rules_b (tabs w)), (bool_decide (m = $"whitelist")); done. }
    destruct (live_admin_b (tabs w) userID) eqn:Ha.
    + eexists _, w2. split; [done|]. split; [done|]. by apply Hok.
    + ask (ids_computes E userID required Hu) w3 H3; [|refused w3].
      rewrite H2 in *. eexists _, w3. split; [done|]. split; [done|].
      rewrite Ha in *. by apply Hok.
Qed.

(** The verdict on an instance. *)
Lemma ensure_run E mode userID instanceID required w : instanceID <> 0 ->
  exists v w', ensureInstancePermission E mode userID instanceID required w = (Ok v, w') /\
    tabs w' = tabs w /\
    (v = Next -> userID <> 0 /\ (exists m, mode = Ok m) /\
       ((has_rules_b (tabs w) || whitelist_b mode) = false \/ live_admin_b (tabs w) userID = true \/
        Z.land (instance_mask (tabs w) userID instanceID) required <> 0)) /\
    (up E -> userID <> 0 -> (exists m, mode = Ok m) ->
       (has_rules_b (tabs w) || whitelist_b mode) = false \/ live_admin_b (tabs w) userID = true \/
       Z.land (instance_mask (tabs w) userID instanceID) required <> 0 -> v = Next).
Proof.
  intros Hi. unfold ensureInstancePermission. apply Z.eqb_neq in Hi as Hi'. rewrite Hi'.
  destruct (permission_scope_run E mode userID required w) as (r & w1 & Hs & Ht & Hr).
  unfold mbind at 1, handler_bind at 1. rewrite Hs. destruct r as [sc|code message].
  2: { exists (Halt code message), w1. repeat split; try done. intros Hup Hu [m Hm] _.
       destruct Hr as [?|[[e He]|?]]; [done | congruence | done]. }
  destruct Hr as (Hu & Hid & Hm & Ha & He & _). rewrite Hid, He, Ha.
  destruct (has_rules_b (tabs w) || whitelist_b mode) eqn:Hen; simpl.
  2: { exists Next, w1. repeat split; auto. }
  destruct (live_admin_b (tabs w) userID) eqn:Hadm; simpl.
  { exists Next, w1. repeat split; auto. }
  ask (instance_mask_computes E userID instanceID Hu Hi) w2 H2; rewrite ?Ht, ?Hadm in *.
  - eexists _, w2. split; [done|]. split; [done|]. simpl.
    destruct (Z.eqb_spec (Z.land (instance_mask (tabs w) userID instanceID) required) 0) as [Hz|Hz].
    + split; [done|]. intros _ _ _ [?|[?|?]]; done.
    + split; [|done]. repeat split; auto.
  - eexists _, w2. split; [done|]. split; [done|]. split; done.
Qed.

Lemma may_use_b t mode userID instanceID required : userID <> 0 ->
  may_use t (whitelist_b mode) userID instanceID required <->
  (has_rules_b t || whitelist_b mode) = false \/ live_admin_b t userID = true \/
  Z.land (instance_mask t userID instanceID) required <> 0.
Proof.
  intros Hu. unfold may_use. rewrite live_admin_spec, instance_mask_spec by done.
  pose proof (has_rules_spec t) as H. rewrite orb_false_iff, <- H.
  apply or_iff_compat_r. split.
  - intros [Hw Hn]. split; [by apply not_true_is_false | done].
  - intros [Hn Hw]. split; [done | congruence].
Qed.
End facts.

Section changes.
Context `{U : UnicodeTables} `{L : AccessLib}.
Implicit Types (E : conn) (w : access_world) (t : tables).

Lemma or_database_error_Success {A B} status prefix (m : handler access_world A)
    (k : A -> handler access_world (reply B)) w b w' :
  or_database_error status prefix m k w = (Ok (Success b), w') ->
  exists a w1, m w = (Ok a, w1) /\ k a w1 = (Ok (Success b), w').
Proof.
  unfold or_database_error. rewrite tried_bind. destruct (m w) as [[a|e] w1]; [|done].
  intros H. by exists a, w1.
Qed.

Lemma h_map_err_Ok {A} f (m : handler access_world A) w a w' :
  h_map_err f m w = (Ok a, w') -> m w = (Ok a, w').
Proof. unfold h_map_err. destruct (m w) as [[x|e] w1]; [by intros [= <- <-]|done]. Qed.

Lemma query_Ok {A} E (f : tables -> A) w a w' :
  query E f w = (Ok a, w') -> a = f (tabs w) /\ tabs w' = tabs w.
Proof. unfold query, statement. destruct (E (steps w)); by intros [= <- <-]. Qed.

Lemma ValidateTarget_Ok E roleID instanceID w u w' :
  ValidateTarget E roleID instanceID w = (Ok u, w') ->
  tabs w' = tabs w /\ roleID <> 0 /\ instanceID <> 0 /\
  (exists r, r ∈ rows (roles (tabs w)) /\ ro_ID r = roleID /\ ro_Status r = 1 /\ ro_Deleted r = false) /\
  (exists i, i ∈ instances (tabs w) /\ in_ID i = instanceID /\ in_Deleted i = false).
Proof.
  unfold ValidateTarget. destruct (Z.eqb_spec roleID 0); [done|].
  destruct (Z.eqb_spec instanceID 0); [done|]. intros H.
  apply h_bind_Ok in H as (c & w1 & [Hc H1]%h_map_err_Ok%query_Ok & H).
  destruct (Z.eqb_spec c 0) as [|Hcn]; [done|].
  apply h_bind_Ok in H as (c' & w2 & [Hc' H2]%h_map_err_Ok%query_Ok & H).
  destruct (Z.eqb_spec c' 0) as [|Hcn']; [done|]. injection H as _ <-. rewrite H1 in *.
  assert (Hpos : forall A (l : list A), Count l <> 0 -> exists x, x ∈ l).
  { intros A [|x l] Hl; [done|]. exists x. by left. }
  repeat split; try done.
  - rewrite Hc in Hcn. apply Hpos in Hcn as [r Hr]. exists r.
    apply filter_elem in Hr as [Hr Hx]. rewrite andb_true_iff, Z.eqb_eq, live_role_spec in Hx. tauto.
  - rewrite Hc' in Hcn'. apply Hpos in Hcn' as [i Hi]. exists i.
    apply filter_elem in Hi as [Hi Hx]. rewrite andb_true_iff, Z.eqb_eq, negb_true_iff in Hx. tauto.
Qed.

Lemma scanPermissionVO_Ok E p w g w' : scanPermissionVO E p w = (Ok g, w') -> tabs w' = tabs w.
Proof. by intros [_ ?]%query_Ok. Qed.
Lemma GetByRoleInstance_Ok E roleID instanceID w g w' :
  GetByRoleInstance E roleID instanceID w = (Ok g, w') -> tabs w' = tabs w.
Proof. unfold GetByRoleInstance. case_match; [by intros [= _ <-] | apply scanPermissionVO_Ok]. Qed.

(** The key of the unique index. *)
Definition grant_key (g : DatabaseInstancePermission) : Z * Z := (ip_RoleID g, ip_InstanceID g).

Lemma of_role_instance_spec roleID instanceID g :
  of_role_instance roleID instanceID g = true <-> grant_key g = (roleID, instanceID).
Proof.
  unfold of_role_instance, grant_key. rewrite andb_true_iff, !Z.eqb_eq. split; [by intros [-> ->]|].
  by intros [= -> ->].
Qed.

Definition upserted (roleID instanceID permissions : Z) (g : DatabaseInstancePermission) : Prop :=
  grant_key g = (roleID, instanceID) /\ ip_Permissions g = permissions /\ ip_Deleted g = false.

Lemma Upsert_Ok E roleID instanceID permissions w u w' :
  Upsert E roleID instanceID permissions w = (Ok u, w') ->
  (exists g, g ∈ rows (instance_grants (tabs w')) /\ upserted roleID instanceID permissions g) /\
  (forall g, g ∈ rows (instance_grants (tabs w')) ->
     upserted roleID instanceID permissions g \/
     (g ∈ rows (instance_grants (tabs w)) /\ grant_key g <> (roleID, instanceID))) /\
  (forall g, g ∈ rows (instance_grants (tabs w)) -> grant_key g <> (roleID, instanceID) ->
     g ∈ rows (instance_grants (tabs w'))) /\
  (NoDup (grant_key <$> rows (instance_grants (tabs w))) ->
     NoDup (grant_key <$> rows (instance_grants (tabs w')))) /\
  user_roles (tabs w') = user_roles (tabs w) /\ roles (tabs w') = roles (tabs w).
Proof.
  intros [Ht _]%exec_if_Ok. rewrite Ht. simpl. set (old := rows (instance_grants (tabs w))).
  set (mine := of_role_instance roleID instanceID).
  assert (Hmine : forall g, mine g = true <-> grant_key g = (roleID, instanceID))
    by apply of_role_instance_spec.
  destruct (existsb mine old) eqn:He; simpl; unfold change.
  - apply existsb_elem in He as (g0 & Hg0 & H0). repeat split.
    + eexists. split; [apply list_elem_of_fmap; exists g0; split; [done | exact Hg0]|].
      rewrite H0. split; [exact (proj1 (Hmine _) H0) | done].
    + intros g (x & -> & Hx)%list_elem_of_fmap. destruct (mine x) eqn:Hm.
      * left. split; [exact (proj1 (Hmine _) Hm) | done].
      * right. split; [done|]. intros Hk%Hmine. congruence.
    + intros g Hg Hk. apply list_elem_of_fmap. exists g. split; [|done].
      destruct (mine g) eqn:Hm; [|done]. by apply Hmine in Hm.
    + rewrite <- list_fmap_compose. intros Hn. erewrite list_fmap_ext; [exact Hn|].
      intros i x _. simpl. by destruct (mine x).
  - apply not_true_iff_false in He. rewrite existsb_elem in He. repeat split.
    + eexists. split; [apply elem_of_app; right; by apply list_elem_of_singleton|]. by repeat split.
    + intros g [Hg|Hg]%elem_of_app.
      * right. split; [done|]. intros Hk%Hmine. apply He. by exists g.
      * left. apply list_elem_of_singleton in Hg as ->. by repeat split.
    + intros g Hg _. apply elem_of_app. by left.
    + intros Hn. rewrite fmap_app. simpl. apply list.NoDup_app. split; [done|].
      split; [|apply NoDup_singleton]. intros k Hk ->%list_elem_of_singleton.
      apply list_elem_of_fmap in Hk as (g & Hk & Hg). apply He. exists g. split; [done|]. by apply Hmine.
Qed.
End changes.

Section claims.
Context `{U : UnicodeTables} `{L : AccessLib}.
Implicit Types (E : conn) (w : access_world) (t : tables).

(** The check of an instance lets a request through only when the mode is
    readable and its user is signed in and is a live administrator, or has a
    live grant with a bit of the operation through a live role, or there is no
    rule at all outside the mode whitelist; and then it does whenever the
    database answers. It changes nothing. *)
Theorem instance_check_exact E mode userID instanceID required w :
  instanceID <> 0 ->
  exists v w', ensureInstancePermission E mode userID instanceID required w = (Ok v, w') /\
    tabs w' = tabs w /\
    (v = Next -> userID <> 0 /\ (exists m, mode = Ok m) /\
       may_use (tabs w) (whitelist_b mode) userID instanceID required) /\
    (up E -> userID <> 0 -> (exists m, mode = Ok m) ->
       may_use (tabs w) (whitelist_b mode) userID instanceID required -> v = Next).
Proof.
  intros Hi. destruct (ensure_run E mode userID instanceID required w Hi) as (v & w' & He & Ht & H1 & H2).
  exists v, w'. split; [done|]. split; [done|]. split.
  - intros Hv. destruct (H1 Hv) as (Hu & Hm & H). repeat split; try done. by apply may_use_b.
  - intros Hup Hu Hm H%may_use_b; [|done]. by apply H2.
Qed.

(** C26: the instances a list shows are those its check would let through: a
    live instance is kept by the filter of the scope just when the check of an
    instance passes. *)
Theorem instance_list_matches_check E mode userID required w sc w1 (l : list instance_row) :
  up E -> 0 < required -> Forall (fun p => 0 <= ip_Permissions p) (rows (instance_grants (tabs w))) ->
  permission_scope E mode userID required w = (Ok (Success sc), w1) ->
  (forall i, i ∈ l -> in_ID i <> 0) ->
  forall i, i ∈ l ->
    i ∈ (let '(restricted, ids) := applyAllowedInstanceScope sc in
         applyAllowedInstanceFilter in_ID restricted ids l) <->
    (ensureInstancePermission E mode userID (in_ID i) required w).1 = Ok Next.
Proof.
  intros Hup Hr Hg Hs Hnz i Hi.
  destruct (permission_scope_run E mode userID required w) as (r & w1' & Hs' & _ & Hsc).
  rewrite Hs in Hs'. injection Hs' as <- <-. destruct Hsc as (Hu & _ & Hm & Ha & He & Hids).
  destruct (ensure_run E mode userID (in_ID i) required w (Hnz i Hi)) as (v & w' & Hv & _ & H1 & H2).
  rewrite Hv. simpl.
  assert (Hiff : Ok v = Ok Next <-> (has_rules_b (tabs w) || whitelist_b mode) = false \/
    live_admin_b (tabs w) userID = true \/
    Z.land (instance_mask (tabs w) userID (in_ID i)) required <> 0).
  { split; [by intros (_ & _ & H)%Ok_eq%H1 | intros H; f_equal; by apply H2]. }
  rewrite Hiff. unfold applyAllowedInstanceScope. rewrite He, Ha.
  destruct (has_rules_b (tabs w) || whitelist_b mode) eqn:Hen; simpl; [|tauto].
  destruct (live_admin_b (tabs w) userID) eqn:Hadm; simpl; [tauto|].
  rewrite (Hids He Ha). rewrite instance_mask_spec.
  pose proof (reachable_instances_spec (tabs w) userID required (in_ID i) Hg Hr) as Hrs.
  unfold applyAllowedInstanceFilter.
  destruct (reachable_instances (tabs w) userID required) as [|a ids] eqn:Hl; cbv beta iota delta [negb].
  - rewrite <- Hrs. split; [by intros ?%elem_of_nil | intros [?|[?|?%elem_of_nil]]; done].
  - rewrite filter_elem, existsb_Zeqb, Hrs. split; [intros [_ H]; by right; right|].
    by intros [?|[?|H]].
Qed.

(** The rules of backup alerts that are not of a single instance are
    guarded by a scope that nobody reads: whatever the grants and the mode, a
    signed-in user without any grant passes the check. *)
Theorem alert_rule_check_passes E mode userID instanceID w :
  up E -> userID <> 0 ->
  (ensureBackupAlertRulePermission E (Ok mode) userID false instanceID w).1 = Ok Next.
Proof.
  intros Hup Hu. unfold ensureBackupAlertRulePermission. simpl.
  destruct (permission_scope_run E (Ok mode) userID DatabasePermissionBackup w) as (r & w1 & Hs & _ & Hr).
  unfold mbind, handler_bind. rewrite Hs. destruct r as [sc|code message]; [done|].
  by destruct Hr as [?|[[e ?]|?]].
Qed.

(** Once the control of instances is in force, only administrators and the
    holders of a grant may use an instance. *)
Lemma may_use_controlled t whitelist userID instanceID required :
  may_use t whitelist userID instanceID required ->
  has_rules t \/ whitelist = true ->
  live_admin t userID \/
  exists p, instance_holds t userID p /\ ip_InstanceID p = instanceID /\
    Z.land (ip_Permissions p) required <> 0.
Proof. intros [[-> Hn]|H] [Hr|?]; [by destruct Hn|done|exact H|exact H]. Qed.

(** In the compatibility mode (the mode is not "whitelist" and no rule is
    live) every signed-in user passes the check of every instance. *)
Theorem compatibility_mode_lets_through E mode userID instanceID required w :
  up E -> userID <> 0 -> instanceID <> 0 -> whitelist_b (Ok mode) = false -> ~ has_rules (tabs w) ->
  (ensureInstancePermission E (Ok mode) userID instanceID required w).1 = Ok Next.
Proof.
  intros Hup Hu Hi Hw Hn.
  destruct (ensure_run E (Ok mode) userID instanceID required w Hi) as (v & w' & -> & _ & _ & H2).
  rewrite H2; eauto. apply may_use_b; [done|]. by left.
Qed.

(** A request of the instances' routes runs its operation only behind both
    checks; any other request is refused without touching the databases. *)
Lemma instance_request_guarded {B A} E status mode menu required failed
    (run : Z -> B -> st World (result A)) userID idStr req a (w w' : World) res a' :
  instance_request E status mode menu required failed run userID idStr req (a, w)
    = (res, (a', w')) ->
  (w' = w /\ exists code message, res = Failure code message) \/
  exists id body, parseUintParam idStr = Some id /\ req = Ok body /\ userID <> 0 /\
    menu_permitted (tabs a) userID menu /\
    may_use (tabs a) (whitelist_b mode) userID id required /\
    w' = (run id body w).2 /\ tabs a' = tabs a.
Proof.
  unfold instance_request.
  destruct (RequireMenuPermission E userID menu a) as [[[|code m]|e] a1] eqn:Hm;
    [|intros [= <- <- <-]; left; eauto..].
  apply RequireMenuPermission_Next in Hm as (Ht1 & Hu & Hp).
  destruct (parseUintParam idStr) as [id|] eqn:Hid; [|intros [= <- <- <-]; left; eauto].
  destruct req as [body|e]; [|intros [= <- <- <-]; left; eauto].
  assert (Hnz : id <> 0).
  { unfold parseUintParam in Hid. destruct (parse_id idStr) as [i|]; [|done].
    destruct (Z.eqb_spec i 0); [done|]. congruence. }
  destruct (ensure_run E mode userID id required a1 Hnz)
    as (v & a2 & He & Ht2 & Hv & _). rewrite He.
  destruct v as [|code m]; [|intros [= <- <- <-]; left; eauto].
  destruct (Hv eq_refl) as (_ & _ & Hb). apply may_use_b in Hb; [|done]. rewrite Ht1 in *.
  destruct (run id body w) as [[data|e] w1] eqn:Hx;
    intros [= <- <- <-]; right; exists id, body; by rewrite Hx.
Qed.

(** C6: a controlled write reaches the executor only behind both checks: the
    request has a signed-in user with the menu code, and, once the control of
    instances is in force (the mode is "whitelist" or some rule is live), that
    user is a live administrator or has a live grant, through one of his live
    roles, with the bit of writing on the very instance of the route.  In the
    compatibility mode (another mode and no live rule) the grant is not asked
    for: the menu code alone decides.  Any other request is refused without
    touching the databases. *)
Theorem write_needs_both_checks E (W : Env) status mode operator idStr req a (w w' : World) res a' :
  http_ExecuteWriteQuery E W status mode operator idStr req (a, w) = (res, (a', w')) ->
  (w' = w /\ exists code message, res = Failure code message) \/
  exists id body, parseUintParam idStr = Some id /\ req = Ok body /\
    op_ID operator <> 0 /\
    menu_permitted (tabs a) (op_ID operator) permDatabaseQueryWrite /\
    (has_rules (tabs a) \/ whitelist_b mode = true ->
     live_admin (tabs a) (op_ID operator) \/
     exists p, instance_holds (tabs a) (op_ID operator) p /\ ip_InstanceID p = id /\
       Z.land (ip_Permissions p) DatabasePermissionWrite <> 0) /\
    w' = (ExecuteWriteQuery W id (Some body) operator w).2 /\ tabs a' = tabs a.
Proof.
  intros [H|(id & body & Hid & Hb & Hu & Hm & Huse & Hw)]%instance_request_guarded; [by left|right].
  exists id, body. do 4 (split; [done|]). split; [by apply may_use_controlled|done].
Qed.

(** The same in front of a DDL statement, with its own code and bit. *)
Theorem ddl_needs_both_checks E (W : Env) status mode operator idStr req a (w w' : World) res a' :
  http_ExecuteDDLQuery E W status mode operator idStr req (a, w) = (res, (a', w')) ->
  (w' = w /\ exists code message, res = Failure code message) \/
  exists id body, parseUintParam idStr = Some id /\ req = Ok body /\
    op_ID operator <> 0 /\
    menu_permitted (tabs a) (op_ID operator) permDatabaseQueryDDL /\
    may_use (tabs a) (whitelist_b mode) (op_ID operator) id DatabasePermissionDDL /\
    w' = (ExecuteDDLQuery W id (Some body) operator w).2 /\ tabs a' = tabs a.
Proof. by intros H%instance_request_guarded. Qed.

(** Saving a permission sets exactly the one it names: afterwards the
    role has, on the instance, one live grant with the bits of the mask that
    have a meaning, every other grant is as it was, and a role and an instance
    still have at most one; it succeeds only for a live role, a live instance
    and a mask with such a bit. *)
Theorem instance_permission_saved E status audit roleID instanceID mask w w' :
  (forall before after w1, tabs (audit before after w1).2 = tabs w1) ->
  UpsertInstancePermission status audit E roleID instanceID mask w = (Ok (Success tt), w') ->
  let permissions := Z.land mask DatabasePermissionAll in
  permissions <> 0 /\
  (exists r, r ∈ rows (roles (tabs w)) /\ ro_ID r = roleID /\ ro_Status r = 1 /\ ro_Deleted r = false) /\
  (exists i, i ∈ instances (tabs w) /\ in_ID i = instanceID /\ in_Deleted i = false) /\
  (exists g, g ∈ rows (instance_grants (tabs w')) /\ upserted roleID instanceID permissions g) /\
  (forall g, g ∈ rows (instance_grants (tabs w')) ->
     upserted roleID instanceID permissions g \/
     (g ∈ rows (instance_grants (tabs w)) /\ grant_key g <> (roleID, instanceID))) /\
  (forall g, g ∈ rows (instance_grants (tabs w)) -> grant_key g <> (roleID, instanceID) ->
     g ∈ rows (instance_grants (tabs w'))) /\
  (NoDup (grant_key <$> rows (instance_grants (tabs w))) ->
     NoDup (grant_key <$> rows (instance_grants (tabs w')))).
Proof.
  intros Haudit H. cbv zeta. unfold UpsertInstancePermission, normalizeDatabasePermissionMask in H.
  destruct (Z.eqb_spec (Z.land mask DatabasePermissionAll) 0) as [|Hp]; [done|].
  apply or_database_error_Success in H as (u & w1 & (H1 & _ & _ & Hr & Hi)%ValidateTarget_Ok & H).
  apply or_database_error_Success in H as (b & w2 & H2%GetByRoleInstance_Ok & H).
  apply or_database_error_Success in H as (u' & w3 & Hup%Upsert_Ok & H).
  apply or_database_error_Success in H as (af & w4 & H4%GetByRoleInstance_Ok & H).
  apply or_database_error_Success in H as (u'' & w5 & Ha & H). injection H as <-.
  pose proof (f_equal snd Ha) as Ha'. apply (f_equal tabs) in Ha'. rewrite Haudit in Ha'. simpl in Ha'.
  rewrite <- Ha', H4. rewrite H2, H1 in Hup. tauto.
Qed.
End claims.
