(* ===== verification/AccessExamples.v ===== *)
(** Access on concrete data: a store with an administrator (user 10) and an
    operator (user 1), runs of every property, and runs that show where a
    request does less, or more, than it was meant to. *)

From Stdlib Require Import ZArith Lia.
From stdpp Require Import base tactics option list numbers gmap relations.
From S2P Require Import Prelude GoStrings GoNumbers GoCrypto SignInModel Login SignInExamples.
From S2P Require Import SqlSafety WriteExec WriteExecFacts ParentTree AccessModel HostGrants.
From S2P Require Import AccessControl InstanceAccess Routes AccessFacts GrantFacts RoleFacts.
From S2P Require Import RouteFacts ListFacts InstanceFacts.

Open Scope Z_scope.

(** ** A store *)
#[export] Instance sample_access : AccessLib := {|
  code_key s := ToLower (U := sample_tables) s;
  like_contains s sub := Contains s sub;
  sql_error := $"connection refused"; record_not_found := $"record not found";
  err_registered := $"registered"; err_missing_where := $"WHERE conditions required" |}.

Definition role_row (id : Z) (code : gostring) : SysRole := {|
  ro_ID := id; ro_Name := code; ro_Code := code; ro_Description := []; ro_Sort := 0;
  ro_Status := 1; ro_Deleted := false |}.
Definition menu_row (id parent : Z) (code : gostring) : SysMenu := {|
  me_ID := id; me_Name := code; me_Code := code; me_Type := 1; me_ParentID := parent;
  me_Path := []; me_Component := []; me_Icon := []; me_Sort := id; me_Visible := 1;
  me_Status := 1; me_Deleted := false |}.
Definition group_row (id parent : Z) : AssetGroup := {|
  ag_ID := id; ag_Name := $"group"; ag_Code := []; ag_ParentID := parent; ag_Description := [];
  ag_Sort := 0; ag_Status := 1; ag_Deleted := false |}.
Definition host_row (id group : Z) (deleted : bool) : Host := {|
  ho_ID := id; ho_Name := $"host"; ho_IP := $"10.0.0.1"; ho_GroupID := group; ho_Status := 1;
  ho_Deleted := deleted |}.

Definition sample_rows : tables := {|
  roles := {| rows := [role_row 1 $"admin"; role_row 2 $"user"; role_row 3 $"ops"]; next := 4 |};
  user_roles := [(10, 1); (1, 3)];
  menus := {| rows := [menu_row 1 0 $"database"; menu_row 2 1 $"database:query:write"; menu_row 3 9 $"lost"];
              next := 4 |};
  role_menus := [(3, 1); (3, 2); (3, 3)];
  departments := {| rows := []; next := 1 |}; AccessModel.users := [];
  groups := {| rows := [group_row 2 0; group_row 3 2; group_row 4 3]; next := 5 |};
  hosts := [host_row 5 2 false; host_row 6 2 true; host_row 7 0 false; host_row 8 3 false];
  grants := {| rows := [{| ap_ID := 1; ap_RoleID := 3; ap_AssetGroupID := 2;
      ap_HostIDs := JsonArray [5]; ap_Permissions := 9; ap_Deleted := false |}]; next := 2 |};
  instances := [{| in_ID := 7; in_Deleted := false |}; {| in_ID := 8; in_Deleted := false |}];
  instance_grants := {| rows := [{| ip_ID := 1; ip_RoleID := 3; ip_InstanceID := 7;
      ip_Permissions := 10; ip_Deleted := false |}]; next := 2 |} |}.
Definition start : access_world := {| tabs := sample_rows; steps := 0 |}.
Definition answers : conn := fun _ => true.

Lemma answers_up : up answers.
Proof. done. Qed.

Ltac decided := vm_compute; reflexivity.

(** A row of the table of routes. *)
Lemma routed i r : nth_error registerRoutes i = Some r -> r ∈ registerRoutes.
Proof. intros H. by eapply list_elem_of_In, nth_error_In. Qed.

(** ** Runs of the properties: the hosts *)
Lemma sample_host_keyed : host_keyed sample_rows.
Proof. unfold host_keyed. apply (bool_decide_unpack _). decided. Qed.

Lemma accessible_hosts_exact_witness :
  exists ids, (GetUserAccessibleHostIDs answers 1 start).1 = Ok ids /\ NoDup ids /\
    forall hostID, hostID ∈ ids <->
      (CheckHostPermission answers 1 hostID start).1 = Ok true /\
      exists h, h ∈ hosts (tabs start) /\ ho_ID h = hostID /\ ho_Deleted h = false.
Proof. exact (accessible_hosts_exact answers 1 start answers_up sample_host_keyed). Defined.

Lemma mask_matches_check_witness :
  exists mask b, (GetUserHostPermissions answers 1 5 start).1 = Ok mask /\
    (CheckHostOperationPermission answers 1 5 PermissionTerminal start).1 = Ok b /\
    (b = true <-> Z.land mask PermissionTerminal <> 0).
Proof.
  apply (mask_matches_check answers 1 5 PermissionTerminal start answers_up);
    [|done]. repeat constructor; simpl; lia.
Defined.

Lemma created_grant_exact_witness :
  let w' := (CreateBatchWithPermissions answers 3 2 (Some []) 4 start).2 in
  may (tabs w') 1 5 4 <->
    may (without (of_role_group 3 2) (tabs start)) 1 5 4 \/
    ((1, 3) ∈ user_roles (tabs start) /\ group_of (tabs start) 5 = 2 /\
     (exists ids, Some [] = Some ids /\ (ids = [] \/ 5 ∈ ids)) /\
     0 < Z.land (if 4 =? 0 then PermissionView else 4) 4).
Proof.
  exact (created_grant_exact answers 3 2 (Some []) 4 start
    (CreateBatchWithPermissions answers 3 2 (Some []) 4 start).2 ltac:(decided) 1 5 4).
Defined.

Lemma sample_grants_wf : grants_wf sample_rows.
Proof.
  split.
  - intros p ->%list_elem_of_singleton. simpl. lia.
  - apply NoDup_singleton.
  - split; [done|]. intros p ->%list_elem_of_singleton. simpl. lia.
Qed.
Definition sample_request : result grant_request :=
  Ok {| gq_RoleID := 3; gq_AssetGroupID := 3; gq_HostIDs := Some [8]; gq_Permissions := 0 |}.
Lemma sample_steps : rtc access_step start (CreateAssetPermission answers sample_request start).2.
Proof.
  eapply rtc_l; [|reflexivity]. apply step_create. intros r [= <-]. simpl. lia.
Qed.

Lemma grants_stay_well_formed_witness :
  grants_wf (tabs (CreateAssetPermission answers sample_request start).2).
Proof. exact (grants_stay_well_formed _ _ sample_steps sample_grants_wf). Defined.

Lemma ungrouped_host_denied_witness :
  ~ may (tabs (CreateAssetPermission answers sample_request start).2) 1 7 PermissionView.
Proof.
  refine (ungrouped_host_denied _ _ 1 7 PermissionView sample_steps sample_grants_wf _ _); [decided|].
  intros Ha%admin_rows_spec. revert Ha. by vm_compute.
Defined.

(** Only the hosts of the grant are listed; a group lists those below it. *)
Definition everything : host_query := {|
  hq_page := 1; hq_pageSize := 10; hq_keyword := []; hq_groupID := Some 2; hq_status := None |}.
Lemma listed_hosts_accessible_witness :
  let h := host_row 5 2 false in
    h ∈ hosts (tabs start) /\ ho_Deleted h = false /\
    (admin_of (tabs start) 1 \/ exists p, holds (tabs start) 1 (ho_ID h) p) /\
    forall g, hq_groupID everything = Some g -> 0 < g ->
      ho_GroupID h = g \/
      exists d, below ag_ID ag_ParentID (live_groups (tabs start)) g d /\ ag_ID d = ho_GroupID h.
Proof.
  apply (listed_hosts_accessible answers 9 1 everything start [host_row 5 2 false] 1);
    [done | apply sample_host_keyed | decided | by left].
Defined.

Lemma agent_job_restricted_witness :
  exists l w1, tabs w1 = tabs start /\
    agent_job answers $"none" $"failed: " 1 (Ok [5; 6; 7; 8]) (fun l => mret l) start =
      (match l with [] => mret (Failure 403 $"none") | _ => answered $"failed: " (mret l) id end) w1 /\
    (forall h, h ∈ l -> h ∈ [5; 6; 7; 8] /\
       (admin_of (tabs start) 1 \/ exists p, holds (tabs start) 1 h p) /\
       exists row, row ∈ hosts (tabs start) /\ ho_ID row = h /\ ho_Deleted row = false) /\
    (up answers -> forall h, h ∈ [5; 6; 7; 8] -> may_reach (tabs start) 1 h = true ->
       (exists row, row ∈ hosts (tabs start) /\ ho_ID row = h /\ ho_Deleted row = false) -> h ∈ l).
Proof.
  apply (agent_job_restricted answers $"none" $"failed: " 1 [5; 6; 7; 8] (fun l => mret l) start);
    [done | apply sample_host_keyed].
Defined.
Example sample_agent_job :
  (agent_job answers $"none" $"failed: " 1 (Ok [5; 6; 7; 8]) (fun l => mret l) start).1
    = Ok (Success [5]).
Proof. decided. Qed.

Lemma sample_groups_keyed : keyed ag_ID (live_groups sample_rows).
Proof.
  split; [apply (bool_decide_unpack _); decided|].
  apply list.Forall_forall. by repeat constructor.
Qed.
Lemma group_rooted : rooted ag_ID ag_ParentID (live_groups sample_rows) (group_row 3 2).
Proof.
  eapply (below_step _ _ _ _ (group_row 2 0)); [apply below_child| |]; try done;
    apply list_elem_of_In; simpl; auto.
Qed.
Lemma descendants_exact_witness :
  exists ids, (GetDescendantIDs answers (rounds (live_groups (tabs start))) 3 start).1 = Ok (Some ids) /\
    forall i, i ∈ ids <->
      exists d, below ag_ID ag_ParentID (live_groups (tabs start)) 3 d /\ ag_ID d = i.
Proof. exact (descendants_exact answers (group_row 3 2) start answers_up sample_groups_keyed group_rooted). Defined.

Lemma self_parent_group_diverges_witness :
  exists req' w', UpdateGroup answers $"3" (Ok (group_row 0 3)) start = (Ok (Success req'), w') /\
    forall fuel userID q, hq_groupID q = Some 3 ->
      (ListHosts answers fuel userID q w').1 = Ok (Success None).
Proof.
  apply (self_parent_group_diverges answers $"3" (group_row 3 2) (group_row 0 3) start);
    try done; try decided. apply list_elem_of_In. simpl. auto.
Defined.

Lemma user_menu_tree_witness :
  exists ts, (GetUserMenu answers 1 start).1 = Ok (Success (Some ts)) /\
    (forall m, m ∈ members ts -> menu_visible (tabs start) 1 m) /\
    forall m, m ∈ members ts <-> rooted me_ID me_ParentID (menu_list (tabs start) 1) m.
Proof.
  apply (user_menu_tree answers 1 start answers_up); [done|].
  split; [apply (bool_decide_unpack _); decided|]. apply list.Forall_forall. by repeat constructor.
Defined.
(** A menu whose parent is not visible is lost. *)
Example menu_without_parent_is_lost :
  match (GetUserMenu answers 1 start).1 with
  | Ok (Success (Some ts)) => (me_ID <$> members ts) = [1; 2] /\
      (me_ID <$> menu_list sample_rows 1) = [1; 2; 3]
  | _ => False
  end.
Proof. by vm_compute. Qed.

(** ** Runs of the properties: routes and roles *)
(** Tokens of the stand-in library. *)
Definition token_of (userID : Z) : gostring :=
  sample_sign {| cl_UserID := userID; cl_Username := $"ops"; cl_TokenType := $"auth";
    cl_ExpiresAt := 100; cl_IssuedAt := 0; cl_NotBefore := 0 |}.
Definition show_host : route :=
  Route GET $"/api/v1/hosts/:id" [Session; HostOp PermissionView] $"hostService.GetHost".
Definition give_roles : route :=
  Route POST $"/api/v1/users/:id/roles" [Session] $"userService.AssignUserRoles".
Definition run_write : route :=
  Route POST $"/api/v1/databases/instances/:id/query/write" [Session; MenuCode permDatabaseQueryWrite]
    $"service.ExecuteWriteQuery".
Definition greet (userID : Z) : handler access_world (reply Z) := mret (Success userID).

Lemma host_routes_guarded_witness :
  exists userID hostID operation w1,
    session_of sample_secretKey (at_second 50) userID /\ parse_id $"5" = Some hostID /\
    HostOp operation ∈ rt_guards show_host /\ may (tabs start) userID hostID operation /\
    tabs w1 = tabs start /\
    greet userID w1 = (Ok (Success 1), (serve answers
      (AuthRequired sample_secretKey (at_second 50) ($"Bearer " ++ token_of 1) [] []) show_host $"5" greet start).2).
Proof.
  apply (host_routes_guarded sample_secretKey answers (at_second 50) ($"Bearer " ++ token_of 1) [] []
    show_host $"5" greet start 1); try done; try decided.
  apply (routed 90). decided.
Defined.

Lemma managed_routes_guarded_witness :
  exists userID w1, session_of sample_secretKey (at_second 50) userID /\ tabs w1 = tabs start /\
    greet userID w1 = (Ok (Success 1), (serve answers
      (AuthRequired sample_secretKey (at_second 50) [] (token_of 1) []) run_write $"7" greet start).2) /\
    (menu_route run_write = true -> exists code, MenuCode code ∈ rt_guards run_write /\
       menu_permitted (tabs start) userID code) /\
    (admin_route run_write = true -> is_admin (tabs start) userID).
Proof.
  apply (managed_routes_guarded sample_secretKey answers (at_second 50) [] (token_of 1) []
    run_write $"7" greet start 1); try done; try decided.
  apply (routed 308). decided.
Defined.

Lemma no_session_no_service_witness :
  serve answers (AuthRequired sample_secretKey (at_second 200) [] (token_of 1) []) run_write $"7" greet start
    = (Ok (Failure 401 $"token无效或已过期"), start).
Proof.
  apply (no_session_no_service sample_secretKey answers (at_second 200) [] (token_of 1) []
    $"token无效或已过期" run_write $"7" greet start); try decided.
  apply (routed 308). decided.
Defined.

Lemma any_user_can_promote_himself_witness :
  exists w', serve answers (Ok (1, $"ops")) give_roles $"1"
      (fun _ => AssignUserRoles answers $"1" (Ok (Some [1]))) start = (Ok (Success tt), w') /\
    (RequireAdmin answers 1 w').1 = Ok Next /\
    (forall code b, TrimSpace code <> [] -> (HasMenuPermission answers 1 code w').1 = Ok b -> b = true) /\
    forall hostID operation, may (tabs w') 1 hostID operation.
Proof.
  apply (any_user_can_promote_himself answers (Ok (1, $"ops")) $"ops" give_roles $"1" 1
    (role_row 1 $"admin") start answers_up); try done; try decided;
    [|apply list_elem_of_In; simpl; auto].
  apply (routed 13). decided.
Defined.

(** ** Runs of the properties: instances *)
#[local] Existing Instance sample_tables.
Lemma instance_check_exact_witness :
  exists v w', ensureInstancePermission answers (Ok $"compat") 1 7 DatabasePermissionWrite start = (Ok v, w') /\
    tabs w' = tabs start /\
    (v = Next -> 1 <> 0 /\ (exists m, Ok $"compat" = Ok m) /\
       may_use (tabs start) (whitelist_b (Ok $"compat")) 1 7 DatabasePermissionWrite) /\
    (up answers -> 1 <> 0 -> (exists m, Ok $"compat" = Ok m) ->
       may_use (tabs start) (whitelist_b (Ok $"compat")) 1 7 DatabasePermissionWrite -> v = Next).
Proof. apply (instance_check_exact answers (Ok $"compat") 1 7 DatabasePermissionWrite start). done. Defined.

Definition sample_scope : databasePermissionScope :=
  {| sc_enforced := true; sc_admin := false; sc_userID := 1; sc_allowedIDs := [7] |}.
Lemma instance_list_matches_check_witness :
  let i := {| in_ID := 7; in_Deleted := false |} in
    i ∈ (let '(restricted, ids) := applyAllowedInstanceScope sample_scope in
         applyAllowedInstanceFilter in_ID restricted ids (instances (tabs start))) <->
    (ensureInstancePermission answers (Ok $"compat") 1 (in_ID i) DatabasePermissionWrite start).1 = Ok Next.
Proof.
  apply (instance_list_matches_check answers (Ok $"compat") 1 DatabasePermissionWrite start sample_scope
    (permission_scope answers (Ok $"compat") 1 DatabasePermissionWrite start).2 _ answers_up);
    [done | by repeat constructor | decided | | by left].
  apply list.Forall_forall. by repeat constructor.
Defined.

Lemma alert_rule_check_passes_witness :
  (ensureBackupAlertRulePermission answers (Ok $"whitelist") 99 false 7 start).1 = Ok Next.
Proof. exact (alert_rule_check_passes answers $"whitelist" 99 7 start answers_up ltac:(done)). Defined.

Definition send_write (userID : Z) : reply DatabaseWriteExecuteVO * (access_world * World) :=
  http_ExecuteWriteQuery answers (sample_env 4) (fun _ => 400) (Ok $"compat")
    {| op_ID := userID; op_Username := $"ops"; op_ClientIP := $"10.0.0.1" |} $"7"
    (Ok WriteExecFacts.sample_request) (start, sample_world).
(** The operator's write is committed; another user's is not looked at. *)
Example sample_writes :
  existsb is_commit (events (send_write 1).2.2) = true /\
  send_write 99 = (Failure 403 $"权限不足", (send_write 99).2) /\ events (send_write 99).2.2 = [].
Proof. by vm_compute. Qed.
Definition sender : QueryOperator := {| op_ID := 1; op_Username := $"ops"; op_ClientIP := $"10.0.0.1" |}.
Lemma write_needs_both_checks_witness :
  let '(res, (a', w')) := http_ExecuteWriteQuery answers (sample_env 4) (fun _ => 400) (Ok $"compat")
    sender $"7" (Ok WriteExecFacts.sample_request) (start, sample_world) in
  (w' = sample_world /\ exists code message, res = Failure code message) \/
  exists id body, parseUintParam $"7" = Some id /\ Ok WriteExecFacts.sample_request = Ok body /\
    op_ID sender <> 0 /\ menu_permitted (tabs start) (op_ID sender) permDatabaseQueryWrite /\
    (has_rules (tabs start) \/ whitelist_b (Ok $"compat") = true ->
     live_admin (tabs start) (op_ID sender) \/
     exists p, instance_holds (tabs start) (op_ID sender) p /\ ip_InstanceID p = id /\
       Z.land (ip_Permissions p) DatabasePermissionWrite <> 0) /\
    w' = (ExecuteWriteQuery (sample_env 4) id (Some body) sender sample_world).2 /\
    tabs a' = tabs start.
Proof.
  destruct (http_ExecuteWriteQuery answers (sample_env 4) (fun _ => 400) (Ok $"compat")
    sender $"7" (Ok WriteExecFacts.sample_request) (start, sample_world)) as [res [a' w']] eqn:H.
  exact (write_needs_both_checks _ _ _ _ _ _ _ _ _ _ _ _ H).
Defined.

Definition quiet (before : option Z) (after : Z) : handler access_world unit := mret tt.
Definition saved : access_world :=
  (UpsertInstancePermission (fun _ => 400) quiet answers 3 8 7 start).2.
Lemma instance_permission_saved_witness :
  let permissions := Z.land 7 DatabasePermissionAll in
  permissions <> 0 /\
  (exists r, r ∈ rows (roles (tabs start)) /\ ro_ID r = 3 /\ ro_Status r = 1 /\ ro_Deleted r = false) /\
  (exists i, i ∈ instances (tabs start) /\ in_ID i = 8 /\ in_Deleted i = false) /\
  (exists g, g ∈ rows (instance_grants (tabs saved)) /\ upserted 3 8 permissions g) /\
  (forall g, g ∈ rows (instance_grants (tabs saved)) ->
     upserted 3 8 permissions g \/
     (g ∈ rows (instance_grants (tabs start)) /\ grant_key g <> (3, 8))) /\
  (forall g, g ∈ rows (instance_grants (tabs start)) -> grant_key g <> (3, 8) ->
     g ∈ rows (instance_grants (tabs saved))) /\
  (NoDup (grant_key <$> rows (instance_grants (tabs start))) ->
     NoDup (grant_key <$> rows (instance_grants (tabs saved)))).
Proof.
  apply (instance_permission_saved answers (fun _ => 400) quiet 3 8 7 start saved); [done|].
  decided.
Defined.

(** ** Where the code does something else *)
(** A grant on a whole group whose body leaves out [hostIds] stores the JSON
    literal [null] and gives nothing. *)
Example omitted_hosts_give_nothing :
  (CheckHostOperationPermission answers 1 8 PermissionView
     (CreateBatchWithPermissions answers 3 3 None PermissionView start).2).1 = Ok false /\
  (CheckHostOperationPermission answers 1 8 PermissionView
     (CreateBatchWithPermissions answers 3 3 (Some []) PermissionView start).2).1 = Ok true.
Proof. by vm_compute. Qed.

(** A change that fails between its two statements loses the grant. *)
Example failed_update_loses_grant :
  let w := (service_UpdateAssetPermission (fun k => Nat.eqb k 0) $"1"
    (Ok {| gq_RoleID := 3; gq_AssetGroupID := 2; gq_HostIDs := Some [5]; gq_Permissions := 9 |}) start).2 in
  rows (grants (tabs w)) = [].
Proof. by vm_compute. Qed.

(** A change of an id that no grant has makes a grant. *)
Example update_of_nothing_creates :
  length (rows (grants (tabs (service_UpdateAssetPermission answers $"77"
    (Ok {| gq_RoleID := 2; gq_AssetGroupID := 2; gq_HostIDs := Some []; gq_Permissions := 127 |}) start).2)))
  = 2%nat.
Proof. by vm_compute. Qed.

(** A role cannot be switched off: [Updates] leaves a column alone when the
    field is 0. *)
Example role_not_disabled :
  (ro_Status <$> rows (roles (tabs (UpdateRole answers $"3" (Ok {| ro_ID := 3; ro_Name := $"ops";
     ro_Code := $"ops"; ro_Description := []; ro_Sort := 0; ro_Status := 0; ro_Deleted := false |}) start).2)))
  = [1; 1; 1].
Proof. by vm_compute. Qed.

(** A disabled role admin still opens the routes of administrators and every
    host; for instances it counts as none. *)
Definition disabled_admin : access_world := {|
  tabs := set_roles {| rows := [{| ro_ID := 1; ro_Name := $"admin"; ro_Code := $"admin";
    ro_Description := []; ro_Sort := 0; ro_Status := 0; ro_Deleted := false |}]; next := 4 |} sample_rows;
  steps := 0 |}.
Example disabled_role_counts :
  (RequireAdmin answers 10 disabled_admin).1 = Ok Next /\
  (CheckHostOperationPermission answers 10 5 PermissionDelete disabled_admin).1 = Ok true /\
  (ensureInstancePermission answers (Ok $"compat") 10 7 DatabasePermissionView disabled_admin).1
    = Ok (Halt 403 $"权限不足：无权操作该数据库实例").
Proof. by vm_compute. Qed.

(** Deleting hosts in a batch asks for no permission on them. *)
Example batch_delete_needs_no_grant :
  (CheckHostOperationPermission answers 1 8 PermissionDelete start).1 = Ok false /\
  (ho_Deleted <$> hosts (tabs (BatchDeleteHosts answers (fun _ => mret tt) (Ok (Some [8])) start).2))
  = [false; true; false; true] /\
  nth_error registerRoutes 88 =
    Some (Route POST $"/api/v1/hosts/batch-delete" [Session] $"hostService.BatchDeleteHosts").
Proof. by vm_compute. Qed.

(** The last rule deleted in the mode compat opens every instance. *)
Example last_rule_opens_all :
  (ensureInstancePermission answers (Ok $"compat") 99 8 DatabasePermissionManage start).1
    = Ok (Halt 403 $"权限不足：无权操作该数据库实例") /\
  (ensureInstancePermission answers (Ok $"compat") 99 8 DatabasePermissionManage
     (DeleteInstancePermission (fun _ => 400) quiet answers $"1" start).2).1 = Ok Next.
Proof. by vm_compute. Qed.
