(* ===== verification/GoJson.v ===== *)
(** * The part of [encoding/json] the code uses: writing a value

    [json.Marshal] of the values that a Go [any] holds in the modelled code,
    and the lemma that its text determines a map of scalars. *)

From Stdlib Require Import ZArith Lia.
From stdpp Require Import base tactics option list numbers strings pretty sets.
From S2P Require Import Prelude GoStrings GoCrypto.

Open Scope Z_scope.

(** ** Values of type [any]

    A [map] is the list of its entries, in the order in which a [range]
    visits them: Go leaves that order open, so a theorem about all lists is
    one about every order. [AFloat] is a [float64] with an integral value of
    at most 2^53 in size, the only numbers that the modelled code computes with:
    a fraction in a request, which Go truncates, is outside the model. [AStruct] has the JSON names
    of the fields, in their order. *)
Inductive any :=
| ANil
| ABool (b : bool)
| AInt (z : Z)
| AInt64 (z : Z)
| AUint (z : Z)
| AFloat (z : Z)
| AText (s : gostring)
| AMap (m : list (gostring * any))
| ATextMap (m : list (gostring * gostring))
| ASlice (l : list any)
| AStruct (fields : list (gostring * any)).

(** [v, ok := m[k]]. *)
Fixpoint map_get {V} (m : list (gostring * V)) (k : gostring) : option V :=
  match m with
  | [] => None
  | (k', v) :: m' => if bool_decide (k' = k) then Some v else map_get m' k
  end.
(** [m[k] = v]. *)
Fixpoint map_set {V} (m : list (gostring * V)) (k : gostring) (v : V) : list (gostring * V) :=
  match m with
  | [] => [(k, v)]
  | (k', v') :: m' => if bool_decide (k' = k) then (k, v) :: m' else (k', v') :: map_set m' k v
  end.
(** [m[k]] of a [map[string]any]: nil where there is no entry. *)
Definition map_at (m : list (gostring * any)) (k : gostring) : any := default ANil (map_get m k).

(** ** Strings *)
Definition json_hex4 (r : rune) : gostring :=
  [92; 117; hex_lower (r / 4096 mod 16); hex_lower (r / 256 mod 16); hex_lower (r / 16 mod 16);
   hex_lower (r mod 16)].
(** [appendString] with [escapeHTML], on one code point. *)
Definition json_rune (r : rune) : gostring :=
  if (r =? 34) || (r =? 92) then [92; r]
  else if r =? 8 then [92; 98]
  else if r =? 12 then [92; 102]
  else if r =? 10 then [92; 110]
  else if r =? 13 then [92; 114]
  else if r =? 9 then [92; 116]
  else if ((0 <=? r) && (r <? 32)) || (r =? 60) || (r =? 62) || (r =? 38) || (r =? 8232) || (r =? 8233)
  then json_hex4 r
  else [r].
Definition json_quote (s : gostring) : gostring := [34] ++ (s ≫= json_rune) ++ [34].

(** ** Maps: the entries by key *)
Fixpoint insert_entry {V} (e : gostring * V) (l : list (gostring * V)) : list (gostring * V) :=
  match l with
  | [] => [e]
  | e' :: l' => if string_less e'.1 e.1 then e' :: insert_entry e l' else e :: l
  end.
Definition sorted_entries {V} (m : list (gostring * V)) : list (gostring * V) :=
  foldr insert_entry [] m.

Definition json_entry (e : gostring * gostring) : gostring := json_quote e.1 ++ [58] ++ e.2.
Definition json_object (entries : list (gostring * gostring)) : gostring :=
  [123] ++ Join (json_entry <$> entries) [44] ++ [125].
Definition json_array (items : list gostring) : gostring := [91] ++ Join items [44] ++ [93].

(** [json.Marshal]; it fails on none of these values. *)
Fixpoint Marshal (v : any) : gostring :=
  match v with
  | ANil => $"null"
  | ABool b => if b then $"true" else $"false"
  | AInt z | AInt64 z | AUint z | AFloat z => fmt_d z
  | AText s => json_quote s
  | AMap m => json_object (sorted_entries ((fun e => (e.1, Marshal e.2)) <$> m))
  | ATextMap m => json_object (sorted_entries ((fun e => (e.1, json_quote e.2)) <$> m))
  | ASlice l => json_array (Marshal <$> l)
  | AStruct fields => json_object ((fun e => (e.1, Marshal e.2)) <$> fields)
  end.

(** The examples write a quotation mark as an apostrophe. *)
Example marshal_sample :
  Marshal (AMap [($"b", AText $"a<b"); ($"a", ASlice [AInt (-12); ABool true; ANil])])
  = replace_rune 39 [34] $"{'a':[-12,true,null],'b':'a\u003cb'}".
Proof. reflexivity. Qed.

(** ** Lemmas on maps *)
Lemma map_get_set {V} (m : list (gostring * V)) k v k' :
  map_get (map_set m k v) k' = if bool_decide (k = k') then Some v else map_get m k'.
Proof.
  induction m as [|[k0 v0] m IH]; simpl; [done|].
  destruct (bool_decide_reflect (k0 = k)) as [->|]; simpl; [by repeat case_bool_decide|].
  rewrite IH. repeat case_bool_decide; congruence.
Qed.

(** ** Reading a text back *)
Definition json_special : list rune := seqZ 0 32 ++ [60; 62; 38; 8232; 8233].

Lemma json_special_spec r :
  (((0 <=? r) && (r <? 32)) || (r =? 60) || (r =? 62) || (r =? 38) || (r =? 8232) || (r =? 8233)) = true ->
  r ∈ json_special.
Proof.
  unfold json_special. rewrite elem_of_app, elem_of_seqZ, !elem_of_cons.
  rewrite !orb_true_iff, andb_true_iff, !Z.eqb_eq, Z.leb_le, Z.ltb_lt. intuition lia.
Qed.

Lemma json_hex4_inj r r' a b :
  r ∈ json_special -> r' ∈ json_special -> json_hex4 r ++ a = json_hex4 r' ++ b -> r = r' /\ a = b.
Proof.
  intros Hr Hr' H.
  assert (Forall (fun x => Forall (fun y => json_hex4 x = json_hex4 y -> x = y) json_special) json_special)
    as Hall by (apply (bool_decide_unpack _); by vm_compute).
  rewrite Forall_forall in Hall. specialize (Hall r Hr). rewrite Forall_forall in Hall.
  apply app_inj_1 in H as [H ->]; [|done]. split; [by apply Hall | done].
Qed.

(** What [json_rune] can give. *)
Lemma json_rune_cases r :
  (json_rune r = [r] /\ r <> 34 /\ r <> 92) \/
  (exists c, json_rune r = [92; c] /\ c <> 117 /\
     (c, r) ∈ [(34, 34); (92, 92); (98, 8); (102, 12); (110, 10); (114, 13); (116, 9)]) \/
  (json_rune r = json_hex4 r /\ r ∈ json_special).
Proof.
  unfold json_rune.
  destruct ((r =? 34) || (r =? 92)) eqn:E0.
  { right; left. exists r. apply orb_true_iff in E0 as [E0|E0]; apply Z.eqb_eq in E0 as ->;
      (split; [done|]; split; [done|]); set_solver. }
  apply orb_false_iff in E0 as [E1%Z.eqb_neq E2%Z.eqb_neq].
  repeat match goal with
  | |- context [if r =? ?k then [92; ?c] else _] =>
      destruct (Z.eqb_spec r k) as [->|?];
      [right; left; exists c; split; [done|]; split; [done|]; set_solver|]
  end.
  destruct (_ || (r =? 8233)) eqn:E8; [right; right; split; [done | by apply json_special_spec] | by left].
Qed.

Lemma json_rune_inj r r' a b : json_rune r ++ a = json_rune r' ++ b -> r = r' /\ a = b.
Proof.
  destruct (json_rune_cases r) as [(-> & H1 & H2)|[(c & -> & Hc & Hin)|[-> Hs]]];
  destruct (json_rune_cases r') as [(-> & H1' & H2')|[(c' & -> & Hc' & Hin')|[-> Hs']]]; cbn [app].
  1: by intros [= -> ->].
  1, 2: by intros [= -> _].
  1: by intros [= <- _].
  3: by intros [= <- _].
  3: by intros [= <- _].
  3: by apply json_hex4_inj.
  2: by intros [= -> _].
  intros [= <- ->]. split; [|done]. clear - Hin Hin'.
  rewrite !elem_of_cons, elem_of_nil in Hin, Hin'. intuition congruence.
Qed.

Lemma json_rune_not_quote r a b : json_rune r ++ a <> 34 :: b.
Proof.
  destruct (json_rune_cases r) as [(-> & H1 & H2)|[(c & -> & Hc & Hin)|[-> Hs]]]; by intros [= Hr].
Qed.

Lemma json_quote_inj s s' a b : json_quote s ++ a = json_quote s' ++ b -> s = s' /\ a = b.
Proof.
  unfold json_quote. rewrite <- !app_assoc. intros [= H]. revert s' H.
  induction s as [|r s IH]; intros [|r' s'] H; cbn in H; rewrite <- ?app_assoc in H.
  - by injection H as ->.
  - symmetry in H. by apply json_rune_not_quote in H.
  - by apply json_rune_not_quote in H.
  - apply json_rune_inj in H as [-> H]. apply IH in H as [-> ->]. done.
Qed.

(** Numbers end where a character follows that [%d] never prints. *)
Definition is_number_rune (r : rune) : Prop := r = 45 \/ is_ascii_digit r.

Lemma fmt_d_runes z : Forall is_number_rune (fmt_d z).
Proof.
  assert (forall z, 0 <= z -> Forall is_number_rune (fmt_d z)) as H.
  { intros y Hy. eapply Forall_impl; [by apply fmt_d_digits|]. intros r Hr. by right. }
  destruct z as [|p|p]; [by apply H|by apply H|].
  rewrite fmt_d_neg. constructor; [by left | by apply H].
Qed.

(** Texts that end before [a] and [b]: a run of letters of [P], then none. *)
Lemma run_inj (P : rune -> Prop) s s' a b :
  Forall P s -> Forall P s' -> (forall r, head a = Some r -> ~ P r) -> (forall r, head b = Some r -> ~ P r) ->
  s ++ a = s' ++ b -> s = s' /\ a = b.
Proof.
  intros Hs. revert s'. induction Hs as [|r s Hr Hs IH]; intros s' Hs' Ha Hb H.
  - destruct Hs' as [|r' s' Hr' Hs']; [done|]. simpl in H. subst a. by destruct (Ha r' eq_refl).
  - destruct Hs' as [|r' s' Hr' Hs']; simpl in H; [subst b; by destruct (Hb r eq_refl)|].
    injection H as -> H. destruct (IH s' Hs' Ha Hb H) as [-> ->]. done.
Qed.

(** ** Objects of scalars *)
Variant scalar := STextOf | SIntOf | SUintOf | SInt64Of | SBoolOf.
Definition scalar_of (k : scalar) (v : any) : Prop :=
  match k, v with
  | STextOf, AText _ | SIntOf, AInt _ | SUintOf, AUint _ | SInt64Of, AInt64 _ | SBoolOf, ABool _ => True
  | _, _ => False
  end.

(** What can follow a value inside an object. *)
Definition object_end (a : gostring) : Prop := forall r, head a = Some r -> r = 44 \/ r = 125.

Lemma scalar_inj k v v' a b : scalar_of k v -> scalar_of k v' -> object_end a -> object_end b ->
  Marshal v ++ a = Marshal v' ++ b -> v = v' /\ a = b.
Proof.
  intros Hv Hv' Ha Hb H.
  assert (forall x, object_end x -> forall r, head x = Some r -> ~ is_number_rune r) as Hend.
  { intros x Hx r Hr [->|Hd]; destruct (Hx _ Hr); unfold is_ascii_digit in *; lia. }
  destruct k, v, v'; try done; cbn [Marshal] in H.
  1: by apply json_quote_inj in H as [-> ->].
  1-3: apply (run_inj is_number_rune) in H as [H ->]; [|apply fmt_d_runes..|by apply Hend|by apply Hend];
    split; [|done]; f_equal; by apply fmt_d_inj.
  destruct b0, b1; try (by apply app_inv_head in H as ->); by vm_compute in H.
Qed.

Lemma entry_inj t k v v' a b : scalar_of t v -> scalar_of t v' -> object_end a -> object_end b ->
  json_entry (k, Marshal v) ++ a = json_entry (k, Marshal v') ++ b -> v = v' /\ a = b.
Proof.
  unfold json_entry. cbn [fst snd]. rewrite <- !app_assoc. intros Hv Hv' Ha Hb H.
  apply app_inv_head in H. apply app_inv_head in H. by eapply scalar_inj.
Qed.

Lemma Join_two s s' l sep : Join (s :: s' :: l) sep = s ++ sep ++ Join (s' :: l) sep.
Proof. done. Qed.

Lemma fields_inj (ks : list (gostring * scalar)) vs vs' :
  Forall2 (fun k v => scalar_of k.2 v) ks vs -> Forall2 (fun k v => scalar_of k.2 v) ks vs' ->
  json_object (zip_with (fun k v => (k.1, Marshal v)) ks vs) =
  json_object (zip_with (fun k v => (k.1, Marshal v)) ks vs') -> vs = vs'.
Proof.
  assert (forall x, object_end (44 :: x)) as Hcomma by (intros x r [= <-]; auto).
  assert (object_end [125]) as Hbrace by (intros r [= <-]; auto).
  intros Hs Hs' H. unfold json_object in H. apply app_inv_head in H. revert vs' Hs' H.
  induction Hs as [|[k t] v ks vs Hv Hs IH]; intros vs' Hs' H; inversion Hs' as [|? v' ? vs1 Hv' Hs1]; subst; [done|].
  cbn [zip_with] in H. rewrite !fmap_cons in H. cbn [fst] in H.
  inversion Hs as [|[k1 t1] v1 ks1 vs1' Hv1 Hs2]; subst; inversion Hs1 as [|? v1' ? vs1'' Hv1' Hs1']; subst.
  - by destruct (entry_inj t k v v' [125] [125] Hv Hv' Hbrace Hbrace H) as [-> _].
  - cbn [zip_with] in *. rewrite !fmap_cons, !Join_two, <- !app_assoc in H. cbn [fst] in *.
    apply (entry_inj t) in H as [-> H]; [|done..|apply Hcomma|apply Hcomma]. apply app_inv_head in H. f_equal.
    apply (IH _ Hs1). cbn [zip_with]. rewrite !fmap_cons. done.
Qed.
