(* ===== verification/MqAudit.v ===== *)
(** * The audit trails of the message queues

    [data/messagequeue/audit_repository.go] writes the rows, each with the hash
    of its content and of the row before it; [VerifyAuditChain] of
    [biz/messagequeue/usecase_advanced_governance.go] checks them. *)

From Stdlib Require Import ZArith Lia.
From stdpp Require Import base tactics option list numbers sets.
From S2P Require Import Prelude GoStrings GoNumbers GoCrypto GoJson.

Open Scope Z_scope.

(** ** Rows, [model.go] *)
Definition AuditStatusPending := $"pending".
Definition AuditStatusSuccess := $"success".
Definition AuditStatusFailed := $"failed".
Definition AuditStatusPartial := $"partial_success".

Record MQOperationAudit := {
  oa_ID : Z; oa_InstanceID : Z; oa_InstanceName : gostring; oa_MQType : gostring;
  oa_ResourceType : gostring; oa_ResourceName : gostring; oa_Namespace : gostring;
  oa_Action : gostring; oa_RiskLevel : gostring; oa_Status : gostring; oa_OperationID : gostring;
  oa_IdempotencyKey : gostring; oa_LockKey : gostring; oa_ConfirmText : gostring;
  oa_RequestJSON : gostring; oa_ResultJSON : gostring; oa_BeforeSnapshotJSON : gostring;
  oa_AfterSnapshotJSON : gostring; oa_DiffJSON : gostring; oa_WarningsJSON : gostring;
  oa_ImpactSummaryJSON : gostring; oa_OperationBackupJSON : gostring; oa_RollbackHintJSON : gostring;
  oa_RollbackSupported : bool; oa_RollbackRiskLevel : gostring; oa_MetadataRefreshStatus : gostring;
  oa_MetadataRefreshError : gostring; oa_Reason : gostring; oa_OperatorID : Z;
  oa_OperatorName : gostring; oa_ClientIP : gostring; oa_StartedAt : option Z;
  oa_FinishedAt : option Z; oa_DurationMs : Z; oa_Message : gostring;
  oa_PreviousAuditHash : gostring; oa_AuditHash : gostring }.

Record MQMessageAudit := {
  ma_ID : Z; ma_InstanceID : Z; ma_MQType : gostring; ma_ResourceType : gostring;
  ma_ResourceName : gostring; ma_Namespace : gostring; ma_Action : gostring; ma_SampleCount : Z;
  ma_PayloadBytes : Z; ma_FilterJSON : gostring; ma_PayloadHash : gostring;
  ma_SensitiveHitCount : Z; ma_RawPayloadVisible : bool; ma_DLPResultJSON : gostring;
  ma_Status : gostring; ma_OperatorID : Z; ma_OperatorName : gostring; ma_ClientIP : gostring;
  ma_Message : gostring; ma_PreviousAuditHash : gostring; ma_AuditHash : gostring }.

(** ** What the hash covers *)
Definition operation_content (a : MQOperationAudit) : list (gostring * any) :=
  [($"previous", AText (oa_PreviousAuditHash a)); ($"instanceId", AUint (oa_InstanceID a));
   ($"mqType", AText (oa_MQType a)); ($"resourceType", AText (oa_ResourceType a));
   ($"resourceName", AText (oa_ResourceName a)); ($"namespace", AText (oa_Namespace a));
   ($"action", AText (oa_Action a)); ($"riskLevel", AText (oa_RiskLevel a));
   ($"status", AText (oa_Status a)); ($"operationId", AText (oa_OperationID a));
   ($"request", AText (oa_RequestJSON a)); ($"result", AText (oa_ResultJSON a));
   ($"before", AText (oa_BeforeSnapshotJSON a)); ($"after", AText (oa_AfterSnapshotJSON a));
   ($"reason", AText (oa_Reason a)); ($"operatorId", AUint (oa_OperatorID a));
   ($"operatorName", AText (oa_OperatorName a)); ($"message", AText (oa_Message a));
   ($"durationMs", AInt64 (oa_DurationMs a))].

Definition message_content (a : MQMessageAudit) : list (gostring * any) :=
  [($"previous", AText (ma_PreviousAuditHash a)); ($"instanceId", AUint (ma_InstanceID a));
   ($"mqType", AText (ma_MQType a)); ($"resourceType", AText (ma_ResourceType a));
   ($"resourceName", AText (ma_ResourceName a)); ($"namespace", AText (ma_Namespace a));
   ($"action", AText (ma_Action a)); ($"sampleCount", AInt (ma_SampleCount a));
   ($"payloadBytes", AInt (ma_PayloadBytes a)); ($"filter", AText (ma_FilterJSON a));
   ($"payloadHash", AText (ma_PayloadHash a)); ($"sensitiveHitCount", AInt (ma_SensitiveHitCount a));
   ($"rawPayloadVisible", ABool (ma_RawPayloadVisible a)); ($"dlp", AText (ma_DLPResultJSON a));
   ($"status", AText (ma_Status a)); ($"operatorId", AUint (ma_OperatorID a));
   ($"operatorName", AText (ma_OperatorName a)); ($"message", AText (ma_Message a))].

Definition sha256Text (value : gostring) : gostring := hex_encode (sha256 (utf8 value)).
Definition auditHash (value : list (gostring * any)) : gostring := sha256Text (Marshal (AMap value)).
Definition auditContentHash (value : list (gostring * any)) : gostring :=
  sha256Text (Marshal (AMap value)).
Definition operationAuditExpectedHash (a : MQOperationAudit) : gostring :=
  auditContentHash (operation_content a).
Definition messageAuditExpectedHash (a : MQMessageAudit) : gostring :=
  auditContentHash (message_content a).

(** ** A trail, over the two kinds of rows

    The repositories and the checks of the two tables are the same code but
    for the row; [AuditRow] is what they use of it. *)
Class AuditRow (R : Type) := {
  row_ID : R -> Z;
  row_InstanceID : R -> Z;
  row_Previous : R -> gostring;
  row_Hash : R -> gostring;
  row_content : R -> list (gostring * any);
  with_ID : Z -> R -> R;
  with_hashes : gostring -> gostring -> R -> R;
}.

Definition operation_with_ID (id : Z) (a : MQOperationAudit) : MQOperationAudit :=
  {| oa_ID := id; oa_InstanceID := oa_InstanceID a; oa_InstanceName := oa_InstanceName a;
     oa_MQType := oa_MQType a; oa_ResourceType := oa_ResourceType a;
     oa_ResourceName := oa_ResourceName a; oa_Namespace := oa_Namespace a;
     oa_Action := oa_Action a; oa_RiskLevel := oa_RiskLevel a; oa_Status := oa_Status a;
     oa_OperationID := oa_OperationID a; oa_IdempotencyKey := oa_IdempotencyKey a;
     oa_LockKey := oa_LockKey a; oa_ConfirmText := oa_ConfirmText a;
     oa_RequestJSON := oa_RequestJSON a; oa_ResultJSON := oa_ResultJSON a;
     oa_BeforeSnapshotJSON := oa_BeforeSnapshotJSON a;
     oa_AfterSnapshotJSON := oa_AfterSnapshotJSON a; oa_DiffJSON := oa_DiffJSON a;
     oa_WarningsJSON := oa_WarningsJSON a; oa_ImpactSummaryJSON := oa_ImpactSummaryJSON a;
     oa_OperationBackupJSON := oa_OperationBackupJSON a;
     oa_RollbackHintJSON := oa_RollbackHintJSON a; oa_RollbackSupported := oa_RollbackSupported a;
     oa_RollbackRiskLevel := oa_RollbackRiskLevel a;
     oa_MetadataRefreshStatus := oa_MetadataRefreshStatus a;
     oa_MetadataRefreshError := oa_MetadataRefreshError a; oa_Reason := oa_Reason a;
     oa_OperatorID := oa_OperatorID a; oa_OperatorName := oa_OperatorName a;
     oa_ClientIP := oa_ClientIP a; oa_StartedAt := oa_StartedAt a;
     oa_FinishedAt := oa_FinishedAt a; oa_DurationMs := oa_DurationMs a;
     oa_Message := oa_Message a; oa_PreviousAuditHash := oa_PreviousAuditHash a;
     oa_AuditHash := oa_AuditHash a |}.
Definition operation_with_hashes (previous hash : gostring) (a : MQOperationAudit) : MQOperationAudit :=
  {| oa_ID := oa_ID a; oa_InstanceID := oa_InstanceID a; oa_InstanceName := oa_InstanceName a;
     oa_MQType := oa_MQType a; oa_ResourceType := oa_ResourceType a;
     oa_ResourceName := oa_ResourceName a; oa_Namespace := oa_Namespace a;
     oa_Action := oa_Action a; oa_RiskLevel := oa_RiskLevel a; oa_Status := oa_Status a;
     oa_OperationID := oa_OperationID a; oa_IdempotencyKey := oa_IdempotencyKey a;
     oa_LockKey := oa_LockKey a; oa_ConfirmText := oa_ConfirmText a;
     oa_RequestJSON := oa_RequestJSON a; oa_ResultJSON := oa_ResultJSON a;
     oa_BeforeSnapshotJSON := oa_BeforeSnapshotJSON a;
     oa_AfterSnapshotJSON := oa_AfterSnapshotJSON a; oa_DiffJSON := oa_DiffJSON a;
     oa_WarningsJSON := oa_WarningsJSON a; oa_ImpactSummaryJSON := oa_ImpactSummaryJSON a;
     oa_OperationBackupJSON := oa_OperationBackupJSON a;
     oa_RollbackHintJSON := oa_RollbackHintJSON a; oa_RollbackSupported := oa_RollbackSupported a;
     oa_RollbackRiskLevel := oa_RollbackRiskLevel a;
     oa_MetadataRefreshStatus := oa_MetadataRefreshStatus a;
     oa_MetadataRefreshError := oa_MetadataRefreshError a; oa_Reason := oa_Reason a;
     oa_OperatorID := oa_OperatorID a; oa_OperatorName := oa_OperatorName a;
     oa_ClientIP := oa_ClientIP a; oa_StartedAt := oa_StartedAt a;
     oa_FinishedAt := oa_FinishedAt a; oa_DurationMs := oa_DurationMs a;
     oa_Message := oa_Message a; oa_PreviousAuditHash := previous; oa_AuditHash := hash |}.
#[export] Instance operation_row : AuditRow MQOperationAudit := {|
  row_ID := oa_ID; row_InstanceID := oa_InstanceID; row_Previous := oa_PreviousAuditHash;
  row_Hash := oa_AuditHash; row_content := operation_content; with_ID := operation_with_ID;
  with_hashes := operation_with_hashes |}.

Definition message_with_ID (id : Z) (a : MQMessageAudit) : MQMessageAudit :=
  {| ma_ID := id; ma_InstanceID := ma_InstanceID a; ma_MQType := ma_MQType a;
     ma_ResourceType := ma_ResourceType a; ma_ResourceName := ma_ResourceName a;
     ma_Namespace := ma_Namespace a; ma_Action := ma_Action a; ma_SampleCount := ma_SampleCount a;
     ma_PayloadBytes := ma_PayloadBytes a; ma_FilterJSON := ma_FilterJSON a;
     ma_PayloadHash := ma_PayloadHash a; ma_SensitiveHitCount := ma_SensitiveHitCount a;
     ma_RawPayloadVisible := ma_RawPayloadVisible a; ma_DLPResultJSON := ma_DLPResultJSON a;
     ma_Status := ma_Status a; ma_OperatorID := ma_OperatorID a;
     ma_OperatorName := ma_OperatorName a; ma_ClientIP := ma_ClientIP a;
     ma_Message := ma_Message a; ma_PreviousAuditHash := ma_PreviousAuditHash a;
     ma_AuditHash := ma_AuditHash a |}.
Definition message_with_hashes (previous hash : gostring) (a : MQMessageAudit) : MQMessageAudit :=
  {| ma_ID := ma_ID a; ma_InstanceID := ma_InstanceID a; ma_MQType := ma_MQType a;
     ma_ResourceType := ma_ResourceType a; ma_ResourceName := ma_ResourceName a;
     ma_Namespace := ma_Namespace a; ma_Action := ma_Action a; ma_SampleCount := ma_SampleCount a;
     ma_PayloadBytes := ma_PayloadBytes a; ma_FilterJSON := ma_FilterJSON a;
     ma_PayloadHash := ma_PayloadHash a; ma_SensitiveHitCount := ma_SensitiveHitCount a;
     ma_RawPayloadVisible := ma_RawPayloadVisible a; ma_DLPResultJSON := ma_DLPResultJSON a;
     ma_Status := ma_Status a; ma_OperatorID := ma_OperatorID a;
     ma_OperatorName := ma_OperatorName a; ma_ClientIP := ma_ClientIP a;
     ma_Message := ma_Message a; ma_PreviousAuditHash := previous; ma_AuditHash := hash |}.
#[export] Instance message_row : AuditRow MQMessageAudit := {|
  row_ID := ma_ID; row_InstanceID := ma_InstanceID; row_Previous := ma_PreviousAuditHash;
  row_Hash := ma_AuditHash; row_content := message_content; with_ID := message_with_ID;
  with_hashes := message_with_hashes |}.

(** ** The repositories

    A table lists its rows by id. The query for the row before and the write
    may be refused. *)
Section repository.
Context {R : Type} `{!AuditRow R}.

Record audit_table := { at_rows : list R; at_next : Z }.

(** [Where("id <> ?", item.ID).Order("id DESC").First]. *)
Definition row_before (t : audit_table) (id : Z) : option R :=
  last (List.filter (fun r => negb (row_ID r =? id)) (at_rows t)).

(** [fillOperationAuditHash], [fillMessageAuditHash]. *)
Definition fillAuditHash (read_ok : bool) (t : audit_table) (item : R) : R :=
  let previous :=
    if bool_decide (row_Previous item = []) then
      match (if read_ok then row_before t (row_ID item) else None) with
      | Some prev => row_Hash prev
      | None => row_Previous item
      end
    else row_Previous item in
  let item := with_hashes previous (row_Hash item) item in
  with_hashes previous (auditHash (row_content item)) item.

(** [Create]: the row with its hash, and with its id when it is stored. *)
Definition CreateAudit (read_ok write_ok : bool) (t : audit_table) (item : R) : result R * audit_table :=
  let item := fillAuditHash read_ok t item in
  if write_ok then
    let item := with_ID (at_next t) item in
    (Ok item, {| at_rows := at_rows t ++ [item]; at_next := at_next t + 1 |})
  else (Err [], t).

(** [Update]: [Save] of the whole row. *)
Definition UpdateAudit (read_ok write_ok : bool) (t : audit_table) (item : R) : R * audit_table :=
  let item := fillAuditHash read_ok t item in
  (item, if write_ok
         then {| at_rows := (fun r => if row_ID r =? row_ID item then item else r) <$> at_rows t;
                 at_next := at_next t |}
         else t).

(** [List] with what [VerifyAuditChain] sets: the instance, the instances a
    user may see, and one page of the newest rows. *)
Record AuditListRequest := {
  lr_Page : Z; lr_PageSize : Z; lr_InstanceID : Z; lr_RestrictToAllowed : bool; lr_AllowedIDs : list Z }.

Definition applyAllowedInstanceFilter (restrict : bool) (allowedIDs : list Z) (r : R) : bool :=
  negb restrict || bool_decide (row_InstanceID r ∈ allowedIDs).
Definition applyAuditFilter (req : AuditListRequest) (r : R) : bool :=
  applyAllowedInstanceFilter (lr_RestrictToAllowed req) (lr_AllowedIDs req) r &&
  (if 0 <? lr_InstanceID req then row_InstanceID r =? lr_InstanceID req else true).
Definition pageParams (req : AuditListRequest) : Z * Z :=
  (if lr_Page req <=? 0 then 1 else lr_Page req,
   if lr_PageSize req <=? 0 then 10 else lr_PageSize req).
Definition ListAudits (t : audit_table) (req : AuditListRequest) : list R :=
  let '(page, pageSize) := pageParams req in
  take (Z.to_nat pageSize) (drop (Z.to_nat ((page - 1) * pageSize))
    (rev (List.filter (applyAuditFilter req) (at_rows t)))).

(** ** Verification, [usecase_advanced_governance.go] *)
Record AuditChainVerifyRequest := {
  cr_InstanceID : Z; cr_Limit : Z; cr_RestrictToAllowed : bool; cr_AllowedIDs : list Z }.
Record AuditChainFindingVO := { cf_AuditID : Z; cf_Severity : gostring; cf_Message : gostring }.
Record AuditChainVerifyVO := {
  cv_Checked : Z; cv_Valid : bool; cv_BrokenCount : Z; cv_HeadHash : gostring;
  cv_TailHash : gostring; cv_Findings : list AuditChainFindingVO }.

Definition empty_report : AuditChainVerifyVO :=
  {| cv_Checked := 0; cv_Valid := true; cv_BrokenCount := 0; cv_HeadHash := []; cv_TailHash := [];
     cv_Findings := [] |}.
Definition appendAuditChainFinding (auditID : Z) (severity message : gostring)
    (r : AuditChainVerifyVO) : AuditChainVerifyVO :=
  {| cv_Checked := cv_Checked r; cv_Valid := false; cv_BrokenCount := cv_BrokenCount r + 1;
     cv_HeadHash := cv_HeadHash r; cv_TailHash := cv_TailHash r;
     cv_Findings := cv_Findings r ++
       [{| cf_AuditID := auditID; cf_Severity := severity; cf_Message := message |}] |}.
Definition fillAuditChainRange (items : list R) (r : AuditChainVerifyVO) : AuditChainVerifyVO :=
  match items, last items with
  | first :: _, Some tail =>
    {| cv_Checked := cv_Checked r; cv_Valid := cv_Valid r; cv_BrokenCount := cv_BrokenCount r;
       cv_HeadHash := row_Hash first; cv_TailHash := row_Hash tail; cv_Findings := cv_Findings r |}
  | _, _ => r
  end.

(** One turn of the loop; [before] is [items[i-1]]. *)
Definition verify_item (linkCheck : bool) (before : option R) (item : R)
    (r : AuditChainVerifyVO) : AuditChainVerifyVO :=
  let r :=
    if bool_decide (row_Hash item = [])
    then appendAuditChainFinding (row_ID item) $"critical" $"审计 hash 为空" r
    else if negb (bool_decide (auditContentHash (row_content item) = row_Hash item))
    then appendAuditChainFinding (row_ID item) $"critical" $"审计 hash 与内容不匹配" r
    else r in
  match before with
  | Some b =>
    if linkCheck && negb (bool_decide (row_Previous item = row_Hash b))
    then appendAuditChainFinding (row_ID item) $"critical" $"审计链 previous hash 不连续" r
    else r
  | None => r
  end.
Fixpoint verify_items (linkCheck : bool) (before : option R) (items : list R)
    (r : AuditChainVerifyVO) : AuditChainVerifyVO :=
  match items with
  | [] => r
  | item :: items' => verify_items linkCheck (Some item) items' (verify_item linkCheck before item r)
  end.
(** [verifyOperationAuditItems], [verifyMessageAuditItems]. *)
Definition verifyAuditItems (items : list R) (linkCheck : bool) : AuditChainVerifyVO :=
  let start := {| cv_Checked := Z.of_nat (length items); cv_Valid := true; cv_BrokenCount := 0;
                  cv_HeadHash := []; cv_TailHash := []; cv_Findings := [] |} in
  fillAuditChainRange items (verify_items linkCheck None items start).

(** [sort.Slice] by id. *)
Fixpoint insert_row (x : R) (l : list R) : list R :=
  match l with
  | [] => [x]
  | y :: l' => if row_ID y <? row_ID x then y :: insert_row x l' else x :: l
  end.
Definition sort_rows (l : list R) : list R := foldr insert_row [] l.

Definition defaultAuditChainVerifyLimit : Z := 200.
Definition maxAuditChainVerifyLimit : Z := 1000.
Definition verify_limit (limit : Z) : Z :=
  let limit := if limit <=? 0 then defaultAuditChainVerifyLimit else limit in
  if maxAuditChainVerifyLimit <? limit then maxAuditChainVerifyLimit else limit.

(** [VerifyAuditChain] on one of the tables; a listing that fails is its error. *)
Definition verify_table (list_err : option gostring) (t : audit_table) (req : AuditChainVerifyRequest) :
    result AuditChainVerifyVO :=
  let listReq := {| lr_Page := 1; lr_PageSize := verify_limit (cr_Limit req);
                    lr_InstanceID := cr_InstanceID req;
                    lr_RestrictToAllowed := cr_RestrictToAllowed req;
                    lr_AllowedIDs := cr_AllowedIDs req |} in
  let linkCheck := (cr_InstanceID req =? 0) && negb (cr_RestrictToAllowed req) in
  match list_err with
  | Some e => Err e
  | None => Ok (verifyAuditItems (sort_rows (ListAudits t listReq)) linkCheck)
  end.
End repository.
Arguments audit_table : clear implicits.

(** [VerifyAuditChain]: the table is chosen by the type asked for. *)
Definition VerifyAuditChain `{UnicodeTables} (list_err : option gostring)
    (operations : audit_table MQOperationAudit) (messages : audit_table MQMessageAudit)
    (auditType : gostring) (req : AuditChainVerifyRequest) : result AuditChainVerifyVO :=
  if bool_decide (ToLower (TrimSpace auditType) = $"message")
  then verify_table list_err messages req else verify_table list_err operations req.
