(* ===== verification/MqAuditFacts.v ===== *)
(** * What the audit trails of the message queues prove

    A change of the hashed part of a row shows in the newest hash; a trail
    whose requests do not overlap verifies; one whose requests overlap does
    not, although nobody touched it. *)

From Stdlib Require Import ZArith Lia Sorted.
From stdpp Require Import base tactics option list numbers sets.
From S2P Require Import Prelude GoStrings GoNumbers GoCrypto GoJson MqAudit.

Open Scope Z_scope.

(** ** The hash is never empty *)
Lemma length_sha256_rounds wk a b c d e f g h : length (sha256_rounds wk a b c d e f g h) = 8%nat.
Proof. revert a b c d e f g h. induction wk as [|[x k] wk IH]; intros; [done|]. apply IH. Qed.

Lemma length_sha256_block hs block : length hs = 8%nat -> length (sha256_block hs block) = 8%nat.
Proof. intros H. unfold sha256_block. by rewrite length_zip_with, length_sha256_rounds, H. Qed.

Lemma sha256Text_not_nil s : sha256Text s <> [].
Proof.
  unfold sha256Text, sha256. generalize (sha_blocks (utf8 s)). intros blocks.
  assert (forall hs, length hs = 8%nat -> length (foldl sha256_block hs blocks) = 8%nat) as H.
  { induction blocks as [|b bs IH]; intros hs Hh; [done|]. cbn [foldl]. by apply IH, length_sha256_block. }
  match goal with |- context [foldl sha256_block ?h0 blocks] => specialize (H h0 eq_refl); destruct (foldl sha256_block h0 blocks) as [|w ws]; [done|] end.
  rewrite bind_cons. pose proof (length_be_bytes 4 w) as Hb.
  destruct (be_bytes 4 w) as [|y ys]; [done|]. done.
Qed.

Lemma auditHash_not_nil c : auditHash c <> [].
Proof. apply sha256Text_not_nil. Qed.

(** ** What the proofs use of a kind of rows *)
Class AuditRowLaws (R : Type) `{!AuditRow R} := {
  with_ID_ID id r : row_ID (with_ID id r) = id;
  with_ID_InstanceID id r : row_InstanceID (with_ID id r) = row_InstanceID r;
  with_ID_Previous id r : row_Previous (with_ID id r) = row_Previous r;
  with_ID_Hash id r : row_Hash (with_ID id r) = row_Hash r;
  with_ID_content id r : row_content (with_ID id r) = row_content r;
  with_hashes_ID p h r : row_ID (with_hashes p h r) = row_ID r;
  with_hashes_Previous p h r : row_Previous (with_hashes p h r) = p;
  with_hashes_Hash p h r : row_Hash (with_hashes p h r) = h;
  with_hashes_content p h h' r : row_content (with_hashes p h r) = row_content (with_hashes p h' r);
  with_hashes_again p h h' r : with_hashes p h (with_hashes p h' r) = with_hashes p h r;
  content_previous r r' : row_content r = row_content r' -> row_Previous r = row_Previous r';
  content_read_back r r' :
    Marshal (AMap (row_content r)) = Marshal (AMap (row_content r')) -> row_content r = row_content r';
}.

Definition operation_fields : list (gostring * scalar) :=
  [($"action", STextOf); ($"after", STextOf); ($"before", STextOf); ($"durationMs", SInt64Of);
   ($"instanceId", SUintOf); ($"message", STextOf); ($"mqType", STextOf); ($"namespace", STextOf);
   ($"operationId", STextOf); ($"operatorId", SUintOf); ($"operatorName", STextOf);
   ($"previous", STextOf); ($"reason", STextOf); ($"request", STextOf); ($"resourceName", STextOf);
   ($"resourceType", STextOf); ($"result", STextOf); ($"riskLevel", STextOf); ($"status", STextOf)].
Definition operation_values (a : MQOperationAudit) : list any :=
  [AText (oa_Action a); AText (oa_AfterSnapshotJSON a); AText (oa_BeforeSnapshotJSON a);
   AInt64 (oa_DurationMs a); AUint (oa_InstanceID a); AText (oa_Message a); AText (oa_MQType a);
   AText (oa_Namespace a); AText (oa_OperationID a); AUint (oa_OperatorID a);
   AText (oa_OperatorName a); AText (oa_PreviousAuditHash a); AText (oa_Reason a);
   AText (oa_RequestJSON a); AText (oa_ResourceName a); AText (oa_ResourceType a);
   AText (oa_ResultJSON a); AText (oa_RiskLevel a); AText (oa_Status a)].
Definition message_fields : list (gostring * scalar) :=
  [($"action", STextOf); ($"dlp", STextOf); ($"filter", STextOf); ($"instanceId", SUintOf);
   ($"message", STextOf); ($"mqType", STextOf); ($"namespace", STextOf); ($"operatorId", SUintOf);
   ($"operatorName", STextOf); ($"payloadBytes", SIntOf); ($"payloadHash", STextOf);
   ($"previous", STextOf); ($"rawPayloadVisible", SBoolOf); ($"resourceName", STextOf);
   ($"resourceType", STextOf); ($"sampleCount", SIntOf); ($"sensitiveHitCount", SIntOf);
   ($"status", STextOf)].
Definition message_values (a : MQMessageAudit) : list any :=
  [AText (ma_Action a); AText (ma_DLPResultJSON a); AText (ma_FilterJSON a); AUint (ma_InstanceID a);
   AText (ma_Message a); AText (ma_MQType a); AText (ma_Namespace a); AUint (ma_OperatorID a);
   AText (ma_OperatorName a); AInt (ma_PayloadBytes a); AText (ma_PayloadHash a);
   AText (ma_PreviousAuditHash a); ABool (ma_RawPayloadVisible a); AText (ma_ResourceName a);
   AText (ma_ResourceType a); AInt (ma_SampleCount a); AInt (ma_SensitiveHitCount a);
   AText (ma_Status a)].

Lemma operation_text a : Marshal (AMap (operation_content a)) =
  json_object (zip_with (fun k v => (k.1, Marshal v)) operation_fields (operation_values a)).
Proof. reflexivity. Qed.
Lemma message_text a : Marshal (AMap (message_content a)) =
  json_object (zip_with (fun k v => (k.1, Marshal v)) message_fields (message_values a)).
Proof. reflexivity. Qed.

#[export] Instance operation_row_laws : AuditRowLaws MQOperationAudit.
Proof.
  split; try done.
  - intros r r' H. by injection H.
  - intros r r' H. cbn [row_content operation_row] in *. rewrite !operation_text in H.
    apply fields_inj in H; [|by repeat constructor..].
    unfold operation_values in H. injection H as. unfold operation_content. congruence.
Qed.
#[export] Instance message_row_laws : AuditRowLaws MQMessageAudit.
Proof.
  split; try done.
  - intros r r' H. by injection H.
  - intros r r' H. cbn [row_content message_row] in *. rewrite !message_text in H.
    apply fields_inj in H; [|by repeat constructor..].
    unfold message_values in H. injection H as. unfold message_content. congruence.
Qed.

#[local] Opaque sha256Text.

Section trail.
Context {R : Type} {RR : AuditRow R} {RL : AuditRowLaws R}.
Implicit Types (r : R) (l items : list R) (t : audit_table R).

(** Two different texts with one hash. *)
Definition collision (s s' : gostring) : Prop := s <> s' /\ sha256Text s = sha256Text s'.
Definition row_text r : gostring := Marshal (AMap (row_content r)).

Lemma auditHash_text r : auditHash (row_content r) = sha256Text (row_text r).
Proof. done. Qed.

Lemma same_hash r r' : auditHash (row_content r) = auditHash (row_content r') ->
  row_content r = row_content r' \/ collision (row_text r) (row_text r').
Proof.
  intros H. destruct (decide (row_text r = row_text r')) as [E|E]; [left | right].
  - by apply content_read_back.
  - split; [exact E | exact H].
Qed.

(** ** What the verification accepts *)
Definition hashed r : Prop := row_Hash r = auditHash (row_content r).
Fixpoint linked (before : option R) items : Prop :=
  match items with
  | [] => True
  | r :: items' =>
    match before with Some b => row_Previous r = row_Hash b | None => True end /\ linked (Some r) items'
  end.

Definition report_ok (v : AuditChainVerifyVO) : Prop := cv_Valid v = true <-> cv_Findings v = [].

Lemma append_not_ok id s m v : cv_Findings (appendAuditChainFinding id s m v) <> [].
Proof. cbn. by destruct (cv_Findings v). Qed.

Lemma verify_item_findings link before r v :
  cv_Findings (verify_item link before r v) = [] <->
  cv_Findings v = [] /\ hashed r /\
  (link = true -> match before with Some b => row_Previous r = row_Hash b | None => True end).
Proof.
  unfold verify_item, hashed. change (auditContentHash (row_content r)) with (auditHash (row_content r)).
  pose proof (auditHash_not_nil (row_content r)) as Hne.
  destruct (bool_decide_reflect (row_Hash r = [])) as [E|E].
  { rewrite E. split; [|intros (_ & Hh & _); by rewrite <- Hh in Hne].
    destruct before as [b|]; [case_match|]; intros Hf; by apply append_not_ok in Hf. }
  destruct (bool_decide_reflect (auditHash (row_content r) = row_Hash r)) as [E'|E']; cbn [negb].
  - destruct before as [b|]; [|naive_solver].
    destruct link; cbn [andb]; [|naive_solver].
    destruct (bool_decide_reflect (row_Previous r = row_Hash b)) as [E2|E2]; cbn [negb]; [naive_solver|].
    split; [intros Hf; by apply append_not_ok in Hf | naive_solver].
  - split; [|intros (_ & Hh & _); congruence].
    destruct before as [b|]; [case_match|]; intros Hf; by apply append_not_ok in Hf.
Qed.

Lemma verify_items_findings link before items v :
  cv_Findings (verify_items link before items v) = [] <->
  cv_Findings v = [] /\ Forall hashed items /\ (link = true -> linked before items).
Proof.
  revert before v. induction items as [|r items IH]; intros before v; cbn [verify_items linked].
  - split; [done|]. by intros (? & _).
  - rewrite IH, verify_item_findings, Forall_cons. destruct before; naive_solver.
Qed.

Definition counted (v : AuditChainVerifyVO) : Prop :=
  cv_BrokenCount v = Z.of_nat (length (cv_Findings v)) /\ report_ok v.
Lemma append_counted id s m v : counted v -> counted (appendAuditChainFinding id s m v).
Proof.
  intros [H _]. split; cbn; [rewrite length_app; cbn; lia|].
  unfold report_ok. cbn. split; [done|]. by destruct (cv_Findings v).
Qed.
Lemma verify_items_counted link before items v : counted v -> counted (verify_items link before items v).
Proof.
  revert before v. induction items as [|r items IH]; intros before v Hv; [done|].
  apply IH. unfold verify_item. repeat case_match; repeat apply append_counted; done.
Qed.

Lemma range_fields items v : cv_Valid (fillAuditChainRange items v) = cv_Valid v /\
  cv_Findings (fillAuditChainRange items v) = cv_Findings v /\
  cv_BrokenCount (fillAuditChainRange items v) = cv_BrokenCount v.
Proof. unfold fillAuditChainRange. by repeat case_match. Qed.

(** The report of a list of rows. *)
Lemma verify_report items link :
  let v := verifyAuditItems items link in
  (cv_Valid v = true <-> Forall hashed items /\ (link = true -> linked None items)) /\
  cv_BrokenCount v = Z.of_nat (length (cv_Findings v)) /\ (cv_Valid v = true <-> cv_Findings v = []).
Proof.
  cbv zeta. unfold verifyAuditItems.
  destruct (range_fields items (verify_items link None items
    {| cv_Checked := Z.of_nat (length items); cv_Valid := true; cv_BrokenCount := 0; cv_HeadHash := [];
       cv_TailHash := []; cv_Findings := [] |})) as (-> & -> & ->).
  destruct (verify_items_counted link None items {| cv_Checked := Z.of_nat (length items);
    cv_Valid := true; cv_BrokenCount := 0; cv_HeadHash := []; cv_TailHash := []; cv_Findings := [] |})
    as [-> Hok]; [done|].
  split; [|done]. unfold report_ok in Hok. rewrite Hok, verify_items_findings. naive_solver.
Qed.

Lemma tail_hash items link x : cv_TailHash (verifyAuditItems (items ++ [x]) link) = row_Hash x.
Proof.
  unfold verifyAuditItems, fillAuditChainRange. pose proof (last_snoc x items) as H.
  destruct (items ++ [x]) as [|y l]; [done|]. by rewrite H.
Qed.

Lemma checked_count items link : cv_Checked (verifyAuditItems items link) = Z.of_nat (length items).
Proof.
  unfold verifyAuditItems.
  assert (forall before l v, cv_Checked (verify_items link before l v) = cv_Checked v) as H.
  { intros before l. revert before. induction l as [|r l IH]; intros before v; [done|].
    cbn [verify_items]. rewrite IH. unfold verify_item. by repeat case_match. }
  unfold fillAuditChainRange. repeat case_match; cbn [cv_Checked]; by rewrite H.
Qed.

(** ** Evidence of a change *)
Lemma linked_app before l x y l' : linked before (l ++ x :: y :: l') -> row_Previous y = row_Hash x.
Proof.
  revert before. induction l as [|z l IH]; intros before; cbn [app linked]; [by intros (_ & H & _)|].
  intros [_ H]. by eapply IH.
Qed.
Lemma linked_prefix before l l' : linked before (l ++ l') -> linked before l.
Proof. revert before. induction l as [|x l IH]; intros before; [done|]. cbn. intros [H1 H2]. eauto. Qed.

Lemma trail_evidence items items' x x' :
  Forall hashed (items ++ [x]) -> Forall hashed (items' ++ [x']) ->
  linked None (items ++ [x]) -> linked None (items' ++ [x']) -> length items = length items' ->
  row_Hash x = row_Hash x' ->
  Forall2 (fun r r' => row_content r = row_content r') (items ++ [x]) (items' ++ [x']) \/
  exists i r r', (items ++ [x]) !! i = Some r /\ (items' ++ [x']) !! i = Some r' /\
    collision (row_text r) (row_text r').
Proof.
  revert items' x x'. induction items as [|y items IH] using rev_ind; intros items' x x' H H' L L' Hlen Hh;
    rewrite Forall_app, Forall_singleton in H, H'; destruct H as [H Hx]; destruct H' as [H' Hx'];
    unfold hashed in Hx, Hx'; rewrite Hx, Hx' in Hh; apply same_hash in Hh.
  - destruct items' as [|? ?]; [|done]. destruct Hh as [Hc|Hc]; [left | right].
    + by constructor.
    + by exists 0%nat, x, x'.
  - destruct items' as [|y' items' _] using rev_ind; [rewrite length_app in Hlen; simpl in Hlen; lia|].
    rewrite !length_app in Hlen. cbn in Hlen.
    destruct Hh as [Hc|Hc].
    + pose proof (content_previous _ _ Hc) as Hp. rewrite <- app_assoc in L, L'. cbn in L, L'.
      rewrite (linked_app _ _ _ _ _ L), (linked_app _ _ _ _ _ L') in Hp.
      change (y :: [x]) with ([y] ++ [x]) in L. change (y' :: [x']) with ([y'] ++ [x']) in L'.
      rewrite app_assoc in L, L'. apply linked_prefix in L, L'.
      destruct (IH items' y y' H H' L L' ltac:(lia) Hp) as [Hall|(i & r & r' & Hi & Hi' & Hcol)].
      * left. apply Forall2_app; [done|]. by constructor.
      * right. exists i, r, r'. split; [by apply lookup_app_l_Some|]. split; [by apply lookup_app_l_Some | done].
    + right. exists (length (items ++ [y])), x, x'. split; [by apply list_lookup_middle|]. split; [|done].
      apply list_lookup_middle. rewrite !length_app. cbn. lia.
Qed.

(** ** Tables *)
Definition ascending t : Prop :=
  StronglySorted (fun r r' => row_ID r < row_ID r') (at_rows t) /\
  Forall (fun r => row_ID r < at_next t) (at_rows t).

Lemma sort_snoc l x : StronglySorted (fun r r' => row_ID r < row_ID r') (l ++ [x]) ->
  sort_rows (rev (l ++ [x])) = insert_row x (sort_rows (rev l)).
Proof. by rewrite rev_app_distr. Qed.
Lemma insert_last l x : Forall (fun r => row_ID r < row_ID x) l -> insert_row x l = l ++ [x].
Proof.
  induction 1 as [|y l Hy _ IH]; [done|]. cbn [insert_row app]. by rewrite (proj2 (Z.ltb_lt _ _) Hy), IH.
Qed.
Lemma sorted_snoc l x : StronglySorted (fun r r' => row_ID r < row_ID r') (l ++ [x]) <->
  StronglySorted (fun r r' => row_ID r < row_ID r') l /\ Forall (fun r => row_ID r < row_ID x) l.
Proof.
  induction l as [|y l IH]; cbn [app].
  - split; [by repeat constructor | intros _; by repeat constructor].
  - split.
    + intros H. apply StronglySorted_inv in H as [H Hy]. apply Forall_app in Hy as [Hy Hyx].
      rewrite Forall_singleton in Hyx. apply IH in H as [H Hx]. split; constructor; done.
    + intros [H Hx]. apply StronglySorted_inv in H as [H Hy]. apply Forall_cons in Hx as [Hx Hxs].
      constructor; [by apply IH | rewrite Forall_app, Forall_singleton; done].
Qed.
Lemma sort_rev l : StronglySorted (fun r r' => row_ID r < row_ID r') l -> sort_rows (rev l) = l.
Proof.
  induction l as [|x l IH] using rev_ind; [done|]. intros H. rewrite (sort_snoc l x H).
  apply sorted_snoc in H as [H Hx]. by rewrite (IH H), insert_last.
Qed.

(** The newest [n] rows, oldest first. *)
Definition newest (n : nat) l : list R := drop (length l - n) l.
Lemma sorted_drop n l : StronglySorted (fun r r' => row_ID r < row_ID r') l ->
  StronglySorted (fun r r' => row_ID r < row_ID r') (drop n l).
Proof.
  revert n. induction l as [|x l IH]; intros [|n] H; try done. apply IH. by apply StronglySorted_inv in H as [H _].
Qed.
Lemma sorted_filter (p : R -> bool) l : StronglySorted (fun r r' => row_ID r < row_ID r') l ->
  StronglySorted (fun r r' => row_ID r < row_ID r') (List.filter p l).
Proof.
  induction 1 as [|x l H IH Hx]; [constructor|]. cbn. case_match; [constructor; [done|] | done].
  apply list.Forall_forall. intros y Hy. rewrite list.Forall_forall in Hx. apply Hx.
  apply list_elem_of_In in Hy. apply filter_In in Hy as [Hy _]. by apply list_elem_of_In.
Qed.

Definition seen (req : AuditChainVerifyRequest) : R -> bool :=
  applyAuditFilter {| lr_Page := 1; lr_PageSize := verify_limit (cr_Limit req);
    lr_InstanceID := cr_InstanceID req; lr_RestrictToAllowed := cr_RestrictToAllowed req;
    lr_AllowedIDs := cr_AllowedIDs req |}.
Definition whole_trail (req : AuditChainVerifyRequest) : bool :=
  (cr_InstanceID req =? 0) && negb (cr_RestrictToAllowed req).

Lemma verify_limit_range limit : 1 <= verify_limit limit <= 1000.
Proof.
  unfold verify_limit, defaultAuditChainVerifyLimit, maxAuditChainVerifyLimit.
  destruct (Z.leb_spec limit 0); destruct (Z.ltb_spec 1000 limit); cbn; try lia.
Qed.

Lemma verified_rows t req : ascending t ->
  verify_table None t req =
  Ok (verifyAuditItems (newest (Z.to_nat (verify_limit (cr_Limit req))) (List.filter (seen req) (at_rows t)))
        (whole_trail req)).
Proof.
  intros [Hs _]. unfold verify_table, ListAudits, pageParams. cbn [lr_Page lr_PageSize].
  pose proof (verify_limit_range (cr_Limit req)) as Hl.
  rewrite (proj2 (Z.leb_gt _ _)) by lia. cbn [Z.leb Z.compare]. rewrite Z.sub_diag, Z.mul_0_l.
  change (Z.to_nat 0) with 0%nat. rewrite drop_0. do 2 f_equal.
  fold (seen req). rewrite firstn_rev. apply sort_rev, sorted_drop, sorted_filter, Hs.
Qed.

Lemma seen_all req : whole_trail req = true -> forall l, List.filter (seen req) l = l.
Proof.
  unfold whole_trail, seen, applyAuditFilter, applyAllowedInstanceFilter. intros H l.
  apply andb_true_iff in H as [H1 H2]. cbn. rewrite H2. cbn [orb andb].
  apply Z.eqb_eq in H1 as ->. induction l as [|r l IH]; [done|]. cbn in IH |- *. by rewrite IH.
Qed.

(** ** The writes *)
Definition stored (p : gostring) r : R := with_hashes p (auditHash (row_content (with_hashes p [] r))) r.

Lemma fill_row read t r : exists p, fillAuditHash read t r = stored p r /\
  (row_Previous r <> [] -> p = row_Previous r) /\
  (row_Previous r = [] -> read = true -> p = from_option row_Hash [] (row_before t (row_ID r))).
Proof.
  unfold fillAuditHash, stored. eexists. rewrite with_hashes_again.
  rewrite (with_hashes_content _ (row_Hash r) []). split; [reflexivity|].
  split; intros H; [by rewrite bool_decide_false|].
  rewrite bool_decide_true by done. intros ->. by destruct (row_before t (row_ID r)).
Qed.

Lemma stored_hashed p r : hashed (stored p r).
Proof.
  unfold hashed, stored. rewrite with_hashes_Hash.
  rewrite (with_hashes_content p (auditHash (row_content (with_hashes p [] r))) [] r). reflexivity.
Qed.
Lemma with_ID_hashed id r : hashed r -> hashed (with_ID id r).
Proof. unfold hashed. by rewrite with_ID_Hash, with_ID_content. Qed.

Lemma row_before_new t id : Forall (fun r => row_ID r <> id) (at_rows t) -> row_before t id = last (at_rows t).
Proof.
  intros H. unfold row_before. f_equal. induction H as [|r l Hr _ IH]; [done|]. cbn.
  by rewrite (proj2 (Z.eqb_neq _ _)), IH.
Qed.

Lemma linked_snoc before l x :
  linked before (l ++ [x]) <->
  linked before l /\ match last l with
    | Some b => row_Previous x = row_Hash b
    | None => match before with Some b => row_Previous x = row_Hash b | None => True end
    end.
Proof.
  revert before. induction l as [|y l IH]; intros before; cbn [app linked].
  - cbn. naive_solver.
  - rewrite IH, last_cons. destruct (last l); naive_solver.
Qed.

(** A table whose rows were written by requests that do not overlap: a row is
    created, and changed only while it is the newest. Ids start at one. *)
Inductive quiet : audit_table R -> Prop :=
| quiet_empty next : 1 <= next -> quiet {| at_rows := []; at_next := next |}
| quiet_create t write_ok item : quiet t -> row_ID item = 0 -> row_Previous item = [] ->
    quiet (CreateAudit true write_ok t item).2
| quiet_finish t write_ok r item : quiet t -> last (at_rows t) = Some r ->
    row_ID item = row_ID r -> row_Previous item = row_Previous r ->
    quiet (UpdateAudit true write_ok t item).2.

Definition well_linked t : Prop :=
  ascending t /\ 1 <= at_next t /\ Forall (fun r => 1 <= row_ID r) (at_rows t) /\
  Forall hashed (at_rows t) /\ linked None (at_rows t) /\
  (forall r, head (at_rows t) = Some r -> row_Previous r = []).

Lemma create_rows w t item : well_linked t -> row_ID item = 0 -> row_Previous item = [] ->
  let p := from_option row_Hash [] (last (at_rows t)) in
  let r := with_ID (at_next t) (stored p item) in
  CreateAudit true w t item =
    if w then (Ok r, {| at_rows := at_rows t ++ [r]; at_next := at_next t + 1 |}) else (Err [], t).
Proof.
  intros (_ & _ & Hid & _) Hitem Hp. cbv zeta. unfold CreateAudit.
  destruct (fill_row true t item) as (p & -> & _ & Hprev). rewrite (Hprev Hp eq_refl).
  rewrite row_before_new; [done|]. eapply Forall_impl; [exact Hid|]. intros r Hr. cbn beta in *. lia.
Qed.

Lemma create_linked w t item : well_linked t -> row_ID item = 0 -> row_Previous item = [] ->
  well_linked (CreateAudit true w t item).2.
Proof.
  intros Ht Hitem Hp. rewrite (create_rows w t item Ht Hitem Hp). destruct w; [|done].
  destruct Ht as ([Hs Hn] & Hnext & Hid & Hh & Hl & Hhead). cbn [snd].
  set (p := from_option row_Hash [] (last (at_rows t))). set (r := with_ID (at_next t) (stored p item)).
  assert (row_ID r = at_next t) as Hr by apply with_ID_ID.
  assert (row_Previous r = p) as Hrp by (unfold r, stored; by rewrite with_ID_Previous, with_hashes_Previous).
  unfold well_linked, ascending. cbn [at_rows at_next]. repeat split.
  - apply sorted_snoc. split; [done|]. by rewrite Hr.
  - rewrite Forall_app, Forall_singleton, Hr. split; [|lia].
    eapply Forall_impl; [exact Hn|]. intros y Hy. cbn beta in *. lia.
  - lia.
  - rewrite Forall_app, Forall_singleton, Hr. split; [done | lia].
  - rewrite Forall_app, Forall_singleton. split; [done|]. apply with_ID_hashed, stored_hashed.
  - apply linked_snoc. split; [done|]. rewrite Hrp. unfold p. by destruct (last (at_rows t)).
  - intros y Hy. unfold p in Hrp. destruct (at_rows t) as [|z zs]; cbn in Hy; injection Hy as <-.
    + done.
    + by apply Hhead.
Qed.

Lemma replace_last l x y : StronglySorted (fun r r' => row_ID r < row_ID r') (l ++ [x]) ->
  row_ID y = row_ID x -> (fun r => if row_ID r =? row_ID y then y else r) <$> (l ++ [x]) = l ++ [y].
Proof.
  intros Hs Hy. apply sorted_snoc in Hs as [_ Hx]. rewrite fmap_app. cbn. rewrite Hy, Z.eqb_refl.
  f_equal. induction Hx as [|z l Hz _ IH]; [done|]. cbn.
  by rewrite (proj2 (Z.eqb_neq _ _)) by lia; rewrite IH.
Qed.

(** The newest row, written again under its hash. *)
Lemma finish_rows t l r item : well_linked t -> at_rows t = l ++ [r] ->
  row_ID item = row_ID r -> row_Previous item = row_Previous r ->
  (UpdateAudit true true t item).2 =
    {| at_rows := l ++ [stored (row_Previous r) item]; at_next := at_next t |}.
Proof.
  intros ([Hs _] & _ & _ & Hh & Hl & Hhead) Hrows Hid Hprev. unfold UpdateAudit. cbn [snd].
  destruct (fill_row true t item) as (p & -> & Hne & He).
  assert (p = row_Previous r) as ->.
  { destruct (decide (row_Previous item = [])) as [E|E]; [|rewrite <- Hprev; by apply Hne].
    rewrite (He E eq_refl), <- Hprev, E, Hid. unfold row_before. rewrite Hrows in Hs, Hl, Hhead |- *.
    destruct l as [|y l] using rev_ind.
    - cbn. by rewrite Z.eqb_refl.
    - apply linked_snoc in Hl as [_ Hl]. rewrite last_snoc, <- Hprev, E in Hl.
      rewrite Hrows, !Forall_app, Forall_singleton in Hh. destruct Hh as [[_ Hy] _].
      unfold hashed in Hy. rewrite <- Hl in Hy. by destruct (auditHash_not_nil (row_content y)). }
  rewrite Hrows in Hs |- *. f_equal.
  rewrite <- (replace_last l r (stored (row_Previous r) item)) by (unfold stored; rewrite ?with_hashes_ID; done).
  done.
Qed.

Lemma finish_linked w t r item : well_linked t -> last (at_rows t) = Some r ->
  row_ID item = row_ID r -> row_Previous item = row_Previous r ->
  well_linked (UpdateAudit true w t item).2.
Proof.
  intros Ht Hlast Hid Hprev. destruct w; [|done]. apply last_Some in Hlast as [l Hrows].
  rewrite (finish_rows t l r item Ht Hrows Hid Hprev).
  destruct Ht as ([Hs Hn] & Hnext & Hids & Hh & Hl & Hhead). rewrite Hrows in *.
  assert (exists y, y = stored (row_Previous r) item /\ row_ID y = row_ID r /\
    row_Previous y = row_Previous r /\ hashed y) as (y & <- & Hy & Hyp & Hyh).
  { eexists. split; [reflexivity|]. split; [by rewrite <- Hid; apply with_hashes_ID|].
    split; [apply with_hashes_Previous | apply stored_hashed]. }
  rewrite !Forall_app, !Forall_singleton in *. unfold well_linked, ascending. cbn [at_rows at_next].
  rewrite !Forall_app, !Forall_singleton, sorted_snoc, linked_snoc, Hy, Hyp.
  apply sorted_snoc in Hs. apply linked_snoc in Hl.
  destruct Hn as [Hn1 Hn2], Hids as [Hi1 Hi2], Hh as [Hh1 _], Hs, Hl.
  repeat split; try assumption.
  - destruct l as [|z l]; cbn in Hhead |- *; intros x [= <-]; [rewrite Hyp|]; by apply Hhead.
Qed.

Lemma quiet_linked t : quiet t -> well_linked t.
Proof.
  induction 1 as [next H|t w item Ht IH H1 H2|t w r item Ht IH H1 H2 H3].
  - repeat split; try constructor; done.
  - by apply create_linked.
  - by eapply finish_linked.
Qed.

Lemma linked_drop before n l : linked before l -> linked None (drop n l).
Proof.
  revert before n. induction l as [|x l IH]; intros before [|n] H; cbn in *; try done.
  - by destruct H.
  - destruct H as [_ H]. by eapply IH.
Qed.

Lemma newest_verifies t req : well_linked t ->
  exists v, verify_table None t req = Ok v /\ cv_Valid v = true /\ cv_Findings v = [].
Proof.
  intros (Hs & _ & _ & Hh & Hl & _). eexists. split; [by apply verified_rows|].
  match goal with |- cv_Valid (verifyAuditItems ?i ?k) = true /\ _ => destruct (verify_report i k) as (H1 & _ & H2) end.
  rewrite <- H2. split; apply H1; (split; [apply Forall_drop|]).
  all: try (apply list.Forall_forall; intros x Hx; apply list_elem_of_In, filter_In in Hx as [Hx _];
    apply list_elem_of_In in Hx; rewrite list.Forall_forall in Hh; by apply Hh).
  all: intros Hw; rewrite (seen_all req Hw); by eapply linked_drop.
Qed.

(** The rows that a verification of the whole trail looks at. *)
Definition checked_rows t (req : AuditChainVerifyRequest) : list R :=
  newest (Z.to_nat (verify_limit (cr_Limit req))) (at_rows t).

Lemma whole_verified t req : ascending t -> whole_trail req = true ->
  verify_table None t req = Ok (verifyAuditItems (checked_rows t req) true).
Proof. intros Ht Hw. by rewrite verified_rows, Hw, seen_all. Qed.

Lemma evidence_of_change t t' req v v' :
  ascending t -> ascending t' -> whole_trail req = true ->
  verify_table None t req = Ok v -> verify_table None t' req = Ok v' ->
  cv_Valid v = true -> cv_Valid v' = true ->
  cv_Checked v = cv_Checked v' -> cv_TailHash v = cv_TailHash v' ->
  Forall2 (fun r r' => row_content r = row_content r') (checked_rows t req) (checked_rows t' req) \/
  exists i r r', checked_rows t req !! i = Some r /\ checked_rows t' req !! i = Some r' /\
    collision (row_text r) (row_text r').
Proof.
  intros Ht Ht' Hw Hv Hv' Hok Hok' Hlen Htail.
  rewrite whole_verified in Hv, Hv' by done. injection Hv as <-. injection Hv' as <-.
  rewrite !checked_count in Hlen. apply Nat2Z.inj in Hlen.
  apply verify_report in Hok as [Hh Hl], Hok' as [Hh' Hl']. specialize (Hl eq_refl). specialize (Hl' eq_refl).
  destruct (checked_rows t req) as [|x items _] using rev_ind.
  { destruct (checked_rows t' req); [by left | done]. }
  destruct (checked_rows t' req) as [|x' items' _] using rev_ind; [rewrite length_app in Hlen; simpl in Hlen; lia|].
  rewrite !length_app in Hlen. cbn in Hlen. rewrite !tail_hash in Htail.
  apply trail_evidence; [done..|lia|done].
Qed.

(** A row that is changed after the next one was written. *)
Lemma newest_two n l x y : (2 <= n)%nat -> exists k, newest n (l ++ [x; y]) = k ++ [x; y].
Proof.
  intros Hn. unfold newest. rewrite length_app. cbn. exists (drop (length l + 2 - n) l).
  rewrite drop_app_le by lia. done.
Qed.

Lemma update_before_last t l x y item : ascending t -> at_rows t = l ++ [x; y] -> row_ID item = row_ID x ->
  exists p, (UpdateAudit true true t item).1 = stored p item /\
  at_rows (UpdateAudit true true t item).2 = l ++ [stored p item; y] /\
  ascending (UpdateAudit true true t item).2.
Proof.
  intros [Hs Hn] Hrows Hid. unfold UpdateAudit. cbn [fst snd at_rows at_next].
  destruct (fill_row true t item) as (p & -> & _). exists p. split; [done|].
  assert (row_ID (stored p item) = row_ID x) as Hx by (rewrite <- Hid; apply with_hashes_ID).
  assert ((fun r => if row_ID r =? row_ID (stored p item) then stored p item else r) <$> at_rows t =
    l ++ [stored p item; y]) as Heq.
  { rewrite Hrows in Hs |- *. change [x; y] with ([x] ++ [y]) in Hs |- *. rewrite app_assoc in Hs |- *.
    apply sorted_snoc in Hs as [Hs Hy]. rewrite fmap_app, (replace_last _ x) by done. cbn [fmap list_fmap].
    rewrite Forall_app, Forall_singleton in Hy. destruct Hy as [_ Hy]. rewrite (proj2 (Z.eqb_neq _ _)) by lia.
    by rewrite <- app_assoc. }
  rewrite Heq. split; [done|]. unfold ascending. cbn [at_rows at_next].
  rewrite Hrows in Hs, Hn. change [x; y] with ([x] ++ [y]) in Hs, Hn.
  change [stored p item; y] with ([stored p item] ++ [y]). rewrite app_assoc in Hs, Hn |- *.
  rewrite !sorted_snoc, !Forall_app, !Forall_singleton in *. by rewrite Hx.
Qed.
(** Two requests that overlap: the first is finished after the second started. *)
Lemma overlap_collides t a b a1 t1 b1 t2 a2 t3 done_ req v :
  quiet t -> row_ID a = 0 -> row_Previous a = [] -> row_ID b = 0 -> row_Previous b = [] ->
  CreateAudit true true t a = (Ok a1, t1) -> CreateAudit true true t1 b = (Ok b1, t2) ->
  row_ID done_ = row_ID a1 -> UpdateAudit true true t2 done_ = (a2, t3) ->
  whole_trail req = true -> 2 <= verify_limit (cr_Limit req) ->
  verify_table None t3 req = Ok v -> cv_Valid v = true ->
  exists p p' id, a2 = stored p done_ /\ a1 = with_ID id (stored p' a) /\
    (row_content a2 = row_content a1 \/ collision (row_text a2) (row_text a1)).
Proof.
  intros Ht Ha Hap Hb Hbp H1 H2 Hid H3 Hw Hlim Hv Hok.
  pose proof (quiet_linked t Ht) as L.
  pose proof (create_linked true t a L Ha Hap) as L1.
  rewrite (create_rows true t a L Ha Hap) in H1, L1. cbv zeta in H1, L1.
  injection H1 as <- <-. cbn [snd] in L1.
  pose proof (create_linked true _ b L1 Hb Hbp) as L2.
  rewrite (create_rows true _ b L1 Hb Hbp) in H2, L2. cbv zeta in H2, L2.
  injection H2 as <- <-. cbn [snd at_rows at_next] in *.
  rewrite last_snoc in *. cbn [from_option] in *.
  destruct L2 as (Hasc & _). rewrite <- app_assoc in Hasc, H3. cbn [app] in Hasc, H3.
  edestruct (update_before_last _ _ _ _ done_ Hasc eq_refl) as (p & E1 & E2 & Hasc3); [exact Hid|].
  rewrite H3 in E1, E2, Hasc3. cbn [fst snd] in *. subst a2.
  rewrite whole_verified in Hv by done. injection Hv as <-. apply verify_report in Hok as [_ Hl].
  specialize (Hl eq_refl). unfold checked_rows in Hl. rewrite E2 in Hl.
  edestruct newest_two as [k Hk]; [|rewrite Hk in Hl]; [lia|]. apply linked_app in Hl.
  rewrite with_ID_Previous in Hl. unfold stored in Hl at 1. rewrite with_hashes_Previous in Hl.
  do 3 eexists. split; [reflexivity|]. split; [reflexivity|]. apply same_hash.
  pose proof (stored_hashed p done_) as S2. unfold hashed in S2. rewrite <- S2, <- Hl.
  apply with_ID_hashed, stored_hashed.
Qed.
End trail.

(** ** The three results *)

(** Trails of requests that do not overlap pass every verification. *)
Theorem quiet_trails_verify `{UnicodeTables} operations messages kind req :
  quiet operations -> quiet messages ->
  exists v, VerifyAuditChain None operations messages kind req = Ok v /\
    cv_Valid v = true /\ cv_Findings v = [].
Proof.
  intros Ho Hm. unfold VerifyAuditChain.
  case_bool_decide; apply newest_verifies; by apply quiet_linked.
Qed.

(** C19: Two trails that pass, with as many rows checked and one newest hash, hold the same
    content, or two of their texts have one SHA-256. *)
Theorem tampering_shows (t t' : audit_table MQOperationAudit) req v v' :
  ascending t -> ascending t' -> whole_trail req = true ->
  verify_table None t req = Ok v -> verify_table None t' req = Ok v' ->
  cv_Valid v = true -> cv_Valid v' = true ->
  cv_Checked v = cv_Checked v' -> cv_TailHash v = cv_TailHash v' ->
  Forall2 (fun a a' => operation_content a = operation_content a') (checked_rows t req) (checked_rows t' req) \/
  exists i a a', checked_rows t req !! i = Some a /\ checked_rows t' req !! i = Some a' /\
    collision (row_text a) (row_text a').
Proof.
  intros Ht Ht' Hw Hv Hv' Hok Hok' Hlen Htail.
  exact (evidence_of_change t t' req v v' Ht Ht' Hw Hv Hv' Hok Hok' Hlen Htail).
Qed.

(** C20: An operation that ends after a later one has started breaks a trail that
    nobody touched: the verification reports it, or two texts of the first
    operation's row have one SHA-256. *)
Theorem overlap_breaks (t : audit_table MQOperationAudit) a b a1 t1 b1 t2 a2 t3 done_ req v :
  quiet t -> oa_ID a = 0 -> oa_PreviousAuditHash a = [] -> oa_ID b = 0 -> oa_PreviousAuditHash b = [] ->
  CreateAudit true true t a = (Ok a1, t1) -> CreateAudit true true t1 b = (Ok b1, t2) ->
  oa_ID done_ = oa_ID a1 -> oa_Status done_ <> oa_Status a ->
  UpdateAudit true true t2 done_ = (a2, t3) ->
  whole_trail req = true -> 2 <= verify_limit (cr_Limit req) ->
  verify_table None t3 req = Ok v -> cv_Valid v = false \/ collision (row_text a2) (row_text a1).
Proof.
  intros Ht Ha Hap Hb Hbp H1 H2 Hid Hst H3 Hw Hlim Hv.
  destruct (cv_Valid v) eqn:Hok; [right | by left].
  destruct (overlap_collides t a b a1 t1 b1 t2 a2 t3 done_ req v Ht Ha Hap Hb Hbp H1 H2 Hid H3 Hw Hlim Hv Hok)
    as (p & p' & id & -> & -> & [Hc|Hc]); [|exact Hc].
  exfalso. apply Hst. by injection Hc.
Qed.
