(* ===== verification/MqModel.v ===== *)
(** * Message queues: rows, requests and helpers

    [biz/messagequeue/model.go], [operation_helpers.go] and the conversions of
    [adapter_helpers.go]. *)

From Stdlib Require Import ZArith Lia.
From stdpp Require Import base tactics option list numbers sets.
From S2P Require Import Prelude GoStrings GoNumbers GoJson.

Open Scope Z_scope.

(** ** Names, [model.go] *)
Definition MQTypeRabbitMQ := $"rabbitmq".
Definition MQTypeKafka := $"kafka".
Definition MQTypeRocketMQ := $"rocketmq".
Definition MQTypeActiveMQ := $"activemq".
Definition MQTypePulsar := $"pulsar".
Definition InstanceStatusEnabled := $"enabled".
Definition HealthStatusHealthy := $"healthy".
Definition SyncStatusSuccess := $"success".
Definition SyncStatusFailed := $"failed".
Definition ResourceTypeNamespace := $"namespace".
Definition ResourceTypeExchange := $"exchange".
Definition ResourceTypeBinding := $"binding".
Definition ResourceTypeQueue := $"queue".
Definition ResourceTypeTopic := $"topic".
Definition ResourceTypeSubscription := $"subscription".
Definition OperationActionRabbitMQQueueUpsert := $"rabbitmq_queue_upsert".
Definition OperationActionRabbitMQExchangeUpsert := $"rabbitmq_exchange_upsert".
Definition OperationActionRabbitMQBindingUpsert := $"rabbitmq_binding_upsert".
Definition OperationActionRabbitMQQueuePurge := $"rabbitmq_queue_purge".
Definition OperationActionRabbitMQQueueDelete := $"rabbitmq_queue_delete".
Definition OperationActionRabbitMQExchangeDelete := $"rabbitmq_exchange_delete".
Definition OperationActionKafkaTopicCreate := $"kafka_topic_create".
Definition OperationActionKafkaPartitionsExpand := $"kafka_partitions_expand".
Definition OperationActionKafkaTopicConfigUpdate := $"kafka_topic_config_update".
Definition OperationActionKafkaTopicDelete := $"kafka_topic_delete".
Definition OperationActionPulsarRetentionUpdate := $"pulsar_namespace_retention_update".
Definition OperationActionPulsarTTLUpdate := $"pulsar_namespace_ttl_update".
Definition OperationActionPulsarTopicDelete := $"pulsar_topic_delete".
Definition OperationActionPulsarSubscriptionSkip := $"pulsar_subscription_skip".
Definition OperationActionPulsarSubscriptionReset := $"pulsar_subscription_reset".
Definition RiskLevelLow := $"low".
Definition RiskLevelMedium := $"medium".
Definition RiskLevelHigh := $"high".
Definition RiskLevelCritical := $"critical".
Definition PermissionResourceManage : Z := 32.
Definition PermissionHighRisk : Z := 64.

(** ** Rows: the columns that the operations read *)
Record MQInstance := {
  mi_ID : Z; mi_Name : gostring; mi_MQType : gostring; mi_Engine : gostring; mi_Version : gostring;
  mi_CredentialID : Z; mi_Status : gostring; mi_HealthStatus : gostring; mi_Environment : gostring;
  mi_BusinessSystem : gostring; mi_Owner : gostring; mi_LastSyncAt : option Z;
  mi_LastMetricAt : option Z }.

Record MQResource := {
  mr_ID : Z; mr_ResourceType : gostring; mr_Namespace : gostring; mr_Name : gostring;
  mr_FullName : gostring; mr_Durable : bool; mr_PartitionCount : Z; mr_ReplicaCount : Z;
  mr_MessageCount : Z; mr_Backlog : Z; mr_ConsumerCount : Z; mr_ConfigJSON : gostring;
  mr_LastSyncAt : option Z }.

Record MQConsumerGroup := {
  cg_ID : Z; cg_GroupName : gostring; cg_ResourceName : gostring; cg_Namespace : gostring;
  cg_State : gostring; cg_ConsumerCount : Z; cg_ActiveConsumerCount : Z; cg_CurrentOffset : Z;
  cg_EndOffset : Z; cg_Lag : Z; cg_Backlog : Z; cg_LastConsumedAt : option Z;
  cg_MetadataJSON : gostring; cg_LastSyncAt : option Z }.

Record MQBinding := {
  mb_VHost : gostring; mb_Source : gostring; mb_Destination : gostring;
  mb_DestinationType : gostring }.

(** ** Requests and results *)
Abbreviation params := (list (gostring * any)).

Record Operator := { opr_ID : Z; opr_Username : gostring; opr_ClientIP : gostring }.

Record ResourceOperationRequest := {
  ro_Action : gostring; ro_ResourceType : gostring; ro_Namespace : gostring;
  ro_ResourceName : gostring; ro_Reason : gostring; ro_ConfirmText : gostring;
  ro_Confirmed : bool; ro_IdempotencyKey : gostring; ro_Params : params }.

Record OperationDiffItem := {
  di_Key : gostring; di_Before : any; di_After : any; di_Risk : gostring }.

(** A map that is nil when absent is an option. *)
Record ResourceOperationValidationVO := {
  rv_InstanceID : Z; rv_MQType : gostring; rv_Action : gostring; rv_ActionText : gostring;
  rv_RiskLevel : gostring; rv_RequiredPermission : Z; rv_ResourceType : gostring;
  rv_Namespace : gostring; rv_ResourceName : gostring; rv_Supported : bool;
  rv_Warnings : list gostring; rv_Impacts : list gostring; rv_Before : option params;
  rv_After : option params; rv_Diff : option (list OperationDiffItem);
  rv_NormalizedParams : option params; rv_LockKey : gostring; rv_MetadataStale : bool;
  rv_MetadataStaleReason : gostring; rv_MetricStale : bool; rv_MetricStaleReason : gostring;
  rv_Message : gostring; rv_RequiresConfirm : bool; rv_RequiresHighRiskAck : bool }.

Record ResourceOperationApplyResult := {
  ap_ResourceType : gostring; ap_Namespace : gostring; ap_ResourceName : gostring;
  ap_Message : gostring; ap_Result : params }.

Record ResourceOperationResultVO := {
  rr_AuditID : Z; rr_InstanceID : Z; rr_MQType : gostring; rr_Action : gostring;
  rr_ActionText : gostring; rr_RiskLevel : gostring; rr_ResourceType : gostring;
  rr_Namespace : gostring; rr_ResourceName : gostring; rr_Status : gostring;
  rr_Message : gostring; rr_DurationMs : Z; rr_Result : any; rr_ExecutedAt : gostring }.

(** Durations are in nanoseconds. *)
Record HighRiskOperationConfig := {
  hc_Enabled : bool; hc_ReasonRequired : bool; hc_OperationMaxMetadataAge : Z;
  hc_OperationMaxMetricAge : Z; hc_RequireFreshMetricHighRisk : bool }.

(** ** Conversions, [adapter_helpers.go] *)

(** [%v] of a [float64] with an integral value: the shortest form of [%g], with
    an exponent from 1e6... on. *)
Definition trim_zeros (s : gostring) : gostring := trim_right_func (fun r => r =? 48) s.
Definition fmt_exponent (e : Z) : gostring := if e <? 10 then 48 :: fmt_d e else fmt_d e.
Definition fmt_g (z : Z) : gostring :=
  let digits := fmt_d (Z.abs z) in
  let exp := Z.of_nat (length digits) - 1 in
  if exp <? 6 then fmt_d z
  else (if z <? 0 then [45] else []) ++ take 1 digits ++
       (match trim_zeros (drop 1 digits) with [] => [] | r => 46 :: r end) ++
       [101; 43] ++ fmt_exponent exp.

(** [fmt.Sprint] of one value. *)
Definition sprint_map (entries : list (gostring * gostring)) : gostring :=
  $"map[" ++ Join ((fun e => e.1 ++ [58] ++ e.2) <$> sorted_entries entries) $" " ++ $"]".
Fixpoint Sprint (v : any) : gostring :=
  match v with
  | ANil => $"<nil>"
  | ABool b => if b then $"true" else $"false"
  | AInt z | AInt64 z | AUint z => fmt_d z
  | AFloat z => fmt_g z
  | AText s => s
  | AMap m => sprint_map ((fun e => (e.1, Sprint e.2)) <$> m)
  | ATextMap m => sprint_map m
  | ASlice l => $"[" ++ Join (Sprint <$> l) $" " ++ $"]"
  | AStruct fields => $"{" ++ Join ((fun e => Sprint e.2) <$> fields) $" " ++ $"}"
  end.

Definition stringValue (v : any) : gostring :=
  match v with
  | AText s => s
  | AFloat z | AInt z | AInt64 z => fmt_d z
  | ANil => []
  | _ => Sprint v
  end.

Definition boolValue (v : any) : bool :=
  match v with
  | ABool b => b
  | AText s => bool_decide (s = $"true") || bool_decide (s = $"1")
  | _ => false
  end.

(** [strconv.ParseInt(s, 10, 64)]: the number and whether there was no error;
    out of range it is the nearest number. *)
Definition decimal_value (s : gostring) : option Z :=
  match s with
  | [] => None
  | _ => if forallb ascii_digit s then Some (foldl (fun acc r => acc * 10 + (r - 48)) 0 s) else None
  end.
Definition ParseInt (s : gostring) : Z * bool :=
  let '(negative, digits) :=
    match s with
    | c :: s' => if c =? 45 then (true, s') else if c =? 43 then (false, s') else (false, s)
    | [] => (false, s)
    end in
  match decimal_value digits with
  | None => (0, false)
  | Some n =>
    if negative then (if 2 ^ 63 <? n then (- 2 ^ 63, false) else (- n, true))
    else (if 2 ^ 63 <=? n then (2 ^ 63 - 1, false) else (n, true))
  end.
Definition Atoi (s : gostring) : Z := (ParseInt s).1.

Definition intValue (v : any) : Z :=
  match v with
  | AFloat z | AInt z | AInt64 z => z
  | AText s => Atoi s
  | _ => 0
  end.
Definition int64Value (v : any) : Z :=
  match v with
  | AFloat z | AInt z | AInt64 z => z
  | AText s => (ParseInt s).1
  | _ => 0
  end.

(** [mustJSON]; the nil interface is the empty text. *)
Definition mustJSON (v : any) : gostring := match v with ANil => [] | _ => Marshal v end.
(** A map that may be nil, as a value. *)
Definition nil_map (m : option params) : gostring :=
  match m with Some m => Marshal (AMap m) | None => $"null" end.

(** ** Texts, [usecase.go] *)
Definition firstNonEmpty (values : list gostring) : gostring :=
  match List.find (fun v => negb (bool_decide (TrimSpace v = []))) values with
  | Some v => TrimSpace v
  | None => []
  end.

(** [value[:max]] counts bytes. The bytes of a rune that is cut apart are no
    text; each is written U+FFFD here, as [encoding/json] prints it. *)
Fixpoint take_bytes (max : Z) (s : gostring) : gostring :=
  match s with
  | [] => []
  | r :: s' =>
    if rune_bytes r <=? max then r :: take_bytes (max - rune_bytes r) s'
    else replicate (Z.to_nat max) 65533
  end.
Definition trimText (value : gostring) (max : Z) : gostring :=
  let value := TrimSpace value in
  if (0 <? max) && (max <? byte_len value) then take_bytes max value else value.

Definition appendUniqueString (items : list gostring) (value : gostring) : list gostring :=
  let value := TrimSpace value in
  if bool_decide (value = []) then items
  else if bool_decide (value ∈ items) then items else items ++ [value].

(** ** Parameters, [operation_helpers.go] *)

(** Readers of JSON texts that come from a request or a row. *)
Class JsonReader := {
  read_text_map : gostring -> option (list (gostring * gostring));
  read_map : gostring -> option params;
}.

(** The first of the keys that is there. *)
Fixpoint first_param (p : params) (keys : list gostring) : option any :=
  match keys with
  | [] => None
  | k :: keys' => match map_get p k with Some v => Some v | None => first_param p keys' end
  end.

Definition cloneParams (p : option params) : params := default [] p.
Definition operationStringParam (p : params) (keys : list gostring) : gostring :=
  match first_param p keys with Some v => TrimSpace (stringValue v) | None => [] end.
Definition operationParamExists (p : params) (keys : list gostring) : bool :=
  match first_param p keys with Some _ => true | None => false end.
Definition operationBoolParam (p : params) (fallback : bool) (keys : list gostring) : bool :=
  match first_param p keys with Some v => boolValue v | None => fallback end.
Definition operationIntParam (p : params) (fallback : Z) (keys : list gostring) : Z :=
  match first_param p keys with Some v => intValue v | None => fallback end.

Section reader.
Context `{!JsonReader}.

Fixpoint operationStringMapParam (p : params) (keys : list gostring) : list (gostring * gostring) :=
  match keys with
  | [] => []
  | k :: keys' =>
    match map_get p k with
    | Some (ATextMap m) => m
    | Some (AMap m) =>
      foldl (fun result e => map_set result (TrimSpace e.1) (stringValue e.2)) [] m
    | Some (AText s) =>
      match read_text_map s with Some m => m | None => operationStringMapParam p keys' end
    | _ => operationStringMapParam p keys'
    end
  end.

Fixpoint operationAnyMapParam (p : params) (keys : list gostring) : params :=
  match keys with
  | [] => []
  | k :: keys' =>
    match map_get p k with
    | Some (AMap m) => m
    | Some (ATextMap m) => (fun e => (e.1, AText e.2)) <$> m
    | Some (AText s) => match read_map s with Some m => m | None => operationAnyMapParam p keys' end
    | _ => operationAnyMapParam p keys'
    end
  end.

(** [parseJSONMap]. *)
Definition parseJSONMap (value : gostring) : params :=
  let value := TrimSpace value in
  if bool_decide (value = []) then [] else default [] (read_map value).
End reader.

Definition normalizeResourceOperationRequest (r : ResourceOperationRequest) : ResourceOperationRequest :=
  {| ro_Action := TrimSpace (ro_Action r); ro_ResourceType := TrimSpace (ro_ResourceType r);
     ro_Namespace := TrimSpace (ro_Namespace r); ro_ResourceName := TrimSpace (ro_ResourceName r);
     ro_Reason := TrimSpace (ro_Reason r); ro_ConfirmText := TrimSpace (ro_ConfirmText r);
     ro_Confirmed := ro_Confirmed r; ro_IdempotencyKey := TrimSpace (ro_IdempotencyKey r);
     ro_Params := ro_Params r |}.

Definition ensureOperationRequired (value label : gostring) : result unit :=
  if bool_decide (TrimSpace value = []) then Err (label ++ $"不能为空") else Ok tt.

Section types.
Context `{UnicodeTables}.

Definition NormalizeType (mqType : gostring) : gostring := ToLower (TrimSpace mqType).
Definition TypeText (mqType : gostring) : gostring :=
  let t := NormalizeType mqType in
  if bool_decide (t = MQTypeRabbitMQ) then $"RabbitMQ"
  else if bool_decide (t = MQTypeKafka) then $"Kafka"
  else if bool_decide (t = MQTypeRocketMQ) then $"RocketMQ"
  else if bool_decide (t = MQTypeActiveMQ) then $"ActiveMQ"
  else if bool_decide (t = MQTypePulsar) then $"Pulsar"
  else TrimSpace mqType.

Definition IsHighRiskLevel (riskLevel : gostring) : bool :=
  let l := ToLower (TrimSpace riskLevel) in
  bool_decide (l = RiskLevelHigh) || bool_decide (l = RiskLevelCritical).
End types.

(** [actionText]; an action it does not list is itself. *)
Definition action_texts : list (gostring * gostring) :=
  [(OperationActionRabbitMQQueueUpsert, $"RabbitMQ Queue 创建/更新");
   (OperationActionRabbitMQExchangeUpsert, $"RabbitMQ Exchange 创建/更新");
   (OperationActionRabbitMQBindingUpsert, $"RabbitMQ Binding 创建/更新");
   (OperationActionRabbitMQQueuePurge, $"RabbitMQ Queue 清空");
   (OperationActionRabbitMQQueueDelete, $"RabbitMQ Queue 删除");
   (OperationActionRabbitMQExchangeDelete, $"RabbitMQ Exchange 删除");
   (OperationActionKafkaTopicCreate, $"Kafka Topic 创建");
   (OperationActionKafkaPartitionsExpand, $"Kafka 分区扩容");
   (OperationActionKafkaTopicConfigUpdate, $"Kafka Topic 配置更新");
   (OperationActionKafkaTopicDelete, $"Kafka Topic 删除");
   (OperationActionPulsarRetentionUpdate, $"Pulsar Namespace Retention 更新");
   (OperationActionPulsarTTLUpdate, $"Pulsar Namespace TTL 更新");
   (OperationActionPulsarTopicDelete, $"Pulsar Topic 删除");
   (OperationActionPulsarSubscriptionSkip, $"Pulsar Subscription 跳过");
   (OperationActionPulsarSubscriptionReset, $"Pulsar Subscription Cursor 重置");
   ($"connection_test", $"连接测试"); ($"metadata_sync", $"元数据同步");
   ($"message_sample", $"消息采样"); ($"message_schema_inspect", $"消息 Schema 检查");
   ($"message_replay_apply", $"消息重放申请"); ($"metric_snapshot_collect", $"指标快照采集");
   ($"inspection_run", $"巡检报告生成"); ($"config_clone_plan", $"配置克隆计划");
   ($"config_clone_apply", $"配置克隆执行"); ($"instance_permission_upsert", $"实例权限保存");
   ($"instance_permission_delete", $"实例权限删除")].
Definition actionText (action : gostring) : gostring := default action (map_get action_texts action).
