(* ===== verification/MqAdapters.v ===== *)
(** * Message queues: what the adapters accept and send

    [ValidateOperation] and [ApplyOperation] of [adapter_kafka.go],
    [adapter_rabbitmq.go] and [adapter_pulsar.go]. [ValidateOperation] writes
    the request it is given, so it returns it. The answer of a broker is a
    parameter; what is sent to it is a [broker_call]. *)

From Stdlib Require Import ZArith Lia.
From stdpp Require Import base tactics option list numbers sets.
From S2P Require Import Prelude GoStrings GoNumbers GoCrypto GoJson MqModel.

Open Scope Z_scope.

Section adapters.
Context `{!JsonReader, UnicodeTables}.

(** ** Building a validation, [operation_helpers.go] *)
Definition newOperationValidation (i : MQInstance) (r : ResourceOperationRequest) (riskLevel : gostring) :
    ResourceOperationValidationVO :=
  {| rv_InstanceID := mi_ID i; rv_MQType := mi_MQType i; rv_Action := ro_Action r;
     rv_ActionText := actionText (ro_Action r); rv_RiskLevel := riskLevel;
     rv_RequiredPermission := PermissionResourceManage; rv_ResourceType := ro_ResourceType r;
     rv_Namespace := ro_Namespace r; rv_ResourceName := ro_ResourceName r; rv_Supported := true;
     rv_Warnings := []; rv_Impacts := []; rv_Before := None; rv_After := None; rv_Diff := None;
     rv_NormalizedParams := Some (ro_Params r); rv_LockKey := []; rv_MetadataStale := false;
     rv_MetadataStaleReason := []; rv_MetricStale := false; rv_MetricStaleReason := [];
     rv_Message := []; rv_RequiresConfirm := true;
     rv_RequiresHighRiskAck := bool_decide (riskLevel = RiskLevelHigh) || bool_decide (riskLevel = RiskLevelCritical) |}.

Definition unsupportedOperationValidation (i : MQInstance) (r : ResourceOperationRequest)
    (message : gostring) : ResourceOperationValidationVO :=
  let v := newOperationValidation i r RiskLevelLow in
  {| rv_InstanceID := rv_InstanceID v; rv_MQType := rv_MQType v; rv_Action := rv_Action v;
     rv_ActionText := rv_ActionText v; rv_RiskLevel := rv_RiskLevel v;
     rv_RequiredPermission := rv_RequiredPermission v; rv_ResourceType := rv_ResourceType v;
     rv_Namespace := rv_Namespace v; rv_ResourceName := rv_ResourceName v; rv_Supported := false;
     rv_Warnings := rv_Warnings v; rv_Impacts := rv_Impacts v; rv_Before := rv_Before v;
     rv_After := rv_After v; rv_Diff := rv_Diff v; rv_NormalizedParams := rv_NormalizedParams v;
     rv_LockKey := rv_LockKey v; rv_MetadataStale := rv_MetadataStale v;
     rv_MetadataStaleReason := rv_MetadataStaleReason v; rv_MetricStale := rv_MetricStale v;
     rv_MetricStaleReason := rv_MetricStaleReason v; rv_Message := message;
     rv_RequiresConfirm := rv_RequiresConfirm v; rv_RequiresHighRiskAck := rv_RequiresHighRiskAck v |}.

(** The assignments at the end of every [validate...]: type, namespace, name
    and parameters of the request and of the validation, with the permission,
    the message, the impacts and the warnings of the validation
    ([setNormalizedParams] is the last of them). *)
Definition target := (gostring * gostring * gostring)%type.
Definition retarget (r : ResourceOperationRequest) (t : target) (p : params) : ResourceOperationRequest :=
  {| ro_Action := ro_Action r; ro_ResourceType := t.1.1; ro_Namespace := t.1.2;
     ro_ResourceName := t.2; ro_Reason := ro_Reason r; ro_ConfirmText := ro_ConfirmText r;
     ro_Confirmed := ro_Confirmed r; ro_IdempotencyKey := ro_IdempotencyKey r; ro_Params := p |}.
Definition describe (v : ResourceOperationValidationVO) (permission : Z) (t : target)
    (message : gostring) (impacts warnings : list gostring) (p : params) : ResourceOperationValidationVO :=
  {| rv_InstanceID := rv_InstanceID v; rv_MQType := rv_MQType v; rv_Action := rv_Action v;
     rv_ActionText := rv_ActionText v; rv_RiskLevel := rv_RiskLevel v;
     rv_RequiredPermission := permission; rv_ResourceType := t.1.1; rv_Namespace := t.1.2;
     rv_ResourceName := t.2; rv_Supported := rv_Supported v; rv_Warnings := warnings;
     rv_Impacts := impacts; rv_Before := rv_Before v; rv_After := rv_After v; rv_Diff := rv_Diff v;
     rv_NormalizedParams := Some p; rv_LockKey := rv_LockKey v;
     rv_MetadataStale := rv_MetadataStale v; rv_MetadataStaleReason := rv_MetadataStaleReason v;
     rv_MetricStale := rv_MetricStale v; rv_MetricStaleReason := rv_MetricStaleReason v;
     rv_Message := message; rv_RequiresConfirm := rv_RequiresConfirm v;
     rv_RequiresHighRiskAck := rv_RequiresHighRiskAck v |}.

Definition validated : Type := ResourceOperationValidationVO * ResourceOperationRequest.
(** What a [validate...] ends with. *)
Definition conclude (i : MQInstance) (r : ResourceOperationRequest) (riskLevel : gostring)
    (permission : Z) (t : target) (message : gostring) (impacts warnings : list gostring)
    (p : params) : result validated :=
  Ok (describe (newOperationValidation i r riskLevel) permission t message impacts warnings p, retarget r t p).

(** What is sent to a broker: a request of the Kafka client, or an HTTP request
    below the management address of the instance. *)
Inductive broker_call :=
| KafkaCreateTopics (topic : gostring) (partitions replication : Z) (configs : list (gostring * gostring))
| KafkaCreatePartitions (topic : gostring) (count : Z)
| KafkaIncrementalAlterConfigs (topic : gostring) (configs : list (gostring * gostring))
| KafkaDeleteTopics (topic : gostring)
| HttpRequest (method path : gostring) (body : option any).

Definition applied : Type := broker_call * ResourceOperationApplyResult.
Definition apply_result (resourceType namespace resourceName message : gostring) (result : params) :
    ResourceOperationApplyResult :=
  {| ap_ResourceType := resourceType; ap_Namespace := namespace; ap_ResourceName := resourceName;
     ap_Message := message; ap_Result := result |}.

(** ** Kafka *)
Definition kafkaTopicConfigUpdateAllowed (key : gostring) : bool :=
  one_of (TrimSpace key) [$"retention.ms"; $"retention.bytes"; $"cleanup.policy"; $"compression.type";
    $"max.message.bytes"; $"min.insync.replicas"; $"segment.ms"].

Definition kafka_topic (r : ResourceOperationRequest) : gostring :=
  firstNonEmpty [ro_ResourceName r; operationStringParam (ro_Params r) [$"topic"; $"name"]].

Definition validateTopicCreate (i : MQInstance) (r : ResourceOperationRequest) : result validated :=
  let topic := kafka_topic r in
  _ ← ensureOperationRequired topic $"Topic名称";
  let partitions := operationIntParam (ro_Params r) 1 [$"partitions"; $"numPartitions"] in
  let replicationFactor := operationIntParam (ro_Params r) 1 [$"replicationFactor"] in
  if partitions <=? 0 then Err $"分区数必须大于0"
  else if replicationFactor <=? 0 then Err $"副本数必须大于0"
  else
    let configs := operationStringMapParam (ro_Params r) [$"configs"] in
    conclude i r RiskLevelLow PermissionResourceManage (ResourceTypeTopic, ro_Namespace r, topic)
      $"将通过 Kafka Controller 创建 Topic"
      [$"Topic: " ++ topic; $"分区数: " ++ fmt_d partitions; $"副本数: " ++ fmt_d replicationFactor]
      [$"CreateTopics 具备幂等语义，已存在 Topic 通常不会重复创建"]
      [($"partitions", AInt partitions); ($"replicationFactor", AInt replicationFactor);
       ($"configs", ATextMap configs)].

Definition validatePartitionsExpand (i : MQInstance) (r : ResourceOperationRequest) : result validated :=
  let topic := kafka_topic r in
  _ ← ensureOperationRequired topic $"Topic名称";
  let partitions := operationIntParam (ro_Params r) 0 [$"partitions"; $"count"] in
  if partitions <=? 0 then Err $"目标分区数必须大于0"
  else
    conclude i r RiskLevelMedium PermissionResourceManage (ResourceTypeTopic, ro_Namespace r, topic)
      $"将通过 Kafka Controller 扩展 Topic 分区"
      [$"Topic: " ++ topic; $"目标分区数: " ++ fmt_d partitions]
      [$"Kafka 分区只能增加不能减少，扩容会影响后续消息分布"]
      [($"partitions", AInt partitions)].

Definition validateTopicConfigUpdate (i : MQInstance) (r : ResourceOperationRequest) : result validated :=
  let topic := kafka_topic r in
  _ ← ensureOperationRequired topic $"Topic名称";
  let configs := operationStringMapParam (ro_Params r) [$"configs"] in
  if bool_decide (configs = []) then Err $"Topic配置不能为空"
  else
    match List.find (fun e => negb (kafkaTopicConfigUpdateAllowed (TrimSpace e.1))) configs with
    | Some e => Err ($"Kafka Topic配置 " ++ TrimSpace e.1 ++ $" 不在二期允许更新白名单内")
    | None =>
      conclude i r RiskLevelMedium PermissionResourceManage (ResourceTypeTopic, ro_Namespace r, topic)
        $"将通过 Kafka IncrementalAlterConfigs 更新 Topic 配置"
        [$"Topic: " ++ topic; $"配置项数量: " ++ fmt_d (Z.of_nat (length configs))]
        [$"配置更新会影响 Topic 运行行为，请确认 retention、cleanup.policy 等关键参数"]
        [($"configs", ATextMap configs)]
    end.

Definition kafka_validateTopicDelete (i : MQInstance) (r : ResourceOperationRequest) : result validated :=
  let topic := kafka_topic r in
  _ ← ensureOperationRequired topic $"Topic名称";
  conclude i r RiskLevelHigh PermissionHighRisk (ResourceTypeTopic, ro_Namespace r, topic)
    $"将通过 Kafka Controller 删除 Topic"
    [$"Topic: " ++ topic; $"Topic 删除后分区、消息和消费位点关联信息会失效"]
    [$"删除 Topic 依赖 broker 开启 delete.topic.enable，执行后可能异步完成"]
    [($"topic", AText topic)].

Definition unsupported (i : MQInstance) (r : ResourceOperationRequest) (message : gostring) :
    result validated := Ok (unsupportedOperationValidation i r message, r).

Definition kafka_ValidateOperation (i : MQInstance) (r : ResourceOperationRequest) : result validated :=
  let r := normalizeResourceOperationRequest r in
  let a := ro_Action r in
  if bool_decide (a = OperationActionKafkaTopicCreate) then validateTopicCreate i r
  else if bool_decide (a = OperationActionKafkaPartitionsExpand) then validatePartitionsExpand i r
  else if bool_decide (a = OperationActionKafkaTopicConfigUpdate) then validateTopicConfigUpdate i r
  else if bool_decide (a = OperationActionKafkaTopicDelete) then kafka_validateTopicDelete i r
  else unsupported i r $"Kafka 不支持该资源操作".

Definition adapterNotSupported (mqType capability : gostring) : gostring :=
  TypeText mqType ++ $" " ++ capability ++ $" 能力将在后续批次接入".

(** [int32(count)]. *)
Definition int32 (z : Z) : Z := (z + 2 ^ 31) mod 2 ^ 32 - 2 ^ 31.

(** [ApplyOperation] up to the call: the request is validated again. *)
Definition applying (validate : MQInstance -> ResourceOperationRequest -> result validated)
    (send : MQInstance -> ResourceOperationRequest -> ResourceOperationValidationVO -> result applied)
    (i : MQInstance) (r : ResourceOperationRequest) : result applied :=
  vr ← validate i r;
  let '(v, r) := vr in
  if rv_Supported v then send i r v else Err (rv_Message v).

Definition kafka_send (i : MQInstance) (r : ResourceOperationRequest)
    (v : ResourceOperationValidationVO) : result applied :=
  let topic := rv_ResourceName v in
  let p := cloneParams (rv_NormalizedParams v) in
  let configs := operationStringMapParam p [$"configs"] in
  let a := ro_Action r in
  if bool_decide (a = OperationActionKafkaTopicCreate) then
    let partitions := operationIntParam p 1 [$"partitions"; $"numPartitions"] in
    let replication := operationIntParam p 1 [$"replicationFactor"] in
    Ok (KafkaCreateTopics topic partitions replication configs,
        apply_result ResourceTypeTopic [] topic $"Kafka Topic 创建已提交"
          [($"topic", AText topic); ($"partitions", AInt partitions);
           ($"replicationFactor", AInt replication); ($"configs", ATextMap configs)])
  else if bool_decide (a = OperationActionKafkaPartitionsExpand) then
    let count := operationIntParam p 0 [$"partitions"; $"count"] in
    Ok (KafkaCreatePartitions topic (int32 count),
        apply_result ResourceTypeTopic [] topic $"Kafka Topic 分区扩容已提交"
          [($"topic", AText topic); ($"partitions", AInt count)])
  else if bool_decide (a = OperationActionKafkaTopicConfigUpdate) then
    Ok (KafkaIncrementalAlterConfigs topic configs,
        apply_result ResourceTypeTopic [] topic $"Kafka Topic 配置更新已提交"
          [($"topic", AText topic); ($"configs", ATextMap configs)])
  else if bool_decide (a = OperationActionKafkaTopicDelete) then
    Ok (KafkaDeleteTopics topic,
        apply_result ResourceTypeTopic [] topic $"Kafka Topic 删除已提交" [($"topic", AText topic)])
  else Err (adapterNotSupported (mi_MQType i) $"资源操作").
Definition kafka_ApplyOperation := applying kafka_ValidateOperation kafka_send.

(** ** Addresses: [url.PathEscape] *)
Definition path_plain (b : Z) : bool :=
  ((97 <=? b) && (b <=? 122)) || ((65 <=? b) && (b <=? 90)) || ((48 <=? b) && (b <=? 57)) ||
  bool_decide (b ∈ [45; 95; 46; 126; 36; 38; 43; 58; 61; 64]).
Definition escape_byte (b : Z) : gostring :=
  if path_plain b then [b] else [37; hex_digit (b / 16); hex_digit (b mod 16)].
Definition escapePath (value : gostring) : gostring := utf8 value ≫= escape_byte.
Definition bool_text (b : bool) : gostring := if b then $"true" else $"false".

(** ** RabbitMQ *)
Definition rabbit_vhost (r : ResourceOperationRequest) : gostring :=
  firstNonEmpty [ro_Namespace r; operationStringParam (ro_Params r) [$"vhost"]; $"/"].
Definition auto_delete_keys : list gostring := [$"autoDelete"; $"auto_delete"].

Definition validateQueueUpsert (i : MQInstance) (r : ResourceOperationRequest) : result validated :=
  let vhost := rabbit_vhost r in
  let name := firstNonEmpty [ro_ResourceName r; operationStringParam (ro_Params r) [$"queue"; $"name"]] in
  _ ← ensureOperationRequired name $"Queue名称";
  conclude i r RiskLevelLow PermissionResourceManage (ResourceTypeQueue, vhost, name)
    $"将通过 RabbitMQ Management API 创建或更新 Queue"
    [$"目标 vhost: " ++ vhost; $"Queue: " ++ name]
    [$"如果 Queue 已存在，RabbitMQ 会校验 durable/auto_delete/arguments 是否兼容"]
    [($"durable", ABool (operationBoolParam (ro_Params r) true [$"durable"]));
     ($"autoDelete", ABool (operationBoolParam (ro_Params r) false auto_delete_keys));
     ($"arguments", AMap (operationAnyMapParam (ro_Params r) [$"arguments"]))].

Definition validateExchangeUpsert (i : MQInstance) (r : ResourceOperationRequest) : result validated :=
  let vhost := rabbit_vhost r in
  let name := firstNonEmpty [ro_ResourceName r; operationStringParam (ro_Params r) [$"exchange"; $"name"]] in
  let exchangeType := firstNonEmpty [operationStringParam (ro_Params r) [$"type"]; $"direct"] in
  _ ← ensureOperationRequired name $"Exchange名称";
  conclude i r RiskLevelLow PermissionResourceManage (ResourceTypeExchange, vhost, name)
    $"将通过 RabbitMQ Management API 创建或更新 Exchange"
    [$"目标 vhost: " ++ vhost; $"Exchange: " ++ name; $"类型: " ++ exchangeType]
    [$"如果 Exchange 已存在，RabbitMQ 会校验 type/durable/arguments 是否兼容"]
    [($"type", AText exchangeType);
     ($"durable", ABool (operationBoolParam (ro_Params r) true [$"durable"]));
     ($"autoDelete", ABool (operationBoolParam (ro_Params r) false auto_delete_keys));
     ($"internal", ABool (operationBoolParam (ro_Params r) false [$"internal"]));
     ($"arguments", AMap (operationAnyMapParam (ro_Params r) [$"arguments"]))].

Definition normalizeRabbitDestinationType (value : gostring) : gostring :=
  let t := ToLower (TrimSpace value) in
  if bool_decide (t = $"exchange") || bool_decide (t = $"e") then ResourceTypeExchange else ResourceTypeQueue.

Definition validateBindingUpsert (i : MQInstance) (r : ResourceOperationRequest) : result validated :=
  let vhost := rabbit_vhost r in
  let source := operationStringParam (ro_Params r) [$"source"] in
  let destinationType := normalizeRabbitDestinationType
    (operationStringParam (ro_Params r) [$"destinationType"; $"destination_type"]) in
  let destination := firstNonEmpty [ro_ResourceName r;
    operationStringParam (ro_Params r) [$"destination"; $"name"]] in
  let routingKey := operationStringParam (ro_Params r) [$"routingKey"; $"routing_key"] in
  _ ← ensureOperationRequired source $"源Exchange";
  _ ← ensureOperationRequired destination $"目标资源";
  conclude i r RiskLevelMedium PermissionResourceManage (ResourceTypeBinding, vhost, destination)
    $"将通过 RabbitMQ Management API 创建 Binding"
    [$"源 Exchange: " ++ source; $"目标 " ++ destinationType ++ $": " ++ destination;
     $"RoutingKey: " ++ routingKey]
    [$"Binding 会改变后续消息路由关系，请确认路由键和目标资源"]
    [($"source", AText source); ($"destinationType", AText destinationType);
     ($"routingKey", AText routingKey);
     ($"arguments", AMap (operationAnyMapParam (ro_Params r) [$"arguments"]))].

Definition rabbit_queue (r : ResourceOperationRequest) : gostring :=
  firstNonEmpty [ro_ResourceName r; operationStringParam (ro_Params r) [$"queue"; $"name"]].

Definition validateQueuePurge (i : MQInstance) (r : ResourceOperationRequest) : result validated :=
  let vhost := rabbit_vhost r in
  let name := rabbit_queue r in
  _ ← ensureOperationRequired name $"Queue名称";
  conclude i r RiskLevelHigh PermissionHighRisk (ResourceTypeQueue, vhost, name)
    $"将清空 RabbitMQ Queue 中所有 ready 消息"
    [$"目标 vhost: " ++ vhost; $"Queue: " ++ name; $"清空后未消费消息不可恢复"]
    [$"Purge 不会删除 Queue 本身，但会丢弃当前堆积消息，请确认消费者可接受"]
    [($"vhost", AText vhost); ($"queue", AText name)].

Definition unused_keys : list gostring := [$"ifUnused"; $"if_unused"].
Definition empty_keys : list gostring := [$"ifEmpty"; $"if_empty"].

Definition validateQueueDelete (i : MQInstance) (r : ResourceOperationRequest) : result validated :=
  let vhost := rabbit_vhost r in
  let name := rabbit_queue r in
  _ ← ensureOperationRequired name $"Queue名称";
  conclude i r RiskLevelHigh PermissionHighRisk (ResourceTypeQueue, vhost, name)
    $"将删除 RabbitMQ Queue"
    [$"目标 vhost: " ++ vhost; $"Queue: " ++ name; $"Queue 删除后绑定关系和未消费消息会丢失"]
    [$"删除 Queue 会影响生产者路由和消费者订阅，请先确认业务已停用或完成迁移"]
    [($"vhost", AText vhost); ($"queue", AText name);
     ($"ifUnused", ABool (operationBoolParam (ro_Params r) false unused_keys));
     ($"ifEmpty", ABool (operationBoolParam (ro_Params r) false empty_keys))].

Definition validateExchangeDelete (i : MQInstance) (r : ResourceOperationRequest) : result validated :=
  let vhost := rabbit_vhost r in
  let name := firstNonEmpty [ro_ResourceName r; operationStringParam (ro_Params r) [$"exchange"; $"name"]] in
  _ ← ensureOperationRequired name $"Exchange名称";
  conclude i r RiskLevelHigh PermissionHighRisk (ResourceTypeExchange, vhost, name)
    $"将删除 RabbitMQ Exchange"
    [$"目标 vhost: " ++ vhost; $"Exchange: " ++ name; $"Exchange 删除后相关路由会失效"]
    [$"删除 Exchange 会影响后续消息路由，请确认没有生产者继续写入；存在 binding 时必须显式 force=true"]
    [($"vhost", AText vhost); ($"exchange", AText name);
     ($"ifUnused", ABool (operationBoolParam (ro_Params r) false unused_keys));
     ($"force", ABool (operationBoolParam (ro_Params r) false [$"force"]))].

Definition rabbit_ValidateOperation (i : MQInstance) (r : ResourceOperationRequest) : result validated :=
  let r := normalizeResourceOperationRequest r in
  let a := ro_Action r in
  if bool_decide (a = OperationActionRabbitMQQueueUpsert) then validateQueueUpsert i r
  else if bool_decide (a = OperationActionRabbitMQExchangeUpsert) then validateExchangeUpsert i r
  else if bool_decide (a = OperationActionRabbitMQBindingUpsert) then validateBindingUpsert i r
  else if bool_decide (a = OperationActionRabbitMQQueuePurge) then validateQueuePurge i r
  else if bool_decide (a = OperationActionRabbitMQQueueDelete) then validateQueueDelete i r
  else if bool_decide (a = OperationActionRabbitMQExchangeDelete) then validateExchangeDelete i r
  else unsupported i r $"RabbitMQ 不支持该资源操作".

Definition rabbit_send (i : MQInstance) (r : ResourceOperationRequest)
    (v : ResourceOperationValidationVO) : result applied :=
  let vhost := rv_Namespace v in
  let name := rv_ResourceName v in
  let p := cloneParams (rv_NormalizedParams v) in
  let durable := ABool (operationBoolParam p true [$"durable"]) in
  let auto_delete := ABool (operationBoolParam p false auto_delete_keys) in
  let arguments := AMap (operationAnyMapParam p [$"arguments"]) in
  let ifUnused := bool_text (operationBoolParam p false unused_keys) in
  let ifEmpty := bool_text (operationBoolParam p false empty_keys) in
  let queue_path := $"/api/queues/" ++ escapePath vhost ++ $"/" ++ escapePath name in
  let exchange_path := $"/api/exchanges/" ++ escapePath vhost ++ $"/" ++ escapePath name in
  let a := ro_Action r in
  if bool_decide (a = OperationActionRabbitMQQueueUpsert) then
    let body := AMap [($"durable", durable); ($"auto_delete", auto_delete); ($"arguments", arguments)] in
    Ok (HttpRequest $"PUT" queue_path (Some body),
        apply_result ResourceTypeQueue vhost name $"RabbitMQ Queue 创建/更新已提交"
          [($"vhost", AText vhost); ($"queue", AText name); ($"body", body)])
  else if bool_decide (a = OperationActionRabbitMQExchangeUpsert) then
    let body := AMap [($"type", AText (operationStringParam p [$"type"])); ($"durable", durable);
      ($"auto_delete", auto_delete);
      ($"internal", ABool (operationBoolParam p false [$"internal"])); ($"arguments", arguments)] in
    Ok (HttpRequest $"PUT" exchange_path (Some body),
        apply_result ResourceTypeExchange vhost name $"RabbitMQ Exchange 创建/更新已提交"
          [($"vhost", AText vhost); ($"exchange", AText name); ($"body", body)])
  else if bool_decide (a = OperationActionRabbitMQBindingUpsert) then
    let source := operationStringParam p [$"source"] in
    let destinationType := normalizeRabbitDestinationType
      (operationStringParam p [$"destinationType"; $"destination_type"]) in
    let segment := if bool_decide (destinationType = ResourceTypeExchange) then $"e" else $"q" in
    let body := AMap [($"routing_key", AText (operationStringParam p [$"routingKey"; $"routing_key"]));
      ($"arguments", arguments)] in
    Ok (HttpRequest $"POST" ($"/api/bindings/" ++ escapePath vhost ++ $"/e/" ++ escapePath source ++
          $"/" ++ segment ++ $"/" ++ escapePath name) (Some body),
        apply_result ResourceTypeBinding vhost name $"RabbitMQ Binding 创建/更新已提交"
          [($"vhost", AText vhost); ($"source", AText source);
           ($"destinationType", AText destinationType); ($"destination", AText name); ($"body", body)])
  else if bool_decide (a = OperationActionRabbitMQQueuePurge) then
    Ok (HttpRequest $"DELETE" (queue_path ++ $"/contents") None,
        apply_result ResourceTypeQueue vhost name $"RabbitMQ Queue 已清空"
          [($"vhost", AText vhost); ($"queue", AText name)])
  else if bool_decide (a = OperationActionRabbitMQQueueDelete) then
    Ok (HttpRequest $"DELETE" (queue_path ++ $"?if-empty=" ++ ifEmpty ++ $"&if-unused=" ++ ifUnused) None,
        apply_result ResourceTypeQueue vhost name $"RabbitMQ Queue 已删除"
          [($"vhost", AText vhost); ($"queue", AText name); ($"ifUnused", AText ifUnused);
           ($"ifEmpty", AText ifEmpty)])
  else if bool_decide (a = OperationActionRabbitMQExchangeDelete) then
    Ok (HttpRequest $"DELETE" (exchange_path ++ $"?if-unused=" ++ ifUnused) None,
        apply_result ResourceTypeExchange vhost name $"RabbitMQ Exchange 已删除"
          [($"vhost", AText vhost); ($"exchange", AText name); ($"ifUnused", AText ifUnused)])
  else Err (adapterNotSupported (mi_MQType i) $"资源操作").
Definition rabbit_ApplyOperation := applying rabbit_ValidateOperation rabbit_send.

(** ** Pulsar *)
Definition count_slashes (s : gostring) : Z := Z.of_nat (length (List.filter (fun r => r =? 47) s)).

Definition normalizePulsarTopicName (topic : gostring) : gostring :=
  let topic := TrimSpace topic in
  if bool_decide (topic = []) || Contains topic $"://" then topic
  else if count_slashes topic =? 2 then $"persistent://" ++ topic else topic.

(** [strings.Split(s, "/")] of a text with one slash. *)
Definition slash_parts (s : gostring) : gostring * gostring :=
  match split_at 47 s with a :: b :: _ => (a, b) | [a] => (a, []) | [] => ([], []) end.

Definition normalizePulsarNamespace (r : ResourceOperationRequest) : result (gostring * gostring * gostring) :=
  let p := ro_Params r in
  let raw := firstNonEmpty [operationStringParam p [$"fullName"; $"namespaceFullName"];
    ro_ResourceName r; ro_Namespace r; operationStringParam p [$"namespace"]] in
  let tenant := operationStringParam p [$"tenant"] in
  let namespace := operationStringParam p [$"namespace"] in
  let '(tenant, namespace) :=
    if count_slashes raw =? 1 then
      let '(a, b) := slash_parts raw in (firstNonEmpty [tenant; a], b)
    else if count_slashes (ro_Namespace r) =? 1 then
      let '(a, b) := slash_parts (ro_Namespace r) in (firstNonEmpty [tenant; a], b)
    else (tenant, namespace) in
  _ ← ensureOperationRequired tenant $"Tenant";
  _ ← ensureOperationRequired namespace $"Namespace";
  Ok (tenant, namespace, tenant ++ $"/" ++ namespace).

Definition validateRetentionUpdate (i : MQInstance) (r : ResourceOperationRequest) : result validated :=
  names ← normalizePulsarNamespace r;
  let '(tenant, namespace, fullName) := names in
  let p := ro_Params r in
  if negb (operationParamExists p [$"retentionTimeInMinutes"]) ||
     negb (operationParamExists p [$"retentionSizeInMB"]) then Err $"Retention时间和大小不能为空"
  else
    let retentionTime := operationIntParam p 0 [$"retentionTimeInMinutes"] in
    let retentionSize := operationIntParam p 0 [$"retentionSizeInMB"] in
    if (retentionTime <? -1) || (retentionSize <? -1) then Err $"Retention时间和大小不能小于-1"
    else
      conclude i r RiskLevelMedium PermissionResourceManage (ResourceTypeNamespace, tenant, fullName)
        $"将通过 Pulsar Admin API 更新 Namespace Retention"
        [$"Namespace: " ++ fullName; $"保留时间(分钟): " ++ fmt_d retentionTime;
         $"保留大小(MB): " ++ fmt_d retentionSize]
        [$"Retention 配置会影响已消费消息的保留策略，请确认业务合规要求"]
        [($"tenant", AText tenant); ($"namespace", AText namespace);
         ($"retentionTimeInMinutes", AInt retentionTime); ($"retentionSizeInMB", AInt retentionSize)].

Definition ttl_keys : list gostring := [$"messageTTLInSeconds"; $"ttlSeconds"].
Definition validateTTLUpdate (i : MQInstance) (r : ResourceOperationRequest) : result validated :=
  names ← normalizePulsarNamespace r;
  let '(tenant, namespace, fullName) := names in
  let p := ro_Params r in
  if negb (operationParamExists p ttl_keys) then Err $"TTL秒数不能为空"
  else
    let ttlSeconds := operationIntParam p 0 ttl_keys in
    if ttlSeconds <? 0 then Err $"TTL秒数不能小于0"
    else
      conclude i r RiskLevelMedium PermissionResourceManage (ResourceTypeNamespace, tenant, fullName)
        $"将通过 Pulsar Admin API 更新 Namespace TTL"
        [$"Namespace: " ++ fullName; $"TTL秒数: " ++ fmt_d ttlSeconds]
        [$"TTL 会影响消息过期时间，设置过小可能导致消费者读取不到历史消息"]
        [($"tenant", AText tenant); ($"namespace", AText namespace);
         ($"messageTTLInSeconds", AInt ttlSeconds)].

Definition topic_keys : list gostring := [$"topic"; $"topicName"; $"name"].
Definition subscription_keys : list gostring := [$"subscription"; $"subscriptionName"; $"groupName"].
Definition pulsar_topic (r : ResourceOperationRequest) : gostring :=
  normalizePulsarTopicName (firstNonEmpty [ro_ResourceName r; operationStringParam (ro_Params r) topic_keys]).

Definition pulsar_validateTopicDelete (i : MQInstance) (r : ResourceOperationRequest) : result validated :=
  let topic := pulsar_topic r in
  _ ← ensureOperationRequired topic $"Topic名称";
  conclude i r RiskLevelHigh PermissionHighRisk (ResourceTypeTopic, ro_Namespace r, topic)
    $"将通过 Pulsar Admin API 删除 Topic"
    [$"Topic: " ++ topic; $"Topic 删除后消息、分区和订阅关系会失效"]
    [$"force=true 会强制删除仍有订阅或连接的 Topic，请谨慎使用"]
    [($"topic", AText topic); ($"force", ABool (operationBoolParam (ro_Params r) false [$"force"]))].

Definition validateSubscriptionSkip (i : MQInstance) (r : ResourceOperationRequest) : result validated :=
  let topic := pulsar_topic r in
  let subscription := operationStringParam (ro_Params r) subscription_keys in
  _ ← ensureOperationRequired topic $"Topic名称";
  _ ← ensureOperationRequired subscription $"Subscription名称";
  conclude i r RiskLevelCritical PermissionHighRisk (ResourceTypeSubscription, ro_Namespace r, subscription)
    $"将跳过 Pulsar Subscription 的全部积压消息"
    [$"Topic: " ++ topic; $"Subscription: " ++ subscription; $"当前积压消息会被标记为已消费"]
    [$"skip_all 会导致消费者不再收到被跳过的历史消息"]
    [($"topic", AText topic); ($"subscription", AText subscription)].

Definition timestamp_keys : list gostring := [$"timestampMs"; $"timestamp"].
Definition validateSubscriptionReset (i : MQInstance) (r : ResourceOperationRequest) : result validated :=
  let topic := pulsar_topic r in
  let subscription := operationStringParam (ro_Params r) subscription_keys in
  let timestampMs := operationIntParam (ro_Params r) 0 timestamp_keys in
  _ ← ensureOperationRequired topic $"Topic名称";
  _ ← ensureOperationRequired subscription $"Subscription名称";
  if timestampMs <=? 0 then Err $"重置时间戳不能为空"
  else
    conclude i r RiskLevelCritical PermissionHighRisk (ResourceTypeSubscription, ro_Namespace r, subscription)
      $"将重置 Pulsar Subscription Cursor"
      [$"Topic: " ++ topic; $"Subscription: " ++ subscription; $"目标时间戳(ms): " ++ fmt_d timestampMs]
      [$"Cursor 重置可能造成历史消息重放或跳过，请确认目标时间点"]
      [($"topic", AText topic); ($"subscription", AText subscription); ($"timestampMs", AInt64 timestampMs)].

Definition pulsar_ValidateOperation (i : MQInstance) (r : ResourceOperationRequest) : result validated :=
  let r := normalizeResourceOperationRequest r in
  let a := ro_Action r in
  if bool_decide (a = OperationActionPulsarRetentionUpdate) then validateRetentionUpdate i r
  else if bool_decide (a = OperationActionPulsarTTLUpdate) then validateTTLUpdate i r
  else if bool_decide (a = OperationActionPulsarTopicDelete) then pulsar_validateTopicDelete i r
  else if bool_decide (a = OperationActionPulsarSubscriptionSkip) then validateSubscriptionSkip i r
  else if bool_decide (a = OperationActionPulsarSubscriptionReset) then validateSubscriptionReset i r
  else unsupported i r $"Pulsar 不支持该资源操作".

Definition pulsarTopicPath (topic : gostring) : gostring :=
  let topic := TrimPrefix topic $"persistent://" in
  let topic := TrimPrefix topic $"non-persistent://" in
  match split_at 47 topic with
  | [a; b; c] => $"persistent/" ++ escapePath a ++ $"/" ++ escapePath b ++ $"/" ++ escapePath c
  | _ => $"persistent/" ++ topic
  end.

Definition pulsar_send (i : MQInstance) (r : ResourceOperationRequest)
    (v : ResourceOperationValidationVO) : result applied :=
  let p := cloneParams (rv_NormalizedParams v) in
  let tenant := operationStringParam p [$"tenant"] in
  let namespace := operationStringParam p [$"namespace"] in
  let namespace_path := $"/admin/v2/namespaces/" ++ escapePath tenant ++ $"/" ++ escapePath namespace in
  let fullName := tenant ++ $"/" ++ namespace in
  let topic := operationStringParam p [$"topic"] in
  let subscription := operationStringParam p [$"subscription"] in
  let subscription_path := $"/admin/v2/" ++ pulsarTopicPath topic ++ $"/subscription/" ++
    escapePath subscription in
  let a := ro_Action r in
  if bool_decide (a = OperationActionPulsarRetentionUpdate) then
    let body := AMap
      [($"retentionTimeInMinutes", AInt (operationIntParam p 0 [$"retentionTimeInMinutes"]));
       ($"retentionSizeInMB", AInt (operationIntParam p 0 [$"retentionSizeInMB"]))] in
    Ok (HttpRequest $"POST" (namespace_path ++ $"/retention") (Some body),
        apply_result ResourceTypeNamespace tenant fullName $"Pulsar Namespace Retention 更新已提交"
          [($"namespace", AText fullName); ($"retention", body)])
  else if bool_decide (a = OperationActionPulsarTTLUpdate) then
    let ttlSeconds := operationIntParam p 0 ttl_keys in
    Ok (HttpRequest $"POST" (namespace_path ++ $"/messageTTL") (Some (AInt ttlSeconds)),
        apply_result ResourceTypeNamespace tenant fullName $"Pulsar Namespace TTL 更新已提交"
          [($"namespace", AText fullName); ($"messageTTLInSeconds", AInt ttlSeconds)])
  else if bool_decide (a = OperationActionPulsarTopicDelete) then
    let force := operationBoolParam p false [$"force"] in
    Ok (HttpRequest $"DELETE" ($"/admin/v2/" ++ pulsarTopicPath topic ++ $"?force=" ++ bool_text force) None,
        apply_result ResourceTypeTopic [] topic $"Pulsar Topic 已删除"
          [($"topic", AText topic); ($"force", ABool force)])
  else if bool_decide (a = OperationActionPulsarSubscriptionSkip) then
    Ok (HttpRequest $"POST" (subscription_path ++ $"/skip_all") None,
        apply_result ResourceTypeSubscription [] subscription $"Pulsar Subscription 已跳过全部积压消息"
          [($"topic", AText topic); ($"subscription", AText subscription)])
  else if bool_decide (a = OperationActionPulsarSubscriptionReset) then
    let timestampMs := operationIntParam p 0 timestamp_keys in
    Ok (HttpRequest $"POST" (subscription_path ++ $"/resetcursor/" ++ fmt_d timestampMs) None,
        apply_result ResourceTypeSubscription [] subscription $"Pulsar Subscription Cursor 已重置"
          [($"topic", AText topic); ($"subscription", AText subscription);
           ($"timestampMs", AInt64 timestampMs)])
  else Err (adapterNotSupported (mi_MQType i) $"资源操作").
Definition pulsar_ApplyOperation := applying pulsar_ValidateOperation pulsar_send.

(** ** The registry, [adapter.go] *)
Record ResourceOperationAdapter := {
  ad_Validate : MQInstance -> ResourceOperationRequest -> result validated;
  ad_Apply : MQInstance -> ResourceOperationRequest -> result applied }.

(** [NewDefaultAdapterRegistry().Get] followed by the type assertion: RocketMQ
    and ActiveMQ are registered and have no resource operations. *)
Definition kafka_adapter := {| ad_Validate := kafka_ValidateOperation; ad_Apply := kafka_ApplyOperation |}.
Definition rabbit_adapter := {| ad_Validate := rabbit_ValidateOperation; ad_Apply := rabbit_ApplyOperation |}.
Definition pulsar_adapter := {| ad_Validate := pulsar_ValidateOperation; ad_Apply := pulsar_ApplyOperation |}.
Definition get_adapter (mqType : gostring) : option (option ResourceOperationAdapter) :=
  let t := NormalizeType mqType in
  if bool_decide (t = MQTypeRabbitMQ) then Some (Some rabbit_adapter)
  else if bool_decide (t = MQTypeKafka) then Some (Some kafka_adapter)
  else if bool_decide (t = MQTypePulsar) then Some (Some pulsar_adapter)
  else if bool_decide (t = MQTypeRocketMQ) || bool_decide (t = MQTypeActiveMQ) then Some None
  else None.
End adapters.
