(* ===== verification/MqAdapterFacts.v ===== *)
(** * What the validations of the adapters keep

    The request that is validated twice, what a validation leaves of a request,
    and the topic that a Pulsar subscription loses. *)

From Stdlib Require Import ZArith Lia.
From stdpp Require Import base tactics option list numbers sets.
From S2P Require Import Prelude GoStrings GoNumbers GoCrypto GoJson MqModel MqAdapters.

Open Scope Z_scope.

(** ** Texts that are trimmed already *)
Definition trimmed (s : gostring) : Prop := TrimSpace s = s.
Lemma TrimSpace_trimmed s : trimmed (TrimSpace s).
Proof. apply TrimSpace_idem. Qed.
Lemma trimmed_nil : trimmed [].
Proof. done. Qed.

Lemma firstNonEmpty_find l : trimmed (firstNonEmpty l) /\
  (firstNonEmpty l = [] -> Forall (fun v => TrimSpace v = []) l).
Proof.
  unfold firstNonEmpty. destruct (List.find _ l) as [v|] eqn:H.
  - split; [apply TrimSpace_trimmed|]. apply List.find_some in H as [_ H]. intros Hv.
    by rewrite bool_decide_true in H.
  - split; [done|]. intros _. apply list.Forall_forall. intros v Hv.
    apply list_elem_of_In in Hv. pose proof (List.find_none _ _ H _ Hv) as Hb. cbn beta in Hb.
    case_bool_decide; [done | discriminate Hb].
Qed.
Lemma firstNonEmpty_trimmed l : trimmed (firstNonEmpty l).
Proof. apply firstNonEmpty_find. Qed.
Lemma firstNonEmpty_here x l : trimmed x -> x <> [] -> firstNonEmpty (x :: l) = x.
Proof. intros Hx Hne. unfold firstNonEmpty. cbn. rewrite Hx, bool_decide_false by done. done. Qed.
Lemma operationString_trimmed p keys : trimmed (operationStringParam p keys).
Proof. unfold operationStringParam. case_match; [apply TrimSpace_trimmed | done]. Qed.

Create HintDb mq_trim.
#[export] Hint Resolve TrimSpace_trimmed trimmed_nil firstNonEmpty_trimmed operationString_trimmed : mq_trim.

Lemma required_Ok value label u : ensureOperationRequired value label = Ok u -> TrimSpace value <> [].
Proof. unfold ensureOperationRequired. by case_bool_decide. Qed.
Lemma required_here value label : trimmed value -> value <> [] -> ensureOperationRequired value label = Ok tt.
Proof. intros Hv Hne. unfold ensureOperationRequired. by rewrite Hv, bool_decide_false. Qed.
Lemma trimmed_required value : trimmed value -> TrimSpace value <> [] -> value <> [].
Proof. by intros ->. Qed.

Section facts.
Context `{JR : !JsonReader, UT : UnicodeTables}.

(** ** What a validation ends with *)
Definition concluded (i : MQInstance) (r : ResourceOperationRequest) (vr : validated) : Prop :=
  (exists m, vr = (unsupportedOperationValidation i r m, r)) \/
  (exists risk perm t m impacts warnings p,
     conclude i r risk perm t m impacts warnings p = Ok vr /\
     map_get p $"allowStaleMetadata" = None /\ TrimSpace t.2 <> []).

Lemma required_bind {A} value label (k : unit -> result A) a :
  (ensureOperationRequired value label ≫= k) = Ok a -> TrimSpace value <> [] /\ k tt = Ok a.
Proof.
  destruct (ensureOperationRequired value label) as [[]|] eqn:H; [|done]. intros Hk.
  split; [by apply required_Ok in H | done].
Qed.

Lemma conclude_concluded i r risk perm t m impacts warnings p vr :
  map_get p $"allowStaleMetadata" = None -> TrimSpace t.2 <> [] ->
  conclude i r risk perm t m impacts warnings p = Ok vr -> concluded i r vr.
Proof. intros. right. by exists risk, perm, t, m, impacts, warnings, p. Qed.
Lemma unsupported_concluded i r m vr : unsupported i r m = Ok vr -> concluded i r vr.
Proof. intros [= <-]. left. by eexists. Qed.
Ltac validation_cases H :=
  repeat match type of H with
    | (if bool_decide ?P then _ else _) = _ => destruct (bool_decide_reflect P)
    end.
(** Through the checks of a validation to its end. *)
Ltac validation_end H :=
  repeat (cbv zeta in H;
    match type of H with
    | (ensureOperationRequired _ _ ≫= _) = _ => apply required_bind in H as [? H]
    | unsupported _ _ _ = _ => exact (unsupported_concluded _ _ _ _ H)
    | conclude _ _ _ _ _ _ _ _ _ = _ =>
      refine (conclude_concluded _ _ _ _ _ _ _ _ _ _ _ _ H); [lazy; reflexivity | cbn [fst snd]; assumption]
    | (if ?b then _ else _) = _ => destruct b; [discriminate H|]
    | match ?x with _ => _ end = _ => destruct x; [discriminate H|]
    end).

Lemma kafka_concluded i r vr : kafka_ValidateOperation i r = Ok vr ->
  concluded i (normalizeResourceOperationRequest r) vr.
Proof.
  unfold kafka_ValidateOperation. intros H.
  unfold validateTopicCreate, validatePartitionsExpand, validateTopicConfigUpdate, kafka_validateTopicDelete in H.
  cbv zeta in H. validation_cases H; validation_end H.
Qed.
Lemma rabbit_concluded i r vr : rabbit_ValidateOperation i r = Ok vr ->
  concluded i (normalizeResourceOperationRequest r) vr.
Proof.
  unfold rabbit_ValidateOperation. intros H.
  unfold validateQueueUpsert, validateExchangeUpsert, validateBindingUpsert, validateQueuePurge,
    validateQueueDelete, validateExchangeDelete in H.
  cbv zeta in H. validation_cases H; validation_end H.
Qed.

Lemma pulsar_names r names : normalizePulsarNamespace r = Ok names -> TrimSpace names.2 <> [].
Proof.
  unfold normalizePulsarNamespace. cbv zeta. intros H.
  match type of H with (let '(_, _) := ?x in _) = _ => destruct x as [t n] end.
  apply required_bind in H as [Ht H]. apply required_bind in H as [_ H]. injection H as <-. cbn [snd].
  intros Hall. apply Ht. apply TrimSpace_nil in Hall. apply TrimSpace_nil. by apply Forall_app in Hall as [Hall _].
Qed.
Lemma names_bind {A} r (k : gostring * gostring * gostring -> result A) a :
  (normalizePulsarNamespace r ≫= k) = Ok a -> exists t n f, TrimSpace f <> [] /\ k (t, n, f) = Ok a.
Proof.
  destruct (normalizePulsarNamespace r) as [[[t n] f]|] eqn:H; [|done].
  intros Hk. exists t, n, f. split; [by apply pulsar_names in H | done].
Qed.
Lemma names_inv {A} r (k : gostring * gostring * gostring -> result A) a :
  (normalizePulsarNamespace r ≫= k) = Ok a -> exists t n f, normalizePulsarNamespace r = Ok (t, n, f) /\ k (t, n, f) = Ok a.
Proof. destruct (normalizePulsarNamespace r) as [[[t n] f]|]; [|done]. intros H. by exists t, n, f. Qed.
Lemma pulsar_concluded i r vr : pulsar_ValidateOperation i r = Ok vr ->
  concluded i (normalizeResourceOperationRequest r) vr.
Proof.
  unfold pulsar_ValidateOperation. intros H.
  unfold validateRetentionUpdate, validateTTLUpdate, pulsar_validateTopicDelete, validateSubscriptionSkip,
    validateSubscriptionReset in H.
  cbv zeta in H. validation_cases H;
    try (apply names_bind in H as (t & n' & f & Hf & H); cbn beta iota in H); validation_end H.
Qed.

(** ** The registry *)
Lemma registered t a : get_adapter t = Some (Some a) ->
  a = rabbit_adapter \/ a = kafka_adapter \/ (a = pulsar_adapter /\ NormalizeType t = MQTypePulsar).
Proof.
  unfold get_adapter. cbv zeta.
  destruct (bool_decide_reflect (NormalizeType t = MQTypeRabbitMQ)); [by intros [= <-]; left|].
  destruct (bool_decide_reflect (NormalizeType t = MQTypeKafka)); [by intros [= <-]; right; left|].
  destruct (bool_decide_reflect (NormalizeType t = MQTypePulsar)); [by intros [= <-]; right; right|].
  by destruct (_ || _).
Qed.
Lemma pulsar_only t a : get_adapter t = Some (Some a) -> NormalizeType t = MQTypePulsar -> a = pulsar_adapter.
Proof.
  unfold get_adapter. cbv zeta. intros H Ht. rewrite Ht in H.
  rewrite !bool_decide_false, bool_decide_true in H by (reflexivity || by apply (bool_decide_unpack _)).
  by injection H.
Qed.
Lemma registered_concluded t a i r vr : get_adapter t = Some (Some a) -> ad_Validate a i r = Ok vr ->
  concluded i (normalizeResourceOperationRequest r) vr.
Proof.
  intros [->|[->|[-> _]]]%registered;
    [apply rabbit_concluded | apply kafka_concluded | apply pulsar_concluded].
Qed.

(** What a validation leaves of a request. *)
Lemma concluded_keeps i r v r' : concluded i r (v, r') ->
  ro_Action r' = ro_Action r /\ ro_Reason r' = ro_Reason r /\ ro_ConfirmText r' = ro_ConfirmText r /\
  ro_Confirmed r' = ro_Confirmed r /\ ro_IdempotencyKey r' = ro_IdempotencyKey r /\
  rv_Action v = ro_Action r.
Proof. intros [(m & [= -> ->])|(risk & perm & t & m & im & wa & p & [= <- <-] & _)]; done. Qed.
Lemma concluded_supported i r v r' : concluded i r (v, r') -> rv_Supported v = true ->
  operationBoolParam (ro_Params r') false [$"allowStaleMetadata"] = false /\
  rv_ResourceName v = ro_ResourceName r' /\ TrimSpace (rv_ResourceName v) <> [].
Proof.
  intros [(m & [= -> ->])|(risk & perm & t & m & im & wa & p & [= <- <-] & Hp & Ht)]; [done|]. intros _.
  split; [|done]. unfold operationBoolParam, first_param. cbn [ro_Params retarget]. by rewrite Hp.
Qed.

(** ** A second validation of the same request *)
Definition normal (r : ResourceOperationRequest) : Prop := normalizeResourceOperationRequest r = r.
Ltac fields := cbn [ro_Action ro_ResourceType ro_Namespace ro_ResourceName ro_Reason ro_ConfirmText
  ro_Confirmed ro_IdempotencyKey ro_Params retarget normalizeResourceOperationRequest fst snd].
Lemma normalize_normal r : normal (normalizeResourceOperationRequest r).
Proof. unfold normal, normalizeResourceOperationRequest. fields. by rewrite !TrimSpace_idem. Qed.
Lemma normal_retarget r t p : normal r -> trimmed t.1.1 -> trimmed t.1.2 -> trimmed t.2 -> normal (retarget r t p).
Proof.
  unfold normal, trimmed, normalizeResourceOperationRequest. destruct r. fields.
  intros [= Ha _ _ _ Hr Hc Hk] -> -> ->. by rewrite Ha, Hr, Hc, Hk.
Qed.
Lemma normal_fields r : normal r -> trimmed (ro_Namespace r) /\ trimmed (ro_ResourceName r).
Proof. unfold normal, trimmed. intros <-. fields. by rewrite !TrimSpace_idem. Qed.

(** A validation that accepts its own result, and gives it again. *)
Definition settles (validate : MQInstance -> ResourceOperationRequest -> result validated) i r : Prop :=
  forall v r', validate i r = Ok (v, r') -> validate i r' = Ok (v, r') /\ normal r'.

Lemma kafka_topic_trimmed r : trimmed (kafka_topic r).
Proof. apply firstNonEmpty_trimmed. Qed.
Hint Resolve kafka_topic_trimmed : mq_trim.
Lemma kafka_topic_again r t p : trimmed t.2 -> TrimSpace t.2 <> [] -> kafka_topic (retarget r t p) = t.2.
Proof. intros H Hne. apply firstNonEmpty_here; [done|]. by rewrite <- H. Qed.

Lemma conclude_again i r risk perm t m im wa p v r' : conclude i r risk perm t m im wa p = Ok (v, r') ->
  r' = retarget r t p /\ conclude i r' risk perm t m im wa p = Ok (v, r').
Proof.
  intros [= <- <-]. split; [reflexivity|]. unfold conclude, describe, newOperationValidation, retarget.
  cbn [ro_Action rv_InstanceID rv_MQType rv_Action rv_ActionText rv_RiskLevel rv_Supported rv_Before rv_After
    rv_Diff rv_LockKey rv_MetadataStale rv_MetadataStaleReason rv_MetricStale rv_MetricStaleReason
    rv_RequiresConfirm rv_RequiresHighRiskAck].
  reflexivity.
Qed.

Lemma required_again {A} value label (k : unit -> result A) res :
  TrimSpace value <> [] -> k tt = res -> (ensureOperationRequired value label ≫= k) = res.
Proof. intros H <-. unfold ensureOperationRequired. by rewrite bool_decide_false. Qed.

(** Through the checks of a validation that has accepted. *)
Ltac validation_open H :=
  cbv zeta in H;
  repeat match type of H with
    | (ensureOperationRequired _ _ ≫= _) = _ => apply required_bind in H as [? H]
    | (if ?b then Err _ else _) = _ => destruct b eqn:? in H; [discriminate H|]
    end.
(** A reading of [r'] is the reading of [r], by the equation [Er] of [r']. *)
Ltac same_reading Er x y :=
  replace x with y by (rewrite Er; first [reflexivity | symmetry; apply operationString_trimmed]).
Ltac reread Er r r' :=
  repeat match goal with
    | |- context [operationIntParam (ro_Params r') ?f ?k] =>
      same_reading Er (operationIntParam (ro_Params r') f k) (operationIntParam (ro_Params r) f k)
    | |- context [operationBoolParam (ro_Params r') ?f ?k] =>
      same_reading Er (operationBoolParam (ro_Params r') f k) (operationBoolParam (ro_Params r) f k)
    | |- context [operationAnyMapParam (ro_Params r') ?k] =>
      same_reading Er (operationAnyMapParam (ro_Params r') k) (operationAnyMapParam (ro_Params r) k)
    | |- context [operationStringMapParam (ro_Params r') ?k] =>
      same_reading Er (operationStringMapParam (ro_Params r') k) (operationStringMapParam (ro_Params r) k)
    | |- context [ro_Namespace r'] => replace (ro_Namespace r') with (ro_Namespace r) by (rewrite Er; reflexivity)
    end.
(** The same checks again, and the same end [H]. *)
Ltac validation_again H :=
  repeat match goal with
    | |- (ensureOperationRequired _ _ ≫= _) = _ => apply required_again; [assumption|]
    | Hb : ?b = false |- (if ?b then _ else _) = _ => rewrite Hb
    end; exact H.
Ltac retargeted Er :=
  rewrite Er; apply normal_retarget; fields; first [assumption | reflexivity | solve [auto with mq_trim]].

(** *** Kafka *)
Ltac kafka_again H :=
  let Er := fresh "Er" in let Et := fresh "Et" in
  match type of H with _ = Ok (?v, ?r') =>
  validation_open H; apply conclude_again in H as [Er H];
  match type of Er with _ = retarget ?r _ _ =>
  assert (kafka_topic r' = kafka_topic r) as Et
    by (rewrite Er; apply kafka_topic_again; [apply kafka_topic_trimmed | assumption]);
  split; [cbv zeta; rewrite Et; reread Er r r'; validation_again H | retargeted Er] end end.

Lemma topic_create_settles i r : normal r -> settles validateTopicCreate i r.
Proof.
  intros Hr v r' H. destruct (normal_fields r Hr) as [Hn _]. unfold validateTopicCreate in *. kafka_again H.
Qed.
Lemma partitions_settles i r : normal r -> settles validatePartitionsExpand i r.
Proof.
  intros Hr v r' H. destruct (normal_fields r Hr) as [Hn _]. unfold validatePartitionsExpand in *. kafka_again H.
Qed.
Lemma kafka_delete_settles i r : normal r -> settles kafka_validateTopicDelete i r.
Proof.
  intros Hr v r' H. destruct (normal_fields r Hr) as [Hn _]. unfold kafka_validateTopicDelete in *. kafka_again H.
Qed.
Lemma config_settles i r : normal r -> settles validateTopicConfigUpdate i r.
Proof.
  intros Hr v r' H. destruct (normal_fields r Hr) as [Hn _]. unfold validateTopicConfigUpdate in *.
  validation_open H. destruct (List.find _ _) eqn:Hf in H; [discriminate H|].
  apply conclude_again in H as [Er H].
  assert (kafka_topic r' = kafka_topic r) as Et
    by (rewrite Er; apply kafka_topic_again; [apply kafka_topic_trimmed | assumption]).
  split; [|retargeted Er]. cbv zeta. rewrite Et. reread Er r r'. apply required_again; [assumption|].
  match goal with Hb : _ = false |- _ => rewrite Hb end. by rewrite Hf.
Qed.

Lemma kafka_settles i r v r' : kafka_ValidateOperation i r = Ok (v, r') ->
  kafka_ValidateOperation i r' = Ok (v, r').
Proof.
  intros H. pose proof (kafka_concluded _ _ _ H) as Hc. apply concluded_keeps in Hc as (Ha & _).
  pose proof (normalize_normal r) as Hr. unfold kafka_ValidateOperation in *. cbv zeta in *.
  set (n := normalizeResourceOperationRequest r) in *. clearbody n.
  assert (normalizeResourceOperationRequest r' = r') as Hr'; [|rewrite Hr', Ha];
    repeat match type of H with
      | (if ?b then _ else _) = _ => destruct b
      | validateTopicCreate _ _ = _ => by apply topic_create_settles in H as [? ?]
      | validatePartitionsExpand _ _ = _ => by apply partitions_settles in H as [? ?]
      | validateTopicConfigUpdate _ _ = _ => by apply config_settles in H as [? ?]
      | kafka_validateTopicDelete _ _ = _ => by apply kafka_delete_settles in H as [? ?]
      | unsupported ?i ?n ?m = _ => pose proof (f_equal (fun x => match x with Ok (_, q) => q | Err _ => n end) H) as Hq;
        cbv beta iota delta [unsupported] in Hq; subst n; first [exact Hr | exact H]
      end.
Qed.

(** *** RabbitMQ *)
Lemma rabbit_vhost_spec r : trimmed (rabbit_vhost r) /\ rabbit_vhost r <> [].
Proof.
  split; [apply firstNonEmpty_trimmed|]. intros H. apply firstNonEmpty_find in H.
  apply Forall_cons in H as [_ H]. apply Forall_cons in H as [_ H]. apply Forall_cons in H as [H _]. discriminate H.
Qed.
Lemma rabbit_vhost_again r t p : trimmed t.1.2 -> t.1.2 <> [] -> rabbit_vhost (retarget r t p) = t.1.2.
Proof. apply firstNonEmpty_here. Qed.
Lemma rabbit_queue_trimmed r : trimmed (rabbit_queue r).
Proof. apply firstNonEmpty_trimmed. Qed.
Lemma rabbit_vhost_trimmed r : trimmed (rabbit_vhost r).
Proof. apply rabbit_vhost_spec. Qed.
Hint Resolve rabbit_queue_trimmed rabbit_vhost_trimmed : mq_trim.
Lemma name_again r t p l : trimmed t.2 -> TrimSpace t.2 <> [] -> firstNonEmpty (ro_ResourceName (retarget r t p) :: l) = t.2.
Proof. intros H Hne. apply firstNonEmpty_here; [done|]. by rewrite <- H. Qed.
Lemma destination_again value : normalizeRabbitDestinationType (TrimSpace (normalizeRabbitDestinationType value)) =
  normalizeRabbitDestinationType value.
Proof. unfold normalizeRabbitDestinationType at 2 3. cbv zeta. by destruct (_ || _). Qed.

(** The names of [r'] and its parameters are those of [r]. *)
Ltac rabbit_reread Er r r' :=
  cbv zeta;
  replace (rabbit_vhost r') with (rabbit_vhost r)
    by (rewrite Er; symmetry; apply rabbit_vhost_again; apply rabbit_vhost_spec);
  match type of Er with _ = retarget _ (_, _, ?name) _ =>
    repeat match goal with |- context [firstNonEmpty (ro_ResourceName r' :: ?l)] =>
      replace (firstNonEmpty (ro_ResourceName r' :: l)) with name
        by (rewrite Er; symmetry; apply name_again; [apply firstNonEmpty_trimmed | assumption])
    end end;
  reread Er r r'.
Ltac rabbit_again H :=
  let Er := fresh "Er" in
  match type of H with _ = Ok (?v, ?r') =>
  unfold rabbit_queue in *; validation_open H; apply conclude_again in H as [Er H];
  match type of Er with _ = retarget ?r _ _ =>
    split; [rabbit_reread Er r r'; validation_again H | retargeted Er] end end.

Lemma queue_settles i r : normal r -> settles validateQueueUpsert i r.
Proof. intros Hr v r' H. unfold validateQueueUpsert in *. rabbit_again H. Qed.
Lemma purge_settles i r : normal r -> settles validateQueuePurge i r.
Proof. intros Hr v r' H. unfold validateQueuePurge in *. rabbit_again H. Qed.
Lemma queue_delete_settles i r : normal r -> settles validateQueueDelete i r.
Proof. intros Hr v r' H. unfold validateQueueDelete in *. rabbit_again H. Qed.
Lemma exchange_delete_settles i r : normal r -> settles validateExchangeDelete i r.
Proof. intros Hr v r' H. unfold validateExchangeDelete in *. rabbit_again H. Qed.
Lemma exchange_settles i r : normal r -> settles validateExchangeUpsert i r.
Proof.
  intros Hr v r' H. unfold validateExchangeUpsert in *. validation_open H.
  apply conclude_again in H as [Er H]. split; [|retargeted Er].
  rabbit_reread Er r r'.
  set (t := firstNonEmpty [operationStringParam (ro_Params r) [$"type"]; $"direct"]) in *.
  assert (trimmed t /\ t <> []) as [Ht Hne].
  { split; [apply firstNonEmpty_trimmed|]. intros He. apply firstNonEmpty_find in He.
    apply Forall_cons in He as [_ He]. apply Forall_cons in He as [He _]. discriminate He. }
  replace (firstNonEmpty [operationStringParam (ro_Params r') [$"type"]; $"direct"]) with t; [validation_again H|].
  replace (operationStringParam (ro_Params r') [$"type"]) with (TrimSpace t) by (rewrite Er; reflexivity).
  rewrite Ht. symmetry. by apply firstNonEmpty_here.
Qed.
Lemma binding_settles i r : normal r -> settles validateBindingUpsert i r.
Proof.
  intros Hr v r' H. unfold validateBindingUpsert in *. validation_open H.
  apply conclude_again in H as [Er H]. split; [|retargeted Er].
  rabbit_reread Er r r'.
  same_reading Er (operationStringParam (ro_Params r') [$"source"]) (operationStringParam (ro_Params r) [$"source"]).
  same_reading Er (operationStringParam (ro_Params r') [$"routingKey"; $"routing_key"])
    (operationStringParam (ro_Params r) [$"routingKey"; $"routing_key"]).
  replace (operationStringParam (ro_Params r') [$"destinationType"; $"destination_type"])
    with (TrimSpace (normalizeRabbitDestinationType
      (operationStringParam (ro_Params r) [$"destinationType"; $"destination_type"]))) by (rewrite Er; reflexivity).
  rewrite destination_again. validation_again H.
Qed.

Lemma rabbit_settles i r v r' : rabbit_ValidateOperation i r = Ok (v, r') ->
  rabbit_ValidateOperation i r' = Ok (v, r').
Proof.
  intros H. pose proof (rabbit_concluded _ _ _ H) as Hc. apply concluded_keeps in Hc as (Ha & _).
  pose proof (normalize_normal r) as Hr. unfold rabbit_ValidateOperation in *. cbv zeta in *.
  set (n := normalizeResourceOperationRequest r) in *. clearbody n.
  assert (normalizeResourceOperationRequest r' = r') as Hr'; [|rewrite Hr', Ha];
    repeat match type of H with
      | (if ?b then _ else _) = _ => destruct b
      | validateQueueUpsert _ _ = _ => by apply queue_settles in H as [? ?]
      | validateExchangeUpsert _ _ = _ => by apply exchange_settles in H as [? ?]
      | validateBindingUpsert _ _ = _ => by apply binding_settles in H as [? ?]
      | validateQueuePurge _ _ = _ => by apply purge_settles in H as [? ?]
      | validateQueueDelete _ _ = _ => by apply queue_delete_settles in H as [? ?]
      | validateExchangeDelete _ _ = _ => by apply exchange_delete_settles in H as [? ?]
      | unsupported ?i ?n ?m = _ => pose proof (f_equal (fun x => match x with Ok (_, q) => q | Err _ => n end) H) as Hq;
        cbv beta iota delta [unsupported] in Hq; subst n; first [exact Hr | exact H]
      end.
Qed.

(** *** Pulsar *)
Lemma slashes_app a b : count_slashes (a ++ b) = count_slashes a + count_slashes b.
Proof. unfold count_slashes. rewrite List.filter_app, length_app. lia. Qed.
Lemma slashes_nonneg a : 0 <= count_slashes a.
Proof. unfold count_slashes. lia. Qed.
Lemma slashes_blank g : Forall (fun r => IsSpace r = true) g -> count_slashes g = 0.
Proof.
  induction 1 as [|r g Hr _ IH]; [done|]. unfold count_slashes in *. cbn [List.filter].
  destruct (Z.eqb_spec r 47) as [->|]; [discriminate Hr | exact IH].
Qed.
Lemma slashes_trimmed s : count_slashes (TrimSpace s) = count_slashes s.
Proof.
  unfold TrimSpace, trim_left_func.
  destruct (drop_while_split IsSpace s) as (g & Hs & Hg).
  destruct (trim_right_split IsSpace (drop_while IsSpace s)) as (h & Ht & Hh).
  apply (f_equal count_slashes) in Hs, Ht. rewrite slashes_app in Hs, Ht.
  rewrite (slashes_blank g Hg) in Hs. rewrite (slashes_blank h Hh) in Ht. lia.
Qed.
Lemma split_none s : count_slashes s = 0 -> split_at 47 s = [s].
Proof.
  induction s as [|r s IH]; [done|]. unfold count_slashes in *. cbn [List.filter split_at].
  destruct (r =? 47); [cbn [length]; lia|]. intros H. by rewrite IH.
Qed.
Lemma slash_parts_full t n : count_slashes t = 0 -> count_slashes n = 0 ->
  slash_parts (t ++ $"/" ++ n) = (t, n).
Proof.
  intros Ht Hn. unfold slash_parts.
  assert (split_at 47 (t ++ $"/" ++ n) = [t; n]) as ->; [|done].
  induction t as [|r t IH].
  - change ([] :: split_at 47 n = [[]; n]). by rewrite split_none.
  - unfold count_slashes in Ht. cbn [List.filter] in Ht. cbn [app split_at].
    destruct (r =? 47); [cbn [length] in Ht; lia|]. cbn [app] in IH. by rewrite IH.
Qed.
Lemma slash_parts_one s : count_slashes s = 1 ->
  s = (slash_parts s).1 ++ $"/" ++ (slash_parts s).2 /\
  count_slashes (slash_parts s).1 = 0 /\ count_slashes (slash_parts s).2 = 0.
Proof.
  intros H. assert (exists a b, s = a ++ $"/" ++ b /\ count_slashes a = 0 /\ count_slashes b = 0)
    as (a & b & -> & Ha & Hb); [|by rewrite slash_parts_full].
  induction s as [|r s IH]; [discriminate H|]. unfold count_slashes in H. cbn [List.filter] in H.
  destruct (Z.eqb_spec r 47) as [->|Hr].
  - exists [], s. split; [done|]. split; [done|]. unfold count_slashes. cbn [length] in H. lia.
  - destruct (IH H) as (a & b & -> & Ha & Hb). exists (r :: a), b. split; [done|]. split; [|done].
    unfold count_slashes in *. cbn [List.filter]. by destruct (Z.eqb_spec r 47).
Qed.

(** The names of a namespace: a tenant without blanks around it, and a full
    name that is trimmed as well. *)
Lemma namespace_shape r t n f : normal r -> normalizePulsarNamespace r = Ok (t, n, f) ->
  f = t ++ $"/" ++ n /\ trimmed t /\ TrimSpace t <> [] /\ TrimSpace n <> [] /\
  (forall a x, n = a ++ [x] -> IsSpace x = false).
Proof.
  intros Hr. unfold normalizePulsarNamespace. cbv zeta.
  set (raw := firstNonEmpty _). set (tp := operationStringParam _ [$"tenant"]).
  set (np := operationStringParam _ [$"namespace"]).
  assert (forall s a x, trimmed s -> count_slashes s = 1 -> (slash_parts s).2 = a ++ [x] -> IsSpace x = false) as Hend.
  { intros s a x Hs Hone Hp. destruct (slash_parts_one s Hone) as (He & _ & _). rewrite Hp in He.
    apply (TrimSpace_last s ((slash_parts s).1 ++ $"/" ++ a)). rewrite <- !app_assoc.
    exact (eq_trans Hs He). }
  assert (trimmed raw) as Hraw by apply firstNonEmpty_trimmed.
  assert (trimmed tp) as Htp by apply operationString_trimmed.
  assert (trimmed np) as Hnp by apply operationString_trimmed.
  clearbody raw tp np.
  destruct (Z.eqb_spec (count_slashes raw) 1) as [H1|_];
    [|destruct (Z.eqb_spec (count_slashes (ro_Namespace r)) 1) as [H1|_]].
  - pose proof (Hend raw) as He. destruct (slash_parts raw) as [a b].
    intros [Hta [Htb H]%required_bind]%required_bind. injection H as <- <- <-.
    split; [done|]. split; [apply firstNonEmpty_trimmed|]. do 2 (split; [done|]). eauto.
  - pose proof (Hend (ro_Namespace r)) as He. destruct (slash_parts (ro_Namespace r)) as [a b].
    intros [Hta [Htb H]%required_bind]%required_bind. injection H as <- <- <-.
    split; [done|]. split; [apply firstNonEmpty_trimmed|]. do 2 (split; [done|]).
    apply normal_fields in Hr as [Hr _]. eauto.
  - intros [Hta [Htb H]%required_bind]%required_bind. injection H as <- <- <-. do 4 (split; [done|]).
    intros c x Hx. apply (TrimSpace_last np c). exact (eq_trans Hnp Hx).
Qed.
Lemma full_name_trimmed t n : trimmed t -> TrimSpace t <> [] -> n <> [] ->
  (forall a x, n = a ++ [x] -> IsSpace x = false) -> trimmed (t ++ $"/" ++ n).
Proof.
  intros Ht Hne Hn Hend. unfold trimmed, TrimSpace, trim_left_func.
  assert (drop_while IsSpace (t ++ $"/" ++ n) = t ++ $"/" ++ n) as ->.
  { rewrite Ht in Hne. destruct t as [|c t]; [done|]. cbn [app drop_while].
    enough (IsSpace c = false) as -> by done.
    unfold trimmed, TrimSpace, trim_left_func in Ht.
    destruct (trim_right_prefix IsSpace (drop_while IsSpace (c :: t))) as [g Hg]. rewrite Ht in Hg.
    exact (drop_while_head _ _ _ _ Hg). }
  apply trim_right_id. intros a x Hx. destruct (exists_last Hn) as (b & y & ->).
  rewrite !app_assoc in Hx. apply app_inj_tail in Hx as [_ <-]. by apply (Hend b).
Qed.

Lemma namespace_again r t n f ty p : normal r -> normalizePulsarNamespace r = Ok (t, n, f) ->
  count_slashes f = 1 -> operationStringParam p [$"fullName"; $"namespaceFullName"] = [] ->
  operationStringParam p [$"tenant"] = t ->
  normalizePulsarNamespace (retarget r (ty, t, f) p) = Ok (t, n, f) /\ trimmed t /\ trimmed f.
Proof.
  intros Hr H H1 Hfull Htenant. apply namespace_shape in H as (Hf & Ht & Htne & Hnne & Hend); [|done].
  assert (n <> []) as Hn by (by intros ->).
  assert (trimmed f) as Hft by (rewrite Hf; by apply full_name_trimmed).
  split; [|done]. unfold normalizePulsarNamespace. cbv zeta. cbn [ro_Params ro_ResourceName retarget snd].
  rewrite Hfull, Htenant.
  assert (f <> []) as Hfne by (intros ->; by destruct t).
  change (firstNonEmpty ([] :: ?l)) with (firstNonEmpty l).
  rewrite (firstNonEmpty_here f _ Hft Hfne), H1. change (1 =? 1) with true. cbv iota.
  rewrite Hf, !slashes_app in H1. change (count_slashes $"/") with 1 in H1.
  pose proof (slashes_nonneg t). pose proof (slashes_nonneg n).
  rewrite Hf, slash_parts_full by lia. cbv iota.
  rewrite firstNonEmpty_here by (done || by rewrite Ht in Htne).
  apply required_again; [done|]. by apply required_again.
Qed.

(** What the updates of a namespace have in common: their names are kept when
    the full name has one slash. *)
Lemma namespace_settles i r risk perm t n f m im wa rest v r' :
  let p := ($"tenant", AText t) :: ($"namespace", AText n) :: rest in
  operationStringParam p [$"fullName"; $"namespaceFullName"] = [] ->
  normal r -> normalizePulsarNamespace r = Ok (t, n, f) ->
  conclude i r risk perm (ResourceTypeNamespace, t, f) m im wa p = Ok (v, r') ->
  count_slashes (rv_ResourceName v) = 1 ->
  r' = retarget r (ResourceTypeNamespace, t, f) p /\ normalizePulsarNamespace r' = Ok (t, n, f) /\
  conclude i r' risk perm (ResourceTypeNamespace, t, f) m im wa p = Ok (v, r') /\ normal r'.
Proof.
  intros p Hfull Hr Hn H H1. pose proof H as [Er H2]%conclude_again. injection H as Hv _.
  assert (count_slashes f = 1) as H1' by (rewrite <- Hv in H1; exact H1).
  destruct (namespace_shape _ _ _ _ Hr Hn) as (_ & Ht & _).
  destruct (namespace_again r t n f ResourceTypeNamespace p Hr Hn H1' Hfull Ht) as (Ha & _ & Hf).
  rewrite <- Er in Ha. do 3 (split; [done|]). rewrite Er.
  by apply normal_retarget.
Qed.
Ltac namespace_again_with H :=
  cbv beta iota in H; validation_open H;
  apply namespace_settles in H as (Er & Ha & H & Hn'); [|reflexivity|done..];
  split; [|done];
  match type of Er with ?r' = retarget ?r _ _ =>
    rewrite Ha; cbn [mbind result_bind]; cbv zeta; reread Er r r';
    repeat match goal with |- context [operationParamExists (ro_Params r') ?k] =>
      replace (operationParamExists (ro_Params r') k) with true by (rewrite Er; reflexivity) end;
    cbn [negb orb];
    repeat match goal with Hb : _ = false |- (if ?b then _ else _) = _ => rewrite Hb end; exact H
  end.
Lemma retention_settles i r v r' : normal r -> validateRetentionUpdate i r = Ok (v, r') ->
  count_slashes (rv_ResourceName v) = 1 -> validateRetentionUpdate i r' = Ok (v, r') /\ normal r'.
Proof.
  intros Hr H H1. unfold validateRetentionUpdate in *. apply names_inv in H as (t & n & f & Hn & H).
  namespace_again_with H.
Qed.
Lemma ttl_settles i r v r' : normal r -> validateTTLUpdate i r = Ok (v, r') ->
  count_slashes (rv_ResourceName v) = 1 -> validateTTLUpdate i r' = Ok (v, r') /\ normal r'.
Proof.
  intros Hr H H1. unfold validateTTLUpdate in *. apply names_inv in H as (t & n & f & Hn & H).
  namespace_again_with H.
Qed.

(** The other way round: when the names a second validation finds have one
    slash, so had those of the first. *)
Lemma namespace_before r t n f ty p names : normal r -> normalizePulsarNamespace r = Ok (t, n, f) ->
  operationStringParam p [$"fullName"; $"namespaceFullName"] = [] ->
  operationStringParam p [$"tenant"] = t -> operationStringParam p [$"namespace"] = TrimSpace n ->
  normalizePulsarNamespace (retarget r (ty, t, f) p) = Ok names ->
  count_slashes names.2 = 1 -> count_slashes f = 1.
Proof.
  intros Hr H Hfull Htenant Hns. apply namespace_shape in H as (Hf & Ht & Htne & Hnne & Hend); [|done].
  assert (n <> []) as Hn by (by intros ->).
  assert (trimmed f) as Hft by (rewrite Hf; by apply full_name_trimmed).
  assert (f <> []) as Hfne by (rewrite Hf; by destruct t).
  assert (t <> []) as Htne' by (by rewrite Ht in Htne).
  unfold normalizePulsarNamespace. cbv zeta. cbn [ro_Params ro_ResourceName ro_Namespace retarget fst snd].
  rewrite Hfull, Htenant, Hns. change (firstNonEmpty ([] :: ?l)) with (firstNonEmpty l).
  rewrite (firstNonEmpty_here f _ Hft Hfne).
  destruct (Z.eqb_spec (count_slashes f) 1) as [|Hne]; [done|].
  pose proof (slashes_nonneg t) as Ht0. pose proof (slashes_nonneg n) as Hn0.
  assert (count_slashes f = count_slashes t + 1 + count_slashes n) as Hcount.
  { rewrite Hf, !slashes_app. change (count_slashes $"/") with 1. lia. }
  destruct (Z.eqb_spec (count_slashes t) 1) as [Ht1|].
  - destruct (slash_parts t) as [x y]. rewrite (firstNonEmpty_here t _ Ht Htne').
    intros [_ [_ H]%required_bind]%required_bind. injection H as <-.
    change (count_slashes (t ++ $"/" ++ y) = 1 -> count_slashes f = 1).
    rewrite !slashes_app. change (count_slashes $"/") with 1. pose proof (slashes_nonneg y). lia.
  - intros [_ [_ H]%required_bind]%required_bind. injection H as <-.
    change (count_slashes (t ++ $"/" ++ TrimSpace n) = 1 -> count_slashes f = 1).
    rewrite !slashes_app, slashes_trimmed. change (count_slashes $"/") with 1. lia.
Qed.

Lemma trimmed_after p x : head p = Some 112 -> trimmed x -> x <> [] -> trimmed (p ++ x).
Proof.
  intros Hp Hx Hne. destruct p as [|c p]; [done|]. injection Hp as ->.
  unfold trimmed, TrimSpace, trim_left_func. change (drop_while IsSpace ((112 :: p) ++ x)) with ((112 :: p) ++ x).
  apply trim_right_id. intros a r He.
  destruct (exists_last Hne) as (b & r' & ->). rewrite app_assoc in He. apply app_inj_tail in He as [_ <-].
  exact (TrimSpace_last _ _ _ Hx).
Qed.
Lemma pulsar_topic_trimmed topic : trimmed (normalizePulsarTopicName topic).
Proof.
  unfold normalizePulsarTopicName. cbv zeta. destruct (_ || _); [apply TrimSpace_trimmed|].
  destruct (_ =? 2) eqn:E; [|apply TrimSpace_trimmed].
  apply trimmed_after; [done | apply TrimSpace_trimmed|]. intros H. rewrite H in E. discriminate E.
Qed.
Lemma pulsar_topic_not_blank topic : TrimSpace topic <> [] -> TrimSpace (normalizePulsarTopicName topic) <> [].
Proof.
  intros H. unfold normalizePulsarTopicName. cbv zeta.
  destruct (_ || _); [by rewrite TrimSpace_idem|]. destruct (_ =? 2); [|by rewrite TrimSpace_idem].
  intros Hb. apply TrimSpace_nil in Hb. apply Forall_app in Hb as [Hb _]. apply Forall_cons in Hb as [Hb _]. discriminate Hb.
Qed.
Lemma pulsar_topic_again r t p : trimmed t.2 -> TrimSpace t.2 <> [] ->
  pulsar_topic (retarget r t p) = normalizePulsarTopicName t.2.
Proof. intros H Hne. unfold pulsar_topic. by rewrite name_again. Qed.

Lemma topic_name_again topic : normalizePulsarTopicName (normalizePulsarTopicName topic) = normalizePulsarTopicName topic.
Proof.
  pose proof (pulsar_topic_trimmed topic) as Ht. unfold normalizePulsarTopicName at 1. cbv zeta. rewrite Ht.
  unfold normalizePulsarTopicName. cbv zeta.
  destruct (bool_decide (TrimSpace topic = []) || Contains (TrimSpace topic) $"://") eqn:Hc; [by rewrite Hc|].
  destruct (count_slashes (TrimSpace topic) =? 2) eqn:H2; [|by rewrite Hc, H2].
  change (Contains ($"persistent://" ++ TrimSpace topic) $"://") with true. by rewrite orb_true_r.
Qed.
Lemma topic_delete_settles i r : normal r -> settles pulsar_validateTopicDelete i r.
Proof.
  intros Hr v r' H. destruct (normal_fields r Hr) as [Hn _]. unfold pulsar_validateTopicDelete in *.
  validation_open H. apply conclude_again in H as [Er H].
  assert (pulsar_topic r' = pulsar_topic r) as Et.
  { rewrite Er. rewrite pulsar_topic_again; [apply topic_name_again | apply pulsar_topic_trimmed | done]. }
  split; [cbv zeta; rewrite Et; reread Er r r'; validation_again H|].
  rewrite Er. apply normal_retarget; [done..|apply pulsar_topic_trimmed].
Qed.

(** The plans of Pulsar that a second validation gives again. *)
Definition namespace_actions : list gostring :=
  [OperationActionPulsarRetentionUpdate; OperationActionPulsarTTLUpdate].
Definition pulsar_steady (v : ResourceOperationValidationVO) : Prop :=
  rv_Action v = OperationActionPulsarTopicDelete \/
  (rv_Action v ∈ namespace_actions /\ count_slashes (rv_ResourceName v) = 1).

(** The branch of an action. *)
Ltac dispatch Ha :=
  rewrite Ha;
  repeat match goal with |- context [if @bool_decide (?x = ?y) ?D then _ else _] =>
    let b := eval vm_compute in (@bool_decide (x = y) D) in
    replace (@bool_decide (x = y) D) with b by (vm_compute; reflexivity);
    cbv iota
  end.
Lemma retention_dispatch i r : ro_Action (normalizeResourceOperationRequest r) = OperationActionPulsarRetentionUpdate ->
  pulsar_ValidateOperation i r = validateRetentionUpdate i (normalizeResourceOperationRequest r).
Proof. intros Ha. unfold pulsar_ValidateOperation. cbv zeta. dispatch Ha. reflexivity. Qed.
Lemma ttl_dispatch i r : ro_Action (normalizeResourceOperationRequest r) = OperationActionPulsarTTLUpdate ->
  pulsar_ValidateOperation i r = validateTTLUpdate i (normalizeResourceOperationRequest r).
Proof. intros Ha. unfold pulsar_ValidateOperation. cbv zeta. dispatch Ha. reflexivity. Qed.
Lemma topic_delete_dispatch i r : ro_Action (normalizeResourceOperationRequest r) = OperationActionPulsarTopicDelete ->
  pulsar_ValidateOperation i r = pulsar_validateTopicDelete i (normalizeResourceOperationRequest r).
Proof. intros Ha. unfold pulsar_ValidateOperation. cbv zeta. dispatch Ha. reflexivity. Qed.
Lemma namespace_action_cases action : action ∈ namespace_actions ->
  action = OperationActionPulsarRetentionUpdate \/ action = OperationActionPulsarTTLUpdate.
Proof. unfold namespace_actions. intros [H|H%list_elem_of_singleton]%elem_of_cons; [by left | by right]. Qed.

Lemma pulsar_settles i r v r' : pulsar_ValidateOperation i r = Ok (v, r') -> pulsar_steady v ->
  pulsar_ValidateOperation i r' = Ok (v, r').
Proof.
  intros H Hsteady. pose proof (pulsar_concluded _ _ _ H) as Hc. apply concluded_keeps in Hc as (Ha & _ & _ & _ & _ & Hv).
  pose proof (normalize_normal r) as Hr. unfold pulsar_steady in Hsteady. rewrite Hv in Hsteady.
  destruct Hsteady as [He|[[He|He]%namespace_action_cases H1]].
  - rewrite topic_delete_dispatch in H by exact He. apply topic_delete_settles in H as [H Hn]; [|exact Hr].
    unfold normal in Hn. rewrite topic_delete_dispatch; rewrite Hn; [exact H|]. by rewrite Ha.
  - rewrite retention_dispatch in H by exact He. apply retention_settles in H as [H Hn]; [|exact Hr|exact H1].
    unfold normal in Hn. rewrite retention_dispatch; rewrite Hn; [exact H|]. by rewrite Ha.
  - rewrite ttl_dispatch in H by exact He. apply ttl_settles in H as [H Hn]; [|exact Hr|exact H1].
    unfold normal in Hn. rewrite ttl_dispatch; rewrite Hn; [exact H|]. by rewrite Ha.
Qed.

(** A namespace that the second plan names with one slash, the first has named so. *)
Lemma namespace_names_before i r risk perm t n f m im wa rest v r1 r2 names :
  let p := ($"tenant", AText t) :: ($"namespace", AText n) :: rest in
  operationStringParam p [$"fullName"; $"namespaceFullName"] = [] ->
  normal r -> normalizePulsarNamespace r = Ok (t, n, f) ->
  conclude i r risk perm (ResourceTypeNamespace, t, f) m im wa p = Ok (v, r1) ->
  r2 = normalizeResourceOperationRequest r1 ->
  normalizePulsarNamespace r2 = Ok names -> count_slashes names.2 = 1 ->
  count_slashes (rv_ResourceName v) = 1.
Proof.
  intros p Hfull Hr Hn H Hr2 H2 H1. injection H as Hv Er. rewrite <- Hv.
  change (count_slashes f = 1).
  destruct (namespace_shape _ _ _ _ Hr Hn) as (Hf & Ht & Htne & Hnne & Hend).
  assert (trimmed f) as Hft by (rewrite Hf; apply full_name_trimmed; try done; by intros ->).
  assert (r2 = retarget r (ResourceTypeNamespace, t, f) p) as Er2.
  { rewrite Hr2, <- Er. by apply normal_retarget. }
  rewrite Er2 in H2. eapply (namespace_before r t n f _ p names); try done.
Qed.
Lemma pulsar_slashes_before i r v1 r1 v2 r2 : pulsar_ValidateOperation i r = Ok (v1, r1) ->
  pulsar_ValidateOperation i r1 = Ok (v2, r2) -> rv_Action v2 ∈ namespace_actions ->
  count_slashes (rv_ResourceName v2) = 1 -> count_slashes (rv_ResourceName v1) = 1.
Proof.
  intros H H2 Hact H1. pose proof (pulsar_concluded _ _ _ H) as Hc. apply concluded_keeps in Hc as (Ha & _).
  pose proof (pulsar_concluded _ _ _ H2) as Hc2. apply concluded_keeps in Hc2 as (_ & _ & _ & _ & _ & Hv2).
  pose proof (normalize_normal r) as Hr. rewrite Hv2 in Hact.
  assert (ro_Action (normalizeResourceOperationRequest r1) = ro_Action (normalizeResourceOperationRequest r)) as He.
  { change (TrimSpace (ro_Action r1) = ro_Action (normalizeResourceOperationRequest r)). rewrite Ha. apply TrimSpace_trimmed. }
  destruct (namespace_action_cases _ Hact) as [Hx|Hx]; pose proof Hx as Hy; rewrite He in Hy;
    [rewrite retention_dispatch in H, H2 by done; unfold validateRetentionUpdate in H, H2
    |rewrite ttl_dispatch in H, H2 by done; unfold validateTTLUpdate in H, H2];
    apply names_inv in H as (t & n & f & Hn & H); apply names_inv in H2 as (t2 & n2 & f2 & Hn2 & H2);
    cbv beta iota in H, H2; validation_open H; validation_open H2;
    (eapply (namespace_names_before _ _ _ _ _ _ _ _ _ _ _ _ _ _ (t2, n2, f2)); [..|exact H|reflexivity|exact Hn2|];
      [reflexivity | exact Hr | exact Hn |]);
    injection H2 as Hv _; rewrite <- Hv in H1; exact H1.
Qed.

(** ** What is dangerous whatever is stored *)
Definition destructive : list gostring :=
  [OperationActionRabbitMQQueuePurge; OperationActionRabbitMQQueueDelete; OperationActionRabbitMQExchangeDelete;
   OperationActionKafkaTopicDelete; OperationActionPulsarTopicDelete; OperationActionPulsarSubscriptionSkip;
   OperationActionPulsarSubscriptionReset].
Lemma conclude_risk i r risk perm t m im wa p v r' : conclude i r risk perm t m im wa p = Ok (v, r') ->
  rv_RiskLevel v = risk.
Proof. intros [= <- _]. reflexivity. Qed.
Ltac destructive_cases H Hs Hd :=
  validation_cases H;
  [.. | injection H as <- <-; discriminate Hs];
  match goal with He : _ = _ |- _ => rewrite He in Hd end;
  try discriminate Hd; validation_open H; apply conclude_risk in H as ->; reflexivity.

Lemma pulsar_destructive i r v r' : pulsar_ValidateOperation i r = Ok (v, r') -> rv_Supported v = true ->
  one_of (ro_Action (normalizeResourceOperationRequest r)) destructive = true ->
  IsHighRiskLevel (rv_RiskLevel v) = true.
Proof.
  unfold pulsar_ValidateOperation. intros H Hs Hd. cbv zeta in H.
  unfold pulsar_validateTopicDelete, validateSubscriptionSkip, validateSubscriptionReset in H.
  destructive_cases H Hs Hd.
Qed.
Lemma rabbit_destructive i r v r' : rabbit_ValidateOperation i r = Ok (v, r') -> rv_Supported v = true ->
  one_of (ro_Action (normalizeResourceOperationRequest r)) destructive = true ->
  IsHighRiskLevel (rv_RiskLevel v) = true.
Proof.
  unfold rabbit_ValidateOperation. intros H Hs Hd. cbv zeta in H.
  unfold validateQueuePurge, validateQueueDelete, validateExchangeDelete in H.
  destructive_cases H Hs Hd.
Qed.
Lemma kafka_destructive i r v r' : kafka_ValidateOperation i r = Ok (v, r') -> rv_Supported v = true ->
  one_of (ro_Action (normalizeResourceOperationRequest r)) destructive = true ->
  IsHighRiskLevel (rv_RiskLevel v) = true.
Proof.
  unfold kafka_ValidateOperation. intros H Hs Hd. cbv zeta in H. unfold kafka_validateTopicDelete in H.
  destructive_cases H Hs Hd.
Qed.

(** The three adapters. *)
Lemma registered_destructive t a i r v r' : get_adapter t = Some (Some a) -> ad_Validate a i r = Ok (v, r') ->
  rv_Supported v = true -> one_of (ro_Action (normalizeResourceOperationRequest r)) destructive = true ->
  IsHighRiskLevel (rv_RiskLevel v) = true.
Proof.
  intros [->|[->|[-> _]]]%registered; [apply rabbit_destructive | apply kafka_destructive | apply pulsar_destructive].
Qed.
Lemma registered_settles t a i r v r' : get_adapter t = Some (Some a) -> NormalizeType t <> MQTypePulsar ->
  ad_Validate a i r = Ok (v, r') -> ad_Validate a i r' = Ok (v, r').
Proof.
  intros [->|[->|[_ Ht]]]%registered Hne; [apply rabbit_settles | apply kafka_settles | done].
Qed.

(** The operations Pulsar supports. *)
Lemma pulsar_supported i r v r' : pulsar_ValidateOperation i r = Ok (v, r') -> rv_Supported v = true ->
  rv_Action v ∈ namespace_actions \/ rv_Action v = OperationActionPulsarTopicDelete \/
  rv_Action v = OperationActionPulsarSubscriptionSkip \/ rv_Action v = OperationActionPulsarSubscriptionReset.
Proof.
  intros H Hs. pose proof (pulsar_concluded _ _ _ H) as Hc. apply concluded_keeps in Hc as (_ & _ & _ & _ & _ & ->).
  unfold pulsar_ValidateOperation in H. cbv zeta in H. unfold namespace_actions.
  validation_cases H; [..|injection H as <- _; discriminate Hs];
    match goal with He : ro_Action _ = _ |- _ => rewrite He end.
  - left. by left.
  - left. right. by left.
  - right. by left.
  - right. right. by left.
  - right. right. by right.
Qed.

(** ** The topic of a subscription *)
Definition subscription_request (action : gostring) : Prop :=
  action = OperationActionPulsarSubscriptionSkip \/ action = OperationActionPulsarSubscriptionReset.
(** The rest of the address of the two operations. *)
Definition subscription_tail (r : ResourceOperationRequest) : gostring :=
  if bool_decide (ro_Action r = OperationActionPulsarSubscriptionSkip) then $"/skip_all"
  else $"/resetcursor/" ++ fmt_d (operationIntParam (ro_Params r) 0 timestamp_keys).

Lemma skip_dispatch i r : ro_Action (normalizeResourceOperationRequest r) = OperationActionPulsarSubscriptionSkip ->
  pulsar_ValidateOperation i r = validateSubscriptionSkip i (normalizeResourceOperationRequest r).
Proof.
  intros Ha. unfold pulsar_ValidateOperation. cbv zeta. dispatch Ha. reflexivity.
Qed.
Lemma reset_dispatch i r : ro_Action (normalizeResourceOperationRequest r) = OperationActionPulsarSubscriptionReset ->
  pulsar_ValidateOperation i r = validateSubscriptionReset i (normalizeResourceOperationRequest r).
Proof.
  intros Ha. unfold pulsar_ValidateOperation. cbv zeta. dispatch Ha. reflexivity.
Qed.
Lemma skip_send i r v : ro_Action r = OperationActionPulsarSubscriptionSkip -> exists ap,
  pulsar_send i r v = Ok (HttpRequest $"POST" ($"/admin/v2/" ++
    pulsarTopicPath (operationStringParam (cloneParams (rv_NormalizedParams v)) [$"topic"]) ++ $"/subscription/" ++
    escapePath (operationStringParam (cloneParams (rv_NormalizedParams v)) [$"subscription"]) ++ $"/skip_all") None, ap).
Proof.
  intros Ha. unfold pulsar_send. cbv zeta. dispatch Ha. eexists. rewrite <- !app_assoc. reflexivity.
Qed.
Lemma reset_send i r v : ro_Action r = OperationActionPulsarSubscriptionReset -> exists ap,
  pulsar_send i r v = Ok (HttpRequest $"POST" ($"/admin/v2/" ++
    pulsarTopicPath (operationStringParam (cloneParams (rv_NormalizedParams v)) [$"topic"]) ++ $"/subscription/" ++
    escapePath (operationStringParam (cloneParams (rv_NormalizedParams v)) [$"subscription"]) ++ $"/resetcursor/" ++
    fmt_d (operationIntParam (cloneParams (rv_NormalizedParams v)) 0 timestamp_keys)) None, ap).
Proof.
  intros Ha. unfold pulsar_send. cbv zeta. dispatch Ha. eexists. rewrite <- !app_assoc. reflexivity.
Qed.

(** What the second validation of a subscription makes of its own result. *)
Definition topic_lost (validate : MQInstance -> ResourceOperationRequest -> result validated) (rest : params)
    (i : MQInstance) (r : ResourceOperationRequest) (v : ResourceOperationValidationVO)
    (r' : ResourceOperationRequest) : Prop :=
  let sub := operationStringParam (ro_Params r) subscription_keys in
  rv_ResourceName v = sub /\ head (rv_Impacts v) = Some ($"Topic: " ++ pulsar_topic r) /\
  normal r' /\ ro_Action r' = ro_Action r /\
  exists v2 r2, validate i r' = Ok (v2, r2) /\ ro_Action r2 = ro_Action r /\ rv_Supported v2 = true /\
    rv_NormalizedParams v2 = Some (($"topic", AText (normalizePulsarTopicName sub)) :: ($"subscription", AText sub) :: rest).

Ltac subscription_lost Er r r' :=
  assert (pulsar_topic r' = normalizePulsarTopicName (operationStringParam (ro_Params r) subscription_keys)) as Et
    by (rewrite Er; apply pulsar_topic_again; [apply operationString_trimmed | assumption]);
  split; [retargeted Er|]; split; [rewrite Er; reflexivity|];
  cbv zeta; rewrite Et; same_reading Er (operationStringParam (ro_Params r') subscription_keys)
    (operationStringParam (ro_Params r) subscription_keys).
Lemma skip_lost i r v r' : normal r -> validateSubscriptionSkip i r = Ok (v, r') ->
  topic_lost validateSubscriptionSkip [] i r v r'.
Proof.
  intros Hr H. destruct (normal_fields r Hr) as [Hn _]. unfold validateSubscriptionSkip in *. validation_open H.
  pose proof H as [Er _]%conclude_again. injection H as <- _.
  split; [reflexivity|]. split; [reflexivity|]. subscription_lost Er r r'.
  eexists _, _. split; [apply required_again; [by apply pulsar_topic_not_blank|];
    apply required_again; [assumption | reflexivity]|].
  rewrite Er. done.
Qed.
Lemma reset_lost i r v r' : normal r -> validateSubscriptionReset i r = Ok (v, r') ->
  topic_lost validateSubscriptionReset
    [($"timestampMs", AInt64 (operationIntParam (ro_Params r) 0 timestamp_keys))] i r v r'.
Proof.
  intros Hr H. destruct (normal_fields r Hr) as [Hn _]. unfold validateSubscriptionReset in *. validation_open H.
  pose proof H as [Er _]%conclude_again. injection H as <- _.
  split; [reflexivity|]. split; [reflexivity|]. subscription_lost Er r r'. reread Er r r'.
  eexists _, _. split; [apply required_again; [by apply pulsar_topic_not_blank|];
    apply required_again; [assumption |];
    match goal with Hb : ?b = false |- (if ?b then _ else _) = _ => rewrite Hb end; reflexivity|].
  rewrite Er. done.
Qed.

Lemma lost_topic x rest :
  operationStringParam (cloneParams (Some (($"topic", AText (normalizePulsarTopicName x)) :: rest))) [$"topic"] =
  normalizePulsarTopicName x.
Proof. apply pulsar_topic_trimmed. Qed.
Lemma lost_subscription t p keys rest : operationStringParam (cloneParams (Some
    (($"topic", AText t) :: ($"subscription", AText (operationStringParam p keys)) :: rest))) [$"subscription"] =
  operationStringParam p keys.
Proof. apply operationString_trimmed. Qed.

Lemma subscription_applied i r v r' : pulsar_ValidateOperation i r = Ok (v, r') ->
  subscription_request (ro_Action (normalizeResourceOperationRequest r)) ->
  rv_ResourceName v = operationStringParam (ro_Params r) subscription_keys /\
  head (rv_Impacts v) = Some ($"Topic: " ++ pulsar_topic (normalizeResourceOperationRequest r)) /\
  exists ap, pulsar_ApplyOperation i r' = Ok
    (HttpRequest $"POST" ($"/admin/v2/" ++ pulsarTopicPath (normalizePulsarTopicName (rv_ResourceName v)) ++
       $"/subscription/" ++ escapePath (rv_ResourceName v) ++
       subscription_tail (normalizeResourceOperationRequest r)) None, ap).
Proof.
  intros H Ha. pose proof (normalize_normal r) as Hn.
  change (ro_Params r) with (ro_Params (normalizeResourceOperationRequest r)).
  unfold pulsar_ApplyOperation, applying.
  destruct Ha as [Ha|Ha]; [rewrite skip_dispatch in H by done | rewrite reset_dispatch in H by done];
    set (n := normalizeResourceOperationRequest r) in *; clearbody n;
    [apply skip_lost in H; [|done] | apply reset_lost in H; [|done]];
    destruct H as (Hname & Himp & Hr' & Ha' & v2 & r2 & Hv2 & Ha2 & Hs2 & Hp2);
    rewrite Hname; (split; [reflexivity|]); (split; [done|]).
  - rewrite skip_dispatch, Hr', Hv2 by (by rewrite Hr', Ha'). cbn [mbind result_bind]. rewrite Hs2.
    destruct (skip_send i r2 v2) as [ap ->]; [by rewrite Ha2|]. exists ap. rewrite Hp2.
    rewrite lost_topic, lost_subscription. unfold subscription_tail. dispatch Ha. reflexivity.
  - rewrite reset_dispatch, Hr', Hv2 by (by rewrite Hr', Ha'). cbn [mbind result_bind]. rewrite Hs2.
    destruct (reset_send i r2 v2) as [ap ->]; [by rewrite Ha2|]. exists ap. rewrite Hp2.
    rewrite lost_topic, lost_subscription. unfold subscription_tail. dispatch Ha. reflexivity.
Qed.
End facts.

(** A validation of Kafka or RabbitMQ accepts the request it has rewritten, and
    answers the same: what is applied is what was planned. *)
Theorem revalidation_stable `{JR : !JsonReader, UT : UnicodeTables} t a i r v r' :
  get_adapter t = Some (Some a) -> NormalizeType t <> MQTypePulsar ->
  ad_Validate a i r = Ok (v, r') -> ad_Validate a i r' = Ok (v, r').
Proof. apply registered_settles. Qed.

(** C29: For a Pulsar subscription it does not: the second validation takes the name
    of the subscription for the topic, and the request goes to that address
    whatever the topic was. *)
Theorem subscription_call_misses_topic `{JR : !JsonReader, UT : UnicodeTables} i r v r' :
  pulsar_ValidateOperation i r = Ok (v, r') ->
  subscription_request (ro_Action (normalizeResourceOperationRequest r)) ->
  let sub := operationStringParam (ro_Params r) subscription_keys in
  rv_ResourceName v = sub /\
  head (rv_Impacts v) = Some ($"Topic: " ++ pulsar_topic (normalizeResourceOperationRequest r)) /\
  exists ap, pulsar_ApplyOperation i r' = Ok
    (HttpRequest $"POST" ($"/admin/v2/" ++ pulsarTopicPath (normalizePulsarTopicName sub) ++
       $"/subscription/" ++ escapePath sub ++ subscription_tail (normalizeResourceOperationRequest r)) None, ap).
Proof.
  intros H Ha. destruct (subscription_applied i r v r' H Ha) as (Hn & Hi & ap & Hap).
  cbv zeta. rewrite <- Hn. by repeat split; [|exists ap].
Qed.

