(* ===== verification/MqOperation.v ===== *)
(** * Message queues: operations on resources

    [ValidateResourceOperation] and [ExecuteResourceOperation] of
    [biz/messagequeue/usecase.go], with the plan they build, the guards, the
    audit row and the lock, and the handlers of [service/messagequeue/http.go]
    with the permissions in front of them. *)

From Stdlib Require Import ZArith Lia.
From stdpp Require Import base tactics option list numbers sets.
From S2P Require Import Prelude GoStrings GoNumbers GoJson MqAudit MqModel MqAdapters.

Open Scope Z_scope.

(** ** The world of a request *)
Record MQMetadataSnapshot := {
  sn_Version : gostring; sn_Engine : gostring; sn_HealthStatus : gostring }.

(** The calls that leave the process, with their outcome; the lock table is in
    the process and its changes are listed too. *)
Inductive mq_event :=
| MqAuditCreate (key status : gostring) (ok : bool)
| MqAuditUpdate (id : Z) (status : gostring) (ok : bool)
| MqCall (instance : Z) (call : broker_call) (ok : bool)
| MqDiscover (ok : bool)
| MqReplaceAll (instance : Z) (ok : bool)
| MqInstanceUpdate (item : MQInstance) (ok : bool)
| MqLocked (key : gostring)
| MqUnlocked (key : gostring).

Record mq_world := {
  mw_events : list mq_event; mw_audits : audit_table MQOperationAudit; mw_locks : list gostring }.

(** The answers from outside, each of which may depend on the calls so far; an
    error is its text. A time is a number of nanoseconds and the zero time is no
    time. [oe_credential] is nil when there is no resolver. *)
Record mq_env := {
  oe_instance : list mq_event -> Z -> result MQInstance;
  oe_credential : option (Z -> result unit);
  oe_highRisk : option (list mq_event -> result (option HighRiskOperationConfig));
  oe_resource : list mq_event -> Z -> gostring -> gostring -> gostring -> result (option MQResource);
  oe_group : list mq_event -> Z -> gostring -> gostring -> gostring -> result (option MQConsumerGroup);
  oe_bindings : list mq_event -> Z -> result (list MQBinding);
  oe_audit_query : list mq_event -> option gostring;
  oe_audit_read : list mq_event -> bool;
  oe_audit_write : list mq_event -> bool;
  oe_call : list mq_event -> Z -> broker_call -> option gostring;
  oe_discover : list mq_event -> result (option MQMetadataSnapshot);
  oe_replace : list mq_event -> option gostring;
  oe_instance_update : list mq_event -> option gostring;
  oe_now : list mq_event -> Z;
  oe_time_text : Z -> gostring;
}.

Section operation.
Context `{!JsonReader, UnicodeTables} (E : mq_env).

Definition ask {A} (f : list mq_event -> A) : handler mq_world A :=
  fun w => (Ok (f (mw_events w)), w).
Definition try_ {A} (f : list mq_event -> result A) : handler mq_world A :=
  fun w => (f (mw_events w), w).
(** A call that leaves the process, with the event that records it. *)
Definition attempt {A} (f : list mq_event -> result A) (e : bool -> mq_event) : handler mq_world A := fun w =>
  let res := f (mw_events w) in
  (res, {| mw_events := mw_events w ++ [e (is_ok res)]; mw_audits := mw_audits w; mw_locks := mw_locks w |}).
(** An error as a value. *)
Definition caught {A} (m : handler mq_world A) : handler mq_world (result A) :=
  fun w => let '(res, w') := m w in (Ok res, w').
(** A call that returns only an error. *)
Definition no_error (err : option gostring) : result unit :=
  match err with None => Ok tt | Some e => Err e end.
Definition formatTimePtr (t : option Z) : gostring :=
  match t with Some t => oe_time_text E t | None => [] end.

(** ** Finding the instance and its adapter *)
Definition resolveAdapterAndCredential (i : MQInstance) : result (option ResourceOperationAdapter) :=
  match get_adapter (mi_MQType i) with
  | None => Err (TypeText (mi_MQType i) ++ $" 适配器未注册")
  | Some a =>
    if 0 <? mi_CredentialID i then
      match oe_credential E with
      | None => Err $"连接凭据解析器未配置"
      | Some resolve =>
        match resolve (mi_CredentialID i) with Ok _ => Ok a | Err _ => Err $"凭据不存在" end
      end
    else Ok a
  end.

Definition resolveResourceOperationAdapter (instanceID : Z) :
    handler mq_world (MQInstance * ResourceOperationAdapter) :=
  i ← h_map_err (fun _ => $"MQ实例不存在") (try_ (fun es => oe_instance E es instanceID));
  _ ← h_guard (bool_decide (TrimSpace (mi_Status i) = InstanceStatusEnabled)) $"MQ实例已禁用";
  a ← h_lift (resolveAdapterAndCredential i);
  match a with
  | Some a => mret (i, a)
  | None => h_fail (adapterNotSupported (mi_MQType i) $"资源管理")
  end.

Definition minute : Z := 60000000000.
Definition default_config : HighRiskOperationConfig :=
  {| hc_Enabled := false; hc_ReasonRequired := true; hc_OperationMaxMetadataAge := 30 * minute;
     hc_OperationMaxMetricAge := 10 * minute; hc_RequireFreshMetricHighRisk := true |}.
Definition resolveHighRiskOperationConfig : handler mq_world HighRiskOperationConfig :=
  match oe_highRisk E with
  | None => mret default_config
  | Some resolve =>
    resolved ← h_map_err (fun e => $"读取MQ高风险操作配置失败: " ++ e) (try_ resolve);
    match resolved with
    | None => mret default_config
    | Some c =>
      mret {| hc_Enabled := hc_Enabled c; hc_ReasonRequired := hc_ReasonRequired c;
              hc_OperationMaxMetadataAge :=
                (if 0 <? hc_OperationMaxMetadataAge c then hc_OperationMaxMetadataAge c else 30 * minute);
              hc_OperationMaxMetricAge :=
                (if 0 <? hc_OperationMaxMetricAge c then hc_OperationMaxMetricAge c else 10 * minute);
              hc_RequireFreshMetricHighRisk := hc_RequireFreshMetricHighRisk c |}
    end
  end.

(** ** Changes of a validation *)
Definition add_warning (text : gostring) (v : ResourceOperationValidationVO) : ResourceOperationValidationVO :=
  {| rv_InstanceID := rv_InstanceID v; rv_MQType := rv_MQType v; rv_Action := rv_Action v;
     rv_ActionText := rv_ActionText v; rv_RiskLevel := rv_RiskLevel v;
     rv_RequiredPermission := rv_RequiredPermission v; rv_ResourceType := rv_ResourceType v;
     rv_Namespace := rv_Namespace v; rv_ResourceName := rv_ResourceName v;
     rv_Supported := rv_Supported v; rv_Warnings := appendUniqueString (rv_Warnings v) text;
     rv_Impacts := rv_Impacts v; rv_Before := rv_Before v; rv_After := rv_After v;
     rv_Diff := rv_Diff v; rv_NormalizedParams := rv_NormalizedParams v;
     rv_LockKey := rv_LockKey v; rv_MetadataStale := rv_MetadataStale v;
     rv_MetadataStaleReason := rv_MetadataStaleReason v; rv_MetricStale := rv_MetricStale v;
     rv_MetricStaleReason := rv_MetricStaleReason v; rv_Message := rv_Message v;
     rv_RequiresConfirm := rv_RequiresConfirm v;
     rv_RequiresHighRiskAck := rv_RequiresHighRiskAck v |}.
Definition add_impact (text : gostring) (v : ResourceOperationValidationVO) : ResourceOperationValidationVO :=
  {| rv_InstanceID := rv_InstanceID v; rv_MQType := rv_MQType v; rv_Action := rv_Action v;
     rv_ActionText := rv_ActionText v; rv_RiskLevel := rv_RiskLevel v;
     rv_RequiredPermission := rv_RequiredPermission v; rv_ResourceType := rv_ResourceType v;
     rv_Namespace := rv_Namespace v; rv_ResourceName := rv_ResourceName v;
     rv_Supported := rv_Supported v; rv_Warnings := rv_Warnings v;
     rv_Impacts := appendUniqueString (rv_Impacts v) text; rv_Before := rv_Before v;
     rv_After := rv_After v; rv_Diff := rv_Diff v; rv_NormalizedParams := rv_NormalizedParams v;
     rv_LockKey := rv_LockKey v; rv_MetadataStale := rv_MetadataStale v;
     rv_MetadataStaleReason := rv_MetadataStaleReason v; rv_MetricStale := rv_MetricStale v;
     rv_MetricStaleReason := rv_MetricStaleReason v; rv_Message := rv_Message v;
     rv_RequiresConfirm := rv_RequiresConfirm v;
     rv_RequiresHighRiskAck := rv_RequiresHighRiskAck v |}.
Definition set_lock_key (key : gostring) (v : ResourceOperationValidationVO) : ResourceOperationValidationVO :=
  {| rv_InstanceID := rv_InstanceID v; rv_MQType := rv_MQType v; rv_Action := rv_Action v;
     rv_ActionText := rv_ActionText v; rv_RiskLevel := rv_RiskLevel v;
     rv_RequiredPermission := rv_RequiredPermission v; rv_ResourceType := rv_ResourceType v;
     rv_Namespace := rv_Namespace v; rv_ResourceName := rv_ResourceName v;
     rv_Supported := rv_Supported v; rv_Warnings := rv_Warnings v; rv_Impacts := rv_Impacts v;
     rv_Before := rv_Before v; rv_After := rv_After v; rv_Diff := rv_Diff v;
     rv_NormalizedParams := rv_NormalizedParams v; rv_LockKey := key;
     rv_MetadataStale := rv_MetadataStale v; rv_MetadataStaleReason := rv_MetadataStaleReason v;
     rv_MetricStale := rv_MetricStale v; rv_MetricStaleReason := rv_MetricStaleReason v;
     rv_Message := rv_Message v; rv_RequiresConfirm := rv_RequiresConfirm v;
     rv_RequiresHighRiskAck := rv_RequiresHighRiskAck v |}.
Definition set_before (before : params) (v : ResourceOperationValidationVO) : ResourceOperationValidationVO :=
  {| rv_InstanceID := rv_InstanceID v; rv_MQType := rv_MQType v; rv_Action := rv_Action v;
     rv_ActionText := rv_ActionText v; rv_RiskLevel := rv_RiskLevel v;
     rv_RequiredPermission := rv_RequiredPermission v; rv_ResourceType := rv_ResourceType v;
     rv_Namespace := rv_Namespace v; rv_ResourceName := rv_ResourceName v;
     rv_Supported := rv_Supported v; rv_Warnings := rv_Warnings v; rv_Impacts := rv_Impacts v;
     rv_Before := Some before; rv_After := rv_After v; rv_Diff := rv_Diff v;
     rv_NormalizedParams := rv_NormalizedParams v; rv_LockKey := rv_LockKey v;
     rv_MetadataStale := rv_MetadataStale v; rv_MetadataStaleReason := rv_MetadataStaleReason v;
     rv_MetricStale := rv_MetricStale v; rv_MetricStaleReason := rv_MetricStaleReason v;
     rv_Message := rv_Message v; rv_RequiresConfirm := rv_RequiresConfirm v;
     rv_RequiresHighRiskAck := rv_RequiresHighRiskAck v |}.
Definition set_plan (after : params) (diff : option (list OperationDiffItem))
    (v : ResourceOperationValidationVO) : ResourceOperationValidationVO :=
  {| rv_InstanceID := rv_InstanceID v; rv_MQType := rv_MQType v; rv_Action := rv_Action v;
     rv_ActionText := rv_ActionText v; rv_RiskLevel := rv_RiskLevel v;
     rv_RequiredPermission := rv_RequiredPermission v; rv_ResourceType := rv_ResourceType v;
     rv_Namespace := rv_Namespace v; rv_ResourceName := rv_ResourceName v;
     rv_Supported := rv_Supported v; rv_Warnings := rv_Warnings v; rv_Impacts := rv_Impacts v;
     rv_Before := rv_Before v; rv_After := Some after; rv_Diff := diff;
     rv_NormalizedParams := rv_NormalizedParams v; rv_LockKey := rv_LockKey v;
     rv_MetadataStale := rv_MetadataStale v; rv_MetadataStaleReason := rv_MetadataStaleReason v;
     rv_MetricStale := rv_MetricStale v; rv_MetricStaleReason := rv_MetricStaleReason v;
     rv_Message := rv_Message v; rv_RequiresConfirm := rv_RequiresConfirm v;
     rv_RequiresHighRiskAck := rv_RequiresHighRiskAck v |}.
Definition set_metadata_stale (reason : gostring) (v : ResourceOperationValidationVO) : ResourceOperationValidationVO :=
  add_warning reason
  {| rv_InstanceID := rv_InstanceID v; rv_MQType := rv_MQType v; rv_Action := rv_Action v;
     rv_ActionText := rv_ActionText v; rv_RiskLevel := rv_RiskLevel v;
     rv_RequiredPermission := rv_RequiredPermission v; rv_ResourceType := rv_ResourceType v;
     rv_Namespace := rv_Namespace v; rv_ResourceName := rv_ResourceName v;
     rv_Supported := rv_Supported v; rv_Warnings := rv_Warnings v; rv_Impacts := rv_Impacts v;
     rv_Before := rv_Before v; rv_After := rv_After v; rv_Diff := rv_Diff v;
     rv_NormalizedParams := rv_NormalizedParams v; rv_LockKey := rv_LockKey v;
     rv_MetadataStale := true; rv_MetadataStaleReason := reason;
     rv_MetricStale := rv_MetricStale v; rv_MetricStaleReason := rv_MetricStaleReason v;
     rv_Message := rv_Message v; rv_RequiresConfirm := rv_RequiresConfirm v;
     rv_RequiresHighRiskAck := rv_RequiresHighRiskAck v |}.
Definition set_metric_stale (reason : gostring) (v : ResourceOperationValidationVO) : ResourceOperationValidationVO :=
  add_warning reason
  {| rv_InstanceID := rv_InstanceID v; rv_MQType := rv_MQType v; rv_Action := rv_Action v;
     rv_ActionText := rv_ActionText v; rv_RiskLevel := rv_RiskLevel v;
     rv_RequiredPermission := rv_RequiredPermission v; rv_ResourceType := rv_ResourceType v;
     rv_Namespace := rv_Namespace v; rv_ResourceName := rv_ResourceName v;
     rv_Supported := rv_Supported v; rv_Warnings := rv_Warnings v; rv_Impacts := rv_Impacts v;
     rv_Before := rv_Before v; rv_After := rv_After v; rv_Diff := rv_Diff v;
     rv_NormalizedParams := rv_NormalizedParams v; rv_LockKey := rv_LockKey v;
     rv_MetadataStale := rv_MetadataStale v; rv_MetadataStaleReason := rv_MetadataStaleReason v;
     rv_MetricStale := true; rv_MetricStaleReason := reason; rv_Message := rv_Message v;
     rv_RequiresConfirm := rv_RequiresConfirm v;
     rv_RequiresHighRiskAck := rv_RequiresHighRiskAck v |}.
Definition elevateOperationRisk (warning : gostring) (v : ResourceOperationValidationVO) : ResourceOperationValidationVO :=
  add_warning warning
  {| rv_InstanceID := rv_InstanceID v; rv_MQType := rv_MQType v; rv_Action := rv_Action v;
     rv_ActionText := rv_ActionText v; rv_RiskLevel := RiskLevelHigh;
     rv_RequiredPermission := PermissionHighRisk; rv_ResourceType := rv_ResourceType v;
     rv_Namespace := rv_Namespace v; rv_ResourceName := rv_ResourceName v;
     rv_Supported := rv_Supported v; rv_Warnings := rv_Warnings v; rv_Impacts := rv_Impacts v;
     rv_Before := rv_Before v; rv_After := rv_After v; rv_Diff := rv_Diff v;
     rv_NormalizedParams := rv_NormalizedParams v; rv_LockKey := rv_LockKey v;
     rv_MetadataStale := rv_MetadataStale v; rv_MetadataStaleReason := rv_MetadataStaleReason v;
     rv_MetricStale := rv_MetricStale v; rv_MetricStaleReason := rv_MetricStaleReason v;
     rv_Message := rv_Message v; rv_RequiresConfirm := rv_RequiresConfirm v;
     rv_RequiresHighRiskAck := true |}.
Definition markOperationUnsupported (message : gostring) (v : ResourceOperationValidationVO) : ResourceOperationValidationVO :=
  add_warning message
  {| rv_InstanceID := rv_InstanceID v; rv_MQType := rv_MQType v; rv_Action := rv_Action v;
     rv_ActionText := rv_ActionText v; rv_RiskLevel := rv_RiskLevel v;
     rv_RequiredPermission := rv_RequiredPermission v; rv_ResourceType := rv_ResourceType v;
     rv_Namespace := rv_Namespace v; rv_ResourceName := rv_ResourceName v; rv_Supported := false;
     rv_Warnings := rv_Warnings v; rv_Impacts := rv_Impacts v; rv_Before := rv_Before v;
     rv_After := rv_After v; rv_Diff := rv_Diff v; rv_NormalizedParams := rv_NormalizedParams v;
     rv_LockKey := rv_LockKey v; rv_MetadataStale := rv_MetadataStale v;
     rv_MetadataStaleReason := rv_MetadataStaleReason v; rv_MetricStale := rv_MetricStale v;
     rv_MetricStaleReason := rv_MetricStaleReason v; rv_Message := message;
     rv_RequiresConfirm := rv_RequiresConfirm v;
     rv_RequiresHighRiskAck := rv_RequiresHighRiskAck v |}.

Definition or_text (value other : gostring) : gostring := if bool_decide (value = []) then other else value.
Definition or_number (value other : Z) : Z := if value =? 0 then other else value.
Definition fillOperationValidationDefaults (i : MQInstance) (r : ResourceOperationRequest)
    (v : ResourceOperationValidationVO) : ResourceOperationValidationVO :=
  let action := or_text (rv_Action v) (ro_Action r) in
  let risk := or_text (rv_RiskLevel v) RiskLevelLow in
  {| rv_InstanceID := or_number (rv_InstanceID v) (mi_ID i);
     rv_MQType := or_text (rv_MQType v) (mi_MQType i); rv_Action := action;
     rv_ActionText := or_text (rv_ActionText v) (actionText action); rv_RiskLevel := risk;
     rv_RequiredPermission := or_number (rv_RequiredPermission v) PermissionResourceManage;
     rv_ResourceType := or_text (rv_ResourceType v) (ro_ResourceType r);
     rv_Namespace := or_text (rv_Namespace v) (ro_Namespace r);
     rv_ResourceName := or_text (rv_ResourceName v) (ro_ResourceName r);
     rv_Supported := rv_Supported v; rv_Warnings := rv_Warnings v; rv_Impacts := rv_Impacts v;
     rv_Before := rv_Before v; rv_After := rv_After v; rv_Diff := rv_Diff v;
     rv_NormalizedParams := Some (default (ro_Params r) (rv_NormalizedParams v));
     rv_LockKey := rv_LockKey v; rv_MetadataStale := rv_MetadataStale v;
     rv_MetadataStaleReason := rv_MetadataStaleReason v; rv_MetricStale := rv_MetricStale v;
     rv_MetricStaleReason := rv_MetricStaleReason v; rv_Message := rv_Message v;
     rv_RequiresConfirm := true;
     rv_RequiresHighRiskAck := IsHighRiskLevel risk || rv_RequiresHighRiskAck v |}.

(** ** Freshness *)
Definition applyOperationFreshnessWarning (i : MQInstance) (c : HighRiskOperationConfig) (now : Z)
    (v : ResourceOperationValidationVO) : ResourceOperationValidationVO :=
  let maxMetadataAge := if 0 <? hc_OperationMaxMetadataAge c then hc_OperationMaxMetadataAge c else 30 * minute in
  let maxMetricAge := if 0 <? hc_OperationMaxMetricAge c then hc_OperationMaxMetricAge c else 10 * minute in
  let v :=
    match mi_LastSyncAt i with
    | None => set_metadata_stale $"该实例尚未完成元数据同步，影响范围可能不准确" v
    | Some t =>
      if maxMetadataAge <? now - t
      then set_metadata_stale ($"最近元数据同步已超过 " ++ fmt_d (maxMetadataAge / minute) ++
             $" 分钟，影响范围可能不准确") v
      else v
    end in
  match mi_LastMetricAt i with
  | None => set_metric_stale $"该实例尚未采集指标快照，backlog/lag 影响判断可能不准确" v
  | Some t =>
    if maxMetricAge <? now - t
    then set_metric_stale ($"最近指标快照已超过 " ++ fmt_d (maxMetricAge / minute) ++
           $" 分钟，backlog/lag 影响判断可能不准确") v
    else v
  end.

(** ** Snapshots *)
Definition resourceSnapshot (r : MQResource) : params :=
  [($"id", AUint (mr_ID r)); ($"resourceType", AText (mr_ResourceType r));
   ($"namespace", AText (mr_Namespace r)); ($"name", AText (mr_Name r));
   ($"fullName", AText (mr_FullName r)); ($"durable", ABool (mr_Durable r));
   ($"partitionCount", AInt (mr_PartitionCount r)); ($"replicaCount", AInt (mr_ReplicaCount r));
   ($"messageCount", AInt64 (mr_MessageCount r)); ($"backlog", AInt64 (mr_Backlog r));
   ($"consumerCount", AInt (mr_ConsumerCount r)); ($"config", AMap (parseJSONMap (mr_ConfigJSON r)));
   ($"lastSyncAt", AText (formatTimePtr (mr_LastSyncAt r)))].

Definition consumerGroupSnapshot (g : MQConsumerGroup) : params :=
  [($"id", AUint (cg_ID g)); ($"resourceType", AText ResourceTypeSubscription);
   ($"namespace", AText (cg_Namespace g)); ($"name", AText (cg_GroupName g));
   ($"groupName", AText (cg_GroupName g)); ($"resourceName", AText (cg_ResourceName g));
   ($"state", AText (cg_State g)); ($"consumerCount", AInt (cg_ConsumerCount g));
   ($"activeConsumerCount", AInt (cg_ActiveConsumerCount g));
   ($"currentOffset", AInt64 (cg_CurrentOffset g)); ($"endOffset", AInt64 (cg_EndOffset g));
   ($"lag", AInt64 (cg_Lag g)); ($"backlog", AInt64 (cg_Backlog g));
   ($"lastConsumedAt", AText (formatTimePtr (cg_LastConsumedAt g)));
   ($"lastSyncAt", AText (formatTimePtr (cg_LastSyncAt g)));
   ($"metadata", AMap (parseJSONMap (cg_MetadataJSON g)))].

Definition lookupOperationResource (instanceID : Z) (v : ResourceOperationValidationVO) :
    handler mq_world (option MQResource) :=
  if bool_decide (rv_ResourceType v = []) || bool_decide (rv_ResourceName v = []) then mret None
  else try_ (fun es => oe_resource E es instanceID (rv_ResourceType v) (rv_Namespace v) (rv_ResourceName v)).

Definition lookupOperationConsumerGroup (instanceID : Z) (v : ResourceOperationValidationVO) :
    handler mq_world (option MQConsumerGroup) :=
  let p := cloneParams (rv_NormalizedParams v) in
  let resourceName := firstNonEmpty [operationStringParam p topic_keys; rv_ResourceName v] in
  let groupName := firstNonEmpty [operationStringParam p subscription_keys; rv_ResourceName v] in
  try_ (fun es => oe_group E es instanceID (rv_Namespace v) resourceName groupName).

Definition operationDesiredSnapshot (v : ResourceOperationValidationVO) : params :=
  let p := cloneParams (rv_NormalizedParams v) in
  let a := rv_Action v in
  let base := [($"resourceType", AText (rv_ResourceType v)); ($"namespace", AText (rv_Namespace v));
               ($"name", AText (rv_ResourceName v)); ($"action", AText a)] in
  let durable := ($"durable", ABool (operationBoolParam p true [$"durable"])) in
  let auto_delete := ($"auto_delete", ABool (operationBoolParam p false auto_delete_keys)) in
  let arguments := ($"arguments", AMap (operationAnyMapParam p [$"arguments"])) in
  base ++
  (if bool_decide (a = OperationActionKafkaTopicCreate) then
     [($"partitionCount", AInt (operationIntParam p 0 [$"partitions"; $"numPartitions"]));
      ($"replicaCount", AInt (operationIntParam p 0 [$"replicationFactor"]));
      ($"config", ATextMap (operationStringMapParam p [$"configs"]))]
   else if bool_decide (a = OperationActionKafkaPartitionsExpand) then
     [($"partitionCount", AInt (operationIntParam p 0 [$"partitions"; $"count"]))]
   else if bool_decide (a = OperationActionKafkaTopicConfigUpdate) then
     [($"config", ATextMap (operationStringMapParam p [$"configs"]))]
   else if bool_decide (a = OperationActionRabbitMQQueueUpsert) then
     [durable; ($"config", AMap [auto_delete; arguments])]
   else if bool_decide (a = OperationActionRabbitMQExchangeUpsert) then
     [durable; ($"config", AMap [($"type", AText (operationStringParam p [$"type"])); auto_delete;
        ($"internal", ABool (operationBoolParam p false [$"internal"])); arguments])]
   else if bool_decide (a = OperationActionPulsarRetentionUpdate) then
     [($"config", AMap
        [($"retentionTimeInMinutes", AInt (operationIntParam p 0 [$"retentionTimeInMinutes"]));
         ($"retentionSizeInMB", AInt (operationIntParam p 0 [$"retentionSizeInMB"]))])]
   else if bool_decide (a = OperationActionPulsarTTLUpdate) then
     [($"config", AMap [($"messageTTLInSeconds", AInt (operationIntParam p 0 ttl_keys))])]
   else if bool_decide (a = OperationActionPulsarSubscriptionSkip) then
     [($"topic", AText (operationStringParam p topic_keys));
      ($"subscription", AText (operationStringParam p subscription_keys));
      ($"backlog", AInt 0); ($"lag", AInt 0)]
   else if bool_decide (a = OperationActionPulsarSubscriptionReset) then
     [($"topic", AText (operationStringParam p topic_keys));
      ($"subscription", AText (operationStringParam p subscription_keys));
      ($"targetTimestampMs", AInt (operationIntParam p 0 timestamp_keys))]
   else [($"params", AMap p)]).

(** ** Differences and what they risk *)

(** The entry ["config"] of a snapshot, or the snapshot. *)
Fixpoint snapshotConfig (v : any) : params :=
  match v with
  | AMap m =>
    (fix config (l : list (gostring * any)) : params :=
       match l with
       | [] => m
       | (k, x) :: l' => if bool_decide (k = $"config") then snapshotConfig x else config l'
       end) m
  | ATextMap m => (fun e => (e.1, AText e.2)) <$> m
  | _ => []
  end.
Definition snapshot_config (m : option params) : params :=
  match m with Some m => snapshotConfig (AMap m) | None => [] end.
Definition snapshot_at (m : option params) (k : gostring) : any := map_at (default [] m) k.

Definition parseConfigInt64 (v : any) : option Z :=
  let text := TrimSpace (stringValue v) in
  if bool_decide (text = []) then None
  else let '(n, ok) := ParseInt text in if ok then Some n else None.

Definition shrinking_keys : list gostring :=
  [$"retention.ms"; $"retention.bytes"; $"max.message.bytes"; $"retentionTimeInMinutes";
   $"retentionSizeInMB"; $"messageTTLInSeconds"].
Definition configValueDecrease (key : gostring) (before after : any) : bool :=
  one_of key shrinking_keys &&
  match parseConfigInt64 before, parseConfigInt64 after with
  | Some b, Some a => (0 <=? b) && (0 <=? a) && (a <? b)
  | _, _ => false
  end.
Definition cleanupPolicyBecomesDeleteOnly (key : gostring) (before after : any) : bool :=
  bool_decide (key = $"cleanup.policy") &&
  Contains (ToLower (stringValue before)) $"compact" &&
  bool_decide (ToLower (stringValue after) = $"delete").
Definition configDiffRisk (key : gostring) (before after : any) : gostring :=
  if configValueDecrease key before after || cleanupPolicyBecomesDeleteOnly key before after
  then RiskLevelHigh
  else if one_of key [$"retention.ms"; $"retention.bytes"; $"cleanup.policy"; $"max.message.bytes";
            $"min.insync.replicas"; $"messageTTLInSeconds"; $"retentionTimeInMinutes"; $"retentionSizeInMB"]
  then RiskLevelMedium else RiskLevelLow.

Definition diff_keys : list gostring :=
  [$"resourceType"; $"namespace"; $"name"; $"durable"; $"partitionCount"; $"replicaCount"].
Definition buildOperationDiff (before : option params) (after : params) : option (list OperationDiffItem) :=
  match after with
  | [] => None
  | _ =>
    let changed (b a : any) : bool := negb (bool_decide (Sprint b = Sprint a)) in
    Some
      ((diff_keys ≫= fun key =>
          match map_get after key with
          | None => []
          | Some a =>
            let b := snapshot_at before key in
            if changed b a then [{| di_Key := key; di_Before := b; di_After := a; di_Risk := RiskLevelLow |}]
            else []
          end) ++
       (snapshotConfig (AMap after) ≫= fun e =>
          let b := map_at (snapshot_config before) e.1 in
          if changed b e.2
          then [{| di_Key := $"config." ++ e.1; di_Before := b; di_After := e.2;
                   di_Risk := configDiffRisk e.1 b e.2 |}]
          else []))
  end.

(** ** Guards on the plan *)
Definition applyRabbitMQImmutableGuards (v : ResourceOperationValidationVO) : ResourceOperationValidationVO :=
  if bool_decide (default [] (rv_Before v) = []) then v
  else
    let before := snapshot_config (rv_Before v) in
    let after := snapshot_config (rv_After v) in
    let differs (key : gostring) := negb (Bool.eqb (boolValue (map_at before key)) (boolValue (map_at after key))) in
    let durable_differs := negb (Bool.eqb (boolValue (snapshot_at (rv_Before v) $"durable"))
                                          (boolValue (snapshot_at (rv_After v) $"durable"))) in
    let a := rv_Action v in
    let beforeType := stringValue (map_at before $"type") in
    if bool_decide (a = OperationActionRabbitMQQueueUpsert) then
      let arguments := snapshotConfig (map_at after $"arguments") in
      let afterType := firstNonEmpty [stringValue (map_at arguments $"x-queue-type");
                                      stringValue (map_at arguments $"type")] in
      if durable_differs then
        markOperationUnsupported $"Queue 已存在，durable 不支持通过二期 upsert 直接变更；如需变更请走高风险删除重建流程" v
      else if differs $"auto_delete" then
        markOperationUnsupported $"Queue 已存在，auto_delete 不支持通过二期 upsert 直接变更；如需变更请走高风险删除重建流程" v
      else if negb (bool_decide (beforeType = [])) && negb (bool_decide (afterType = [])) &&
              negb (bool_decide (beforeType = afterType)) then
        markOperationUnsupported $"Queue 已存在，x-queue-type 不支持直接变更；classic/quorum/stream 类型切换需要删除重建" v
      else v
    else if bool_decide (a = OperationActionRabbitMQExchangeUpsert) then
      let afterType := stringValue (map_at after $"type") in
      if negb (bool_decide (beforeType = [])) && negb (bool_decide (afterType = [])) &&
         negb (bool_decide (beforeType = afterType)) then
        markOperationUnsupported $"Exchange 已存在，type 不支持通过二期 upsert 直接变更；如需变更请走高风险删除重建流程" v
      else if durable_differs then
        markOperationUnsupported $"Exchange 已存在，durable 不支持通过二期 upsert 直接变更；如需变更请走高风险删除重建流程" v
      else if differs $"auto_delete" then
        markOperationUnsupported $"Exchange 已存在，auto_delete 不支持通过二期 upsert 直接变更；如需变更请走高风险删除重建流程" v
      else if differs $"internal" then
        markOperationUnsupported $"Exchange 已存在，internal 不支持通过二期 upsert 直接变更；如需变更请走高风险删除重建流程" v
      else v
    else v.

Definition change_text (key : gostring) (before after : any) (rest : gostring) : gostring :=
  key ++ $" 从 " ++ stringValue before ++ $" 调整为 " ++ stringValue after ++ rest.
Definition applyDestructiveConfigRisk (v : ResourceOperationValidationVO) : ResourceOperationValidationVO :=
  if bool_decide (default [] (rv_Before v) = []) then v
  else
    let before := snapshot_config (rv_Before v) in
    let after := snapshot_config (rv_After v) in
    let a := rv_Action v in
    let kafka := bool_decide (a = OperationActionKafkaTopicConfigUpdate) in
    let pulsar := bool_decide (a = OperationActionPulsarRetentionUpdate) ||
                  bool_decide (a = OperationActionPulsarTTLUpdate) in
    foldl (fun v e =>
      let b := map_at before e.1 in
      if kafka then
        if configValueDecrease e.1 b e.2 || cleanupPolicyBecomesDeleteOnly e.1 b e.2
        then elevateOperationRisk (change_text e.1 b e.2 $" 可能导致历史消息更快清理或写入行为变化，已升级为高风险") v
        else v
      else if pulsar then
        if configValueDecrease e.1 b e.2
        then elevateOperationRisk (change_text e.1 b e.2 $" 可能导致消息更快过期或清理，已升级为高风险") v
        else v
      else v) v after.

Definition countRabbitMQExchangeBindings (bindings : list MQBinding) (vhost exchange : gostring) : Z :=
  Z.of_nat (length (List.filter (fun b =>
    (bool_decide (vhost = []) || bool_decide (mb_VHost b = vhost)) &&
    (bool_decide (mb_Source b = exchange) ||
     (bool_decide (mb_DestinationType b = ResourceTypeExchange) && bool_decide (mb_Destination b = exchange))))
    bindings)).

Definition applyHighRiskOperationGuards (i : MQInstance) (r : ResourceOperationRequest)
    (es : list mq_event) (v : ResourceOperationValidationVO) : ResourceOperationValidationVO :=
  let a := rv_Action v in
  if bool_decide (a = OperationActionRabbitMQExchangeDelete) then
    match oe_bindings E es (mi_ID i) with
    | Err e => add_warning ($"检查 Exchange 绑定关系失败: " ++ e) v
    | Ok bindings =>
      let count := countRabbitMQExchangeBindings bindings (rv_Namespace v) (rv_ResourceName v) in
      if count <=? 0 then v
      else
        let impact := $"该 Exchange 当前存在 " ++ fmt_d count ++ $" 条 binding，删除后相关消息路由会失效" in
        let v := add_warning impact (add_impact impact v) in
        if negb (operationBoolParam (ro_Params r) false [$"force"])
        then markOperationUnsupported $"Exchange 存在 binding，需在参数中显式设置 force=true 后才允许删除" v
        else v
    end
  else if bool_decide (a = OperationActionPulsarSubscriptionSkip) ||
          bool_decide (a = OperationActionPulsarSubscriptionReset) then
    if bool_decide (default [] (rv_Before v) = []) then v
    else
      let number key := intValue (snapshot_at (rv_Before v) key) in
      let v := add_impact ($"当前 backlog: " ++ fmt_d (int64Value (snapshot_at (rv_Before v) $"backlog"))) v in
      let v := add_impact ($"当前消费者数: " ++ fmt_d (number $"consumerCount") ++
                 $"，活跃消费者数: " ++ fmt_d (number $"activeConsumerCount")) v in
      if 0 <? number $"activeConsumerCount"
      then add_warning $"当前 subscription 存在在线消费者，reset/skip 后可能立即影响消费结果" v
      else v
  else v.

Definition buildResourceOperationLockKey (instanceID : Z) (v : ResourceOperationValidationVO) : gostring :=
  fmt_d instanceID ++ $":" ++ rv_ResourceType v ++ $":" ++ rv_Namespace v ++ $":" ++ rv_ResourceName v ++
  $":" ++ rv_Action v.

(** ** The plan *)
Definition enrichResourceOperationPlan (i : MQInstance) (r : ResourceOperationRequest)
    (v : ResourceOperationValidationVO) : handler mq_world ResourceOperationValidationVO :=
  let v := set_lock_key (buildResourceOperationLockKey (mi_ID i) v) v in
  c ← resolveHighRiskOperationConfig;
  now ← ask (oe_now E);
  let v := applyOperationFreshnessWarning i c now v in
  resource ← lookupOperationResource (mi_ID i) v;
  let v := match resource with Some x => set_before (resourceSnapshot x) v | None => v end in
  v ← (if bool_decide (rv_ResourceType v = ResourceTypeSubscription) then
         group ← lookupOperationConsumerGroup (mi_ID i) v;
         mret (match group with Some g => set_before (consumerGroupSnapshot g) v | None => v end)
       else mret v);
  let after := operationDesiredSnapshot v in
  let v := set_plan after (buildOperationDiff (rv_Before v) after) v in
  let v := applyDestructiveConfigRisk (applyRabbitMQImmutableGuards v) in
  es ← ask (fun es => es);
  mret (applyHighRiskOperationGuards i r es v).

(** What both entry points do first: the adapter's validation, completed. *)
Definition plan_operation (i : MQInstance) (a : ResourceOperationAdapter) (r : ResourceOperationRequest) :
    handler mq_world validated :=
  vr ← h_lift (ad_Validate a i r);
  let '(v, r) := vr in
  let v := fillOperationValidationDefaults i r v in
  v ← enrichResourceOperationPlan i r v;
  mret (fillOperationValidationDefaults i r v, r).

Definition ValidateResourceOperation (instanceID : Z) (r : ResourceOperationRequest) :
    handler mq_world validated :=
  ia ← resolveResourceOperationAdapter instanceID;
  let '(i, a) := ia in
  let r := normalizeResourceOperationRequest r in
  _ ← h_guard (negb (bool_decide (ro_Action r = []))) $"操作动作不能为空";
  plan_operation i a r.

(** ** The audit row *)
Definition map_value (m : option params) : any := match m with Some m => AMap m | None => ANil end.
Definition texts (l : list gostring) : any := ASlice (AText <$> l).
Definition diff_value (d : option (list OperationDiffItem)) : any :=
  match d with
  | None => ANil
  | Some l => ASlice ((fun x => AStruct [($"key", AText (di_Key x)); ($"before", di_Before x);
                                         ($"after", di_After x); ($"risk", AText (di_Risk x))]) <$> l)
  end.

Definition buildOperationBackupPackage (i : MQInstance) (v : ResourceOperationValidationVO) (now : Z) : any :=
  AMap
    [($"generatedAt", AText (oe_time_text E now));
     ($"instance", AMap
        [($"id", AUint (mi_ID i)); ($"name", AText (mi_Name i)); ($"mqType", AText (mi_MQType i));
         ($"environment", AText (mi_Environment i)); ($"businessSystem", AText (mi_BusinessSystem i));
         ($"owner", AText (mi_Owner i)); ($"lastSyncAt", AText (formatTimePtr (mi_LastSyncAt i)));
         ($"lastMetricAt", AText (formatTimePtr (mi_LastMetricAt i)))]);
     ($"operation", AMap
        [($"action", AText (rv_Action v)); ($"actionText", AText (rv_ActionText v));
         ($"riskLevel", AText (rv_RiskLevel v)); ($"resourceType", AText (rv_ResourceType v));
         ($"namespace", AText (rv_Namespace v)); ($"resourceName", AText (rv_ResourceName v))]);
     ($"before", map_value (rv_Before v)); ($"after", map_value (rv_After v));
     ($"diff", diff_value (rv_Diff v)); ($"warnings", texts (rv_Warnings v));
     ($"impacts", texts (rv_Impacts v));
     ($"note", AText $"备份包用于恢复资源配置和事故复盘，不承诺恢复已删除或已清理的消息内容")].

(** The hint, whether it supports a rollback, and its risk. *)
Definition buildRollbackHint (v : ResourceOperationValidationVO) : params * bool * gostring :=
  let a := rv_Action v in
  let base := [($"action", AText a); ($"resourceType", AText (rv_ResourceType v));
    ($"resourceName", AText (rv_ResourceName v)); ($"namespace", AText (rv_Namespace v));
    ($"supported", ABool false); ($"message", AText $"该操作不提供自动回滚，仅保留审计快照用于人工复盘")] in
  let say (message : gostring) (h : params) := map_set h $"message" (AText message) in
  let partial (message : gostring) (steps : list gostring) : params :=
    map_set (say message (map_set (map_set base $"supported" (ABool true)) $"supportLevel" (AText $"partial")))
      $"steps" (texts steps) in
  if bool_decide (a = OperationActionRabbitMQQueueDelete) then
    (partial $"可根据 before snapshot 人工重建 queue 配置；已删除消息无法通过 OpsHub 恢复"
       [$"确认业务已停止写入该 queue"; $"按 before snapshot 重建 queue 参数和 arguments"; $"按备份信息恢复 binding";
        $"同步元数据并通知业务验证"], true, RiskLevelHigh)
  else if bool_decide (a = OperationActionRabbitMQExchangeDelete) then
    (partial $"可根据 before snapshot 人工重建 exchange 配置；删除期间丢失的路由关系影响需业务侧确认"
       [$"按 before snapshot 重建 exchange"; $"恢复相关 binding"; $"同步元数据并验证消息路由"], true, RiskLevelHigh)
  else if bool_decide (a = OperationActionKafkaTopicDelete) then
    (partial $"可根据 before snapshot 人工重建 topic 分区、副本和配置；已删除消息无法通过 OpsHub 恢复"
       [$"确认 broker delete topic 已完成"; $"按 before snapshot 重建 topic"; $"恢复 topic config";
        $"同步元数据并通知生产/消费方验证"], true, RiskLevelCritical)
  else if bool_decide (a = OperationActionPulsarTopicDelete) then
    (partial $"可按 before snapshot 辅助重建 topic 或 namespace 策略；已删除消息无法通过 OpsHub 恢复"
       [$"按原 tenant/namespace/topic 重建资源"; $"恢复 namespace/topic 策略"; $"同步元数据并验证 subscription"],
     true, RiskLevelCritical)
  else if bool_decide (a = OperationActionRabbitMQQueuePurge) then
    (say $"purge 会清空队列消息，OpsHub 无法恢复已清理消息；仅可用 before snapshot 评估影响范围" base,
     false, RiskLevelCritical)
  else if bool_decide (a = OperationActionPulsarSubscriptionSkip) ||
          bool_decide (a = OperationActionPulsarSubscriptionReset) then
    (map_set (say $"subscription 位点变更无法保证自动回滚；如需恢复需按业务语义重新 reset 到明确时间或 message id" base)
       $"steps" (texts [$"保留执行前 cursor/backlog 快照"; $"确认业务期望位点";
                        $"通过高危操作重新 reset 到目标时间"; $"验证消费者处理结果"]),
     false, RiskLevelHigh)
  else if IsHighRiskLevel (rv_RiskLevel v) then
    (say $"高风险操作已保存 before/after/diff/impact，可用于人工恢复配置或事故复盘" base, false, rv_RiskLevel v)
  else (base, false, RiskLevelLow).

Definition request_value (r : ResourceOperationRequest) : any :=
  AStruct [($"action", AText (ro_Action r)); ($"resourceType", AText (ro_ResourceType r));
    ($"namespace", AText (ro_Namespace r)); ($"resourceName", AText (ro_ResourceName r));
    ($"reason", AText (ro_Reason r)); ($"confirmText", AText (ro_ConfirmText r));
    ($"confirmed", ABool (ro_Confirmed r)); ($"idempotencyKey", AText (ro_IdempotencyKey r));
    ($"params", AMap (ro_Params r))].

Definition new_audit (i : MQInstance) (v : ResourceOperationValidationVO) (r : ResourceOperationRequest)
    (o : Operator) (now : Z) : MQOperationAudit :=
  let '(hint, supported, hint_risk) := buildRollbackHint v in
  {| oa_ID := 0; oa_InstanceID := mi_ID i; oa_InstanceName := mi_Name i; oa_MQType := mi_MQType i;
     oa_ResourceType := rv_ResourceType v; oa_ResourceName := rv_ResourceName v;
     oa_Namespace := rv_Namespace v; oa_Action := rv_Action v; oa_RiskLevel := rv_RiskLevel v;
     oa_Status := AuditStatusPending;
     oa_OperationID := $"mqop-" ++ fmt_d (mi_ID i) ++ $"-" ++ fmt_d now;
     oa_IdempotencyKey := TrimSpace (ro_IdempotencyKey r); oa_LockKey := rv_LockKey v;
     oa_ConfirmText := TrimSpace (ro_ConfirmText r); oa_RequestJSON := Marshal (request_value r);
     oa_ResultJSON := []; oa_BeforeSnapshotJSON := nil_map (rv_Before v);
     oa_AfterSnapshotJSON := nil_map (rv_After v); oa_DiffJSON := Marshal (diff_value (rv_Diff v));
     oa_WarningsJSON := Marshal (texts (rv_Warnings v));
     oa_ImpactSummaryJSON := Marshal (texts (rv_Impacts v));
     oa_OperationBackupJSON := Marshal (buildOperationBackupPackage i v now);
     oa_RollbackHintJSON := Marshal (AMap hint); oa_RollbackSupported := supported;
     oa_RollbackRiskLevel := hint_risk; oa_MetadataRefreshStatus := []; oa_MetadataRefreshError := [];
     oa_Reason := trimText (ro_Reason r) 500; oa_OperatorID := opr_ID o;
     oa_OperatorName := opr_Username o; oa_ClientIP := opr_ClientIP o; oa_StartedAt := Some now;
     oa_FinishedAt := None; oa_DurationMs := 0; oa_Message := []; oa_PreviousAuditHash := [];
     oa_AuditHash := [] |}.

(** [startResourceOperationAudit]: the row, or nothing when it is not stored. *)
Definition startResourceOperationAudit (i : MQInstance) (v : ResourceOperationValidationVO)
    (r : ResourceOperationRequest) (o : Operator) : handler mq_world (option MQOperationAudit) := fun w =>
  let es := mw_events w in
  let item := new_audit i v r o (oe_now E es) in
  let '(res, audits) := CreateAudit (oe_audit_read E es) (oe_audit_write E es) (mw_audits w) item in
  let e := MqAuditCreate (oa_IdempotencyKey item) (oa_Status item) (is_ok res) in
  (Ok (match res with Ok a => Some a | Err _ => None end),
   {| mw_events := es ++ [e]; mw_audits := audits; mw_locks := mw_locks w |}).

Definition set_finish (status message result : gostring) (startedAt finishedAt : Z)
    (a : MQOperationAudit) : MQOperationAudit :=
  {| oa_ID := oa_ID a; oa_InstanceID := oa_InstanceID a; oa_InstanceName := oa_InstanceName a;
     oa_MQType := oa_MQType a; oa_ResourceType := oa_ResourceType a;
     oa_ResourceName := oa_ResourceName a; oa_Namespace := oa_Namespace a;
     oa_Action := oa_Action a; oa_RiskLevel := oa_RiskLevel a; oa_Status := status;
     oa_OperationID := oa_OperationID a; oa_IdempotencyKey := oa_IdempotencyKey a;
     oa_LockKey := oa_LockKey a; oa_ConfirmText := oa_ConfirmText a;
     oa_RequestJSON := oa_RequestJSON a; oa_ResultJSON := result;
     oa_BeforeSnapshotJSON := oa_BeforeSnapshotJSON a;
     oa_AfterSnapshotJSON := oa_AfterSnapshotJSON a; oa_DiffJSON := oa_DiffJSON a;
     oa_WarningsJSON := oa_WarningsJSON a; oa_ImpactSummaryJSON := oa_ImpactSummaryJSON a;
     oa_OperationBackupJSON := oa_OperationBackupJSON a;
     oa_RollbackHintJSON := oa_RollbackHintJSON a; oa_RollbackSupported := oa_RollbackSupported a;
     oa_RollbackRiskLevel := oa_RollbackRiskLevel a;
     oa_MetadataRefreshStatus := oa_MetadataRefreshStatus a;
     oa_MetadataRefreshError := oa_MetadataRefreshError a; oa_Reason := oa_Reason a;
     oa_OperatorID := oa_OperatorID a; oa_OperatorName := oa_OperatorName a;
     oa_ClientIP := oa_ClientIP a; oa_StartedAt := Some startedAt;
     oa_FinishedAt := Some finishedAt; oa_DurationMs := Z.quot (finishedAt - startedAt) 1000000;
     oa_Message := trimText message 500; oa_PreviousAuditHash := oa_PreviousAuditHash a;
     oa_AuditHash := oa_AuditHash a |}.
Definition set_refresh (status error after : gostring) (a : MQOperationAudit) : MQOperationAudit :=
  {| oa_ID := oa_ID a; oa_InstanceID := oa_InstanceID a; oa_InstanceName := oa_InstanceName a;
     oa_MQType := oa_MQType a; oa_ResourceType := oa_ResourceType a;
     oa_ResourceName := oa_ResourceName a; oa_Namespace := oa_Namespace a;
     oa_Action := oa_Action a; oa_RiskLevel := oa_RiskLevel a; oa_Status := oa_Status a;
     oa_OperationID := oa_OperationID a; oa_IdempotencyKey := oa_IdempotencyKey a;
     oa_LockKey := oa_LockKey a; oa_ConfirmText := oa_ConfirmText a;
     oa_RequestJSON := oa_RequestJSON a; oa_ResultJSON := oa_ResultJSON a;
     oa_BeforeSnapshotJSON := oa_BeforeSnapshotJSON a; oa_AfterSnapshotJSON := after;
     oa_DiffJSON := oa_DiffJSON a; oa_WarningsJSON := oa_WarningsJSON a;
     oa_ImpactSummaryJSON := oa_ImpactSummaryJSON a;
     oa_OperationBackupJSON := oa_OperationBackupJSON a;
     oa_RollbackHintJSON := oa_RollbackHintJSON a; oa_RollbackSupported := oa_RollbackSupported a;
     oa_RollbackRiskLevel := oa_RollbackRiskLevel a; oa_MetadataRefreshStatus := status;
     oa_MetadataRefreshError := trimText error 500; oa_Reason := oa_Reason a;
     oa_OperatorID := oa_OperatorID a; oa_OperatorName := oa_OperatorName a;
     oa_ClientIP := oa_ClientIP a; oa_StartedAt := oa_StartedAt a;
     oa_FinishedAt := oa_FinishedAt a; oa_DurationMs := oa_DurationMs a;
     oa_Message := oa_Message a; oa_PreviousAuditHash := oa_PreviousAuditHash a;
     oa_AuditHash := oa_AuditHash a |}.

(** [finishOperationAudit]; the result is [mustJSON(nil)] after a failure. *)
Definition finishOperationAudit (audit : option MQOperationAudit) (status message result : gostring)
    (startedAt finishedAt : Z) : handler mq_world unit := fun w =>
  match audit with
  | None => (Ok tt, w)
  | Some a =>
    let es := mw_events w in
    let a := set_finish status message result startedAt finishedAt a in
    let '(a, audits) := UpdateAudit (oe_audit_read E es) (oe_audit_write E es) (mw_audits w) a in
    (Ok tt, {| mw_events := es ++ [MqAuditUpdate (oa_ID a) (oa_Status a) (oe_audit_write E es)];
               mw_audits := audits; mw_locks := mw_locks w |})
  end.

(** ** Locks: one per resource and action, in the process *)
Definition acquireResourceOperationLock (key : gostring) : handler mq_world bool := fun w =>
  let key := TrimSpace key in
  if bool_decide (key = []) then (Ok true, w)
  else if bool_decide (key ∈ mw_locks w) then (Ok false, w)
  else (Ok true, {| mw_events := mw_events w ++ [MqLocked key]; mw_audits := mw_audits w;
                    mw_locks := key :: mw_locks w |}).
Definition releaseResourceOperationLock (key : gostring) (w : mq_world) : mq_world :=
  let key := TrimSpace key in
  if bool_decide (key = []) then w
  else {| mw_events := mw_events w ++ [MqUnlocked key]; mw_audits := mw_audits w;
          mw_locks := List.filter (fun k => negb (bool_decide (k = key))) (mw_locks w) |}.

(** [defer f()]. *)
Definition finally {A} (f : mq_world -> mq_world) (m : handler mq_world A) : handler mq_world A :=
  fun w => let '(res, w') := m w in (res, f w').

(** [defer]: the lock is released on every way out. *)
Definition with_lock {A} (key : gostring) (m : handler mq_world A) : handler mq_world A :=
  if bool_decide (key = []) then m
  else
    got ← acquireResourceOperationLock key;
    if got : bool then finally (releaseResourceOperationLock key) m
    else h_fail $"资源正在执行相同操作，请稍后再试".

(** ** Idempotency *)
Definition GetByIdempotencyKey (instanceID : Z) (key : gostring) (t : audit_table MQOperationAudit) :
    option MQOperationAudit :=
  let key := TrimSpace key in
  if bool_decide (key = []) then None
  else last (List.filter (fun a => (oa_InstanceID a =? instanceID) && bool_decide (oa_IdempotencyKey a = key))
              (at_rows t)).

Definition result_of_audit (a : MQOperationAudit) : ResourceOperationResultVO :=
  {| rr_AuditID := oa_ID a; rr_InstanceID := oa_InstanceID a; rr_MQType := oa_MQType a;
     rr_Action := oa_Action a; rr_ActionText := actionText (oa_Action a);
     rr_RiskLevel := oa_RiskLevel a; rr_ResourceType := oa_ResourceType a;
     rr_Namespace := oa_Namespace a; rr_ResourceName := oa_ResourceName a; rr_Status := oa_Status a;
     rr_Message := firstNonEmpty [oa_Message a; $"重复提交已返回上次操作结果"];
     rr_DurationMs := oa_DurationMs a;
     rr_Result := AMap (if bool_decide (TrimSpace (oa_ResultJSON a) = []) then []
                        else default [] (read_map (oa_ResultJSON a)));
     rr_ExecutedAt := formatTimePtr (oa_FinishedAt a) |}.

Definition idempotentResourceOperationResult (i : MQInstance) (r : ResourceOperationRequest) :
    handler mq_world (option ResourceOperationResultVO) := fun w =>
  if bool_decide (TrimSpace (ro_IdempotencyKey r) = []) then (Ok None, w)
  else
    match oe_audit_query E (mw_events w) with
    | Some e => (Err e, w)
    | None =>
      match GetByIdempotencyKey (mi_ID i) (ro_IdempotencyKey r) (mw_audits w) with
      | None => (Ok None, w)
      | Some a =>
        if bool_decide (oa_Status a = AuditStatusPending) then (Err $"相同幂等键的操作正在执行，请稍后查询审计结果", w)
        else if bool_decide (oa_Status a = AuditStatusSuccess) || bool_decide (oa_Status a = AuditStatusPartial)
        then (Ok (Some (result_of_audit a)), w)
        else (Err $"相同幂等键已有失败操作记录，请更换幂等键后重试", w)
      end
    end.

(** ** Guards of the execution *)
Definition validateHighRiskConfirmText (r : ResourceOperationRequest) (v : ResourceOperationValidationVO) :
    result unit :=
  let expected := TrimSpace (rv_ResourceName v) in
  let actual := TrimSpace (ro_ConfirmText r) in
  if bool_decide (expected = []) then Ok tt
  else if bool_decide (actual = []) then Err $"高风险操作必须输入资源名确认"
  else if bool_decide (actual = expected) then Ok tt else Err $"高风险操作资源名确认不一致".

Definition high_risk_guards (i : MQInstance) (r : ResourceOperationRequest)
    (v : ResourceOperationValidationVO) : handler mq_world ResourceOperationValidationVO :=
  c ← resolveHighRiskOperationConfig;
  now ← ask (oe_now E);
  let v := applyOperationFreshnessWarning i c now v in
  _ ← h_guard (hc_Enabled c) $"MQ高风险操作未开启";
  _ ← h_guard (negb (rv_MetadataStale v)) $"高风险操作要求新鲜元数据，请先同步后再执行";
  _ ← h_guard (negb (hc_RequireFreshMetricHighRisk c && rv_MetricStale v))
        $"高风险操作要求新鲜指标，请先采集指标后再执行";
  _ ← h_guard (negb (hc_ReasonRequired c && bool_decide (TrimSpace (ro_Reason r) = [])))
        $"高风险操作原因不能为空";
  _ ← h_lift (validateHighRiskConfirmText r v);
  mret v.

(** ** After the call *)
Definition refreshMetadataAfterResourceOperation (i : MQInstance) : handler mq_world unit :=
  snapshot ← attempt (oe_discover E) MqDiscover;
  match snapshot with
  | None => mret tt
  | Some s =>
    now ← ask (oe_now E);
    let health := or_text (sn_HealthStatus s) HealthStatusHealthy in
    _ ← attempt (fun es => no_error (oe_replace E es)) (MqReplaceAll (mi_ID i));
    let i := {| mi_ID := mi_ID i; mi_Name := mi_Name i; mi_MQType := mi_MQType i;
                mi_Engine := (if bool_decide (TrimSpace (sn_Engine s) = []) then mi_Engine i
                              else TrimSpace (sn_Engine s));
                mi_Version := TrimSpace (sn_Version s); mi_CredentialID := mi_CredentialID i;
                mi_Status := mi_Status i; mi_HealthStatus := health; mi_Environment := mi_Environment i;
                mi_BusinessSystem := mi_BusinessSystem i; mi_Owner := mi_Owner i;
                mi_LastSyncAt := Some now; mi_LastMetricAt := mi_LastMetricAt i |} in
    attempt (fun es => no_error (oe_instance_update E es)) (MqInstanceUpdate i)
  end.

Definition operationDeletesResource (action : gostring) : bool :=
  one_of action [OperationActionRabbitMQQueueDelete; OperationActionRabbitMQExchangeDelete;
    OperationActionKafkaTopicDelete; OperationActionPulsarTopicDelete].

Definition afterOperationSnapshot (instanceID : Z) (v : ResourceOperationValidationVO)
    (resourceType namespace resourceName : gostring) (es : list mq_event) : result (option params) :=
  if bool_decide (rv_ResourceType v = ResourceTypeSubscription) then
    let p := cloneParams (rv_NormalizedParams v) in
    group ← oe_group E es instanceID (rv_Namespace v)
              (firstNonEmpty [operationStringParam p topic_keys; rv_ResourceName v])
              (firstNonEmpty [operationStringParam p subscription_keys; rv_ResourceName v]);
    match group with
    | Some g => Ok (Some (consumerGroupSnapshot g))
    | None => Ok (Some [($"resourceType", AText ResourceTypeSubscription);
        ($"namespace", AText (rv_Namespace v)); ($"name", AText (rv_ResourceName v));
        ($"action", AText (rv_Action v)); ($"exists", ABool false)])
    end
  else
    resource ← (if bool_decide (resourceType = []) || bool_decide (resourceName = []) then Ok None
                else oe_resource E es instanceID resourceType namespace resourceName);
    match resource with
    | Some x => Ok (Some (resourceSnapshot x))
    | None =>
      if operationDeletesResource (rv_Action v) then
        Ok (Some [($"resourceType", AText resourceType); ($"namespace", AText namespace);
          ($"name", AText resourceName); ($"action", AText (rv_Action v)); ($"exists", ABool false);
          ($"deleted", ABool true)])
      else Ok (rv_After v)
    end.

(** [audit.AfterSnapshotJSON] after the refresh. *)
Definition after_json (audit : MQOperationAudit) (v : ResourceOperationValidationVO)
    (snapshot : result (option params)) : gostring :=
  match snapshot with
  | Ok (Some (_ :: _ as m)) => Marshal (AMap m)
  | _ => match rv_After v with Some (_ :: _ as m) => Marshal (AMap m) | _ => oa_AfterSnapshotJSON audit end
  end.

(** ** Execution *)

(** The checks before the lock: the plan that may be carried out, or the result
    of the same request before. *)
Definition check_operation (instanceID : Z) (r : ResourceOperationRequest) :
    handler mq_world
      (MQInstance * ResourceOperationAdapter * validated * option ResourceOperationResultVO) :=
  ia ← resolveResourceOperationAdapter instanceID;
  let '(i, a) := ia in
  let r := normalizeResourceOperationRequest r in
  _ ← h_guard (negb (bool_decide (ro_Action r = []))) $"操作动作不能为空";
  _ ← h_guard (ro_Confirmed r) $"请确认操作影响后再执行";
  vr ← plan_operation i a r;
  let '(v, r) := vr in
  _ ← h_guard (rv_Supported v) (rv_Message v);
  _ ← h_guard (negb (EqualFold (mi_Environment i) $"prod" && rv_MetadataStale v &&
                     negb (operationBoolParam (ro_Params r) false [$"allowStaleMetadata"])))
        $"生产环境 MQ 元数据已过期，请先同步后再执行资源操作";
  v ← (if IsHighRiskLevel (rv_RiskLevel v) then high_risk_guards i r v else mret v);
  earlier ← idempotentResourceOperationResult i r;
  mret (i, a, (v, r), earlier).

(** The call itself: the adapter prepares it and the broker answers. *)
Definition apply_operation (i : MQInstance) (a : ResourceOperationAdapter) (r : ResourceOperationRequest) :
    handler mq_world ResourceOperationApplyResult :=
  ca ← h_lift (ad_Apply a i r);
  let '(call, res) := ca in
  _ ← attempt (fun es => no_error (oe_call E es (mi_ID i) call)) (MqCall (mi_ID i) call);
  mret res.

(** Once the broker has answered: the audit row, the refresh, the result. *)
Definition settle_operation (i : MQInstance) (v : ResourceOperationValidationVO) (startedAt : Z)
    (audit : option MQOperationAudit) (res : result ResourceOperationApplyResult) :
    handler mq_world ResourceOperationResultVO :=
  finishedAt ← ask (oe_now E);
  match res with
  | Err e =>
    _ ← finishOperationAudit audit AuditStatusFailed e [] startedAt finishedAt;
    h_fail e
  | Ok applied =>
    let resourceType := firstNonEmpty [ap_ResourceType applied; rv_ResourceType v] in
    let namespace := firstNonEmpty [ap_Namespace applied; rv_Namespace v] in
    let resourceName := firstNonEmpty [ap_ResourceName applied; rv_ResourceName v] in
    let message := firstNonEmpty [ap_Message applied; rv_Message v; $"资源操作执行成功"] in
    refreshed ← caught (refreshMetadataAfterResourceOperation i);
    let '(status, refresh_status, refresh_error, result, message) :=
      match refreshed with
      | Err e =>
        (AuditStatusPartial, SyncStatusFailed, e,
         map_set (map_set (ap_Result applied) $"metadataSyncStatus" (AText SyncStatusFailed))
           $"metadataSyncError" (AText e), trimText (message ++ $"；元数据同步失败: " ++ e) 500)
      | Ok _ =>
        (AuditStatusSuccess, SyncStatusSuccess, [],
         map_set (ap_Result applied) $"metadataSyncStatus" (AText SyncStatusSuccess), message)
      end in
    finishedAt ← ask (oe_now E);
    es ← ask (fun es => es);
    let audit := match audit with
      | None => None
      | Some x =>
        Some (set_refresh refresh_status refresh_error
          (after_json x v (afterOperationSnapshot (mi_ID i) v resourceType namespace resourceName es)) x)
      end in
    _ ← finishOperationAudit audit status message (Marshal (AMap result)) startedAt finishedAt;
    mret {| rr_AuditID := match audit with Some x => oa_ID x | None => 0 end; rr_InstanceID := mi_ID i;
            rr_MQType := mi_MQType i; rr_Action := rv_Action v; rr_ActionText := actionText (rv_Action v);
            rr_RiskLevel := rv_RiskLevel v; rr_ResourceType := resourceType; rr_Namespace := namespace;
            rr_ResourceName := resourceName; rr_Status := status; rr_Message := message;
            rr_DurationMs := Z.quot (finishedAt - startedAt) 1000000; rr_Result := AMap result;
            rr_ExecutedAt := oe_time_text E finishedAt |}
  end.

(** What is done under the lock. *)
Definition carry_out (i : MQInstance) (a : ResourceOperationAdapter) (v : ResourceOperationValidationVO)
    (r : ResourceOperationRequest) (o : Operator) : handler mq_world ResourceOperationResultVO :=
  startedAt ← ask (oe_now E);
  audit ← startResourceOperationAudit i v r o;
  res ← caught (apply_operation i a r);
  settle_operation i v startedAt audit res.

Definition run_operation (i : MQInstance) (a : ResourceOperationAdapter) (vr : validated)
    (earlier : option ResourceOperationResultVO) (o : Operator) : handler mq_world ResourceOperationResultVO :=
  let '(v, r) := vr in
  match earlier with
  | Some result => mret result
  | None => with_lock (rv_LockKey v) (carry_out i a v r o)
  end.

Definition ExecuteResourceOperation (instanceID : Z) (r : ResourceOperationRequest) (o : Operator) :
    handler mq_world ResourceOperationResultVO :=
  c ← check_operation instanceID r;
  let '(i, a, vr, earlier) := c in
  run_operation i a vr earlier o.

(** ** The handlers, [service/messagequeue/http.go] *)

(** The user of the session, the checker of menu codes and the repository of
    permissions; both may be absent. *)
Record PermissionRepo := {
  pr_HasAnyRules : result bool;
  pr_IsAdmin : Z -> result bool;
  pr_GetUserInstancePermissions : Z -> Z -> result Z;
  pr_GetUserAccessibleInstanceIDs : Z -> Z -> result (list Z) }.
Record mq_session := {
  ss_userID : Z; ss_menu : option (Z -> gostring -> result bool); ss_repo : option PermissionRepo }.

Definition permMQHighRisk := $"messagequeue:operation:high-risk".
Definition failed_check : gostring := $"MQ实例权限检查失败".
Definition checked {A} (r : result A) : result A := match r with Ok a => Ok a | Err _ => Err failed_check end.

(** [ensureInstancePermission] with [permissionScope], whose list of instances
    it does not use. *)
Definition ensureInstancePermission (s : mq_session) (instanceID required : Z) : result unit :=
  if instanceID =? 0 then Err $"无效的实例ID"
  else
    match ss_repo s with
    | None => Ok tt
    | Some repo =>
      if ss_userID s =? 0 then Err $"未登录"
      else
        hasRules ← checked (pr_HasAnyRules repo);
        if negb hasRules then Ok tt
        else
          admin ← checked (pr_IsAdmin repo (ss_userID s));
          if admin : bool then Ok tt
          else
            _ ← checked (pr_GetUserAccessibleInstanceIDs repo (ss_userID s) required);
            permissions ← checked (pr_GetUserInstancePermissions repo (ss_userID s) instanceID);
            if Z.land permissions required =? 0 then Err $"权限不足：无权操作该MQ实例" else Ok tt
    end.

Definition denied_high_risk : gostring := $"权限不足：无权对该MQ实例执行高危操作".
Definition ensureHighRiskPermission (s : mq_session) (instanceID : Z) : result unit :=
  if ss_userID s =? 0 then Err $"未登录"
  else
    match ss_menu s with
    | None => Err $"权限检查未初始化"
    | Some menu =>
      match menu (ss_userID s) permMQHighRisk with
      | Err _ => Err $"MQ高危菜单权限检查失败"
      | Ok false => Err $"权限不足：缺少MQ高危操作菜单权限"
      | Ok true =>
        match ss_repo s with
        | None => Ok tt
        | Some repo =>
          hasRules ← checked (pr_HasAnyRules repo);
          if negb hasRules then
            (admin ← checked (pr_IsAdmin repo (ss_userID s));
             if admin : bool then Ok tt else Err denied_high_risk)
          else
            permissions ← checked (pr_GetUserInstancePermissions repo (ss_userID s) instanceID);
            if Z.land permissions PermissionHighRisk =? 0 then Err denied_high_risk else Ok tt
        end
      end
    end.

(** [writeError(c, prefix, err)]. *)
Definition prefixed {A} (prefix : gostring) (m : handler mq_world A) : handler mq_world A :=
  h_map_err (fun e => prefix ++ e) m.

Definition http_ValidateResourceOperation (s : mq_session) (id : Z) (r : ResourceOperationRequest) :
    handler mq_world ResourceOperationValidationVO :=
  _ ← h_lift (ensureInstancePermission s id PermissionResourceManage);
  vr ← prefixed $"校验失败: " (ValidateResourceOperation id r);
  let '(v, _) := vr in
  _ ← h_lift (if rv_Supported v && IsHighRiskLevel (rv_RiskLevel v) then ensureHighRiskPermission s id else Ok tt);
  mret v.

(** The request that is executed is the one the validation has rewritten. *)
Definition http_ExecuteResourceOperation (s : mq_session) (id : Z) (r : ResourceOperationRequest)
    (o : Operator) : handler mq_world ResourceOperationResultVO :=
  _ ← h_lift (ensureInstancePermission s id PermissionResourceManage);
  vr ← prefixed $"校验失败: " (ValidateResourceOperation id r);
  let '(v, r) := vr in
  _ ← h_lift (if rv_Supported v && IsHighRiskLevel (rv_RiskLevel v) then ensureHighRiskPermission s id else Ok tt);
  prefixed $"执行失败: " (ExecuteResourceOperation id r o).
End operation.
