(* ===== verification/MqOperationFacts.v ===== *)
(** * What a governed operation on a message queue guarantees

    The guards that every call to a broker has passed, the permission for what
    is dangerous, the lock, the idempotency key, and the audit trail. *)

From Stdlib Require Import ZArith Lia.
From stdpp Require Import base tactics option list numbers sets.
From S2P Require Import Prelude GoStrings GoNumbers GoJson MqAudit MqAuditFacts MqModel MqAdapters MqAdapterFacts MqOperation.

Open Scope Z_scope.

Section facts.
Context `{JR : !JsonReader, UT : UnicodeTables} (E : mq_env).

(** ** Handlers that only read *)
Definition reads_only {A} (m : handler mq_world A) : Prop := forall w, (m w).2 = w.

Lemma reads_ret {A} (a : A) : reads_only (mret a).
Proof. by intros w. Qed.
Lemma reads_lift {A} (r : result A) : reads_only (h_lift r).
Proof. by intros w. Qed.
Lemma reads_guard b e : reads_only (h_guard b e).
Proof. intros w. by destruct b. Qed.
Lemma reads_fail {A} e : reads_only (h_fail (A:=A) e).
Proof. by intros w. Qed.
Lemma reads_ask {A} (f : list mq_event -> A) : reads_only (ask f).
Proof. by intros w. Qed.
Lemma reads_try {A} (f : list mq_event -> result A) : reads_only (try_ f).
Proof. by intros w. Qed.
Lemma reads_map_err {A} g (m : handler mq_world A) : reads_only m -> reads_only (h_map_err g m).
Proof. intros Hm w. specialize (Hm w). unfold h_map_err. by destruct (m w) as [[?|?] ?]. Qed.
Lemma reads_bind {A B} (m : handler mq_world A) (f : A -> handler mq_world B) :
  reads_only m -> (forall a, reads_only (f a)) -> reads_only (m ≫= f).
Proof.
  intros Hm Hf w. specialize (Hm w). unfold mbind, handler_bind.
  destruct (m w) as [[a|e] w']; simpl in *; subst; [apply Hf | done].
Qed.
Lemma reads_eq {A} (m : handler mq_world A) w res w' : reads_only m -> m w = (res, w') -> w' = w.
Proof. intros Hm H. specialize (Hm w). by rewrite H in Hm. Qed.

Create HintDb mq_reads.
Hint Resolve reads_ret reads_lift reads_guard reads_fail reads_ask reads_try reads_map_err : mq_reads.
Ltac reads :=
  repeat first
    [ solve [auto with mq_reads] | apply reads_bind; [|intros ?] | apply reads_map_err | case_match ].

Lemma resolve_reads id : reads_only (resolveResourceOperationAdapter E id).
Proof. unfold resolveResourceOperationAdapter. reads. Qed.
Lemma config_reads : reads_only (resolveHighRiskOperationConfig E).
Proof. unfold resolveHighRiskOperationConfig. reads. Qed.
Hint Resolve resolve_reads config_reads : mq_reads.
Lemma enrich_reads i r v : reads_only (enrichResourceOperationPlan E i r v).
Proof.
  unfold enrichResourceOperationPlan, lookupOperationResource, lookupOperationConsumerGroup. reads.
Qed.
Hint Resolve enrich_reads : mq_reads.
Lemma plan_reads i a r : reads_only (plan_operation E i a r).
Proof. unfold plan_operation. reads. Qed.
Hint Resolve plan_reads : mq_reads.
Lemma validate_reads id r : reads_only (ValidateResourceOperation E id r).
Proof. unfold ValidateResourceOperation. reads. Qed.
Lemma high_risk_reads i r v : reads_only (high_risk_guards E i r v).
Proof. unfold high_risk_guards. reads. Qed.
Hint Resolve high_risk_reads : mq_reads.
Lemma idempotent_reads i r : reads_only (idempotentResourceOperationResult E i r).
Proof. intros w. unfold idempotentResourceOperationResult. by repeat case_match. Qed.
Hint Resolve idempotent_reads : mq_reads.
Lemma check_reads id r : reads_only (check_operation E id r).
Proof. unfold check_operation. reads. Qed.

(** ** Calls *)
Definition is_call (e : mq_event) : bool := match e with MqCall _ _ _ => true | _ => false end.
Definition calls (w : mq_world) : list mq_event := List.filter is_call (mw_events w).

Definition no_calls {A} (m : handler mq_world A) : Prop := forall w, calls (m w).2 = calls w.
Lemma calls_snoc w e audits locks : is_call e = false ->
  calls {| mw_events := mw_events w ++ [e]; mw_audits := audits; mw_locks := locks |} = calls w.
Proof. intros He. unfold calls. cbn. rewrite List.filter_app. cbn. by rewrite He, app_nil_r. Qed.
Lemma no_calls_reads {A} (m : handler mq_world A) : reads_only m -> no_calls m.
Proof. intros Hm w. by rewrite (Hm w). Qed.
Lemma no_calls_bind {A B} (m : handler mq_world A) (f : A -> handler mq_world B) :
  no_calls m -> (forall a, no_calls (f a)) -> no_calls (m ≫= f).
Proof.
  intros Hm Hf w. specialize (Hm w). unfold mbind, handler_bind.
  destruct (m w) as [[a|e] w']; simpl in *; [by rewrite Hf | done].
Qed.
Lemma no_calls_attempt {A} (f : list mq_event -> result A) e :
  (forall b, is_call (e b) = false) -> no_calls (attempt f e).
Proof. intros He w. by apply calls_snoc. Qed.
Lemma no_calls_caught {A} (m : handler mq_world A) : no_calls m -> no_calls (caught m).
Proof. intros Hm w. specialize (Hm w). unfold caught. by destruct (m w). Qed.

Lemma start_no_calls i v r o : no_calls (startResourceOperationAudit E i v r o).
Proof. intros w. unfold startResourceOperationAudit. case_match. by apply calls_snoc. Qed.
Lemma finish_no_calls a s m j t t' : no_calls (finishOperationAudit E a s m j t t').
Proof.
  intros w. unfold finishOperationAudit. destruct a as [a|]; [|done].
  case_match. by apply calls_snoc.
Qed.
Lemma refresh_no_calls i : no_calls (refreshMetadataAfterResourceOperation E i).
Proof.
  unfold refreshMetadataAfterResourceOperation. apply no_calls_bind; [by apply no_calls_attempt|].
  intros [s|]; [|by apply no_calls_reads, reads_ret].
  apply no_calls_bind; [by apply no_calls_reads, reads_ask|]. intros now.
  apply no_calls_bind; [by apply no_calls_attempt|]. intros _. by apply no_calls_attempt.
Qed.

(** The call of an operation, and its outcome. *)
Lemma apply_calls i a r w :
  calls (apply_operation E i a r w).2 = calls w \/
  exists call ap ok, ad_Apply a i r = Ok (call, ap) /\
    calls (apply_operation E i a r w).2 = calls w ++ [MqCall (mi_ID i) call ok].
Proof.
  unfold apply_operation. rewrite h_lift_bind. destruct (ad_Apply a i r) as [[call ap]|e]; [right | by left].
  unfold mbind, handler_bind, attempt, no_error.
  destruct (oe_call E (mw_events w) (mi_ID i) call) as [e|]; [exists call, ap, false | exists call, ap, true];
    (split; [done|]); unfold calls; cbn; rewrite List.filter_app; done.
Qed.

Lemma settle_no_calls i v t audit res : no_calls (settle_operation E i v t audit res).
Proof.
  apply no_calls_bind; [by apply no_calls_reads, reads_ask|]. intros finishedAt.
  destruct res as [ap|e].
  - apply no_calls_bind; [by apply no_calls_caught, refresh_no_calls|]. intros refreshed.
    repeat case_match; (apply no_calls_bind; [by apply no_calls_reads, reads_ask|]); intros finished';
      (apply no_calls_bind; [by apply no_calls_reads, reads_ask|]); intros es;
      (apply no_calls_bind; [by apply finish_no_calls|]); intros _; by apply no_calls_reads, reads_ret.
  - apply no_calls_bind; [by apply finish_no_calls|]. intros _. by apply no_calls_reads, reads_fail.
Qed.

(** The steps of [carry_out]. *)
Lemma carry_out_steps i a v r o w : exists audit w1 res w2,
  startResourceOperationAudit E i v r o w = (Ok audit, w1) /\ apply_operation E i a r w1 = (res, w2) /\
  carry_out E i a v r o w = settle_operation E i v (oe_now E (mw_events w)) audit res w2.
Proof.
  assert (exists audit w1, startResourceOperationAudit E i v r o w = (Ok audit, w1)) as (audit & w1 & Hs).
  { unfold startResourceOperationAudit. case_match. eauto. }
  destruct (apply_operation E i a r w1) as [res w2] eqn:Ha.
  exists audit, w1, res, w2. split; [done|]. split; [done|].
  unfold carry_out, mbind, handler_bind. cbn [ask]. rewrite Hs. unfold caught. by rewrite Ha.
Qed.

Lemma carry_out_calls i a v r o w :
  calls (carry_out E i a v r o w).2 = calls w \/
  exists call ap ok, ad_Apply a i r = Ok (call, ap) /\
    calls (carry_out E i a v r o w).2 = calls w ++ [MqCall (mi_ID i) call ok].
Proof.
  destruct (carry_out_steps i a v r o w) as (audit & w1 & res & w2 & Hs & Ha & ->).
  pose proof (settle_no_calls i v (oe_now E (mw_events w)) audit res w2) as H0. rewrite H0.
  pose proof (start_no_calls i v r o w) as H1. rewrite Hs in H1.
  pose proof (apply_calls i a r w1) as H2. rewrite Ha in H2. cbn [snd] in H1, H2. by rewrite <- H1.
Qed.

Lemma release_calls key w : calls (releaseResourceOperationLock key w) = calls w.
Proof. unfold releaseResourceOperationLock. case_bool_decide; [done|]. by apply calls_snoc. Qed.

(** What is done under a lock is done when the lock is free, or not at all. *)
Lemma with_lock_cases {A} key (m : handler mq_world A) w : TrimSpace key <> [] ->
  (with_lock key m w).2 = w \/
  (TrimSpace key ∉ mw_locks w) /\ exists w1, calls w1 = calls w /\ mw_audits w1 = mw_audits w /\
    mw_events w1 = mw_events w ++ [MqLocked (TrimSpace key)] /\
    calls (with_lock key m w).2 = calls (m w1).2 /\ mw_audits (with_lock key m w).2 = mw_audits (m w1).2.
Proof.
  intros Hk. unfold with_lock. case_bool_decide as Hne; [by rewrite Hne in Hk|].
  unfold mbind, handler_bind, acquireResourceOperationLock. cbv zeta.
  rewrite bool_decide_false by done. case_bool_decide as Hin; [by left | right]. split; [done|].
  unfold finally. match goal with |- context [m ?w0] => exists w0; destruct (m w0) as [res w2] end.
  cbn [snd]. split; [by apply calls_snoc|]. do 2 (split; [done|]). split; [apply release_calls|].
  unfold releaseResourceOperationLock. by case_bool_decide.
Qed.

Lemma lock_key_not_blank i v : TrimSpace (buildResourceOperationLockKey i v) <> [].
Proof.
  unfold buildResourceOperationLockKey. rewrite TrimSpace_nil. intros H.
  rewrite Forall_app in H. destruct H as [_ H]. apply Forall_app in H as [H _].
  apply Forall_cons in H as [H _]. done.
Qed.

(** ** What a plan keeps of the validation it completes *)
Definition guarded_action (a : gostring) : bool :=
  one_of a [OperationActionRabbitMQQueueUpsert; OperationActionRabbitMQExchangeUpsert;
    OperationActionRabbitMQExchangeDelete].
Record grows (v v' : ResourceOperationValidationVO) : Prop := {
  grows_action : rv_Action v' = rv_Action v;
  grows_name : rv_ResourceName v' = rv_ResourceName v;
  grows_type : rv_ResourceType v' = rv_ResourceType v;
  grows_lock : rv_LockKey v' = rv_LockKey v;
  grows_supported : rv_Supported v' = true -> rv_Supported v = true;
  grows_open : guarded_action (rv_Action v) = false -> rv_Supported v = true -> rv_Supported v' = true;
  grows_risk : IsHighRiskLevel (rv_RiskLevel v) = true -> IsHighRiskLevel (rv_RiskLevel v') = true;
  grows_stale : rv_MetadataStale v = true -> rv_MetadataStale v' = true }.
#[local] Instance grows_preorder : PreOrder grows.
Proof.
  split; [by split|]. intros x y z [] []. split; try congruence; auto.
  intros Ha Hs. apply grows_open1; [congruence | auto].
Qed.
Lemma grows_add_warning text v : grows v (add_warning text v).
Proof. by split. Qed.
Lemma grows_add_impact text v : grows v (add_impact text v).
Proof. by split. Qed.
Lemma grows_set_before b v : grows v (set_before b v).
Proof. by split. Qed.
Lemma grows_set_plan a d v : grows v (set_plan a d v).
Proof. by split. Qed.
Lemma grows_metadata_stale reason v : grows v (set_metadata_stale reason v).
Proof. by split. Qed.
Lemma grows_metric_stale reason v : grows v (set_metric_stale reason v).
Proof. by split. Qed.
Lemma grows_elevate text v : grows v (elevateOperationRisk text v).
Proof. by split. Qed.
Lemma grows_unsupported text v : guarded_action (rv_Action v) = true -> grows v (markOperationUnsupported text v).
Proof. intros Ha. split; try done. by rewrite Ha. Qed.
Create HintDb mq_grows.
Hint Resolve grows_add_warning grows_add_impact grows_set_before grows_set_plan grows_metadata_stale
  grows_metric_stale grows_elevate grows_unsupported : mq_grows.
Ltac grow :=
  repeat match goal with
    | |- grows ?v ?v => reflexivity
    | |- grows _ (if ?b then _ else _) => destruct b
    | |- grows _ (match ?x with _ => _ end) => destruct x
    | |- grows _ (_ _ ?x) => transitivity x; [|solve [auto with mq_grows]]
    | |- grows _ (_ _ _ ?x) => transitivity x; [|solve [auto with mq_grows]]
    end.

Lemma grows_freshness i c now v : grows v (applyOperationFreshnessWarning i c now v).
Proof.
  unfold applyOperationFreshnessWarning. cbv zeta.
  grow.
Qed.
Lemma grows_destructive v : grows v (applyDestructiveConfigRisk v).
Proof.
  unfold applyDestructiveConfigRisk. case_bool_decide; [done|]. cbv zeta.
  generalize (snapshot_config (rv_After v)). intros l.
  match goal with |- grows v (foldl ?f v l) => set (step := f) end.
  assert (forall e v, grows v (step v e)) as Hstep by (intros e u; unfold step; cbv zeta; grow).
  clearbody step. generalize v. induction l as [|e l IH]; intros u; cbn [foldl]; [done|].
  etransitivity; [apply Hstep | apply IH].
Qed.
Lemma grows_immutable v : grows v (applyRabbitMQImmutableGuards v).
Proof.
  unfold applyRabbitMQImmutableGuards. cbv zeta. case_bool_decide; [done|].
  destruct (bool_decide_reflect (rv_Action v = OperationActionRabbitMQQueueUpsert)) as [Ha|_];
    [|destruct (bool_decide_reflect (rv_Action v = OperationActionRabbitMQExchangeUpsert)) as [Ha|_]; [|done]].
  all: assert (guarded_action (rv_Action v) = true) by (rewrite Ha; reflexivity); grow.
Qed.
Lemma grows_high_risk i r es v : grows v (applyHighRiskOperationGuards E i r es v).
Proof.
  unfold applyHighRiskOperationGuards. cbv zeta.
  destruct (bool_decide_reflect (rv_Action v = OperationActionRabbitMQExchangeDelete)) as [Ha|_]; [|grow].
  assert (guarded_action (rv_Action v) = true) by (rewrite Ha; reflexivity). grow.
Qed.

(** A plan is the validation with the lock key, the freshness of the metadata
    and what the stored resource adds. *)
Lemma ret_inv {A} (a b : A) (w w' : mq_world) :
  (mret a : handler mq_world A) w = (Ok b, w') -> b = a /\ w' = w.
Proof. by intros [= -> ->]. Qed.
Lemma enrich_grows i r v w v' w' : enrichResourceOperationPlan E i r v w = (Ok v', w') ->
  exists c, resolveHighRiskOperationConfig E w = (Ok c, w) /\
  grows (applyOperationFreshnessWarning i c (oe_now E (mw_events w))
           (set_lock_key (buildResourceOperationLockKey (mi_ID i) v) v)) v'.
Proof.
  unfold enrichResourceOperationPlan. cbv zeta. intros H.
  apply h_bind_Ok in H as (c & w1 & Hc & H). pose proof (reads_eq _ _ _ _ config_reads Hc) as ->.
  exists c. split; [done|].
  apply h_bind_Ok in H as (now & w1 & [= <- <-] & H).
  set (v0 := applyOperationFreshnessWarning _ _ _ _) in *. clearbody v0.
  apply h_bind_Ok in H as (res & w1 & _ & H).
  set (v1 := match res with Some x => set_before (resourceSnapshot E x) v0 | None => v0 end) in *.
  assert (grows v0 v1) as H1 by (unfold v1; grow). clearbody v1.
  apply h_bind_Ok in H as (v2 & w2 & Hv2 & H).
  assert (grows v1 v2) as H2.
  { case_bool_decide; [|by apply ret_inv in Hv2 as [-> _]].
    apply h_bind_Ok in Hv2 as (g & w4 & _ & Hv2). apply ret_inv in Hv2 as [-> _]. grow. }
  apply h_bind_Ok in H as (es & w3 & _ & H). apply ret_inv in H as [-> _].
  rewrite H1, H2, <- grows_high_risk, <- grows_destructive, <- grows_immutable. apply grows_set_plan.
Qed.

(** ** What has been checked when a call is made *)
Definition metadata_age (c : HighRiskOperationConfig) : Z :=
  if 0 <? hc_OperationMaxMetadataAge c then hc_OperationMaxMetadataAge c else 30 * minute.
Definition metric_age (c : HighRiskOperationConfig) : Z :=
  if 0 <? hc_OperationMaxMetricAge c then hc_OperationMaxMetricAge c else 10 * minute.
(** A time no older than the age allowed. *)
Definition recent (now age : Z) (t : option Z) : Prop := exists t', t = Some t' /\ now - t' <= age.

Lemma freshness_metadata i c now v : rv_MetadataStale (applyOperationFreshnessWarning i c now v) = false ->
  recent now (metadata_age c) (mi_LastSyncAt i).
Proof.
  unfold applyOperationFreshnessWarning, recent. cbv zeta. fold (metadata_age c).
  destruct (mi_LastSyncAt i) as [t|]; [destruct (metadata_age c <? now - t) eqn:Ht|].
  - by repeat case_match.
  - intros _. exists t. apply Z.ltb_ge in Ht. by split.
  - by repeat case_match.
Qed.
Lemma freshness_metric i c now v : rv_MetricStale (applyOperationFreshnessWarning i c now v) = false ->
  recent now (metric_age c) (mi_LastMetricAt i).
Proof.
  unfold applyOperationFreshnessWarning, recent. cbv zeta. fold (metric_age c).
  destruct (mi_LastMetricAt i) as [t|]; [destruct (metric_age c <? now - t) eqn:Ht|].
  - by repeat case_match.
  - intros _. exists t. apply Z.ltb_ge in Ht. by split.
  - by repeat case_match.
Qed.

Definition metadata_fresh (i : MQInstance) (w : mq_world) : Prop := exists c,
  resolveHighRiskOperationConfig E w = (Ok c, w) /\
  recent (oe_now E (mw_events w)) (metadata_age c) (mi_LastSyncAt i).
(** The configuration allows high-risk operations and the request meets it. *)
Definition high_risk_allowed (i : MQInstance) (r : ResourceOperationRequest)
    (v : ResourceOperationValidationVO) (w : mq_world) : Prop := exists c,
  resolveHighRiskOperationConfig E w = (Ok c, w) /\ hc_Enabled c = true /\
  recent (oe_now E (mw_events w)) (metadata_age c) (mi_LastSyncAt i) /\
  (hc_RequireFreshMetricHighRisk c = true ->
   recent (oe_now E (mw_events w)) (metric_age c) (mi_LastMetricAt i)) /\
  (hc_ReasonRequired c = true -> TrimSpace (ro_Reason r) <> []) /\
  TrimSpace (ro_ConfirmText r) = TrimSpace (rv_ResourceName v).

(** A request that may be carried out: [v] is the plan, [q] the request as the
    adapter has rewritten it. *)
Record cleared (id : Z) (r : ResourceOperationRequest) (w : mq_world) (i : MQInstance)
    (a : ResourceOperationAdapter) (v : ResourceOperationValidationVO) (q : ResourceOperationRequest) : Prop := {
  cleared_instance : oe_instance E (mw_events w) id = Ok i;
  cleared_enabled : TrimSpace (mi_Status i) = InstanceStatusEnabled;
  cleared_adapter : get_adapter (mi_MQType i) = Some (Some a);
  cleared_confirmed : ro_Confirmed r = true;
  cleared_plan : plan_operation E i a (normalizeResourceOperationRequest r) w = (Ok (v, q), w);
  cleared_supported : rv_Supported v = true;
  cleared_production : EqualFold (mi_Environment i) $"prod" = true -> metadata_fresh i w;
  cleared_high_risk : IsHighRiskLevel (rv_RiskLevel v) = true -> high_risk_allowed i q v w;
  cleared_first : TrimSpace (ro_IdempotencyKey r) <> [] ->
    GetByIdempotencyKey (mi_ID i) (ro_IdempotencyKey r) (mw_audits w) = None }.

(** A plan of a registered adapter. *)
Lemma plan_inv i a r w v q w' : plan_operation E i a r w = (Ok (v, q), w') ->
  w' = w /\ exists v0, ad_Validate a i r = Ok (v0, q) /\
    rv_LockKey v = buildResourceOperationLockKey (mi_ID i) (fillOperationValidationDefaults i q v0) /\
    rv_ResourceName v = or_text (or_text (rv_ResourceName v0) (ro_ResourceName q)) (ro_ResourceName q) /\
    rv_Action v = or_text (or_text (rv_Action v0) (ro_Action q)) (ro_Action q) /\
    (rv_Supported v = true -> rv_Supported v0 = true) /\
    (IsHighRiskLevel (rv_RiskLevel v0) = true -> IsHighRiskLevel (rv_RiskLevel v) = true) /\
    (rv_MetadataStale v = false -> metadata_fresh i w) /\
    (guarded_action (or_text (rv_Action v0) (ro_Action q)) = false -> rv_Supported v0 = true ->
     rv_Supported v = true).
Proof.
  intros H. pose proof (reads_eq _ _ _ _ (plan_reads i a r) H) as ->. split; [done|].
  unfold plan_operation in H. rewrite h_lift_bind in H.
  destruct (ad_Validate a i r) as [[v0 q0]|]; [|done].
  apply h_bind_Ok in H as (v1 & w1 & Hv1 & H). apply ret_inv in H as [[= -> ->] _]. exists v0.
  apply enrich_grows in Hv1 as (c & Hc & Hg).
  set (d := set_lock_key _ _) in Hg. pose proof (grows_freshness i c (oe_now E (mw_events w)) d) as Hf.
  pose proof (freshness_metadata i c (oe_now E (mw_events w)) d) as Hm.
  destruct Hf as [Hfa Hfn _ Hfl Hfs Hfo Hfr _]. destruct Hg as [Ha Hn _ Hl Hs Ho Hr Hst].
  split; [done|]. split; [cbn; by rewrite Hl, Hfl|]. split; [cbn [rv_ResourceName fillOperationValidationDefaults]; by rewrite Hn, Hfn|].
  split; [cbn [rv_Action fillOperationValidationDefaults]; by rewrite Ha, Hfa|].
  split; [exact (fun H => Hfs (Hs H))|]. split; [|split].
  - intros H. assert (IsHighRiskLevel (rv_RiskLevel d) = true) as Hd.
    { cbn [rv_RiskLevel fillOperationValidationDefaults set_lock_key d]. unfold or_text.
      case_bool_decide as E0; [by rewrite E0 in H | done]. }
    apply Hfr, Hr in Hd. cbn [rv_RiskLevel fillOperationValidationDefaults]. unfold or_text.
    case_bool_decide as E0; [by rewrite E0 in Hd | done].
  - intros H. exists c. split; [done|]. apply Hm.
    destruct (rv_MetadataStale (applyOperationFreshnessWarning _ _ _ d)); [|done].
    change (rv_MetadataStale v1 = false) in H. by rewrite Hst in H.
  - intros H Hs0. apply Ho; [by rewrite Hfa | by apply Hfo].
Qed.

Lemma resolve_inv id w i a w' : resolveResourceOperationAdapter E id w = (Ok (i, a), w') ->
  w' = w /\ oe_instance E (mw_events w) id = Ok i /\ TrimSpace (mi_Status i) = InstanceStatusEnabled /\
  get_adapter (mi_MQType i) = Some (Some a).
Proof.
  intros H. pose proof (reads_eq _ _ _ _ (resolve_reads id) H) as ->. split; [done|].
  unfold resolveResourceOperationAdapter in H.
  apply h_bind_Ok in H as (i0 & w1 & Hi & H). unfold h_map_err, try_ in Hi.
  destruct (oe_instance E (mw_events w) id) as [i1|] eqn:Ei; [|done]. injection Hi as <- <-.
  rewrite h_guard_bind in H. case_bool_decide as Hst; [|done].
  rewrite h_lift_bind in H. destruct (resolveAdapterAndCredential E i1) as [[a0|]|] eqn:Ha; [|done|done].
  apply ret_inv in H as [[= -> ->] _]. split; [done|]. split; [done|].
  unfold resolveAdapterAndCredential in Ha. destruct (get_adapter (mi_MQType i1)) as [a1|]; [|done].
  f_equal. case_match; [|by injection Ha]. case_match; [|done]. case_match; [by injection Ha | done].
Qed.

Lemma guard_inv {B} b e (k : unit -> handler mq_world B) w x w' :
  (h_guard b e ≫= k) w = (Ok x, w') -> b = true /\ k tt w = (Ok x, w').
Proof. rewrite h_guard_bind. by destruct b. Qed.
Lemma lift_inv {A B} (r : result A) (k : A -> handler mq_world B) w x w' :
  (h_lift r ≫= k) w = (Ok x, w') -> exists a, r = Ok a /\ k a w = (Ok x, w').
Proof. rewrite h_lift_bind. destruct r; [eauto | done]. Qed.
Lemma ask_inv {A B} (f : list mq_event -> A) (k : A -> handler mq_world B) w x w' :
  (ask f ≫= k) w = (Ok x, w') -> k (f (mw_events w)) w = (Ok x, w').
Proof. done. Qed.
Lemma config_inv {B} (k : HighRiskOperationConfig -> handler mq_world B) w x w' :
  (resolveHighRiskOperationConfig E ≫= k) w = (Ok x, w') -> exists c,
    resolveHighRiskOperationConfig E w = (Ok c, w) /\ k c w = (Ok x, w').
Proof. intros (c & w1 & Hc & H)%h_bind_Ok. pose proof (reads_eq _ _ _ _ config_reads Hc) as ->. eauto. Qed.

Lemma confirm_inv r v : validateHighRiskConfirmText r v = Ok tt -> TrimSpace (rv_ResourceName v) <> [] ->
  TrimSpace (ro_ConfirmText r) = TrimSpace (rv_ResourceName v).
Proof.
  unfold validateHighRiskConfirmText. cbv zeta. intros H Hne. rewrite bool_decide_false in H by done.
  case_bool_decide; [done|]. by case_bool_decide.
Qed.
Lemma high_risk_inv i r v w v' w' : high_risk_guards E i r v w = (Ok v', w') -> TrimSpace (rv_ResourceName v) <> [] ->
  high_risk_allowed i r v w /\ grows v v'.
Proof.
  unfold high_risk_guards. intros H Hne. apply config_inv in H as (c & Hc & H). apply ask_inv in H.
  pose proof (freshness_metadata i c (oe_now E (mw_events w)) v) as Hm.
  pose proof (freshness_metric i c (oe_now E (mw_events w)) v) as Hk.
  pose proof (grows_freshness i c (oe_now E (mw_events w)) v) as Hg. cbv zeta in H.
  generalize dependent (applyOperationFreshnessWarning i c (oe_now E (mw_events w)) v). intros u H Hm Hk Hg.
  apply guard_inv in H as [Hen H]. apply guard_inv in H as [Hst H]. apply guard_inv in H as [Hmet H].
  apply guard_inv in H as [Hre H]. apply lift_inv in H as ([] & Hct & H). apply ret_inv in H as [-> _].
  apply negb_true_iff in Hst, Hmet, Hre.
  split; [|done]. exists c. split; [done|]. split; [done|]. split; [by apply Hm|]. split; [|split].
  - intros Hq. rewrite Hq in Hmet. by apply Hk.
  - intros Hq. rewrite Hq in Hre. by apply bool_decide_eq_false in Hre.
  - rewrite <- (grows_name _ _ Hg). apply confirm_inv; [done|]. by rewrite (grows_name _ _ Hg).
Qed.

Lemma idempotent_inv i r w w' : idempotentResourceOperationResult E i r w = (Ok None, w') ->
  TrimSpace (ro_IdempotencyKey r) <> [] -> GetByIdempotencyKey (mi_ID i) (ro_IdempotencyKey r) (mw_audits w) = None.
Proof.
  unfold idempotentResourceOperationResult. intros H Hne. rewrite bool_decide_false in H by done.
  case_match; [done|]. case_match; [|done]. by repeat case_match.
Qed.
Lemma GetByIdempotencyKey_trim id key t : GetByIdempotencyKey id (TrimSpace key) t = GetByIdempotencyKey id key t.
Proof. unfold GetByIdempotencyKey. by rewrite TrimSpace_idem. Qed.

Lemma or_text_name x y name : name = or_text (or_text x y) y -> TrimSpace x <> [] -> name = x /\ x <> [].
Proof.
  intros -> Hx. assert (x <> []) as Hne by (by intros ->). unfold or_text.
  by rewrite !bool_decide_false; [|done|rewrite bool_decide_false].
Qed.
(** The checks before the lock let only a cleared request pass. *)
Lemma check_inv id r w i a v' q w' : check_operation E id r w = (Ok (i, a, (v', q), None), w') ->
  w' = w /\ exists v, cleared id r w i a v q /\ grows v v' /\ TrimSpace (rv_LockKey v) <> [].
Proof.
  intros H. pose proof (reads_eq _ _ _ _ (check_reads id r) H) as ->. split; [done|].
  unfold check_operation in H. apply h_bind_Ok in H as ([i0 a0] & w1 & Hi & H).
  apply resolve_inv in Hi as (-> & Hi & Hen & Hreg). cbv zeta in H.
  apply guard_inv in H as [_ H]. apply guard_inv in H as [Hcf H].
  apply h_bind_Ok in H as ([v q0] & w1 & Hp & H).
  pose proof (plan_inv _ _ _ _ _ _ _ Hp) as (-> & v0 & Hv0 & Hlock & Hname & _ & Hs0 & _ & Hstale & _).
  apply guard_inv in H as [Hs H].
  pose proof (registered_concluded _ _ _ _ _ Hreg Hv0) as Hcon.
  pose proof (concluded_supported _ _ _ _ Hcon (Hs0 Hs)) as (Hallow & Hq & Hne).
  pose proof (concluded_keeps _ _ _ _ Hcon) as (_ & _ & _ & _ & Hkey & _).
  apply guard_inv in H as [Hprod H]. rewrite Hallow, andb_true_r in Hprod. apply negb_true_iff in Hprod.
  apply h_bind_Ok in H as (u & w1 & Hu & H). apply h_bind_Ok in H as (earlier & w2 & Hidem & H).
  apply ret_inv in H as [[= -> -> -> -> <-] _].
  apply or_text_name in Hname as [Hname _]; [|done].
  assert (w1 = w /\ grows v u /\ (IsHighRiskLevel (rv_RiskLevel v) = true -> high_risk_allowed i0 q0 v w)) as (-> & Hg & Hhigh).
  { destruct (IsHighRiskLevel (rv_RiskLevel v)).
    - pose proof (reads_eq _ _ _ _ (high_risk_reads i0 q0 v) Hu) as ->. split; [done|].
      apply high_risk_inv in Hu as [? ?]; [|by rewrite Hname]. by split.
    - apply ret_inv in Hu as [-> ->]. by split. }
  exists v. split; [|split; [done|]].
  - split; try done.
    + intros He. apply Hstale. by rewrite He in Hprod.
    + pose proof (normalize_normal r) as Hnn. unfold normal in Hnn. rewrite Hnn in Hkey.
      intros Hk. rewrite <- (GetByIdempotencyKey_trim _ (ro_IdempotencyKey r)).
      assert (ro_IdempotencyKey q0 = TrimSpace (ro_IdempotencyKey r)) as Hk0 by exact Hkey.
      rewrite <- Hk0. eapply idempotent_inv; [exact Hidem|]. by rewrite Hk0, TrimSpace_idem.
  - rewrite Hlock. apply lock_key_not_blank.
Qed.

(** A call of an execution, with what was checked before it. *)
Lemma execution_steps id r o w :
  let w' := (ExecuteResourceOperation E id r o w).2 in
  calls w' = calls w \/
  exists i a v v' q call ap ok w1, cleared id r w i a v q /\ (TrimSpace (rv_LockKey v) ∉ mw_locks w) /\
    ad_Apply a i q = Ok (call, ap) /\ calls w' = calls w ++ [MqCall (mi_ID i) call ok] /\
    mw_audits w1 = mw_audits w /\ mw_events w1 = mw_events w ++ [MqLocked (TrimSpace (rv_LockKey v))] /\
    mw_audits w' = mw_audits (carry_out E i a v' q o w1).2.
Proof.
  cbv zeta. unfold ExecuteResourceOperation, mbind, handler_bind.
  pose proof (check_reads id r w) as Hread.
  destruct (check_operation E id r w) as [[[[[i a] [v' q]] [earlier|]]|e] w1] eqn:Hc;
    cbn [snd] in Hread; subst w1; [by left| |by left].
  apply check_inv in Hc as (_ & v & Hcl & Hg & Hk). unfold run_operation. rewrite (grows_lock _ _ Hg).
  destruct (with_lock_cases (rv_LockKey v) (carry_out E i a v' q o) w Hk) as [H|(Hl & w1 & H1 & H2 & He & H3 & H4)];
    [left; by rewrite H|].
  destruct (carry_out_calls i a v' q o w1) as [H|(call & ap & ok & Hcall & H)]; rewrite H1 in H; [left; by rewrite H3|].
  right. exists i, a, v, v', q, call, ap, ok, w1. by rewrite H3.
Qed.
Lemma execution_calls id r o w :
  let w' := (ExecuteResourceOperation E id r o w).2 in
  calls w' = calls w \/
  exists i a v q call ap ok, cleared id r w i a v q /\ (TrimSpace (rv_LockKey v) ∉ mw_locks w) /\
    ad_Apply a i q = Ok (call, ap) /\ calls w' = calls w ++ [MqCall (mi_ID i) call ok].
Proof.
  cbv zeta. destruct (execution_steps id r o w) as [H|(i & a & v & v' & q & call & ap & ok & w1 & H1 & H2 & H3 & H4 & _)];
    [by left|]. right. by exists i, a, v, q, call, ap, ok.
Qed.

(** ** The audit trail and the locks *)
Lemma filter_absent (key : gostring) l : key ∉ l -> List.filter (fun k => negb (bool_decide (k = key))) l = l.
Proof.
  induction l as [|k l IH]; [done|]. intros H. apply not_elem_of_cons in H as [Hk H]. cbn [List.filter].
  rewrite bool_decide_false by done. cbn [negb]. by rewrite IH.
Qed.

Definition spares {A} (m : handler mq_world A) : Prop :=
  forall w, mw_audits (m w).2 = mw_audits w /\ mw_locks (m w).2 = mw_locks w.
Lemma spares_reads {A} (m : handler mq_world A) : reads_only m -> spares m.
Proof. intros Hm w. by rewrite (Hm w). Qed.
Lemma spares_attempt {A} (f : list mq_event -> result A) e : spares (attempt f e).
Proof. by intros w. Qed.
Lemma spares_bind {A B} (m : handler mq_world A) (f : A -> handler mq_world B) :
  spares m -> (forall a, spares (f a)) -> spares (m ≫= f).
Proof.
  intros Hm Hf w. specialize (Hm w). unfold mbind, handler_bind.
  destruct (m w) as [[a|e] w']; cbn [snd] in *; [|done]. destruct (Hf a w') as [-> ->]. done.
Qed.
Lemma spares_caught {A} (m : handler mq_world A) : spares m -> spares (caught m).
Proof. intros Hm w. specialize (Hm w). unfold caught. by destruct (m w). Qed.
Lemma apply_spares i a r : spares (apply_operation E i a r).
Proof.
  apply spares_bind; [by apply spares_reads, reads_lift|]. intros [call ap].
  apply spares_bind; [apply spares_attempt|]. intros _. by apply spares_reads, reads_ret.
Qed.
Lemma refresh_spares i : spares (refreshMetadataAfterResourceOperation E i).
Proof.
  apply spares_bind; [apply spares_attempt|]. intros [s|]; [|by apply spares_reads, reads_ret].
  apply spares_bind; [by apply spares_reads, reads_ask|]. intros now.
  apply spares_bind; [apply spares_attempt|]. intros _. apply spares_attempt.
Qed.

(** The row of an operation while it runs: nothing, when it was not stored, or
    the newest row with its id and its link. *)
Definition own_row (t : audit_table MQOperationAudit) (audit : option MQOperationAudit) : Prop :=
  match audit with
  | None => True
  | Some a => exists r, last (at_rows t) = Some r /\ oa_ID a = oa_ID r /\
      oa_PreviousAuditHash a = oa_PreviousAuditHash r
  end.
Context (reads_ok : forall es, oe_audit_read E es = true).

Lemma start_quiet i v r o w : quiet (mw_audits w) -> exists audit w1,
  startResourceOperationAudit E i v r o w = (Ok audit, w1) /\ quiet (mw_audits w1) /\
  own_row (mw_audits w1) audit /\ mw_locks w1 = mw_locks w /\
  (audit = None <-> oe_audit_write E (mw_events w) = false).
Proof.
  intros Hq. unfold startResourceOperationAudit. cbv zeta. rewrite reads_ok.
  set (item := new_audit E i v r o (oe_now E (mw_events w))).
  assert (oa_ID item = 0 /\ oa_PreviousAuditHash item = []) as [Hid Hp].
  { unfold item, new_audit. by destruct (buildRollbackHint v) as [[? ?] ?]. }
  clearbody item. set (write := oe_audit_write E (mw_events w)). clearbody write.
  pose proof (quiet_create (mw_audits w) write item Hq Hid Hp) as Hc.
  pose proof (create_rows write (mw_audits w) item (quiet_linked _ Hq) Hid Hp) as Hr. cbv zeta in Hr.
  destruct (CreateAudit true write (mw_audits w) item) as [res t]. cbn [snd] in Hc.
  eexists _, _. split; [reflexivity|]. split; [exact Hc|]. cbn [mw_audits mw_locks].
  destruct write; injection Hr as -> ->; (split; [|by split]); [|done].
  cbn [own_row at_rows]. eexists. rewrite last_snoc. done.
Qed.

(** Steps that lead from tables of [P] to tables of [Q] and leave the locks. *)
Definition keeps {A} (P Q : audit_table MQOperationAudit -> Prop) (m : handler mq_world A) : Prop := forall w,
  P (mw_audits w) -> Q (mw_audits (m w).2) /\ mw_locks (m w).2 = mw_locks w.
Lemma keeps_after {A B} P Q (m : handler mq_world A) (f : A -> handler mq_world B) :
  spares m -> (forall t, P t -> Q t) -> (forall a, keeps P Q (f a)) -> keeps P Q (m ≫= f).
Proof.
  intros Hm HPQ Hf w HP. specialize (Hm w). unfold mbind, handler_bind.
  destruct (m w) as [[a|e] w']; cbn [snd] in *; destruct Hm as [Hma Hml]; [|rewrite Hma; auto].
  rewrite <- Hml. apply Hf. by rewrite Hma.
Qed.
Lemma keeps_before {A B} P Q (m : handler mq_world A) (f : A -> handler mq_world B) :
  keeps P Q m -> (forall a, reads_only (f a)) -> keeps P Q (m ≫= f).
Proof.
  intros Hm Hf w HP. specialize (Hm w HP). unfold mbind, handler_bind.
  destruct (m w) as [[a|e] w']; cbn [snd] in *; [by rewrite Hf | done].
Qed.

Lemma with_lock_keeps {A} key P Q (m : handler mq_world A) : (forall t, P t -> Q t) ->
  keeps P Q m -> keeps P Q (with_lock key m).
Proof.
  intros HPQ Hm w HP. unfold with_lock. case_bool_decide as Hne; [by apply Hm|].
  unfold mbind, handler_bind, acquireResourceOperationLock. cbv zeta.
  case_bool_decide as Hb.
  - unfold finally, releaseResourceOperationLock. destruct (Hm w HP) as [H1 H2].
    destruct (m w) as [res w2]. by rewrite bool_decide_true.
  - case_bool_decide as Hin; [by split; [apply HPQ|]|]. unfold finally, releaseResourceOperationLock.
    match goal with |- context [m ?w1] => destruct (Hm w1 HP) as [H1 H2]; destruct (m w1) as [res w2] end.
    rewrite bool_decide_false by done. cbn [snd mw_audits mw_locks] in *. split; [done|].
    rewrite H2. cbn [List.filter]. rewrite bool_decide_true by done. cbn [negb]. by apply filter_absent.
Qed.

(** The row that is finished is the row that was started. *)
Definition continues (audit x : option MQOperationAudit) : Prop := forall a, x = Some a ->
  exists a0, audit = Some a0 /\ oa_ID a = oa_ID a0 /\ oa_PreviousAuditHash a = oa_PreviousAuditHash a0 /\
    oa_InstanceID a = oa_InstanceID a0 /\ oa_IdempotencyKey a = oa_IdempotencyKey a0.
Lemma settle_keeps P Q i v t audit res : (forall t, P t -> Q t) ->
  (forall x status message text t t', continues audit x -> keeps P Q (finishOperationAudit E x status message text t t')) ->
  keeps P Q (settle_operation E i v t audit res).
Proof.
  intros HPQ Hfin. unfold settle_operation. apply keeps_after; [by apply spares_reads, reads_ask|done|]. intros finishedAt.
  destruct res as [ap|e].
  - cbv zeta. apply keeps_after; [apply spares_caught, refresh_spares|done|]. intros refreshed.
    destruct (match refreshed with Ok _ => _ | Err _ => _ end) as [[[[status refresh_status] refresh_error] result] message].
    apply keeps_after; [by apply spares_reads, reads_ask|done|]. intros finished'.
    apply keeps_after; [by apply spares_reads, reads_ask|done|]. intros es.
    apply keeps_before; [|intros _; apply reads_ret].
    apply Hfin. intros a Ha. destruct audit as [x|]; [|done]. injection Ha as <-. by exists x.
  - apply keeps_before; [|intros _; apply reads_fail]. apply Hfin. intros a ->. by exists a.
Qed.

Lemma finish_quiet audit x status message text t t' : continues audit x ->
  keeps (fun t => quiet t /\ own_row t audit) quiet (finishOperationAudit E x status message text t t').
Proof.
  intros Hx w [Hq Hown]. unfold finishOperationAudit. destruct x as [a|]; [|done]. cbv zeta.
  destruct (Hx a eq_refl) as (a0 & -> & Hi & Hh & _). rewrite reads_ok. destruct Hown as (r & Hlast & Hid & Hp).
  pose proof (quiet_finish (mw_audits w) (oe_audit_write E (mw_events w)) r
    (set_finish status message text t t' a) Hq Hlast (eq_trans Hi Hid) (eq_trans Hh Hp)) as Hf.
  destruct (UpdateAudit _ _ _ _) as [a' t0]. done.
Qed.

Lemma carry_out_quiet i a v r o : keeps quiet quiet (carry_out E i a v r o).
Proof.
  intros w Hq. destruct (carry_out_steps i a v r o w) as (audit & w1 & res & w2 & Hs & Ha & ->).
  destruct (start_quiet i v r o w Hq) as (audit' & w1' & Hs' & Hq1 & Hown & Hl1 & _).
  rewrite Hs in Hs'. injection Hs' as <- <-.
  pose proof (apply_spares i a r w1) as Hap. rewrite Ha in Hap. destruct Hap as [Hap Hlp]. cbn [snd] in Hap, Hlp.
  rewrite <- Hl1, <- Hlp. apply (settle_keeps (fun t => quiet t /\ own_row t audit)); [by intros t []| |].
  - intros. by apply finish_quiet.
  - by rewrite Hap.
Qed.

(** Every way out of an execution leaves the trail quiet and the locks as they were. *)
Lemma execution_quiet id r o w : quiet (mw_audits w) ->
  let w' := (ExecuteResourceOperation E id r o w).2 in
  quiet (mw_audits w') /\ mw_locks w' = mw_locks w.
Proof.
  intros Hq. cbv zeta. unfold ExecuteResourceOperation, mbind, handler_bind.
  pose proof (check_reads id r w) as Hread.
  destruct (check_operation E id r w) as [[[[[i a] [v' q]] [earlier|]]|e] w1]; cbn [snd] in Hread; subst w1; [done| |done].
  unfold run_operation. apply (with_lock_keeps _ quiet quiet); [done | apply carry_out_quiet | done].
Qed.

(** ** The handler: the plan it checked is the plan that is carried out *)
Lemma validate_normal t a i r : get_adapter t = Some (Some a) ->
  ad_Validate a i (normalizeResourceOperationRequest r) = ad_Validate a i r.
Proof.
  pose proof (normalize_normal r) as Hn. unfold normal in Hn.
  intros [->|[->|[-> _]]]%registered; cbn [ad_Validate rabbit_adapter kafka_adapter pulsar_adapter];
    unfold rabbit_ValidateOperation, kafka_ValidateOperation, pulsar_ValidateOperation; by rewrite Hn.
Qed.
Lemma or_text_same x : or_text x x = x.
Proof. unfold or_text. by case_bool_decide. Qed.

(** What a plan takes over from the validation of the adapter. *)
Lemma plan_names t a i r w v q w' : get_adapter t = Some (Some a) ->
  plan_operation E i a r w = (Ok (v, q), w') -> rv_Supported v = true -> exists v0,
  ad_Validate a i r = Ok (v0, q) /\ rv_Supported v0 = true /\ rv_Action v = rv_Action v0 /\
  rv_ResourceName v = rv_ResourceName v0.
Proof.
  intros Hreg H Hs. apply plan_inv in H as (_ & v0 & Hv0 & _ & Hn & Ha & Hs0 & _).
  pose proof (registered_concluded _ _ _ _ _ Hreg Hv0) as Hcon.
  pose proof (concluded_keeps _ _ _ _ Hcon) as (Hk & _ & _ & _ & _ & Hk').
  destruct (concluded_supported _ _ _ _ Hcon (Hs0 Hs)) as (_ & Hname & _).
  exists v0. split; [done|]. split; [auto|]. rewrite Ha, Hn, Hk, <- Hk', <- Hname. by rewrite !or_text_same.
Qed.
Lemma second_action t a i r q v v0 q0 : get_adapter t = Some (Some a) ->
  ad_Validate a i r = Ok (v0, q) -> ad_Validate a i q = Ok (v, q0) -> rv_Action v = rv_Action v0.
Proof.
  intros Hreg H H2.
  pose proof (concluded_keeps _ _ _ _ (registered_concluded _ _ _ _ _ Hreg H)) as (Hk & _ & _ & _ & _ & ->).
  pose proof (concluded_keeps _ _ _ _ (registered_concluded _ _ _ _ _ Hreg H2)) as (_ & _ & _ & _ & _ & ->).
  change (TrimSpace (ro_Action q) = ro_Action (normalizeResourceOperationRequest r)). rewrite Hk. apply TrimSpace_idem.
Qed.

(** A plan that a second validation gives again: every plan of Kafka and
    RabbitMQ, and those of Pulsar that delete a topic or update a namespace whose
    full name has one slash, as the names of Pulsar have. *)
Definition plan_steady (i : MQInstance) (v : ResourceOperationValidationVO) : Prop :=
  NormalizeType (mi_MQType i) <> MQTypePulsar \/ pulsar_steady v.

Lemma validation_again a i r v0 q v2 q2 : get_adapter (mi_MQType i) = Some (Some a) ->
  ad_Validate a i r = Ok (v0, q) -> ad_Validate a i q = Ok (v2, q2) -> plan_steady i v2 ->
  v2 = v0 /\ q2 = q.
Proof.
  intros Hreg H H2 Hst.
  assert (ad_Validate a i q = Ok (v0, q)) as H3; [|rewrite H2 in H3; by injection H3].
  destruct Hst as [Ht|Hst]; [by apply (registered_settles _ _ _ _ _ _ Hreg Ht H)|].
  pose proof (second_action _ _ _ _ _ _ _ _ Hreg H H2) as Ha.
  destruct (registered _ _ Hreg) as [->|[->|[-> _]]]; cbn [ad_Validate rabbit_adapter kafka_adapter pulsar_adapter] in *;
    [by eapply rabbit_settles | by eapply kafka_settles |].
  apply (pulsar_settles i r); [done|]. unfold pulsar_steady in *. rewrite <- Ha.
  destruct Hst as [?|[Hact Hslash]]; [by left | right]. split; [done|].
  by eapply pulsar_slashes_before.
Qed.

(** The plan that is carried out is the plan that was checked. *)
Lemma plan_again a i r w v1 q1 v q w' : get_adapter (mi_MQType i) = Some (Some a) ->
  plan_operation E i a (normalizeResourceOperationRequest r) w = (Ok (v1, q1), w) ->
  plan_operation E i a (normalizeResourceOperationRequest q1) w = (Ok (v, q), w') ->
  rv_Supported v = true -> plan_steady i v -> v = v1 /\ q = q1.
Proof.
  intros Hreg H1 H2 Hs Hst.
  destruct (plan_names _ _ _ _ _ _ _ _ Hreg H2 Hs) as (v20 & Hv20 & _ & Ha & Hn).
  rewrite (validate_normal _ _ _ _ Hreg) in Hv20.
  pose proof (plan_inv _ _ _ _ _ _ _ H1) as (_ & v10 & Hv10 & _).
  assert (plan_steady i v20) as Hst0.
  { unfold plan_steady, pulsar_steady in *. by rewrite <- Ha, <- Hn. }
  destruct (validation_again _ _ _ _ _ _ _ Hreg Hv10 Hv20 Hst0) as [-> ->].
  unfold plan_operation in H1, H2. rewrite h_lift_bind in H1, H2.
  rewrite Hv10 in H1. rewrite (validate_normal _ _ _ _ Hreg), Hv20 in H2. rewrite H1 in H2. by injection H2.
Qed.
Lemma validate_inv id r w v q w' : ValidateResourceOperation E id r w = (Ok (v, q), w') ->
  w' = w /\ exists i a, oe_instance E (mw_events w) id = Ok i /\ get_adapter (mi_MQType i) = Some (Some a) /\
    plan_operation E i a (normalizeResourceOperationRequest r) w = (Ok (v, q), w).
Proof.
  intros H. pose proof (reads_eq _ _ _ _ (validate_reads id r) H) as ->. split; [done|].
  unfold ValidateResourceOperation in H. apply h_bind_Ok in H as ([i a] & w1 & Hi & H).
  apply resolve_inv in Hi as (-> & Hi & _ & Hreg). apply guard_inv in H as [_ H]. by exists i, a.
Qed.

Definition pulsar_destructive_actions : list gostring :=
  [OperationActionPulsarTopicDelete; OperationActionPulsarSubscriptionSkip; OperationActionPulsarSubscriptionReset].
Lemma pulsar_destructive_one action : one_of action pulsar_destructive_actions = true ->
  one_of action destructive = true /\ guarded_action action = false.
Proof.
  intros H. apply one_of_true in H. unfold pulsar_destructive_actions in H.
  repeat (apply elem_of_cons in H as [->|H]; [split; vm_compute; reflexivity|]). by apply not_elem_of_nil in H.
Qed.
Lemma plan_action t a i r w v q w' : get_adapter t = Some (Some a) ->
  plan_operation E i a r w = (Ok (v, q), w') -> rv_Action v = TrimSpace (ro_Action r) /\ ro_Action q = rv_Action v.
Proof.
  intros Hreg H. apply plan_inv in H as (_ & v0 & Hv0 & _ & _ & -> & _).
  pose proof (registered_concluded _ _ _ _ _ Hreg Hv0) as Hcon.
  pose proof (concluded_keeps _ _ _ _ Hcon) as (Hq & _ & _ & _ & _ & Hv).
  by rewrite Hv, Hq, !or_text_same.
Qed.

(** A validation that does not support a request leaves it as it is. *)
Lemma unsupported_again t a i r v q : get_adapter t = Some (Some a) -> ad_Validate a i r = Ok (v, q) ->
  rv_Supported v = false -> q = normalizeResourceOperationRequest r.
Proof.
  intros Hreg H Hs. destruct (registered_concluded _ _ _ _ _ Hreg H) as [(m & [= _ ->])|Hc]; [done|].
  destruct Hc as (risk & perm & t' & m & im & wa & p & [= <- _] & _). discriminate Hs.
Qed.

(** The first plan of a dangerous Pulsar operation that is carried out. *)
Lemma first_plan_checked t a i r w v1 q1 v q w' : get_adapter t = Some (Some a) ->
  plan_operation E i a (normalizeResourceOperationRequest r) w = (Ok (v1, q1), w) ->
  plan_operation E i a (normalizeResourceOperationRequest q1) w = (Ok (v, q), w') -> rv_Supported v = true ->
  one_of (rv_Action v) pulsar_destructive_actions = true ->
  rv_Supported v1 = true /\ IsHighRiskLevel (rv_RiskLevel v1) = true.
Proof.
  intros Hreg H1 H2 Hs Hd. apply pulsar_destructive_one in Hd as [Hd Hg].
  pose proof (plan_action _ _ _ _ _ _ _ _ Hreg H1) as [Hv1 Hq1].
  pose proof (plan_action _ _ _ _ _ _ _ _ Hreg H2) as [Hv2 _].
  assert (rv_Action v = rv_Action v1) as Hsame.
  { rewrite Hv2. change (TrimSpace (TrimSpace (ro_Action q1)) = rv_Action v1).
    by rewrite TrimSpace_idem, Hq1, Hv1, TrimSpace_idem. }
  apply plan_inv in H1 as (_ & v10 & Hv10 & _ & _ & Ha1 & _ & Hrisk & _ & Hopen).
  apply plan_inv in H2 as (_ & v20 & Hv20 & _ & _ & _ & Hs20 & _).
  destruct (rv_Supported v10) eqn:Hs10.
  - split; [apply Hopen; [|done]|].
    + pose proof (concluded_keeps _ _ _ _ (registered_concluded _ _ _ _ _ Hreg Hv10)) as (Hk & _ & _ & _ & _ & Hk').
      by rewrite Hk', <- Hk, or_text_same, Hq1, <- Hsame.
    + apply Hrisk, (registered_destructive _ _ _ _ _ _ Hreg Hv10 Hs10).
      change (one_of (TrimSpace (ro_Action (normalizeResourceOperationRequest r))) destructive = true).
      by rewrite <- Hv1, <- Hsame.
  - exfalso. pose proof (unsupported_again _ _ _ _ _ _ Hreg Hv10 Hs10) as ->.
    assert (forall x, ad_Validate a i (normalizeResourceOperationRequest x) = ad_Validate a i x) as Hn
      by (intros x; by apply (validate_normal t)).
    rewrite !Hn in Hv20. rewrite !Hn in Hv10. rewrite Hv10 in Hv20. injection Hv20 as <- _.
    by rewrite Hs20 in Hs10.
Qed.

Lemma prefixed_world {A} p (m : handler mq_world A) w : (prefixed p m w).2 = (m w).2.
Proof. unfold prefixed, h_map_err. by destruct (m w) as [[?|?] ?]. Qed.

Lemma prefixed_Ok {A B} p (m : handler mq_world A) (f : A -> handler mq_world B) w a w' :
  m w = (Ok a, w') -> (prefixed p m ≫= f) w = f a w'.
Proof. intros H. unfold prefixed, h_map_err, mbind, handler_bind. by rewrite H. Qed.
Lemma prefixed_Err {A B} p (m : handler mq_world A) (f : A -> handler mq_world B) w e w' :
  m w = (Err e, w') -> (prefixed p m ≫= f) w = (Err (p ++ e), w').
Proof. intros H. unfold prefixed, h_map_err, mbind, handler_bind. by rewrite H. Qed.

(** The handler refuses, or executes the request that it has validated. *)
Lemma http_steps s id r o w :
  (http_ExecuteResourceOperation E s id r o w).2 = w \/
  exists v1 q1, ensureInstancePermission s id PermissionResourceManage = Ok tt /\
    ValidateResourceOperation E id r w = (Ok (v1, q1), w) /\
    (rv_Supported v1 = true -> IsHighRiskLevel (rv_RiskLevel v1) = true -> ensureHighRiskPermission s id = Ok tt) /\
    (http_ExecuteResourceOperation E s id r o w).2 = (ExecuteResourceOperation E id q1 o w).2.
Proof.
  unfold http_ExecuteResourceOperation. rewrite h_lift_bind.
  destruct (ensureInstancePermission s id PermissionResourceManage) as [[]|] eqn:Hp; [|by left].
  pose proof (validate_reads id r w) as Hread.
  destruct (ValidateResourceOperation E id r w) as [[[v1 q1]|e] w1] eqn:Hv; cbn [snd] in Hread; subst w1;
    [|rewrite (prefixed_Err _ _ _ _ _ _ Hv); by left].
  rewrite (prefixed_Ok _ _ _ _ _ _ Hv), h_lift_bind.
  destruct (if rv_Supported v1 && IsHighRiskLevel (rv_RiskLevel v1) then ensureHighRiskPermission s id else Ok tt)
    as [[]|] eqn:Hh; [|by left].
  right. exists v1, q1. split; [done|]. split; [done|]. split; [intros Hs Hr; by rewrite Hs, Hr in Hh|].
  apply prefixed_world.
Qed.

(** An update of a Pulsar namespace under a name that has not exactly one slash:
    the only request whose plan may be another one the second time and carry a
    higher risk then. *)
Definition misnamed_namespace (i : MQInstance) (v : ResourceOperationValidationVO) : Prop :=
  NormalizeType (mi_MQType i) = MQTypePulsar /\ rv_Action v ∈ namespace_actions /\
  count_slashes (rv_ResourceName v) <> 1.

Lemma named_or_destructive a i r w v q w' : get_adapter (mi_MQType i) = Some (Some a) ->
  plan_operation E i a r w = (Ok (v, q), w') -> rv_Supported v = true -> ~ misnamed_namespace i v ->
  plan_steady i v \/ one_of (rv_Action v) pulsar_destructive_actions = true.
Proof.
  intros Hreg H Hs Hm. unfold plan_steady.
  destruct (decide (NormalizeType (mi_MQType i) = MQTypePulsar)) as [Ht|]; [|by do 2 left].
  destruct (plan_names _ _ _ _ _ _ _ _ Hreg H Hs) as (v0 & Hv0 & Hs0 & Ha & Hn).
  destruct (Z.eq_dec (count_slashes (rv_ResourceName v)) 1) as [H1|H1].
  2: assert (rv_Action v ∉ namespace_actions) as Hna by (intros Hna; by apply Hm).
  all: apply (pulsar_only _ _ Hreg) in Ht as ->.
  all: destruct (pulsar_supported _ _ _ _ Hv0 Hs0) as [Hx|[Hx|[Hx|Hx]]]; rewrite <- Ha in Hx.
  - left. right. right. done.
  - left. right. by left.
  - right. rewrite Hx. vm_compute. done.
  - right. rewrite Hx. vm_compute. done.
  - done.
  - left. right. by left.
  - right. rewrite Hx. vm_compute. done.
  - right. rewrite Hx. vm_compute. done.
Qed.

(** The permissions a call through the handler has passed. *)
Lemma http_calls s id r o w :
  let w' := (http_ExecuteResourceOperation E s id r o w).2 in
  calls w' = calls w \/
  exists i a v1 q1 v q call ap ok,
    ensureInstancePermission s id PermissionResourceManage = Ok tt /\
    ValidateResourceOperation E id r w = (Ok (v1, q1), w) /\ cleared id q1 w i a v q /\
    (plan_steady i v -> v = v1 /\ q = q1) /\
    (~ misnamed_namespace i v -> IsHighRiskLevel (rv_RiskLevel v) = true -> ensureHighRiskPermission s id = Ok tt) /\
    ad_Apply a i q = Ok (call, ap) /\ calls w' = calls w ++ [MqCall (mi_ID i) call ok].
Proof.
  cbv zeta. destruct (http_steps s id r o w) as [->|(v1 & q1 & Hp & Hv & Hperm & ->)]; [by left|].
  pose proof (execution_calls id q1 o w) as Hc. cbv zeta in Hc.
  destruct Hc as [Hc|(i & a & v & q & call & ap & ok & Hcl & _ & Hap & Hc)]; [by left | right].
  exists i, a, v1, q1, v, q, call, ap, ok. do 3 (split; [done|]).
  apply validate_inv in Hv as (_ & i' & a' & Hi & Hreg & Hplan).
  destruct Hcl as [Hi' _ Hreg' _ Hplan' Hsup _ _ _]. rewrite Hi in Hi'. injection Hi' as ->.
  rewrite Hreg in Hreg'. injection Hreg' as ->.
  assert (plan_steady i v -> v = v1 /\ q = q1) as Hagain by (intros; by eapply plan_again).
  split; [done|]. split; [|done]. intros Hm Hhigh.
  destruct (named_or_destructive _ _ _ _ _ _ _ Hreg Hplan' Hsup Hm) as [Ht|Ha].
  - destruct (Hagain Ht) as [-> ->]. by apply Hperm.
  - destruct (first_plan_checked _ _ _ _ _ _ _ _ _ _ Hreg Hplan Hplan' Hsup Ha) as [Hs1 Hh1].
    by apply Hperm.
Qed.

(** ** The idempotency key *)
Definition keyed (id : Z) (key : gostring) (t : audit_table MQOperationAudit) : Prop :=
  exists a, a ∈ at_rows t /\ oa_InstanceID a = id /\ oa_IdempotencyKey a = key.
Lemma keyed_found id key t : keyed id (TrimSpace key) t -> TrimSpace key <> [] ->
  GetByIdempotencyKey id key t <> None.
Proof.
  intros (a & Hin & Hid & Hkey) Hne. unfold GetByIdempotencyKey. rewrite bool_decide_false by done.
  intros Hlast. apply last_None in Hlast.
  assert (a ∈ List.filter (fun a => (oa_InstanceID a =? id) && bool_decide (oa_IdempotencyKey a = TrimSpace key)) (at_rows t)) as Hf.
  { apply list_elem_of_In, filter_In. split; [by apply list_elem_of_In|].
    rewrite Hid, Z.eqb_refl, bool_decide_true by done. done. }
  rewrite Hlast in Hf. by apply not_elem_of_nil in Hf.
Qed.
Lemma fill_key read t a : oa_InstanceID (fillAuditHash read t a) = oa_InstanceID a /\
  oa_IdempotencyKey (fillAuditHash read t a) = oa_IdempotencyKey a.
Proof. done. Qed.

(** A table whose rows were numbered by it, with a row for each of the keys. *)
Definition numbered (t : audit_table MQOperationAudit) : Prop :=
  Forall (fun a => oa_ID a < at_next t) (at_rows t).
Definition held (ks : list (Z * gostring)) (t : audit_table MQOperationAudit) : Prop :=
  numbered t /\ Forall (fun k => keyed k.1 k.2 t) ks.
(** No other row has the number of the row of the operation. *)
Definition owned (t : audit_table MQOperationAudit) (audit : option MQOperationAudit) : Prop := forall a,
  audit = Some a -> forall y, y ∈ at_rows t -> oa_ID y = oa_ID a ->
  oa_InstanceID y = oa_InstanceID a /\ oa_IdempotencyKey y = oa_IdempotencyKey a.

Lemma start_held ks i v r o w : held ks (mw_audits w) -> exists audit w1,
  startResourceOperationAudit E i v r o w = (Ok audit, w1) /\ held ks (mw_audits w1) /\
  owned (mw_audits w1) audit /\ mw_locks w1 = mw_locks w /\
  (oe_audit_write E (mw_events w) = true ->
   held ((mi_ID i, TrimSpace (ro_IdempotencyKey r)) :: ks) (mw_audits w1)).
Proof.
  intros [Hn Hks]. unfold startResourceOperationAudit. cbv zeta.
  set (item := new_audit E i v r o (oe_now E (mw_events w))).
  assert (oa_InstanceID item = mi_ID i /\ oa_IdempotencyKey item = TrimSpace (ro_IdempotencyKey r)) as [Hi Hk].
  { unfold item, new_audit. by destruct (buildRollbackHint v) as [[? ?] ?]. }
  clearbody item. unfold CreateAudit.
  destruct (fill_key (oe_audit_read E (mw_events w)) (mw_audits w) item) as [Hfi Hfk].
  set (z := fillAuditHash _ _ item) in *.
  destruct (oe_audit_write E (mw_events w)); (eexists _, _; split; [reflexivity|]); cbn [mw_audits mw_locks].
  2: { split; [by split|]. split; [done|]. by split. }
  set (t1 := {| at_rows := _; at_next := _ |}).
  assert (forall k, keyed k.1 k.2 (mw_audits w) -> keyed k.1 k.2 t1) as Hold.
  { intros k (a & Ha & Hak). exists a. split; [apply elem_of_app; by left | done]. }
  assert (numbered t1) as Hn1.
  { apply Forall_app. split; [|by repeat constructor; cbn; lia].
    eapply Forall_impl; [exact Hn|]. intros a Ha. cbn [at_next t1]. cbn in Ha. lia. }
  assert (held ks t1) as Hh by (split; [done|]; by eapply Forall_impl; [exact Hks|]).
  split; [exact Hh|]. split; [|split; [done|]].
  - intros a [= <-] y Hy Hid. apply elem_of_app in Hy as [Hy|Hy%list_elem_of_singleton]; [|by subst].
    unfold numbered in Hn. rewrite list.Forall_forall in Hn. specialize (Hn y Hy). cbn in Hid. lia.
  - intros _. split; [done|]. constructor; [|apply Hh]. eexists. split; [apply elem_of_app; right; by left|].
    cbn [fst snd]. by rewrite <- Hi, <- Hk, <- Hfi, <- Hfk.
Qed.

Lemma finish_held ks audit x status message text t t' : continues audit x ->
  keeps (fun t => held ks t /\ owned t audit) (held ks) (finishOperationAudit E x status message text t t').
Proof.
  intros Hx w [[Hn Hks] Hown]. unfold finishOperationAudit. destruct x as [a|]; [|done].
  destruct (Hx a eq_refl) as (a0 & Ha0 & Hid & _ & Hi & Hk). specialize (Hown a0 Ha0).
  cbv zeta. unfold UpdateAudit. set (f := set_finish status message text t t' a).
  destruct (fill_key (oe_audit_read E (mw_events w)) (mw_audits w) f) as [Hfi Hfk].
  set (z := fillAuditHash _ _ f) in *.
  assert (row_ID z = oa_ID a0) as Hz by (rewrite <- Hid; reflexivity). clearbody z.
  cbn [snd mw_audits mw_locks]. split; [|done]. destruct (oe_audit_write E (mw_events w)); [|by split].
  split; [|eapply Forall_impl; [exact Hks|]; intros k (y & Hin & Hyi & Hyk)].
  - apply Forall_fmap. eapply Forall_impl; [exact Hn|]. intros y Hy.
    unfold compose. destruct (Z.eqb_spec (row_ID y) (row_ID z)) as [Hyz|]; [|exact Hy].
    change (row_ID z < at_next (mw_audits w)). rewrite <- Hyz. exact Hy.
  - destruct (row_ID y =? row_ID z) eqn:Hyz.
    + exists z. split; [apply list_elem_of_fmap; exists y; by rewrite Hyz|].
      apply Z.eqb_eq in Hyz. destruct (Hown y Hin) as [Ho1 Ho2]; [by rewrite <- Hz, <- Hyz|].
      rewrite Hfi, Hfk. change (oa_InstanceID f) with (oa_InstanceID a).
      change (oa_IdempotencyKey f) with (oa_IdempotencyKey a). by rewrite Hi, Hk, <- Ho1, <- Ho2.
    + exists y. split; [|done]. apply list_elem_of_fmap. exists y. by rewrite Hyz.
Qed.

(** An execution keeps every key, and adds its own when its row is stored. *)
Lemma carry_out_held ks i a v r o w : held ks (mw_audits w) ->
  let w' := (carry_out E i a v r o w).2 in
  held ks (mw_audits w') /\ mw_locks w' = mw_locks w /\
  (oe_audit_write E (mw_events w) = true ->
   held ((mi_ID i, TrimSpace (ro_IdempotencyKey r)) :: ks) (mw_audits w')).
Proof.
  intros Hh. cbv zeta. destruct (carry_out_steps i a v r o w) as (audit & w1 & res & w2 & Hs & Ha & ->).
  destruct (start_held ks i v r o w Hh) as (x & w1' & Hs' & Hh1 & Hown & Hl & Hnew).
  rewrite Hs in Hs'. injection Hs' as <- <-.
  pose proof (apply_spares i a r w1) as Hap. rewrite Ha in Hap. destruct Hap as [Hap Hlp]. cbn [snd] in Hap, Hlp.
  assert (forall l, held l (mw_audits w1) -> let w' := (settle_operation E i v (oe_now E (mw_events w)) audit res w2).2 in
    held l (mw_audits w') /\ mw_locks w' = mw_locks w2) as Hset.
  { intros l Hl1. apply (settle_keeps (fun t => held l t /\ owned t audit)); [by intros t []| |by rewrite Hap].
    intros. by apply finish_held. }
  destruct (Hset ks Hh1) as [H1 H2]. split; [exact H1|]. split; [by rewrite H2, Hlp|].
  intros Hw. by apply Hset, Hnew.
Qed.
Lemma execution_held ks id r o w : held ks (mw_audits w) ->
  held ks (mw_audits (ExecuteResourceOperation E id r o w).2).
Proof.
  intros Hh. unfold ExecuteResourceOperation, mbind, handler_bind.
  pose proof (check_reads id r w) as Hread.
  destruct (check_operation E id r w) as [[[[[i a] [v' q]] [earlier|]]|e] w1]; cbn [snd] in Hread; subst w1; [done| |done].
  unfold run_operation. apply (with_lock_keeps _ (held ks) (held ks)); [done| |done].
  intros w' Hw'. by destruct (carry_out_held ks i a v' q o w' Hw') as (? & ? & _).
Qed.

Lemma cleared_key id r w i a v q : cleared id r w i a v q -> ro_IdempotencyKey q = TrimSpace (ro_IdempotencyKey r).
Proof.
  intros [_ _ Hreg _ Hplan _ _ _ _]. apply plan_inv in Hplan as (_ & v0 & Hv0 & _).
  pose proof (registered_concluded _ _ _ _ _ Hreg Hv0) as Hcon.
  apply concluded_keeps in Hcon as (_ & _ & _ & _ & Hkey & _). rewrite Hkey. apply TrimSpace_idem.
Qed.
(** A request that has reached the broker is found under its key, when its row
    was stored. *)
Lemma execution_keyed id r o w : numbered (mw_audits w) ->
  (forall l, oe_audit_write E (mw_events w ++ [MqLocked l]) = true) ->
  let w' := (ExecuteResourceOperation E id r o w).2 in
  calls w' <> calls w -> exists i, oe_instance E (mw_events w) id = Ok i /\
    held [(mi_ID i, TrimSpace (ro_IdempotencyKey r))] (mw_audits w').
Proof.
  intros Hn Hwrite. cbv zeta.
  destruct (execution_steps id r o w) as [H|(i & a & v & v' & q & call & ap & ok & w1 & Hcl & _ & _ & _ & Ha & He & ->)]; [done|].
  intros _. exists i. split; [by destruct Hcl|].
  destruct (carry_out_held [] i a v' q o w1) as (_ & _ & H); [split; [by rewrite Ha | constructor]|].
  rewrite He in H. specialize (H (Hwrite _)). by rewrite (cleared_key _ _ _ _ _ _ _ Hcl), TrimSpace_idem in H.
Qed.

(** ** Configurations that are not stored *)
Ltac same_risk :=
  repeat match goal with
    | |- rv_RiskLevel (if ?b then _ else _) = _ => destruct b
    | |- rv_RiskLevel (match ?x with _ => _ end) = _ => destruct x
    end; reflexivity.
Ltac same_field :=
  unfold applyOperationFreshnessWarning; cbv zeta;
  match goal with |- context [mi_LastSyncAt ?i] => destruct (mi_LastSyncAt i), (mi_LastMetricAt i) end;
  repeat match goal with |- context [if ?a <? ?now - ?t then _ else _] => destruct (a <? now - t) end; reflexivity.
Lemma freshness_risk i c now v : rv_RiskLevel (applyOperationFreshnessWarning i c now v) = rv_RiskLevel v.
Proof. same_field. Qed.
Lemma immutable_risk v : rv_RiskLevel (applyRabbitMQImmutableGuards v) = rv_RiskLevel v.
Proof. unfold applyRabbitMQImmutableGuards. cbv zeta. same_risk. Qed.
Lemma high_risk_guards_risk i r es v : rv_RiskLevel (applyHighRiskOperationGuards E i r es v) = rv_RiskLevel v.
Proof. unfold applyHighRiskOperationGuards. cbv zeta. same_risk. Qed.
Lemma freshness_before i c now v : rv_Before (applyOperationFreshnessWarning i c now v) = rv_Before v.
Proof. same_field. Qed.
Lemma freshness_type i c now v : rv_ResourceType (applyOperationFreshnessWarning i c now v) = rv_ResourceType v.
Proof. apply grows_type, grows_freshness. Qed.

(** What is nothing decreases to nothing. *)
Lemma nothing_decreases key after : configValueDecrease key ANil after = false /\
  cleanupPolicyBecomesDeleteOnly key ANil after = false.
Proof.
  split; unfold configValueDecrease, cleanupPolicyBecomesDeleteOnly.
  - apply andb_false_r.
  - change (Contains (ToLower (stringValue ANil)) $"compact") with false. by rewrite andb_false_r.
Qed.
Lemma foldl_same {A B} (f : A -> B -> A) l a : (forall b, f a b = a) -> foldl f a l = a.
Proof. intros H. induction l as [|b l IH]; [done|]. cbn [foldl]. by rewrite H. Qed.
Lemma immutable_before v : rv_Before (applyRabbitMQImmutableGuards v) = rv_Before v.
Proof.
  unfold applyRabbitMQImmutableGuards. cbv zeta.
  repeat match goal with |- rv_Before (if ?b then _ else _) = _ => destruct b end; reflexivity.
Qed.
Lemma unread_config v : snapshot_config (rv_Before v) = [] -> applyDestructiveConfigRisk v = v.
Proof.
  intros Hb. unfold applyDestructiveConfigRisk. case_bool_decide; [done|]. cbv zeta.
  apply foldl_same. intros [k x]. rewrite Hb. cbn [fst snd]. change (map_at [] k) with ANil.
  destruct (nothing_decreases k x) as [-> ->]. cbv beta iota delta [orb].
  repeat match goal with |- (if ?b then _ else _) = _ => destruct b end; reflexivity.
Qed.
Lemma snapshot_without_config x : TrimSpace (mr_ConfigJSON x) = [] ->
  snapshot_config (Some (resourceSnapshot E x)) = [].
Proof.
  intros Hx. unfold resourceSnapshot, parseJSONMap. cbv zeta. rewrite Hx. rewrite bool_decide_true by done. reflexivity.
Qed.

Lemma enrich_risk i r v w v' w' : enrichResourceOperationPlan E i r v w = (Ok v', w') ->
  rv_ResourceType v <> ResourceTypeSubscription -> rv_Before v = None ->
  (forall es id t n m x, oe_resource E es id t n m = Ok (Some x) -> TrimSpace (mr_ConfigJSON x) = []) ->
  rv_RiskLevel v' = rv_RiskLevel v.
Proof.
  intros H Ht Hb Hconf. unfold enrichResourceOperationPlan in H. cbv zeta in H.
  apply config_inv in H as (c & _ & H). apply ask_inv in H.
  pose proof (freshness_risk i c (oe_now E (mw_events w)) (set_lock_key (buildResourceOperationLockKey (mi_ID i) v) v)) as H1.
  pose proof (freshness_before i c (oe_now E (mw_events w)) (set_lock_key (buildResourceOperationLockKey (mi_ID i) v) v)) as H2.
  pose proof (freshness_type i c (oe_now E (mw_events w)) (set_lock_key (buildResourceOperationLockKey (mi_ID i) v) v)) as H3.
  set (u := applyOperationFreshnessWarning _ _ _ _) in *. clearbody u.
  change (rv_RiskLevel u = rv_RiskLevel v) in H1. change (rv_Before u = rv_Before v) in H2.
  change (rv_ResourceType u = rv_ResourceType v) in H3. rewrite <- H1. rewrite <- H3 in Ht. rewrite <- H2 in Hb.
  clear H1 H2 H3. apply h_bind_Ok in H as (res & w1 & Hres & H).
  set (b := match res with Some x => set_before (resourceSnapshot E x) u | None => u end) in *.
  assert (rv_RiskLevel b = rv_RiskLevel u /\ rv_ResourceType b = rv_ResourceType u /\ snapshot_config (rv_Before b) = [])
    as (<- & Hbt & Hsc).
  { unfold b. destruct res as [x|]; [|by rewrite Hb]. split; [done|]. split; [done|]. apply snapshot_without_config.
    unfold lookupOperationResource in Hres. destruct (_ || _); [done|]. unfold try_ in Hres.
    eapply Hconf. by apply (f_equal fst) in Hres. }
  clearbody b. rewrite bool_decide_false in H by (by rewrite Hbt).
  apply h_bind_Ok in H as (b' & w2 & Hb' & H). apply ret_inv in Hb' as [-> ->].
  apply h_bind_Ok in H as (es & w3 & _ & H). apply ret_inv in H as [-> _].
  rewrite high_risk_guards_risk, unread_config by (by rewrite immutable_before). by rewrite immutable_risk.
Qed.
Lemma concluded_before i r v q : concluded i r (v, q) -> rv_Before v = None.
Proof. intros [(m & [= -> ->])|(risk & perm & t & m & im & wa & p & [= <- _] & _)]; done. Qed.
End facts.

(** ** The guarantees *)
Section guarantees.
Context `{JR : !JsonReader, UT : UnicodeTables} (E : mq_env).



(** Requests one after the other: with a readable audit table, every trail
    that starts quiet passes the verification at any time, and no lock is left. *)
Definition execute_all (rs : list (Z * ResourceOperationRequest * Operator)) (w : mq_world) : mq_world :=
  foldl (fun w x => (ExecuteResourceOperation E x.1.1 x.1.2 x.2 w).2) w rs.
Theorem sequential_requests_verify rs w messages kind req :
  (forall es, oe_audit_read E es = true) -> quiet (mw_audits w) -> quiet messages ->
  let w' := execute_all rs w in
  mw_locks w' = mw_locks w /\
  exists v, VerifyAuditChain None (mw_audits w') messages kind req = Ok v /\ cv_Valid v = true /\ cv_Findings v = [].
Proof.
  intros Hread Hq Hm. cbv zeta.
  assert (quiet (mw_audits (execute_all rs w)) /\ mw_locks (execute_all rs w) = mw_locks w) as [Hq' Hl].
  { unfold execute_all. revert w Hq. induction rs as [|x rs IH]; intros w Hq; [done|]. cbn [foldl].
    destruct (execution_quiet E Hread x.1.1 x.1.2 x.2 w Hq) as [H1 H2].
    destruct (IH _ H1) as [H3 H4]. split; [done|]. by rewrite H4. }
  split; [done|]. unfold VerifyAuditChain. case_bool_decide; apply newest_verifies; by apply quiet_linked.
Qed.

(** C28: A request that has reached the broker under a key is not carried out
    again under that key, whatever the later request asks for and whatever
    requests have been executed in between, provided the insert of the row of the
    first one has succeeded (the later writes of the audit table may fail) and
    the requests are executed one after the other: two that overlap are both
    carried out (the example [same_key_twice]), and so is a second one when the
    row of the first is lost. The table numbers its rows upwards, and the
    look-up of an instance by its number answers with that instance. *)
Theorem replay_not_applied id r1 r2 o1 o2 rs w :
  numbered (mw_audits w) -> (forall l, oe_audit_write E (mw_events w ++ [MqLocked l]) = true) ->
  (forall es i, oe_instance E es id = Ok i -> mi_ID i = id) ->
  TrimSpace (ro_IdempotencyKey r1) <> [] -> TrimSpace (ro_IdempotencyKey r2) = TrimSpace (ro_IdempotencyKey r1) ->
  let w1 := (ExecuteResourceOperation E id r1 o1 w).2 in
  calls w1 <> calls w ->
  let w2 := execute_all rs w1 in
  calls (ExecuteResourceOperation E id r2 o2 w2).2 = calls w2.
Proof.
  intros Hn Hwrite Hid Hne Hsame. cbv zeta. intros Hcall.
  destruct (execution_keyed E id r1 o1 w Hn Hwrite Hcall) as (i & Hi & Hk). apply Hid in Hi. rewrite Hi in Hk.
  assert (held [(id, TrimSpace (ro_IdempotencyKey r1))]
    (mw_audits (execute_all rs (ExecuteResourceOperation E id r1 o1 w).2))) as [_ H2].
  { revert Hk. generalize (ExecuteResourceOperation E id r1 o1 w).2. unfold execute_all.
    induction rs as [|x rs IH]; intros w1 Hk; [done|]. apply IH. by apply execution_held. }
  apply Forall_cons in H2 as [H2 _]. cbn [fst snd] in H2. rewrite <- Hsame in H2, Hne.
  destruct (execution_calls E id r2 o2 (execute_all rs (ExecuteResourceOperation E id r1 o1 w).2))
    as [H|(j & a & v & q & call & ap & ok & [Hj _ _ _ _ _ _ _ Hfirst] & _)]; [done|].
  apply Hid in Hj. destruct (keyed_found id (ro_IdempotencyKey r2) _ H2 Hne). rewrite <- Hj at 1. by apply Hfirst.
Qed.

(** C30: A plan of a resource whose configuration is not stored has the risk the
    adapter gave it: no change of the configuration raises it. *)
Theorem unread_config_never_elevates i a r w v0 q v w' :
  get_adapter (mi_MQType i) = Some (Some a) ->
  ad_Validate a i r = Ok (v0, q) -> rv_ResourceType v0 <> ResourceTypeSubscription -> rv_ResourceType v0 <> [] ->
  (forall es id t n m x, oe_resource E es id t n m = Ok (Some x) -> TrimSpace (mr_ConfigJSON x) = []) ->
  plan_operation E i a r w = (Ok (v, q), w') ->
  rv_RiskLevel v = or_text (rv_RiskLevel v0) RiskLevelLow.
Proof.
  intros Hreg Hv Ht Hne Hconf H. unfold plan_operation in H. rewrite h_lift_bind, Hv in H.
  apply h_bind_Ok in H as (v1 & w1 & Hv1 & H). apply ret_inv in H as [[= ->] _].
  pose proof (concluded_before _ _ _ _ (registered_concluded _ _ _ _ _ Hreg Hv)) as Hb.
  apply enrich_risk in Hv1; [| |done|done].
  - cbn [rv_RiskLevel fillOperationValidationDefaults] in Hv1 |- *. rewrite Hv1. unfold or_text.
    destruct (bool_decide_reflect (rv_RiskLevel v0 = [])); [done|]. by rewrite bool_decide_false.
  - cbn [rv_ResourceType fillOperationValidationDefaults]. unfold or_text. by rewrite bool_decide_false.
Qed.
End guarantees.
