(* ===== verification/MqExamples.v ===== *)
(** * Message queues on concrete requests

    A Kafka, a RabbitMQ and a Pulsar instance, requests on them, and the
    theorems applied where their hypotheses hold. *)

From Stdlib Require Import ZArith Lia Sorting.Sorted.
From stdpp Require Import base tactics option list numbers sets.
From S2P Require Import Prelude GoStrings GoNumbers GoCrypto GoJson MqAudit MqAuditFacts MqModel MqAdapters MqAdapterFacts MqOperation MqOperationFacts.

Open Scope Z_scope.

#[local] Existing Instance sample_tables.
(** No parameter of the samples is a JSON text. *)
#[local] Instance sample_reader : JsonReader := {| read_text_map _ := None; read_map _ := None |}.

(** ** Instances and requests *)
Definition sample_mq (mqType environment : gostring) (synced : option Z) : MQInstance := {|
  mi_ID := 3; mi_Name := $"orders"; mi_MQType := mqType; mi_Engine := []; mi_Version := $"3";
  mi_CredentialID := 0; mi_Status := InstanceStatusEnabled; mi_HealthStatus := HealthStatusHealthy;
  mi_Environment := environment; mi_BusinessSystem := []; mi_Owner := []; mi_LastSyncAt := synced;
  mi_LastMetricAt := synced |}.

Definition sample_request (action name : gostring) (key : gostring) (p : params) : ResourceOperationRequest := {|
  ro_Action := action; ro_ResourceType := []; ro_Namespace := []; ro_ResourceName := name;
  ro_Reason := $"cleanup"; ro_ConfirmText := name; ro_Confirmed := true; ro_IdempotencyKey := key;
  ro_Params := p |}.
Definition create_topic : ResourceOperationRequest :=
  sample_request OperationActionKafkaTopicCreate $"events" $"k-1" [($"partitions", AInt 3)].
Definition delete_topic : ResourceOperationRequest :=
  sample_request OperationActionKafkaTopicDelete $"events" $"k-2" [].
Definition skip_backlog : ResourceOperationRequest :=
  sample_request OperationActionPulsarSubscriptionSkip $"persistent://shop/eu/orders" $"k-3"
    [($"subscription", AText $"billing")].
Definition sample_operator : Operator := {| opr_ID := 7; opr_Username := $"ops"; opr_ClientIP := $"10.0.0.1" |}.

Definition sample_config : HighRiskOperationConfig :=
  {| hc_Enabled := true; hc_ReasonRequired := true; hc_OperationMaxMetadataAge := 0;
     hc_OperationMaxMetricAge := 0; hc_RequireFreshMetricHighRisk := true |}.
(** Everything answers; the time passes with the calls. *)
Definition sample_env (i : MQInstance) (stored : option MQResource) : mq_env := {|
  oe_instance := fun _ _ => Ok i; oe_credential := None;
  oe_highRisk := Some (fun _ => Ok (Some sample_config)); oe_resource := fun _ _ _ _ _ => Ok stored;
  oe_group := fun _ _ _ _ _ => Ok None; oe_bindings := fun _ _ => Ok []; oe_audit_query := fun _ => None;
  oe_audit_read := fun _ => true; oe_audit_write := fun _ => true; oe_call := fun _ _ _ => None;
  oe_discover := fun _ => Ok None; oe_replace := fun _ => None; oe_instance_update := fun _ => None;
  oe_now := fun es => 1000 + Z.of_nat (length es); oe_time_text := fmt_d |}.
Definition fresh_world : mq_world :=
  {| mw_events := []; mw_audits := {| at_rows := []; at_next := 1 |}; mw_locks := [] |}.

Definition kafka_env : mq_env := sample_env (sample_mq MQTypeKafka $"prod" (Some 900)) None.
Definition executed (r : ResourceOperationRequest) : result ResourceOperationResultVO * mq_world :=
  ExecuteResourceOperation kafka_env 3 r sample_operator fresh_world.

(** A topic is created with one call, and the audit row says so. *)
Example create_topic_calls : calls (executed create_topic).2 = [MqCall 3 (KafkaCreateTopics $"events" 3 1 []) true] /\
  oa_Status <$> at_rows (mw_audits (executed create_topic).2) = [AuditStatusSuccess] /\
  mw_locks (executed create_topic).2 = [].
Proof. vm_compute. repeat split. Qed.
(** A deletion needs the name of the topic. *)
Example delete_topic_calls : calls (executed delete_topic).2 = [MqCall 3 (KafkaDeleteTopics $"events") true].
Proof. vm_compute. reflexivity. Qed.

(** ** The trail *)
Definition all_rows : AuditChainVerifyRequest :=
  {| cr_InstanceID := 0; cr_Limit := 0; cr_RestrictToAllowed := false; cr_AllowedIDs := [] |}.
Definition no_messages : audit_table MQMessageAudit := {| at_rows := []; at_next := 1 |}.
Definition two_requests : list (Z * ResourceOperationRequest * Operator) :=
  [(3, create_topic, sample_operator); (3, delete_topic, sample_operator)].

Lemma sequential_requests_verify_witness :
  mw_locks (execute_all kafka_env two_requests fresh_world) = [] /\
  exists v, VerifyAuditChain None (mw_audits (execute_all kafka_env two_requests fresh_world)) no_messages
    $"operation" all_rows = Ok v /\ cv_Valid v = true /\ cv_Findings v = [].
Proof.
  apply (sequential_requests_verify kafka_env two_requests fresh_world no_messages $"operation" all_rows).
  - reflexivity.
  - apply quiet_empty. lia.
  - apply quiet_empty. lia.
Defined.

(** The same trail, the address of the operator's client rewritten: it passes as well. *)
Definition moved_client (a : MQOperationAudit) : MQOperationAudit :=
  {| oa_ID := oa_ID a; oa_InstanceID := oa_InstanceID a; oa_InstanceName := oa_InstanceName a;
     oa_MQType := oa_MQType a; oa_ResourceType := oa_ResourceType a;
     oa_ResourceName := oa_ResourceName a; oa_Namespace := oa_Namespace a;
     oa_Action := oa_Action a; oa_RiskLevel := oa_RiskLevel a; oa_Status := oa_Status a;
     oa_OperationID := oa_OperationID a; oa_IdempotencyKey := oa_IdempotencyKey a;
     oa_LockKey := oa_LockKey a; oa_ConfirmText := oa_ConfirmText a;
     oa_RequestJSON := oa_RequestJSON a; oa_ResultJSON := oa_ResultJSON a;
     oa_BeforeSnapshotJSON := oa_BeforeSnapshotJSON a;
     oa_AfterSnapshotJSON := oa_AfterSnapshotJSON a; oa_DiffJSON := oa_DiffJSON a;
     oa_WarningsJSON := oa_WarningsJSON a; oa_ImpactSummaryJSON := oa_ImpactSummaryJSON a;
     oa_OperationBackupJSON := oa_OperationBackupJSON a;
     oa_RollbackHintJSON := oa_RollbackHintJSON a; oa_RollbackSupported := oa_RollbackSupported a;
     oa_RollbackRiskLevel := oa_RollbackRiskLevel a;
     oa_MetadataRefreshStatus := oa_MetadataRefreshStatus a;
     oa_MetadataRefreshError := oa_MetadataRefreshError a; oa_Reason := oa_Reason a;
     oa_OperatorID := oa_OperatorID a; oa_OperatorName := oa_OperatorName a;
     oa_ClientIP := $"10.9.9.9"; oa_StartedAt := oa_StartedAt a;
     oa_FinishedAt := oa_FinishedAt a; oa_DurationMs := oa_DurationMs a;
     oa_Message := oa_Message a; oa_PreviousAuditHash := oa_PreviousAuditHash a;
     oa_AuditHash := oa_AuditHash a |}.
(** The plain rows of two operations. *)
Definition plain_row (resource : gostring) : MQOperationAudit :=
  new_audit kafka_env (sample_mq MQTypeKafka $"prod" (Some 900))
    (newOperationValidation (sample_mq MQTypeKafka $"prod" (Some 900))
       (sample_request OperationActionKafkaTopicCreate resource [] []) RiskLevelLow)
    (sample_request OperationActionKafkaTopicCreate resource [] []) sample_operator 1000.
Definition created (t : audit_table MQOperationAudit) (a : MQOperationAudit) := CreateAudit true true t a.
Definition empty_trail : audit_table MQOperationAudit := {| at_rows := []; at_next := 1 |}.
Definition trail_of_two : audit_table MQOperationAudit :=
  (created (created empty_trail (plain_row $"a")).2 (plain_row $"b")).2.
Definition moved_trail : audit_table MQOperationAudit :=
  {| at_rows := moved_client <$> at_rows trail_of_two; at_next := at_next trail_of_two |}.

Lemma trail_of_two_quiet : quiet trail_of_two.
Proof. apply quiet_create; [apply quiet_create; [by apply quiet_empty|..] |..]; reflexivity. Qed.

Definition report (t : audit_table MQOperationAudit) : AuditChainVerifyVO :=
  match verify_table None t all_rows with Ok v => v | Err _ => empty_report end.
Lemma report_verify t : verify_table None t all_rows = Ok (report t).
Proof. reflexivity. Qed.
Lemma linked_report t : well_linked t -> cv_Valid (report t) = true.
Proof. intros H. unfold report. by destruct (newest_verifies t all_rows H) as (v & -> & Hok & _). Qed.
Lemma moved_ascending a b next : ascending {| at_rows := [a; b]; at_next := next |} ->
  ascending {| at_rows := [moved_client a; moved_client b]; at_next := next |}.
Proof.
  intros [Hs Hn]. split; [|by inversion Hn as [|? ? ? Hn']; subst; inversion Hn'; subst; repeat constructor].
  inversion Hs as [|? ? Hs' Ha]; subst. inversion Ha; subst. repeat constructor. assumption.
Qed.
(** The verification does not see the address, of any two rows. *)
Lemma moved_report a b next : ascending {| at_rows := [a; b]; at_next := next |} ->
  report {| at_rows := [moved_client a; moved_client b]; at_next := next |} =
  report {| at_rows := [a; b]; at_next := next |}.
Proof.
  intros Ha. unfold report. rewrite !whole_verified by (done || by apply moved_ascending). reflexivity.
Qed.
Lemma tampering_shows_witness :
  Forall2 (fun a a' => operation_content a = operation_content a')
    (checked_rows trail_of_two all_rows) (checked_rows moved_trail all_rows) \/
  exists i a a', checked_rows trail_of_two all_rows !! i = Some a /\ checked_rows moved_trail all_rows !! i = Some a' /\
    collision (row_text a) (row_text a').
Proof.
  pose proof (quiet_linked _ trail_of_two_quiet) as Hlinked.
  pose proof (linked_report _ Hlinked) as Hok.
  assert (report moved_trail = report trail_of_two) as Hsame
    by exact (moved_report _ _ _ (proj1 Hlinked)).
  apply (tampering_shows trail_of_two moved_trail all_rows (report trail_of_two) (report moved_trail)).
  - exact (proj1 Hlinked).
  - exact (moved_ascending _ _ _ (proj1 Hlinked)).
  - reflexivity.
  - apply report_verify.
  - apply report_verify.
  - exact Hok.
  - rewrite Hsame. exact Hok.
  - rewrite Hsame. reflexivity.
  - rewrite Hsame. reflexivity.
Defined.

(** Two operations that overlap: the first is finished when the second has been created. *)
Definition row_of (r : result MQOperationAudit) : MQOperationAudit := match r with Ok a => a | Err _ => plain_row [] end.
Lemma created_rows t a : CreateAudit true true t a = (Ok (row_of (created t a).1), (created t a).2).
Proof. reflexivity. Qed.
Definition first_created := created empty_trail (plain_row $"a").
Definition second_created := created first_created.2 (plain_row $"b").
Lemma finish_ID status message result t t' a : oa_ID (set_finish status message result t t' a) = oa_ID a.
Proof. reflexivity. Qed.
Definition finished_row : MQOperationAudit :=
  set_finish AuditStatusSuccess $"done" [] 1000 2000 (row_of first_created.1).
Definition overlapped := UpdateAudit true true second_created.2 finished_row.
Lemma overlap_breaks_witness :
  cv_Valid (report overlapped.2) = false \/
  collision (row_text overlapped.1) (row_text (row_of first_created.1)).
Proof.
  apply (overlap_breaks empty_trail (plain_row $"a") (plain_row $"b") (row_of first_created.1) first_created.2
           (row_of second_created.1) second_created.2 overlapped.1 overlapped.2 finished_row all_rows).
  - by apply quiet_empty.
  - reflexivity.
  - reflexivity.
  - reflexivity.
  - reflexivity.
  - apply created_rows.
  - apply created_rows.
  - apply finish_ID.
  - vm_compute. discriminate.
  - apply surjective_pairing.
  - reflexivity.
  - vm_compute. discriminate.
  - apply report_verify.
Defined.
(** What the verification says of it. *)
Example overlap_reported : cf_Message <$> cv_Findings (report overlapped.2) = [$"审计链 previous hash 不连续"].
Proof. vm_compute. reflexivity. Qed.

(** ** Keys *)
Definition delete_same_key : ResourceOperationRequest :=
  sample_request OperationActionKafkaTopicDelete $"events" $"k-1" [].
(** The topic is created, deleted under another key, and the first key is used again. *)
Lemma replay_not_applied_witness :
  let w1 := (ExecuteResourceOperation kafka_env 3 create_topic sample_operator fresh_world).2 in
  let w2 := execute_all kafka_env [(3, delete_topic, sample_operator)] w1 in
  calls (ExecuteResourceOperation kafka_env 3 delete_same_key sample_operator w2).2 = calls w2.
Proof.
  apply (replay_not_applied kafka_env 3 create_topic delete_same_key sample_operator sample_operator
    [(3, delete_topic, sample_operator)] fresh_world).
  - constructor.
  - reflexivity.
  - by intros es i [= <-].
  - vm_compute. discriminate.
  - reflexivity.
  - vm_compute. discriminate.
Defined.

(** Two requests with one key whose checks both run before the first row is
    stored: the broker is called twice. *)
Definition checked_first := check_operation kafka_env 3 create_topic fresh_world.
Definition run_checked (c : result (MQInstance * ResourceOperationAdapter * validated * option ResourceOperationResultVO))
    (w : mq_world) : mq_world :=
  match c with
  | Ok (i, a, vr, earlier) => (run_operation kafka_env i a vr earlier sample_operator w).2
  | Err _ => w
  end.
Example same_key_twice :
  calls (run_checked checked_first.1 (run_checked checked_first.1 fresh_world)) =
  [MqCall 3 (KafkaCreateTopics $"events" 3 1 []) true; MqCall 3 (KafkaCreateTopics $"events" 3 1 []) true].
Proof. vm_compute. reflexivity. Qed.

(** ** Validations *)
Definition sample_kafka : MQInstance := sample_mq MQTypeKafka $"prod" (Some 900).
Lemma revalidation_stable_witness : exists v q,
  ad_Validate kafka_adapter sample_kafka create_topic = Ok (v, q) /\
  ad_Validate kafka_adapter sample_kafka q = Ok (v, q).
Proof.
  eexists _, _. split; [vm_compute; reflexivity|].
  apply (revalidation_stable MQTypeKafka kafka_adapter sample_kafka create_topic); [reflexivity | vm_compute; discriminate |].
  vm_compute. reflexivity.
Defined.

Definition sample_pulsar : MQInstance := sample_mq MQTypePulsar $"prod" (Some 900).
Lemma subscription_call_misses_topic_witness : exists v q,
  pulsar_ValidateOperation sample_pulsar skip_backlog = Ok (v, q) /\
  rv_ResourceName v = operationStringParam (ro_Params skip_backlog) subscription_keys.
Proof.
  eexists _, _. split; [vm_compute; reflexivity|].
  eapply (subscription_call_misses_topic sample_pulsar skip_backlog); [vm_compute; reflexivity|].
  left. vm_compute. reflexivity.
Defined.
(** The address that is sent, and the one of the subscription. *)
Definition sent_path (r : result applied) : gostring :=
  match r with Ok (HttpRequest _ path _, _) => path | _ => [] end.
Example skip_backlog_address :
  match pulsar_ValidateOperation sample_pulsar skip_backlog with
  | Ok (_, q) => sent_path (pulsar_ApplyOperation sample_pulsar q)
  | Err _ => []
  end = $"/admin/v2/persistent/billing/subscription/billing/skip_all" /\
  sent_path (pulsar_ApplyOperation sample_pulsar skip_backlog) =
  $"/admin/v2/persistent/shop/eu/orders/subscription/billing/skip_all".
Proof. vm_compute. split; reflexivity. Qed.

(** A tenant with a slash: the plan that is checked names one namespace, the
    plan made from its result another one. *)
Definition slashed_ttl : ResourceOperationRequest :=
  sample_request OperationActionPulsarTTLUpdate [] []
    [($"tenant", AText $"a/b"); ($"namespace", AText $"c"); ($"ttlSeconds", AInt 60)].
Definition planned_name (res : result validated) : gostring := match res with Ok (v, _) => rv_ResourceName v | Err _ => [] end.
Example slashed_tenant_renamed :
  planned_name (pulsar_ValidateOperation sample_pulsar slashed_ttl) = $"a/b/c" /\
  match pulsar_ValidateOperation sample_pulsar slashed_ttl with
  | Ok (_, q) => planned_name (pulsar_ValidateOperation sample_pulsar q)
  | Err _ => []
  end = $"a/b/b".
Proof. vm_compute. split; reflexivity. Qed.

(** ** A retention that is cut to a second *)
Definition sample_topic (config : gostring) : MQResource := {|
  mr_ID := 5; mr_ResourceType := ResourceTypeTopic; mr_Namespace := []; mr_Name := $"events";
  mr_FullName := $"events"; mr_Durable := false; mr_PartitionCount := 3; mr_ReplicaCount := 1;
  mr_MessageCount := 0; mr_Backlog := 0; mr_ConsumerCount := 0; mr_ConfigJSON := config;
  mr_LastSyncAt := Some 900 |}.
Definition cut_retention : ResourceOperationRequest :=
  sample_request OperationActionKafkaTopicConfigUpdate $"events" [] [($"configs", ATextMap [($"retention.ms", $"1000")])].
Definition stored_topic_env : mq_env := sample_env sample_kafka (Some (sample_topic [])).
Definition cut_base : validated :=
  match ad_Validate kafka_adapter sample_kafka cut_retention with
  | Ok vr => vr
  | Err _ => (newOperationValidation sample_kafka cut_retention RiskLevelHigh, cut_retention)
  end.
Definition planned (res : result validated * mq_world) : validated :=
  match res.1 with Ok vr => vr | Err _ => cut_base end.
Definition cut_plan : validated :=
  planned (plan_operation stored_topic_env sample_kafka kafka_adapter cut_retention fresh_world).
Lemma unread_config_never_elevates_witness :
  rv_RiskLevel cut_plan.1 = or_text (rv_RiskLevel cut_base.1) RiskLevelLow.
Proof.
  apply (unread_config_never_elevates stored_topic_env sample_kafka kafka_adapter cut_retention fresh_world
    cut_base.1 cut_plan.2 cut_plan.1 fresh_world).
  - reflexivity.
  - vm_compute. reflexivity.
  - vm_compute. discriminate.
  - vm_compute. discriminate.
  - by intros es id t n m x [= <-].
  - vm_compute. reflexivity.
Defined.
Example cut_plan_medium : rv_RiskLevel cut_plan.1 = RiskLevelMedium.
Proof. vm_compute. reflexivity. Qed.
(** With the configuration stored, the same request is of high risk. *)
Definition week_reader : JsonReader :=
  {| read_text_map _ := None; read_map _ := Some [($"retention.ms", AText $"604800000")] |}.
Example cut_plan_high :
  rv_RiskLevel (planned (@plan_operation week_reader sample_tables
    (sample_env sample_kafka (Some (sample_topic $"stored"))) sample_kafka (@kafka_adapter week_reader sample_tables)
    cut_retention fresh_world)).1 = RiskLevelHigh.
Proof. vm_compute. reflexivity. Qed.
